(* ===== verification/_CoqProject ===== *)
-Q . S2P
Prelude.v
Memory.v
Libc.v
PhaseAlloc.v
StagedValues.v
Items.v
Calls.v
CallLaws.v
StageKit.v
SockTypes.v
Syscalls.v
Stubs.v
SyscallLaws.v
NumberCalls.v
Platform.v
Handler.v
Request.v
HandlerCalls.v
Dispatch.v
Scenario.v
Transfer.v
Guarantees.v
DispatchLaws.v
Invariants.v
Host.v
HostLaws.v
EndToEnd.v
GdbHost.v
Backend.v
SgxHost.v
SgxLaws.v
KvmHost.v
Loader.v
LoaderLaws.v
SnpLoad.v
SnpLoadLaws.v
SgxLoad.v
SgxLoadLaws.v
LoadSample.v
SgxHeap.v
SgxShim.v
SgxShimLaws.v
SgxGuarantees.v
SnpReport.v
KvmMachine.v
Ghcb.v
KvmSample.v
GhcbLaws.v
KvmHostcall.v
KvmAlloc.v
KvmShim.v
KvmShimLaws.v
KvmGuarantees.v
CpuidPage.v
Asm.v
AsmLaws.v
KvmAsm.v
KvmEnter.v
KvmAsmSample.v
SgxAsm.v
KvmBoot.v
KvmBootTables.v
KvmPaging.v
KvmPagingLaws.v
KvmSplit.v
KvmClear.v
KvmBootMap.v
KvmShare.v
KvmPagingSample.v
Sign.v
SignedLaunch.v
SignSample.v
WasmConfig.v
WasmLoader.v
WasmLaws.v
WasmTls.v
WasmSample.v
