(* ===== verification/Prelude.v ===== *)
(** * Enarx: a verification development

    Enarx runs a workload in a _keep_, a process or virtual machine that the
    hardware protects from its host.  Inside the keep a _shim_ intercepts the
    system calls of the workload and forwards the permitted ones to the host
    through a shared _block_ of words, the sallyport.  The host is not trusted:
    what it puts in the block must not corrupt the keep.  The keep is not
    trusted by the host either: what it puts in the block must not corrupt the
    host process.  The development models both sides and the protocol between
    them, and proves what each side is protected from.

    ** The parts and where they are

    Foundations.
    - [Prelude]: [result], [outcome] (return, panic, detected attack,
      divergence), the state monads [io] and [fal], machine integers, tactics.
    - [Memory]: one flat memory [Z → Z] of bytes, frames ([same_except]),
      little-endian words.
    - [Libc]: [crates/sallyport/src/libc.rs], constants and layouts.

    The sallyport, guest side ([crates/sallyport/src/guest]).
    - [PhaseAlloc], [StagedValues]: [alloc/], the allocator of the block with its
      phases, and the references that are staged, committed and collected.
    - [Items]: [crates/sallyport/src/item], the wire format and its decoding.
    - [Calls], [CallLaws], [StageKit]: [call/], the traits of a call and the laws
      a call obeys.
    - [SockTypes], [Syscalls], [Stubs], [SyscallLaws], [NumberCalls]: one record
      and one instance per system call, stub, debugger call and Enarx call, and
      their laws.
    - [Platform]: [platform.rs] and [UserMemScope], validation of pointers.
    - [Handler]: [handler.rs], [execute] and [attacked], with the classes a
      handler implements ([Handler], [HandlerLaws], [HandlerReturns]).
    - [HandlerCalls], [Dispatch]: the methods of [handler.rs] and the dispatcher
      [syscall], one definition per arm.
    - [Request], [Scenario], [Transfer], [Guarantees], [DispatchLaws],
      [Invariants]: what is proved of them; [Scenario] is a small handler the
      properties are evaluated on.

    The sallyport, host side.
    - [Host], [HostLaws]: [crates/sallyport/src/host]; the kernel is a parameter
      ([Kernel]) with its documented behaviour ([KernelSpec]).
    - [EndToEnd]: a keep served by that host, as in [crates/sallyport/tests].
    - [GdbHost]: [execute_gdb] of [src/backend/mod.rs].
    - [Backend]: the loop over the items of a block that the backends share.
    - [SgxHost], [SgxLaws]: [src/backend/sgx/{thread,attestation}.rs].
    - [KvmHost]: [src/backend/kvm], the SNP personality of
      [src/backend/sev/mod.rs], and [keep_exec] of [src/exec/mod.rs].

    Making a keep ([src/backend]).
    - [Loader], [LoaderLaws]: [binary.rs], the configurations ([config.rs] of each
      backend) and [crates/sallyport/src/elf.rs]: the shim and the executable are cut
      into segments that a [Mapper] gets; the crates [goblin] and [semver] are
      parameters.
    - [SnpLoad], [SnpLoadLaws]: [sev/{builder,hasher,cpuid_page}.rs] and
      [sev/snp/launch], mappers that launch and that measure an SNP guest; the
      kernel with the firmware is a parameter ([SnpKernel], [SnpLaws]).
    - [SgxLoad], [SgxLoadLaws]: [sgx/{builder,hasher,ioctls}.rs], mappers that build
      and that measure an enclave, and the pool of thread control structures; the
      device, which keeps the log of ECREATE, EADD and EEXTEND that the processor
      measures, and the crates [sgx] and [mmarinus] are parameters.
    - [LoadSample]: small files and machines these are evaluated on.
    - [CpuidPage]: the CPUID page from the host to the KVM shim, against a
      specification of the page of its own.

    - [Sign], [SignedLaunch], [SignSample]: [src/cli/sign.rs] with the
      structures for the firmware ([sev/snp/sign.rs]), and the launch of a keep with its
      signatures; ECDSA is a parameter ([P384], [P384Laws]).

    The workload ([crates/enarx-config], [crates/exec-wasmtime]).
    - [WasmConfig]: the configuration, decoded from and encoded to the
      values of a TOML document.
    - [WasmLoader], [WasmLaws]: the states of the loader, [loader/*.rs]; cryptography,
      encodings, the repository, the network and [wasmtime] are parameters ([WasmEnv]).
    - [WasmTls]: [loader/compiled/{tls,null}.rs]; [rustls] is a parameter.
      [WasmSample] evaluates these.

    Assembly.
    - [Asm], [AsmLaws]: the instructions that the sources use, on a processor with
      registers, flags, extended state, system registers and the flat memory.
    - [SgxAsm]: [_start], [relocate], [clearx] and [clearp] of
      [crates/shim-sgx/src/main.rs].
    - [KvmAsm], [KvmEnter], [KvmAsmSample]: the stubs of
      [interrupts.rs], [_syscall_enter] of [syscall.rs] and [usermode.rs] of
      [crates/shim-kvm/src], with the Rust functions they call.
    - [KvmBoot], [KvmBootTables]: [_start] of
      [crates/shim-kvm/src/main.rs] from the 32-bit code on.

    The SGX shim ([crates/shim-sgx/src]).
    - [SgxHeap]: [heap.rs]; the ledger of the crate [mmledger] is a parameter.
    - [SgxShim], [SgxShimLaws], [SgxGuarantees]: [handler/mod.rs], [handler/key.rs]
      and [main] of [main.rs]; the instructions of the processor and the host
      behind an exit are parameters ([Enclave], [EnclaveLaws]).

    The KVM shim ([crates/shim-kvm/src]), which also runs in SEV-SNP guests.
    - [KvmMachine]: its state ([kvm]), the instructions and the hypervisor
      ([Machine], [MachineLaws]), the linked image ([Image]), addresses
      ([addr.rs]), page validation, the CPUID page ([snp/cpuid_page.rs]) and the
      handler of #VC ([interrupts.rs]).
    - [Ghcb], [GhcbLaws]: [snp/ghcb.rs] and [snp/secrets_page.rs], exits to the
      hypervisor and the sealed messages to the firmware; AES-GCM is a parameter
      ([Aead], [AeadLaws]).
    - [SnpReport]: [snp/attestation.rs], the encoding of the evidence, against the
      distinguished encoding rules.
    - [KvmHostcall], [KvmAlloc], [KvmShim]: [hostcall.rs], [allocator.rs],
      [syscall.rs], [exec.rs] and [shim_stack.rs]; the heap and the page table are
      parameters ([HeapOps], [Mapper]).
    - [KvmPaging]: [pagetables.rs] and [paging.rs], the tables of the image, splitting
      pages and taking the encryption bit from them, over a walk of the tables; the
      entries of the crate [x86_64] are a parameter ([EntryOps], [EntryLaws]).
      [KvmPagingLaws], [KvmSplit], [KvmClear], [KvmBootMap]: well-formed tables
      ([tables_wf]), what a change of an entry does to the walk, and the properties.
    - [KvmShare]: the rest of [snp/ghcb.rs], pages made shared with
      the hypervisor; [KvmPagingSample] evaluates all of these.
    - [KvmSample], [KvmShimLaws], [KvmGuarantees]: what is proved of them, with
      small instances of the parameters.

    ** How the code is modelled

    A Rust method [f(&mut self, ..) -> Result<T>] is a function to [handlerM] or
    [hostM], both instances of [fal]: a state and an error, with [?] as the bind
    and panics, detected attacks and divergence as further outcomes.  References
    are addresses with a length ([gref]) in the one memory; copies read and write
    that memory, so aliasing is what it is in the program.  Traits are type
    classes; what an implementation promises its clients is a class of laws, and
    the clients are proved against the class.  Integers are [Z] with the casts
    and the wrap-around written out; [+] panics on overflow in the crates built
    with overflow checks (sallyport, the shims) and wraps in the [enarx] crate.

    ** What is proved

    - Safety of the keep: [DispatchLaws.syscall_safe] (with the arguments for which the
      keep panics, [panicking_args]), [Guarantees.execute_integrity],
      [SgxGuarantees.syscall_instruction], [SgxGuarantees.shim_wx],
      [SgxGuarantees.block_outside_enclave], [SgxGuarantees.heap_grants_fresh],
      [KvmGuarantees.validated_once].
    - Attestation: [GhcbLaws.report_authentic], [GhcbLaws.nonces_never_repeat],
      [SnpReport.report_roundtrip]; how an exit looks to the hypervisor:
      [GhcbLaws.io_out_exact].
    - Page tables of the KVM shim: [KvmBootMap.shim_address_space] continues
      [KvmBootTables.boot_encrypted]; [KvmSplit.smash_translates],
      [KvmClear.clear_range_exact]; what is given to the hypervisor:
      [KvmShare.memory_shared_exact], [KvmShare.page_shared_exact].
    - What is measured is what runs: [SnpLoadLaws.snp_measured],
      [SgxLoadLaws.sgx_measured]; what is loaded and mapped: [LoaderLaws.load_exact],
      [SgxLoadLaws.sgx_mappings_exact], [CpuidPage.cpuid_roundtrip],
      [SgxLoadLaws.tcs_exclusive].
    - From signing to launching: [SignedLaunch.signed_keep_starts],
      [SignedLaunch.started_keep_signed].
    - What a workload is given: [WasmLaws.key_attested], [WasmLaws.workload_files],
      [WasmLaws.package_follows_tag], [WasmTls.accepted_handshake],
      [WasmTls.established_io_ends], [WasmConfig.config_roundtrip],
      [WasmConfig.decoded_config_wf].
    - What the assembly does with the state of the machine:
      [SgxAsm.enclave_exit_clean], [SgxAsm.unready_exception_loops],
      [KvmBootTables.boot_encrypted], [KvmAsm.vc_cpuid_exact],
      [KvmEnter.syscall_enter_refined], [KvmAsm.usermode_clean].
    - Safety of the host: [HostLaws.host_confined], [SgxLaws.sgx_block_safe],
      [KvmHost.slot_served], [Items.block_iteration_safe].  The keep must give the
      kernel's contract its due ([within_contract]: ioctl, recvfrom, fcntl); what it can
      do otherwise is [HostLaws.host_escapes].
    - Meaning of the calls: [Guarantees.syscall_on_wire], [Guarantees.number_on_wire],
      the transfer theorems of [Transfer], and their composition with the host in
      [EndToEnd]; [GdbHost.debugger_answers]; [Guarantees.result_decoding].
    - The allocator and the wire format: the properties of [PhaseAlloc] and [Items];
      [KvmHost.sallyport_slots_exact], [HostLaws.deref_exact].
    - Bookkeeping: [SgxLaws.cssa_follows_stack], [Guarantees.rt_sigaction_installs].
    - Termination: [Platform.validate_str_correct],
      [KvmGuarantees.halving_terminates]; what never ends:
      [Guarantees.attacked_never_returns].
    - Behaviour that differs from what is meant is stated as such, for instance
      [Guarantees.poll_drops_ready], [SgxGuarantees.brk_growth_forgotten],
      [SgxLaws.mprotect_refusal_reads_ok], [HostLaws.host_escapes],
      [GhcbLaws.stale_report_accepted], [KvmGuarantees.set_gs_writes_anywhere],
      [KvmGuarantees.refused_memory_spins].

    ** Bounds and fuel

    Recursion over a block has one more step than the block has words, each
    item being at least two words long; [Items.block_iteration_safe] shows that
    it does not run out.  [validate_str] iterates at most [2 ^ 64] times, by
    doubling; it moves to a higher address each time.  [enter_loop] takes the
    number of entries as an argument, since a keep may run forever; [attacked] has
    fuel and is shown to exhaust any amount of it.  Elsewhere a call of [attacked] is
    the outcome [Attacked].  The loops of
    the KVM shim's allocator that halve a size have 64 iterations, shown to be
    enough by [KvmGuarantees.halving_terminates]; the loop that waits for the host
    to give memory takes its fuel as an argument, since it need not end.  So does
    [psc_loop], which ends when the hypervisor says so, and the loop of a TLS handshake,
    which ends when the peer does its part; [clear_c_bit_address_range]
    has three steps a page ([clear_fuel]), enough by [KvmClear.clear_range_exact].  Assembly
    runs with fuel, one step an instruction: the theorems name a number of steps that
    is shown to be enough (700 for the search of the CPUID page, [fuel64] for the loops
    over page tables), or hold for every larger number.

    ** What is not modelled

    The instructions for enclaves and for SNP guests are parameters of the model of
    the Rust code, as is the compiled code in the model of the assembly.  So are the
    kernel, KVM, the attestation daemon, the debugger's connection and the crates the
    sources call.  The instructions are modelled as far as the sources depend on them:
    no faults, no interrupts between two instructions, 16-bit code left out, no cache of
    translations.  The host and the hypervisor change shared memory only at exits, so two
    reads of a shared page without an exit in between agree: what a second processor
    of the host could do between them is not covered, neither for the block nor for the
    response pages of [snp/ghcb.rs].  Of the code for the features [gdb] and
    [dbg], which are off by default, only the calls of the debugger and [GdbHost] are
    there.  Of the KVM shim, descriptor tables and the debugger are not
    modelled; nor are probing and, apart from signing and the choice of a backend, the
    command line. *)

From Stdlib Require Export ZArith Lia.
From stdpp Require Export base tactics option numbers sets strings list.

#[global] Open Scope Z_scope.

Declare Scope enarx_scope.
Delimit Scope enarx_scope with enarx.
#[global] Open Scope enarx_scope.

(** ** Results, panics and divergence

    [result] is [crate::Result<T>], whose error is a C [errno].  [outcome]
    adds what a Rust function can do besides returning: panic, enter the
    endless [Handler::attacked] loop, or loop forever otherwise. *)

Inductive result (A : Type) : Type :=
| Ok (a : A)
| Err (e : Z).
Arguments Ok {A} a.
Arguments Err {A} e.

Inductive outcome (A : Type) : Type :=
| Return (a : A)
| Panicked
| Attacked
| Diverged.
Arguments Return {A} a.
Arguments Panicked {A}.
Arguments Attacked {A}.
Arguments Diverged {A}.

#[global] Instance result_ret : MRet result := λ A a, Ok a.
#[global] Instance result_bind : MBind result := λ A B f r,
  match r with Ok a => f a | Err e => Err e end.
#[global] Instance result_fmap : FMap result := λ A B f r,
  match r with Ok a => Ok (f a) | Err e => Err e end.

#[global] Instance outcome_ret : MRet outcome := λ A a, Return a.
#[global] Instance outcome_bind : MBind outcome := λ A B f r,
  match r with
  | Return a => f a
  | Panicked => Panicked
  | Attacked => Attacked
  | Diverged => Diverged
  end.

Definition ok_or {A : Type} (o : option A) (e : Z) : result A :=
  match o with Some a => Ok a | None => Err e end.

Definition is_ok {A : Type} (r : result A) : bool :=
  match r with Ok _ => true | Err _ => false end.

(** A byte string literal, [b"..."]. *)
Definition bytes_of_string (s : string) : list Z :=
  (λ c, Z.of_nat (Ascii.nat_of_ascii c)) <$> String.list_ascii_of_string s.

(** ** State monads

    [io S A] threads a state through code that may panic or diverge; [fal S A]
    is the same for functions returning [crate::Result], whose bind is the [?]
    operator: the state reached when the error was raised is kept. *)

Definition io (S A : Type) : Type := S → outcome (A * S).
Definition fal (S A : Type) : Type := S → outcome (result A * S).

#[global] Instance io_ret {S} : MRet (io S) := λ A a s, Return (a, s).
#[global] Instance io_bind {S} : MBind (io S) := λ A B f m s,
  match m s with
  | Return (a, s') => f a s'
  | Panicked => Panicked
  | Attacked => Attacked
  | Diverged => Diverged
  end.

#[global] Instance fal_ret {S} : MRet (fal S) := λ A a s, Return (Ok a, s).
#[global] Instance fal_bind {S} : MBind (fal S) := λ A B f m s,
  match m s with
  | Return (Ok a, s') => f a s'
  | Return (Err e, s') => Return (Err e, s')
  | Panicked => Panicked
  | Attacked => Attacked
  | Diverged => Diverged
  end.

(** A pure [Result] used with [?] inside a stateful function. *)
Definition try {S A : Type} (r : result A) : fal S A := λ s, Return (r, s).

(** A pure computation that may panic, used inside a stateful function. *)
Definition must {S A : Type} (o : outcome A) : fal S A := λ s,
  match o with
  | Return a => Return (Ok a, s)
  | Panicked => Panicked
  | Attacked => Attacked
  | Diverged => Diverged
  end.

(** Running a fallible function as one that returns its [Result]. *)
Definition attempt {S A : Type} (m : fal S A) : io S (result A) := m.

(** A [loop] of at most [2 ^ d] iterations: [inl] goes on, [inr] breaks. *)
Fixpoint loop2 {S R : Type} (step : S → S + R) (d : nat) (s : S) : S + R :=
  match d with
  | O => step s
  | S d => match loop2 step d s with inl s => loop2 step d s | inr r => inr r end
  end.

(** ** Machine integers (x86_64: [usize] has 64 bits) *)

Definition usize_MAX : Z := 2 ^ 64 - 1.
Definition isize_MAX : Z := 2 ^ 63 - 1.
Definition c_int_MAX : Z := 2 ^ 31 - 1.
Definition u8_MAX : Z := 2 ^ 8 - 1.

(** [sallyport::NULL] *)
Definition NULL : Z := usize_MAX.

Definition is_usize (z : Z) : Prop := 0 ≤ z ≤ usize_MAX.
Definition is_c_int (z : Z) : Prop := - 2 ^ 31 ≤ z ≤ c_int_MAX.

(** Casts with [as]: widening a signed integer sign-extends, narrowing
    truncates. *)
Definition as_usize (z : Z) : Z := z mod 2 ^ 64.
Definition as_u64 (z : Z) : Z := z mod 2 ^ 64.
Definition as_u32 (z : Z) : Z := z mod 2 ^ 32.
Definition as_u8 (z : Z) : Z := z mod 2 ^ 8.
Definition as_c_int (z : Z) : Z :=
  let u := z mod 2 ^ 32 in if u <? 2 ^ 31 then u else u - 2 ^ 32.
Definition as_i64 (z : Z) : Z :=
  let u := z mod 2 ^ 64 in if u <? 2 ^ 63 then u else u - 2 ^ 64.

Definition checked_add (a b : Z) : option Z :=
  if a + b <=? usize_MAX then Some (a + b) else None.
Definition checked_sub (a b : Z) : option Z :=
  if b <=? a then Some (a - b) else None.
Definition checked_mul (a b : Z) : option Z :=
  if a * b <=? usize_MAX then Some (a * b) else None.

(** [x86_64::VirtAddr::new] sign-extends bit 47 and panics when the bits above it
    hold anything else than that extension. *)
Definition VirtAddr_new (addr : Z) : outcome Z :=
  if (addr <? 2 ^ 47) || (2 ^ 64 - 2 ^ 47 <=? addr) then Return addr
  else if addr <? 2 ^ 48 then Return (addr + (2 ^ 64 - 2 ^ 48)) else Panicked.

(** Plain [+]: the crates are built with [overflow-checks = true]. *)
Definition add_usize (a b : Z) : outcome Z :=
  if a + b <=? usize_MAX then Return (a + b) else Panicked.

(** [<*const u8>::align_offset]: bytes to the next multiple of [align]. *)
Definition align_offset (addr align : Z) : Z := (- addr) mod align.

(** ** Automation

    [dlia] is [lia] with division and modulus by constants; [run] unfolds one
    monadic step of a hypothesis or of the goal and splits on its result. *)

Ltac dlia := Z.div_mod_to_equations; lia.

Ltac bool_to_prop :=
  repeat match goal with
  | H : (_ && _) = true |- _ => apply andb_true_iff in H as [? ?]
  | H : (_ || _) = false |- _ => apply orb_false_iff in H as [? ?]
  | H : (_ <? _) = true |- _ => apply Z.ltb_lt in H
  | H : (_ <? _) = false |- _ => apply Z.ltb_ge in H
  | H : (_ <=? _) = true |- _ => apply Z.leb_le in H
  | H : (_ <=? _) = false |- _ => apply Z.leb_gt in H
  | H : (_ =? _) = true |- _ => apply Z.eqb_eq in H
  | H : (_ =? _) = false |- _ => apply Z.eqb_neq in H
  end.

Create HintDb enarx.
Create Rewrite HintDb enarx_len.

(** ** Monad laws used by the proofs *)

Lemma fal_bind_ok {S A B : Type} (m : fal S A) (f : A → fal S B) s a s' :
  m s = Return (Ok a, s') → (m ≫= f) s = f a s'.
Proof. intros H. unfold mbind, fal_bind. by rewrite H. Qed.

Lemma fal_bind_inv {S A B : Type} (m : fal S A) (f : A → fal S B) s b s2 :
  (m ≫= f) s = Return (Ok b, s2) →
  ∃ a s1, m s = Return (Ok a, s1) ∧ f a s1 = Return (Ok b, s2).
Proof.
  unfold mbind, fal_bind. intros H.
  destruct (m s) as [[[a|e] s1]| | |]; try discriminate. eauto.
Qed.

Lemma io_bind_ok {S A B : Type} (m : io S A) (f : A → io S B) s a s' :
  m s = Return (a, s') → (m ≫= f) s = f a s'.
Proof. intros H. unfold mbind, io_bind. by rewrite H. Qed.

Lemma io_bind_inv {S A B : Type} (m : io S A) (f : A → io S B) s b s2 :
  (m ≫= f) s = Return (b, s2) →
  ∃ a s1, m s = Return (a, s1) ∧ f a s1 = Return (b, s2).
Proof.
  unfold mbind, io_bind. intros H.
  destruct (m s) as [[a s1]| | |]; try discriminate. eauto.
Qed.

(** ** Arithmetic *)

Lemma checked_add_Some a b c :
  checked_add a b = Some c → c = a + b ∧ a + b ≤ usize_MAX.
Proof. unfold checked_add. intros H. destruct (_ <=? _) eqn:E; inv H. bool_to_prop. lia. Qed.

Lemma checked_sub_Some a b c : checked_sub a b = Some c → c = a - b ∧ b ≤ a.
Proof. unfold checked_sub. intros H. destruct (_ <=? _) eqn:E; inv H. bool_to_prop. lia. Qed.

Lemma checked_mul_Some a b c :
  checked_mul a b = Some c → c = a * b ∧ a * b ≤ usize_MAX.
Proof. unfold checked_mul. intros H. destruct (_ <=? _) eqn:E; inv H. bool_to_prop. lia. Qed.

Lemma add_usize_Return a b c :
  add_usize a b = Return c → c = a + b ∧ a + b ≤ usize_MAX.
Proof. unfold add_usize. intros H. destruct (_ <=? _) eqn:E; inv H. bool_to_prop. lia. Qed.

Lemma add_usize_ok a b : a + b ≤ usize_MAX → add_usize a b = Return (a + b).
Proof. intros H. unfold add_usize. by rewrite (proj2 (Z.leb_le _ _) H). Qed.

Lemma align_offset_bound addr align :
  0 < align → 0 ≤ align_offset addr align < align.
Proof. intros H. unfold align_offset. by apply Z.mod_pos_bound. Qed.

Lemma align_offset_aligned addr align :
  0 < align → (addr + align_offset addr align) mod align = 0.
Proof.
  intros H. unfold align_offset.
  rewrite Z.add_mod_idemp_r by lia. by rewrite Z.add_opp_diag_r, Z.mod_0_l by lia.
Qed.

Lemma align_offset_0 addr align :
  0 < align → addr mod align = 0 → align_offset addr align = 0.
Proof. intros H Ha. unfold align_offset. by apply Z.mod_opp_l_z; [lia|]. Qed.

(** No smaller non-negative displacement reaches an aligned address. *)
Lemma align_offset_least addr align k :
  0 < align → 0 ≤ k → (addr + k) mod align = 0 → align_offset addr align ≤ k.
Proof.
  intros H Hk Hm. unfold align_offset.
  replace (- addr) with (k + (- (addr + k))) by lia.
  rewrite Z.add_mod by lia. rewrite (Z.mod_opp_l_z (addr + k)) by lia.
  rewrite Z.add_0_r, Z.mod_mod by lia. by apply Z.mod_le.
Qed.

Lemma as_usize_small z : is_usize z → as_usize z = z.
Proof. unfold is_usize, as_usize, usize_MAX. intros H. apply Z.mod_small. lia. Qed.

Lemma as_usize_range z : is_usize (as_usize z).
Proof.
  unfold is_usize, as_usize, usize_MAX.
  pose proof (Z.mod_pos_bound z (2 ^ 64)). lia.
Qed.

Lemma as_c_int_range z : is_c_int (as_c_int z).
Proof.
  unfold is_c_int, as_c_int, c_int_MAX.
  pose proof (Z.mod_pos_bound z (2 ^ 32)).
  destruct (_ <? _) eqn:E; bool_to_prop; lia.
Qed.

(** A [c_int] survives being widened to [usize] and narrowed back. *)
Lemma as_c_int_as_usize z : is_c_int z → as_c_int (as_usize z) = z.
Proof.
  unfold is_c_int, as_c_int, as_usize, c_int_MAX. intros H.
  replace ((z mod 2 ^ 64) mod 2 ^ 32) with (z mod 2 ^ 32) by dlia.
  destruct (_ <? _) eqn:E; bool_to_prop; dlia.
Qed.

#[export] Hint Resolve as_usize_range as_c_int_range : enarx.

(** ** Bounded loops *)

Section loop2.
Context {S R : Type} (step : S → S + R) (measure : S → Z).

(** Every iteration that goes on increases the measure. *)
Lemma loop2_progress d s s' :
  (∀ s s', step s = inl s' → measure s + 1 ≤ measure s') →
  loop2 step d s = inl s' → measure s + 2 ^ Z.of_nat d ≤ measure s'.
Proof.
  intros Hm. revert s s'; induction d as [|d IH]; intros s s' H; cbn [loop2] in H.
  - change (2 ^ Z.of_nat 0) with 1. by apply Hm.
  - destruct (loop2 step d s) as [s1|r] eqn:E; [|done].
    apply IH in E, H. rewrite Nat2Z.inj_succ, Z.pow_succ_r by lia. lia.
Qed.

(** The loop stops when the measure is bounded. *)
Lemma loop2_terminates d s bound :
  (∀ s s', step s = inl s' → measure s + 1 ≤ measure s') →
  (∀ s s', step s = inl s' → measure s' ≤ bound) →
  bound < measure s + 2 ^ Z.of_nat d → ∃ r, loop2 step d s = inr r.
Proof.
  intros Hm Hb Hlt. destruct (loop2 step d s) as [s'|r] eqn:E; [|by exists r]. exfalso.
  apply loop2_progress in E as Hle; [|done].
  assert (∀ d s s', loop2 step d s = inl s' → ∃ s0, step s0 = inl s') as Hlast.
  { clear -R. intros d'. induction d' as [|d' IH]; intros s0 s1 H; cbn [loop2] in H; [by exists s0|].
    destruct (loop2 step d' s0) as [s2|r]; [|done]. by eapply IH. }
  apply Hlast in E as [s0 E]. apply Hb in E. lia.
Qed.

(** An invariant of the iterations holds of the result. *)
Lemma loop2_inv (I : S → Prop) (Q : R → Prop) d s :
  I s → (∀ s s', I s → step s = inl s' → I s') → (∀ s r, I s → step s = inr r → Q r) →
  match loop2 step d s with inl s' => I s' | inr r => Q r end.
Proof.
  intros Hs Hi Hr. revert s Hs; induction d as [|d IH]; intros s Hs; cbn [loop2].
  - destruct (step s) eqn:E; eauto.
  - specialize (IH s Hs) as H1. destruct (loop2 step d s) as [s1|r]; [|done]. by apply IH.
Qed.

End loop2.
