(* ===== verification/Memory.v ===== *)
(** * Byte memory

    A flat, byte-addressed address space shared by the guest, the sallyport
    block and (through the same interface) the host.  Every reference of the
    source -- [NonNull<[u8]>], [&mut T], [&[u8]] -- is an address into it, so
    that overlapping references alias exactly as the Rust pointers do. *)

From S2P Require Import Prelude.

Definition mem : Type := Z → Z.

(** Bytes [m[a .. a + n]]. *)
Definition read_bytes (m : mem) (a n : Z) : list Z := m <$> seqZ a n.

(** [ptr::copy_nonoverlapping(bs, a, bs.len())]. *)
Definition write_bytes (m : mem) (a : Z) (bs : list Z) : mem := λ x,
  if a <=? x then default (m x) (bs !! Z.to_nat (x - a)) else m x.

(** [usize::to_le_bytes] and its inverse, for [n]-byte integers. *)
Fixpoint to_le_bytes (n : nat) (z : Z) : list Z :=
  match n with
  | O => []
  | S n => z mod 256 :: to_le_bytes n (z / 256)
  end.

Fixpoint from_le_bytes (bs : list Z) : Z :=
  match bs with
  | [] => 0
  | b :: bs => b + 256 * from_le_bytes bs
  end.

Definition words_to_bytes (ws : list Z) : list Z := ws ≫= to_le_bytes 8.

Definition read_usize (m : mem) (a : Z) : Z := from_le_bytes (read_bytes m a 8).
Definition read_u32 (m : mem) (a : Z) : Z := from_le_bytes (read_bytes m a 4).
Definition write_usize (m : mem) (a v : Z) : mem := write_bytes m a (to_le_bytes 8 v).

(** [n] consecutive [usize] words. *)
Definition read_words (m : mem) (a n : Z) : list Z :=
  (λ i, read_usize m (a + 8 * i)) <$> seqZ 0 n.

(** Every cell holds a byte. *)
Definition mem_wf (m : mem) : Prop := ∀ x, 0 ≤ m x < 256.
Definition bytes_wf (bs : list Z) : Prop := Forall (λ b, 0 ≤ b < 256) bs.

(** [same_outside lo hi m m']: only cells in [lo, hi) may differ. *)
Definition same_outside (lo hi : Z) (m m' : mem) : Prop :=
  ∀ x, ¬ (lo ≤ x < hi) → m' x = m x.

(** [same_in lo hi m m']: the cells in [lo, hi) agree. *)
Definition same_in (lo hi : Z) (m m' : mem) : Prop :=
  ∀ x, lo ≤ x < hi → m' x = m x.

(** Memories that agree on every cell. *)
#[global] Instance mem_equiv : Equiv mem := λ m m', ∀ x : Z, m x = m' x.

#[global] Instance mem_equivalence : Equivalence (≡@{mem}).
Proof.
  split.
  - intros m x. done.
  - intros m m' H x. by rewrite H.
  - intros m1 m2 m3 H1 H2 x. by rewrite H1, H2.
Qed.

#[global] Instance read_bytes_proper : Proper ((≡) ==> (=) ==> (=) ==> (=)) read_bytes.
Proof.
  intros m m' Hm a ? <- n ? <-. unfold read_bytes.
  apply list_fmap_ext. intros i x _. apply Hm.
Qed.

#[global] Instance write_bytes_proper : Proper ((≡) ==> (=) ==> (=) ==> (≡)) write_bytes.
Proof.
  intros m m' Hm a ? <- bs ? <- x. unfold write_bytes.
  destruct (_ <=? _); [destruct (bs !! _)|]; simpl; auto.
Qed.

(** ** Reading and writing *)

Lemma length_read_bytes m a n : length (read_bytes m a n) = Z.to_nat n.
Proof. unfold read_bytes. by rewrite length_fmap, length_seqZ. Qed.

Lemma lookup_read_bytes m a n i :
  (i < Z.to_nat n)%nat → read_bytes m a n !! i = Some (m (a + Z.of_nat i)).
Proof.
  intros H. unfold read_bytes. rewrite list_lookup_fmap.
  rewrite (proj2 (lookup_seqZ a n i (a + Z.of_nat i))) by lia. done.
Qed.

Lemma read_bytes_nil m a n : n ≤ 0 → read_bytes m a n = [].
Proof. intros H. apply nil_length_inv. rewrite length_read_bytes. lia. Qed.

Lemma read_bytes_ext m m' a n :
  (∀ x, a ≤ x < a + n → m' x = m x) → read_bytes m' a n = read_bytes m a n.
Proof.
  intros H. unfold read_bytes. apply list_fmap_ext. intros i x Hi.
  apply lookup_seqZ in Hi as [-> Hi]. apply H. lia.
Qed.

Lemma read_bytes_app m a n1 n2 :
  0 ≤ n1 → 0 ≤ n2 →
  read_bytes m a (n1 + n2) = read_bytes m a n1 ++ read_bytes m (a + n1) n2.
Proof. intros H1 H2. unfold read_bytes. by rewrite seqZ_app, fmap_app by lia. Qed.

Lemma write_bytes_in m a bs x b :
  a ≤ x → bs !! Z.to_nat (x - a) = Some b → write_bytes m a bs x = b.
Proof.
  intros H Hb. unfold write_bytes. rewrite (proj2 (Z.leb_le _ _) H). by rewrite Hb.
Qed.

Lemma write_bytes_outside m a bs x :
  ¬ (a ≤ x < a + Z.of_nat (length bs)) → write_bytes m a bs x = m x.
Proof.
  intros H. unfold write_bytes. destruct (_ <=? _) eqn:E; [|done]. bool_to_prop.
  rewrite lookup_ge_None_2 by lia. done.
Qed.

Lemma write_bytes_frame m a bs :
  same_outside a (a + Z.of_nat (length bs)) m (write_bytes m a bs).
Proof. intros x H. by apply write_bytes_outside. Qed.

Lemma write_bytes_nil m a : write_bytes m a [] ≡ m.
Proof. intros x. by rewrite write_bytes_outside by (simpl; lia). Qed.

Lemma read_write_same m a bs n :
  n = Z.of_nat (length bs) → read_bytes (write_bytes m a bs) a n = bs.
Proof.
  intros ->. apply list_eq. intros i.
  destruct (decide (i < length bs)%nat) as [Hi|Hi].
  - rewrite lookup_read_bytes by lia.
    destruct (lookup_lt_is_Some_2 bs i Hi) as [b Hb]. rewrite Hb. f_equal.
    apply write_bytes_in; [lia|]. by replace (Z.to_nat (a + Z.of_nat i - a)) with i by lia.
  - by rewrite !lookup_ge_None_2 by (rewrite ?length_read_bytes; lia).
Qed.

Lemma read_write_disjoint m a bs p n :
  p + n ≤ a ∨ a + Z.of_nat (length bs) ≤ p →
  read_bytes (write_bytes m a bs) p n = read_bytes m p n.
Proof. intros H. apply read_bytes_ext. intros x Hx. apply write_bytes_outside. lia. Qed.

(** Reading a part of what was written. *)
Lemma read_write_prefix m a bs n :
  0 ≤ n ≤ Z.of_nat (length bs) →
  read_bytes (write_bytes m a bs) a n = take (Z.to_nat n) bs.
Proof.
  intros H. rewrite <- (read_write_same m a bs (Z.of_nat (length bs))) at 2 by done.
  replace (Z.of_nat (length bs)) with (n + (Z.of_nat (length bs) - n)) by lia.
  rewrite read_bytes_app by lia. rewrite take_app_length' by (rewrite length_read_bytes; lia).
  done.
Qed.

Lemma read_write_part m a bs o n :
  0 ≤ o → 0 ≤ n → o + n ≤ Z.of_nat (length bs) →
  read_bytes (write_bytes m a bs) (a + o) n = take (Z.to_nat n) (drop (Z.to_nat o) bs).
Proof.
  intros Ho Hn Hl. pose proof (read_write_prefix m a bs (o + n) ltac:(lia)) as Hp.
  rewrite read_bytes_app in Hp by lia.
  apply (f_equal (drop (Z.to_nat o))) in Hp. rewrite drop_app_length' in Hp by (rewrite length_read_bytes; lia).
  rewrite Hp, skipn_firstn_comm. f_equal. lia.
Qed.

Lemma write_read_id m a n : write_bytes m a (read_bytes m a n) ≡ m.
Proof.
  intros x. unfold write_bytes. destruct (_ <=? _) eqn:E; [|done]. bool_to_prop.
  destruct (read_bytes m a n !! _) as [b|] eqn:Hb; [|done]. simpl.
  apply lookup_lt_Some in Hb as Hl. rewrite length_read_bytes in Hl.
  rewrite lookup_read_bytes in Hb by done. inv Hb. f_equal. lia.
Qed.

Lemma lookup_repeat {A : Type} (x : A) n i : (i < n)%nat → repeat x n !! i = Some x.
Proof. revert i; induction n as [|n IH]; intros [|i] H; simpl; [lia|lia|done|apply IH; lia]. Qed.

(** A part of an area filled with one byte. *)
Lemma read_bytes_filled m a n z p k :
  read_bytes m a n = repeat z (Z.to_nat n) → a ≤ p → 0 ≤ k → p + k ≤ a + n →
  read_bytes m p k = repeat z (Z.to_nat k).
Proof.
  intros Hz Ha Hk Hle. apply list_eq. intros i. destruct (decide (i < Z.to_nat k)%nat) as [Hlt|Hge].
  - rewrite lookup_read_bytes, lookup_repeat by done.
    assert (read_bytes m a n !! Z.to_nat (p + Z.of_nat i - a) = Some z) as Hl
      by (rewrite Hz; apply lookup_repeat; lia).
    rewrite lookup_read_bytes in Hl by lia. rewrite <- Hl. do 2 f_equal. lia.
  - by rewrite !lookup_ge_None_2 by (rewrite ?repeat_length, ?length_read_bytes; lia).
Qed.

(** ** Little-endian integers *)

Lemma length_to_le_bytes n z : length (to_le_bytes n z) = n.
Proof. revert z; induction n as [|n IH]; intros z; simpl; [done|]. by rewrite IH. Qed.

Lemma to_le_bytes_wf n z : bytes_wf (to_le_bytes n z).
Proof.
  revert z; induction n as [|n IH]; intros z; constructor; [|apply IH].
  apply Z.mod_pos_bound. lia.
Qed.

Lemma from_to_le_bytes n z :
  from_le_bytes (to_le_bytes n z) = z mod 256 ^ Z.of_nat n.
Proof.
  revert z; induction n as [|n IH]; intros z; simpl to_le_bytes; simpl from_le_bytes.
  - by rewrite Z.mod_1_r.
  - rewrite IH, Nat2Z.inj_succ, Z.pow_succ_r by lia.
    rewrite Z.rem_mul_r by lia. lia.
Qed.

Lemma from_le_bytes_range bs :
  bytes_wf bs → 0 ≤ from_le_bytes bs < 256 ^ Z.of_nat (length bs).
Proof.
  induction 1 as [|b bs Hb _ IH]; cbn [length from_le_bytes]; [lia|].
  rewrite Nat2Z.inj_succ, Z.pow_succ_r by lia. lia.
Qed.

Lemma to_from_le_bytes bs :
  bytes_wf bs → to_le_bytes (length bs) (from_le_bytes bs) = bs.
Proof.
  induction 1 as [|b bs Hb _ IH]; cbn [length from_le_bytes to_le_bytes]; [done|].
  f_equal; [dlia|].
  by replace ((b + 256 * from_le_bytes bs) / 256) with (from_le_bytes bs) by dlia.
Qed.

Lemma from_to_usize v : is_usize v → from_le_bytes (to_le_bytes 8 v) = v.
Proof.
  intros H. rewrite from_to_le_bytes. unfold is_usize, usize_MAX in H.
  apply Z.mod_small. lia.
Qed.

Lemma length_words_to_bytes ws : length (words_to_bytes ws) = (8 * length ws)%nat.
Proof.
  unfold words_to_bytes. induction ws as [|w ws IH]; [done|].
  rewrite bind_cons, length_app, length_to_le_bytes, IH. simpl. lia.
Qed.

Lemma length_read_words m a n : length (read_words m a n) = Z.to_nat n.
Proof. unfold read_words. by rewrite length_fmap, length_seqZ. Qed.

(** ** Words *)

Lemma read_usize_ext m m' a :
  (∀ x, a ≤ x < a + 8 → m' x = m x) → read_usize m' a = read_usize m a.
Proof. intros H. unfold read_usize. by rewrite (read_bytes_ext m m' a 8 H). Qed.

Lemma read_write_usize m a v : is_usize v → read_usize (write_usize m a v) a = v.
Proof.
  intros H. unfold read_usize, write_usize.
  rewrite read_write_same by (by rewrite length_to_le_bytes). by apply from_to_usize.
Qed.

Lemma read_words_cons m a n :
  0 < n → read_words m a n = read_usize m a :: read_words m (a + 8) (n - 1).
Proof.
  intros H. unfold read_words. rewrite seqZ_cons by lia. rewrite fmap_cons. f_equal.
  - f_equal. lia.
  - change (Z.succ 0) with (1 + 0). rewrite <- fmap_add_seqZ, <- list_fmap_compose.
    replace (Z.pred n) with (n - 1) by lia.
    apply list_fmap_ext. intros i x _. simpl. f_equal. lia.
Qed.

Lemma read_words_nil m a n : n ≤ 0 → read_words m a n = [].
Proof. intros H. apply nil_length_inv. rewrite length_read_words. lia. Qed.

Lemma read_words_ext m m' a n :
  (∀ x, a ≤ x < a + 8 * n → m' x = m x) → read_words m' a n = read_words m a n.
Proof.
  intros H. unfold read_words. apply list_fmap_ext. intros i x Hi.
  apply lookup_seqZ in Hi as [-> Hi]. apply read_usize_ext. intros y Hy. apply H. lia.
Qed.

(** What was written as words is read back as the same words. *)
Lemma read_write_words m a ws n :
  Forall is_usize ws → n = Z.of_nat (length ws) →
  read_words (write_bytes m a (words_to_bytes ws)) a n = ws.
Proof.
  intros Hws ->. revert m a; induction Hws as [|w ws Hw _ IH]; intros m a.
  - by apply read_words_nil.
  - cbn [length]. rewrite read_words_cons by lia. f_equal.
    + unfold read_usize.
      rewrite read_write_prefix.
      * unfold words_to_bytes. rewrite bind_cons.
        rewrite take_app_length' by (by rewrite length_to_le_bytes). by apply from_to_usize.
      * rewrite length_words_to_bytes. simpl. lia.
    + replace (Z.of_nat (S (length ws)) - 1) with (Z.of_nat (length ws)) by lia.
      etransitivity; [|apply (IH m (a + 8))]. apply read_words_ext.
      intros x Hx. unfold words_to_bytes. rewrite bind_cons. fold (words_to_bytes ws).
      pose proof (length_words_to_bytes ws) as Hl.
      destruct (lookup_lt_is_Some_2 (words_to_bytes ws) (Z.to_nat (x - (a + 8)))) as [b Hb]; [lia|].
      rewrite (write_bytes_in m (a + 8) _ x b) by (done || lia).
      apply write_bytes_in; [lia|].
      rewrite lookup_app_r by (rewrite length_to_le_bytes; lia).
      rewrite length_to_le_bytes. rewrite <- Hb. f_equal. lia.
Qed.

(** ** Frames *)

Lemma same_outside_refl lo hi m : same_outside lo hi m m.
Proof. intros x _. done. Qed.

Lemma same_outside_trans lo hi m1 m2 m3 :
  same_outside lo hi m1 m2 → same_outside lo hi m2 m3 → same_outside lo hi m1 m3.
Proof. intros H1 H2 x Hx. by rewrite (H2 x Hx), (H1 x Hx). Qed.

Lemma same_outside_weaken lo hi lo' hi' m m' :
  lo' ≤ lo → hi ≤ hi' → same_outside lo hi m m' → same_outside lo' hi' m m'.
Proof. intros H1 H2 H x Hx. apply H. lia. Qed.

#[global] Instance same_outside_preorder lo hi : PreOrder (same_outside lo hi).
Proof. split; [intros m; apply same_outside_refl | intros m1 m2 m3; apply same_outside_trans]. Qed.

Lemma write_bytes_wf m a bs : mem_wf m → bytes_wf bs → mem_wf (write_bytes m a bs).
Proof.
  intros Hm Hbs x. unfold write_bytes. destruct (_ <=? _); [|apply Hm].
  destruct (bs !! _) as [b|] eqn:E; simpl; [|apply Hm].
  by apply (Forall_lookup_1 _ _ _ _ Hbs E).
Qed.

Lemma read_bytes_wf m a n : mem_wf m → bytes_wf (read_bytes m a n).
Proof. intros Hm. apply Forall_fmap, Forall_true. intros x. apply Hm. Qed.

Lemma read_usize_range m a : mem_wf m → is_usize (read_usize m a).
Proof.
  intros Hm. unfold is_usize, read_usize, usize_MAX.
  pose proof (from_le_bytes_range _ (read_bytes_wf m a 8 Hm)) as H.
  rewrite length_read_bytes in H. change (256 ^ Z.of_nat (Z.to_nat 8)) with (2 ^ 64) in H. lia.
Qed.

#[export] Hint Resolve same_outside_refl write_bytes_wf read_bytes_wf to_le_bytes_wf : enarx.
#[export] Hint Rewrite length_to_le_bytes length_words_to_bytes length_read_bytes
  length_read_words : enarx_len.

(** The memory a [&[T]] or [&T] of the guest refers to: address, number of
    elements (one for a sized [T]) and the size of an element. *)
Record gref : Type := mkGref { g_ptr : Z; g_len : Z; g_elem : Z }.

Definition g_bytes (r : gref) : Z := g_len r * g_elem r.
Definition gref_wf (r : gref) : Prop := 0 ≤ g_ptr r ∧ 0 ≤ g_len r ∧ 0 ≤ g_elem r.
Definition in_gref (r : gref) (x : Z) : Prop := g_ptr r ≤ x < g_ptr r + g_bytes r.

(** [same_except rs m m']: only cells of the regions [rs] may differ. *)
Definition same_except (rs : list gref) (m m' : mem) : Prop :=
  ∀ x, Forall (λ r, ¬ in_gref r x) rs → m' x = m x.

#[global] Instance same_except_preorder rs : PreOrder (same_except rs).
Proof.
  split; [intros m x _; done|].
  intros m1 m2 m3 H1 H2 x Hx. by rewrite (H2 x Hx), (H1 x Hx).
Qed.

Lemma same_except_mono rs rs' m m' :
  rs ⊆ rs' → same_except rs m m' → same_except rs' m m'.
Proof.
  intros Hs H x Hx. apply H. rewrite Forall_forall in Hx |- *.
  intros r Hr. by apply Hx, Hs.
Qed.

Lemma write_gref_frame r m a bs :
  g_ptr r ≤ a → a + Z.of_nat (length bs) ≤ g_ptr r + g_bytes r →
  same_except [r] m (write_bytes m a bs).
Proof.
  intros H1 H2 x Hx. inv Hx. apply write_bytes_outside.
  unfold in_gref in *. lia.
Qed.
