(* ===== verification/Libc.v ===== *)
(** * Definitions of the C library

    [crates/sallyport/src/libc.rs]: the error codes, flags and system call
    numbers of Linux on x86_64, and the memory layout of the C structures that
    cross the sallyport block.  [repr_c] is the layout the [#[repr(C)]]
    attribute prescribes. *)

From S2P Require Import Prelude.

(** [core::alloc::Layout] *)
Record Layout : Type := mkLayout { l_size : Z; l_align : Z }.

#[global] Instance Layout_eq_dec : EqDecision Layout.
Proof. solve_decision. Defined.

Definition round_up (n align : Z) : Z := n + align_offset n align.

(** Fields are placed in order, each at the next multiple of its alignment;
    the total is rounded up to the alignment of the structure. *)
Definition repr_c_end (fields : list Layout) : Z :=
  foldl (λ off f, round_up off (l_align f) + l_size f) 0 fields.
Definition repr_c_align (fields : list Layout) : Z :=
  foldr (λ f a, Z.max (l_align f) a) 1 fields.
Definition repr_c (fields : list Layout) : Layout :=
  mkLayout (round_up (repr_c_end fields) (repr_c_align fields)) (repr_c_align fields).

Definition array (n : Z) (t : Layout) : Layout := mkLayout (n * l_size t) (l_align t).

Definition ty_u8 : Layout := mkLayout 1 1.
Definition ty_u16 : Layout := mkLayout 2 2.
Definition ty_u32 : Layout := mkLayout 4 4.
Definition ty_u64 : Layout := mkLayout 8 8.
Definition ty_usize : Layout := mkLayout 8 8.
Definition ty_ptr : Layout := mkLayout 8 8.
Definition c_char : Layout := ty_u8.
Definition c_short : Layout := ty_u16.
Definition c_int : Layout := ty_u32.
Definition c_long : Layout := ty_u64.
Definition c_ulong : Layout := ty_u64.
Definition c_size_t : Layout := ty_u64.

Definition time_t : Layout := ty_u64.
Definition sa_family_t : Layout := ty_u16.
Definition in_port_t : Layout := ty_u16.
Definition in_addr_t : Layout := ty_u32.
Definition socklen_t : Layout := ty_u32.
Definition mode_t : Layout := ty_u32.
Definition uid_t : Layout := ty_u32.
Definition gid_t : Layout := ty_u32.
Definition dev_t : Layout := ty_u64.
Definition ino_t : Layout := ty_u64.
Definition nlink_t : Layout := ty_u64.
Definition off_t : Layout := ty_u64.
Definition blksize_t : Layout := ty_u64.
Definition blkcnt_t : Layout := ty_u64.

Definition epoll_event : Layout := repr_c [ty_u32; ty_u64].
Definition iovec : Layout := repr_c [ty_ptr; c_size_t].
Definition in_addr : Layout := repr_c [in_addr_t].
Definition in6_addr : Layout := mkLayout 16 4.
Definition pollfd : Layout := repr_c [c_int; c_short; c_short].
Definition sigset_t : Layout := repr_c [array 16 c_ulong].
Definition sockaddr : Layout := repr_c [sa_family_t; array 14 c_char].
Definition sockaddr_in : Layout :=
  repr_c [sa_family_t; in_port_t; in_addr; array 8 ty_u8].
Definition sockaddr_in6 : Layout :=
  repr_c [sa_family_t; in_port_t; ty_u32; in6_addr; ty_u32].
Definition sockaddr_storage : Layout :=
  repr_c [sa_family_t; c_size_t; array (128 - 2 * 8) ty_u8].
Definition sockaddr_un : Layout := repr_c [sa_family_t; array 108 c_char].
Definition stack_t : Layout := repr_c [ty_ptr; c_int; c_size_t].
Definition stat_fields : list Layout :=
  [dev_t; ino_t; nlink_t; mode_t; uid_t; gid_t; c_int; dev_t; off_t; blksize_t; blkcnt_t;
   time_t; c_long; time_t; c_long; time_t; c_long; array 3 c_long].
Definition stat : Layout := repr_c stat_fields.
Definition timespec : Layout := repr_c [time_t; c_long].
Definition utsname : Layout := repr_c (repeat (array 65 c_char) 6).

(** [core::arch::x86_64::CpuidResult] *)
Definition CpuidResult : Layout := repr_c [ty_u32; ty_u32; ty_u32; ty_u32].

Definition AF_INET : Z := 2.
Definition EACCES : Z := 13.
Definition EAGAIN : Z := 11.
Definition EBADF : Z := 9.
Definition EBADFD : Z := 77.
Definition EFAULT : Z := 14.
Definition EINTR : Z := 4.
Definition EINVAL : Z := 22.
Definition EIO : Z := 5.
Definition EMSGSIZE : Z := 90.
Definition ENOENT : Z := 2.
Definition ENOMEM : Z := 12.
Definition ENOSYS : Z := 38.
Definition ENOTSUP : Z := 95.
Definition ENOTTY : Z := 25.
Definition EOVERFLOW : Z := 75.
Definition EPERM : Z := 1.
Definition F_GETFD : Z := 1.
Definition F_GETFL : Z := 3.
Definition F_SETFD : Z := 2.
Definition F_SETFL : Z := 4.
Definition FIONBIO : Z := 0x5421.
Definition FIONREAD : Z := 0x541B.
Definition GRND_NONBLOCK : Z := 1.
Definition GRND_RANDOM : Z := 2.
Definition MAP_ANONYMOUS : Z := 32.
Definition MAP_PRIVATE : Z := 2.
Definition MREMAP_DONTUNMAP : Z := 4.
Definition MREMAP_FIXED : Z := 2.
Definition MREMAP_MAYMOVE : Z := 1.
Definition MSG_NOSIGNAL : Z := 16384.
Definition O_APPEND : Z := 1024.
Definition O_CLOEXEC : Z := 0x80000.
Definition O_CREAT : Z := 64.
Definition O_RDONLY : Z := 0.
Definition O_RDWR : Z := 2.
Definition O_WRONLY : Z := 1.
Definition PROT_EXEC : Z := 4.
Definition PROT_READ : Z := 1.
Definition PROT_WRITE : Z := 2.
Definition S_IFIFO : Z := 4096.
Definition SOCK_CLOEXEC : Z := O_CLOEXEC.
Definition SOCK_STREAM : Z := 1.
Definition SOL_SOCKET : Z := 1.
Definition SO_RCVTIMEO : Z := 20.
Definition SO_REUSEADDR : Z := 2.
Definition STDERR_FILENO : Z := 2.
Definition STDIN_FILENO : Z := 0.
Definition STDOUT_FILENO : Z := 1.
Definition SYS_accept : Z := 43.
Definition SYS_accept4 : Z := 288.
Definition SYS_arch_prctl : Z := 158.
Definition SYS_bind : Z := 49.
Definition SYS_brk : Z := 12.
Definition SYS_clock_getres : Z := 229.
Definition SYS_clock_gettime : Z := 228.
Definition SYS_close : Z := 3.
Definition SYS_connect : Z := 42.
Definition SYS_dup : Z := 32.
Definition SYS_dup2 : Z := 33.
Definition SYS_dup3 : Z := 292.
Definition SYS_epoll_create1 : Z := 291.
Definition SYS_epoll_ctl : Z := 233.
Definition SYS_epoll_pwait : Z := 281.
Definition SYS_epoll_wait : Z := 232.
Definition SYS_eventfd2 : Z := 290.
Definition SYS_exit : Z := 60.
Definition SYS_exit_group : Z := 231.
Definition SYS_fcntl : Z := 72.
Definition SYS_fstat : Z := 5.
Definition SYS_getegid : Z := 108.
Definition SYS_geteuid : Z := 107.
Definition SYS_getgid : Z := 104.
Definition SYS_getpid : Z := 39.
Definition SYS_getuid : Z := 102.
Definition SYS_getrandom : Z := 318.
Definition SYS_getsockname : Z := 51.
Definition SYS_ioctl : Z := 16.
Definition SYS_listen : Z := 50.
Definition SYS_madvise : Z := 28.
Definition SYS_mmap : Z := 9.
Definition SYS_mprotect : Z := 10.
Definition SYS_mremap : Z := 25.
Definition SYS_munmap : Z := 11.
Definition SYS_nanosleep : Z := 35.
Definition SYS_open : Z := 2.
Definition SYS_poll : Z := 7.
Definition SYS_read : Z := 0.
Definition SYS_readlink : Z := 89.
Definition SYS_readv : Z := 19.
Definition SYS_recvfrom : Z := 45.
Definition SYS_rt_sigaction : Z := 13.
Definition SYS_rt_sigprocmask : Z := 14.
Definition SYS_set_tid_address : Z := 218.
Definition SYS_sendto : Z := 44.
Definition SYS_setsockopt : Z := 54.
Definition SYS_sigaltstack : Z := 131.
Definition SYS_socket : Z := 41.
Definition SYS_sync : Z := 162.
Definition SYS_uname : Z := 63.
Definition SYS_write : Z := 1.
Definition SYS_writev : Z := 20.
Definition TIOCGWINSZ : Z := 0x5413.

(** ** Layout facts used by the protocol *)

Lemma libc_layouts :
  (timespec, sigset_t, pollfd, sockaddr_storage, stat, epoll_event) =
  (mkLayout 16 8, mkLayout 128 8, mkLayout 8 4, mkLayout 128 8, mkLayout 144 8, mkLayout 16 8).
Proof. reflexivity. Qed.

(** [sallyport::KVM_SYSCALL_TRIGGER_PORT] *)
Definition KVM_SYSCALL_TRIGGER_PORT : Z := 0xFF.
