(* ===== verification/PhaseAlloc.v ===== *)
(** * The staging allocator

    [crates/sallyport/src/guest/alloc]: a bump allocator over the untrusted
    sallyport block, the references it hands out ([InRef], [OutRef],
    [InOutRef]) and the values bound to them ([Input], [Output], [InOut]).
    The phase of the allocator is a phantom index, as in the source.

    A staged object is committed (guest memory is copied into the block) and
    collected (the block is copied back into guest memory) in the monad
    [io mem]; staging runs in [fal (Alloc phase.Stage)]. *)

From S2P Require Import Prelude Memory Libc.

Module phase.

Inductive t : Type := Init | Stage | Commit | Collect.

End phase.

(** [a_ptr], [a_len]: the [NonNull<[u8]>] where the next object goes;
    [a_offset]: the byte offset of that place in the current section. *)
Record Alloc (P : phase.t) : Type := mkAlloc {
  a_ptr : Z;
  a_len : Z;
  a_offset : Z;
}.
Arguments mkAlloc {P} _ _ _.
Arguments a_ptr {P} _.
Arguments a_len {P} _.
Arguments a_offset {P} _.

Definition into_phase {P : phase.t} (Q : phase.t) (self : Alloc P) : Alloc Q :=
  mkAlloc (a_ptr self) (a_len self) (a_offset self).

(** A block of [n] words at address [p]: [&mut [usize]]. *)
Record block : Type := mkBlock { b_ptr : Z; b_len : Z }.

Definition Alloc_new (buffer : block) : Alloc phase.Init :=
  mkAlloc (b_ptr buffer) (8 * b_len buffer) 0.

Definition Alloc_stage (self : Alloc phase.Init) : Alloc phase.Stage :=
  mkAlloc (a_ptr self) (a_len self) (a_offset self).

Definition stageM (A : Type) : Type := fal (Alloc phase.Stage) A.
#[global] Instance stageM_ret : MRet stageM := fal_ret.
#[global] Instance stageM_bind : MBind stageM := fal_bind.
Definition ioM (A : Type) : Type := io mem A.
#[global] Instance ioM_ret : MRet ioM := io_ret.
#[global] Instance ioM_bind : MBind ioM := io_bind.

(** [Alloc::allocate_layout] returns the address and length of the region and
    its byte offset. *)
Definition allocate_layout (layout : Layout) : stageM (Z * Z * Z) := λ self,
  let free := a_len self in
  let pad_size := align_offset (a_ptr self) (l_align layout) in
  let layout_size := l_size layout in
  match checked_add pad_size layout_size with
  | None => Return (Err EOVERFLOW, self)
  | Some need =>
      if free <? need then Return (Err ENOMEM, self)
      else
        let new_region := a_ptr self + pad_size in
        let remainder := new_region + layout_size in
        offset ← add_usize (a_offset self) pad_size;
        next ← add_usize offset layout_size;
        Return (Ok (new_region, layout_size, offset),
                mkAlloc remainder (free - pad_size - layout_size) next)
  end.

(** [Alloc::reserve_layout]: room for [layout] is kept at the end of the block
    while [f] allocates, then [layout] is allocated right after what [f] took. *)
Definition reserve_layout {T : Type} (layout : Layout) (f : stageM T)
    : stageM (T * (Z * Z * Z)) := λ self,
  let layout_size := l_size layout in
  match checked_sub (a_len self) layout_size with
  | None => Return (Err ENOMEM, self)
  | Some free =>
      let align := l_align layout in
      let pad_size := align_offset (a_ptr self + free) align mod align in
      match checked_sub free pad_size with
      | None => Return (Err ENOMEM, self)
      | Some free =>
          '(data, alloc) ← f (mkAlloc (a_ptr self) free (a_offset self));
          match data with
          | Err e => Return (Err e, self)
          | Ok data =>
              l1 ← add_usize (a_len alloc) pad_size;
              l2 ← add_usize l1 layout_size;
              '(r, alloc) ← allocate_layout layout (mkAlloc (a_ptr alloc) l2 (a_offset alloc));
              match r with
              | Err e => Return (Err e, self)
              | Ok region => Return (Ok (data, region), alloc)
              end
          end
      end
  end.

(** [Allocator::free::<T>]; a zero-sized [T] divides by zero. *)
Definition free (T : Layout) (self : Alloc phase.Stage) : outcome Z :=
  let free_bytes := a_len self in
  let pad_size := align_offset (a_ptr self) (l_align T) in
  if free_bytes <? pad_size then Return 0
  else if l_size T =? 0 then Panicked
  else Return ((free_bytes - pad_size) / l_size T).

(** [Allocator::section] *)
Definition section {T : Type} (f : stageM T) : stageM (T * Z) := λ self,
  '(s, alloc) ← f (mkAlloc (a_ptr self) (a_len self) 0);
  match s with
  | Err e => Return (Err e, self)
  | Ok s =>
      offset ← add_usize (a_offset self) (a_offset alloc);
      Return (Ok (s, a_offset alloc), mkAlloc (a_ptr alloc) (a_len alloc) offset)
  end.

(** [Allocator::commit], [Committer::collect] *)
Definition Alloc_commit (self : Alloc phase.Stage) : Alloc phase.Commit := into_phase phase.Commit self.
Definition Alloc_collect (self : Alloc phase.Commit) : Alloc phase.Collect := into_phase phase.Collect self.

(** [Alloc::sally]: the closure that checks that the block handed back is the
    block the allocation was made in. *)
Definition Alloc_sally (self : Alloc phase.Commit) (blk : block) : result (Alloc phase.Collect) :=
  if negb (b_ptr blk =? a_ptr self - a_offset self) || (8 * b_len blk <? a_offset self)
  then Err EFAULT
  else Ok (mkAlloc (a_ptr self) (a_len self) (a_offset self)).

(** ** References into the block

    [T] is the element type, [len] the number of elements (one for a sized
    [T]), [offset] the byte offset in the section. *)

Record InRef : Type := mkInRef { in_ty : Layout; in_ptr : Z; in_len : Z; in_offset : Z }.
Record OutRef : Type := mkOutRef { out_ty : Layout; out_ptr : Z; out_len : Z; out_offset : Z }.
Record InOutRef : Type := mkInOutRef { inout_in : InRef }.

Definition InRef_new (r : Z * Z * Z) : InRef :=
  let '(ptr, len, offset) := r in mkInRef ty_u8 ptr len offset.
Definition OutRef_new (r : Z * Z * Z) : OutRef :=
  let '(ptr, len, offset) := r in mkOutRef ty_u8 ptr len offset.
Definition InOutRef_new (r : Z * Z * Z) : InOutRef := mkInOutRef (InRef_new r).

Definition InRef_cast (U : Layout) (self : InRef) : InRef :=
  mkInRef U (in_ptr self) 1 (in_offset self).
Definition OutRef_cast (U : Layout) (self : OutRef) : OutRef :=
  mkOutRef U (out_ptr self) 1 (out_offset self).
Definition InOutRef_cast (U : Layout) (self : InOutRef) : InOutRef :=
  mkInOutRef (InRef_cast U (inout_in self)).

Definition InRef_cast_slice (U : Layout) (len : Z) (self : InRef) : InRef :=
  mkInRef U (in_ptr self) len (in_offset self).
Definition OutRef_cast_slice (U : Layout) (len : Z) (self : OutRef) : OutRef :=
  mkOutRef U (out_ptr self) len (out_offset self).
Definition InOutRef_cast_slice (U : Layout) (len : Z) (self : InOutRef) : InOutRef :=
  mkInOutRef (InRef_cast_slice U len (inout_in self)).

(** [From<InOutRef> for OutRef] *)
Definition OutRef_from_InOutRef (r : InOutRef) : OutRef :=
  let i := inout_in r in mkOutRef (in_ty i) (in_ptr i) (in_len i) (in_offset i).

(** ** Copying

    A committed value is either a reference into guest memory ([&T], [&[T]])
    or a value built by the caller ([[usize; N]], [item::Header]): [Borrow] and
    [AsRef] of the source. *)

Class Borrow (U : Type) := borrow : U → mem → list Z.

#[global] Instance gref_borrow : Borrow gref := λ r m, read_bytes m (g_ptr r) (g_bytes r).

(** An array of [usize] (or a [repr(C)] structure of them), by value. *)
Record words : Type := mkWords { words_of : list Z }.
#[global] Instance words_borrow : Borrow words := λ w _, words_to_bytes (words_of w).

(** [InRef<T>::copy_from] *)
Definition InRef_copy_from {U : Type} `{Borrow U} (self : InRef) (src : U) : ioM unit := λ m,
  Return (tt, write_bytes m (in_ptr self) (borrow src m)).

(** [InRef<[T]>::copy_from_iter_unchecked] *)
Definition InRef_copy_from_iter_unchecked (self : InRef) (srcs : list gref) : ioM unit := λ m,
  Return (tt, snd (foldl (λ '(ptr, m) src,
    (ptr + g_bytes src, write_bytes m ptr (borrow src m))) (in_ptr self, m) srcs)).

(** [InRef<[T]>::copy_from_unchecked] *)
Definition InRef_copy_from_unchecked (self : InRef) (src : gref) : ioM unit :=
  InRef_copy_from_iter_unchecked self [src].

(** [OutRef<T>::copy_to] *)
Definition OutRef_copy_to (self : OutRef) (dest : gref) : ioM unit := λ m,
  Return (tt, write_bytes m (g_ptr dest) (read_bytes m (out_ptr self) (l_size (out_ty self)))).

(** [OutRef<[T]>::copy_to_iter_unchecked] *)
Definition OutRef_copy_to_iter_unchecked (self : OutRef) (dests : list gref) : ioM unit := λ m,
  Return (tt, snd (foldl (λ '(ptr, m) dest,
    (ptr + g_bytes dest, write_bytes m (g_ptr dest) (read_bytes m ptr (g_bytes dest))))
    (out_ptr self, m) dests)).

(** [OutRef<[T]>::copy_to_unchecked] *)
Definition OutRef_copy_to_unchecked (self : OutRef) (dest : gref) : ioM unit :=
  OutRef_copy_to_iter_unchecked self [dest].

(** ** The [Allocator] methods *)

(** [Layout::array::<T>(len)], [array_layout] *)
Definition array_layout (T : Layout) (len : Z) : result Layout :=
  match checked_mul (l_size T) len with
  | Some size =>
      if size <=? isize_MAX - (l_align T - 1) then Ok (mkLayout size (l_align T))
      else Err EOVERFLOW
  | None => Err EOVERFLOW
  end.

(** [Layout::from_size_align(size, align)] for a power of two [align]. *)
Definition from_size_align (size align : Z) (e : Z) : result Layout :=
  if size <=? isize_MAX - (align - 1) then Ok (mkLayout size align) else Err e.

Definition allocate_input_layout (layout : Layout) : stageM InRef :=
  r ← allocate_layout layout; mret (InRef_new r).
Definition allocate_output_layout (layout : Layout) : stageM OutRef :=
  r ← allocate_layout layout; mret (OutRef_new r).
Definition allocate_inout_layout (layout : Layout) : stageM InOutRef :=
  r ← allocate_layout layout; mret (InOutRef_new r).

Definition reserve_input_layout {T : Type} (layout : Layout) (f : stageM T) : stageM (T * InRef) :=
  '(data, r) ← reserve_layout layout f; mret (data, InRef_new r).
Definition reserve_output_layout {T : Type} (layout : Layout) (f : stageM T) : stageM (T * OutRef) :=
  '(data, r) ← reserve_layout layout f; mret (data, OutRef_new r).
Definition reserve_inout_layout {T : Type} (layout : Layout) (f : stageM T) : stageM (T * InOutRef) :=
  '(data, r) ← reserve_layout layout f; mret (data, InOutRef_new r).

Definition allocate_input (T : Layout) : stageM InRef :=
  r ← allocate_input_layout T; mret (InRef_cast T r).
Definition allocate_output (T : Layout) : stageM OutRef :=
  r ← allocate_output_layout T; mret (OutRef_cast T r).
Definition allocate_inout (T : Layout) : stageM InOutRef :=
  r ← allocate_inout_layout T; mret (InOutRef_cast T r).

Definition reserve_input {U : Type} (T : Layout) (f : stageM U) : stageM (U * InRef) :=
  '(data, reserved) ← reserve_input_layout T f; mret (data, InRef_cast T reserved).
Definition reserve_output {U : Type} (T : Layout) (f : stageM U) : stageM (U * OutRef) :=
  '(data, reserved) ← reserve_output_layout T f; mret (data, OutRef_cast T reserved).
Definition reserve_inout {U : Type} (T : Layout) (f : stageM U) : stageM (U * InOutRef) :=
  '(data, reserved) ← reserve_inout_layout T f; mret (data, InOutRef_cast T reserved).

Definition allocate_input_slice (T : Layout) (len : Z) : stageM InRef :=
  layout ← try (array_layout T len);
  r ← allocate_input_layout layout; mret (InRef_cast_slice T len r).
Definition allocate_output_slice (T : Layout) (len : Z) : stageM OutRef :=
  layout ← try (array_layout T len);
  r ← allocate_output_layout layout; mret (OutRef_cast_slice T len r).
Definition allocate_inout_slice (T : Layout) (len : Z) : stageM InOutRef :=
  layout ← try (array_layout T len);
  r ← allocate_inout_layout layout; mret (InOutRef_cast_slice T len r).

(** [self.free::<T>()] *)
Definition get_free (T : Layout) : stageM Z := λ self, n ← free T self; Return (Ok n, self).

Definition allocate_input_slice_max (T : Layout) (len : Z) : stageM InRef :=
  n ← get_free T; allocate_input_slice T (Z.min len n).
Definition allocate_output_slice_max (T : Layout) (len : Z) : stageM OutRef :=
  n ← get_free T; allocate_output_slice T (Z.min len n).
Definition allocate_inout_slice_max (T : Layout) (len : Z) : stageM InOutRef :=
  n ← get_free T; allocate_inout_slice T (Z.min len n).

(** ** Well-formedness and progress of the allocator *)

Definition layout_wf (l : Layout) : Prop := 0 < l_align l ∧ 0 ≤ l_size l.

(** The free space is a region of the address space, and the section it
    belongs to started at or above address zero. *)
Definition alloc_wf {P : phase.t} (a : Alloc P) : Prop :=
  0 ≤ a_offset a ≤ a_ptr a ∧ 0 ≤ a_len a ∧ a_ptr a + a_len a ≤ usize_MAX.

(** [advances a a']: [a'] is [a] after zero or more allocations: the free
    space shrank from the front and the offset moved with it. *)
Record advances (a a' : Alloc phase.Stage) : Prop := {
  adv_wf : alloc_wf a';
  adv_le : a_ptr a ≤ a_ptr a';
  adv_end : a_ptr a' + a_len a' = a_ptr a + a_len a;
  adv_off : a_offset a' - a_offset a = a_ptr a' - a_ptr a;
}.

(** [placed a a' align size ptr off]: allocating [size] bytes aligned to
    [align] in state [a] returned address [ptr] and offset [off], and left
    state [a']. *)
Record placed (a a' : Alloc phase.Stage) (align size ptr off : Z) : Prop := {
  pl_adv : advances a a';
  pl_aligned : ptr mod align = 0;
  pl_ptr : ptr = a_ptr a + align_offset (a_ptr a) align;
  pl_lo : a_ptr a ≤ ptr;
  pl_next : a_ptr a' = ptr + size;
  pl_off : off = a_offset a + (ptr - a_ptr a);
}.

(** Weakest precondition of a staging computation: no panic, and [Q] when it
    returns [Ok]. *)
Definition wp {A : Type} (m : stageM A) (a : Alloc phase.Stage)
    (Q : A → Alloc phase.Stage → Prop) : Prop :=
  match m a with
  | Return (Ok x, a') => Q x a'
  | Return (Err _, _) => True
  | _ => False
  end.

Lemma advances_refl a : alloc_wf a → advances a a.
Proof. intros H. split; [done|lia..]. Qed.

Lemma advances_trans a1 a2 a3 : advances a1 a2 → advances a2 a3 → advances a1 a3.
Proof. intros [] []. split; [done|lia..]. Qed.

Lemma wp_ret {A : Type} (x : A) a (Q : A → Alloc phase.Stage → Prop) :
  Q x a → wp (mret x) a Q.
Proof. done. Qed.

Lemma wp_bind {A B : Type} (m : stageM A) (f : A → stageM B) a Q :
  wp m a (λ x a', wp (f x) a' Q) → wp (m ≫= f) a Q.
Proof.
  unfold wp, mbind, stageM_bind, fal_bind.
  destruct (m a) as [[[x|e] a']| | |]; simpl; tauto.
Qed.

Lemma wp_assoc {A B C : Type} (m : stageM A) (f : A → stageM B) (g : B → stageM C) a Q :
  wp ((m ≫= f) ≫= g) a Q → wp (m ≫= λ x, f x ≫= g) a Q.
Proof.
  unfold wp, mbind, stageM_bind, fal_bind. by destruct (m a) as [[[x|e] a']| | |].
Qed.

Lemma wp_mono {A : Type} (m : stageM A) a (Q Q' : A → Alloc phase.Stage → Prop) :
  wp m a Q → (∀ x a', Q x a' → Q' x a') → wp m a Q'.
Proof.
  unfold wp. intros H HQ. destruct (m a) as [[[x|e] a']| | |]; simpl in *; auto.
Qed.

Lemma wp_try {A : Type} (r : result A) a (Q : A → Alloc phase.Stage → Prop) :
  (∀ x, r = Ok x → Q x a) → wp (try r) a Q.
Proof. intros H. unfold wp, try. destruct r; simpl; auto. Qed.

(** The exact behaviour of [allocate_layout] on every branch. *)
Lemma allocate_layout_eq l a :
  alloc_wf a → layout_wf l →
  let pad := align_offset (a_ptr a) (l_align l) in
  allocate_layout l a =
    if pad + l_size l <=? a_len a then
      Return (Ok (a_ptr a + pad, l_size l, a_offset a + pad),
        mkAlloc (a_ptr a + pad + l_size l) (a_len a - pad - l_size l)
                (a_offset a + pad + l_size l))
    else if pad + l_size l <=? usize_MAX then Return (Err ENOMEM, a)
    else Return (Err EOVERFLOW, a).
Proof.
  intros (Ho & Hl & Hm) (Ha & Hs) pad. unfold allocate_layout, checked_add. fold pad.
  pose proof (align_offset_bound (a_ptr a) (l_align l) Ha) as Hp. fold pad in Hp.
  destruct (pad + l_size l <=? usize_MAX) eqn:E1; bool_to_prop.
  - rewrite Z.ltb_antisym. destruct (pad + l_size l <=? a_len a) eqn:E2; simpl; [|done].
    bool_to_prop. rewrite (add_usize_ok (a_offset a) pad) by lia.
    unfold mbind, outcome_bind. rewrite add_usize_ok by lia. done.
  - rewrite (proj2 (Z.leb_gt _ _)) by lia. done.
Qed.

Lemma wp_allocate_layout l a (Q : Z * Z * Z → Alloc phase.Stage → Prop) :
  alloc_wf a → layout_wf l →
  (∀ p off a', placed a a' (l_align l) (l_size l) p off → Q (p, l_size l, off) a') →
  wp (allocate_layout l) a Q.
Proof.
  intros Hwf Hl HQ. unfold wp. rewrite allocate_layout_eq by done. cbv zeta.
  destruct Hl as [Ha Hs]. pose proof (align_offset_bound (a_ptr a) _ Ha) as Hb.
  pose proof (align_offset_aligned (a_ptr a) _ Ha) as Hal.
  destruct (_ + l_size l <=? a_len a) eqn:E; [|destruct (_ <=? usize_MAX); done].
  bool_to_prop. destruct Hwf as (Ho & Hlen & Hm).
  apply HQ; split; simpl; try lia. split; simpl; [unfold alloc_wf; simpl|..]; lia.
Qed.

Lemma wp_section {A : Type} (f : stageM A) a (Q : A * Z → Alloc phase.Stage → Prop) :
  alloc_wf a →
  wp f (mkAlloc (a_ptr a) (a_len a) 0) (λ x a',
    advances (mkAlloc (a_ptr a) (a_len a) 0) a' ∧
    Q (x, a_ptr a' - a_ptr a)
      (mkAlloc (a_ptr a') (a_len a') (a_offset a + (a_ptr a' - a_ptr a)))) →
  wp (section f) a Q.
Proof.
  intros (Ho & Hl & Hm) H. unfold wp, section in *.
  destruct (f _) as [[[x|e] a']| | |]; simpl in *; try done.
  destruct H as [[(Ho' & Hl' & Hm') Hle Hend Hoff] HQ]. simpl in *.
  unfold mbind, outcome_bind. rewrite add_usize_ok by lia.
  replace (a_offset a') with (a_ptr a' - a_ptr a) by lia. exact HQ.
Qed.

(** What [reserve_layout] keeps back from [f]. *)
Definition reserve_pad (l : Layout) (a : Alloc phase.Stage) : Z :=
  align_offset (a_ptr a + (a_len a - l_size l)) (l_align l) mod l_align l.

Definition reserve_room (l : Layout) (a : Alloc phase.Stage) : Alloc phase.Stage :=
  mkAlloc (a_ptr a) (a_len a - l_size l - reserve_pad l a) (a_offset a).

Lemma reserve_pad_bound l a : layout_wf l → 0 ≤ reserve_pad l a < l_align l.
Proof. intros [Ha _]. unfold reserve_pad. by apply Z.mod_pos_bound. Qed.

Lemma wp_reserve_layout {A : Type} l (f : stageM A) a (Q : A * (Z * Z * Z) → Alloc phase.Stage → Prop) :
  alloc_wf a → layout_wf l →
  (alloc_wf (reserve_room l a) →
   wp f (reserve_room l a) (λ x a1,
    advances (reserve_room l a) a1 ∧
    ∀ p a', advances a a' → a_ptr a1 ≤ p →
      p mod l_align l = 0 →
      p = a_ptr a1 + align_offset (a_ptr a1) (l_align l) →
      a_ptr a' = p + l_size l →
      Q (x, (p, l_size l, a_offset a + (p - a_ptr a))) a')) →
  wp (reserve_layout l f) a Q.
Proof.
  intros Hwf Hl H. unfold wp, reserve_layout, checked_sub.
  pose proof (reserve_pad_bound l a Hl) as Hpb. unfold reserve_room in H. unfold reserve_pad in *.
  destruct (l_size l <=? a_len a) eqn:E1; [|done]. bool_to_prop.
  set (pad := _ mod l_align l) in *.
  destruct (pad <=? a_len a - l_size l) eqn:E2; [|done]. bool_to_prop.
  destruct Hwf as (Ho & Hlen & Hm). destruct Hl as [Ha Hs].
  lapply H; [clear H; intros H|unfold alloc_wf; simpl; lia].
  unfold wp in H. unfold mbind, outcome_bind.
  destruct (f _) as [[[x|e] a1]| | |]; simpl in *; try done.
  destruct H as [[(Ho' & Hl' & Hm') Hle Hend Hoff] HQ]. simpl in *.
  rewrite !add_usize_ok by lia.
  rewrite allocate_layout_eq by (unfold alloc_wf, layout_wf; simpl; lia). simpl.
  pose proof (align_offset_bound (a_ptr a1) _ Ha) as Hb.
  pose proof (align_offset_aligned (a_ptr a1) _ Ha) as Hal.
  set (pad' := align_offset (a_ptr a1) _) in *.
  destruct (pad' + l_size l <=? _) eqn:E; [|destruct (_ <=? usize_MAX); done].
  bool_to_prop.
  replace (a_offset a1 + pad') with (a_offset a + (a_ptr a1 + pad' - a_ptr a)) by lia.
  apply HQ; simpl; try lia. split; simpl; [unfold alloc_wf; simpl|..]; lia.
Qed.

(** When the free space ends at a multiple of the alignment -- as every block
    of words does for an item header -- the reservation is exact: it succeeds
    whenever the enclosed computation does. *)
Lemma reserve_layout_exact {A : Type} l (f : stageM A) a x a1 :
  alloc_wf a → layout_wf l →
  (a_ptr a + a_len a) mod l_align l = 0 → l_size l mod l_align l = 0 →
  l_size l ≤ a_len a →
  f (mkAlloc (a_ptr a) (a_len a - l_size l) (a_offset a)) = Return (Ok x, a1) →
  advances (mkAlloc (a_ptr a) (a_len a - l_size l) (a_offset a)) a1 →
  let p := a_ptr a1 + align_offset (a_ptr a1) (l_align l) in
  reserve_layout l f a =
    Return (Ok (x, (p, l_size l, a_offset a + (p - a_ptr a))),
      mkAlloc (p + l_size l) (a_ptr a + a_len a - (p + l_size l))
              (a_offset a + (p + l_size l - a_ptr a))).
Proof.
  intros Hwf [Ha Hs] Hend Hmul Hfit Hf [(Ho' & Hl' & Hm') Hle He Hoff] p. simpl in *.
  destruct Hwf as (Ho & Hlen & Hm).
  unfold reserve_layout, checked_sub. rewrite (proj2 (Z.leb_le _ _) Hfit).
  assert (Hal : (a_ptr a + (a_len a - l_size l)) mod l_align l = 0).
  { replace (a_ptr a + (a_len a - l_size l)) with (a_ptr a + a_len a - l_size l) by lia.
    rewrite Zminus_mod, Hend, Hmul. apply Z.mod_0_l. lia. }
  rewrite (align_offset_0 _ _ Ha Hal), Z.mod_0_l by lia.
  rewrite (proj2 (Z.leb_le 0 _)) by lia. rewrite Z.sub_0_r, Hf.
  unfold mbind, outcome_bind. rewrite !add_usize_ok by lia. rewrite Z.add_0_r.
  rewrite allocate_layout_eq by (unfold alloc_wf, layout_wf; simpl; lia). simpl.
  pose proof (align_offset_least (a_ptr a1) (l_align l)
    (a_ptr a + a_len a - l_size l - a_ptr a1) Ha) as Hleast.
  pose proof (align_offset_bound (a_ptr a1) _ Ha) as Hb. unfold p.
  set (pad := align_offset (a_ptr a1) _) in *.
  rewrite (proj2 (Z.leb_le _ _)).
  - replace (a_offset a1 + pad) with (a_offset a + (a_ptr a1 + pad - a_ptr a)) by lia.
    replace (a_len a1 + l_size l - pad - l_size l)
      with (a_ptr a + a_len a - (a_ptr a1 + pad + l_size l)) by lia.
    replace (a_offset a + (a_ptr a1 + pad - a_ptr a) + l_size l)
      with (a_offset a + (a_ptr a1 + pad + l_size l - a_ptr a)) by lia.
    done.
  - enough (pad ≤ a_ptr a + a_len a - l_size l - a_ptr a1) by lia. apply Hleast; [lia|].
    replace (a_ptr a1 + _) with (a_ptr a + (a_len a - l_size l)) by lia. done.
Qed.

(** [free] is what [allocate_layout] can still hand out. *)
Lemma free_spec T a :
  alloc_wf a → layout_wf T → 0 < l_size T →
  ∃ n, free T a = Return n ∧ 0 ≤ n ∧
    n * l_size T ≤ Z.max 0 (a_len a - align_offset (a_ptr a) (l_align T)) < (n + 1) * l_size T.
Proof.
  intros (Ho & Hl & Hm) [Ha _] Hs. unfold free.
  pose proof (align_offset_bound (a_ptr a) _ Ha). set (pad := align_offset _ _) in *.
  destruct (a_len a <? pad) eqn:E; bool_to_prop.
  - exists 0. split; [done|]. lia.
  - rewrite (proj2 (Z.eqb_neq _ _)) by lia. eexists; split; [done|].
    rewrite Z.max_r by lia.
    pose proof (Z.div_pos (a_len a - pad) (l_size T)). split; [lia|].
    pose proof (Z.mul_div_le (a_len a - pad) (l_size T) Hs).
    pose proof (Z.mul_succ_div_gt (a_len a - pad) (l_size T) Hs). lia.
Qed.

Lemma wp_get_free T a (Q : Z → Alloc phase.Stage → Prop) :
  alloc_wf a → layout_wf T → 0 < l_size T →
  (∀ n, free T a = Return n → 0 ≤ n →
    n * l_size T ≤ Z.max 0 (a_len a - align_offset (a_ptr a) (l_align T)) → Q n a) →
  wp (get_free T) a Q.
Proof.
  intros Hwf HT Hs HQ. destruct (free_spec T a Hwf HT Hs) as (n & Hn & H0 & H1).
  unfold wp, get_free. rewrite Hn. simpl. apply HQ; [done|lia..].
Qed.

(** ** Staging that succeeds

    [wp] says what holds if staging succeeds; these lemmas say when it does. *)

Definition succeeds {A : Type} (m : stageM A) (a : Alloc phase.Stage) : Prop :=
  ∃ x a', m a = Return (Ok x, a').

Lemma succeeds_ret {A : Type} (x : A) a : succeeds (mret x) a.
Proof. by exists x, a. Qed.

Lemma succeeds_bind {A B : Type} (m : stageM A) (f : A → stageM B) a :
  succeeds m a → wp m a (λ x a', succeeds (f x) a') → succeeds (m ≫= f) a.
Proof.
  intros (x & a' & E) H. unfold wp in H. rewrite E in H.
  unfold succeeds, mbind, stageM_bind, fal_bind. by rewrite E.
Qed.

Lemma succeeds_allocate_layout l a :
  alloc_wf a → layout_wf l → align_offset (a_ptr a) (l_align l) + l_size l ≤ a_len a →
  succeeds (allocate_layout l) a.
Proof.
  intros Hwf Hl Hle. unfold succeeds. rewrite allocate_layout_eq by done. cbv zeta.
  rewrite (proj2 (Z.leb_le _ _)) by lia. by eexists _, _.
Qed.

Lemma succeeds_section {A : Type} (f : stageM A) a :
  alloc_wf a → succeeds f (mkAlloc (a_ptr a) (a_len a) 0) →
  wp f (mkAlloc (a_ptr a) (a_len a) 0) (λ _ a', advances (mkAlloc (a_ptr a) (a_len a) 0) a') →
  succeeds (section f) a.
Proof.
  intros (Ho & Hl & Hm) (x & a' & E) H. unfold wp in H. rewrite E in H.
  destruct H as [(? & ? & ?) ? ? ?]. simpl in *. unfold succeeds, section. rewrite E. simpl.
  rewrite add_usize_ok by lia. by eexists _, _.
Qed.

Lemma succeeds_reserve_input {A : Type} l (f : stageM A) a :
  alloc_wf a → layout_wf l → (a_ptr a + a_len a) mod l_align l = 0 → l_size l mod l_align l = 0 →
  l_size l ≤ a_len a →
  let room := mkAlloc (a_ptr a) (a_len a - l_size l) (a_offset a) in
  succeeds f room → wp f room (λ _ a', advances room a') →
  succeeds (reserve_input l f) a.
Proof.
  intros Hwf Hl Hend Hmul Hfit room (x & a1 & E) H. unfold wp in H. rewrite E in H.
  pose proof (reserve_layout_exact l f a x a1 Hwf Hl Hend Hmul Hfit E H) as Hr.
  unfold reserve_input, reserve_input_layout, succeeds, mbind, stageM_bind, fal_bind. rewrite Hr.
  by eexists _, _.
Qed.

(** ** Properties *)

(** Allocation on every branch: with room for the padding and the layout
    the region starts at the next aligned address and the allocator moves past
    it; without room it fails with [ENOMEM], or [EOVERFLOW] if the size does not
    even fit a [usize], and is unchanged. *)
Theorem allocate_layout_exact l a :
  alloc_wf a → layout_wf l →
  let pad := align_offset (a_ptr a) (l_align l) in
  allocate_layout l a =
    if pad + l_size l <=? a_len a then
      Return (Ok (a_ptr a + pad, l_size l, a_offset a + pad),
        mkAlloc (a_ptr a + pad + l_size l) (a_len a - pad - l_size l) (a_offset a + pad + l_size l))
    else if pad + l_size l <=? usize_MAX then Return (Err ENOMEM, a)
    else Return (Err EOVERFLOW, a).
Proof. apply allocate_layout_eq. Qed.

(** Two allocations in a row are aligned, inside the free space, and do not
    overlap; their offsets are their distances from the start of the section. *)
Theorem allocations_disjoint l1 l2 a p1 s1 o1 a1 p2 s2 o2 a2 :
  alloc_wf a → layout_wf l1 → layout_wf l2 →
  allocate_layout l1 a = Return (Ok (p1, s1, o1), a1) →
  allocate_layout l2 a1 = Return (Ok (p2, s2, o2), a2) →
  a_ptr a ≤ p1 ∧ p1 + l_size l1 ≤ p2 ∧ p2 + l_size l2 ≤ a_ptr a + a_len a ∧
  p1 mod l_align l1 = 0 ∧ p2 mod l_align l2 = 0 ∧
  o1 - a_offset a = p1 - a_ptr a ∧ o2 - a_offset a = p2 - a_ptr a.
Proof.
  intros Hwf Hl1 Hl2 E1 E2.
  pose proof (wp_allocate_layout l1 a (λ '(p, s, o) a', s = l_size l1 ∧ placed a a' (l_align l1) s p o) Hwf Hl1
    (λ p off a' Hp, conj eq_refl Hp)) as W1. unfold wp in W1. rewrite E1 in W1.
  destruct W1 as [-> [[W1 ? ? ?] ? _ ? ? ?]].
  pose proof (wp_allocate_layout l2 a1 (λ '(p, s, o) a', s = l_size l2 ∧ placed a1 a' (l_align l2) s p o) W1 Hl2
    (λ p off a' Hp, conj eq_refl Hp)) as W2. unfold wp in W2. rewrite E2 in W2.
  destruct W2 as [-> [[(? & ? & ?) ? ? ?] ? _ ? ? ?]].
  split_and!; (done || lia).
Qed.

(** When the free space ends at a multiple of the alignment -- as in every
    block of words -- a reservation never takes more than it has to: it succeeds
    whenever the enclosed allocations do, and lies right after them. *)
Theorem reserve_exact {A : Type} l (f : stageM A) a x a1 :
  alloc_wf a → layout_wf l →
  (a_ptr a + a_len a) mod l_align l = 0 → l_size l mod l_align l = 0 → l_size l ≤ a_len a →
  f (mkAlloc (a_ptr a) (a_len a - l_size l) (a_offset a)) = Return (Ok x, a1) →
  advances (mkAlloc (a_ptr a) (a_len a - l_size l) (a_offset a)) a1 →
  let p := a_ptr a1 + align_offset (a_ptr a1) (l_align l) in
  reserve_layout l f a =
    Return (Ok (x, (p, l_size l, a_offset a + (p - a_ptr a))),
      mkAlloc (p + l_size l) (a_ptr a + a_len a - (p + l_size l)) (a_offset a + (p + l_size l - a_ptr a))).
Proof. apply reserve_layout_exact. Qed.

(** Otherwise the padding kept back is the distance to the next aligned
    address where the distance to the previous one is needed: a reservation of
    four bytes fails after the enclosed allocation succeeded in the room it was
    given. *)
Theorem reserve_fails_late :
  let a := mkAlloc 8 11 0 in let l := mkLayout 4 4 in let f := allocate_layout (mkLayout 6 1) in
  f (reserve_room l a) = Return (Ok (8, 6, 0), mkAlloc 14 0 6) ∧ reserve_layout l f a = Return (Err ENOMEM, a).
Proof. by vm_compute. Qed.

(** [free] counts exactly the elements that can still be allocated: that
    many can, one more cannot. *)
Theorem free_is_maximal T a :
  alloc_wf a → layout_wf T → 0 < l_size T → align_offset (a_ptr a) (l_align T) ≤ a_len a →
  ∃ n, free T a = Return n ∧ succeeds (allocate_layout (array n T)) a ∧
    ¬ succeeds (allocate_layout (array (n + 1) T)) a.
Proof.
  intros Hwf HT Hs Hpad. destruct (free_spec T a Hwf HT Hs) as (n & Hn & H0 & Hlo & Hhi).
  exists n. rewrite Z.max_r in Hlo, Hhi by lia. destruct HT as [Ha _].
  pose proof (align_offset_bound (a_ptr a) _ Ha). split; [done|]. split.
  - apply succeeds_allocate_layout; [done|split; simpl; nia|]. simpl. lia.
  - intros (x & a' & E). rewrite allocate_layout_eq in E by (done || split; simpl; nia). cbv zeta in E.
    simpl in E. rewrite (proj2 (Z.leb_gt _ (a_len a))) in E by lia. by destruct (_ <=? _).
Qed.

(** *** The properties at work: a block of eight words at address 64 *)

Definition sample_alloc : Alloc phase.Stage := mkAlloc 64 64 0.

Lemma sample_alloc_wf : alloc_wf sample_alloc.
Proof. unfold alloc_wf, usize_MAX. simpl. lia. Qed.

Lemma allocate_layout_exact_witness :
  allocate_layout (mkLayout 24 8) sample_alloc = Return (Ok (64, 24, 0), mkAlloc 88 40 24).
Proof. apply (allocate_layout_exact (mkLayout 24 8) sample_alloc sample_alloc_wf). by split. Defined.

Lemma allocations_disjoint_witness : 64 ≤ 64 ∧ 64 + 3 ≤ 72 ∧ 72 + 8 ≤ 64 + 64.
Proof.
  destruct (allocations_disjoint (mkLayout 3 1) (mkLayout 8 8) sample_alloc 64 3 0 (mkAlloc 67 61 3)
    72 8 8 (mkAlloc 80 48 16) sample_alloc_wf) as (? & ? & ? & _); [by split|by split|done|done|].
  split_and!; assumption.
Defined.

Lemma reserve_exact_witness :
  reserve_layout (mkLayout 16 8) (allocate_layout (mkLayout 3 1)) sample_alloc =
    Return (Ok ((64, 3, 0), (72, 16, 8)), mkAlloc 88 40 24).
Proof.
  apply (reserve_exact (mkLayout 16 8) (allocate_layout (mkLayout 3 1)) sample_alloc (64, 3, 0)
    (mkAlloc 67 45 3) sample_alloc_wf); try done.
Defined.

Lemma free_is_maximal_witness :
  ∃ n, free ty_u32 sample_alloc = Return n ∧ ¬ succeeds (allocate_layout (array (n + 1) ty_u32)) sample_alloc.
Proof.
  destruct (free_is_maximal ty_u32 sample_alloc sample_alloc_wf) as (n & E & _ & H); [by split|done|done|].
  exists n. split; [exact E|exact H].
Defined.
