(* ===== verification/StagedValues.v ===== *)
(** * Staged values

    [crates/sallyport/src/guest/alloc/{input,output,inout,mod}.rs]: guest
    values bound to references into the block, and the [Stage], [Commit] and
    [Collect] traits with their instances for options and tuples. *)

From S2P Require Import Prelude Memory Libc PhaseAlloc.

(** ** The traits *)

Class Stageable (T Item : Type) := stage : T → stageM Item.
Class Committable (T Item : Type) := commit : T → ioM Item.
Class Collectable (T Item : Type) := collect : T → ioM Item.

#[global] Instance option_stage {T I} `{Stageable T I} : Stageable (option T) (option I) := λ self,
  match self with
  | Some v => i ← stage v; mret (Some i)
  | None => mret None
  end.
#[global] Instance unit_stage : Stageable unit unit := λ _, mret ().
#[global] Instance pair_stage {A B IA IB} `{Stageable A IA, Stageable B IB}
  : Stageable (A * B) (IA * IB) := λ '(x, y), a ← stage x; b ← stage y; mret (a, b).

#[global] Instance option_commit {T I} `{Committable T I} : Committable (option T) (option I) := λ self,
  match self with
  | Some v => i ← commit v; mret (Some i)
  | None => mret None
  end.
#[global] Instance unit_commit : Committable unit unit := λ _, mret ().
#[global] Instance pair_commit {A B IA IB} `{Committable A IA, Committable B IB}
  : Committable (A * B) (IA * IB) := λ '(x, y), a ← commit x; b ← commit y; mret (a, b).

#[global] Instance option_collect {T I} `{Collectable T I} : Collectable (option T) (option I) := λ self,
  match self with
  | Some v => i ← collect v; mret (Some i)
  | None => mret None
  end.
#[global] Instance pair_collect {A B IA IB} `{Collectable A IA, Collectable B IB}
  : Collectable (A * B) (IA * IB) := λ '(x, y), a ← collect x; b ← collect y; mret (a, b).

(** ** Allocated values *)

Record Input (U : Type) : Type := mkInput { i_ref : InRef; i_val : U }.
Arguments mkInput {U} _ _.
Arguments i_ref {U} _.
Arguments i_val {U} _.
Record Output : Type := mkOutput { o_ref : OutRef; o_val : gref }.
Record InOut : Type := mkInOut { io_ref : InOutRef; io_val : gref }.

Definition Input_offset {U : Type} (self : Input U) : Z := in_offset (i_ref self).
Definition Input_len {U : Type} (self : Input U) : Z := in_len (i_ref self).
Definition Output_offset (self : Output) : Z := out_offset (o_ref self).
Definition Output_len (self : Output) : Z := out_len (o_ref self).
Definition InOut_offset (self : InOut) : Z := in_offset (inout_in (io_ref self)).
Definition InOut_len (self : InOut) : Z := in_len (inout_in (io_ref self)).

(** [split_at], [split_at_mut] on a guest slice. *)
Definition split_at (r : gref) (mid : Z) : outcome (gref * gref) :=
  if mid <=? g_len r then
    Return (mkGref (g_ptr r) mid (g_elem r),
            mkGref (g_ptr r + mid * g_elem r) (g_len r - mid) (g_elem r))
  else Panicked.

(** [Input::stage], [Input::stage_slice], [Input::stage_slice_max] *)
Definition Input_stage {U : Type} (T : Layout) (val : U) : stageM (Input U) :=
  data_ref ← allocate_input T; mret (mkInput data_ref val).
Definition Input_stage_slice (T : Layout) (val : gref) : stageM (Input gref) :=
  data_ref ← allocate_input_slice T (g_len val); mret (mkInput data_ref val).
Definition Input_stage_slice_max (T : Layout) (val : gref) : stageM (Input gref * gref) :=
  n ← get_free T;
  '(head, tail) ← must (split_at val (Z.min (g_len val) n));
  input ← Input_stage_slice T head;
  mret (input, tail).

(** [Output::stage], [Output::stage_slice], [Output::stage_slice_max] *)
Definition Output_stage (T : Layout) (val : gref) : stageM Output :=
  data_ref ← allocate_output T; mret (mkOutput data_ref val).
Definition Output_stage_slice (T : Layout) (val : gref) : stageM Output :=
  data_ref ← allocate_output_slice T (g_len val); mret (mkOutput data_ref val).
Definition Output_stage_slice_max (T : Layout) (val : gref) : stageM (Output * gref) :=
  n ← get_free T;
  '(head, tail) ← must (split_at val (Z.min (g_len val) n));
  output ← Output_stage_slice T head;
  mret (output, tail).

(** [InOut::stage], [InOut::stage_slice], [InOut::stage_slice_max] *)
Definition InOut_stage (T : Layout) (val : gref) : stageM InOut :=
  data_ref ← allocate_inout T; mret (mkInOut data_ref val).
Definition InOut_stage_slice (T : Layout) (val : gref) : stageM InOut :=
  data_ref ← allocate_inout_slice T (g_len val); mret (mkInOut data_ref val).
Definition InOut_stage_slice_max (T : Layout) (val : gref) : stageM (InOut * gref) :=
  n ← get_free T;
  '(head, tail) ← must (split_at val (Z.min (g_len val) n));
  input ← InOut_stage_slice T head;
  mret (input, tail).

(** [Commit for Input]: copies the value into the block. *)
Definition Input_commit {U : Type} `{Borrow U} (self : Input U) : ioM unit :=
  InRef_copy_from (i_ref self) (i_val self).
(** [Commit for Input<[T]>] *)
Definition Input_commit_slice (self : Input gref) : ioM unit :=
  InRef_copy_from_unchecked (i_ref self) (i_val self).
(** [Commit for Output]: nothing is copied. *)
Definition Output_commit (self : Output) : ioM Output := mret self.
(** [From<InOut> for Output] *)
Definition Output_from_InOut (r : InOut) : Output :=
  mkOutput (OutRef_from_InOutRef (io_ref r)) (io_val r).
(** [Commit for InOut], [Commit for InOut<[T]>] *)
Definition InOut_commit (self : InOut) : ioM Output :=
  _ ← InRef_copy_from (inout_in (io_ref self)) (io_val self);
  mret (Output_from_InOut self).
Definition InOut_commit_slice (self : InOut) : ioM Output :=
  _ ← InRef_copy_from_unchecked (inout_in (io_ref self)) (io_val self);
  mret (Output_from_InOut self).
(** [Commit for InOutRef] *)
Definition InOutRef_commit (self : InOutRef) : ioM OutRef := mret (OutRef_from_InOutRef self).

(** [Collect for Output], [Collect for Output<[T]>] *)
Definition Output_collect (self : Output) : ioM gref :=
  _ ← OutRef_copy_to (o_ref self) (o_val self); mret (o_val self).
Definition Output_collect_slice (self : Output) : ioM gref :=
  _ ← OutRef_copy_to_unchecked (o_ref self) (o_val self); mret (o_val self).

(** [&mut self.val.as_mut()[range]] for [range = 0..end]; out of range panics. *)
Definition slice_to (r : gref) (end_ : Z) : outcome gref :=
  if end_ <=? g_len r then Return (mkGref (g_ptr r) end_ (g_elem r)) else Panicked.

(** [Output<[T]>::collect_range(col, 0..end)] *)
Definition Output_collect_range (self : Output) (end_ : Z) : ioM gref := λ m,
  match slice_to (o_val self) end_ with
  | Return dest => (_ ← OutRef_copy_to_unchecked (o_ref self) dest; mret (o_val self)) m
  | _ => Panicked
  end.

(** ** Where staged values live *)

Definition in_placed (a a' : Alloc phase.Stage) (T : Layout) (len : Z) (r : InRef) : Prop :=
  placed a a' (l_align T) (len * l_size T) (in_ptr r) (in_offset r) ∧
  in_ty r = T ∧ in_len r = len.

Definition out_placed (a a' : Alloc phase.Stage) (T : Layout) (len : Z) (r : OutRef) : Prop :=
  placed a a' (l_align T) (len * l_size T) (out_ptr r) (out_offset r) ∧
  out_ty r = T ∧ out_len r = len.

(** The [_max] variants take as many elements as still fit. *)
Definition takes (a : Alloc phase.Stage) (T : Layout) (v : gref) (n : Z) : Prop :=
  ∃ k, free T a = Return k ∧ n = Z.min (g_len v) k ∧ 0 ≤ n ≤ g_len v.

Definition g_take (v : gref) (n : Z) : gref := mkGref (g_ptr v) n (g_elem v).
Definition g_drop (v : gref) (n : Z) : gref :=
  mkGref (g_ptr v + n * g_elem v) (g_len v - n) (g_elem v).

Lemma array_layout_Ok T len l :
  array_layout T len = Ok l → l = mkLayout (len * l_size T) (l_align T).
Proof.
  unfold array_layout. intros H. destruct (checked_mul _ _) as [s|] eqn:E; [|done].
  apply checked_mul_Some in E as [-> _]. destruct (_ <=? _); inv H. f_equal. lia.
Qed.

Section stage_wp.
Context (a : Alloc phase.Stage) (Hwf : alloc_wf a).

Lemma wp_allocate_input T (Q : InRef → Alloc phase.Stage → Prop) :
  layout_wf T → (∀ r a', in_placed a a' T 1 r → Q r a') → wp (allocate_input T) a Q.
Proof.
  intros HT HQ. do 2 apply wp_bind. apply wp_allocate_layout; [done..|].
  intros p off a' Hp. do 2 apply wp_ret. apply HQ. split; [|done]. by rewrite Z.mul_1_l.
Qed.

Lemma wp_allocate_output T (Q : OutRef → Alloc phase.Stage → Prop) :
  layout_wf T → (∀ r a', out_placed a a' T 1 r → Q r a') → wp (allocate_output T) a Q.
Proof.
  intros HT HQ. do 2 apply wp_bind. apply wp_allocate_layout; [done..|].
  intros p off a' Hp. do 2 apply wp_ret. apply HQ. split; [|done]. by rewrite Z.mul_1_l.
Qed.

Lemma wp_allocate_inout T (Q : InOutRef → Alloc phase.Stage → Prop) :
  layout_wf T → (∀ r a', in_placed a a' T 1 (inout_in r) → Q r a') →
  wp (allocate_inout T) a Q.
Proof.
  intros HT HQ. do 2 apply wp_bind. apply wp_allocate_layout; [done..|].
  intros p off a' Hp. do 2 apply wp_ret. apply HQ. split; [|done]. by rewrite Z.mul_1_l.
Qed.

Lemma wp_allocate_input_slice T len (Q : InRef → Alloc phase.Stage → Prop) :
  layout_wf T → 0 ≤ len → (∀ r a', in_placed a a' T len r → Q r a') →
  wp (allocate_input_slice T len) a Q.
Proof.
  intros [HT HT'] Hlen HQ. apply wp_bind, wp_try. intros l ->%array_layout_Ok.
  do 2 apply wp_bind. apply wp_allocate_layout; [done|split; simpl; nia|].
  intros p off a' Hp. do 2 apply wp_ret. by apply HQ.
Qed.

Lemma wp_allocate_output_slice T len (Q : OutRef → Alloc phase.Stage → Prop) :
  layout_wf T → 0 ≤ len → (∀ r a', out_placed a a' T len r → Q r a') →
  wp (allocate_output_slice T len) a Q.
Proof.
  intros [HT HT'] Hlen HQ. apply wp_bind, wp_try. intros l ->%array_layout_Ok.
  do 2 apply wp_bind. apply wp_allocate_layout; [done|split; simpl; nia|].
  intros p off a' Hp. do 2 apply wp_ret. by apply HQ.
Qed.

Lemma wp_allocate_inout_slice T len (Q : InOutRef → Alloc phase.Stage → Prop) :
  layout_wf T → 0 ≤ len → (∀ r a', in_placed a a' T len (inout_in r) → Q r a') →
  wp (allocate_inout_slice T len) a Q.
Proof.
  intros [HT HT'] Hlen HQ. apply wp_bind, wp_try. intros l ->%array_layout_Ok.
  do 2 apply wp_bind. apply wp_allocate_layout; [done|split; simpl; nia|].
  intros p off a' Hp. do 2 apply wp_ret. by apply HQ.
Qed.

Lemma wp_Input_stage {U} T (v : U) (Q : Input U → Alloc phase.Stage → Prop) :
  layout_wf T → (∀ r a', in_placed a a' T 1 r → Q (mkInput r v) a') →
  wp (Input_stage T v) a Q.
Proof. intros HT HQ. apply wp_bind, wp_allocate_input; [done|]. intros. by apply wp_ret, HQ. Qed.

Lemma wp_Output_stage T v (Q : Output → Alloc phase.Stage → Prop) :
  layout_wf T → (∀ r a', out_placed a a' T 1 r → Q (mkOutput r v) a') →
  wp (Output_stage T v) a Q.
Proof. intros HT HQ. apply wp_bind, wp_allocate_output; [done|]. intros. by apply wp_ret, HQ. Qed.

Lemma wp_InOut_stage T v (Q : InOut → Alloc phase.Stage → Prop) :
  layout_wf T → (∀ r a', in_placed a a' T 1 (inout_in r) → Q (mkInOut r v) a') →
  wp (InOut_stage T v) a Q.
Proof. intros HT HQ. apply wp_bind, wp_allocate_inout; [done|]. intros. by apply wp_ret, HQ. Qed.

Lemma wp_Input_stage_slice T v (Q : Input gref → Alloc phase.Stage → Prop) :
  layout_wf T → 0 ≤ g_len v → (∀ r a', in_placed a a' T (g_len v) r → Q (mkInput r v) a') →
  wp (Input_stage_slice T v) a Q.
Proof.
  intros HT Hv HQ. apply wp_bind, wp_allocate_input_slice; [done..|].
  intros. by apply wp_ret, HQ.
Qed.

Lemma wp_Output_stage_slice T v (Q : Output → Alloc phase.Stage → Prop) :
  layout_wf T → 0 ≤ g_len v → (∀ r a', out_placed a a' T (g_len v) r → Q (mkOutput r v) a') →
  wp (Output_stage_slice T v) a Q.
Proof.
  intros HT Hv HQ. apply wp_bind, wp_allocate_output_slice; [done..|].
  intros. by apply wp_ret, HQ.
Qed.

Lemma wp_InOut_stage_slice T v (Q : InOut → Alloc phase.Stage → Prop) :
  layout_wf T → 0 ≤ g_len v →
  (∀ r a', in_placed a a' T (g_len v) (inout_in r) → Q (mkInOut r v) a') →
  wp (InOut_stage_slice T v) a Q.
Proof.
  intros HT Hv HQ. apply wp_bind, wp_allocate_inout_slice; [done..|].
  intros. by apply wp_ret, HQ.
Qed.

Lemma wp_split_max T v (Q : gref * gref → Alloc phase.Stage → Prop) :
  layout_wf T → 0 < l_size T → 0 ≤ g_len v →
  (∀ n, takes a T v n → Q (g_take v n, g_drop v n) a) →
  wp (n ← get_free T; must (split_at v (Z.min (g_len v) n))) a Q.
Proof.
  intros HT Hs Hv HQ. apply wp_bind, wp_get_free; [done..|]. intros k Hk H0 _.
  unfold wp, must, split_at. rewrite (proj2 (Z.leb_le _ _)) by lia.
  apply HQ. exists k. repeat split; [done|lia..].
Qed.
End stage_wp.

Arguments takes : simpl never.

Section stage_max_wp.
Context (a : Alloc phase.Stage) (Hwf : alloc_wf a) (T : Layout) (v : gref).
Context (HT : layout_wf T) (Hs : 0 < l_size T) (Hv : 0 ≤ g_len v).

Lemma wp_max {A : Type} (f : gref → stageM A) (Q : A * gref → Alloc phase.Stage → Prop) :
  (∀ n, takes a T v n → wp (f (g_take v n)) a (λ x a', Q (x, g_drop v n) a')) →
  wp (n ← get_free T; '(head, tail) ← must (split_at v (Z.min (g_len v) n));
      x ← f head; mret (x, tail)) a Q.
Proof.
  intros HQ. apply wp_bind, wp_get_free; [done..|]. intros k Hk H0 _.
  apply wp_bind. unfold wp at 1, must, split_at. rewrite (proj2 (Z.leb_le _ _)) by lia.
  apply wp_bind. eapply wp_mono; [apply HQ|].
  - exists k. repeat split; [done|lia..].
  - intros x a' HQ'. by apply wp_ret.
Qed.

Lemma wp_Input_stage_slice_max (Q : Input gref * gref → Alloc phase.Stage → Prop) :
  (∀ n r a', takes a T v n → in_placed a a' T n r →
     Q (mkInput r (g_take v n), g_drop v n) a') →
  wp (Input_stage_slice_max T v) a Q.
Proof.
  intros HQ. apply (wp_max (Input_stage_slice T)). intros n Hn.
  apply wp_Input_stage_slice; [done..| |].
  - destruct Hn as (k & _ & _ & ?). simpl. lia.
  - intros r a' Hr. by apply HQ.
Qed.

Lemma wp_Output_stage_slice_max (Q : Output * gref → Alloc phase.Stage → Prop) :
  (∀ n r a', takes a T v n → out_placed a a' T n r →
     Q (mkOutput r (g_take v n), g_drop v n) a') →
  wp (Output_stage_slice_max T v) a Q.
Proof.
  intros HQ. apply (wp_max (Output_stage_slice T)). intros n Hn.
  apply wp_Output_stage_slice; [done..| |].
  - destruct Hn as (k & _ & _ & ?). simpl. lia.
  - intros r a' Hr. by apply HQ.
Qed.

End stage_max_wp.

(** ** Committing and collecting, as memory updates *)

Lemma Input_commit_eq {U : Type} `{Borrow U} (i : Input U) m :
  Input_commit i m = Return (tt, write_bytes m (in_ptr (i_ref i)) (borrow (i_val i) m)).
Proof. done. Qed.

Lemma Input_commit_slice_eq (i : Input gref) m :
  Input_commit_slice i m = Return (tt, write_bytes m (in_ptr (i_ref i)) (borrow (i_val i) m)).
Proof. done. Qed.

Lemma InOut_commit_eq (i : InOut) m :
  InOut_commit i m =
    Return (Output_from_InOut i,
            write_bytes m (in_ptr (inout_in (io_ref i))) (borrow (io_val i) m)).
Proof. done. Qed.

Lemma InOut_commit_slice_eq (i : InOut) m :
  InOut_commit_slice i m =
    Return (Output_from_InOut i,
            write_bytes m (in_ptr (inout_in (io_ref i))) (borrow (io_val i) m)).
Proof. done. Qed.

Lemma Output_collect_eq (o : Output) m :
  Output_collect o m =
    Return (o_val o, write_bytes m (g_ptr (o_val o))
                       (read_bytes m (out_ptr (o_ref o)) (l_size (out_ty (o_ref o))))).
Proof. done. Qed.

Lemma Output_collect_slice_eq (o : Output) m :
  Output_collect_slice o m =
    Return (o_val o, write_bytes m (g_ptr (o_val o))
                       (read_bytes m (out_ptr (o_ref o)) (g_bytes (o_val o)))).
Proof. done. Qed.

Lemma Output_collect_range_eq (o : Output) n m :
  n ≤ g_len (o_val o) →
  Output_collect_range o n m =
    Return (o_val o, write_bytes m (g_ptr (o_val o))
                       (read_bytes m (out_ptr (o_ref o)) (n * g_elem (o_val o)))).
Proof.
  intros H. unfold Output_collect_range, slice_to. by rewrite (proj2 (Z.leb_le _ _) H).
Qed.

Lemma length_borrow_gref (r : gref) m : length (borrow r m) = Z.to_nat (g_bytes r).
Proof. unfold borrow, gref_borrow. by rewrite length_read_bytes. Qed.

(** ** Scattered slices

    The iterator built by [map_while] in [readv.rs] and [writev.rs]: whole
    slices while the capacity lasts, then a part of the next one. *)

Fixpoint take_capacity (capacity : Z) (iovs : list gref) : list gref :=
  match iovs with
  | [] => []
  | iov :: iovs =>
      if capacity =? 0 then []
      else if g_len iov <=? capacity then iov :: take_capacity (capacity - g_len iov) iovs
      else [g_take iov capacity]
  end.

Definition total_len (iovs : list gref) : Z := foldr (λ r n, g_len r + n) 0 iovs.
Definition total_bytes (iovs : list gref) : Z := foldr (λ r n, g_bytes r + n) 0 iovs.

(** Slices of bytes. *)
Definition byte_slices (iovs : list gref) : Prop :=
  Forall (λ r, 0 ≤ g_len r ∧ g_elem r = 1) iovs.

Lemma take_capacity_total iovs capacity :
  byte_slices iovs → 0 ≤ capacity →
  total_bytes (take_capacity capacity iovs) = Z.min capacity (total_len iovs).
Proof.
  intros H. revert capacity; induction H as [|r iovs [Hr He] H IH]; intros c Hc; simpl; [lia|].
  assert (0 ≤ total_len iovs).
  { clear -H. induction H as [|x l [? _] _ IH]; simpl; lia. }
  destruct (c =? 0) eqn:E; bool_to_prop; [simpl; lia|].
  destruct (g_len r <=? c) eqn:E2; bool_to_prop; simpl.
  - rewrite IH by lia. unfold g_bytes. rewrite He. lia.
  - unfold g_bytes. simpl. rewrite He. lia.
Qed.

Lemma take_capacity_byte_slices iovs capacity :
  byte_slices iovs → 0 ≤ capacity → byte_slices (take_capacity capacity iovs).
Proof.
  intros H. revert capacity; induction H as [|r iovs [Hr He] H IH]; intros c Hc; simpl; [constructor|].
  destruct (c =? 0) eqn:E; bool_to_prop; [constructor|].
  destruct (g_len r <=? c) eqn:E2; bool_to_prop.
  - constructor; [done|]. apply IH. lia.
  - constructor; [|constructor]. simpl. split; [lia|done].
Qed.

(** Each taken slice is a prefix of one of the originals. *)
Lemma take_capacity_incl iovs capacity x :
  byte_slices iovs → 0 ≤ capacity →
  Exists (λ r, in_gref r x) (take_capacity capacity iovs) → Exists (λ r, in_gref r x) iovs.
Proof.
  intros H. revert capacity; induction H as [|r iovs [Hr He] H IH]; intros c Hc; simpl; [done|].
  destruct (c =? 0) eqn:E; bool_to_prop; [by intros ?%Exists_nil|].
  destruct (g_len r <=? c) eqn:E2; bool_to_prop.
  - rewrite !Exists_cons. intros [Hx|Hx]; [by left|right]. eapply IH; [|done]. lia.
  - rewrite !Exists_cons, Exists_nil. unfold in_gref, g_bytes. simpl.
    rewrite He. intros [Hx|[]]. left. lia.
Qed.

(** Gathering writes the concatenation and nothing else. *)
Lemma copy_from_iter_frame r srcs m :
  Forall (λ s, 0 ≤ g_bytes s) srcs →
  ∃ m', InRef_copy_from_iter_unchecked r srcs m = Return (tt, m') ∧
    same_outside (in_ptr r) (in_ptr r + total_bytes srcs) m m'.
Proof.
  intros H. eexists; split; [done|]. generalize (in_ptr r) as p.
  revert m; induction H as [|s srcs Hs H IH]; intros m p; simpl.
  - apply same_outside_refl.
  - assert (0 ≤ total_bytes srcs).
    { clear -H. induction H; simpl; lia. }
    etransitivity; [|eapply same_outside_weaken, IH; lia].
    eapply same_outside_weaken, write_bytes_frame; [lia|].
    rewrite length_borrow_gref. lia.
Qed.

Lemma copy_from_iter_content r srcs m m' :
  Forall (λ s, 0 ≤ g_bytes s ∧
    (g_ptr s + g_bytes s ≤ in_ptr r ∨ in_ptr r + total_bytes srcs ≤ g_ptr s)) srcs →
  InRef_copy_from_iter_unchecked r srcs m = Return (tt, m') →
  read_bytes m' (in_ptr r) (total_bytes srcs) = srcs ≫= λ s, borrow s m.
Proof.
  intros H Hm. inv Hm. revert H. generalize (in_ptr r) as p. intros p H.
  assert (Hpos : Forall (λ s, 0 ≤ g_bytes s) srcs) by (eapply Forall_impl; [exact H|]; by intros s [? _]).
  assert (∀ lo, lo ≤ p → Forall (λ s, g_ptr s + g_bytes s ≤ lo ∨ p + total_bytes srcs ≤ g_ptr s) srcs →
    ∀ m0, (∀ s, s ∈ srcs → borrow s m0 = borrow s m) →
    read_bytes (snd (foldl (λ '(ptr, m) src,
      (ptr + g_bytes src, write_bytes m ptr (borrow src m))) (p, m0) srcs)) p (total_bytes srcs)
    = srcs ≫= λ s, borrow s m) as Hgen.
  { clear H. revert p. induction Hpos as [|s srcs Hs Hpos IH]; intros p lo Hlo Hd m0 Hm0; simpl.
    - by apply read_bytes_nil.
    - apply Forall_cons in Hd as [Hd1 Hd]. simpl in *.
      assert (Ht : 0 ≤ total_bytes srcs) by (clear -Hpos; induction Hpos; simpl; lia).
      rewrite read_bytes_app by lia. rewrite (Hm0 s) by apply list_elem_of_here. f_equal.
      + etransitivity; [|apply (read_write_same m0 p (borrow s m) (g_bytes s)); rewrite length_borrow_gref; lia].
        apply read_bytes_ext. intros x Hx.
        destruct (copy_from_iter_frame (mkInRef ty_u8 (p + g_bytes s) 0 0) srcs
          (write_bytes m0 p (borrow s m)) Hpos) as (m' & Hm' & Hf). inv Hm'. simpl in Hf.
        apply Hf. lia.
      + apply IH with (lo := lo); [lia| |].
        * eapply Forall_impl; [done|]. simpl. lia.
        * intros s' Hs'. rewrite <- (Hm0 s') by (by apply list_elem_of_further). unfold borrow at 1 3, gref_borrow.
          apply read_write_disjoint. rewrite length_borrow_gref.
          rewrite Forall_forall in Hd. specialize (Hd s' Hs'). lia. }
  apply Hgen with (lo := p); [lia| |done].
  eapply Forall_impl; [exact H|]. by intros s [_ ?].
Qed.
