(* ===== verification/Items.v ===== *)
(** * Items and the block

    [crates/sallyport/src/item]: the item kinds, headers and payloads that the
    guest writes into the sallyport block, and the iterator with which the
    host walks over them.  The block is a slice of words in a memory; an item
    is the address of its payload and the address and length of its data, the
    two mutable references the Rust iterator yields. *)

From S2P Require Import Prelude Memory Libc PhaseAlloc.

Inductive Kind : Type := End_ | Syscall | Gdbcall | Enarxcall.

#[global] Instance Kind_eq_dec : EqDecision Kind.
Proof. solve_decision. Defined.

Definition Kind_as_usize (k : Kind) : Z :=
  match k with End_ => 0x00 | Syscall => 0x01 | Gdbcall => 0x02 | Enarxcall => 0x03 end.

(** [TryFrom<usize> for Kind] *)
Definition Kind_try_from (kind : Z) : result Kind :=
  if kind =? Kind_as_usize End_ then Ok End_
  else if kind =? Kind_as_usize Syscall then Ok Syscall
  else if kind =? Kind_as_usize Gdbcall then Ok Gdbcall
  else if kind =? Kind_as_usize Enarxcall then Ok Enarxcall
  else Err EINVAL.

Record Header : Type := mkHeader { h_size : Z; h_kind : Kind }.
Definition Header_layout : Layout := repr_c [ty_usize; ty_usize].
Definition Header_words (h : Header) : words := mkWords [h_size h; Kind_as_usize (h_kind h)].

(** Payloads, as the number of words they occupy. *)
Record SyscallPayload : Type := mkSyscallPayload { sp_num : Z; sp_argv : list Z; sp_ret : list Z }.
Record NumberPayload : Type := mkNumberPayload { np_num : Z; np_argv : list Z; np_ret : Z }.

Definition syscall_payload_layout : Layout := repr_c [ty_usize; array 6 ty_usize; array 2 ty_usize].
Definition gdbcall_payload_layout : Layout := repr_c [ty_usize; array 4 ty_usize; ty_usize].
Definition enarxcall_payload_layout : Layout := repr_c [ty_usize; array 4 ty_usize; ty_usize].

Definition syscall_USIZE_COUNT : Z := l_size syscall_payload_layout / 8.
Definition gdbcall_USIZE_COUNT : Z := l_size gdbcall_payload_layout / 8.
Definition enarxcall_USIZE_COUNT : Z := l_size enarxcall_payload_layout / 8.

Definition USIZE_COUNT (k : Kind) : Z :=
  match k with
  | End_ => 0
  | Syscall => syscall_USIZE_COUNT
  | Gdbcall => gdbcall_USIZE_COUNT
  | Enarxcall => enarxcall_USIZE_COUNT
  end.

(** [gdbcall::Number] and [enarxcall::Number] *)
Module gdbcall.

Inductive Number : Type := Write | WriteAll | Flush | OnSessionStart | Read | Peek.

Definition as_usize (n : Number) : Z :=
  match n with
  | Write => 0x00 | WriteAll => 0x01 | Flush => 0x02
  | OnSessionStart => 0x03 | Read => 0x04 | Peek => 0x05
  end.

End gdbcall.

Module enarxcall.

Inductive Number : Type :=
| MemInfo | BalloonMemory | Cpuid | GetSgxQuote | GetSgxTargetInfo | GetSgxQuoteSize
| GetSnpVcek | MmapHost | MprotectHost | MunmapHost | TrimSgxPages.

Definition as_usize (n : Number) : Z :=
  match n with
  | MemInfo => 0x00 | BalloonMemory => 0x01 | Cpuid => 0x02 | GetSgxQuote => 0x03
  | GetSgxTargetInfo => 0x04 | GetSgxQuoteSize => 0x05 | GetSnpVcek => 0x06
  | MmapHost => 0x07 | MprotectHost => 0x08 | MunmapHost => 0x09 | TrimSgxPages => 0x10
  end.

Definition SYS_GETATT : Z := 0xEA01.
Definition SYS_GETKEY : Z := 0xEA02.

End enarxcall.

Definition LARGEST_PAYLOAD_SIZE : Z :=
  let max := l_size gdbcall_payload_layout in
  let max := if max <? l_size syscall_payload_layout then l_size syscall_payload_layout else max in
  if max <? l_size enarxcall_payload_layout then l_size enarxcall_payload_layout else max.

Definition LARGEST_ITEM_SIZE : Z := l_size Header_layout + LARGEST_PAYLOAD_SIZE.

(** [Block::size_hint] *)
Definition size_hint (item_count data_size : Z) : option Z :=
  match checked_mul item_count LARGEST_ITEM_SIZE with
  | None => None
  | Some item_size =>
      match checked_add item_size data_size with
      | None => None
      | Some size =>
          let count := size / l_size ty_usize in
          if size mod l_size ty_usize =? 0 then Some count else Some (count + 1)
      end
  end.

(** An item: kind, address of the payload, address and length of the data. *)
Record Item : Type := mkItem {
  it_kind : Kind;
  it_payload : Z;
  it_data : Z;
  it_data_len : Z;
}.

(** [split_at_mut] on a slice of words. *)
Definition split_at_mut (s : block) (mid : Z) : outcome (block * block) :=
  if mid <=? b_len s then
    Return (mkBlock (b_ptr s) mid, mkBlock (b_ptr s + 8 * mid) (b_len s - mid))
  else Panicked.

(** [decode_item] *)
Definition decode_item (k : Kind) (size : Z) (tail : block) : outcome (option (Item * block)) :=
  '(payload, tail) ← split_at_mut tail (size / l_size ty_usize);
  match checked_sub size (8 * USIZE_COUNT k) with
  | None => Return None
  | Some data_size =>
      '(item_payload, data) ← split_at_mut payload (USIZE_COUNT k);
      if negb (8 * b_len data =? data_size) then Return None
      else Return (Some (mkItem k (b_ptr item_payload) (b_ptr data) (8 * b_len data), tail))
  end.

(** [From<Block> for Option<(Option<Item>, Block)>] *)
Definition Block_into (m : mem) (blk : block) : outcome (option (option Item * block)) :=
  if b_len blk <? 2 then Return None
  else
    let size := read_usize m (b_ptr blk) in
    let kind := read_usize m (b_ptr blk + 8) in
    let tail := mkBlock (b_ptr blk + 16) (b_len blk - 2) in
    if negb (size mod l_align ty_usize =? 0) then Return None
    else
      match Kind_try_from kind with
      | Ok End_ => Return None
      | Ok k =>
          r ← decode_item k size tail;
          Return (match r with Some (item, tail) => Some (Some item, tail) | None => None end)
      | Err _ =>
          '(_, tail) ← split_at_mut tail (size / l_size ty_usize);
          Return (Some (None, tail))
      end.

(** [Iterator for BlockIterator]: unknown items are skipped. *)
Fixpoint BlockIterator_next (fuel : nat) (m : mem) (self : option block)
    : outcome (option Item * option block) :=
  match self with
  | None => Return (None, None)
  | Some blk =>
      match fuel with
      | O => Diverged
      | S fuel =>
          r ← Block_into m blk;
          match r with
          | Some (Some item, tail) => Return (Some item, Some tail)
          | Some (None, tail) => BlockIterator_next fuel m (Some tail)
          | None => Return (None, None)
          end
      end
  end.

(** All items the iterator yields. *)
Fixpoint BlockIterator_collect (fuel : nat) (m : mem) (self : option block) : outcome (list Item) :=
  match fuel with
  | O => Diverged
  | S fuel =>
      '(item, self) ← BlockIterator_next (S fuel) m self;
      match item with
      | None => Return []
      | Some item => items ← BlockIterator_collect fuel m self; Return (item :: items)
      end
  end.

Definition Block_items (m : mem) (blk : block) : outcome (list Item) :=
  BlockIterator_collect (S (Z.to_nat (b_len blk))) m (Some blk).

(** What an item holds in memory [m]. *)
Definition item_words (m : mem) (it : Item) : list Z :=
  read_words m (it_payload it) (USIZE_COUNT (it_kind it)).
Definition item_data (m : mem) (it : Item) : list Z :=
  read_bytes m (it_data it) (it_data_len it).

(** ** The iterator stays inside the block *)

(** An item and the tail that follows it, carved out of [blk]. *)
Record carved (m : mem) (blk : block) (it : Item) (tail : block) : Prop := {
  cv_kind : it_kind it ≠ End_;
  cv_payload : it_payload it = b_ptr blk + 16;
  cv_data : it_data it = it_payload it + 8 * USIZE_COUNT (it_kind it);
  cv_len : 0 ≤ it_data_len it;
  cv_mult : it_data_len it mod 8 = 0;
  cv_size : read_usize m (b_ptr blk) = 8 * USIZE_COUNT (it_kind it) + it_data_len it;
  cv_code : read_usize m (b_ptr blk + 8) = Kind_as_usize (it_kind it);
  cv_next : b_ptr tail = it_data it + it_data_len it;
  cv_tail : 0 ≤ b_len tail;
  cv_end : b_ptr tail + 8 * b_len tail = b_ptr blk + 8 * b_len blk;
}.

Lemma Kind_try_from_inv kind k : Kind_try_from kind = Ok k → kind = Kind_as_usize k.
Proof. unfold Kind_try_from. intros H. repeat case_match; inv H; by bool_to_prop. Qed.

Lemma Kind_try_from_as_usize k : Kind_try_from (Kind_as_usize k) = Ok k.
Proof. by destruct k. Qed.

Lemma Kind_try_from_unknown kind e :
  Kind_try_from kind = Err e ↔ e = EINVAL ∧ ∀ k, kind ≠ Kind_as_usize k.
Proof.
  unfold Kind_try_from. split.
  - intros H. repeat case_match; inv H. bool_to_prop. split; [done|]. by intros [].
  - intros [-> Hk]. repeat case_match; bool_to_prop; try done; exfalso; by eapply Hk.
Qed.

Lemma USIZE_COUNT_pos k : 0 ≤ USIZE_COUNT k ≤ 9.
Proof. destruct k; vm_compute; split; discriminate. Qed.

Lemma split_at_mut_inv s mid r :
  split_at_mut s mid = Return r →
  mid ≤ b_len s ∧ r = (mkBlock (b_ptr s) mid, mkBlock (b_ptr s + 8 * mid) (b_len s - mid)).
Proof. unfold split_at_mut. intros H. case_match; inv H. by bool_to_prop. Qed.

Lemma decode_item_inv k size tail it tail' :
  0 ≤ size → size mod 8 = 0 →
  decode_item k size tail = Return (Some (it, tail')) →
  8 * USIZE_COUNT k ≤ size ∧ size / 8 ≤ b_len tail ∧
  it = mkItem k (b_ptr tail) (b_ptr tail + 8 * USIZE_COUNT k) (size - 8 * USIZE_COUNT k) ∧
  tail' = mkBlock (b_ptr tail + size) (b_len tail - size / 8).
Proof.
  intros H0 Hm H. pose proof (USIZE_COUNT_pos k) as Hk. unfold decode_item in H.
  change (l_size ty_usize) with 8 in H.
  destruct (split_at_mut tail (size / 8)) as [[payload t]| | |] eqn:E1; try done.
  apply split_at_mut_inv in E1 as [Hs E1]. inv E1. unfold mbind, outcome_bind in H.
  destruct (checked_sub _ _) as [ds|] eqn:E2; [|done]. apply checked_sub_Some in E2 as [-> E2].
  destruct (split_at_mut _ (USIZE_COUNT k)) as [[ip d]| | |] eqn:E3; try done.
  apply split_at_mut_inv in E3 as [Hs3 E3]. inv E3. simpl in *.
  destruct (negb _) eqn:E4; inv H. rewrite negb_false_iff in E4. bool_to_prop.
  repeat split; try lia; f_equal; dlia.
Qed.

Lemma Block_into_item m blk it tail :
  mem_wf m → Block_into m blk = Return (Some (Some it, tail)) → carved m blk it tail.
Proof.
  intros Hm H. unfold Block_into in H.
  destruct (b_len blk <? 2) eqn:E0; [done|]. bool_to_prop.
  pose proof (read_usize_range m (b_ptr blk) Hm) as Hr.
  change (l_align ty_usize) with 8 in H.
  destruct (negb _) eqn:E1; [done|]. rewrite negb_false_iff in E1. bool_to_prop.
  destruct (Kind_try_from _) as [k|e] eqn:Ek.
  - apply Kind_try_from_inv in Ek. assert (k ≠ End_) by (intros ->; done).
    assert (H' : (r ← decode_item k (read_usize m (b_ptr blk)) (mkBlock (b_ptr blk + 16) (b_len blk - 2));
      Return (match r with Some (item, tail) => Some (Some item, tail) | None => None end))
      = Return (Some (Some it, tail))) by (destruct k; done). clear H.
    unfold mbind, outcome_bind in H'.
    destruct (decode_item _ _ _) as [[[it' t]|]| | |] eqn:Ed; inv H'.
    apply decode_item_inv in Ed as (H1 & H2 & -> & ->); [|unfold is_usize in Hr; lia|done].
    pose proof (USIZE_COUNT_pos k).
    simpl in *. split; simpl; try done; dlia.
  - unfold mbind, outcome_bind in H. destruct (split_at_mut _ _) as [[]| | |]; done.
Qed.

Lemma Block_into_skip m blk tail :
  mem_wf m → Block_into m blk = Return (Some (None, tail)) →
  2 ≤ b_len blk ∧ b_ptr blk + 16 ≤ b_ptr tail ∧ 0 ≤ b_len tail ∧
  b_ptr tail = b_ptr blk + 16 + read_usize m (b_ptr blk) ∧
  b_ptr tail + 8 * b_len tail = b_ptr blk + 8 * b_len blk.
Proof.
  intros Hm H. unfold Block_into in H.
  destruct (b_len blk <? 2) eqn:E0; [done|]. bool_to_prop.
  pose proof (read_usize_range m (b_ptr blk) Hm) as Hr. unfold is_usize in Hr.
  change (l_align ty_usize) with 8 in H. change (l_size ty_usize) with 8 in H.
  destruct (negb _) eqn:E1; [done|]. rewrite negb_false_iff in E1. bool_to_prop.
  unfold mbind, outcome_bind in H.
  destruct (Kind_try_from _) as [k|e] eqn:Ek.
  - destruct k; try done; destruct (decode_item _ _ _) as [[[]|]| | |]; done.
  - destruct (split_at_mut _ _) as [[p t]| | |] eqn:Es; inv H.
    apply split_at_mut_inv in Es as [Hs Es]. inv Es. simpl in *. dlia.
Qed.

(** [Block_into] itself never loops. *)
Lemma Block_into_not_diverged m blk : Block_into m blk ≠ Diverged ∧ Block_into m blk ≠ Attacked.
Proof.
  unfold Block_into, decode_item, split_at_mut, mbind, outcome_bind.
  split; repeat case_match; simplify_eq; done.
Qed.

(** [blk'] is the rest of [blk] from some word on. *)
Definition suffix_of (blk blk' : block) : Prop :=
  b_ptr blk ≤ b_ptr blk' ∧ 0 ≤ b_len blk' ∧
  b_ptr blk' + 8 * b_len blk' = b_ptr blk + 8 * b_len blk.

#[global] Instance suffix_of_trans : Transitive suffix_of.
Proof. intros x y z (? & ? & ?) (? & ? & ?). repeat split; lia. Qed.

Inductive items_in (m : mem) : block → list Item → Prop :=
| items_nil blk : items_in m blk []
| items_cons blk blk' it tail its :
    suffix_of blk blk' → carved m blk' it tail → items_in m tail its →
    items_in m blk (it :: its).

Lemma carved_suffix m blk it tail : carved m blk it tail → suffix_of blk tail ∧ b_len tail < b_len blk.
Proof.
  intros []. pose proof (USIZE_COUNT_pos (it_kind it)). unfold suffix_of. lia.
Qed.

Lemma BlockIterator_next_spec fuel m blk :
  mem_wf m → 0 ≤ b_len blk → (Z.to_nat (b_len blk) < fuel)%nat →
  match BlockIterator_next fuel m (Some blk) with
  | Return (Some it, Some tail) => ∃ blk', suffix_of blk blk' ∧ carved m blk' it tail
  | Return (None, self) => self = None
  | Return (Some _, None) => False
  | Panicked => True
  | _ => False
  end.
Proof.
  intros Hm. revert blk. induction fuel as [|fuel IH]; intros blk Hl Hf; [lia|].
  simpl. pose proof (Block_into_not_diverged m blk) as [Hnd Hna].
  destruct (Block_into m blk) as [[[[it|] tail]|]| | |] eqn:E; simpl; try done.
  - exists blk. split; [by unfold suffix_of; lia|]. by apply Block_into_item.
  - apply Block_into_skip in E as (H2 & Hp & Ht & _ & He); [|done].
    specialize (IH tail Ht ltac:(lia)).
    destruct (BlockIterator_next fuel m (Some tail)) as [[[it|] [t|]]| | |]; try done.
    destruct IH as (blk' & Hs & Hc). exists blk'. split; [|done].
    etransitivity; [|done]. unfold suffix_of. lia.
Qed.

Lemma BlockIterator_collect_spec fuel m self :
  mem_wf m →
  (∀ blk, self = Some blk → 0 ≤ b_len blk ∧ (Z.to_nat (b_len blk) < fuel)%nat) →
  (0 < fuel)%nat →
  match BlockIterator_collect fuel m self with
  | Return its => match self with Some blk => items_in m blk its | None => its = [] end
  | Panicked => True
  | _ => False
  end.
Proof.
  intros Hm. revert self. induction fuel as [|fuel IH]; intros self Hself Hf; [lia|].
  cbn [BlockIterator_collect]. destruct self as [blk|]; [|done].
  destruct (Hself blk eq_refl) as [Hl Hfu].
  pose proof (BlockIterator_next_spec (S fuel) m blk Hm Hl Hfu) as Hn.
  destruct (BlockIterator_next (S fuel) m (Some blk)) as [[[it|] [t|]]| | |];
    try done; unfold mbind, outcome_bind; try (by constructor).
  destruct Hn as (blk' & Hs & Hc). pose proof (carved_suffix _ _ _ _ Hc) as [Ht Hlt].
  destruct Hs as (Hs1 & Hs2 & Hs3), Ht as (Ht1 & Ht2 & Ht3).
  assert (Hpre : ∀ b, Some t = Some b → 0 ≤ b_len b ∧ (Z.to_nat (b_len b) < fuel)%nat)
    by (intros b [= <-]; lia).
  specialize (IH (Some t) Hpre ltac:(lia)).
  destruct (BlockIterator_collect fuel m (Some t)) as [its| | |]; try done.
  econstructor; [|done..]. by unfold suffix_of; lia.
Qed.

Lemma Block_items_spec m blk :
  mem_wf m → 0 ≤ b_len blk →
  match Block_items m blk with
  | Return its => items_in m blk its
  | Panicked => True
  | _ => False
  end.
Proof.
  intros Hm Hl. apply (BlockIterator_collect_spec _ m (Some blk)); [done| |lia].
  intros b [= <-]. lia.
Qed.

(** Items are in the block, in order, and do not overlap. *)
Definition it_start (it : Item) : Z := it_payload it - 16.
Definition it_end (it : Item) : Z := it_data it + it_data_len it.

Lemma items_in_bounds m blk its :
  items_in m blk its →
  Forall (λ it, b_ptr blk ≤ it_start it ∧ it_payload it ≤ it_data it ≤ it_end it ∧
                it_end it ≤ b_ptr blk + 8 * b_len blk) its.
Proof.
  induction 1 as [|blk blk' it tail its Hs Hc Hi IH]; constructor.
  - destruct Hs as (? & ? & ?), Hc. pose proof (USIZE_COUNT_pos (it_kind it)).
    unfold it_start, it_end. lia.
  - pose proof (carved_suffix _ _ _ _ Hc) as [(? & ? & ?) _]. destruct Hs as (? & ? & ?).
    eapply Forall_impl; [exact IH|]. simpl. intros it' ?. lia.
Qed.

Lemma items_in_ordered m blk its i j x y :
  items_in m blk its → its !! i = Some x → its !! j = Some y → (i < j)%nat →
  it_end x ≤ it_start y.
Proof.
  intros H. revert i j. induction H as [|blk blk' it tail its Hs Hc Hi IH]; intros i j Hx Hy Hij.
  - done.
  - destruct j as [|j]; [lia|]. destruct i as [|i]; simpl in *.
    + inv Hx. apply items_in_bounds in Hi. rewrite Forall_lookup in Hi.
      specialize (Hi j y Hy). destruct Hc. unfold it_end in *. lia.
    + by eapply (IH i j); [..|lia].
Qed.

(** ** The wire format *)

Record raw_item : Type := mkRaw { ri_kind : Kind; ri_payload : list Z; ri_data : list Z }.

Definition raw_size (r : raw_item) : Z :=
  8 * Z.of_nat (length (ri_payload r)) + Z.of_nat (length (ri_data r)).

Definition encode_item (r : raw_item) : list Z :=
  words_to_bytes [raw_size r; Kind_as_usize (ri_kind r)] ++
  words_to_bytes (ri_payload r) ++ ri_data r.

Definition encode_block (rs : list raw_item) : list Z :=
  (rs ≫= encode_item) ++ words_to_bytes (words_of (Header_words (mkHeader 0 End_))).

Record raw_wf (r : raw_item) : Prop := {
  rw_kind : ri_kind r ≠ End_;
  rw_payload : Z.of_nat (length (ri_payload r)) = USIZE_COUNT (ri_kind r);
  rw_words : Forall is_usize (ri_payload r);
  rw_data : Z.of_nat (length (ri_data r)) mod 8 = 0;
  rw_size : raw_size r ≤ usize_MAX;
}.

(** The bytes [bs] are stored at [p]. *)
Definition holds (m : mem) (p : Z) (bs : list Z) : Prop :=
  read_bytes m p (Z.of_nat (length bs)) = bs.

Definition item_view (m : mem) (it : Item) : raw_item :=
  mkRaw (it_kind it) (item_words m it) (item_data m it).

Lemma holds_app m p bs1 bs2 :
  holds m p (bs1 ++ bs2) ↔ holds m p bs1 ∧ holds m (p + Z.of_nat (length bs1)) bs2.
Proof.
  unfold holds. rewrite length_app, Nat2Z.inj_add, read_bytes_app by lia. split.
  - intros H. apply app_inj_1 in H; [done|]. rewrite length_read_bytes. lia.
  - intros [-> ->]. done.
Qed.

Lemma holds_words m p ws :
  Forall is_usize ws → holds m p (words_to_bytes ws) →
  read_words m p (Z.of_nat (length ws)) = ws.
Proof.
  intros Hws H. rewrite <- (read_write_words m p ws (Z.of_nat (length ws)) Hws eq_refl) at 2.
  symmetry. apply read_words_ext. intros x Hx. rewrite <- H at 1.
  unfold holds in H. rewrite length_words_to_bytes. by rewrite (write_read_id m p _ x).
Qed.

Lemma holds_usize m p w : is_usize w → holds m p (to_le_bytes 8 w) → read_usize m p = w.
Proof.
  intros Hw H. unfold holds in H. rewrite length_to_le_bytes in H.
  unfold read_usize. change 8 with (Z.of_nat 8). rewrite H. by apply from_to_usize.
Qed.

Lemma is_usize_Kind k : is_usize (Kind_as_usize k).
Proof. destruct k; vm_compute; split; discriminate. Qed.

(** Decoding one encoded item. *)
Lemma Block_into_encoded m blk r :
  raw_wf r → holds m (b_ptr blk) (encode_item r) → raw_size r ≤ 8 * (b_len blk - 2) →
  let it := mkItem (ri_kind r) (b_ptr blk + 16)
              (b_ptr blk + 16 + 8 * USIZE_COUNT (ri_kind r)) (Z.of_nat (length (ri_data r))) in
  Block_into m blk =
    Return (Some (Some it, mkBlock (b_ptr blk + 16 + raw_size r) (b_len blk - 2 - raw_size r / 8)))
  ∧ item_view m it = r.
Proof.
  intros [Hk Hp Hw Hd Hs] H Hfit it. unfold encode_item in H.
  apply holds_app in H as [Hh H]. apply holds_app in H as [Hpl Hdt].
  rewrite length_words_to_bytes in Hpl, Hdt. rewrite length_words_to_bytes in Hdt.
  cbn [length] in Hpl, Hdt.
  assert (Hru : is_usize (raw_size r)) by (unfold is_usize, raw_size in *; lia).
  apply holds_words in Hh; [|by apply Forall_cons; split; [|apply Forall_singleton, is_usize_Kind]].
  cbn [length] in Hh. rewrite !read_words_cons in Hh by lia. injection Hh as Hsz Hkd.
  unfold raw_size in *. pose proof (USIZE_COUNT_pos (ri_kind r)) as Hc.
  set (dl := Z.of_nat (length (ri_data r))) in *. set (pl := Z.of_nat (length (ri_payload r))) in *.
  split.
  - unfold Block_into. rewrite (proj2 (Z.ltb_ge _ _)) by lia. rewrite Hsz, Hkd.
    change (l_align ty_usize) with 8. change (l_size ty_usize) with 8.
    rewrite (proj2 (Z.eqb_eq ((8 * pl + dl) mod 8) 0)) by dlia. simpl negb. cbv iota.
    rewrite Kind_try_from_as_usize.
    assert (Hdec : decode_item (ri_kind r) (8 * pl + dl) (mkBlock (b_ptr blk + 16) (b_len blk - 2)) =
      Return (Some (it, mkBlock (b_ptr blk + 16 + (8 * pl + dl))
                                (b_len blk - 2 - (8 * pl + dl) / 8)))).
    { unfold decode_item, split_at_mut, checked_sub. change (l_size ty_usize) with 8.
      unfold mbind, outcome_bind. simpl b_len. simpl b_ptr.
      rewrite (proj2 (Z.leb_le _ (b_len blk - 2))) by dlia.
      rewrite (proj2 (Z.leb_le (8 * USIZE_COUNT _) _)) by lia.
      simpl b_len. simpl b_ptr.
      rewrite (proj2 (Z.leb_le (USIZE_COUNT _) _)) by dlia. simpl b_len. simpl b_ptr.
      rewrite (proj2 (Z.eqb_eq _ _)) by dlia. simpl negb. cbv iota.
      unfold it. do 4 f_equal; [f_equal; dlia|f_equal; dlia]. }
    rewrite Hdec. destruct (ri_kind r); done.
  - unfold item_view, item_words, item_data, it. simpl. destruct r as [k pw d]; simpl in *. f_equal.
    + rewrite <- Hp. by apply holds_words.
    + rewrite <- Hp. replace (b_ptr blk + 16 + 8 * pl) with
        (b_ptr blk + Z.of_nat 16 + Z.of_nat (8 * length pw)) by lia. exact Hdt.
Qed.

Lemma Block_into_end m blk :
  holds m (b_ptr blk) (words_to_bytes [0; Kind_as_usize End_]) → Block_into m blk = Return None.
Proof.
  intros H. unfold Block_into. destruct (b_len blk <? 2); [done|].
  apply holds_words in H; [|by apply Forall_cons; split; [|apply Forall_singleton, is_usize_Kind]].
  cbn [length] in H. rewrite !read_words_cons in H by lia. injection H as -> Hk.
  rewrite Hk. done.
Qed.

Lemma length_encode_item r : Z.of_nat (length (encode_item r)) = 16 + raw_size r.
Proof.
  unfold encode_item, raw_size. rewrite !length_app, !length_words_to_bytes. simpl length. lia.
Qed.

Lemma collect_encoded rs : ∀ m blk fuel,
  Forall raw_wf rs → holds m (b_ptr blk) (encode_block rs) →
  Z.of_nat (length (encode_block rs)) ≤ 8 * b_len blk → (length rs < fuel)%nat →
  ∃ its, BlockIterator_collect fuel m (Some blk) = Return its ∧ item_view m <$> its = rs.
Proof.
  induction rs as [|r rs IH]; intros m blk fuel Hwf H Hlen Hf; (destruct fuel as [|fuel]; [lia|]).
  - exists []. split; [|done]. simpl. by rewrite (Block_into_end m blk H).
  - apply Forall_cons in Hwf as [Hr Hwf].
    unfold encode_block in H, Hlen. rewrite bind_cons, <- app_assoc in H, Hlen.
    rewrite length_app in Hlen. apply holds_app in H as [Hi Hrest].
    pose proof (length_encode_item r) as Hl.
    assert (Hsz : 0 ≤ raw_size r) by (unfold raw_size; lia).
    destruct (Block_into_encoded m blk r Hr Hi ltac:(lia)) as [Hdec Hview].
    set (tail := mkBlock _ _) in Hdec. set (it := mkItem _ _ _ _) in *.
    assert (Hmod : raw_size r mod 8 = 0) by (destruct Hr; unfold raw_size in *; dlia).
    simpl in Hf. destruct (IH m tail fuel) as (its & Hits & Hv); [done| | |lia|].
    + unfold tail. simpl. replace (b_ptr blk + 16 + raw_size r) with
        (b_ptr blk + Z.of_nat (length (encode_item r))) by lia. exact Hrest.
    + unfold tail, encode_block. cbn [b_len]. dlia.
    + exists (it :: its). split; [|by rewrite fmap_cons, Hview, Hv].
      cbn [BlockIterator_collect BlockIterator_next]. rewrite Hdec.
      unfold mbind, outcome_bind. by rewrite Hits.
Qed.

Lemma outcome_map_panics {A B : Type} (o : outcome A) (g : A → B) :
  (r ← o; Return (g r)) = Panicked ↔ o = Panicked.
Proof. by destruct o. Qed.

(** The only item of a block that starts with [r]. *)
Definition first_item (blk : block) (r : raw_item) : Item :=
  mkItem (ri_kind r) (b_ptr blk + 16) (b_ptr blk + 16 + 8 * USIZE_COUNT (ri_kind r))
         (Z.of_nat (length (ri_data r))).

Lemma Block_items_one m blk r :
  raw_wf r → holds m (b_ptr blk) (encode_block [r]) →
  Z.of_nat (length (encode_block [r])) ≤ 8 * b_len blk →
  Block_items m blk = Return [first_item blk r] ∧ item_view m (first_item blk r) = r.
Proof.
  intros Hr H Hlen. unfold encode_block in H, Hlen. cbn [mbind list_bind] in H, Hlen.
  rewrite app_nil_r in H, Hlen. apply holds_app in H as [Hi He]. rewrite length_app in Hlen.
  pose proof (length_encode_item r) as Hl. set (e := words_to_bytes (words_of _)) in *.
  assert (Le : length e = 16%nat) by done.
  assert (Hsz : 0 ≤ raw_size r) by (unfold raw_size; lia).
  destruct (Block_into_encoded m blk r Hr Hi ltac:(lia)) as [Hdec Hview].
  split; [|done]. unfold Block_items.
  destruct (Z.to_nat (b_len blk)) as [|n] eqn:En; [lia|].
  cbn [BlockIterator_collect BlockIterator_next]. rewrite Hdec. cbn [mbind outcome_bind].
  rewrite Block_into_end; [done|].
  cbn [b_ptr]. replace (b_ptr blk + 16 + raw_size r)
    with (b_ptr blk + Z.of_nat (length (encode_item r))) by lia. exact He.
Qed.

(** ** Properties *)

(** Iterating over a block whose contents an adversary chose terminates;
    unless it panics, every item yielded has its payload and data inside the
    block, items come in address order and never overlap, so that the mutable
    references handed to the host are disjoint. *)
Theorem block_iteration_safe m blk :
  mem_wf m → 0 ≤ b_len blk →
  (Block_items m blk = Panicked) ∨
  (∃ its, Block_items m blk = Return its ∧
    Forall (λ it, b_ptr blk ≤ it_start it ∧
                  it_data it = it_payload it + 8 * USIZE_COUNT (it_kind it) ∧
                  it_data it ≤ it_end it ≤ b_ptr blk + 8 * b_len blk) its ∧
    ∀ i j x y, its !! i = Some x → its !! j = Some y → (i < j)%nat → it_end x ≤ it_start y).
Proof.
  intros Hm Hl. pose proof (Block_items_spec m blk Hm Hl) as H.
  destruct (Block_items m blk) as [its| | |]; try done; [right|by left].
  exists its. split; [done|]. split; [|by intros; eapply items_in_ordered].
  pose proof (items_in_bounds _ _ _ H) as Hb.
  assert (Hd : Forall (λ it, it_data it = it_payload it + 8 * USIZE_COUNT (it_kind it)) its).
  { clear Hb. induction H as [|blk blk' it tail its Hs Hc Hi IH]; constructor; [by destruct Hc|].
    apply IH. destruct Hc. done. }
  rewrite Forall_forall in Hb, Hd |- *. intros it Hit.
  specialize (Hb it Hit) as (? & ? & ?). specialize (Hd it Hit). simpl in *. lia.
Qed.

(** The exact condition under which decoding one item panics: the item is
    not a terminator, its size is a multiple of the word size, and it claims
    more words than the block has left. *)
Theorem block_into_panics_iff m blk :
  mem_wf m →
  Block_into m blk = Panicked ↔
  2 ≤ b_len blk ∧ read_usize m (b_ptr blk) mod 8 = 0 ∧
  read_usize m (b_ptr blk + 8) ≠ Kind_as_usize End_ ∧
  b_len blk - 2 < read_usize m (b_ptr blk) / 8.
Proof.
  intros Hm. pose proof (read_usize_range m (b_ptr blk) Hm) as Hr. unfold is_usize in Hr.
  unfold Block_into. set (size := read_usize m (b_ptr blk)) in *.
  set (kind := read_usize m (b_ptr blk + 8)). change (l_align ty_usize) with 8.
  destruct (b_len blk <? 2) eqn:E0; bool_to_prop; [split; [done|lia]|].
  destruct (size mod 8 =? 0) eqn:E1; bool_to_prop; [simpl|split; [done|lia]].
  assert (Hsplit : ∀ k, decode_item k size (mkBlock (b_ptr blk + 16) (b_len blk - 2)) = Panicked
    ↔ b_len blk - 2 < size / 8).
  { intros k. unfold decode_item, split_at_mut, checked_sub, mbind, outcome_bind.
    change (l_size ty_usize) with 8. simpl b_len. simpl b_ptr.
    destruct (size / 8 <=? b_len blk - 2) eqn:E; bool_to_prop; [|split; [lia|done]].
    destruct (8 * USIZE_COUNT k <=? size) eqn:E2; bool_to_prop; [|split; [done|lia]].
    simpl b_len. rewrite (proj2 (Z.leb_le (USIZE_COUNT k) (size / 8))) by dlia.
    case_match; split; (done || lia). }
  destruct (Kind_try_from kind) as [k|e] eqn:Ek.
  - apply Kind_try_from_inv in Ek. rewrite Ek.
    destruct k; [split; [done|by intros (_ & _ & [] & _)]|..];
      rewrite outcome_map_panics, Hsplit; simpl; lia.
  - apply Kind_try_from_unknown in Ek as [_ Hk]. unfold split_at_mut. simpl b_len.
    change (l_size ty_usize) with 8. specialize (Hk End_).
    destruct (size / 8 <=? b_len blk - 2) eqn:E; bool_to_prop; simpl; split; try done; try lia.
Qed.

(** C37: the host reads back exactly the items the wire format describes: a
    block holding the encoding of a list of items followed by the terminator
    is decoded to items with the same kinds, payload words and data bytes. *)
Theorem block_roundtrip m blk rs :
  Forall raw_wf rs →
  holds m (b_ptr blk) (encode_block rs) →
  Z.of_nat (length (encode_block rs)) ≤ 8 * b_len blk →
  ∃ its, Block_items m blk = Return its ∧ item_view m <$> its = rs.
Proof.
  intros Hwf H Hlen. apply collect_encoded; [done..|].
  enough (Z.of_nat (length rs) ≤ b_len blk) by lia.
  enough (8 * Z.of_nat (length rs) ≤ Z.of_nat (length (encode_block rs))) by lia.
  unfold encode_block. rewrite length_app. clear.
  induction rs as [|r rs IH]; [simpl; lia|].
  rewrite bind_cons, length_app. cbn [length] in *.
  pose proof (length_encode_item r). unfold raw_size in *. lia.
Qed.

(** *** The properties at work *)

(** A [write] of three bytes padded to a word, as a guest leaves it at address 64. *)
Definition sample_write : raw_item :=
  mkRaw Syscall [1; 1; 0; 3; NULL; NULL; NULL; usize_MAX - 37; 0] [104; 105; 10; 0; 0; 0; 0; 0].
Definition sample_block : block := mkBlock 64 14.
Definition sample_mem : mem := write_bytes (λ _, 0) 64 (encode_block [sample_write]).

Lemma zero_mem_wf : mem_wf (λ _, 0).
Proof. intros x. lia. Qed.

Lemma sample_write_wf : raw_wf sample_write.
Proof.
  split; [done|done| | |done]; unfold sample_write, bytes_wf; cbn [ri_payload ri_data];
    repeat (apply Forall_cons_2; [unfold is_usize, NULL, usize_MAX; lia|]); done.
Qed.

Lemma sample_mem_wf : mem_wf sample_mem.
Proof.
  apply write_bytes_wf; [exact zero_mem_wf|]. unfold encode_block.
  repeat (apply Forall_cons_2; [vm_compute; split; congruence|]). done.
Qed.

Lemma block_iteration_safe_witness :
  ∃ its, Block_items sample_mem sample_block = Return its ∧ length its = 1%nat ∧
    Forall (λ it, 64 ≤ it_start it ∧ it_end it ≤ 64 + 8 * 14) its.
Proof.
  destruct (block_iteration_safe sample_mem sample_block sample_mem_wf ltac:(done))
    as [H|(its & H & Hb & _)]; [by vm_compute in H|].
  exists its. split; [exact H|]. split; [vm_compute in H; by injection H as <-|].
  eapply Forall_impl; [exact Hb|]. intros it (? & _ & ? & ?). done.
Defined.

(** An item that claims nine words in a block of four. *)
Lemma block_into_panics_iff_witness :
  Block_into (write_bytes (λ _, 0) 64 (words_to_bytes [72; 1])) (mkBlock 64 4) = Panicked.
Proof.
  apply block_into_panics_iff.
  - apply write_bytes_wf; [exact zero_mem_wf|].
    repeat (apply Forall_cons_2; [vm_compute; split; congruence|]). done.
  - split_and!; vm_compute; congruence.
Defined.

Lemma block_roundtrip_witness :
  ∃ its, Block_items sample_mem sample_block = Return its ∧ item_view sample_mem <$> its = [sample_write].
Proof.
  apply (block_roundtrip sample_mem sample_block [sample_write]).
  - apply Forall_singleton, sample_write_wf.
  - vm_compute. reflexivity.
  - vm_compute. congruence.
Defined.
