(* ===== verification/Calls.v ===== *)
(** * Calls

    [crates/sallyport/src/guest/call]: the traits of executable calls and the
    machinery shared by all of them.  A call is staged (space is allocated in
    the block), committed (its item is written there) and collected (the reply
    is read back).  The three families of allocatable calls -- system calls,
    GDB calls and Enarx calls -- differ in their payload and in how a returned
    word is turned into a [Result]. *)

From S2P Require Import Prelude Memory Libc PhaseAlloc StagedValues Items.

(** ** Argument vectors and return values *)

(** [From<Argv<N>> for [usize; 4]] and [[usize; 6]]: missing arguments are
    [NULL]. *)
Definition Argv_into (n : nat) (argv : list Z) : list Z :=
  argv ++ repeat NULL (n - length argv).

Definition MAX_ERRNO : Z := 4096.
Definition ERRNO_START : Z := usize_MAX - MAX_ERRNO.

(** [errno @ ERRNO_START..=usize::MAX => Err(-(errno as c_int))] *)
Definition errno_of (ret : Z) : Z := - as_c_int ret.

(** [From<types::Result<T>> for crate::Result<T>] for each [T]. *)
Definition Result_unit (ret : Z) : result unit :=
  if ERRNO_START <=? ret then Err (errno_of ret) else Ok ().
Definition Result_c_int (ret : Z) : result Z :=
  if ERRNO_START <=? ret then Err (errno_of ret)
  else if ret <=? c_int_MAX then Ok (as_c_int ret)
  else Err EOVERFLOW.
Definition Result_usize (ret : Z) : result Z :=
  if ERRNO_START <=? ret then Err (errno_of ret) else Ok ret.
Definition Result_u8 (ret : Z) : result Z :=
  if ERRNO_START <=? ret then Err (errno_of ret)
  else if ret <=? u8_MAX then Ok (as_u8 ret)
  else Err EOVERFLOW.
Definition Result_option_u8 (ret : Z) : result (option Z) :=
  if ret =? NULL then Ok None
  else if ERRNO_START <=? ret then Err (errno_of ret)
  else if ret <=? u8_MAX then Ok (Some (as_u8 ret))
  else Err EOVERFLOW.

Lemma errno_of_word v : ERRNO_START ≤ v ≤ usize_MAX → errno_of v = 2 ^ 64 - v.
Proof.
  intros Hv. assert (Es : ERRNO_START = 2 ^ 64 - 4097) by done. unfold usize_MAX in Hv.
  unfold errno_of, as_c_int. replace (v mod 2 ^ 32) with (v - (2 ^ 32 - 1) * 2 ^ 32) by dlia.
  rewrite (proj2 (Z.ltb_ge _ _)) by lia. lia.
Qed.

(** An error number the host stores as [-e as usize] is decoded to [e]. *)
Lemma errno_roundtrip e : 0 < e < 4096 →
  is_usize (as_usize (- e)) ∧ ERRNO_START ≤ as_usize (- e) ∧ errno_of (as_usize (- e)) = e ∧
  as_usize (- e) = 2 ^ 64 - e.
Proof.
  intros He. assert (E : as_usize (- e) = 2 ^ 64 - e).
  { unfold as_usize. replace (- e) with (2 ^ 64 - e + (-1) * 2 ^ 64) by lia.
    rewrite Z.mod_add by lia. apply Z.mod_small. lia. }
  assert (Es : ERRNO_START = 2 ^ 64 - 4097) by done.
  rewrite E. split_and!; [unfold is_usize, usize_MAX; lia|lia| |done].
  rewrite errno_of_word by (unfold usize_MAX; lia). lia.
Qed.

(** ** The traits *)

(** [syscall::Alloc]: [sc_Ret] is the type the first return register is
    decoded to by [sc_ret]. *)
Class SyscallAlloc (T : Type) := {
  sc_NUM : Z;
  sc_Ret : Type;
  sc_ret : Z → result sc_Ret;
  sc_Staged : Type;
  sc_Committed : Type;
  sc_Collected : Type;
  sc_stage : T → stageM (list Z * sc_Staged);
  sc_commit : sc_Staged → ioM sc_Committed;
  sc_collect : sc_Committed → result sc_Ret → ioM sc_Collected;
}.

(** [gdbcall::Alloc] and [enarxcall::Alloc], which differ in [nc_ITEM]. *)
Class NumberAlloc (T : Type) := {
  nc_ITEM : Kind;
  nc_NUM : Z;
  nc_Ret : Type;
  nc_ret : Z → result nc_Ret;
  nc_Staged : Type;
  nc_Committed : Type;
  nc_Collected : Type;
  nc_stage : T → stageM (list Z * nc_Staged);
  nc_commit : nc_Staged → ioM nc_Committed;
  nc_collect : nc_Committed → result nc_Ret → ioM nc_Collected;
}.

(** [call::Alloc<K>] *)
Class AllocCall (T : Type) := {
  ac_ITEM : Kind;
  ac_Staged : Type;
  ac_Committed : Type;
  ac_Collected : Type;
  ac_stage : T → stageM ac_Staged;
  ac_commit : ac_Staged → ioM ac_Committed;
  ac_collect : ac_Committed → ioM ac_Collected;
}.

(** [call::Call<K>].  Staging does not write memory, but it may read it: a
    call that stages itself only for some values of a buffer does. *)
Class Call (T : Type) := {
  Staged : Type;
  Committed : Type;
  Collected : Type;
  call_stage : mem → T → stageM Staged;
  call_commit : Staged → ioM Committed;
  call_collect : Committed → ioM Collected;
}.
Arguments Staged T {Call} : rename.
Arguments Committed T {Call} : rename.
Arguments Collected T {Call} : rename.

(** ** System calls: [syscall/alloc.rs], [syscall/types/alloc.rs] *)

Record StagedAlloc (S : Type) : Type := mkStagedAlloc {
  sa_num_ref : InRef;
  sa_argv : Input words;
  sa_ret_ref : InOutRef;
  sa_staged : S;
}.
Arguments mkStagedAlloc {S} _ _ _ _.
Arguments sa_num_ref {S} _.
Arguments sa_argv {S} _.
Arguments sa_ret_ref {S} _.
Arguments sa_staged {S} _.

Record CommittedAlloc (C : Type) : Type := mkCommittedAlloc { ca_ret_ref : OutRef; ca_committed : C }.
Arguments mkCommittedAlloc {C} _ _.
Arguments ca_ret_ref {C} _.
Arguments ca_committed {C} _.

Definition syscall_stage {T : Type} `{SyscallAlloc T} (self : T) : stageM (StagedAlloc sc_Staged) :=
  num_ref ← allocate_input ty_usize;
  argv_ref ← allocate_input (array 6 ty_usize);
  ret_ref ← allocate_inout (array 2 ty_usize);
  '((argv, staged), _) ← section (sc_stage self);
  mret (mkStagedAlloc num_ref (mkInput argv_ref (mkWords (Argv_into 6 argv))) ret_ref staged).

Definition syscall_commit {T : Type} `{SyscallAlloc T} (self : StagedAlloc sc_Staged)
    : ioM (CommittedAlloc sc_Committed) :=
  _ ← InRef_copy_from (sa_num_ref self) (mkWords [as_usize sc_NUM]);
  _ ← Input_commit (sa_argv self);
  _ ← InRef_copy_from (inout_in (sa_ret_ref self)) (mkWords [as_usize (- ENOSYS); 0]);
  ret_ref ← InOutRef_commit (sa_ret_ref self);
  committed ← sc_commit (sa_staged self);
  mret (mkCommittedAlloc ret_ref committed).

(** [let mut ret = [0usize; 2]; ret_ref.copy_to(col, &mut ret)] *)
Definition OutRef_read_words (self : OutRef) (n : Z) : ioM (list Z) := λ m,
  Return (read_words m (out_ptr self) n, m).

Definition syscall_collect {T : Type} `{SyscallAlloc T} (self : CommittedAlloc sc_Committed)
    : ioM sc_Collected :=
  ret ← OutRef_read_words (ca_ret_ref self) 2;
  sc_collect (ca_committed self) (sc_ret (nth 0 ret 0)).

#[global] Instance syscall_alloc_call {T : Type} `{SyscallAlloc T} : AllocCall T := {|
  ac_ITEM := Syscall;
  ac_stage := syscall_stage;
  ac_commit := syscall_commit;
  ac_collect := syscall_collect;
|}.

(** ** GDB and Enarx calls: [gdbcall/alloc.rs], [enarxcall/alloc.rs] *)

Definition number_stage {T : Type} `{NumberAlloc T} (self : T) : stageM (StagedAlloc nc_Staged) :=
  num_ref ← allocate_input ty_usize;
  argv_ref ← allocate_input (array 4 ty_usize);
  ret_ref ← allocate_inout ty_usize;
  '((argv, staged), _) ← section (nc_stage self);
  mret (mkStagedAlloc num_ref (mkInput argv_ref (mkWords (Argv_into 4 argv))) ret_ref staged).

Definition number_commit {T : Type} `{NumberAlloc T} (self : StagedAlloc nc_Staged)
    : ioM (CommittedAlloc nc_Committed) :=
  _ ← InRef_copy_from (sa_num_ref self) (mkWords [as_usize nc_NUM]);
  _ ← Input_commit (sa_argv self);
  _ ← InRef_copy_from (inout_in (sa_ret_ref self)) (mkWords [as_usize (- ENOSYS)]);
  ret_ref ← InOutRef_commit (sa_ret_ref self);
  committed ← nc_commit (sa_staged self);
  mret (mkCommittedAlloc ret_ref committed).

Definition number_collect {T : Type} `{NumberAlloc T} (self : CommittedAlloc nc_Committed)
    : ioM nc_Collected :=
  ret ← OutRef_read_words (ca_ret_ref self) 1;
  nc_collect (ca_committed self) (nc_ret (nth 0 ret 0)).

#[global] Instance number_alloc_call {T : Type} `{NumberAlloc T} : AllocCall T := {|
  ac_ITEM := nc_ITEM;
  ac_stage := number_stage;
  ac_commit := number_commit;
  ac_collect := number_collect;
|}.

(** ** Passthrough calls: [syscall/passthrough.rs] and its siblings *)

Class SyscallPassthrough (T : Type) := {
  spt_NUM : Z;
  spt_Ret : Type;
  spt_ret : Z → result spt_Ret;
  spt_stage : T → list Z;
}.

#[global] Instance syscall_passthrough {T : Type} `{SyscallPassthrough T} : SyscallAlloc T := {|
  sc_NUM := spt_NUM;
  sc_ret := spt_ret;
  sc_Collected := result spt_Ret;
  sc_stage self := mret (spt_stage self, ());
  sc_commit (_ : unit) := mret ();
  sc_collect _ ret := mret ret;
|}.

Class NumberPassthrough (T : Type) := {
  npt_ITEM : Kind;
  npt_NUM : Z;
  npt_Ret : Type;
  npt_ret : Z → result npt_Ret;
  npt_stage : T → list Z;
}.

#[global] Instance number_passthrough {T : Type} `{NumberPassthrough T} : NumberAlloc T := {|
  nc_ITEM := npt_ITEM;
  nc_NUM := npt_NUM;
  nc_ret := npt_ret;
  nc_Collected := result npt_Ret;
  nc_stage self := mret (npt_stage self, ());
  nc_commit (_ : unit) := mret ();
  nc_collect _ ret := mret ret;
|}.

(** ** Allocatable calls: [call/alloc.rs] *)

Record StagedCall (S : Type) : Type := mkStagedCall {
  st_header_ref : InRef;
  st_staged : S;
  st_size : Z;
}.
Arguments mkStagedCall {S} _ _ _.
Arguments st_header_ref {S} _.
Arguments st_staged {S} _.
Arguments st_size {S} _.

Definition alloc_call_stage {T : Type} `{AllocCall T} (self : T) : stageM (StagedCall ac_Staged) :=
  header_ref ← allocate_input Header_layout;
  '(staged, size) ← section (ac_stage self);
  if 0 <? size then
    let reminder := size mod l_align ty_usize in
    if 0 <? reminder then
      let pad_size := l_align ty_usize - reminder in
      size ← must (add_usize size pad_size);
      pad_layout ← try (from_size_align pad_size 1 ENOMEM);
      _ ← allocate_input_layout pad_layout;
      mret (mkStagedCall header_ref staged size)
    else mret (mkStagedCall header_ref staged size)
  else mret (mkStagedCall header_ref staged size).

Definition alloc_call_commit {T : Type} `{AllocCall T} (self : StagedCall ac_Staged) : ioM ac_Committed :=
  _ ← InRef_copy_from (st_header_ref self) (Header_words (mkHeader (st_size self) ac_ITEM));
  ac_commit (st_staged self).

#[global] Instance alloc_call {T : Type} `{AllocCall T} : Call T := {|
  call_stage _ := alloc_call_stage;
  call_commit := alloc_call_commit;
  call_collect := ac_collect;
|}.

(** ** Stubs: [call/stub.rs] *)

Class Stub (T : Type) := {
  stub_Ret : Type;
  stub_collect : T → ioM stub_Ret;
}.

#[global] Instance stub_call {T : Type} `{Stub T} : Call T := {|
  call_stage _ self := mret self;
  call_commit self := mret self;
  call_collect self := stub_collect self;
|}.

(** ** Calls that may allocate: [call/maybe_alloc.rs] *)

Inductive MaybeAllocOf (A S : Type) : Type :=
| UAlloc (a : A)
| UStub (s : S).
Arguments UAlloc {A S} a.
Arguments UStub {A S} s.

Class MaybeAlloc (T : Type) := {
  ma_Alloc : Type;
  ma_call :: AllocCall ma_Alloc;
  ma_stage : mem → T → result (MaybeAllocOf ma_Alloc ac_Collected);
}.

Definition maybe_alloc_stage {T : Type} `{MaybeAlloc T} (m : mem) (self : T)
    : stageM (MaybeAllocOf (StagedCall ac_Staged) ac_Collected) :=
  unstaged ← try (ma_stage m self);
  match unstaged with
  | UAlloc unstaged => staged ← alloc_call_stage unstaged; mret (UAlloc staged)
  | UStub val => mret (UStub val)
  end.

Definition maybe_alloc_commit {T : Type} `{MaybeAlloc T}
    (self : MaybeAllocOf (StagedCall ac_Staged) ac_Collected)
    : ioM (MaybeAllocOf ac_Committed ac_Collected) :=
  match self with
  | UAlloc staged => committed ← alloc_call_commit staged; mret (UAlloc committed)
  | UStub val => mret (UStub val)
  end.

Definition maybe_alloc_collect {T : Type} `{MaybeAlloc T}
    (self : MaybeAllocOf ac_Committed ac_Collected) : ioM ac_Collected :=
  match self with
  | UAlloc committed => ac_collect committed
  | UStub val => mret val
  end.

#[global] Instance maybe_alloc_call {T : Type} `{MaybeAlloc T} : Call T := {|
  call_stage := maybe_alloc_stage;
  call_commit := maybe_alloc_commit;
  call_collect := maybe_alloc_collect;
|}.

(** ** Tuples of calls: [call/mod.rs] *)

#[global] Instance pair_call {A B : Type} `{Call A, Call B} : Call (A * B) := {|
  call_stage m '(x, y) := a ← call_stage m x; b ← call_stage m y; mret (a, b);
  call_commit '(x, y) := a ← call_commit x; b ← call_commit y; mret (a, b);
  call_collect '(x, y) := a ← call_collect x; b ← call_collect y; mret (a, b);
|}.

