(* ===== verification/CallLaws.v ===== *)
(** * CallLaws

    What every executable call guarantees, proved once for the machinery of
    [Calls]: staging advances the allocator without a panic, committing
    writes only the block, and collecting -- whatever the host left in the
    block -- cannot panic and writes only the guest memory the call declares.
    The laws are type classes; each call of the next files is an instance. *)

From S2P Require Import Prelude Memory Libc PhaseAlloc StagedValues Items Calls.

(** ** The shape shared by the three families

    [gen_stage nargs nrets] is [syscall_stage] for six arguments and two
    return words, [number_stage] for four and one. *)

Definition gen_stage {S : Type} (nargs nrets : nat) (f : stageM (list Z * S)) : stageM (StagedAlloc S) :=
  num_ref ← allocate_input ty_usize;
  argv_ref ← allocate_input (array (Z.of_nat nargs) ty_usize);
  ret_ref ← allocate_inout (array (Z.of_nat nrets) ty_usize);
  '((argv, staged), _) ← section f;
  mret (mkStagedAlloc num_ref (mkInput argv_ref (mkWords (Argv_into nargs argv))) ret_ref staged).

Definition gen_commit {S C : Type} (num : Z) (rets : list Z) (g : S → ioM C)
    (self : StagedAlloc S) : ioM (CommittedAlloc C) :=
  _ ← InRef_copy_from (sa_num_ref self) (mkWords [as_usize num]);
  _ ← Input_commit (sa_argv self);
  _ ← InRef_copy_from (inout_in (sa_ret_ref self)) (mkWords rets);
  ret_ref ← InOutRef_commit (sa_ret_ref self);
  committed ← g (sa_staged self);
  mret (mkCommittedAlloc ret_ref committed).

Definition payload_bytes (nargs nrets : nat) : Z := 8 * (1 + Z.of_nat nargs + Z.of_nat nrets).

(** The allocator of the data section of a payload starting in state [a]. *)
Definition data_alloc (nargs nrets : nat) (a : Alloc phase.Stage) : Alloc phase.Stage :=
  mkAlloc (a_ptr a + payload_bytes nargs nrets) (a_len a - payload_bytes nargs nrets) 0.

(** The staged payload of a call whose block part starts at [a_ptr a]. *)
Definition staged_at {S : Type} (nargs nrets : nat) (a : Alloc phase.Stage) (argv : list Z) (s : S)
    : StagedAlloc S :=
  mkStagedAlloc
    (mkInRef ty_usize (a_ptr a) 1 (a_offset a))
    (mkInput (mkInRef (array (Z.of_nat nargs) ty_usize) (a_ptr a + 8) 1 (a_offset a + 8))
             (mkWords (Argv_into nargs argv)))
    (mkInOutRef (mkInRef (array (Z.of_nat nrets) ty_usize) (a_ptr a + 8 + 8 * Z.of_nat nargs) 1
                         (a_offset a + 8 + 8 * Z.of_nat nargs)))
    s.

(** What the caller guarantees about the argument vector. *)
Definition argv_ok (nargs : nat) (argv : list Z) : Prop :=
  (length argv ≤ nargs)%nat ∧ Forall is_usize argv.

(** [good_staged outs lo hi com col s]: committing [s] writes only the block
    region [lo, hi) and cannot fail; whatever the block then contains and
    whatever result is decoded from it, collecting cannot panic and writes
    only the guest regions [outs]. *)
Definition good_staged {S C X R : Type} (outs : list gref) (lo hi : Z)
    (com : S → ioM C) (col : C → R → ioM X) (s : S) : Prop :=
  ∀ m, ∃ c m', com s m = Return (c, m') ∧ same_outside lo hi m m' ∧ (mem_wf m → mem_wf m') ∧
    ∀ r m1, ∃ x m2, col c r m1 = Return (x, m2) ∧ same_except outs m1 m2 ∧
                    (mem_wf m1 → mem_wf m2).

(** The laws every modelled system call satisfies. *)
Class SyscallLaws (T : Type) `{SyscallAlloc T} := {
  sl_ok : T → Prop;
  sl_outs : T → list gref;
  sl_law : ∀ t a, sl_ok t → alloc_wf a →
    wp (sc_stage t) a (λ '(argv, s) a', advances a a' ∧ argv_ok 6 argv ∧
      good_staged (sl_outs t) (a_ptr a) (a_ptr a') sc_commit sc_collect s);
}.

Class NumberLaws (T : Type) `{NumberAlloc T} := {
  nl_kind : nc_ITEM = Gdbcall ∨ nc_ITEM = Enarxcall;
  nl_ok : T → Prop;
  nl_outs : T → list gref;
  nl_law : ∀ t a, nl_ok t → alloc_wf a →
    wp (nc_stage t) a (λ '(argv, s) a', advances a a' ∧ argv_ok 4 argv ∧
      good_staged (nl_outs t) (a_ptr a) (a_ptr a') nc_commit nc_collect s);
}.

(** The laws of an executable call. *)
Class CallLaws (T : Type) `{Call T} := {
  cl_ok : T → Prop;
  cl_outs : T → list gref;
  cl_law : ∀ m t a, cl_ok t → alloc_wf a → a_ptr a mod 8 = 0 →
    wp (call_stage m t) a (λ s a', advances a a' ∧ a_ptr a' mod 8 = 0 ∧
      good_staged (cl_outs t) (a_ptr a) (a_ptr a') call_commit
        (λ c (_ : unit), call_collect c) s);
}.

Lemma syscall_stage_gen {T : Type} `{SyscallAlloc T} (t : T) :
  syscall_stage t = gen_stage 6 2 (sc_stage t).
Proof. reflexivity. Qed.

Lemma number_stage_gen {T : Type} `{NumberAlloc T} (t : T) :
  number_stage t = gen_stage 4 1 (nc_stage t).
Proof. reflexivity. Qed.

Lemma syscall_commit_gen {T : Type} `{SyscallAlloc T} s :
  syscall_commit s = gen_commit sc_NUM [as_usize (- ENOSYS); 0] sc_commit s.
Proof. reflexivity. Qed.

Lemma number_commit_gen {T : Type} `{NumberAlloc T} s :
  number_commit s = gen_commit nc_NUM [as_usize (- ENOSYS)] nc_commit s.
Proof. reflexivity. Qed.

Lemma layout_wf_words n : layout_wf (array (Z.of_nat n) ty_usize).
Proof. unfold layout_wf, array. simpl. lia. Qed.

Lemma aligned_ptr (a a' : Alloc phase.Stage) (size p off : Z) :
  placed a a' 8 size p off → a_ptr a mod 8 = 0 →
  p = a_ptr a ∧ off = a_offset a ∧ a_ptr a' = a_ptr a + size ∧
  a_len a' = a_len a - size ∧ a_offset a' = a_offset a + size ∧ advances a a'.
Proof.
  intros [Hadv Hal Hp Hlo Hn Hoff] H8. rewrite (align_offset_0 _ 8) in Hp by done.
  destruct (Hadv) as [? ? ? ?]. split_and!; (done || lia).
Qed.

Lemma wp_gen_stage {S : Type} nargs nrets (f : stageM (list Z * S)) a
    (Q : StagedAlloc S → Alloc phase.Stage → Prop) :
  alloc_wf a → a_ptr a mod 8 = 0 →
  (alloc_wf (data_alloc nargs nrets a) →
   wp f (data_alloc nargs nrets a) (λ '(argv, s) a0,
     advances (data_alloc nargs nrets a) a0 ∧
     ∀ a', advances a a' → a_ptr a' = a_ptr a0 → a_offset a' = a_offset a + (a_ptr a' - a_ptr a) →
       Q (staged_at nargs nrets a argv s) a')) →
  wp (gen_stage nargs nrets f) a Q.
Proof.
  intros Hwf H8 HQ. apply wp_bind, wp_allocate_input; [done|done|].
  intros r1 a1 [Hp1 [Hty1 Hl1]]. apply aligned_ptr in Hp1 as (E1 & O1 & P1 & L1 & F1 & A1); [|done].
  simpl in P1, L1, F1.
  apply wp_bind, wp_allocate_input; [by apply A1|apply layout_wf_words|].
  intros r2 a2 [Hp2 [Hty2 Hl2]].
  apply aligned_ptr in Hp2 as (E2 & O2 & P2 & L2 & F2 & A2); [|rewrite P1; dlia].
  simpl in P2, L2, F2.
  apply wp_bind, wp_allocate_inout; [by apply A2|apply layout_wf_words|].
  intros r3 a3 [Hp3 [Hty3 Hl3]].
  apply aligned_ptr in Hp3 as (E3 & O3 & P3 & L3 & F3 & A3); [|rewrite P2; dlia].
  simpl in P3, L3, F3.
  assert (Hd : mkAlloc (a_ptr a3) (a_len a3) 0 = data_alloc nargs nrets a).
  { unfold data_alloc, payload_bytes. f_equal; lia. }
  assert (A13 : advances a a3) by (eapply advances_trans, advances_trans; eauto).
  apply wp_bind, wp_section; [by apply A3|]. rewrite Hd.
  assert (Hwd : alloc_wf (data_alloc nargs nrets a)).
  { rewrite <- Hd. destruct A3 as [[] _ _ _]. unfold alloc_wf; simpl; lia. }
  eapply wp_mono; [by apply HQ|]. intros [argv s] a0 [A0 HQ']. split; [done|].
  apply wp_ret. destruct A0 as [W0 Le0 En0 Of0]. simpl in *.
  replace (mkStagedAlloc _ _ _ _) with (staged_at nargs nrets a argv s).
  - apply HQ'; simpl; try lia. destruct A13 as [[] ? ? ?].
    unfold payload_bytes in *. destruct W0 as (? & ? & ?).
    split; simpl; unfold alloc_wf; simpl; lia.
  - unfold staged_at. destruct r1, r2, r3 as [[]]; simpl in *. subst. f_equal.
    + f_equal; f_equal; lia.
    + do 2 f_equal; lia.
Qed.

Lemma words_to_bytes_app ws1 ws2 : words_to_bytes (ws1 ++ ws2) = words_to_bytes ws1 ++ words_to_bytes ws2.
Proof. apply bind_app. Qed.

Lemma words_to_bytes_wf ws : bytes_wf (words_to_bytes ws).
Proof. apply Forall_bind, Forall_true. intros x. apply to_le_bytes_wf. Qed.

Lemma length_Argv_into n argv : (length argv ≤ n)%nat → length (Argv_into n argv) = n.
Proof. intros H. unfold Argv_into. rewrite length_app, repeat_length. lia. Qed.

Lemma is_usize_NULL : is_usize NULL.
Proof. unfold is_usize, NULL, usize_MAX. lia. Qed.

Lemma Argv_into_usize n argv : Forall is_usize argv → Forall is_usize (Argv_into n argv).
Proof.
  intros H. apply Forall_app; split; [done|]. apply Forall_forall. intros x Hx.
  apply list_elem_of_In, repeat_spec in Hx as ->. apply is_usize_NULL.
Qed.

Lemma holds_write_same m p bs : holds (write_bytes m p bs) p bs.
Proof. by apply read_write_same. Qed.

Lemma holds_frame lo hi m m' p bs :
  same_outside lo hi m m' → p + Z.of_nat (length bs) ≤ lo ∨ hi ≤ p → holds m p bs → holds m' p bs.
Proof.
  intros Hs Hd H. unfold holds. rewrite <- H at 2. apply read_bytes_ext.
  intros x Hx. apply Hs. lia.
Qed.

Lemma holds_write_disjoint m p bs q bs' :
  q + Z.of_nat (length bs') ≤ p ∨ p + Z.of_nat (length bs) ≤ q →
  holds m q bs' → holds (write_bytes m p bs) q bs'.
Proof. intros H. by eapply holds_frame, H; apply write_bytes_frame. Qed.

(** The memory written by the payload of a committed call. *)
Lemma gen_commit_at {S C : Type} nargs nrets num rets (g : S → ioM C) a argv s m :
  argv_ok nargs argv → length rets = nrets →
  ∃ m1 r, gen_commit num rets g (staged_at nargs nrets a argv s) m =
      (c ← g s; mret (mkCommittedAlloc r c)) m1 ∧
    out_ptr r = a_ptr a + 8 + 8 * Z.of_nat nargs ∧
    holds m1 (a_ptr a) (words_to_bytes (as_usize num :: Argv_into nargs argv ++ rets)) ∧
    same_outside (a_ptr a) (a_ptr a + payload_bytes nargs nrets) m m1 ∧
    (mem_wf m → mem_wf m1).
Proof.
  intros [Hlen Hu] Hrets. set (p := a_ptr a).
  set (w1 := words_to_bytes [as_usize num]). set (w2 := words_to_bytes (Argv_into nargs argv)).
  set (w3 := words_to_bytes rets).
  exists (write_bytes (write_bytes (write_bytes m p w1) (p + 8) w2) (p + 8 + 8 * Z.of_nat nargs) w3).
  eexists. split; [reflexivity|]. split; [done|].
  assert (L1 : Z.of_nat (length w1) = 8) by done.
  assert (L2 : Z.of_nat (length w2) = 8 * Z.of_nat nargs).
  { unfold w2. rewrite length_words_to_bytes, length_Argv_into by done. lia. }
  assert (L3 : Z.of_nat (length w3) = 8 * Z.of_nat nrets).
  { unfold w3. rewrite length_words_to_bytes. lia. }
  split; [|split].
  - change (as_usize num :: Argv_into nargs argv ++ rets)
      with ([as_usize num] ++ Argv_into nargs argv ++ rets).
    rewrite !words_to_bytes_app, !holds_app. fold w1 w2 w3. rewrite L1, L2. split_and!.
    + do 2 (apply holds_write_disjoint; [lia|]). apply holds_write_same.
    + apply holds_write_disjoint; [lia|]. apply holds_write_same.
    + apply holds_write_same.
  - unfold payload_bytes. intros x Hx. rewrite !write_bytes_outside by lia. done.
  - intros Hm. do 3 (apply write_bytes_wf; [|apply words_to_bytes_wf]). done.
Qed.

(** The laws of [call::Alloc]. *)
Class AllocLaws (T : Type) `{AllocCall T} := {
  al_kind : ac_ITEM ≠ End_;
  al_ok : T → Prop;
  al_outs : T → list gref;
  al_law : ∀ t a, al_ok t → alloc_wf a → a_ptr a mod 8 = 0 →
    wp (ac_stage t) a (λ s a', advances a a' ∧
      good_staged (al_outs t) (a_ptr a) (a_ptr a') ac_commit (λ c (_ : unit), ac_collect c) s);
}.

Lemma io_bind_Return {S A B : Type} (f : io S A) (k : A → io S B) s x s' :
  f s = Return (x, s') → (f ≫= k) s = k x s'.
Proof. intros H. unfold mbind, io_bind. by rewrite H. Qed.

(** Committing and collecting the payload around a lawful body. *)
Lemma gen_good {S C X R : Type} nargs nrets num rets outs (com : S → ioM C)
    (col : C → result R → ioM X) (dec : Z → result R) (a a' : Alloc phase.Stage) argv s hi :
  argv_ok nargs argv → length rets = nrets →
  a_ptr a + payload_bytes nargs nrets ≤ hi → hi ≤ a_ptr a' →
  good_staged outs (a_ptr a + payload_bytes nargs nrets) hi com col s →
  good_staged outs (a_ptr a) (a_ptr a') (gen_commit num rets com)
    (λ c (_ : unit), ret ← OutRef_read_words (ca_ret_ref c) (Z.of_nat nrets);
                     col (ca_committed c) (dec (nth 0 ret 0)))
    (staged_at nargs nrets a argv s).
Proof.
  intros Hargv Hrets Hlo Hhi Hg m.
  destruct (gen_commit_at nargs nrets num rets com a argv s m Hargv Hrets)
    as (m1 & r & E & _ & _ & Hs & Hw).
  destruct (Hg m1) as (c & m2 & Ec & Hs2 & Hw2 & Hcol).
  exists (mkCommittedAlloc r c), m2. rewrite E, (io_bind_Return _ _ _ _ _ Ec).
  split; [done|]. split; [|split].
  - transitivity m1; (eapply same_outside_weaken; [| |eassumption]); unfold payload_bytes in *; lia.
  - auto.
  - intros _ m3. apply Hcol.
Qed.

#[global] Instance syscall_alloc_laws {T : Type} `{SyscallLaws T} : AllocLaws T.
Proof.
  refine {| al_ok := sl_ok; al_outs := sl_outs |}; [done|].
  intros t a Hok Hwf H8. change (ac_stage t) with (syscall_stage t). rewrite syscall_stage_gen.
  apply wp_gen_stage; [done..|]. intros Hd. eapply wp_mono; [by apply sl_law|].
  intros [argv s] a0 (Hadv & Hargv & Hg). split; [done|]. intros a' Hadv' Hp _. split; [done|].
  eapply gen_good; [done|done| | |exact Hg]; [apply Hadv|lia].
Defined.

#[global] Instance number_alloc_laws {T : Type} `{NumberLaws T} : AllocLaws T.
Proof.
  refine {| al_ok := nl_ok; al_outs := nl_outs |}.
  { simpl. destruct nl_kind as [-> | ->]; done. }
  intros t a Hok Hwf H8. change (ac_stage t) with (number_stage t). rewrite number_stage_gen.
  apply wp_gen_stage; [done..|]. intros Hd. eapply wp_mono; [by apply nl_law|].
  intros [argv s] a0 (Hadv & Hargv & Hg). split; [done|]. intros a' Hadv' Hp _. split; [done|].
  eapply gen_good; [done|done| | |exact Hg]; [apply Hadv|lia].
Defined.

(** The allocator of the body of an item whose header is at [a_ptr a]. *)
Definition body_alloc (a : Alloc phase.Stage) : Alloc phase.Stage :=
  mkAlloc (a_ptr a + 16) (a_len a - 16) 0.

Definition staged_call_at {S : Type} (a a' : Alloc phase.Stage) (s : S) : StagedCall S :=
  mkStagedCall (mkInRef Header_layout (a_ptr a) 1 (a_offset a)) s (a_ptr a' - a_ptr a - 16).

Lemma body_alloc_aligned a : a_ptr a mod 8 = 0 → a_ptr (body_alloc a) mod 8 = 0.
Proof. intros H. simpl. dlia. Qed.

(** The padding of a body of [size] bytes to whole words. *)
Lemma wp_pad {S : Type} r (s : S) size a2 (Q : StagedCall S → Alloc phase.Stage → Prop) :
  alloc_wf a2 → 0 ≤ size → size + 8 ≤ usize_MAX →
  (∀ a' pad, 0 ≤ pad < 8 → (size + pad) mod 8 = 0 → advances a2 a' → a_ptr a' = a_ptr a2 + pad →
     Q (mkStagedCall r s (size + pad)) a') →
  wp (if 0 <? size then
        let reminder := size mod l_align ty_usize in
        if 0 <? reminder then
          let pad_size := l_align ty_usize - reminder in
          size ← must (add_usize size pad_size);
          pad_layout ← try (from_size_align pad_size 1 ENOMEM);
          _ ← allocate_input_layout pad_layout;
          mret (mkStagedCall r s size)
        else mret (mkStagedCall r s size)
      else mret (mkStagedCall r s size)) a2 Q.
Proof.
  intros Hwf H0 Hmax HQ.
  assert (Hnone : size mod 8 = 0 → Q (mkStagedCall r s size) a2).
  { intros H8. rewrite <- (Z.add_0_r size). apply HQ; [lia|dlia|by apply advances_refl|lia]. }
  destruct (0 <? size) eqn:Epos; bool_to_prop; [|apply wp_ret, Hnone; dlia].
  cbv zeta. change (l_align ty_usize) with 8.
  assert (0 ≤ size mod 8 < 8) by dlia. destruct (0 <? size mod 8) eqn:Erem; bool_to_prop;
    [|apply wp_ret, Hnone; lia].
  apply wp_bind. unfold wp at 1, must. rewrite add_usize_ok by lia. simpl.
  unfold from_size_align. rewrite (proj2 (Z.leb_le _ _)) by (unfold isize_MAX; lia).
  apply wp_bind, wp_try. intros l [= <-]. do 2 apply wp_bind.
  apply wp_allocate_layout; [done|split; simpl; lia|]. simpl. intros p off a' [A _ Hp _ Hn _].
  do 2 apply wp_ret. rewrite (align_offset_0 _ 1) in Hp by (lia || apply Z.mod_1_r).
  apply HQ; [lia|dlia|done|lia].
Qed.

Lemma wp_alloc_call_stage {T : Type} `{AllocCall T} (t : T) a
    (Q : StagedCall ac_Staged → Alloc phase.Stage → Prop) :
  alloc_wf a → a_ptr a mod 8 = 0 →
  (alloc_wf (body_alloc a) →
   wp (ac_stage t) (body_alloc a) (λ s a0,
     advances (body_alloc a) a0 ∧
     ∀ a', advances a a' → a_ptr a0 ≤ a_ptr a' → a_ptr a' mod 8 = 0 →
       Q (staged_call_at a a' s) a')) →
  wp (alloc_call_stage t) a Q.
Proof.
  intros Hwf H8 HQ. apply wp_bind, wp_allocate_input; [done|done|].
  intros r1 a1 [Hp1 [Hty1 Hl1]]. apply aligned_ptr in Hp1 as (E1 & O1 & P1 & L1 & F1 & A1); [|done].
  change (1 * l_size Header_layout) with 16 in P1, L1, F1.
  assert (Hd : mkAlloc (a_ptr a1) (a_len a1) 0 = body_alloc a) by (unfold body_alloc; f_equal; lia).
  assert (Hr : r1 = mkInRef Header_layout (a_ptr a) 1 (a_offset a)).
  { destruct r1; simpl in *; by subst. }
  apply wp_bind, wp_section; [by apply A1|]. rewrite Hd.
  assert (Hwd : alloc_wf (body_alloc a)).
  { rewrite <- Hd. destruct A1 as [[] _ _ _]. unfold alloc_wf; simpl; lia. }
  eapply wp_mono; [by apply HQ|]. intros s a0 [A0 HQ']. split; [done|].
  destruct A0 as [W0 Le0 En0 Of0]. destruct A1 as [W1 ? ? ?]. unfold alloc_wf in *. simpl in *.
  apply wp_pad; [unfold alloc_wf; simpl; lia|lia..|].
  intros a' pad Hpad Hmod [W' Le' En' Of'] Hp'. simpl in *.
  replace (mkStagedCall _ _ _) with (staged_call_at a a' s).
  - apply HQ'; [split; [done|lia..]|lia|dlia].
  - unfold staged_call_at. rewrite Hr. f_equal. lia.
Qed.

(** ** The laws of executable calls *)

Lemma same_outside_empty lo m m' : same_outside lo lo m m' → m' ≡ m.
Proof. intros H x. apply H. lia. Qed.

(** A header in front of a lawful body. *)
Lemma header_good {T : Type} `{AllocCall T} outs a a' s :
  a_ptr a + 16 ≤ a_ptr a' →
  good_staged outs (a_ptr a + 16) (a_ptr a') ac_commit (λ c (_ : unit), ac_collect c) s →
  good_staged outs (a_ptr a) (a_ptr a') alloc_call_commit (λ c (_ : unit), ac_collect c)
    (staged_call_at a a' s).
Proof.
  intros Hle Hg m. unfold alloc_call_commit.
  set (w := Header_words _). set (m1 := write_bytes m (a_ptr a) (words_to_bytes (words_of w))).
  destruct (Hg m1) as (c & m2 & Ec & Hs & Hw & Hcol). exists c, m2.
  assert (Hs1 : same_outside (a_ptr a) (a_ptr a + 16) m m1).
  { eapply same_outside_weaken; [| |apply write_bytes_frame]; [lia|].
    rewrite length_words_to_bytes. simpl. lia. }
  split; [exact Ec|]. split; [|split].
  - transitivity m1; (eapply same_outside_weaken; [| |eassumption]); lia.
  - intros Hm. apply Hw, write_bytes_wf; [done|]. apply words_to_bytes_wf.
  - intros _ m3. apply (Hcol tt).
Qed.

Lemma good_staged_hi {S C X R : Type} outs lo hi hi' (com : S → ioM C) (col : C → R → ioM X) s :
  hi ≤ hi' → good_staged outs lo hi com col s → good_staged outs lo hi' com col s.
Proof.
  intros Hle Hg m. destruct (Hg m) as (c & m' & E & Hs & Hw & Hc). exists c, m'.
  split_and!; try done. by eapply same_outside_weaken, Hs.
Qed.

Lemma alloc_call_law {T : Type} `{AllocLaws T} t a :
  al_ok t → alloc_wf a → a_ptr a mod 8 = 0 →
  wp (alloc_call_stage t) a (λ s a', advances a a' ∧ a_ptr a' mod 8 = 0 ∧
    good_staged (al_outs t) (a_ptr a) (a_ptr a') alloc_call_commit (λ c (_ : unit), ac_collect c) s).
Proof.
  intros Hok Hwf H8. apply wp_alloc_call_stage; [done..|]. intros Hb.
  eapply wp_mono; [apply al_law; [done|done|by apply body_alloc_aligned]|].
  intros s a0 [Hadv Hg]. split; [done|]. intros a' Hadv' Hle H8'. split; [done|]. split; [done|].
  destruct Hadv as [_ Hle0 _ _]. simpl in Hle0. apply header_good; [lia|].
  by eapply good_staged_hi, Hg.
Qed.

#[global] Instance alloc_call_laws {T : Type} `{AllocLaws T} : CallLaws T := {|
  cl_ok := al_ok;
  cl_outs := al_outs;
  cl_law _ := alloc_call_law;
|}.

(** A stub computes its result from memory and writes only its outputs. *)
Class StubLaws (T : Type) `{Stub T} := {
  st_ok : T → Prop;
  st_outs : T → list gref;
  st_law : ∀ t m, st_ok t → ∃ x m', stub_collect t m = Return (x, m') ∧
    same_except (st_outs t) m m' ∧ (mem_wf m → mem_wf m');
}.

#[global] Instance stub_laws {T : Type} `{StubLaws T} : CallLaws T.
Proof.
  refine {| cl_ok := st_ok; cl_outs := st_outs |}.
  intros m t a Hok Hwf H8. apply wp_ret. split; [by apply advances_refl|]. split; [done|].
  intros m0. exists t, m0. split; [done|]. split; [done|]. split; [done|].
  intros _ m1. by apply st_law.
Defined.

(** A call that may not allocate: the laws hold if its allocating part has them. *)
Class MaybeAllocLaws (T : Type) `{MaybeAlloc T} := {
  ml_alloc :: AllocLaws ma_Alloc;
  ml_ok : T → Prop;
  ml_outs : T → list gref;
  ml_law : ∀ m t u, ml_ok t → ma_stage m t = Ok (UAlloc u) → al_ok u ∧ al_outs u = ml_outs t;
}.

#[global] Instance maybe_alloc_laws {T : Type} `{MaybeAllocLaws T} : CallLaws T.
Proof.
  refine {| cl_ok := ml_ok; cl_outs := ml_outs |}.
  intros m t a Hok Hwf H8. apply wp_bind, wp_try. intros [u|v] Hu.
  - destruct (ml_law m t u Hok Hu) as [Hu1 <-]. apply wp_bind.
    eapply wp_mono; [by apply alloc_call_law|]. intros s a' (Hadv & H8' & Hg). apply wp_ret.
    split_and!; [done..|]. intros m0. destruct (Hg m0) as (c & m1 & E & Hs & Hw & Hc).
    exists (UAlloc c), m1. simpl. by rewrite (io_bind_Return _ _ _ _ _ E).
  - apply wp_ret. split_and!; [by apply advances_refl|done|]. intros m0. exists (UStub v), m0.
    split_and!; [done..|]. intros _ m1. exists v, m1. split_and!; done.
Defined.

(** Calls staged one after the other. *)
Lemma same_except_app_l rs rs' m m' : same_except rs m m' → same_except (rs ++ rs') m m'.
Proof. apply same_except_mono. set_solver. Qed.

Lemma same_except_app_r rs rs' m m' : same_except rs' m m' → same_except (rs ++ rs') m m'.
Proof. apply same_except_mono. set_solver. Qed.

#[global] Instance pair_laws {A B : Type} `{CallLaws A, CallLaws B} : CallLaws (A * B).
Proof.
  refine {| cl_ok '(x, y) := cl_ok x ∧ cl_ok y; cl_outs '(x, y) := cl_outs x ++ cl_outs y |}.
  intros m [x y] a [Hx Hy] Hwf H8. apply wp_bind. eapply wp_mono; [by apply cl_law|].
  intros sx a1 (A1 & H81 & G1). apply wp_bind. eapply wp_mono; [apply cl_law; [done|apply A1|done]|].
  intros sy a2 (A2 & H82 & G2). apply wp_ret.
  split; [by eapply advances_trans|]. split; [done|]. intros m0.
  destruct (G1 m0) as (cx & m1 & E1 & S1 & W1 & C1).
  destruct (G2 m1) as (cy & m2 & E2 & S2 & W2 & C2).
  exists (cx, cy), m2. split_and!.
  - simpl. by rewrite (io_bind_Return _ _ _ _ _ E1), (io_bind_Return _ _ _ _ _ E2).
  - destruct A1 as [_ ? _ _], A2 as [_ ? _ _].
    transitivity m1; (eapply same_outside_weaken; [| |eassumption]); lia.
  - auto.
  - intros _ m3. destruct (C1 tt m3) as (rx & m4 & E3 & S3 & W3).
    destruct (C2 tt m4) as (ry & m5 & E4 & S4 & W4). exists (rx, ry), m5. split_and!.
    + simpl. by rewrite (io_bind_Return _ _ _ _ _ E3), (io_bind_Return _ _ _ _ _ E4).
    + transitivity m4; [by apply same_except_app_l|by apply same_except_app_r].
    + auto.
Defined.

(** ** What a committed call looks like in the block *)

Lemma wp_eqn {A : Type} (f : stageM A) a (Q : A → Alloc phase.Stage → Prop) :
  wp f a Q → wp f a (λ x a', f a = Return (Ok x, a') ∧ Q x a').
Proof. unfold wp. destruct (f a) as [[[x|e] a']| | |]; done. Qed.

(** The item of a call: its payload words and the [data] that follows. *)
Definition call_item (kind : Kind) (nargs : nat) (num : Z) (argv rets data : list Z) : raw_item :=
  mkRaw kind (as_usize num :: Argv_into nargs argv ++ rets) data.

Lemma length_call_payload nargs num argv rets :
  (length argv ≤ nargs)%nat →
  length (as_usize num :: Argv_into nargs argv ++ rets) = (1 + nargs + length rets)%nat.
Proof. intros H. simpl. rewrite length_app, length_Argv_into by done. lia. Qed.

Lemma call_item_wf kind nargs num argv rets data lo hi :
  kind ≠ End_ → USIZE_COUNT kind = 1 + Z.of_nat nargs + Z.of_nat (length rets) →
  argv_ok nargs argv → Forall is_usize rets →
  0 ≤ lo ≤ hi → Z.of_nat (length data) = hi - lo → lo mod 8 = 0 → hi mod 8 = 0 →
  payload_bytes nargs (length rets) ≤ lo → hi ≤ usize_MAX →
  raw_wf (call_item kind nargs num argv rets data).
Proof.
  intros Hk Hc [Hl Hu] Hr Hlo Hd H8 H8' Hp Hmax. unfold payload_bytes in Hp. split; simpl.
  - done.
  - change (Z.of_nat (length (as_usize num :: Argv_into nargs argv ++ rets)) = USIZE_COUNT kind).
    rewrite length_call_payload by done. lia.
  - constructor; [apply as_usize_range|]. apply Forall_app; split; [by apply Argv_into_usize|done].
  - rewrite Hd. dlia.
  - unfold raw_size, call_item. cbn [ri_payload ri_data]. rewrite length_call_payload by done. lia.
Qed.

Section encoding.
Context {S C : Type} (kind : Kind) (nargs nrets : nat) (num : Z) (rets : list Z) (g : S → ioM C).
Context (a a' : Alloc phase.Stage) (argv : list Z) (s : S).
Context (Hkind : kind ≠ End_) (Hcount : USIZE_COUNT kind = 1 + Z.of_nat nargs + Z.of_nat nrets).
Context (Hargv : argv_ok nargs argv) (Hrets : Forall is_usize rets) (Hnrets : length rets = nrets).
Context (Hptr : 0 ≤ a_ptr a) (H8 : a_ptr a mod 8 = 0) (H8' : a_ptr a' mod 8 = 0).
Context (Hmax : a_ptr a' ≤ usize_MAX).
Let lo := a_ptr a + 16 + payload_bytes nargs nrets.
Context (Hlo : lo ≤ a_ptr a').
Context (Hg : ∀ m1, ∃ c m2, g s m1 = Return (c, m2) ∧ same_outside lo (a_ptr a') m1 m2).

Lemma gen_encodes m :
  ∃ c m1 m',
    (_ ← InRef_copy_from (mkInRef Header_layout (a_ptr a) 1 (a_offset a))
           (Header_words (mkHeader (a_ptr a' - a_ptr a - 16) kind));
     gen_commit num rets g (staged_at nargs nrets (body_alloc a) argv s)) m = Return (c, m') ∧
    g s m1 = Return (ca_committed c, m') ∧
    same_outside (a_ptr a) lo m m1 ∧ (mem_wf m → mem_wf m1) ∧ same_outside (a_ptr a) (a_ptr a') m m' ∧
    out_ptr (ca_ret_ref c) = a_ptr a + 24 + 8 * Z.of_nat nargs ∧
    let r := call_item kind nargs num argv rets (read_bytes m' lo (a_ptr a' - lo)) in
    holds m' (a_ptr a) (encode_item r) ∧ raw_wf r ∧ raw_size r = a_ptr a' - a_ptr a - 16.
Proof.
  set (h := words_to_bytes [a_ptr a' - a_ptr a - 16; Kind_as_usize kind]).
  set (m0 := write_bytes m (a_ptr a) h).
  destruct (gen_commit_at nargs nrets num rets g (body_alloc a) argv s m0 Hargv Hnrets)
    as (m1 & r & E & Hr & Hh & Hs & Hwf1).
  destruct (Hg m1) as (c & m2 & Ec & Hs2). simpl in Hr, Hh, Hs.
  assert (Lh : Z.of_nat (length h) = 16) by done. fold lo in Hs.
  assert (Hpb : 0 ≤ payload_bytes nargs nrets) by (unfold payload_bytes; lia).
  assert (Hs1 : same_outside (a_ptr a) lo m m1).
  { transitivity m0; (eapply same_outside_weaken; [| |first [exact Hs|apply write_bytes_frame]]); lia. }
  exists (mkCommittedAlloc r c), m1, m2. split.
  { change (gen_commit num rets g (staged_at nargs nrets (body_alloc a) argv s) m0 =
      Return (mkCommittedAlloc r c, m2)). by rewrite E, (io_bind_Return _ _ _ _ _ Ec). }
  split; [done|]. split; [done|].
  split; [intros Hm; apply Hwf1, write_bytes_wf, words_to_bytes_wf; done|].
  split; [transitivity m1; (eapply same_outside_weaken; [| |eassumption]); lia|].
  split; [simpl; lia|]. cbv zeta.
  assert (Ld : Z.of_nat (length (read_bytes m2 lo (a_ptr a' - lo))) = a_ptr a' - lo).
  { rewrite length_read_bytes. lia. }
  assert (Hsz : raw_size (call_item kind nargs num argv rets (read_bytes m2 lo (a_ptr a' - lo)))
                = a_ptr a' - a_ptr a - 16).
  { unfold raw_size, call_item. cbn [ri_payload ri_data].
    rewrite length_call_payload, Ld by apply Hargv. unfold lo, payload_bytes. lia. }
  split; [|split; [|done]].
  - unfold encode_item. rewrite Hsz. cbn [ri_kind ri_payload ri_data call_item]. fold h.
    rewrite !holds_app, Lh, length_words_to_bytes, length_call_payload by apply Hargv. split_and!.
    + eapply holds_frame; [exact Hs2|lia|]. eapply holds_frame; [exact Hs|lia|]. apply holds_write_same.
    + eapply holds_frame; [exact Hs2| |exact Hh].
      rewrite length_words_to_bytes, length_call_payload by apply Hargv.
      unfold lo, payload_bytes. lia.
    + unfold holds. rewrite Ld. f_equal. unfold lo, payload_bytes. lia.
  - eapply (call_item_wf _ _ _ _ _ _ lo (a_ptr a')); rewrite ?Hnrets; try done;
      unfold lo, payload_bytes in *; dlia.
Qed.

End encoding.

(** ** A kit for the laws of single calls

    [keeps R f Q]: [f] returns, relates the memories by [R], and its result
    satisfies [Q]. *)

Definition keeps {A : Type} (R : mem → mem → Prop) (f : ioM A) (Q : A → Prop) : Prop :=
  ∀ m, ∃ x m', f m = Return (x, m') ∧ R m m' ∧ Q x.

Definition commit_rel (lo hi : Z) (m m' : mem) : Prop :=
  same_outside lo hi m m' ∧ (mem_wf m → mem_wf m').
Definition collect_rel (outs : list gref) (m m' : mem) : Prop :=
  same_except outs m m' ∧ (mem_wf m → mem_wf m').

#[global] Instance commit_rel_preorder lo hi : PreOrder (commit_rel lo hi).
Proof.
  split; [by intros m; split|]. intros m1 m2 m3 [? ?] [? ?].
  split; [by transitivity m2|auto].
Qed.

#[global] Instance collect_rel_preorder outs : PreOrder (collect_rel outs).
Proof.
  split; [by intros m; split|]. intros m1 m2 m3 [? ?] [? ?].
  split; [by transitivity m2|auto].
Qed.

Section keeps.
Context {R : mem → mem → Prop} `{!PreOrder R}.

Lemma keeps_ret {A : Type} (x : A) (Q : A → Prop) : Q x → keeps R (mret x) Q.
Proof. intros H m. by exists x, m. Qed.

Lemma keeps_bind {A B : Type} (f : ioM A) (k : A → ioM B) Q Q' :
  keeps R f Q → (∀ x, Q x → keeps R (k x) Q') → keeps R (f ≫= k) Q'.
Proof.
  intros Hf Hk m. destruct (Hf m) as (x & m1 & E & H1 & HQ).
  destruct (Hk x HQ m1) as (y & m2 & E' & H2 & HQ'). exists y, m2.
  split; [by rewrite (io_bind_Return _ _ _ _ _ E)|]. split; [by transitivity m1|done].
Qed.

Lemma keeps_mono {A : Type} (f : ioM A) (Q Q' : A → Prop) :
  keeps R f Q → (∀ x, Q x → Q' x) → keeps R f Q'.
Proof. intros Hf HQ m. destruct (Hf m) as (x & m1 & E & H1 & H2). exists x, m1. auto. Qed.

End keeps.

Lemma good_staged_keeps {S C X R : Type} outs lo hi (com : S → ioM C) (col : C → R → ioM X) s :
  keeps (commit_rel lo hi) (com s) (λ c, ∀ r, keeps (collect_rel outs) (col c r) (λ _, True)) →
  good_staged outs lo hi com col s.
Proof.
  intros H m. destruct (H m) as (c & m' & E & [Hs Hw] & Hc). exists c, m'. split_and!; [done..|].
  intros r m1. destruct (Hc r m1) as (x & m2 & E' & [Hs' Hw'] & _). by exists x, m2.
Qed.

(** Cells the outputs cover. *)
Definition covers (outs : list gref) (p n : Z) : Prop :=
  ∀ x, p ≤ x < p + n → Exists (λ r, in_gref r x) outs.

Lemma covers_in outs r n : r ∈ outs → n ≤ g_bytes r → covers outs (g_ptr r) n.
Proof.
  intros Hr Hn x Hx. apply Exists_exists. exists r. split; [done|]. unfold in_gref. lia.
Qed.

Lemma collect_rel_write outs m p bs :
  covers outs p (Z.of_nat (length bs)) → (mem_wf m → bytes_wf bs) →
  collect_rel outs m (write_bytes m p bs).
Proof.
  intros Hc Hw. split; [|intros; apply write_bytes_wf; auto].
  intros x Hx. apply write_bytes_outside. intros Hin.
  destruct (proj1 (Exists_exists _ _) (Hc x Hin)) as (r & Hr & Hrx).
  rewrite Forall_forall in Hx. by apply (Hx r).
Qed.

Lemma commit_rel_write lo hi m p bs :
  lo ≤ p → p + Z.of_nat (length bs) ≤ hi → (mem_wf m → bytes_wf bs) →
  commit_rel lo hi m (write_bytes m p bs).
Proof.
  intros Hlo Hhi Hw. split; [|intros; apply write_bytes_wf; auto].
  eapply same_outside_weaken; [| |apply write_bytes_frame]; lia.
Qed.

(** References to one value of type [T], and to a slice of them. *)
Definition ref_ok (T : Layout) (r : gref) : Prop := gref_wf r ∧ g_elem r = l_size T ∧ g_len r = 1.
Definition slice_ok (T : Layout) (r : gref) : Prop := gref_wf r ∧ g_elem r = l_size T.

Lemma keeps_copy_from lo hi r (v : gref) :
  lo ≤ in_ptr r → 0 ≤ g_bytes v → in_ptr r + g_bytes v ≤ hi →
  keeps (commit_rel lo hi) (InRef_copy_from r v) (λ _, True).
Proof.
  intros Hlo Hv Hhi m. eexists _, _. split; [reflexivity|]. split; [|done].
  apply commit_rel_write; [done| |intros; by apply read_bytes_wf].
  rewrite length_borrow_gref. lia.
Qed.

Lemma keeps_Input_commit lo hi r (v : gref) :
  lo ≤ in_ptr r → 0 ≤ g_bytes v → in_ptr r + g_bytes v ≤ hi →
  keeps (commit_rel lo hi) (Input_commit (mkInput r v)) (λ _, True).
Proof. apply keeps_copy_from. Qed.

Lemma keeps_Input_commit_slice lo hi r (v : gref) :
  lo ≤ in_ptr r → 0 ≤ g_bytes v → in_ptr r + g_bytes v ≤ hi →
  keeps (commit_rel lo hi) (Input_commit_slice (mkInput r v)) (λ _, True).
Proof. apply keeps_copy_from. Qed.

Lemma keeps_InOut_commit lo hi (i : InOut) :
  lo ≤ in_ptr (inout_in (io_ref i)) → 0 ≤ g_bytes (io_val i) →
  in_ptr (inout_in (io_ref i)) + g_bytes (io_val i) ≤ hi →
  keeps (commit_rel lo hi) (InOut_commit i) (λ o, o = Output_from_InOut i) ∧
  keeps (commit_rel lo hi) (InOut_commit_slice i) (λ o, o = Output_from_InOut i).
Proof.
  intros H1 H2 H3. pose proof (keeps_copy_from lo hi (inout_in (io_ref i)) (io_val i) H1 H2 H3) as H.
  split; (eapply keeps_bind; [exact H|]; intros; by apply keeps_ret).
Qed.

Lemma keeps_Output_collect outs (o : Output) :
  covers outs (g_ptr (o_val o)) (l_size (out_ty (o_ref o))) → 0 ≤ l_size (out_ty (o_ref o)) →
  keeps (collect_rel outs) (Output_collect o) (λ _, True).
Proof.
  intros Hc H0 m. eexists _, _. split; [reflexivity|]. split; [|done].
  apply collect_rel_write; [|intros; by apply read_bytes_wf].
  by rewrite length_read_bytes, Z2Nat.id.
Qed.

Lemma keeps_Output_collect_slice outs (o : Output) :
  covers outs (g_ptr (o_val o)) (g_bytes (o_val o)) → 0 ≤ g_bytes (o_val o) →
  keeps (collect_rel outs) (Output_collect_slice o) (λ _, True).
Proof.
  intros Hc H0 m. eexists _, _. split; [reflexivity|]. split; [|done].
  apply collect_rel_write; [|intros; by apply read_bytes_wf].
  by rewrite length_read_bytes, Z2Nat.id.
Qed.

Lemma covers_mono outs p n n' : n' ≤ n → covers outs p n → covers outs p n'.
Proof. intros H Hc x Hx. apply Hc. lia. Qed.

Lemma keeps_collect_range outs (o : Output) n :
  covers outs (g_ptr (o_val o)) (g_bytes (o_val o)) → gref_wf (o_val o) → n ≤ g_len (o_val o) →
  keeps (collect_rel outs) (Output_collect_range o n) (λ _, True).
Proof.
  intros Hc (H0 & H1 & H2) Hn m. rewrite Output_collect_range_eq by done.
  eexists _, _. split; [reflexivity|]. split; [|done].
  apply collect_rel_write; [|intros; by apply read_bytes_wf]. rewrite length_read_bytes.
  eapply covers_mono; [|exact Hc]. unfold g_bytes. destruct (Z.le_gt_cases 0 n); nia.
Qed.

Lemma keeps_option {A B : Type} R `{!PreOrder R} (f : A → ioM B) (o : option A)
    (P : A → Prop) (Q : B → Prop) :
  (∀ x, P x → keeps R (f x) Q) → from_option P True o →
  keeps R (@option_commit _ _ f o) (from_option Q True).
Proof.
  intros Hf Ho. destruct o as [x|]; simpl in *; [|by apply keeps_ret].
  eapply keeps_bind; [by apply Hf|]. intros y Hy. by apply keeps_ret.
Qed.
