(* ===== verification/StageKit.v ===== *)
(** * Lemmas on staged arguments

    What staging one argument of a call establishes ([staged_in],
    [staged_out], [staged_io]) and what committing and collecting it then does.
    The laws of the calls are assembled from these. *)

From S2P Require Import Prelude Memory Libc PhaseAlloc StagedValues Items Calls CallLaws.

#[export] Hint Resolve as_usize_range is_usize_NULL : enarx.

(** An input staged in [lo, hi). *)
Record staged_in (lo hi : Z) (i : Input gref) : Prop := {
  sti_lo : lo ≤ in_ptr (i_ref i);
  sti_hi : in_ptr (i_ref i) + g_bytes (i_val i) ≤ hi;
  sti_bytes : 0 ≤ g_bytes (i_val i);
  sti_off : is_usize (Input_offset i);
  sti_len : is_usize (Input_len i);
}.

(** An output bound to (a prefix of) the guest region [v]. *)
Record staged_out (v : gref) (o : Output) : Prop := {
  sto_cover : covers [v] (g_ptr (o_val o)) (g_bytes (o_val o));
  sto_wf : gref_wf (o_val o);
  sto_len_eq : Output_len o = g_len (o_val o);
  sto_bytes : g_bytes (o_val o) = Output_len o * l_size (out_ty (o_ref o));
  sto_size : 0 ≤ l_size (out_ty (o_ref o));
  sto_off : is_usize (Output_offset o);
  sto_len : is_usize (Output_len o);
}.

(** An argument that is both. *)
Record staged_io (v : gref) (lo hi : Z) (i : InOut) : Prop := {
  stio_in : staged_in lo hi (mkInput (inout_in (io_ref i)) (io_val i));
  stio_out : staged_out v (Output_from_InOut i);
}.

Lemma staged_io_off v lo hi i : staged_io v lo hi i → is_usize (InOut_offset i).
Proof. intros [[] _]. done. Qed.
Lemma staged_io_len v lo hi i : staged_io v lo hi i → is_usize (InOut_len i).
Proof. intros [[] _]. done. Qed.

#[export] Hint Resolve sti_off sti_len sto_off sto_len staged_io_off staged_io_len : enarx.

Lemma staged_in_weaken lo hi lo' hi' i :
  lo' ≤ lo → hi ≤ hi' → staged_in lo hi i → staged_in lo' hi' i.
Proof. intros ? ? []. split; (done || lia). Qed.

Lemma staged_io_weaken v lo hi lo' hi' i :
  lo' ≤ lo → hi ≤ hi' → staged_io v lo hi i → staged_io v lo' hi' i.
Proof. intros ? ? []. split; [|done]. by eapply staged_in_weaken. Qed.

Lemma ref_slice_ok T v : ref_ok T v → slice_ok T v ∧ g_len v = 1.
Proof. intros (? & ? & ?). done. Qed.

Lemma slice_ok_bytes T v : slice_ok T v → g_bytes v = g_len v * l_size T ∧ 0 ≤ g_len v ∧ 0 ≤ l_size T.
Proof. intros [(? & ? & ?) He]. unfold g_bytes. rewrite He in *. lia. Qed.

(** ** Placing the two kinds of references *)

Section placing.
Context (a a' : Alloc phase.Stage) (Hwf : alloc_wf a) (T : Layout) (v : gref).
Context (Hv : slice_ok T v) (HT : 0 < l_size T).

Lemma placed_usize align len p off :
  placed a a' align (len * l_size T) p off → 0 ≤ len → is_usize off ∧ is_usize len.
Proof.
  intros [[(Ho' & Hl' & Hm') ? ? ?] _ _ ? ? ?] Hlen. destruct Hwf as (Ho & Hl & Hm).
  unfold is_usize. nia.
Qed.

Lemma staged_in_placed r n :
  in_placed a a' T n r → 0 ≤ n ≤ g_len v → staged_in (a_ptr a) (a_ptr a') (mkInput r (g_take v n)).
Proof.
  intros [Hp [Ht Hl]] Hn. destruct (slice_ok_bytes T v Hv) as (Hb & _ & _).
  assert (g_bytes (g_take v n) = n * l_size T) as Hb' by (unfold g_bytes; simpl; by rewrite (proj2 Hv)).
  destruct (placed_usize _ _ _ _ Hp) as [? ?]; [lia|]. destruct Hp as [_ _ _ ? ? _].
  split; simpl; rewrite ?Hb'; unfold Input_len; simpl; rewrite ?Hl; (done || lia || nia).
Qed.

Lemma staged_out_placed r n :
  out_placed a a' T n r → 0 ≤ n ≤ g_len v → staged_out v (mkOutput r (g_take v n)).
Proof.
  intros [Hp [Ht Hl]] Hn. destruct (slice_ok_bytes T v Hv) as (Hb & _ & _).
  assert (g_bytes (g_take v n) = n * l_size T) as Hb' by (unfold g_bytes; simpl; by rewrite (proj2 Hv)).
  destruct (placed_usize _ _ _ _ Hp) as [? ?]; [lia|].
  destruct Hv as [(? & ? & ?) ?].
  split; unfold Output_len; simpl; rewrite ?Hb', ?Hl, ?Ht; try done; try lia.
  - apply covers_in; [apply list_elem_of_here|]. rewrite Hb. nia.
  - split_and!; simpl; lia.
Qed.

Lemma staged_io_placed r n :
  in_placed a a' T n (inout_in r) → 0 ≤ n ≤ g_len v →
  staged_io v (a_ptr a) (a_ptr a') (mkInOut r (g_take v n)).
Proof.
  intros Hp Hn. split; [by apply staged_in_placed|]. by apply staged_out_placed.
Qed.

End placing.

Lemma g_take_all v : g_take v (g_len v) = v.
Proof. by destruct v. Qed.

(** ** Staging *)

Section staging.
Context (a : Alloc phase.Stage) (Hwf : alloc_wf a) (T : Layout) (HT : layout_wf T) (Hs : 0 < l_size T).
Context (v : gref).

Lemma wp_in (Q : Input gref → Alloc phase.Stage → Prop) :
  ref_ok T v →
  (∀ i a', advances a a' → staged_in (a_ptr a) (a_ptr a') i → i_val i = v → Q i a') →
  wp (Input_stage T v) a Q.
Proof.
  intros [Hv H1]%ref_slice_ok HQ. apply wp_Input_stage; [done..|]. intros r a' Hp.
  apply HQ; [apply Hp| |done]. pose proof (staged_in_placed a a' Hwf T v Hv Hs r (g_len v)) as Hst.
  rewrite g_take_all in Hst. apply Hst; [by rewrite H1|lia].
Qed.

Lemma wp_in_slice (Q : Input gref → Alloc phase.Stage → Prop) :
  slice_ok T v →
  (∀ i a', advances a a' → staged_in (a_ptr a) (a_ptr a') i → i_val i = v → Q i a') →
  wp (Input_stage_slice T v) a Q.
Proof.
  intros Hv HQ. destruct (slice_ok_bytes T v Hv) as (_ & ? & _).
  apply wp_Input_stage_slice; [done..|]. intros r a' Hp.
  apply HQ; [apply Hp| |done]. pose proof (staged_in_placed a a' Hwf T v Hv Hs r (g_len v)) as Hst.
  rewrite g_take_all in Hst. apply Hst; [done|lia].
Qed.

Lemma wp_in_max (Q : Input gref * gref → Alloc phase.Stage → Prop) :
  slice_ok T v →
  (∀ i n a', advances a a' → staged_in (a_ptr a) (a_ptr a') i → takes a T v n →
     i_val i = g_take v n → Input_len i = n → Q (i, g_drop v n) a') →
  wp (Input_stage_slice_max T v) a Q.
Proof.
  intros Hv HQ. destruct (slice_ok_bytes T v Hv) as (_ & ? & _).
  apply wp_Input_stage_slice_max; [done..|]. intros n r a' Ht Hp.
  assert (0 ≤ n ≤ g_len v) by by destruct Ht as (k & _ & _ & ?).
  apply HQ; [apply Hp|by eapply staged_in_placed|done|done|apply Hp].
Qed.

Lemma wp_out (Q : Output → Alloc phase.Stage → Prop) :
  ref_ok T v →
  (∀ o a', advances a a' → staged_out v o → Output_len o = 1 → o_val o = v → Q o a') →
  wp (Output_stage T v) a Q.
Proof.
  intros [Hv H1]%ref_slice_ok HQ. apply wp_Output_stage; [done..|]. intros r a' Hp.
  apply HQ; [apply Hp| |apply Hp|done]. pose proof (staged_out_placed a a' Hwf T v Hv Hs r (g_len v)) as Hst.
  rewrite g_take_all in Hst. apply Hst; [by rewrite H1|lia].
Qed.

Lemma wp_out_slice (Q : Output → Alloc phase.Stage → Prop) :
  slice_ok T v →
  (∀ o a', advances a a' → staged_out v o → o_val o = v → Q o a') →
  wp (Output_stage_slice T v) a Q.
Proof.
  intros Hv HQ. destruct (slice_ok_bytes T v Hv) as (_ & ? & _).
  apply wp_Output_stage_slice; [done..|]. intros r a' Hp.
  apply HQ; [apply Hp| |done]. pose proof (staged_out_placed a a' Hwf T v Hv Hs r (g_len v)) as Hst.
  rewrite g_take_all in Hst. apply Hst; [done|lia].
Qed.

Lemma wp_out_max (Q : Output * gref → Alloc phase.Stage → Prop) :
  slice_ok T v →
  (∀ o n a', advances a a' → staged_out v o → takes a T v n → o_val o = g_take v n →
     Output_len o = n → Q (o, g_drop v n) a') →
  wp (Output_stage_slice_max T v) a Q.
Proof.
  intros Hv HQ. destruct (slice_ok_bytes T v Hv) as (_ & ? & _).
  apply wp_Output_stage_slice_max; [done..|]. intros n r a' Ht Hp.
  assert (0 ≤ n ≤ g_len v) by by destruct Ht as (k & _ & _ & ?).
  apply HQ; [apply Hp|by eapply staged_out_placed|done|done|apply Hp].
Qed.

Lemma wp_io (Q : InOut → Alloc phase.Stage → Prop) :
  ref_ok T v →
  (∀ i a', advances a a' → staged_io v (a_ptr a) (a_ptr a') i → InOut_len i = 1 → io_val i = v → Q i a') →
  wp (InOut_stage T v) a Q.
Proof.
  intros [Hv H1]%ref_slice_ok HQ. apply wp_InOut_stage; [done..|]. intros r a' Hp.
  apply HQ; [apply Hp| |apply Hp|done]. pose proof (staged_io_placed a a' Hwf T v Hv Hs r (g_len v)) as Hst.
  rewrite g_take_all in Hst. apply Hst; [by rewrite H1|lia].
Qed.

Lemma wp_io_slice (Q : InOut → Alloc phase.Stage → Prop) :
  slice_ok T v →
  (∀ i a', advances a a' → staged_io v (a_ptr a) (a_ptr a') i → io_val i = v → Q i a') →
  wp (InOut_stage_slice T v) a Q.
Proof.
  intros Hv HQ. destruct (slice_ok_bytes T v Hv) as (_ & ? & _).
  apply wp_InOut_stage_slice; [done..|]. intros r a' Hp.
  apply HQ; [apply Hp| |done]. pose proof (staged_io_placed a a' Hwf T v Hv Hs r (g_len v)) as Hst.
  rewrite g_take_all in Hst. apply Hst; [done|lia].
Qed.

End staging.

(** Bytes allocated with an alignment of their own. *)
Lemma wp_in_layout align v a (Q : Input gref → Alloc phase.Stage → Prop) :
  0 < align → slice_ok ty_u8 v → alloc_wf a →
  (∀ i a', advances a a' → staged_in (a_ptr a) (a_ptr a') i → i_val i = v →
     Input_len i = g_len v → Q i a') →
  wp (layout ← try (from_size_align (g_len v) align EOVERFLOW);
      r ← allocate_input_layout layout; mret (mkInput r v)) a Q.
Proof.
  intros Hal Hv Hwf HQ. destruct (slice_ok_bytes _ _ Hv) as (Hb & H0 & _).
  change (l_size ty_u8) with 1 in Hb.
  apply wp_bind, wp_try. intros l Hl. do 2 apply wp_bind.
  assert (l = mkLayout (g_len v) align) as ->.
  { unfold from_size_align in Hl. destruct (_ <=? _); by inv Hl. }
  apply wp_allocate_layout; [done|split; simpl; lia|]. intros p off a' Hp. do 2 apply wp_ret.
  apply HQ; [apply Hp| |done|done].
  destruct Hwf as (? & ? & ?), Hp as [[(? & ? & ?) ? ? ?] _ _ ? ? ?]. simpl in *.
  split; unfold Input_len, Input_offset, is_usize; simpl; lia.
Qed.

Lemma wp_out_layout {B : Type} align v a (k : OutRef → stageM B) (Q : B → Alloc phase.Stage → Prop) :
  0 < align → slice_ok ty_u8 v → alloc_wf a →
  (∀ r a', advances a a' → staged_out v (mkOutput r v) → wp (k r) a' Q) →
  wp (layout ← try (from_size_align (g_len v) align EOVERFLOW);
      r ← allocate_output_layout layout; k r) a Q.
Proof.
  intros Hal Hv Hwf HQ. destruct (slice_ok_bytes _ _ Hv) as (Hb & H0 & _).
  change (l_size ty_u8) with 1 in Hb.
  apply wp_bind, wp_try. intros l Hl. do 2 apply wp_bind.
  assert (l = mkLayout (g_len v) align) as ->.
  { unfold from_size_align in Hl. destruct (_ <=? _); by inv Hl. }
  apply wp_allocate_layout; [done|split; simpl; lia|]. intros p off a' Hp. apply wp_ret.
  apply HQ; [apply Hp|].
  destruct Hwf as (? & ? & ?), Hp as [[(? & ? & ?) ? ? ?] _ _ ? ? ?]. simpl in *.
  split; unfold Output_len, Output_offset, is_usize; simpl; try lia; [|apply Hv].
  apply covers_in; [apply list_elem_of_here|done].
Qed.

(** ** Committing and collecting *)

Lemma keeps_in lo hi i :
  staged_in lo hi i →
  keeps (commit_rel lo hi) (Input_commit i) (λ _, True) ∧
  keeps (commit_rel lo hi) (Input_commit_slice i) (λ _, True).
Proof.
  intros []. destruct i. split; [by apply keeps_Input_commit|by apply keeps_Input_commit_slice].
Qed.

Lemma keeps_io v lo hi i :
  staged_io v lo hi i →
  keeps (commit_rel lo hi) (InOut_commit i) (λ o, o = Output_from_InOut i) ∧
  keeps (commit_rel lo hi) (InOut_commit_slice i) (λ o, o = Output_from_InOut i).
Proof. intros [[] _]. by apply keeps_InOut_commit. Qed.

Lemma covers_subset outs v p n : v ∈ outs → covers [v] p n → covers outs p n.
Proof.
  intros Hv Hc x Hx. specialize (Hc x Hx). apply Exists_cons in Hc as [Hc|Hc%Exists_nil]; [|done].
  apply Exists_exists. by exists v.
Qed.

Section collecting.
Context (v : gref) (o : Output) (outs : list gref) (Ho : staged_out v o) (Hv : v ∈ outs).

Lemma keeps_out : Output_len o = 1 → keeps (collect_rel outs) (Output_collect o) (λ _, True).
Proof.
  intros Hl. destruct Ho. apply keeps_Output_collect; [|done].
  rewrite sto_bytes0, Hl, Z.mul_1_l in sto_cover0. by eapply covers_subset.
Qed.

Lemma keeps_out_slice : keeps (collect_rel outs) (Output_collect_slice o) (λ _, True).
Proof.
  destruct Ho as [? [? [? ?]] ? ? ? ? ?]. apply keeps_Output_collect_slice; [by eapply covers_subset|].
  unfold g_bytes. nia.
Qed.

Lemma keeps_out_range n : n ≤ Output_len o → keeps (collect_rel outs) (Output_collect_range o n) (λ _, True).
Proof.
  intros Hn. destruct Ho. apply keeps_collect_range; [by eapply covers_subset|done|lia].
Qed.

End collecting.

(** [keeps] for an optional object. *)
Lemma keeps_collect_option {A B : Type} R `{!PreOrder R} (f : A → ioM B) (o : option A) (P : A → Prop) :
  (∀ x, P x → keeps R (f x) (λ _, True)) → from_option P True o →
  keeps R (@option_collect _ _ f o) (λ _, True).
Proof.
  intros Hf Ho. destruct o as [x|]; simpl in *; [|by apply keeps_ret].
  eapply keeps_bind; [by apply Hf|]. intros y _. by apply keeps_ret.
Qed.
