(* ===== verification/SockTypes.v ===== *)
(** * Syscall argument types

    [crates/sallyport/src/guest/call/syscall/types]: socket addresses and
    options, which are allocated with the alignment of [sockaddr_storage] or
    [usize] rather than byte by byte, [StagedBytesInput], [MremapFlags], and
    [iov_len]. *)

From S2P Require Import Prelude Memory Libc PhaseAlloc StagedValues Items Calls CallLaws StageKit.

(** [SockaddrInput(&[u8])]; its staged form is [Input<[u8], &[u8]>]. *)
Record SockaddrInput : Type := mkSockaddrInput { si_addr : gref }.

(** [From<&sockaddr_un>], [From<&sockaddr_in>], [From<&sockaddr_in6>]: the bytes
    of the structure at [addr]. *)
Definition SockaddrInput_from (T : Layout) (addr : gref) : SockaddrInput :=
  mkSockaddrInput (mkGref (g_ptr addr) (l_size T) 1).

Definition SockaddrInput_stage (self : SockaddrInput) : stageM (Input gref) :=
  layout ← try (from_size_align (g_len (si_addr self)) (l_align sockaddr_storage) EOVERFLOW);
  addr ← allocate_input_layout layout;
  mret (mkInput addr (si_addr self)).

(** [SockaddrOutput] and its staged and committed forms. *)
Record SockaddrOutput : Type := mkSockaddrOutput { so_addr : gref; so_addrlen : gref }.
Record StagedSockaddrOutput : Type := mkStagedSockaddrOutput { sso_addr : Output; sso_addrlen : InOut }.
Record CommittedSockaddrOutput : Type :=
  mkCommittedSockaddrOutput { cso_addr : Output; cso_addrlen : Output }.

Definition SockaddrOutput_stage (self : SockaddrOutput) : stageM StagedSockaddrOutput :=
  layout ← try (from_size_align (g_len (so_addr self)) (l_align sockaddr_storage) EOVERFLOW);
  addr ← allocate_output_layout layout;
  addrlen ← InOut_stage socklen_t (so_addrlen self);
  mret (mkStagedSockaddrOutput (mkOutput addr (so_addr self)) addrlen).

Definition SockaddrOutput_commit (self : StagedSockaddrOutput) : ioM CommittedSockaddrOutput :=
  addrlen ← InOut_commit (sso_addrlen self);
  mret (mkCommittedSockaddrOutput (sso_addr self) addrlen).

(** [*r] for an [&mut socklen_t] *)
Definition load_u32 (r : gref) : ioM Z := λ m, Return (read_u32 m (g_ptr r), m).

Definition SockaddrOutput_collect (self : CommittedSockaddrOutput) : ioM unit :=
  r ← Output_collect (cso_addrlen self);
  addrlen ← load_u32 r;
  let len := Z.min (Output_len (cso_addr self)) addrlen in
  _ ← Output_collect_range (cso_addr self) len;
  mret ().

Record MremapFlags : Type := mkMremapFlags { FIXED : option Z; DONTUNMAP : bool }.
Definition MremapFlags_default : MremapFlags := mkMremapFlags None false.

(** [SockoptInput(&[u8])] *)
Record SockoptInput : Type := mkSockoptInput { sk_opt : gref }.

Definition SockoptInput_stage (self : SockoptInput) : stageM (Input gref) :=
  layout ← try (from_size_align (g_len (sk_opt self)) (l_align ty_usize) EOVERFLOW);
  opt ← allocate_input_layout layout;
  mret (mkInput opt (sk_opt self)).

(** [Commit for StagedBytesInput]: commits the bytes, yields their number. *)
Definition StagedBytesInput_commit (self : Input gref) : ioM Z :=
  let len := Input_len self in
  _ ← Input_commit_slice self;
  mret len.

(** [syscall::iov_len]: the sum is checked. *)
Definition iov_len (iovs : list gref) : outcome Z :=
  foldl (λ acc iov, sum ← acc; add_usize sum (g_len iov)) (Return 0) iovs.

(** ** Staging lemmas *)

Definition sockaddr_input_ok (s : SockaddrInput) : Prop := slice_ok ty_u8 (si_addr s).
Definition sockopt_input_ok (s : SockoptInput) : Prop := slice_ok ty_u8 (sk_opt s).
Definition sockaddr_output_ok (s : SockaddrOutput) : Prop :=
  slice_ok ty_u8 (so_addr s) ∧ ref_ok socklen_t (so_addrlen s).
Definition sockaddr_outs (s : SockaddrOutput) : list gref := [so_addr s; so_addrlen s].

Lemma wp_SockaddrInput_stage s a (Q : Input gref → Alloc phase.Stage → Prop) :
  sockaddr_input_ok s → alloc_wf a →
  (∀ i a', advances a a' → staged_in (a_ptr a) (a_ptr a') i → i_val i = si_addr s →
     Input_len i = g_len (si_addr s) → Q i a') →
  wp (SockaddrInput_stage s) a Q.
Proof. intros. by apply wp_in_layout. Qed.

Lemma wp_SockoptInput_stage s a (Q : Input gref → Alloc phase.Stage → Prop) :
  sockopt_input_ok s → alloc_wf a →
  (∀ i a', advances a a' → staged_in (a_ptr a) (a_ptr a') i → i_val i = sk_opt s →
     Input_len i = g_len (sk_opt s) → Q i a') →
  wp (SockoptInput_stage s) a Q.
Proof. intros. by apply wp_in_layout. Qed.

(** A staged socket address is bound to the caller's buffers. *)
Record staged_sockaddr (s : SockaddrOutput) (lo hi : Z) (st : StagedSockaddrOutput) : Prop := {
  ss_addr : staged_out (so_addr s) (sso_addr st);
  ss_addrlen : staged_io (so_addrlen s) lo hi (sso_addrlen st);
  ss_one : InOut_len (sso_addrlen st) = 1;
}.

Lemma staged_sockaddr_off s lo hi st :
  staged_sockaddr s lo hi st →
  is_usize (Output_offset (sso_addr st)) ∧ is_usize (InOut_offset (sso_addrlen st)).
Proof. intros []. eauto with enarx. Qed.

Lemma staged_sockaddr_weaken s lo hi lo' hi' st :
  lo' ≤ lo → hi ≤ hi' → staged_sockaddr s lo hi st → staged_sockaddr s lo' hi' st.
Proof. intros ? ? []. split; [done| |done]. by eapply staged_io_weaken. Qed.

Lemma wp_SockaddrOutput_stage s a (Q : StagedSockaddrOutput → Alloc phase.Stage → Prop) :
  sockaddr_output_ok s → alloc_wf a →
  (∀ st a', advances a a' → staged_sockaddr s (a_ptr a) (a_ptr a') st → Q st a') →
  wp (SockaddrOutput_stage s) a Q.
Proof.
  intros [Hs Hl] Hwf HQ.
  apply wp_out_layout; [done..|]. intros o a1 A1 Ho.
  apply wp_bind, wp_io; [apply A1|done..|]. intros i a2 A2 Hi Hi1 _. apply wp_ret. apply HQ.
  - by eapply advances_trans.
  - destruct A1 as [_ ? _ _]. split; [done| |done]. by eapply staged_io_weaken.
Qed.

Lemma keeps_SockaddrOutput_commit s lo hi st :
  staged_sockaddr s lo hi st →
  keeps (commit_rel lo hi) (SockaddrOutput_commit st)
    (λ c, c = mkCommittedSockaddrOutput (sso_addr st) (Output_from_InOut (sso_addrlen st))).
Proof.
  intros []. eapply keeps_bind; [by eapply keeps_io|]. intros o ->. by apply keeps_ret.
Qed.

Lemma keeps_load {R : mem → mem → Prop} `{!PreOrder R} r : keeps R (load_u32 r) (λ _, True).
Proof. intros m. by exists (read_u32 m (g_ptr r)), m. Qed.

Lemma keeps_SockaddrOutput_collect s lo hi st outs :
  staged_sockaddr s lo hi st → sockaddr_outs s ⊆ outs →
  keeps (collect_rel outs) (SockaddrOutput_collect
    (mkCommittedSockaddrOutput (sso_addr st) (Output_from_InOut (sso_addrlen st)))) (λ _, True).
Proof.
  intros [Ha [_ Hl] H1] Hin. eapply keeps_bind.
  { eapply keeps_out; [done| |exact H1]. apply Hin. right. left. }
  intros r _. eapply keeps_bind; [apply keeps_load|]. intros n _. eapply keeps_bind.
  { eapply keeps_out_range; [done| |simpl; lia]. apply Hin. left. }
  intros _ _. by apply keeps_ret.
Qed.

Lemma keeps_bytes_in lo hi i :
  staged_in lo hi i → keeps (commit_rel lo hi) (StagedBytesInput_commit i) (λ n, n = Input_len i).
Proof.
  intros Hi. eapply keeps_bind; [by apply keeps_in|]. intros _ _. by apply keeps_ret.
Qed.

(** [iov_len] panics exactly when the sum overflows. *)
Lemma iov_len_spec iovs :
  Forall (λ r, 0 ≤ g_len r) iovs →
  iov_len iovs = if total_len iovs <=? usize_MAX then Return (total_len iovs) else Panicked.
Proof.
  intros H. unfold iov_len.
  assert (Hgen : ∀ acc, 0 ≤ acc → acc ≤ usize_MAX →
    foldl (λ acc iov, sum ← acc; add_usize sum (g_len iov)) (Return acc) iovs =
    if acc + total_len iovs <=? usize_MAX then Return (acc + total_len iovs) else Panicked).
  { induction H as [|r iovs Hr H IH]; intros acc H0 Hacc; simpl.
    - by rewrite Z.add_0_r, (proj2 (Z.leb_le _ _) Hacc).
    - assert (0 ≤ total_len iovs) by (clear -H; induction H; simpl; lia).
      unfold add_usize. destruct (acc + g_len r <=? usize_MAX) eqn:E; bool_to_prop.
      + rewrite IH by lia. by rewrite Z.add_assoc.
      + assert (Hp : ∀ l, foldl (λ acc iov, sum ← acc; add_usize sum (g_len iov)) Panicked l = Panicked)
          by (clear; induction l; done).
        unfold add_usize in Hp. rewrite Hp. rewrite (proj2 (Z.leb_gt _ _)) by lia. done. }
  rewrite Hgen by (unfold usize_MAX; lia). by rewrite Z.add_0_l.
Qed.
