(* ===== verification/Syscalls.v ===== *)
(** * System calls

    [crates/sallyport/src/guest/call/syscall]: every system call the guest can
    put in the block -- its arguments, what it stages, commits and collects.
    A [c_int] argument is a signed [Z]; [as_usize] is the sign-extending
    [as usize] cast into a register. *)

From S2P Require Import Prelude Memory Libc PhaseAlloc StagedValues Items Calls CallLaws SockTypes.

(** ** Passthrough calls: [passthrough.rs] *)

Record Close : Type := mkClose { close_fd : Z }.
#[global] Instance Close_passthrough : SyscallPassthrough Close := {|
  spt_NUM := SYS_close; spt_ret := Result_unit;
  spt_stage self := [as_usize (close_fd self)] |}.

Record Dup : Type := mkDup { dup_oldfd : Z }.
#[global] Instance Dup_passthrough : SyscallPassthrough Dup := {|
  spt_NUM := SYS_dup; spt_ret := Result_unit;
  spt_stage self := [as_usize (dup_oldfd self)] |}.

Record Dup2 : Type := mkDup2 { dup2_oldfd : Z; dup2_newfd : Z }.
#[global] Instance Dup2_passthrough : SyscallPassthrough Dup2 := {|
  spt_NUM := SYS_dup2; spt_ret := Result_unit;
  spt_stage self := [as_usize (dup2_oldfd self); as_usize (dup2_newfd self)] |}.

Record Dup3 : Type := mkDup3 { dup3_oldfd : Z; dup3_newfd : Z; dup3_flags : Z }.
#[global] Instance Dup3_passthrough : SyscallPassthrough Dup3 := {|
  spt_NUM := SYS_dup3; spt_ret := Result_unit;
  spt_stage self := [as_usize (dup3_oldfd self); as_usize (dup3_newfd self); as_usize (dup3_flags self)] |}.

Record EpollCreate1 : Type := mkEpollCreate1 { epoll_create1_flags : Z }.
#[global] Instance EpollCreate1_passthrough : SyscallPassthrough EpollCreate1 := {|
  spt_NUM := SYS_epoll_create1; spt_ret := Result_c_int;
  spt_stage self := [as_usize (epoll_create1_flags self)] |}.

Record Eventfd2 : Type := mkEventfd2 { eventfd2_initval : Z; eventfd2_flags : Z }.
#[global] Instance Eventfd2_passthrough : SyscallPassthrough Eventfd2 := {|
  spt_NUM := SYS_eventfd2; spt_ret := Result_c_int;
  spt_stage self := [as_usize (eventfd2_initval self); as_usize (eventfd2_flags self)] |}.

Record Exit : Type := mkExit { exit_status : Z }.
#[global] Instance Exit_passthrough : SyscallPassthrough Exit := {|
  spt_NUM := SYS_exit; spt_ret := Result_unit;
  spt_stage self := [as_usize (exit_status self)] |}.

Record ExitGroup : Type := mkExitGroup { exit_group_status : Z }.
#[global] Instance ExitGroup_passthrough : SyscallPassthrough ExitGroup := {|
  spt_NUM := SYS_exit_group; spt_ret := Result_unit;
  spt_stage self := [as_usize (exit_group_status self)] |}.

Record Listen : Type := mkListen { listen_sockfd : Z; listen_backlog : Z }.
#[global] Instance Listen_passthrough : SyscallPassthrough Listen := {|
  spt_NUM := SYS_listen; spt_ret := Result_unit;
  spt_stage self := [as_usize (listen_sockfd self); as_usize (listen_backlog self)] |}.

Record Socket : Type := mkSocket { socket_domain : Z; socket_typ : Z; socket_protocol : Z }.
#[global] Instance Socket_passthrough : SyscallPassthrough Socket := {|
  spt_NUM := SYS_socket; spt_ret := Result_c_int;
  spt_stage self := [as_usize (socket_domain self); as_usize (socket_typ self); as_usize (socket_protocol self)] |}.

Record Sync : Type := mkSync { }.
#[global] Instance Sync_passthrough : SyscallPassthrough Sync := {|
  spt_NUM := SYS_sync; spt_ret := Result_unit;
  spt_stage _ := [] |}.

(** ** Collecting results that carry a length

    The arms shared by the [collect] functions: a length larger than what was
    staged is an attack ([None]). *)

(** [Ok(ret) if ret > count => None, res @ Ok(_) => Some(res), err => Some(err)] *)
Definition collect_count (count : Z) (ret : result Z) : ioM (option (result Z)) :=
  match ret with
  | Ok n => if count <? n then mret None else mret (Some (Ok n))
  | Err e => mret (Some (Err e))
  end.

(** ** [accept.rs], [accept4.rs], [getsockname.rs] *)

(** [addr.as_ref().map_or((NULL, NULL), |a| (a.addr.offset(), a.addrlen.offset()))] *)
Definition sockaddr_offsets (addr : option StagedSockaddrOutput) : Z * Z :=
  match addr with
  | Some a => (Output_offset (sso_addr a), InOut_offset (sso_addrlen a))
  | None => (NULL, NULL)
  end.

Record Accept : Type := mkAccept { accept_sockfd : Z; accept_addr : option SockaddrOutput }.

Definition Accept_stage (self : Accept) : stageM (list Z * option StagedSockaddrOutput) :=
  addr ← @option_stage _ _ SockaddrOutput_stage (accept_addr self);
  let '(addr_offset, addrlen_offset) := sockaddr_offsets addr in
  mret ([as_usize (accept_sockfd self); addr_offset; addrlen_offset], addr).

Definition Accept_collect (addr : option CommittedSockaddrOutput) (ret : result Z) : ioM (result Z) :=
  _ ← @option_collect _ _ SockaddrOutput_collect addr;
  mret ret.

#[global] Instance Accept_alloc : SyscallAlloc Accept := {|
  sc_NUM := SYS_accept; sc_ret := Result_c_int;
  sc_stage := Accept_stage;
  sc_commit := @option_commit _ _ SockaddrOutput_commit;
  sc_collect := Accept_collect |}.

Record Accept4 : Type := mkAccept4 {
  accept4_sockfd : Z; accept4_addr : option SockaddrOutput; accept4_flags : Z }.

Definition Accept4_stage (self : Accept4) : stageM (list Z * option StagedSockaddrOutput) :=
  addr ← @option_stage _ _ SockaddrOutput_stage (accept4_addr self);
  let '(addr_offset, addrlen_offset) := sockaddr_offsets addr in
  mret ([as_usize (accept4_sockfd self); addr_offset; addrlen_offset; as_usize (accept4_flags self)], addr).

Definition Accept4_collect (addr : option CommittedSockaddrOutput) (ret : result Z) : ioM (result Z) :=
  _ ← @option_collect _ _ SockaddrOutput_collect addr;
  mret ret.

#[global] Instance Accept4_alloc : SyscallAlloc Accept4 := {|
  sc_NUM := SYS_accept4; sc_ret := Result_c_int;
  sc_stage := Accept4_stage;
  sc_commit := @option_commit _ _ SockaddrOutput_commit;
  sc_collect := Accept4_collect |}.

Record Getsockname : Type := mkGetsockname { getsockname_sockfd : Z; getsockname_addr : SockaddrOutput }.

Definition Getsockname_stage (self : Getsockname) : stageM (list Z * StagedSockaddrOutput) :=
  addr ← SockaddrOutput_stage (getsockname_addr self);
  mret ([as_usize (getsockname_sockfd self); Output_offset (sso_addr addr);
         InOut_offset (sso_addrlen addr)], addr).

Definition Getsockname_collect (addr : CommittedSockaddrOutput) (ret : result unit) : ioM (result unit) :=
  _ ← SockaddrOutput_collect addr;
  mret ret.

#[global] Instance Getsockname_alloc : SyscallAlloc Getsockname := {|
  sc_NUM := SYS_getsockname; sc_ret := Result_unit;
  sc_stage := Getsockname_stage;
  sc_commit := SockaddrOutput_commit;
  sc_collect := Getsockname_collect |}.

(** ** [bind.rs], [connect.rs] *)

Record Bind : Type := mkBind { bind_sockfd : Z; bind_addr : SockaddrInput }.

Definition Bind_stage (self : Bind) : stageM (list Z * Input gref) :=
  addr ← SockaddrInput_stage (bind_addr self);
  mret ([as_usize (bind_sockfd self); Input_offset addr; Input_len addr], addr).

#[global] Instance Bind_alloc : SyscallAlloc Bind := {|
  sc_NUM := SYS_bind; sc_ret := Result_unit;
  sc_stage := Bind_stage;
  sc_commit := Input_commit_slice;
  sc_collect _ ret := mret ret |}.

Record Connect : Type := mkConnect { connect_sockfd : Z; connect_addr : SockaddrInput }.

Definition Connect_stage (self : Connect) : stageM (list Z * Input gref) :=
  addr ← SockaddrInput_stage (connect_addr self);
  mret ([as_usize (connect_sockfd self); Input_offset addr; Input_len addr], addr).

#[global] Instance Connect_alloc : SyscallAlloc Connect := {|
  sc_NUM := SYS_connect; sc_ret := Result_unit;
  sc_stage := Connect_stage;
  sc_commit := Input_commit_slice;
  sc_collect _ ret := mret ret |}.

(** ** [clock_getres.rs], [clock_gettime.rs] *)

Record ClockGetres : Type := mkClockGetres { clock_getres_clockid : Z; clock_getres_res : option gref }.

Definition ClockGetres_stage (self : ClockGetres) : stageM (list Z * option Output) :=
  '(res, res_offset) ←
    match clock_getres_res self with
    | Some res => res ← Output_stage timespec res; mret (Some res, Output_offset res)
    | None => mret (None, NULL)
    end;
  mret ([as_usize (clock_getres_clockid self); res_offset], res).

Definition ClockGetres_collect (res : option Output) (ret : result unit) : ioM (result unit) :=
  if is_ok ret then _ ← @option_collect _ _ Output_collect res; mret ret else mret ret.

#[global] Instance ClockGetres_alloc : SyscallAlloc ClockGetres := {|
  sc_NUM := SYS_clock_getres; sc_ret := Result_unit;
  sc_stage := ClockGetres_stage;
  sc_commit := @option_commit _ _ Output_commit;
  sc_collect := ClockGetres_collect |}.

Record ClockGettime : Type := mkClockGettime { clock_gettime_clockid : Z; clock_gettime_tp : gref }.

Definition ClockGettime_stage (self : ClockGettime) : stageM (list Z * Output) :=
  tp ← Output_stage timespec (clock_gettime_tp self);
  mret ([as_usize (clock_gettime_clockid self); Output_offset tp], tp).

Definition ClockGettime_collect (tp : Output) (ret : result unit) : ioM (result unit) :=
  if is_ok ret then _ ← Output_collect tp; mret ret else mret ret.

#[global] Instance ClockGettime_alloc : SyscallAlloc ClockGettime := {|
  sc_NUM := SYS_clock_gettime; sc_ret := Result_unit;
  sc_stage := ClockGettime_stage;
  sc_commit := Output_commit;
  sc_collect := ClockGettime_collect |}.

(** ** [epoll_ctl.rs], [epoll_wait.rs], [epoll_pwait.rs], [poll.rs] *)

Record EpollCtl : Type := mkEpollCtl {
  epoll_ctl_epfd : Z; epoll_ctl_op : Z; epoll_ctl_fd : Z; epoll_ctl_event : gref }.

Definition EpollCtl_stage (self : EpollCtl) : stageM (list Z * Input gref) :=
  event ← Input_stage epoll_event (epoll_ctl_event self);
  mret ([as_usize (epoll_ctl_epfd self); as_usize (epoll_ctl_op self);
         as_usize (epoll_ctl_fd self); Input_offset event], event).

#[global] Instance EpollCtl_alloc : SyscallAlloc EpollCtl := {|
  sc_NUM := SYS_epoll_ctl; sc_ret := Result_unit;
  sc_stage := EpollCtl_stage;
  sc_commit := Input_commit;
  sc_collect _ ret := mret ret |}.

(** [Ok(ret) if ret as usize > events.len() => None,
     res @ Ok(ret) => { events.collect_range(col, 0..ret as _); Some(res) }, err => Some(err)] *)
Definition collect_events (events : Output) (ret : result Z) : ioM (option (result Z)) :=
  match ret with
  | Ok n =>
      if Output_len events <? as_usize n then mret None
      else _ ← Output_collect_range events (as_usize n); mret (Some (Ok n))
  | Err e => mret (Some (Err e))
  end.

Record EpollWait : Type := mkEpollWait {
  epoll_wait_epfd : Z; epoll_wait_events : gref; epoll_wait_timeout : Z }.

Definition EpollWait_stage (self : EpollWait) : stageM (list Z * Output) :=
  events ← Output_stage_slice epoll_event (epoll_wait_events self);
  mret ([as_usize (epoll_wait_epfd self); Output_offset events; Output_len events;
         as_usize (epoll_wait_timeout self)], events).

#[global] Instance EpollWait_alloc : SyscallAlloc EpollWait := {|
  sc_NUM := SYS_epoll_wait; sc_ret := Result_c_int;
  sc_stage := EpollWait_stage;
  sc_commit := Output_commit;
  sc_collect := collect_events |}.

Record EpollPwait : Type := mkEpollPwait {
  epoll_pwait_epfd : Z; epoll_pwait_events : gref; epoll_pwait_timeout : Z; epoll_pwait_sigmask : gref }.

Definition EpollPwait_stage (self : EpollPwait) : stageM (list Z * (Output * Input gref)) :=
  events ← Output_stage_slice epoll_event (epoll_pwait_events self);
  sigmask ← Input_stage sigset_t (epoll_pwait_sigmask self);
  mret ([as_usize (epoll_pwait_epfd self); Output_offset events; Output_len events;
         as_usize (epoll_pwait_timeout self); Input_offset sigmask], (events, sigmask)).

(** [Commit for StagedEpollPwait] *)
Definition EpollPwait_commit (self : Output * Input gref) : ioM Output :=
  events ← Output_commit (fst self);
  _ ← Input_commit (snd self);
  mret events.

#[global] Instance EpollPwait_alloc : SyscallAlloc EpollPwait := {|
  sc_NUM := SYS_epoll_pwait; sc_ret := Result_c_int;
  sc_stage := EpollPwait_stage;
  sc_commit := EpollPwait_commit;
  sc_collect := collect_events |}.

Record Poll : Type := mkPoll { poll_fds : gref; poll_timeout : Z }.

Definition Poll_stage (self : Poll) : stageM (list Z * InOut) :=
  fds ← InOut_stage_slice pollfd (poll_fds self);
  mret ([InOut_offset fds; InOut_len fds; as_usize (poll_timeout self)], fds).

Definition Poll_collect (fds : Output) (ret : result Z) : ioM (option (result Z)) :=
  match ret with
  | Ok n =>
      if Output_len fds <? as_usize n then mret None
      else _ ← Output_collect_range fds (as_usize n); mret (Some (Ok n))
  | Err e => mret (Some (Err e))
  end.

#[global] Instance Poll_alloc : SyscallAlloc Poll := {|
  sc_NUM := SYS_poll; sc_ret := Result_c_int;
  sc_stage := Poll_stage;
  sc_commit := InOut_commit_slice;
  sc_collect := Poll_collect |}.

(** ** [fcntl.rs] *)

Record Fcntl : Type := mkFcntl { fcntl_fd : Z; fcntl_cmd : Z; fcntl_arg : Z }.
Record AllocFcntl : Type := mkAllocFcntl { alloc_fcntl : Fcntl }.

#[global] Instance AllocFcntl_passthrough : SyscallPassthrough AllocFcntl := {|
  spt_NUM := SYS_fcntl; spt_ret := Result_c_int;
  spt_stage self := let c := alloc_fcntl self in
    [as_usize (fcntl_fd c); as_usize (fcntl_cmd c); as_usize (fcntl_arg c)] |}.

Definition is_stdio (fd : Z) : bool :=
  (fd =? STDIN_FILENO) || (fd =? STDOUT_FILENO) || (fd =? STDERR_FILENO).

Definition Fcntl_stage (self : Fcntl) : result (MaybeAllocOf AllocFcntl (result Z)) :=
  let '(fd, cmd) := (fcntl_fd self, fcntl_cmd self) in
  if (fd =? STDIN_FILENO) && (cmd =? F_GETFL) then Ok (UStub (Ok (Z.lor O_RDWR O_APPEND)))
  else if ((fd =? STDOUT_FILENO) || (fd =? STDERR_FILENO)) && (cmd =? F_GETFL)
  then Ok (UStub (Ok O_WRONLY))
  else if is_stdio fd then Err EINVAL
  else if (cmd =? F_GETFD) || (cmd =? F_SETFD) || (cmd =? F_GETFL) || (cmd =? F_SETFL)
  then Ok (UAlloc (mkAllocFcntl self))
  else Err EBADFD.

#[global] Instance Fcntl_maybe_alloc : MaybeAlloc Fcntl := {|
  ma_Alloc := AllocFcntl;
  ma_stage _ := Fcntl_stage |}.

(** ** [ioctl.rs] *)

Record Ioctl : Type := mkIoctl { ioctl_fd : Z; ioctl_request : Z; ioctl_argp : option gref }.
Record AllocIoctl : Type := mkAllocIoctl { alloc_ioctl : Ioctl }.

Definition AllocIoctl_stage (self : AllocIoctl) : stageM (list Z * option InOut) :=
  let c := alloc_ioctl self in
  argp ← match ioctl_argp c with
         | Some argp => argp ← InOut_stage_slice ty_u8 argp; mret (Some argp)
         | None => mret None
         end;
  let '(argp_offset, argp_len) :=
    match argp with Some argp => (InOut_offset argp, InOut_len argp) | None => (NULL, 0) end in
  mret ([as_usize (ioctl_fd c); as_usize (ioctl_request c); argp_offset; argp_len], argp).

Definition AllocIoctl_collect (argp : option Output) (ret : result Z) : ioM (result Z) :=
  _ ← @option_collect _ _ Output_collect_slice argp;
  mret ret.

#[global] Instance AllocIoctl_alloc : SyscallAlloc AllocIoctl := {|
  sc_NUM := SYS_ioctl; sc_ret := Result_c_int;
  sc_stage := AllocIoctl_stage;
  sc_commit := @option_commit _ _ InOut_commit_slice;
  sc_collect := AllocIoctl_collect |}.

Definition Ioctl_stage (self : Ioctl) : result (MaybeAllocOf AllocIoctl (result Z)) :=
  let '(fd, request) := (ioctl_fd self, ioctl_request self) in
  if is_stdio fd && (request =? TIOCGWINSZ) then Ok (UStub (Err ENOTTY))
  else if is_stdio fd then Ok (UStub (Err EINVAL))
  else if (request =? FIONBIO) || (request =? FIONREAD) then Ok (UAlloc (mkAllocIoctl self))
  else Ok (UStub (Err EBADFD)).

#[global] Instance Ioctl_maybe_alloc : MaybeAlloc Ioctl := {|
  ma_Alloc := AllocIoctl;
  ma_stage _ := Ioctl_stage |}.

(** ** [nanosleep.rs] *)

Record Nanosleep : Type := mkNanosleep { nanosleep_req : gref; nanosleep_rem : option gref }.

Definition Nanosleep_stage (self : Nanosleep) : stageM (list Z * (Input gref * option InOut)) :=
  req ← Input_stage timespec (nanosleep_req self);
  '(rem, rem_offset) ←
    match nanosleep_rem self with
    | Some rem => rem ← InOut_stage timespec rem; mret (Some rem, InOut_offset rem)
    | None => mret (None, NULL)
    end;
  mret ([Input_offset req; rem_offset], (req, rem)).

(** [Commit for StagedNanosleep] *)
Definition Nanosleep_commit (self : Input gref * option InOut) : ioM (option Output) :=
  _ ← Input_commit (fst self);
  @option_commit _ _ InOut_commit (snd self).

Definition Nanosleep_collect (rem : option Output) (ret : result unit) : ioM (result unit) :=
  match ret with
  | Err e => if e =? EINTR then _ ← @option_collect _ _ Output_collect rem; mret ret else mret ret
  | Ok _ => mret ret
  end.

#[global] Instance Nanosleep_alloc : SyscallAlloc Nanosleep := {|
  sc_NUM := SYS_nanosleep; sc_ret := Result_unit;
  sc_stage := Nanosleep_stage;
  sc_commit := Nanosleep_commit;
  sc_collect := Nanosleep_collect |}.

(** ** [open.rs] *)

Record Open : Type := mkOpen { open_pathname : gref; open_flags : Z; open_mode : option Z }.
Record AllocOpen : Type := mkAllocOpen { alloc_open : Open }.

Definition AllocOpen_stage (self : AllocOpen) : stageM (list Z * Input gref) :=
  let c := alloc_open self in
  pathname ← Input_stage_slice ty_u8 (open_pathname c);
  mret ([Input_offset pathname; Input_len pathname; as_usize (open_flags c);
         as_usize (default 0 (open_mode c))], pathname).

#[global] Instance AllocOpen_alloc : SyscallAlloc AllocOpen := {|
  sc_NUM := SYS_open; sc_ret := Result_c_int;
  sc_stage := AllocOpen_stage;
  sc_commit := Input_commit_slice;
  sc_collect _ ret := mret ret |}.

(** [b"/etc/resolv.conf\0"] *)
Definition resolv_conf : list Z := bytes_of_string "/etc/resolv.conf"%string ++ [0].

Definition Open_stage (m : mem) (self : Open) : result (MaybeAllocOf AllocOpen (result Z)) :=
  if bool_decide (borrow (open_pathname self) m = resolv_conf) &&
     (Z.land (open_flags self) (Z.lnot (Z.lor O_RDONLY O_CLOEXEC)) =? 0)
  then Ok (UAlloc (mkAllocOpen self))
  else Ok (UStub (Err EACCES)).

#[global] Instance Open_maybe_alloc : MaybeAlloc Open := {|
  ma_Alloc := AllocOpen;
  ma_stage := Open_stage |}.

(** ** [read.rs], [recv.rs], [recvfrom.rs], [readv.rs] *)

(** [Ok(ret) if ret > buf.len() => None,
     res @ Ok(ret) => { buf.collect_range(col, 0..ret); Some(res) }, err => Some(err)] *)
Definition collect_bytes (buf : Output) (ret : result Z) : ioM (option (result Z)) :=
  match ret with
  | Ok n =>
      if Output_len buf <? n then mret None
      else _ ← Output_collect_range buf n; mret (Some (Ok n))
  | Err e => mret (Some (Err e))
  end.

Record Read : Type := mkRead { read_fd : Z; read_buf : gref }.

Definition Read_stage (self : Read) : stageM (list Z * Output) :=
  '(buf, _) ← Output_stage_slice_max ty_u8 (read_buf self);
  mret ([as_usize (read_fd self); Output_offset buf; Output_len buf], buf).

#[global] Instance Read_alloc : SyscallAlloc Read := {|
  sc_NUM := SYS_read; sc_ret := Result_usize;
  sc_stage := Read_stage;
  sc_commit := Output_commit;
  sc_collect := collect_bytes |}.

Record Recv : Type := mkRecv { recv_sockfd : Z; recv_buf : gref; recv_flags : Z }.

Definition Recv_stage (self : Recv) : stageM (list Z * Output) :=
  '(buf, _) ← Output_stage_slice_max ty_u8 (recv_buf self);
  mret ([as_usize (recv_sockfd self); Output_offset buf; Output_len buf; as_usize (recv_flags self)], buf).

#[global] Instance Recv_alloc : SyscallAlloc Recv := {|
  sc_NUM := SYS_recvfrom; sc_ret := Result_usize;
  sc_stage := Recv_stage;
  sc_commit := Output_commit;
  sc_collect := collect_bytes |}.

Record Recvfrom : Type := mkRecvfrom {
  recvfrom_sockfd : Z; recvfrom_buf : gref; recvfrom_flags : Z; recvfrom_src_addr : SockaddrOutput }.

Definition Recvfrom_stage (self : Recvfrom) : stageM (list Z * (Output * StagedSockaddrOutput)) :=
  src_addr ← SockaddrOutput_stage (recvfrom_src_addr self);
  '(buf, _) ← Output_stage_slice_max ty_u8 (recvfrom_buf self);
  mret ([as_usize (recvfrom_sockfd self); Output_offset buf; Output_len buf;
         as_usize (recvfrom_flags self); Output_offset (sso_addr src_addr);
         InOut_offset (sso_addrlen src_addr)], (buf, src_addr)).

Definition Recvfrom_collect (self : Output * CommittedSockaddrOutput) (ret : result Z)
    : ioM (option (result Z)) :=
  let '(buf, src_addr) := self in
  match ret with
  | Ok n =>
      if Output_len buf <? n then mret None
      else
        _ ← Output_collect_range buf n;
        _ ← SockaddrOutput_collect src_addr;
        mret (Some (Ok n))
  | Err e => mret (Some (Err e))
  end.

#[global] Instance Recvfrom_alloc : SyscallAlloc Recvfrom := {|
  sc_NUM := SYS_recvfrom; sc_ret := Result_usize;
  sc_stage := Recvfrom_stage;
  sc_commit := @pair_commit _ _ _ _ Output_commit SockaddrOutput_commit;
  sc_collect := Recvfrom_collect |}.

Record Readv : Type := mkReadv { readv_fd : Z; readv_iovs : list gref }.

Definition Readv_stage (self : Readv) : stageM (list Z * (OutRef * list gref)) :=
  len ← must (iov_len (readv_iovs self));
  buf ← allocate_output_slice_max ty_u8 len;
  mret ([as_usize (readv_fd self); out_offset buf; out_len buf], (buf, readv_iovs self)).

Definition Readv_collect (self : OutRef * list gref) (ret : result Z) : ioM (option (result Z)) :=
  let '(buf, iovs) := self in
  match ret with
  | Ok n =>
      if out_len buf <? n then mret None
      else _ ← OutRef_copy_to_iter_unchecked buf (take_capacity n iovs); mret (Some (Ok n))
  | Err e => mret (Some (Err e))
  end.

#[global] Instance Readv_alloc : SyscallAlloc Readv := {|
  sc_NUM := SYS_read; sc_ret := Result_usize;
  sc_stage := Readv_stage;
  sc_commit self := mret self;
  sc_collect := Readv_collect |}.

(** ** [send.rs], [sendto.rs], [write.rs], [writev.rs] *)

Record Send : Type := mkSend { send_sockfd : Z; send_buf : gref; send_flags : Z }.

Definition Send_stage (self : Send) : stageM (list Z * Input gref) :=
  '(buf, _) ← Input_stage_slice_max ty_u8 (send_buf self);
  mret ([as_usize (send_sockfd self); Input_offset buf; Input_len buf; as_usize (send_flags self)], buf).

#[global] Instance Send_alloc : SyscallAlloc Send := {|
  sc_NUM := SYS_sendto; sc_ret := Result_usize;
  sc_stage := Send_stage;
  sc_commit := StagedBytesInput_commit;
  sc_collect := collect_count |}.

Record Sendto : Type := mkSendto {
  sendto_sockfd : Z; sendto_buf : gref; sendto_flags : Z; sendto_dest_addr : SockaddrInput }.

(** [StagedSendto { dest_addr, buf }] *)
Definition Sendto_stage (self : Sendto) : stageM (list Z * (Input gref * Input gref)) :=
  dest_addr ← SockaddrInput_stage (sendto_dest_addr self);
  '(buf, _) ← Input_stage_slice_max ty_u8 (sendto_buf self);
  mret ([as_usize (sendto_sockfd self); Input_offset buf; Input_len buf; as_usize (sendto_flags self);
         Input_offset dest_addr; Input_len dest_addr], (dest_addr, buf)).

Definition Sendto_commit (self : Input gref * Input gref) : ioM Z :=
  _ ← Input_commit_slice (fst self);
  StagedBytesInput_commit (snd self).

#[global] Instance Sendto_alloc : SyscallAlloc Sendto := {|
  sc_NUM := SYS_sendto; sc_ret := Result_usize;
  sc_stage := Sendto_stage;
  sc_commit := Sendto_commit;
  sc_collect := collect_count |}.

Record Write : Type := mkWrite { write_fd : Z; write_buf : gref }.

Definition Write_stage (self : Write) : stageM (list Z * Input gref) :=
  '(buf, _) ← Input_stage_slice_max ty_u8 (write_buf self);
  mret ([as_usize (write_fd self); Input_offset buf; Input_len buf], buf).

#[global] Instance Write_alloc : SyscallAlloc Write := {|
  sc_NUM := SYS_write; sc_ret := Result_usize;
  sc_stage := Write_stage;
  sc_commit := StagedBytesInput_commit;
  sc_collect := collect_count |}.

Record Writev : Type := mkWritev { writev_fd : Z; writev_iovs : list gref }.

(** [StagedWritev { buf, iovs }] *)
Definition Writev_stage (self : Writev) : stageM (list Z * (InRef * list gref)) :=
  len ← must (iov_len (writev_iovs self));
  buf ← allocate_input_slice_max ty_u8 len;
  mret ([as_usize (writev_fd self); in_offset buf; in_len buf], (buf, writev_iovs self)).

Definition Writev_commit (self : InRef * list gref) : ioM Z :=
  let '(buf, iovs) := self in
  _ ← InRef_copy_from_iter_unchecked buf (take_capacity (in_len buf) iovs);
  mret (in_len buf).

#[global] Instance Writev_alloc : SyscallAlloc Writev := {|
  sc_NUM := SYS_write; sc_ret := Result_usize;
  sc_stage := Writev_stage;
  sc_commit := Writev_commit;
  sc_collect := collect_count |}.

(** ** [setsockopt.rs] *)

Record Setsockopt : Type := mkSetsockopt {
  setsockopt_sockfd : Z; setsockopt_level : Z; setsockopt_optname : Z;
  setsockopt_optval : option SockoptInput }.

Definition Setsockopt_stage (self : Setsockopt) : stageM (list Z * option (Input gref)) :=
  optval ← @option_stage _ _ SockoptInput_stage (setsockopt_optval self);
  let '(optval_offset, optlen) :=
    match optval with Some o => (Input_offset o, Input_len o) | None => (NULL, 0) end in
  mret ([as_usize (setsockopt_sockfd self); as_usize (setsockopt_level self);
         as_usize (setsockopt_optname self); optval_offset; optlen], optval).

(** [Commit for StagedSetsockopt] *)
Definition Setsockopt_commit (self : option (Input gref)) : ioM unit :=
  _ ← @option_commit _ _ Input_commit_slice self;
  mret ().

#[global] Instance Setsockopt_alloc : SyscallAlloc Setsockopt := {|
  sc_NUM := SYS_setsockopt; sc_ret := Result_c_int;
  sc_stage := Setsockopt_stage;
  sc_commit := Setsockopt_commit;
  sc_collect _ ret := mret ret |}.
