(* ===== verification/Stubs.v ===== *)
(** * Stubbed system calls

    [crates/sallyport/src/guest/call/syscall/stub.rs]: calls answered inside
    the keep, without the host.  [Getrandom] draws from the [RDRAND]
    instruction, whose outcomes are an argument. *)

From S2P Require Import Prelude Memory Libc PhaseAlloc StagedValues Items Calls CallLaws.

Definition FAKE_GID : Z := 1000.
Definition FAKE_PID : Z := 1000.
Definition FAKE_TID : Z := 1.
Definition FAKE_UID : Z := 1000.

(** ** [Fstat] *)

Record Fstat : Type := mkFstat { fstat_fd : Z; fstat_statbuf : gref }.

Definition makedev (x y : Z) : Z :=
  Z.lor (Z.lor (Z.lor (Z.shiftl (Z.land x 0xfffff000) 32) (Z.shiftl (Z.land x 0x00000fff) 8))
               (Z.shiftl (Z.land y 0xffffff00) 12))
        (Z.land y 0x000000ff).

(** The fields of [struct stat] in memory order, with their widths. *)
Definition stat_bytes (fd : Z) : list Z :=
  to_le_bytes 8 (makedev 0 (if fd =? 0 then 0x19 else 0xc)) ++ (* st_dev *)
  to_le_bytes 8 3 ++                                            (* st_ino *)
  to_le_bytes 8 1 ++                                            (* st_nlink *)
  to_le_bytes 4 (Z.lor S_IFIFO 0x180) ++                        (* st_mode: S_IFIFO | 0o600 *)
  to_le_bytes 4 1000 ++                                         (* st_uid *)
  to_le_bytes 4 5 ++                                            (* st_gid *)
  to_le_bytes 4 0 ++                                            (* __pad0 *)
  to_le_bytes 8 (makedev 0x88 0) ++                             (* st_rdev *)
  to_le_bytes 8 0 ++                                            (* st_size *)
  to_le_bytes 8 4096 ++                                         (* st_blksize *)
  to_le_bytes 8 0 ++                                            (* st_blocks *)
  to_le_bytes 8 1579507218 ++ to_le_bytes 8 0 ++                (* st_atime *)
  to_le_bytes 8 1579507218 ++ to_le_bytes 8 0 ++                (* st_mtime *)
  to_le_bytes 8 1579507218 ++ to_le_bytes 8 0 ++                (* st_ctime *)
  to_le_bytes 24 0.                                             (* __unused *)

(** [*r = v] *)
Definition store (r : gref) (bs : list Z) : ioM unit := λ m, Return (tt, write_bytes m (g_ptr r) bs).

Definition Fstat_collect (self : Fstat) : ioM (result unit) :=
  if (fstat_fd self =? STDIN_FILENO) || (fstat_fd self =? STDOUT_FILENO) || (fstat_fd self =? STDERR_FILENO)
  then _ ← store (fstat_statbuf self) (stat_bytes (fstat_fd self)); mret (Ok ())
  else mret (Err EBADFD).

#[global] Instance Fstat_stub : Stub Fstat := {| stub_collect := Fstat_collect |}.

(** ** Identities *)

Record Getegid : Type := mkGetegid { }.
#[global] Instance Getegid_stub : Stub Getegid := {| stub_collect _ := mret FAKE_GID |}.
Record Geteuid : Type := mkGeteuid { }.
#[global] Instance Geteuid_stub : Stub Geteuid := {| stub_collect _ := mret FAKE_UID |}.
Record Getgid : Type := mkGetgid { }.
#[global] Instance Getgid_stub : Stub Getgid := {| stub_collect _ := mret FAKE_GID |}.
Record Getpid : Type := mkGetpid { }.
#[global] Instance Getpid_stub : Stub Getpid := {| stub_collect _ := mret FAKE_PID |}.
Record Getuid : Type := mkGetuid { }.
#[global] Instance Getuid_stub : Stub Getuid := {| stub_collect _ := mret FAKE_UID |}.
Record SetTidAddress : Type := mkSetTidAddress { set_tid_address_tidptr : gref }.
#[global] Instance SetTidAddress_stub : Stub SetTidAddress := {| stub_collect _ := mret FAKE_TID |}.

(** ** [Getrandom] *)

(** [getrandom_rdrand i] describes the executions of [_rdrand64_step] for the
    [i]-th chunk: how many fail before the first one that succeeds, and the
    word that one returns. *)
Record Getrandom : Type := mkGetrandom {
  getrandom_buf : gref; getrandom_flags : Z; getrandom_rdrand : Z → nat * Z }.

(** The [loop] for chunk [i]: [Some r] leaves the function with [r], [None]
    after the chunk is written goes on with the next one. *)
Fixpoint getrandom_chunk (flags i : Z) (chunk : gref) (el : Z) (failures : nat)
    : ioM (option (result Z)) :=
  match failures with
  | O =>
      _ ← store chunk (take (Z.to_nat (g_len chunk)) (to_le_bytes 8 el));
      mret None
  | S failures =>
      if negb (Z.land flags GRND_NONBLOCK =? 0) then mret (Some (Err EAGAIN))
      else if negb (Z.land flags GRND_RANDOM =? 0) then λ m,
        match checked_mul i 8 with
        | Some n => Return (Some (Ok n), m)
        | None => Panicked
        end
      else getrandom_chunk flags i chunk el failures
  end.

(** [for (i, chunk) in self.buf.chunks_mut(8).enumerate()], from chunk [i] on. *)
Fixpoint getrandom_chunks (self : Getrandom) (i : Z) (chunks : nat) : ioM (result Z) :=
  match chunks with
  | O => mret (Ok (g_len (getrandom_buf self)))
  | S chunks =>
      let chunk := mkGref (g_ptr (getrandom_buf self) + 8 * i)
                          (Z.min 8 (g_len (getrandom_buf self) - 8 * i)) 1 in
      let '(failures, el) := getrandom_rdrand self i in
      r ← getrandom_chunk (getrandom_flags self) i chunk el failures;
      match r with
      | Some r => mret r
      | None => getrandom_chunks self (i + 1) chunks
      end
  end.

Definition Getrandom_collect (self : Getrandom) : ioM (result Z) :=
  if negb (Z.land (getrandom_flags self) (Z.lnot (Z.lor GRND_NONBLOCK GRND_RANDOM)) =? 0)
  then mret (Err EINVAL)
  else getrandom_chunks self 0 (Z.to_nat ((g_len (getrandom_buf self) + 7) / 8)).

#[global] Instance Getrandom_stub : Stub Getrandom := {| stub_collect := Getrandom_collect |}.

(** ** [Readlink], [RtSigprocmask], [Sigaltstack], [Uname] *)

Record Readlink : Type := mkReadlink { readlink_pathname : gref; readlink_buf : gref }.

(** [b"/proc/self/exe\0"] and [b"/init\0"] *)
Definition proc_self_exe : list Z := bytes_of_string "/proc/self/exe" ++ [0].
Definition readlink_DEST : list Z := bytes_of_string "/init" ++ [0].

Definition Readlink_collect (self : Readlink) : ioM (option (result Z)) := λ m,
  if bool_decide (borrow (readlink_pathname self) m = proc_self_exe) then
    if g_len (readlink_buf self) <? Z.of_nat (length readlink_DEST)
    then Return (Some (Err EINVAL), m)
    else (_ ← store (readlink_buf self) readlink_DEST;
          mret (Some (Ok (Z.of_nat (length readlink_DEST))))) m
  else Return (Some (Err ENOENT), m).

#[global] Instance Readlink_stub : Stub Readlink := {| stub_collect := Readlink_collect |}.

Record RtSigprocmask : Type := mkRtSigprocmask {
  rt_sigprocmask_how : Z; rt_sigprocmask_set : option gref; rt_sigprocmask_oldset : option gref;
  rt_sigprocmask_sigsetsize : Z }.
#[global] Instance RtSigprocmask_stub : Stub RtSigprocmask :=
  {| stub_Ret := result unit; stub_collect _ := mret (Ok ()) |}.

Record Sigaltstack : Type := mkSigaltstack { sigaltstack_ss : option gref; sigaltstack_old_ss : option gref }.
#[global] Instance Sigaltstack_stub : Stub Sigaltstack :=
  {| stub_Ret := result unit; stub_collect _ := mret (Ok ()) |}.

Record Uname : Type := mkUname { uname_buf : gref }.

(** [fill(buf, with)]: the string, then zeros, over the 65 bytes at [p]. *)
Definition uname_fill (p : Z) (with_ : list Z) : ioM unit := λ m,
  Return (tt, write_bytes m p (take 65 (with_ ++ repeat 0 65))).

Definition Uname_collect (self : Uname) : ioM (result unit) :=
  let p := g_ptr (uname_buf self) in
  _ ← uname_fill p (bytes_of_string "Linux");
  _ ← uname_fill (p + 65) (bytes_of_string "localhost.localdomain");
  _ ← uname_fill (p + 130) (bytes_of_string "5.6.0");
  _ ← uname_fill (p + 195) (bytes_of_string "#1");
  _ ← uname_fill (p + 260) (bytes_of_string "x86_64");
  mret (Ok ()).

#[global] Instance Uname_stub : Stub Uname := {| stub_collect := Uname_collect |}.

(** ** Laws *)

Lemma keeps_store outs r bs :
  covers outs (g_ptr r) (Z.of_nat (length bs)) → bytes_wf bs →
  keeps (collect_rel outs) (store r bs) (λ _, True).
Proof.
  intros Hc Hw m. eexists _, _. split; [reflexivity|]. split; [|done]. by apply collect_rel_write.
Qed.

Lemma stub_keeps {T : Type} `{Stub T} (t : T) outs :
  keeps (collect_rel outs) (stub_collect t) (λ _, True) →
  ∀ m, ∃ x m', stub_collect t m = Return (x, m') ∧ same_except outs m m' ∧ (mem_wf m → mem_wf m').
Proof. intros Hk m. destruct (Hk m) as (x & m' & E & [Hs Hw] & _). by exists x, m'. Qed.

Lemma stat_bytes_wf fd : bytes_wf (stat_bytes fd).
Proof. unfold stat_bytes, bytes_wf. rewrite !Forall_app. split_and!; apply to_le_bytes_wf. Qed.

Lemma length_stat_bytes fd : Z.of_nat (length (stat_bytes fd)) = l_size stat.
Proof. unfold stat_bytes. rewrite !length_app, !length_to_le_bytes. reflexivity. Qed.

#[global] Instance Fstat_laws : StubLaws Fstat.
Proof.
  refine {| st_ok t := ref_ok stat (fstat_statbuf t); st_outs t := [fstat_statbuf t] |}.
  intros t m Hok. revert m. apply stub_keeps. simpl. unfold Fstat_collect.
  destruct (_ || _); [|by apply keeps_ret].
  eapply keeps_bind; [|intros _ _; by apply keeps_ret].
  apply keeps_store; [|apply stat_bytes_wf]. rewrite length_stat_bytes.
  apply covers_in; [left|]. destruct Hok as (_ & He & Hl). unfold g_bytes. rewrite He, Hl. lia.
Defined.

(** The stubs that only return a value. *)
Ltac const_stub := refine {| st_ok _ := True; st_outs _ := [] |};
  intros t m _; revert m; apply stub_keeps; by apply keeps_ret.

#[global] Instance Getegid_laws : StubLaws Getegid.
Proof. const_stub. Defined.
#[global] Instance Geteuid_laws : StubLaws Geteuid.
Proof. const_stub. Defined.
#[global] Instance Getgid_laws : StubLaws Getgid.
Proof. const_stub. Defined.
#[global] Instance Getpid_laws : StubLaws Getpid.
Proof. const_stub. Defined.
#[global] Instance Getuid_laws : StubLaws Getuid.
Proof. const_stub. Defined.
#[global] Instance SetTidAddress_laws : StubLaws SetTidAddress.
Proof. const_stub. Defined.
#[global] Instance RtSigprocmask_laws : StubLaws RtSigprocmask.
Proof. const_stub. Defined.
#[global] Instance Sigaltstack_laws : StubLaws Sigaltstack.
Proof. const_stub. Defined.

Lemma keeps_getrandom_chunk outs flags i chunk el failures :
  covers outs (g_ptr chunk) (g_len chunk) → 0 ≤ i → i * 8 ≤ usize_MAX →
  keeps (collect_rel outs) (getrandom_chunk flags i chunk el failures)
    (λ r, ∀ n, r = Some (Ok n) → n = i * 8).
Proof.
  intros Hc Hi Hmax. induction failures as [|failures IH]; cbn [getrandom_chunk].
  - eapply keeps_bind; [|intros _ _; by apply keeps_ret].
    apply keeps_store; [|apply Forall_take, to_le_bytes_wf].
    intros x Hx. apply Hc. rewrite length_take in Hx. lia.
  - destruct (negb _); [by apply keeps_ret|]. destruct (negb _); [|done].
    unfold checked_mul. rewrite (proj2 (Z.leb_le _ _) Hmax).
    intros m. exists (Some (Ok (i * 8))), m. split_and!; [done..|]. by intros n [= <-].
Qed.

Lemma keeps_getrandom_chunks t outs chunks i :
  slice_ok ty_u8 (getrandom_buf t) → g_len (getrandom_buf t) ≤ usize_MAX →
  getrandom_buf t ∈ outs → 0 ≤ i → 8 * (i + Z.of_nat chunks) < g_len (getrandom_buf t) + 8 →
  keeps (collect_rel outs) (getrandom_chunks t i chunks)
    (λ r, ∀ n, r = Ok n → 0 ≤ n ≤ g_len (getrandom_buf t)).
Proof.
  intros [(Hw1 & Hw2 & Hw3) He] Hmax Hin. revert i; induction chunks as [|chunks IH]; intros i Hi Hc; simpl.
  { apply keeps_ret. intros n [= <-]. lia. }
  destruct (getrandom_rdrand t i) as [failures el]. eapply keeps_bind.
  - apply keeps_getrandom_chunk; [|done|lia]. intros x Hx. simpl in Hx.
    apply Exists_exists. exists (getrandom_buf t). split; [done|].
    unfold in_gref, g_bytes. rewrite He. simpl. lia.
  - intros [r|] Hr; [|apply IH; lia]. apply keeps_ret. intros n ->. rewrite (Hr n eq_refl). lia.
Qed.

#[global] Instance Getrandom_laws : StubLaws Getrandom.
Proof.
  refine {| st_ok t := slice_ok ty_u8 (getrandom_buf t) ∧ g_len (getrandom_buf t) ≤ usize_MAX;
            st_outs t := [getrandom_buf t] |}.
  intros t m [Hs Hm]. revert m. apply stub_keeps. simpl. unfold Getrandom_collect.
  destruct (negb _); [by apply keeps_ret|].
  assert (0 ≤ g_len (getrandom_buf t)) by apply Hs.
  eapply keeps_mono; [|done]. apply keeps_getrandom_chunks; [done|done|left|done|].
  rewrite Z2Nat.id by dlia. dlia.
Defined.

#[global] Instance Readlink_laws : StubLaws Readlink.
Proof.
  refine {| st_ok t := slice_ok ty_u8 (readlink_buf t); st_outs t := [readlink_buf t] |}.
  intros t m Hok. revert m. apply stub_keeps. intros m. simpl. unfold Readlink_collect.
  case_bool_decide; [|by eexists _, _]. destruct (_ <? _) eqn:E; [by eexists _, _|]. bool_to_prop.
  revert m H. intros m _. revert m.
  change (keeps (collect_rel [readlink_buf t]) (_ ← store (readlink_buf t) readlink_DEST;
    mret (Some (Ok (Z.of_nat (length readlink_DEST))))) (λ _, True)).
  eapply keeps_bind; [|intros _ _; by apply keeps_ret].
  apply keeps_store; [|repeat constructor; lia]. apply covers_in; [left|].
  destruct Hok as [_ He]. unfold g_bytes. rewrite He. change (l_size ty_u8) with 1. lia.
Defined.

Lemma keeps_uname_fill v off s :
  0 ≤ off → off + 65 ≤ g_bytes v → bytes_wf s →
  keeps (collect_rel [v]) (uname_fill (g_ptr v + off) s) (λ _, True).
Proof.
  intros H0 Hb Hs m. eexists _, _. split; [reflexivity|]. split; [|done].
  apply collect_rel_write.
  - intros x Hx. rewrite length_take in Hx. apply Exists_cons. left. unfold in_gref. lia.
  - intros _. apply Forall_take, Forall_app; split; [done|]. apply Forall_forall.
    intros x Hx%list_elem_of_In%repeat_spec. subst. lia.
Qed.

Lemma bytes_of_string_wf s : bytes_wf (bytes_of_string s).
Proof.
  apply Forall_fmap, Forall_true. intros c. simpl. pose proof (Ascii.nat_ascii_bounded c). lia.
Qed.

#[global] Instance Uname_laws : StubLaws Uname.
Proof.
  refine {| st_ok t := ref_ok utsname (uname_buf t); st_outs t := [uname_buf t] |}.
  intros t m (_ & He & Hl). revert m. apply stub_keeps. simpl. unfold Uname_collect.
  assert (Hb : g_bytes (uname_buf t) = 390) by (unfold g_bytes; by rewrite He, Hl).
  rewrite <- (Z.add_0_r (g_ptr (uname_buf t))) at 1.
  repeat (eapply keeps_bind;
    [apply keeps_uname_fill; [lia|lia|apply bytes_of_string_wf]|intros _ _]).
  by apply keeps_ret.
Defined.
