(* ===== verification/SyscallLaws.v ===== *)
(** * The laws of the system calls

    Every call of [Syscalls] is an instance of [SyscallLaws] (or of
    [MaybeAllocLaws]): it stages without a panic, commits inside the block and
    collects into the buffers its caller passed, whatever the host replies. *)

From S2P Require Import Prelude Memory Libc PhaseAlloc StagedValues Items Calls CallLaws StageKit.
From S2P Require Import SockTypes Syscalls.

(** ** Tactics *)

(** Arguments are casts, [NULL], offsets or lengths. *)
Ltac argv_tac :=
  split; [simpl; lia|];
  repeat (apply Forall_cons_2; [solve [eauto with enarx|done]|]); apply Forall_nil_2.

(** ** Passthrough calls *)

Class PassthroughLaws (T : Type) `{SyscallPassthrough T} := ptl_law : ∀ t : T, argv_ok 6 (spt_stage t).

#[global] Instance passthrough_laws {T : Type} `{PassthroughLaws T} : SyscallLaws T.
Proof.
  refine {| sl_ok _ := True; sl_outs _ := [] |}.
  intros t a _ Hwf. apply wp_ret. split_and!; [by apply advances_refl|apply ptl_law|].
  apply good_staged_keeps, keeps_ret. intros r. by apply keeps_ret.
Defined.

#[global] Instance Close_laws : PassthroughLaws Close.
Proof. intros t. argv_tac. Qed.
#[global] Instance Dup_laws : PassthroughLaws Dup.
Proof. intros t. argv_tac. Qed.
#[global] Instance Dup2_laws : PassthroughLaws Dup2.
Proof. intros t. argv_tac. Qed.
#[global] Instance Dup3_laws : PassthroughLaws Dup3.
Proof. intros t. argv_tac. Qed.
#[global] Instance EpollCreate1_laws : PassthroughLaws EpollCreate1.
Proof. intros t. argv_tac. Qed.
#[global] Instance Eventfd2_laws : PassthroughLaws Eventfd2.
Proof. intros t. argv_tac. Qed.
#[global] Instance Exit_laws : PassthroughLaws Exit.
Proof. intros t. argv_tac. Qed.
#[global] Instance ExitGroup_laws : PassthroughLaws ExitGroup.
Proof. intros t. argv_tac. Qed.
#[global] Instance Listen_laws : PassthroughLaws Listen.
Proof. intros t. argv_tac. Qed.
#[global] Instance Socket_laws : PassthroughLaws Socket.
Proof. intros t. argv_tac. Qed.
#[global] Instance Sync_laws : PassthroughLaws Sync.
Proof. intros t. argv_tac. Qed.
#[global] Instance AllocFcntl_laws : PassthroughLaws AllocFcntl.
Proof. intros t. argv_tac. Qed.

(** ** Calls with one input *)

(** A call whose only staged object is an input, and which returns the
    decoded result as it is. *)
Lemma input_law {R : Type} (com : Input gref → ioM unit) lo hi i :
  com = Input_commit ∨ com = Input_commit_slice → staged_in lo hi i →
  good_staged [] lo hi com (λ (_ : unit) (ret : R), mret ret) i.
Proof.
  intros Hcom Hi. apply good_staged_keeps. eapply keeps_mono.
  - destruct Hcom as [-> | ->]; by apply keeps_in.
  - intros _ _ r. by apply keeps_ret.
Qed.

#[global] Instance Bind_laws : SyscallLaws Bind.
Proof.
  refine {| sl_ok t := sockaddr_input_ok (bind_addr t); sl_outs _ := [] |}.
  intros t a Hok Hwf. apply wp_bind, wp_SockaddrInput_stage; [done..|].
  intros i a' Hadv Hi _ _. apply wp_ret. split_and!; [done|argv_tac|].
  apply input_law; [by right|done].
Defined.

#[global] Instance Connect_laws : SyscallLaws Connect.
Proof.
  refine {| sl_ok t := sockaddr_input_ok (connect_addr t); sl_outs _ := [] |}.
  intros t a Hok Hwf. apply wp_bind, wp_SockaddrInput_stage; [done..|].
  intros i a' Hadv Hi _ _. apply wp_ret. split_and!; [done|argv_tac|].
  apply input_law; [by right|done].
Defined.

#[global] Instance EpollCtl_laws : SyscallLaws EpollCtl.
Proof.
  refine {| sl_ok t := ref_ok epoll_event (epoll_ctl_event t); sl_outs _ := [] |}.
  intros t a Hok Hwf. apply wp_bind, wp_in; [done..|].
  intros i a' Hadv Hi _. apply wp_ret. split_and!; [done|argv_tac|].
  apply input_law; [by left|done].
Defined.

#[global] Instance AllocOpen_laws : SyscallLaws AllocOpen.
Proof.
  refine {| sl_ok t := slice_ok ty_u8 (open_pathname (alloc_open t)); sl_outs _ := [] |}.
  intros t a Hok Hwf. apply wp_bind, wp_in_slice; [done..|].
  intros i a' Hadv Hi _. apply wp_ret. split_and!; [done|argv_tac|].
  apply input_law; [by right|done].
Defined.

#[global] Instance Setsockopt_laws : SyscallLaws Setsockopt.
Proof.
  refine {| sl_ok t := from_option sockopt_input_ok True (setsockopt_optval t); sl_outs _ := [] |}.
  intros [sockfd level optname [opt|]] a Hok Hwf; simpl in Hok.
  - do 2 apply wp_bind. apply wp_SockoptInput_stage; [done..|].
    intros i a' Hadv Hi _ _. do 2 apply wp_ret. split_and!; [done|argv_tac|].
    apply good_staged_keeps. eapply keeps_bind; [|intros _ _; apply keeps_ret; intros r; by apply keeps_ret].
    eapply (keeps_option _ _ _ (staged_in _ _) (λ _, True)); [by intros; apply keeps_in|done].
  - apply wp_bind. do 2 apply wp_ret. split_and!; [by apply advances_refl|argv_tac|].
    apply good_staged_keeps, keeps_ret. intros r. by apply keeps_ret.
Defined.

(** ** Sending *)

Lemma keeps_collect_count {R : mem → mem → Prop} `{!PreOrder R} n ret :
  keeps R (collect_count n ret) (λ _, True).
Proof. destruct ret as [k|e]; simpl; [destruct (_ <? _)|]; by apply keeps_ret. Qed.

Lemma bytes_in_law lo hi i :
  staged_in lo hi i → good_staged [] lo hi StagedBytesInput_commit collect_count i.
Proof.
  intros Hi. apply good_staged_keeps. eapply keeps_mono; [by apply keeps_bytes_in|].
  intros n _ r. apply keeps_collect_count.
Qed.

#[global] Instance Write_laws : SyscallLaws Write.
Proof.
  refine {| sl_ok t := slice_ok ty_u8 (write_buf t); sl_outs _ := [] |}.
  intros t a Hok Hwf. apply wp_bind, wp_in_max; [done..|].
  intros i n a' Hadv Hi _ _ _. apply wp_ret. split_and!; [done|argv_tac|]. by apply bytes_in_law.
Defined.

#[global] Instance Send_laws : SyscallLaws Send.
Proof.
  refine {| sl_ok t := slice_ok ty_u8 (send_buf t); sl_outs _ := [] |}.
  intros t a Hok Hwf. apply wp_bind, wp_in_max; [done..|].
  intros i n a' Hadv Hi _ _ _. apply wp_ret. split_and!; [done|argv_tac|]. by apply bytes_in_law.
Defined.

#[global] Instance Sendto_laws : SyscallLaws Sendto.
Proof.
  refine {| sl_ok t := sockaddr_input_ok (sendto_dest_addr t) ∧ slice_ok ty_u8 (sendto_buf t);
            sl_outs _ := [] |}.
  intros t a [Hs Hb] Hwf. apply wp_bind, wp_SockaddrInput_stage; [done..|].
  intros i a1 A1 Hi _ _. apply wp_bind, wp_in_max; [apply A1|done..|].
  intros j n a2 A2 Hj _ _ _. apply wp_ret.
  split_and!; [by eapply advances_trans|argv_tac|].
  destruct A1 as [_ ? _ _], A2 as [_ ? _ _]. apply good_staged_keeps.
  eapply keeps_bind; [by apply keeps_in, (staged_in_weaken (a_ptr a) (a_ptr a1))|].
  intros _ _. eapply keeps_mono; [by apply keeps_bytes_in, (staged_in_weaken (a_ptr a1) (a_ptr a2))|].
  intros k _ r. apply keeps_collect_count.
Defined.

(** ** Socket addresses out *)

(** The outputs of an optional socket address. *)
Definition opt_sockaddr_outs (s : option SockaddrOutput) : list gref := from_option sockaddr_outs [] s.

Lemma sockaddr_law {R : Type} s lo hi st :
  staged_sockaddr s lo hi st →
  good_staged (sockaddr_outs s) lo hi SockaddrOutput_commit
    (λ c (ret : R), _ ← SockaddrOutput_collect c; mret ret) st.
Proof.
  intros Hst. apply good_staged_keeps. eapply keeps_mono; [by eapply keeps_SockaddrOutput_commit|].
  intros c -> r. eapply keeps_bind; [by eapply keeps_SockaddrOutput_collect|].
  intros _ _. by apply keeps_ret.
Qed.

Lemma opt_sockaddr_law (s : option SockaddrOutput) a
    (Q : option StagedSockaddrOutput → Alloc phase.Stage → Prop) :
  from_option sockaddr_output_ok True s → alloc_wf a →
  (∀ st a', advances a a' →
     is_usize (fst (sockaddr_offsets st)) → is_usize (snd (sockaddr_offsets st)) →
     good_staged (opt_sockaddr_outs s) (a_ptr a) (a_ptr a')
       (@option_commit _ _ SockaddrOutput_commit)
       (λ c (ret : result Z), _ ← @option_collect _ _ SockaddrOutput_collect c; mret ret) st →
     Q st a') →
  wp (@option_stage _ _ SockaddrOutput_stage s) a Q.
Proof.
  intros Hs Hwf HQ. destruct s as [s|]; simpl in *.
  - apply wp_bind, wp_SockaddrOutput_stage; [done..|]. intros st a' Hadv Hst. apply wp_ret.
    destruct (staged_sockaddr_off _ _ _ _ Hst). apply HQ; [done..|].
    set (c := mkCommittedSockaddrOutput (sso_addr st) (Output_from_InOut (sso_addrlen st))).
    apply good_staged_keeps. eapply keeps_mono.
    + eapply (keeps_option _ _ _ (λ x, x = st) (λ y, y = c)); [|done].
      intros x ->. by eapply keeps_SockaddrOutput_commit.
    + intros oc Hc r. eapply keeps_bind; [|intros _ _; by apply keeps_ret].
      eapply (keeps_collect_option _ _ _ (λ y, y = c)); [|done].
      intros x ->. by eapply keeps_SockaddrOutput_collect.
  - apply wp_ret, HQ; [by apply advances_refl|apply is_usize_NULL..|].
    apply good_staged_keeps, keeps_ret. intros r. by apply keeps_ret.
Qed.

#[global] Instance Accept_laws : SyscallLaws Accept.
Proof.
  refine {| sl_ok t := from_option sockaddr_output_ok True (accept_addr t);
            sl_outs t := opt_sockaddr_outs (accept_addr t) |}.
  intros t a Hok Hwf. apply wp_bind, opt_sockaddr_law; [done..|].
  intros st a' Hadv H1 H2 Hg. destruct (sockaddr_offsets st) as [o1 o2]. apply wp_ret.
  split_and!; [done|argv_tac|exact Hg].
Defined.

#[global] Instance Accept4_laws : SyscallLaws Accept4.
Proof.
  refine {| sl_ok t := from_option sockaddr_output_ok True (accept4_addr t);
            sl_outs t := opt_sockaddr_outs (accept4_addr t) |}.
  intros t a Hok Hwf. apply wp_bind, opt_sockaddr_law; [done..|].
  intros st a' Hadv H1 H2 Hg. destruct (sockaddr_offsets st) as [o1 o2]. apply wp_ret.
  split_and!; [done|argv_tac|exact Hg].
Defined.

#[global] Instance Getsockname_laws : SyscallLaws Getsockname.
Proof.
  refine {| sl_ok t := sockaddr_output_ok (getsockname_addr t);
            sl_outs t := sockaddr_outs (getsockname_addr t) |}.
  intros t a Hok Hwf. apply wp_bind, wp_SockaddrOutput_stage; [done..|].
  intros st a' Hadv Hst. apply wp_ret. destruct (staged_sockaddr_off _ _ _ _ Hst).
  split_and!; [done|argv_tac|]. by apply sockaddr_law.
Defined.

(** ** Times *)

#[global] Instance ClockGettime_laws : SyscallLaws ClockGettime.
Proof.
  refine {| sl_ok t := ref_ok timespec (clock_gettime_tp t); sl_outs t := [clock_gettime_tp t] |}.
  intros t a Hok Hwf. apply wp_bind, wp_out; [done..|].
  intros o a' Hadv Ho H1 _. apply wp_ret. split_and!; [done|argv_tac|].
  apply good_staged_keeps, keeps_ret. intros [u|e]; [|by apply keeps_ret].
  eapply keeps_bind; [eapply keeps_out; [done|left|done]|]. intros _ _. by apply keeps_ret.
Defined.

#[global] Instance ClockGetres_laws : SyscallLaws ClockGetres.
Proof.
  refine {| sl_ok t := from_option (ref_ok timespec) True (clock_getres_res t);
            sl_outs t := option_list (clock_getres_res t) |}.
  intros [id [res|]] a Hok Hwf; simpl in Hok.
  - do 2 apply wp_bind. apply wp_out; [done..|]. intros o a' Hadv Ho H1 _. do 2 apply wp_ret.
    split_and!; [done|argv_tac|]. apply good_staged_keeps, keeps_ret. intros [u|e]; [|by apply keeps_ret].
    eapply keeps_bind; [|intros _ _; by apply keeps_ret].
    eapply (keeps_collect_option _ _ _ (λ o, staged_out res o ∧ Output_len o = 1)); [|done].
    intros x []. eapply keeps_out; [done|left|done].
  - apply wp_bind. do 2 apply wp_ret. split_and!; [by apply advances_refl|argv_tac|].
    apply good_staged_keeps, keeps_ret. intros [u|e]; by apply keeps_ret.
Defined.

#[global] Instance Nanosleep_laws : SyscallLaws Nanosleep.
Proof.
  refine {| sl_ok t := ref_ok timespec (nanosleep_req t) ∧
                       from_option (ref_ok timespec) True (nanosleep_rem t);
            sl_outs t := option_list (nanosleep_rem t) |}.
  intros [req [rem|]] a [Hreq Hrem] Hwf; simpl in Hreq, Hrem;
    (apply wp_bind, wp_in; [done..|]; intros i a1 A1 Hi _).
  - do 2 apply wp_bind. apply wp_io; [apply A1|done..|]. intros o a2 A2 Ho H1 _. do 2 apply wp_ret.
    split_and!; [by eapply advances_trans|argv_tac|]. apply good_staged_keeps.
    destruct A1 as [_ ? _ _], A2 as [_ ? _ _].
    eapply keeps_bind; [by apply keeps_in, (staged_in_weaken (a_ptr a) (a_ptr a1))|]. intros _ _.
    eapply keeps_mono.
    + eapply (keeps_option _ _ _ (λ x, x = o) (λ c, c = Output_from_InOut o)); [|done].
      intros x ->. by eapply keeps_io, (staged_io_weaken _ (a_ptr a1) (a_ptr a2)).
    + intros c Hc [?|e]; simpl; [by apply keeps_ret|].
      destruct (e =? EINTR); [|by apply keeps_ret].
      eapply keeps_bind; [|intros _ _; by apply keeps_ret].
      eapply (keeps_collect_option _ _ _ (λ c, c = Output_from_InOut o)); [|done].
      intros x ->. eapply keeps_out; [apply Ho|left|exact H1].
  - apply wp_bind. do 2 apply wp_ret. split_and!; [done|argv_tac|]. apply good_staged_keeps.
    eapply keeps_bind; [by apply keeps_in|]. intros _ _. apply keeps_ret.
    intros [?|e]; simpl; [by apply keeps_ret|]. destruct (e =? EINTR); by apply keeps_ret.
Defined.

(** ** Events *)

Lemma keeps_collect_events v o outs ret :
  staged_out v o → v ∈ outs → keeps (collect_rel outs) (collect_events o ret) (λ _, True).
Proof.
  intros Ho Hv. destruct ret as [n|e]; simpl; [|by apply keeps_ret].
  destruct (_ <? _) eqn:E; bool_to_prop; [by apply keeps_ret|].
  eapply keeps_bind; [by eapply keeps_out_range|]. intros _ _. by apply keeps_ret.
Qed.

#[global] Instance EpollWait_laws : SyscallLaws EpollWait.
Proof.
  refine {| sl_ok t := slice_ok epoll_event (epoll_wait_events t); sl_outs t := [epoll_wait_events t] |}.
  intros t a Hok Hwf. apply wp_bind, wp_out_slice; [done..|].
  intros o a' Hadv Ho _. apply wp_ret. split_and!; [done|argv_tac|].
  apply good_staged_keeps, keeps_ret. intros r. eapply keeps_collect_events; [done|left].
Defined.

#[global] Instance EpollPwait_laws : SyscallLaws EpollPwait.
Proof.
  refine {| sl_ok t := slice_ok epoll_event (epoll_pwait_events t) ∧
                       ref_ok sigset_t (epoll_pwait_sigmask t);
            sl_outs t := [epoll_pwait_events t] |}.
  intros t a [He Hs] Hwf. apply wp_bind, wp_out_slice; [done..|].
  intros o a1 A1 Ho _. apply wp_bind, wp_in; [apply A1|done..|]. intros i a2 A2 Hi _. apply wp_ret.
  split_and!; [by eapply advances_trans|argv_tac|]. destruct A1 as [_ ? _ _].
  apply good_staged_keeps. eapply keeps_bind; [by apply (keeps_ret _ (λ x, x = o))|]. intros ? ->.
  eapply keeps_bind; [by apply keeps_in, (staged_in_weaken (a_ptr a1) (a_ptr a2))|].
  intros _ _. apply keeps_ret. intros r. eapply keeps_collect_events; [done|left].
Defined.

#[global] Instance Poll_laws : SyscallLaws Poll.
Proof.
  refine {| sl_ok t := slice_ok pollfd (poll_fds t); sl_outs t := [poll_fds t] |}.
  intros t a Hok Hwf. apply wp_bind, wp_io_slice; [done..|].
  intros i a' Hadv Hi _. apply wp_ret. split_and!; [done|argv_tac|].
  apply good_staged_keeps. eapply keeps_mono; [by eapply keeps_io|]. intros o -> r.
  eapply keeps_collect_events; [apply Hi|left].
Defined.

(** ** Receiving *)

Lemma keeps_collect_bytes v o outs ret :
  staged_out v o → v ∈ outs → keeps (collect_rel outs) (collect_bytes o ret) (λ _, True).
Proof.
  intros Ho Hv. destruct ret as [n|e]; simpl; [|by apply keeps_ret].
  destruct (_ <? _) eqn:E; bool_to_prop; [by apply keeps_ret|].
  eapply keeps_bind; [by eapply keeps_out_range|]. intros _ _. by apply keeps_ret.
Qed.

#[global] Instance Read_laws : SyscallLaws Read.
Proof.
  refine {| sl_ok t := slice_ok ty_u8 (read_buf t); sl_outs t := [read_buf t] |}.
  intros t a Hok Hwf. apply wp_bind, wp_out_max; [done..|].
  intros o n a' Hadv Ho _ _ _. apply wp_ret. split_and!; [done|argv_tac|].
  apply good_staged_keeps, keeps_ret. intros r. eapply keeps_collect_bytes; [done|left].
Defined.

#[global] Instance Recv_laws : SyscallLaws Recv.
Proof.
  refine {| sl_ok t := slice_ok ty_u8 (recv_buf t); sl_outs t := [recv_buf t] |}.
  intros t a Hok Hwf. apply wp_bind, wp_out_max; [done..|].
  intros o n a' Hadv Ho _ _ _. apply wp_ret. split_and!; [done|argv_tac|].
  apply good_staged_keeps, keeps_ret. intros r. eapply keeps_collect_bytes; [done|left].
Defined.

#[global] Instance Recvfrom_laws : SyscallLaws Recvfrom.
Proof.
  refine {| sl_ok t := sockaddr_output_ok (recvfrom_src_addr t) ∧ slice_ok ty_u8 (recvfrom_buf t);
            sl_outs t := recvfrom_buf t :: sockaddr_outs (recvfrom_src_addr t) |}.
  intros t a [Hs Hb] Hwf. apply wp_bind, wp_SockaddrOutput_stage; [done..|].
  intros st a1 A1 Hst. apply wp_bind, wp_out_max; [apply A1|done..|].
  intros o n a2 A2 Ho _ _ _. apply wp_ret. destruct (staged_sockaddr_off _ _ _ _ Hst).
  split_and!; [by eapply advances_trans|argv_tac|]. destruct A2 as [_ ? _ _].
  apply good_staged_keeps. eapply keeps_bind; [by apply (keeps_ret _ (λ x, x = o))|]. intros ? ->.
  eapply keeps_bind.
  { by eapply keeps_SockaddrOutput_commit, (staged_sockaddr_weaken _ (a_ptr a) (a_ptr a1)). }
  intros c ->. apply keeps_ret. intros [k|e]; simpl; [|by apply keeps_ret].
  destruct (_ <? _) eqn:E; bool_to_prop; [by apply keeps_ret|].
  eapply keeps_bind; [eapply keeps_out_range; [done|left|done]|]. intros _ _.
  eapply keeps_bind; [|intros _ _; by apply keeps_ret].
  eapply keeps_SockaddrOutput_collect; [done|]. apply list_subseteq_cons. done.
Defined.

(** ** Scattered buffers *)

Lemma covers_cons_r v outs p n : covers outs p n → covers (v :: outs) p n.
Proof. intros H x Hx. apply Exists_cons. right. by apply H. Qed.

Lemma take_capacity_covers iovs n :
  byte_slices iovs → Forall (λ d, covers iovs (g_ptr d) (g_bytes d)) (take_capacity n iovs).
Proof.
  intros H. revert n; induction H as [|r iovs [Hr He] H IH]; intros n; simpl; [done|].
  destruct (n =? 0); [done|]. destruct (_ <=? _) eqn:E; bool_to_prop.
  - constructor; [apply covers_in; [left|done]|].
    eapply Forall_impl; [apply IH|]. intros d. apply covers_cons_r.
  - constructor; [|done]. intros x Hx. apply Exists_cons. left. unfold in_gref, g_bytes in *. simpl in *.
    rewrite He in *. lia.
Qed.

Lemma keeps_copy_to_iter outs r ds :
  Forall (λ d, covers outs (g_ptr d) (g_bytes d)) ds →
  keeps (collect_rel outs) (OutRef_copy_to_iter_unchecked r ds) (λ _, True).
Proof.
  intros H m. eexists _, _. split; [reflexivity|]. split; [|done]. generalize (out_ptr r) as p.
  revert m; induction H as [|d ds Hd H IH]; intros m p; [done|]. simpl. etransitivity; [|apply IH].
  apply collect_rel_write; [|intros; by apply read_bytes_wf].
  rewrite length_read_bytes. intros x Hx. apply Hd. lia.
Qed.

Definition iovs_ok (iovs : list gref) : Prop := byte_slices iovs ∧ total_len iovs ≤ usize_MAX.

Lemma byte_slices_len iovs : byte_slices iovs → Forall (λ r, 0 ≤ g_len r) iovs ∧ 0 ≤ total_len iovs.
Proof. induction 1 as [|r iovs [Hr _] _ [IH1 IH2]]; simpl; [done|]. split; [by constructor|lia]. Qed.

Lemma wp_iov_len {A : Type} iovs a (k : Z → stageM A) (Q : A → Alloc phase.Stage → Prop) :
  iovs_ok iovs → wp (k (total_len iovs)) a Q → wp (must (iov_len iovs) ≫= k) a Q.
Proof.
  intros [Hb Hm] H. apply wp_bind. unfold wp at 1, must.
  rewrite iov_len_spec, (proj2 (Z.leb_le _ _) Hm) by by apply byte_slices_len. done.
Qed.

#[global] Instance Readv_laws : SyscallLaws Readv.
Proof.
  refine {| sl_ok t := iovs_ok (readv_iovs t); sl_outs t := readv_iovs t |}.
  intros t a [Hb Hm] Hwf. apply wp_iov_len; [done|].
  destruct (byte_slices_len _ Hb) as [_ Hn]. apply wp_bind, wp_bind, wp_get_free; [done..|].
  intros k _ Hk _. apply wp_allocate_output_slice; [done|done|lia|]. intros r a' Hp. apply wp_ret.
  destruct Hp as [Hp [Ht Hl]].
  destruct (placed_usize a a' Hwf ty_u8 eq_refl _ _ _ _ Hp) as [? ?]; [lia|].
  split_and!; [apply Hp| |].
  { split; [simpl; lia|]. rewrite Hl. repeat (apply Forall_cons_2; [solve [eauto with enarx|done]|]). done. }
  apply good_staged_keeps, keeps_ret. intros [n|e]; simpl; [|by apply keeps_ret].
  destruct (_ <? _); [by apply keeps_ret|]. eapply keeps_bind; [|intros _ _; by apply keeps_ret].
  by apply keeps_copy_to_iter, take_capacity_covers.
Defined.

Lemma copy_from_iter_wf r srcs m :
  mem_wf m → ∀ m', InRef_copy_from_iter_unchecked r srcs m = Return (tt, m') → mem_wf m'.
Proof.
  intros Hm m' [= <-]. generalize (in_ptr r) as p. revert m Hm.
  induction srcs as [|s srcs IH]; intros m Hm p; [done|]. simpl. apply IH.
  apply write_bytes_wf; [done|]. by apply read_bytes_wf.
Qed.

Lemma keeps_copy_from_iter lo hi r n iovs :
  byte_slices iovs → 0 ≤ n → lo ≤ in_ptr r → in_ptr r + n ≤ hi →
  keeps (commit_rel lo hi) (InRef_copy_from_iter_unchecked r (take_capacity n iovs)) (λ _, True).
Proof.
  intros Hb Hn Hlo Hhi m.
  destruct (copy_from_iter_frame r (take_capacity n iovs) m) as (m' & E & Hs).
  { eapply Forall_impl; [by apply take_capacity_byte_slices|]. intros x [? Hx]. unfold g_bytes. nia. }
  exists tt, m'. split; [done|]. split; [|done]. split; [|intros; by eapply copy_from_iter_wf].
  eapply same_outside_weaken; [| |exact Hs]; [done|]. rewrite take_capacity_total by done. lia.
Qed.

#[global] Instance Writev_laws : SyscallLaws Writev.
Proof.
  refine {| sl_ok t := iovs_ok (writev_iovs t); sl_outs t := [] |}.
  intros t a [Hb Hm] Hwf. apply wp_iov_len; [done|].
  destruct (byte_slices_len _ Hb) as [_ Hn]. apply wp_bind, wp_bind, wp_get_free; [done..|].
  intros k _ Hk _. apply wp_allocate_input_slice; [done|done|lia|]. intros r a' Hp. apply wp_ret.
  destruct Hp as [Hp [Ht Hl]].
  destruct (placed_usize a a' Hwf ty_u8 eq_refl _ _ _ _ Hp) as [? ?]; [lia|].
  split_and!; [apply Hp| |].
  { split; [simpl; lia|]. rewrite Hl. repeat (apply Forall_cons_2; [solve [eauto with enarx|done]|]). done. }
  destruct Hp as [_ _ _ ? ? _]. change (l_size ty_u8) with 1 in *.
  apply good_staged_keeps. eapply keeps_bind.
  { apply keeps_copy_from_iter; [done|rewrite ?Hl; lia..]. }
  intros _ _. apply keeps_ret. intros ret. apply keeps_collect_count.
Defined.

(** ** Calls that may not allocate *)

#[global] Instance AllocIoctl_laws : SyscallLaws AllocIoctl.
Proof.
  refine {| sl_ok t := from_option (slice_ok ty_u8) True (ioctl_argp (alloc_ioctl t));
            sl_outs t := option_list (ioctl_argp (alloc_ioctl t)) |}.
  intros [[fd req [v|]]] a Hok Hwf; simpl in Hok.
  - do 2 apply wp_bind. apply wp_io_slice; [done..|]. intros i a' Hadv Hi _. do 2 apply wp_ret.
    split_and!; [done|argv_tac|]. apply good_staged_keeps. eapply keeps_mono.
    + eapply (keeps_option _ _ _ (λ x, x = i) (λ c, c = Output_from_InOut i)); [|done].
      intros x ->. by eapply keeps_io.
    + intros c Hc r. eapply keeps_bind; [|intros _ _; by apply keeps_ret].
      eapply (keeps_collect_option _ _ _ (λ c, c = Output_from_InOut i)); [|done].
      intros x ->. eapply keeps_out_slice; [apply Hi|left].
  - apply wp_bind. do 2 apply wp_ret. split_and!; [by apply advances_refl|argv_tac|].
    apply good_staged_keeps, keeps_ret. intros r. by apply keeps_ret.
Defined.

#[global] Instance Fcntl_laws : MaybeAllocLaws Fcntl.
Proof. refine {| ml_ok _ := True; ml_outs _ := [] |}. intros m t u _ _. done. Defined.

#[global] Instance Ioctl_laws : MaybeAllocLaws Ioctl.
Proof.
  refine {| ml_ok t := from_option (slice_ok ty_u8) True (ioctl_argp t);
            ml_outs t := option_list (ioctl_argp t) |}.
  intros m t u Hok Hu. simpl in Hu. unfold Ioctl_stage in Hu. repeat case_match; inv Hu. done.
Defined.

#[global] Instance Open_laws : MaybeAllocLaws Open.
Proof.
  refine {| ml_ok t := slice_ok ty_u8 (open_pathname t); ml_outs _ := [] |}.
  intros m t u Hok Hu. simpl in Hu. unfold Open_stage in Hu. repeat case_match; inv Hu. done.
Defined.
