(* ===== verification/NumberCalls.v ===== *)
(** * GDB and Enarx calls

    [crates/sallyport/src/guest/call/{gdbcall,enarxcall}]: the calls whose
    payload has a [Number], four arguments and one return word. *)

From S2P Require Import Prelude Memory Libc PhaseAlloc StagedValues Items Calls CallLaws StageKit.
From S2P Require Import SockTypes Syscalls SyscallLaws.

Module gdb.

Record Flush : Type := mkFlush { }.
#[global] Instance Flush_passthrough : NumberPassthrough Flush := {|
  npt_ITEM := Gdbcall; npt_NUM := gdbcall.as_usize gdbcall.Flush; npt_ret := Result_unit;
  npt_stage _ := [] |}.

Record OnSessionStart : Type := mkOnSessionStart { }.
#[global] Instance OnSessionStart_passthrough : NumberPassthrough OnSessionStart := {|
  npt_ITEM := Gdbcall; npt_NUM := gdbcall.as_usize gdbcall.OnSessionStart; npt_ret := Result_unit;
  npt_stage _ := [] |}.

Record Peek : Type := mkPeek { }.
#[global] Instance Peek_passthrough : NumberPassthrough Peek := {|
  npt_ITEM := Gdbcall; npt_NUM := gdbcall.as_usize gdbcall.Peek; npt_ret := Result_option_u8;
  npt_stage _ := [] |}.

Record Read : Type := mkRead { }.
#[global] Instance Read_passthrough : NumberPassthrough Read := {|
  npt_ITEM := Gdbcall; npt_NUM := gdbcall.as_usize gdbcall.Read; npt_ret := Result_u8;
  npt_stage _ := [] |}.

Record Write : Type := mkWrite { write_byte : Z }.
#[global] Instance Write_passthrough : NumberPassthrough Write := {|
  npt_ITEM := Gdbcall; npt_NUM := gdbcall.as_usize gdbcall.Write; npt_ret := Result_unit;
  npt_stage self := [as_usize (write_byte self)] |}.

Record WriteAll : Type := mkWriteAll { write_all_buf : gref }.

Definition WriteAll_stage (self : WriteAll) : stageM (list Z * Input gref) :=
  '(buf, _) ← Input_stage_slice_max ty_u8 (write_all_buf self);
  mret ([Input_offset buf; Input_len buf], buf).

#[global] Instance WriteAll_alloc : NumberAlloc WriteAll := {|
  nc_ITEM := Gdbcall; nc_NUM := gdbcall.as_usize gdbcall.WriteAll; nc_ret := Result_usize;
  nc_stage := WriteAll_stage;
  nc_commit := StagedBytesInput_commit;
  nc_collect := collect_count |}.

End gdb.

Module enarx.

Record BalloonMemory : Type := mkBalloonMemory {
  balloon_size_exponent : Z; balloon_pages : Z; balloon_addr : Z }.
#[global] Instance BalloonMemory_passthrough : NumberPassthrough BalloonMemory := {|
  npt_ITEM := Enarxcall; npt_NUM := enarxcall.as_usize enarxcall.BalloonMemory; npt_ret := Result_usize;
  npt_stage self := [balloon_size_exponent self; balloon_pages self; balloon_addr self] |}.

Record GetSgxQuoteSize : Type := mkGetSgxQuoteSize { }.
#[global] Instance GetSgxQuoteSize_passthrough : NumberPassthrough GetSgxQuoteSize := {|
  npt_ITEM := Enarxcall; npt_NUM := enarxcall.as_usize enarxcall.GetSgxQuoteSize; npt_ret := Result_usize;
  npt_stage _ := [] |}.

Record MemInfo : Type := mkMemInfo { }.
#[global] Instance MemInfo_passthrough : NumberPassthrough MemInfo := {|
  npt_ITEM := Enarxcall; npt_NUM := enarxcall.as_usize enarxcall.MemInfo; npt_ret := Result_usize;
  npt_stage _ := [] |}.

Record MmapHost : Type := mkMmapHost { mmap_addr : Z; mmap_length : Z; mmap_prot : Z }.
#[global] Instance MmapHost_passthrough : NumberPassthrough MmapHost := {|
  npt_ITEM := Enarxcall; npt_NUM := enarxcall.as_usize enarxcall.MmapHost; npt_ret := Result_unit;
  npt_stage self := [mmap_addr self; mmap_length self; as_usize (mmap_prot self)] |}.

Record MprotectHost : Type := mkMprotectHost { mprotect_addr : Z; mprotect_length : Z; mprotect_prot : Z }.
#[global] Instance MprotectHost_passthrough : NumberPassthrough MprotectHost := {|
  npt_ITEM := Enarxcall; npt_NUM := enarxcall.as_usize enarxcall.MprotectHost; npt_ret := Result_unit;
  npt_stage self := [mprotect_addr self; mprotect_length self; as_usize (mprotect_prot self)] |}.

Record MunmapHost : Type := mkMunmapHost { munmap_addr : Z; munmap_length : Z }.
#[global] Instance MunmapHost_passthrough : NumberPassthrough MunmapHost := {|
  npt_ITEM := Enarxcall; npt_NUM := enarxcall.as_usize enarxcall.MunmapHost; npt_ret := Result_unit;
  npt_stage self := [munmap_addr self; munmap_length self] |}.

Record TrimSgxPages : Type := mkTrimSgxPages { trim_addr : Z; trim_length : Z }.
#[global] Instance TrimSgxPages_passthrough : NumberPassthrough TrimSgxPages := {|
  npt_ITEM := Enarxcall; npt_NUM := enarxcall.as_usize enarxcall.TrimSgxPages; npt_ret := Result_unit;
  npt_stage self := [trim_addr self; trim_length self] |}.

Record Cpuid : Type := mkCpuid { cpuid_leaf : Z; cpuid_sub_leaf : Z; cpuid_result : gref }.

Definition Cpuid_stage (self : Cpuid) : stageM (list Z * Output) :=
  result ← Output_stage CpuidResult (cpuid_result self);
  mret ([as_usize (cpuid_leaf self); as_usize (cpuid_sub_leaf self); Output_offset result], result).

Definition Cpuid_collect (res : Output) (ret : result unit) : ioM (result unit) :=
  if is_ok ret then _ ← Output_collect res; mret ret else mret ret.

#[global] Instance Cpuid_alloc : NumberAlloc Cpuid := {|
  nc_ITEM := Enarxcall; nc_NUM := enarxcall.as_usize enarxcall.Cpuid; nc_ret := Result_unit;
  nc_stage := Cpuid_stage;
  nc_commit := Output_commit;
  nc_collect := Cpuid_collect |}.

(** [[u8; size_of::<Report>()]], [[u8; size_of::<TargetInfo>()]]: 512 bytes each. *)
Definition report_bytes : Layout := array 512 ty_u8.
Definition target_info_bytes : Layout := array 512 ty_u8.

Record GetSgxQuote : Type := mkGetSgxQuote { quote_report : gref; quote_quote : gref }.

(** [StagedGetSgxQuote { report, quote }] *)
Definition GetSgxQuote_stage (self : GetSgxQuote) : stageM (list Z * (Input gref * Output)) :=
  report ← Input_stage report_bytes (quote_report self);
  quote ← Output_stage_slice ty_u8 (quote_quote self);
  mret ([Input_offset report; Output_offset quote; Output_len quote], (report, quote)).

Definition GetSgxQuote_commit (self : Input gref * Output) : ioM Output :=
  _ ← Input_commit (fst self);
  Output_commit (snd self).

#[global] Instance GetSgxQuote_alloc : NumberAlloc GetSgxQuote := {|
  nc_ITEM := Enarxcall; nc_NUM := enarxcall.as_usize enarxcall.GetSgxQuote; nc_ret := Result_usize;
  nc_stage := GetSgxQuote_stage;
  nc_commit := GetSgxQuote_commit;
  nc_collect := collect_bytes |}.

Record GetSgxTargetInfo : Type := mkGetSgxTargetInfo { target_info : gref }.

Definition GetSgxTargetInfo_stage (self : GetSgxTargetInfo) : stageM (list Z * Output) :=
  info ← Output_stage target_info_bytes (target_info self);
  mret ([Output_offset info], info).

Definition GetSgxTargetInfo_collect (info : Output) (ret : result unit) : ioM (result unit) :=
  if is_ok ret then _ ← Output_collect info; mret ret else mret ret.

#[global] Instance GetSgxTargetInfo_alloc : NumberAlloc GetSgxTargetInfo := {|
  nc_ITEM := Enarxcall; nc_NUM := enarxcall.as_usize enarxcall.GetSgxTargetInfo; nc_ret := Result_unit;
  nc_stage := GetSgxTargetInfo_stage;
  nc_commit := Output_commit;
  nc_collect := GetSgxTargetInfo_collect |}.

Record GetSnpVcek : Type := mkGetSnpVcek { vcek : gref }.

Definition GetSnpVcek_stage (self : GetSnpVcek) : stageM (list Z * Output) :=
  vcek ← Output_stage_slice ty_u8 (vcek self);
  mret ([Output_offset vcek; Output_len vcek], vcek).

#[global] Instance GetSnpVcek_alloc : NumberAlloc GetSnpVcek := {|
  nc_ITEM := Enarxcall; nc_NUM := enarxcall.as_usize enarxcall.GetSnpVcek; nc_ret := Result_usize;
  nc_stage := GetSnpVcek_stage;
  nc_commit := Output_commit;
  nc_collect := collect_bytes |}.

End enarx.

(** ** Laws *)

Class NumberPassthroughLaws (T : Type) `{NumberPassthrough T} := {
  npl_kind : npt_ITEM = Gdbcall ∨ npt_ITEM = Enarxcall;
  npl_ok : T → Prop;
  npl_law : ∀ t : T, npl_ok t → argv_ok 4 (npt_stage t);
}.

#[global] Instance number_passthrough_laws {T : Type} `{NumberPassthroughLaws T} : NumberLaws T.
Proof.
  refine {| nl_ok := npl_ok; nl_outs _ := [] |}; [exact npl_kind|].
  intros t a Hok Hwf. apply wp_ret. split_and!; [by apply advances_refl|by apply npl_law|].
  apply good_staged_keeps, keeps_ret. intros r. by apply keeps_ret.
Defined.

Section gdb_laws.
Import gdb.

#[global] Instance Flush_laws : NumberPassthroughLaws Flush.
Proof. refine {| npl_ok _ := True |}; [by left|]. intros t _. argv_tac. Defined.
#[global] Instance OnSessionStart_laws : NumberPassthroughLaws OnSessionStart.
Proof. refine {| npl_ok _ := True |}; [by left|]. intros t _. argv_tac. Defined.
#[global] Instance Peek_laws : NumberPassthroughLaws Peek.
Proof. refine {| npl_ok _ := True |}; [by left|]. intros t _. argv_tac. Defined.
#[global] Instance gdb_Read_laws : NumberPassthroughLaws Read.
Proof. refine {| npl_ok _ := True |}; [by left|]. intros t _. argv_tac. Defined.
#[global] Instance gdb_Write_laws : NumberPassthroughLaws Write.
Proof. refine {| npl_ok _ := True |}; [by left|]. intros t _. argv_tac. Defined.

#[global] Instance WriteAll_laws : NumberLaws WriteAll.
Proof.
  refine {| nl_ok t := slice_ok ty_u8 (write_all_buf t); nl_outs _ := [] |}; [by left|].
  intros t a Hok Hwf. apply wp_bind, wp_in_max; [done..|].
  intros i n a' Hadv Hi _ _ _. apply wp_ret. split_and!; [done|argv_tac|]. by apply bytes_in_law.
Defined.

End gdb_laws.

Section enarx_laws.
Import enarx.

#[global] Instance BalloonMemory_laws : NumberPassthroughLaws BalloonMemory.
Proof.
  refine {| npl_ok t := is_usize (balloon_size_exponent t) ∧ is_usize (balloon_pages t) ∧
                        is_usize (balloon_addr t) |}; [by right|].
  intros t (? & ? & ?). argv_tac.
Defined.
#[global] Instance GetSgxQuoteSize_laws : NumberPassthroughLaws GetSgxQuoteSize.
Proof. refine {| npl_ok _ := True |}; [by right|]. intros t _. argv_tac. Defined.
#[global] Instance MemInfo_laws : NumberPassthroughLaws MemInfo.
Proof. refine {| npl_ok _ := True |}; [by right|]. intros t _. argv_tac. Defined.
#[global] Instance MmapHost_laws : NumberPassthroughLaws MmapHost.
Proof.
  refine {| npl_ok t := is_usize (mmap_addr t) ∧ is_usize (mmap_length t) |}; [by right|].
  intros t (? & ?). argv_tac.
Defined.
#[global] Instance MprotectHost_laws : NumberPassthroughLaws MprotectHost.
Proof.
  refine {| npl_ok t := is_usize (mprotect_addr t) ∧ is_usize (mprotect_length t) |}; [by right|].
  intros t (? & ?). argv_tac.
Defined.
#[global] Instance MunmapHost_laws : NumberPassthroughLaws MunmapHost.
Proof.
  refine {| npl_ok t := is_usize (munmap_addr t) ∧ is_usize (munmap_length t) |}; [by right|].
  intros t (? & ?). argv_tac.
Defined.
#[global] Instance TrimSgxPages_laws : NumberPassthroughLaws TrimSgxPages.
Proof.
  refine {| npl_ok t := is_usize (trim_addr t) ∧ is_usize (trim_length t) |}; [by right|].
  intros t (? & ?). argv_tac.
Defined.

#[global] Instance Cpuid_laws : NumberLaws Cpuid.
Proof.
  refine {| nl_ok t := ref_ok CpuidResult (cpuid_result t);
            nl_outs t := [cpuid_result t] |}; [by right|].
  intros t a Hok Hwf. apply wp_bind, wp_out; [done..|].
  intros o a' Hadv Ho H1 _. apply wp_ret. split_and!; [done|argv_tac|].
  apply good_staged_keeps, keeps_ret. intros [u|e]; [|by apply keeps_ret].
  eapply keeps_bind; [eapply keeps_out; [done|left|done]|]. intros _ _. by apply keeps_ret.
Defined.

#[global] Instance GetSgxTargetInfo_laws : NumberLaws GetSgxTargetInfo.
Proof.
  refine {| nl_ok t := ref_ok target_info_bytes (target_info t);
            nl_outs t := [target_info t] |}; [by right|].
  intros t a Hok Hwf. apply wp_bind, wp_out; [done..|].
  intros o a' Hadv Ho H1 _. apply wp_ret. split_and!; [done|argv_tac|].
  apply good_staged_keeps, keeps_ret. intros [u|e]; [|by apply keeps_ret].
  eapply keeps_bind; [eapply keeps_out; [done|left|done]|]. intros _ _. by apply keeps_ret.
Defined.

#[global] Instance GetSnpVcek_laws : NumberLaws GetSnpVcek.
Proof.
  refine {| nl_ok t := slice_ok ty_u8 (vcek t); nl_outs t := [vcek t] |}; [by right|].
  intros t a Hok Hwf. apply wp_bind, wp_out_slice; [done..|].
  intros o a' Hadv Ho _. apply wp_ret. split_and!; [done|argv_tac|].
  apply good_staged_keeps, keeps_ret. intros r. eapply keeps_collect_bytes; [done|left].
Defined.

#[global] Instance GetSgxQuote_laws : NumberLaws GetSgxQuote.
Proof.
  refine {| nl_ok t := ref_ok report_bytes (quote_report t) ∧ slice_ok ty_u8 (quote_quote t);
            nl_outs t := [quote_quote t] |}; [by right|].
  intros t a [Hr Hq] Hwf. apply wp_bind, wp_in; [done..|].
  intros i a1 A1 Hi _. apply wp_bind, wp_out_slice; [apply A1|done..|].
  intros o a2 A2 Ho _. apply wp_ret. split_and!; [by eapply advances_trans|argv_tac|].
  destruct A2 as [_ ? _ _]. apply good_staged_keeps.
  eapply keeps_bind; [by apply keeps_in, (staged_in_weaken (a_ptr a) (a_ptr a1))|].
  intros _ _. apply keeps_ret. intros r. eapply keeps_collect_bytes; [done|left].
Defined.

End enarx_laws.
