(* ===== verification/Platform.v ===== *)
(** * Validation of guest pointers

    [crates/sallyport/src/guest/platform.rs] (the [Platform] trait and its
    provided methods), [crates/sallyport/src/util/ptr.rs] and the two
    implementations, [UserMemScope] of [shim-sgx/src/handler/usermem.rs] and of
    [shim-kvm/src/hostcall.rs]. *)

From S2P Require Import Prelude Memory Libc PhaseAlloc StagedValues Items Calls CallLaws StageKit.
From S2P Require Import SockTypes.

(** The required methods, for an element type of layout [T]. *)
Class Platform := {
  validate_mut : Layout → Z → result gref;
  validate : Layout → Z → result gref;
  validate_slice_mut : Layout → Z → Z → result gref;
  validate_slice : Layout → Z → Z → result gref;
}.

(** An [iovec] in memory: its base and length words. *)
Definition iovec_at (m : mem) (p : Z) : gref := mkGref (read_usize m p) (read_usize m (p + 8)) 1.

Definition iovecs_at (m : mem) (r : gref) : list gref :=
  (λ i, iovec_at m (g_ptr r + 16 * i)) <$> seqZ 0 (g_len r).

(** [for iovec in iovec_slice { f(iovec.iov_base, iovec.iov_len)?; }] *)
Fixpoint validate_each (f : Z → Z → result gref) (iovecs : list gref) : result unit :=
  match iovecs with
  | [] => Ok ()
  | v :: iovecs =>
      match f (g_ptr v) (g_len v) with
      | Err e => Err e
      | Ok _ => validate_each f iovecs
      end
  end.

(** The slice of [iovec]s is returned reinterpreted as a slice of slices. *)
Definition validate_iovec_slice_mut `{Platform} (m : mem) (iov iovcnt : Z) : result (list gref) :=
  iovec_slice ← validate_slice iovec iov iovcnt;
  _ ← validate_each (validate_slice_mut ty_u8) (iovecs_at m iovec_slice);
  mret (iovecs_at m (mkGref iov iovcnt (l_size iovec))).

Definition validate_iovec_slice `{Platform} (m : mem) (iov iovcnt : Z) : result (list gref) :=
  iovec_slice ← validate_slice iovec iov iovcnt;
  _ ← validate_each (validate_slice ty_u8) (iovecs_at m iovec_slice);
  mret (iovecs_at m (mkGref iov iovcnt (l_size iovec))).

(** One iteration of the loop of [validate_str]; the increment is checked. *)
Definition validate_str_step `{Platform} (m : mem) (p : Z) : Z + outcome (result Z) :=
  match validate ty_u8 p with
  | Err e => inr (Return (Err e))
  | Ok byte =>
      match add_usize p 1 with
      | Return p => if m (g_ptr byte) =? 0 then inr (Return (Ok p)) else inl p
      | _ => inr Panicked
      end
  end.

(** [p] grows in every iteration, so [2 ^ 64] of them are enough. *)
Definition validate_str `{Platform} (m : mem) (ptr : Z) : outcome (result gref) :=
  match loop2 (validate_str_step m) 64 ptr with
  | inl _ => Diverged
  | inr r =>
      p ← r;
      Return (p ← p; len ← ok_or (checked_sub p ptr) EINVAL; mret (mkGref ptr len 1))
  end.

Definition validate_sockaddr_output `{Platform} (m : mem) (addr addrlen : Z) : result SockaddrOutput :=
  addrlen ← validate_mut socklen_t addrlen;
  addr ← validate_slice_mut ty_u8 addr (read_u32 m (g_ptr addrlen));
  mret (mkSockaddrOutput addr addrlen).

(** [util::ptr::is_aligned_non_null] *)
Definition is_aligned_non_null (T : Layout) (ptr : Z) : option Z :=
  if (ptr =? 0) || negb (ptr mod l_align T =? 0) then None else Some ptr.

(** [impl Platform for UserMemScope], the same in both shims.  A null pointer
    would make [as_mut] and [as_ref] return [None]. *)
Definition UserMemScope_validate (T : Layout) (ptr : Z) : result gref :=
  _ ← ok_or (is_aligned_non_null T ptr) EINVAL;
  if ptr =? 0 then Err EINVAL else Ok (mkGref ptr 1 (l_size T)).

Definition UserMemScope_validate_slice (T : Layout) (ptr count : Z) : result gref :=
  _ ← ok_or (is_aligned_non_null T ptr) EINVAL;
  Ok (mkGref ptr count (l_size T)).

#[global] Instance UserMemScope : Platform := {|
  validate_mut := UserMemScope_validate;
  validate := UserMemScope_validate;
  validate_slice_mut := UserMemScope_validate_slice;
  validate_slice := UserMemScope_validate_slice;
|}.

(** ** What validation promises *)

Class PlatformLaws `{Platform} := {
  pf_mut T p r : layout_wf T → is_usize p → validate_mut T p = Ok r →
    r = mkGref p 1 (l_size T) ∧ p ≠ 0 ∧ p mod l_align T = 0;
  pf_ref T p r : layout_wf T → is_usize p → validate T p = Ok r →
    r = mkGref p 1 (l_size T) ∧ p ≠ 0 ∧ p mod l_align T = 0;
  pf_slice_mut T p n r : layout_wf T → is_usize p → is_usize n → validate_slice_mut T p n = Ok r →
    r = mkGref p n (l_size T) ∧ p ≠ 0 ∧ p mod l_align T = 0;
  pf_slice T p n r : layout_wf T → is_usize p → is_usize n → validate_slice T p n = Ok r →
    r = mkGref p n (l_size T) ∧ p ≠ 0 ∧ p mod l_align T = 0;
}.

Lemma is_aligned_non_null_Some T ptr q :
  is_aligned_non_null T ptr = Some q → q = ptr ∧ ptr ≠ 0 ∧ ptr mod l_align T = 0.
Proof.
  unfold is_aligned_non_null. destruct (ptr =? 0) eqn:E1; [done|].
  destruct (ptr mod l_align T =? 0) eqn:E2; [|done]. simpl. intros [= <-]. bool_to_prop. done.
Qed.

Lemma UserMemScope_validate_Ok T p r :
  UserMemScope_validate T p = Ok r → r = mkGref p 1 (l_size T) ∧ p ≠ 0 ∧ p mod l_align T = 0.
Proof.
  unfold UserMemScope_validate. destruct (is_aligned_non_null T p) eqn:E; [|done].
  apply is_aligned_non_null_Some in E as (-> & ? & ?). simpl. destruct (_ =? _); [done|]. by intros [= <-].
Qed.

Lemma UserMemScope_validate_slice_Ok T p n r :
  UserMemScope_validate_slice T p n = Ok r → r = mkGref p n (l_size T) ∧ p ≠ 0 ∧ p mod l_align T = 0.
Proof.
  unfold UserMemScope_validate_slice. destruct (is_aligned_non_null T p) eqn:E; [|done].
  apply is_aligned_non_null_Some in E as (-> & ? & ?). simpl. by intros [= <-].
Qed.

#[global] Instance UserMemScope_laws : PlatformLaws.
Proof.
  split; intros; [eapply UserMemScope_validate_Ok|eapply UserMemScope_validate_Ok|
    eapply UserMemScope_validate_slice_Ok|eapply UserMemScope_validate_slice_Ok]; eassumption.
Qed.

(** ** [validate_str] *)

Section validate_str.
Context `{PlatformLaws} (m : mem) (ptr : Z) (Hptr : is_usize ptr).

(** No terminator before [p]. *)
Definition scanned (p : Z) : Prop := ptr ≤ p ≤ usize_MAX ∧ ∀ i, ptr ≤ i < p → m i ≠ 0.

Definition scan_result (o : outcome (result Z)) : Prop :=
  match o with
  | Return (Ok p') => ∃ p, p' = p + 1 ∧ p < usize_MAX ∧ scanned p ∧ m p = 0
  | Return (Err e) => ∃ p, scanned p ∧ validate ty_u8 p = Err e
  | Panicked => scanned usize_MAX
  | _ => False
  end.

Lemma validate_str_step_spec p :
  scanned p →
  match validate_str_step m p with
  | inl p' => p' = p + 1 ∧ scanned p'
  | inr r => scan_result r
  end.
Proof.
  intros [Hp Hi]. unfold validate_str_step. destruct (validate ty_u8 p) as [r|e] eqn:E; [|by exists p].
  apply pf_ref in E as (-> & _ & _); [|done|unfold is_usize in *; lia]. cbn [g_ptr].
  unfold add_usize. destruct (p + 1 <=? usize_MAX) eqn:E1; bool_to_prop.
  - destruct (m p =? 0) eqn:E2; bool_to_prop.
    + exists p. split_and!; [done|lia|done|done].
    + split; [done|]. split; [lia|]. intros i Hi'. destruct (decide (i = p)) as [->|]; [done|]. apply Hi. lia.
  - assert (p = usize_MAX) as -> by lia. done.
Qed.

Lemma validate_str_step_next p p' : validate_str_step m p = inl p' → p' = p + 1 ∧ p' ≤ usize_MAX.
Proof.
  unfold validate_str_step. destruct (validate ty_u8 p); [|done].
  destruct (add_usize p 1) as [q| | |] eqn:E; try done. apply add_usize_Return in E as [-> ?].
  destruct (_ =? 0); [done|]. by intros [= <-].
Qed.

Lemma validate_str_loop : ∃ r, loop2 (validate_str_step m) 64 ptr = inr r ∧ scan_result r.
Proof.
  assert (Hinv : match loop2 (validate_str_step m) 64 ptr with inl p => scanned p | inr r => scan_result r end).
  { apply loop2_inv.
    - split; [unfold is_usize in Hptr; lia|]. lia.
    - intros s s' Hs E. pose proof (validate_str_step_spec s Hs) as Hst. rewrite E in Hst. apply Hst.
    - intros s r Hs E. pose proof (validate_str_step_spec s Hs) as Hst. by rewrite E in Hst. }
  destruct (loop2_terminates (validate_str_step m) id 64 ptr usize_MAX) as [r E]; cycle -1.
  { exists r. by rewrite E in Hinv. }
  - intros s s' [-> _]%validate_str_step_next. unfold id. lia.
  - intros s s' [_ ?]%validate_str_step_next. done.
  - unfold is_usize, usize_MAX, id in *. change (2 ^ Z.of_nat 64) with (2 ^ 64). lia.
Qed.

(** The string found: [n] bytes that are not zero, and the terminator. *)
Definition is_c_str (n : Z) : Prop := 0 ≤ n ∧ m (ptr + n) = 0 ∧ ∀ i, 0 ≤ i < n → m (ptr + i) ≠ 0.

Lemma validate_str_spec :
  match validate_str m ptr with
  | Return (Ok r) => ∃ n, r = mkGref ptr (n + 1) 1 ∧ is_c_str n
  | Return (Err e) => ∃ p, scanned p ∧ validate ty_u8 p = Err e
  | Panicked => scanned usize_MAX
  | _ => False
  end.
Proof.
  destruct validate_str_loop as (r & E & Hr). unfold validate_str. rewrite E.
  destruct r as [[p'|e]| | |]; try done. destruct Hr as (p & -> & Hlt & [Hp Hi] & Hz). simpl.
  unfold checked_sub. rewrite (proj2 (Z.leb_le _ _)) by lia. simpl. exists (p - ptr).
  split; [f_equal; lia|]. split_and!; [lia|by replace (ptr + (p - ptr)) with p by lia|].
  intros i Hi'. apply Hi. lia.
Qed.

End validate_str.

(** C39: [validate_str] terminates, and for a string whose terminator lies below
    the last address it returns exactly that string: the bytes up to and
    including the first zero. *)
Theorem validate_str_correct (m : mem) (ptr n : Z) :
  0 < ptr → is_c_str m ptr n → ptr + n < usize_MAX →
  validate_str m ptr = Return (Ok (mkGref ptr (n + 1) 1)).
Proof.
  intros Hp (Hn & Hz & Hi) Hlt.
  pose proof (validate_str_spec m ptr ltac:(unfold is_usize; lia)) as H.
  assert (Hscan : ∀ p, scanned m ptr p → p ≤ ptr + n).
  { intros p [Hr Hnz]. destruct (decide (p ≤ ptr + n)); [done|]. exfalso. apply (Hnz (ptr + n)); [lia|done]. }
  destruct (validate_str m ptr) as [[r|e]| | |]; try done.
  - destruct H as (k & -> & Hk & Hkz & Hki). do 3 f_equal.
    destruct (Z.lt_trichotomy k n) as [Hkn|[->|Hkn]]; [|done|]; exfalso.
    + by apply (Hi k).
    + by apply (Hki n).
  - destruct H as (p & [Hr _] & E). exfalso. cbn in E. unfold UserMemScope_validate, is_aligned_non_null in E.
    rewrite (proj2 (Z.eqb_neq p 0)), Z.mod_1_r in E by lia. done.
  - apply Hscan in H. lia.
Qed.

Lemma validate_str_correct_witness :
  validate_str (write_bytes (λ _, 7) 100 (bytes_of_string "hi"%string ++ [0])) 100 = Return (Ok (mkGref 100 3 1)).
Proof.
  apply (validate_str_correct _ 100 2); [done| |done]. split_and!; [done|done|].
  intros i Hi. assert (i = 0 ∨ i = 1) as [-> | ->] by lia; by vm_compute.
Defined.
