(* ===== verification/Handler.v ===== *)
(** * The guest handler: executing calls

    [crates/sallyport/src/guest/handler.rs]: the [Handler] trait, [execute] and
    [attacked].  The state of a handler is what the implementing type holds
    ([H]) together with memory; [sally] hands both to the host. *)

From S2P Require Import Prelude Memory Libc PhaseAlloc StagedValues Items Calls CallLaws StageKit.
From S2P Require Import SockTypes Syscalls SyscallLaws.

Record world (H : Type) : Type := mkWorld { w_self : H; w_mem : mem }.
Arguments mkWorld {H} _ _.
Arguments w_self {H} _.
Arguments w_mem {H} _.

(** [&mut self] methods returning [crate::Result]. *)
Definition handlerM (H A : Type) : Type := fal (world H) A.
#[global] Instance handlerM_ret {H} : MRet (handlerM H) := fal_ret.
#[global] Instance handlerM_bind {H} : MBind (handlerM H) := fal_bind.

(** The methods of the trait that move control to the host or give access to
    the block. *)
Class Handler (H : Type) := {
  sally : handlerM H unit;
  handler_block : H → block;
  handler_block_mut : H → block;
}.

(** [Handler::execute] *)
Definition execute {H T : Type} `{Handler H, Call T} (call : T) : handlerM H (Collected T) := λ w,
  let alloc := Alloc_stage (Alloc_new (handler_block_mut (w_self w))) in
  '(staged, alloc) ← reserve_input Header_layout (section (call_stage (w_mem w) call)) alloc;
  match staged with
  | Err e => Return (Err e, w)
  | Ok ((call, len), end_ref) =>
      let alloc := Alloc_commit alloc in
      '(call, m) ← call_commit call (w_mem w);
      if 0 <? len then
        '(_, m) ← InRef_copy_from end_ref (Header_words (mkHeader 0 End_)) m;
        '(r, w) ← sally (mkWorld (w_self w) m);
        match r with
        | Err e => Return (Err e, w)
        | Ok _ =>
            match Alloc_sally alloc (handler_block (w_self w)) with
            | Err e => Return (Err e, w)
            | Ok _ =>
                '(x, m) ← call_collect call (w_mem w);
                Return (Ok x, mkWorld (w_self w) m)
            end
        end
      else
        let _ := Alloc_collect alloc in
        '(x, m) ← call_collect call m;
        Return (Ok x, mkWorld (w_self w) m)
  end.

(** [Handler::exit] and [Handler::attacked] call each other.  [exit] executes
    [Exit { status }]; an error is returned to its caller, after a success it calls
    [attacked].  The return type [!] is the empty type. *)
Inductive Never : Type := .
Definition never {A : Type} (n : Never) : A := match n with end.

(** [self.attacked()] at the end of a method *)
Definition call_never {H A : Type} (f : world H → outcome Never) : handlerM H A := λ w, f w ≫= never.

Definition exit_with {H : Type} `{Handler H} (attacked : world H → outcome Never) (status : Z) : handlerM H unit :=
  r ← execute (mkExit status); _ ← try r; call_never attacked.

(** [loop { let _ = self.exit(1); }], with [fuel] bounding the iterations and the
    depth of the calls *)
Fixpoint attacked {H : Type} `{Handler H} (fuel : nat) (w : world H) : outcome Never :=
  match fuel with
  | O => Diverged
  | S fuel =>
      '(_, w) ← exit_with (attacked fuel) 1 w;
      attacked fuel w
  end.

(** [.unwrap_or_else(|| self.attacked())]: [attacked] does not return. *)
Definition unwrap_or_attacked {H A : Type} (o : option (result A)) : handlerM H A := λ w,
  match o with
  | Some r => Return (r, w)
  | None => Attacked
  end.

(** ** What a handler promises *)

(** A [&mut [usize]]: aligned, inside the address space, and no slice is larger
    than [isize::MAX] bytes. *)
Record block_wf (b : block) : Prop := {
  bw_ptr : 0 ≤ b_ptr b;
  bw_len : 0 ≤ b_len b;
  bw_aligned : b_ptr b mod 8 = 0;
  bw_max : b_ptr b + 8 * b_len b ≤ usize_MAX;
  bw_isize : 8 * b_len b ≤ isize_MAX;
}.

Definition block_region (b : block) : gref := mkGref (b_ptr b) (b_len b) 8.

(** The host cannot reach the memory of the keep: when it resumes the keep,
    nothing but the block has changed.  It is otherwise arbitrary. *)
Class HandlerLaws (H : Type) `{Handler H} := {
  hl_block : ∀ h : H, handler_block h = handler_block_mut h;
  hl_wf : ∀ h : H, block_wf (handler_block_mut h);
  hl_sally : ∀ (w : world H) r w', sally w = Return (r, w') →
    handler_block_mut (w_self w') = handler_block_mut (w_self w) ∧
    same_except [block_region (handler_block_mut (w_self w))] (w_mem w) (w_mem w') ∧
    (mem_wf (w_mem w) → mem_wf (w_mem w'));
}.

(** A host that always resumes the keep. *)
Class HandlerReturns (H : Type) `{Handler H} :=
  hr_sally : ∀ w : world H, ∃ r w', sally w = Return (r, w').

(** ** Laws of [execute] *)

Lemma alloc_new_wf b : block_wf b → alloc_wf (Alloc_stage (Alloc_new b)).
Proof. intros []. unfold alloc_wf. simpl. lia. Qed.

(** What staging a call in a block of words establishes. *)
Definition staged_ok {T : Type} `{CallLaws T} (b : block) (call : T) (s : Staged T) (len : Z)
    (end_ref : InRef) (a' : Alloc phase.Stage) : Prop :=
  good_staged (cl_outs call) (b_ptr b) (b_ptr b + len) call_commit (λ c (_ : unit), call_collect c) s ∧
  0 ≤ len ∧ len mod 8 = 0 ∧ in_ptr end_ref = b_ptr b + len ∧
  b_ptr b + len + 16 ≤ b_ptr b + 8 * b_len b ∧
  a_ptr a' - a_offset a' = b_ptr b ∧ a_offset a' ≤ 8 * b_len b.

Lemma wp_execute_stage {T : Type} `{CallLaws T} b m (call : T) :
  block_wf b → cl_ok call →
  wp (reserve_input Header_layout (section (call_stage m call))) (Alloc_stage (Alloc_new b))
    (λ '((s, len), end_ref) a', staged_ok b call s len end_ref a').
Proof.
  intros Hb Hok. change Header_layout with (mkLayout 16 8). do 2 apply wp_bind.
  pose proof (alloc_new_wf b Hb) as Hwf.
  assert (Hl8 : layout_wf (mkLayout 16 8)) by done.
  pose proof (reserve_pad_bound (mkLayout 16 8) (Alloc_stage (Alloc_new b)) Hl8) as Hpad.
  apply wp_reserve_layout; [done|done|]. intros Hroom. apply wp_section; [done|].
  destruct Hb as [Hp Hl H8 Hm _].
  eapply wp_mono; [apply cl_law; [done| |exact H8]|].
  { unfold alloc_wf in *. simpl in *. lia. }
  intros s a1 (A1 & H81 & Hg). split; [done|]. destruct A1 as [W1 Le1 En1 Of1].
  unfold alloc_wf in *. simpl in *.
  split; [split; simpl; unfold alloc_wf; simpl; lia|].
  intros p a' A' Hle Hal Hpe Hnext. do 2 apply wp_ret. unfold staged_ok. simpl.
  rewrite (align_offset_0 _ 8) in Hpe by done.
  replace (b_ptr b + (a_ptr a1 - b_ptr b)) with (a_ptr a1) by lia.
  destruct A' as [W' Le' En' Of']. unfold alloc_wf in *. simpl in *.
  split; [done|]. split_and!; try lia; dlia.
Qed.

Lemma same_outside_block b m m' lo hi :
  b_ptr b ≤ lo → hi ≤ b_ptr b + 8 * b_len b → same_outside lo hi m m' →
  same_except [block_region b] m m'.
Proof.
  intros Hlo Hhi Hs x Hx. apply Hs. apply Forall_cons in Hx as [Hx _].
  unfold in_gref, g_bytes, block_region in Hx. simpl in Hx. lia.
Qed.

Lemma same_except_cons_l r rs m m' : same_except [r] m m' → same_except (r :: rs) m m'.
Proof. apply (same_except_app_l [r]). Qed.

Lemma same_except_cons_r r rs m m' : same_except rs m m' → same_except (r :: rs) m m'.
Proof. apply (same_except_app_r [r]). Qed.

Lemma Alloc_sally_ok {b} {a : Alloc phase.Stage} :
  a_ptr a - a_offset a = b_ptr b → a_offset a ≤ 8 * b_len b →
  ∃ c, Alloc_sally (Alloc_commit a) b = Ok c.
Proof.
  intros H1 H2. unfold Alloc_sally, Alloc_commit, into_phase. simpl.
  rewrite H1, Z.eqb_refl, (proj2 (Z.ltb_ge _ _) H2). simpl. by eexists.
Qed.

Section execute_laws.
Context {H T : Type} `{HandlerLaws H, !HandlerReturns H, CallLaws T}.

(** Writing the terminator stays in the block. *)
Lemma end_write_frame b call s len end_ref a' m :
  staged_ok b call s len end_ref a' →
  same_except [block_region b] m
    (write_bytes m (in_ptr end_ref) (words_to_bytes (words_of (Header_words (mkHeader 0 End_))))) .
Proof.
  intros (_ & Hl0 & _ & He & Hr & _). eapply same_outside_block; [| |apply write_bytes_frame]; [lia|].
  rewrite He. change (Z.of_nat (length _)) with 16. lia.
Qed.

Lemma execute_law (call : T) (w : world H) :
  cl_ok call →
  let b := handler_block_mut (w_self w) in
  ∃ r w', execute call w = Return (r, w') ∧
    handler_block_mut (w_self w') = b ∧
    same_except (block_region b :: if is_ok r then cl_outs call else []) (w_mem w) (w_mem w') ∧
    (mem_wf (w_mem w) → mem_wf (w_mem w')).
Proof.
  intros Hok b. pose proof (wp_execute_stage b (w_mem w) call (hl_wf _) Hok) as Hst.
  unfold execute. fold b. unfold wp in Hst.
  destruct (reserve_input _ _ _) as [[[[[s len] er]|e] a']| | |]; try done; simpl.
  2: { exists (Err e), w. split_and!; [done..| |done]. done. }
  pose proof Hst as (Hg & Hl0 & Hl8 & He & Hr & Ho & Ho').
  destruct (Hg (w_mem w)) as (c & m1 & Ec & Hs1 & Hw1 & Hcol). rewrite Ec. simpl.
  apply (same_outside_block b) in Hs1; [|lia..].
  destruct (0 <? len).
  - set (m2 := write_bytes m1 _ _).
    assert (Hs2 : same_except [block_region b] m1 m2) by by eapply end_write_frame.
    assert (Hw2 : mem_wf m1 → mem_wf m2).
    { intros. apply write_bytes_wf; [done|]. apply words_to_bytes_wf. }
    destruct (hr_sally (mkWorld (w_self w) m2)) as (r & w3 & Es).
    destruct (hl_sally _ _ _ Es) as (Hb3 & Hs3 & Hw3).
    simpl in Hb3, Hs3, Hw3. fold b in Hb3, Hs3. rewrite Es. simpl.
    assert (Hs : same_except [block_region b] (w_mem w) (w_mem w3)).
    { transitivity m1; [done|]. by transitivity m2. }
    destruct r as [u|e]; [|exists (Err e), w3; split_and!; auto].
    rewrite hl_block, Hb3. destruct (Alloc_sally_ok Ho Ho') as [c' ->].
    destruct (Hcol tt (w_mem w3)) as (x & m4 & Ex & Hs4 & Hw4). rewrite Ex. simpl.
    eexists (Ok x), _. split_and!; [done|done| |auto]. simpl.
    transitivity (w_mem w3); [by apply same_except_cons_l|by apply same_except_cons_r].
  - destruct (Hcol tt m1) as (x & m4 & Ex & Hs4 & Hw4). rewrite Ex. simpl.
    eexists (Ok x), _. split_and!; [done|done| |auto]. simpl.
    transitivity m1; [by apply same_except_cons_l|by apply same_except_cons_r].
Qed.

End execute_laws.
