(* ===== verification/Request.v ===== *)
(** * Requests: what the host sees and what the guest reads back

    [Handler::execute] of an allocatable call, from end to end: the block
    handed to the host holds exactly one item, the item of the call, and the
    value collected is decoded from the return word of that item. *)

From S2P Require Import Prelude Memory Libc PhaseAlloc StagedValues Items Calls CallLaws StageKit.
From S2P Require Import SockTypes Syscalls SyscallLaws NumberCalls Handler.

(** The allocator the body of a call stages its data in, in block [b]: after
    the header and the payload, and short of the reserved terminator. *)
Definition request_alloc (nargs nrets : nat) (b : block) : Alloc phase.Stage :=
  mkAlloc (b_ptr b + 16 + payload_bytes nargs nrets)
          (8 * b_len b - 32 - payload_bytes nargs nrets) 0.

Definition end_header : list Z := words_to_bytes (words_of (Header_words (mkHeader 0 End_))).

(** A committed item and the terminator behind it make up a block of one item. *)
Lemma one_item m b r p :
  raw_wf r → holds m (b_ptr b) (encode_item r) →
  p = b_ptr b + 16 + raw_size r → p + 16 ≤ b_ptr b + 8 * b_len b →
  let m' := write_bytes m p end_header in
  Block_items m' b = Return [first_item b r] ∧ item_view m' (first_item b r) = r.
Proof.
  intros Hr Hh Hp Hle m'.
  assert (Le : Z.of_nat (length end_header) = 16) by done.
  apply Block_items_one; [done| |]; unfold encode_block; cbn [mbind list_bind]; rewrite app_nil_r.
  - apply holds_app. rewrite length_encode_item. split.
    + apply holds_write_disjoint; [|done]. rewrite length_encode_item. lia.
    + replace (b_ptr b + (16 + raw_size r)) with p by lia. apply holds_write_same.
  - rewrite length_app, Nat2Z.inj_add, length_encode_item. fold end_header. lia.
Qed.

(** ** When staging succeeds *)

Lemma succeeds_allocate_input T a :
  alloc_wf a → layout_wf T → a_ptr a mod l_align T = 0 → l_size T ≤ a_len a → succeeds (allocate_input T) a.
Proof.
  intros Hwf HT Hal Hle. pose proof HT as [Ha _].
  assert (Hs : succeeds (allocate_layout T) a).
  { apply succeeds_allocate_layout; [done..|]. rewrite align_offset_0; (done || lia). }
  destruct Hs as ([[p l] off] & a' & E).
  unfold succeeds, allocate_input, allocate_input_layout, mbind, stageM_bind, fal_bind. rewrite E.
  by eexists _, _.
Qed.

Lemma succeeds_allocate_inout T a :
  alloc_wf a → layout_wf T → a_ptr a mod l_align T = 0 → l_size T ≤ a_len a → succeeds (allocate_inout T) a.
Proof.
  intros Hwf HT Hal Hle. pose proof HT as [Ha _].
  assert (Hs : succeeds (allocate_layout T) a).
  { apply succeeds_allocate_layout; [done..|]. rewrite align_offset_0; (done || lia). }
  destruct Hs as ([[p l] off] & a' & E).
  unfold succeeds, allocate_inout, allocate_inout_layout, mbind, stageM_bind, fal_bind. rewrite E.
  by eexists _, _.
Qed.

(** The payload of a call fits if its words do and its body succeeds. *)
Lemma succeeds_gen_stage {S : Type} nargs nrets (f : stageM (list Z * S)) a :
  alloc_wf a → a_ptr a mod 8 = 0 → payload_bytes nargs nrets ≤ a_len a →
  succeeds f (data_alloc nargs nrets a) →
  wp f (data_alloc nargs nrets a) (λ _ a0, advances (data_alloc nargs nrets a) a0) →
  succeeds (gen_stage nargs nrets f) a.
Proof.
  intros Hwf H8 Hlen Hs Hw. unfold payload_bytes in Hlen.
  apply succeeds_bind; [apply succeeds_allocate_input; (done || simpl; lia)|].
  apply wp_allocate_input; [done..|]. intros r1 a1 [Hp1 _].
  apply aligned_ptr in Hp1 as (_ & _ & P1 & L1 & F1 & A1); [|done]. simpl in P1, L1, F1.
  assert (H81 : a_ptr a1 mod 8 = 0) by (rewrite P1; dlia).
  apply succeeds_bind; [apply succeeds_allocate_input; [apply A1|apply layout_wf_words|done|simpl; lia]|].
  apply wp_allocate_input; [apply A1|apply layout_wf_words|]. intros r2 a2 [Hp2 _].
  apply aligned_ptr in Hp2 as (_ & _ & P2 & L2 & F2 & A2); [|done]. simpl in P2, L2, F2.
  assert (H82 : a_ptr a2 mod 8 = 0) by (rewrite P2; dlia).
  apply succeeds_bind; [apply succeeds_allocate_inout; [apply A2|apply layout_wf_words|done|simpl; lia]|].
  apply wp_allocate_inout; [apply A2|apply layout_wf_words|]. intros r3 a3 [Hp3 _].
  apply aligned_ptr in Hp3 as (_ & _ & P3 & L3 & F3 & A3); [|done]. simpl in P3, L3, F3.
  assert (Hd : mkAlloc (a_ptr a3) (a_len a3) 0 = data_alloc nargs nrets a).
  { unfold data_alloc, payload_bytes. f_equal; lia. }
  apply succeeds_bind; [apply succeeds_section; [apply A3|by rewrite Hd..]|].
  apply wp_section; [apply A3|]. rewrite Hd. eapply wp_mono; [exact Hw|].
  intros [argv s] a0 A0. split; [done|]. apply succeeds_ret.
Qed.

(** So does its item, when the space left ends at a word boundary. *)
Lemma succeeds_alloc_call_stage {T : Type} `{AllocCall T} (t : T) a :
  alloc_wf a → a_ptr a mod 8 = 0 → a_len a mod 8 = 0 → 16 ≤ a_len a →
  succeeds (ac_stage t) (body_alloc a) → wp (ac_stage t) (body_alloc a) (λ _ a0, advances (body_alloc a) a0) →
  succeeds (alloc_call_stage t) a.
Proof.
  intros Hwf H8 Hl8 Hlen Hs Hw.
  apply succeeds_bind; [apply succeeds_allocate_input; done|].
  apply wp_allocate_input; [done..|]. intros r1 a1 [Hp1 _].
  apply aligned_ptr in Hp1 as (_ & _ & P1 & L1 & F1 & A1); [|done].
  change (1 * l_size Header_layout) with 16 in P1, L1, F1.
  assert (Hd : mkAlloc (a_ptr a1) (a_len a1) 0 = body_alloc a) by (unfold body_alloc; f_equal; lia).
  apply succeeds_bind; [apply succeeds_section; [apply A1|by rewrite Hd..]|].
  apply wp_section; [apply A1|]. rewrite Hd. eapply wp_mono; [exact Hw|]. intros s a0 A0. split; [done|].
  destruct A0 as [(? & ? & ?) Le0 En0 _]. destruct A1 as [W1 _ _ _]. unfold alloc_wf in W1. simpl in *.
  destruct (0 <? _) eqn:E0; bool_to_prop; [|apply succeeds_ret]. cbv zeta.
  change (l_align ty_usize) with 8. set (size := a_ptr a0 - a_ptr a1) in *.
  destruct (0 <? size mod 8) eqn:E1; bool_to_prop; [|apply succeeds_ret].
  assert (size mod 8 < 8) by dlia. unfold must. rewrite add_usize_ok by dlia.
  assert (Hpad : 8 - size mod 8 ≤ a_len a0) by (unfold size in *; dlia).
  unfold from_size_align. rewrite (proj2 (Z.leb_le _ (isize_MAX - _))) by (unfold isize_MAX; lia).
  match goal with |- succeeds _ ?st => set (a2 := st) end.
  assert (Ha : succeeds (allocate_layout (mkLayout (8 - size mod 8) 1)) a2).
  { apply succeeds_allocate_layout; [unfold alloc_wf, a2; simpl; lia|split; simpl; lia|]. simpl.
    rewrite align_offset_0 by (lia || apply Z.mod_1_r). lia. }
  destruct Ha as ([[p l] off] & a' & E).
  unfold succeeds, allocate_input_layout, try, mbind, stageM_bind, fal_bind. rewrite E. by eexists _, _.
Qed.

(** ** A call of any family *)

Section request.
Context {S C X R : Type} (kind : Kind) (nargs nrets : nat) (num : Z) (rets : list Z).
Context (f : stageM (list Z * S)) (com : S → ioM C) (col : C → result R → ioM X) (dec : Z → result R).
Context (outs : list gref).
Context (Hkind : kind ≠ End_) (Hcount : USIZE_COUNT kind = 1 + Z.of_nat nargs + Z.of_nat nrets).
Context (Hrets : Forall is_usize rets) (Hnrets : length rets = nrets).
Context (Hf : ∀ a, alloc_wf a → wp f a (λ '(argv, s) a', advances a a' ∧ argv_ok nargs argv ∧
  good_staged outs (a_ptr a) (a_ptr a') com col s)).

(** The call that stages with [f], commits with [com] and collects with [col]. *)
Definition gen_alloc : AllocCall unit := {|
  ac_ITEM := kind;
  ac_Staged := StagedAlloc S;
  ac_Committed := CommittedAlloc C;
  ac_Collected := X;
  ac_stage _ := gen_stage nargs nrets f;
  ac_commit := gen_commit num rets com;
  ac_collect c :=
    ret ← OutRef_read_words (ca_ret_ref c) (Z.of_nat nrets);
    col (ca_committed c) (dec (nth 0 ret 0));
|}.

(** The allocator at the start of a block, with the terminator reserved. *)
Definition block_alloc (b : block) : Alloc phase.Stage := mkAlloc (b_ptr b) (8 * b_len b - 16) 0.

Lemma data_alloc_block b : data_alloc nargs nrets (body_alloc (block_alloc b)) = request_alloc nargs nrets b.
Proof. unfold data_alloc, request_alloc, body_alloc. simpl. f_equal; lia. Qed.

(** A request staged in block [b], [len] bytes long. *)
Record staged_request (b : block) (argv : list Z) (s : S) (a1 : Alloc phase.Stage) (len : Z)
    (er : InRef) (a' : Alloc phase.Stage) : Prop := {
  sr_f : ∃ a0, f (request_alloc nargs nrets b) = Return (Ok (argv, s), a0) ∧
           a_ptr (request_alloc nargs nrets b) ≤ a_ptr a0 ≤ a_ptr a1 ∧
           good_staged outs (a_ptr (request_alloc nargs nrets b)) (a_ptr a0) com col s;
  sr_argv : argv_ok nargs argv;
  sr_len : a_ptr a1 = b_ptr b + len;
  sr_aligned : a_ptr a1 mod 8 = 0;
  sr_end : in_ptr er = b_ptr b + len;
  sr_fits : b_ptr b + len + 16 ≤ b_ptr b + 8 * b_len b;
  sr_base : a_ptr a' - a_offset a' = b_ptr b;
  sr_off : a_offset a' ≤ 8 * b_len b;
}.

Lemma wp_request b :
  block_wf b →
  wp (reserve_input Header_layout (section (@alloc_call_stage unit gen_alloc tt)))
     (Alloc_stage (Alloc_new b))
    (λ '((st, len), er) a', ∃ argv s a1,
       st = staged_call_at (block_alloc b) a1 (staged_at nargs nrets (body_alloc (block_alloc b)) argv s) ∧
       staged_request b argv s a1 len er a').
Proof.
  intros Hb. change Header_layout with (mkLayout 16 8). do 2 apply wp_bind.
  pose proof (alloc_new_wf b Hb) as Hwf. destruct Hb as [Hp Hl H8 Hm _].
  apply wp_reserve_layout; [done|done|]. intros Hroom.
  assert (Epad : reserve_room (mkLayout 16 8) (Alloc_stage (Alloc_new b)) = block_alloc b).
  { unfold reserve_room, reserve_pad. simpl.
    rewrite (align_offset_0 _ 8), Z.mod_0_l by (done || dlia). unfold block_alloc. f_equal; lia. }
  rewrite Epad in *. apply wp_section; [done|].
  change (mkAlloc (a_ptr (block_alloc b)) (a_len (block_alloc b)) 0) with (block_alloc b).
  apply wp_alloc_call_stage; [done|done|]. intros Hbody.
  apply wp_gen_stage; [done|by apply body_alloc_aligned|]. rewrite data_alloc_block. intros Hd.
  eapply wp_mono; [by apply wp_eqn, Hf|].
  intros [argv s] a0 (Ef & A0 & Hargv & Hg). split; [done|].
  intros a1 A1 Hp1 _. split; [done|]. intros a2 A2 Hle2 H82. split; [done|].
  destruct A2 as [W2 Le2 En2 Of2], A0 as [_ Le0 _ _]. unfold alloc_wf in *. simpl in *.
  split; [split; simpl; unfold alloc_wf; simpl; lia|].
  intros p a' [W' Le' En' Of'] Hle Hal Hpe Hnext. do 2 apply wp_ret. simpl in *.
  unfold alloc_wf in *. rewrite (align_offset_0 _ 8) in Hpe by done.
  exists argv, s, a2. split; [done|]. split; simpl; try lia; try done.
  exists a0. split_and!; (done || lia).
Qed.

(** The request can be staged: the block has room for its fixed part, and the
    body of the call succeeds on what is left. *)
Definition stageable (b : block) : Prop :=
  32 + payload_bytes nargs nrets ≤ 8 * b_len b ∧ succeeds f (request_alloc nargs nrets b).

Lemma succeeds_request b :
  block_wf b → stageable b →
  succeeds (reserve_input Header_layout (section (@alloc_call_stage unit gen_alloc tt)))
    (Alloc_stage (Alloc_new b)).
Proof.
  intros [Hp Hl H8 Hm _] [Hlen Hs]. change Header_layout with (mkLayout 16 8).
  assert (0 ≤ payload_bytes nargs nrets) by (unfold payload_bytes; lia).
  assert (Hwb : alloc_wf (block_alloc b)) by (unfold alloc_wf; simpl; lia).
  assert (Hwd : alloc_wf (request_alloc nargs nrets b)) by (unfold alloc_wf; simpl; lia).
  assert (Hwbody : alloc_wf (body_alloc (block_alloc b))) by (unfold alloc_wf; simpl; lia).
  assert (Hwf : wp f (request_alloc nargs nrets b) (λ _ a0, advances (request_alloc nargs nrets b) a0)).
  { eapply wp_mono; [by apply Hf|]. by intros [argv s] a0 [? _]. }
  assert (Hadv : wp (@alloc_call_stage unit gen_alloc tt) (block_alloc b) (λ _ a', advances (block_alloc b) a')).
  { apply wp_alloc_call_stage; [done|done|]. intros _.
    apply wp_gen_stage; [done|by apply body_alloc_aligned|]. rewrite data_alloc_block. intros _.
    eapply wp_mono; [exact Hwf|]. intros [argv s] a0 A0. split; [done|]. intros a1 A1 _ _. split; [done|].
    intros a2 A2 _ _. done. }
  assert (Hst : succeeds (@alloc_call_stage unit gen_alloc tt) (block_alloc b)).
  { apply succeeds_alloc_call_stage; [done|done|simpl; dlia|simpl; lia|..].
    - apply succeeds_gen_stage; [done|by apply body_alloc_aligned|simpl; lia|by rewrite data_alloc_block..].
    - apply wp_gen_stage; [done|by apply body_alloc_aligned|]. rewrite data_alloc_block. intros _.
      eapply wp_mono; [exact Hwf|]. by intros [argv s] a0 A0. }
  apply succeeds_reserve_input; [unfold alloc_wf; simpl; lia|done|simpl; dlia|done|simpl; lia|..];
    change (mkAlloc _ _ _) with (block_alloc b); [by apply succeeds_section|].
  apply wp_section; [done|]. change (mkAlloc _ _ _) with (block_alloc b) at 1.
  eapply wp_mono; [exact Hadv|]. intros st a' A'. split; [done|].
  destruct A' as [W' ? ? ?]. unfold alloc_wf in *. simpl in *. split; simpl; unfold alloc_wf; simpl; lia.
Qed.

Context (Hpos : (0 < nrets)%nat).
Context {H : Type} `{HandlerLaws H}.

(** What reaches the host: in the world [w1] it is given, the block is one
    item, the item [r] of the call; its data was written by [com]. *)
Record request (w : world H) (argv : list Z) (s : S) (c : C) (r : raw_item) (w1 : world H) : Prop := {
  rq_stage : let a := request_alloc nargs nrets (handler_block_mut (w_self w)) in
    ∃ a0, f a = Return (Ok (argv, s), a0) ∧ a_ptr a0 - a_ptr a ≤ Z.of_nat (length (ri_data r));
  rq_argv : argv_ok nargs argv;
  rq_item : r = call_item kind nargs num argv rets (ri_data r);
  rq_wf : raw_wf r;
  rq_self : w_self w1 = w_self w;
  rq_block : let b := handler_block_mut (w_self w) in
    Block_items (w_mem w1) b = Return [first_item b r] ∧ item_view (w_mem w1) (first_item b r) = r;
  rq_frame : same_except [block_region (handler_block_mut (w_self w))] (w_mem w) (w_mem w1);
  rq_mem : mem_wf (w_mem w) → mem_wf (w_mem w1);
  rq_commit : let b := handler_block_mut (w_self w) in let lo := a_ptr (request_alloc nargs nrets b) in
    ∃ m m', com s m = Return (c, m') ∧ same_outside (b_ptr b) lo (w_mem w) m ∧
      same_in lo (lo + Z.of_nat (length (ri_data r))) m' (w_mem w1);
  rq_collect : ∀ ret m, ∃ y m', col c ret m = Return (y, m') ∧ same_except outs m m';
}.

(** The host is called, then the result is decoded from the return word. *)
Definition reply (b : block) (c : C) (w1 : world H) : outcome (result X * world H) :=
  '(x, w2) ← sally w1;
  match x with
  | Err e => Return (Err e, w2)
  | Ok _ =>
      '(y, m) ← col c (dec (read_usize (w_mem w2) (b_ptr b + 24 + 8 * Z.of_nat nargs))) (w_mem w2);
      Return (Ok y, mkWorld (w_self w2) m)
  end.

Lemma collect_ret_word r c m :
  (ret ← OutRef_read_words r (Z.of_nat nrets); col c (dec (nth 0 ret 0))) m =
  col c (dec (read_usize m (out_ptr r))) m.
Proof.
  unfold mbind, ioM_bind, io_bind, OutRef_read_words. simpl.
  by rewrite read_words_cons by lia.
Qed.

(** The committed request, given what staging established. *)
Lemma commit_request b argv s a1 len er a' m :
  block_wf b → staged_request b argv s a1 len er a' →
  let st := staged_call_at (block_alloc b) a1 (staged_at nargs nrets (body_alloc (block_alloc b)) argv s) in
  ∃ c m1 m', @alloc_call_commit unit gen_alloc st m = Return (c, m') ∧
    com s m1 = Return (ca_committed c, m') ∧
    same_outside (b_ptr b) (a_ptr (request_alloc nargs nrets b)) m m1 ∧
    same_outside (b_ptr b) (b_ptr b + len) m m' ∧ (mem_wf m → mem_wf m') ∧
    out_ptr (ca_ret_ref c) = b_ptr b + 24 + 8 * Z.of_nat nargs ∧
    (∀ ret m, ∃ y m', col (ca_committed c) ret m = Return (y, m') ∧ same_except outs m m') ∧
    ∃ data, let r := call_item kind nargs num argv rets data in
      holds m' (b_ptr b) (encode_item r) ∧ raw_wf r ∧ 16 + raw_size r = len.
Proof.
  intros Hb [(a0 & Ef & [Hlo Hhi] & Hg) Hargv Hlen H8 He Hfit _ _] st.
  destruct Hb as [Hp Hl Hb8 Hm _].
  destruct (gen_encodes kind nargs nrets num rets com (block_alloc b) a1 argv s) with (m := m)
    as (c & m1 & m' & Ec & Es & Hs1 & Hw1 & Hs2 & Hr & Hh & Hwf & Hsz); try done; simpl in *; try lia.
  { intros m1. destruct (Hg m1) as (c & m2 & Ec & Hs & _). exists c, m2. split; [done|].
    by eapply same_outside_weaken, Hs. }
  exists c, m1, m'. rewrite <- Hlen. split_and!; try done.
  - intros Hmw. destruct (Hg m1) as (c' & m2' & Ec' & _ & Hw2 & _).
    assert (m2' = m') as -> by congruence. auto.
  - intros ret m2. destruct (Hg m1) as (c' & m2' & Ec' & _ & _ & Hcol).
    assert (c' = ca_committed c) as -> by congruence.
    destruct (Hcol ret m2) as (y & m3 & E & Hs & _). by exists y, m3.
  - eexists. split_and!; [exact Hh|exact Hwf|]. lia.
Qed.

Lemma execute_request (w : world H) :
  (¬ stageable (handler_block_mut (w_self w)) ∧
   ∃ e, @execute H unit _ (@alloc_call unit gen_alloc) tt w = Return (Err e, w)) ∨
  ∃ argv s c r w1, request w argv s c r w1 ∧
    @execute H unit _ (@alloc_call unit gen_alloc) tt w = reply (handler_block_mut (w_self w)) c w1.
Proof.
  set (b := handler_block_mut (w_self w)). pose proof (hl_wf (w_self w)) as Hb. fold b in Hb.
  pose proof (wp_request b Hb) as Hst. pose proof (succeeds_request b Hb) as Hok.
  unfold execute. fold b. cbn [call_stage alloc_call]. unfold wp in Hst. unfold succeeds at 1 in Hok.
  destruct (reserve_input _ _ _) as [[[[[st len] er]|e] a']| | |]; try done.
  2: { left. split; [|by exists e]. by intros (? & ? & ?)%Hok. }
  right. destruct Hst as (argv & s & a1 & -> & Hsr).
  destruct (commit_request b argv s a1 len er a' (w_mem w) Hb Hsr)
    as (c & m1 & m' & Ec & Es & Hs1 & Hs2 & Hw & Hr & Hcol & data & Hh & Hwf & Hsz).
  set (r := call_item kind nargs num argv rets data) in *.
  destruct Hsr as [(a0 & Ef & [Hlo Hhi] & _) Hargv Hlen H8 He Hfit Hbase Hoff].
  set (m2 := write_bytes m' (in_ptr er) end_header).
  exists argv, s, (ca_committed c), r, (mkWorld (w_self w) m2).
  assert (Lr : raw_size r = payload_bytes nargs nrets + Z.of_nat (length data)).
  { unfold raw_size, r, call_item, payload_bytes. cbn [ri_payload ri_data].
    rewrite length_call_payload by apply Hargv. lia. }
  assert (0 ≤ payload_bytes nargs nrets) by (unfold payload_bytes; lia).
  assert (Hse : same_outside (b_ptr b + len) (b_ptr b + len + 16) m' m2).
  { unfold m2. rewrite He. apply (write_bytes_frame m' _ end_header). }
  split.
  - split; fold b; try done.
    + exists a0. split; [done|]. cbn [ri_data call_item r]. simpl in *. lia.
    + by apply one_item; [..|rewrite He; lia|rewrite He; lia].
    + transitivity m'; (eapply same_outside_block; [| |eassumption]); lia.
    + intros Hm. apply write_bytes_wf; [by apply Hw|apply words_to_bytes_wf].
    + exists m1, m'. split_and!; [done|done|]. intros x Hx. simpl in *. apply Hse.
      cbn [ri_data call_item r] in Hx. lia.
  - cbn [mbind outcome_bind].
    assert (Ec' : @call_commit unit (@alloc_call unit gen_alloc)
      (staged_call_at (block_alloc b) a1
        (staged_at nargs nrets (body_alloc (block_alloc b)) argv s)) (w_mem w) = Return (c, m')) by exact Ec.
    rewrite Ec'.
    cbn [mbind outcome_bind].
    rewrite (proj2 (Z.ltb_lt 0 len)) by lia.
    cbn [mbind outcome_bind InRef_copy_from]. unfold reply.
    change (write_bytes m' (in_ptr er) _) with m2.
    destruct (sally (mkWorld (w_self w) m2)) as [[[u|e] w2]| | |] eqn:Esl; try done.
    cbn [mbind outcome_bind]. destruct (hl_sally _ _ _ Esl) as (Hb2 & _ & _).
    simpl in Hb2. fold b in Hb2. rewrite hl_block, Hb2.
    destruct (Alloc_sally_ok Hbase Hoff) as [c' ->]. cbn [call_collect alloc_call ac_collect gen_alloc].
    by rewrite collect_ret_word, Hr.
Qed.

End request.

(** ** The families *)

Section families.
Context {H : Type} `{HandlerLaws H}.

Lemma rets_usize : Forall is_usize [as_usize (- ENOSYS); 0].
Proof. apply Forall_cons_2; [apply as_usize_range|]. apply Forall_singleton. unfold is_usize, usize_MAX. lia. Qed.

(** The request of a system call. *)
Definition syscall_request {T : Type} `{SyscallLaws T} (call : T) :=
  request (H := H) Syscall 6 2 sc_NUM [as_usize (- ENOSYS); 0] (sc_stage call) sc_commit sc_collect
    (sl_outs call).
Definition syscall_reply {T : Type} `{SyscallAlloc T} := reply (H := H) 6 sc_collect sc_ret.

Lemma execute_syscall_gen {T : Type} `{SyscallAlloc T} (call : T) (w : world H) :
  execute call w =
  @execute H unit _ (@alloc_call unit (gen_alloc Syscall 6 2 sc_NUM [as_usize (- ENOSYS); 0]
    (sc_stage call) sc_commit sc_collect sc_ret)) tt w.
Proof.
  unfold execute. cbn [call_stage call_commit call_collect alloc_call].
  change (alloc_call_stage call) with (@alloc_call_stage unit (gen_alloc Syscall 6 2 sc_NUM
    [as_usize (- ENOSYS); 0] (sc_stage call) sc_commit sc_collect sc_ret) tt).
  reflexivity.
Qed.

Definition syscall_stageable {T : Type} `{SyscallAlloc T} (call : T) : block → Prop :=
  stageable 6 2 (sc_stage call).
Definition number_stageable {T : Type} `{NumberAlloc T} (call : T) : block → Prop :=
  stageable 4 1 (nc_stage call).

Lemma execute_syscall {T : Type} `{SyscallLaws T} (call : T) (w : world H) :
  sl_ok call →
  (¬ syscall_stageable call (handler_block_mut (w_self w)) ∧ ∃ e, execute call w = Return (Err e, w)) ∨
  ∃ argv s c r w1, syscall_request call w argv s c r w1 ∧
    execute call w = syscall_reply (handler_block_mut (w_self w)) c w1.
Proof.
  intros Hok. pose proof (execute_syscall_gen call w) as E.
  pose proof (λ a Hwf, sl_law call a Hok Hwf) as Hf.
  destruct (execute_request Syscall 6 2 sc_NUM _ (sc_stage call) sc_commit sc_collect sc_ret (sl_outs call)
    (ltac:(done)) eq_refl rets_usize eq_refl Hf (Nat.lt_0_succ 1) w)
    as [[Hn [e Hx]]|(argv & s & c & r & w1 & Hr & Hx)].
  - left. split; [exact Hn|]. exists e. exact (eq_trans E Hx).
  - right. exists argv, s, c, r, w1. split; [exact Hr|exact (eq_trans E Hx)].
Qed.

(** The request of a GDB or Enarx call. *)
Definition number_request {T : Type} `{NumberLaws T} (call : T) :=
  request (H := H) nc_ITEM 4 1 nc_NUM [as_usize (- ENOSYS)] (nc_stage call) nc_commit nc_collect
    (nl_outs call).
Definition number_reply {T : Type} `{NumberAlloc T} := reply (H := H) 4 nc_collect nc_ret.

Lemma execute_number_gen {T : Type} `{NumberAlloc T} (call : T) (w : world H) :
  execute call w =
  @execute H unit _ (@alloc_call unit (gen_alloc nc_ITEM 4 1 nc_NUM [as_usize (- ENOSYS)]
    (nc_stage call) nc_commit nc_collect nc_ret)) tt w.
Proof.
  unfold execute. cbn [call_stage call_commit call_collect alloc_call].
  change (alloc_call_stage call) with (@alloc_call_stage unit (gen_alloc nc_ITEM 4 1 nc_NUM
    [as_usize (- ENOSYS)] (nc_stage call) nc_commit nc_collect nc_ret) tt).
  reflexivity.
Qed.

Lemma execute_number {T : Type} `{NumberLaws T} (call : T) (w : world H) :
  nl_ok call →
  (¬ number_stageable call (handler_block_mut (w_self w)) ∧ ∃ e, execute call w = Return (Err e, w)) ∨
  ∃ argv s c r w1, number_request call w argv s c r w1 ∧
    execute call w = number_reply (handler_block_mut (w_self w)) c w1.
Proof.
  intros Hok. pose proof (execute_number_gen call w) as E.
  pose proof (λ a Hwf, nl_law call a Hok Hwf) as Hf.
  assert (Hk : nc_ITEM ≠ End_) by by destruct nl_kind as [-> | ->].
  assert (Hc : USIZE_COUNT nc_ITEM = 1 + Z.of_nat 4 + Z.of_nat 1) by by destruct nl_kind as [-> | ->].
  assert (Hr : Forall is_usize [as_usize (- ENOSYS)]) by apply Forall_singleton, as_usize_range.
  destruct (execute_request nc_ITEM 4 1 nc_NUM _ (nc_stage call) nc_commit nc_collect nc_ret (nl_outs call)
    Hk Hc Hr eq_refl Hf (Nat.lt_0_succ 0) w) as [[Hn [e Hx]]|(argv & s & c & r & w1 & Hrq & Hx)].
  - left. split; [exact Hn|]. exists e. exact (eq_trans E Hx).
  - right. exists argv, s, c, r, w1. split; [exact Hrq|exact (eq_trans E Hx)].
Qed.

End families.

(** ** The request on the wire *)

Section sent.
Context {H : Type} `{HandlerLaws H}.

(** [w1] is [w] with the block holding one item, [r]; nothing else changed. *)
Record sent (w : world H) (r : raw_item) (w1 : world H) : Prop := {
  sent_self : w_self w1 = w_self w;
  sent_frame : same_except [block_region (handler_block_mut (w_self w))] (w_mem w) (w_mem w1);
  sent_items : let b := handler_block_mut (w_self w) in
    Block_items (w_mem w1) b = Return [first_item b r] ∧ item_view (w_mem w1) (first_item b r) = r;
  sent_wf : raw_wf r;
  sent_mem : mem_wf (w_mem w) → mem_wf (w_mem w1);
}.

Lemma sent_holds (w w1 : world H) r :
  sent w r w1 →
  holds (w_mem w1) (b_ptr (handler_block_mut (w_self w)) + 16 + 8 * USIZE_COUNT (ri_kind r)) (ri_data r).
Proof. intros Hs. exact (f_equal ri_data (proj2 (sent_items _ _ _ Hs))). Qed.

(** The host is called in [w1]; an error of the handler is returned, otherwise
    [k] goes on with the word the host left at [offset] in the block. *)
Definition answered {X : Type} (w1 : world H) (offset : Z)
    (k : Z → world H → outcome (result X * world H)) : outcome (result X * world H) :=
  '(x, w2) ← sally w1;
  match x with
  | Err e => Return (Err e, w2)
  | Ok _ => k (read_usize (w_mem w2) (b_ptr (handler_block_mut (w_self w1)) + offset)) w2
  end.

(** [collect] on the memory of [w2]. *)
Definition collected {X : Type} (f : ioM X) (w2 : world H) : outcome (result X * world H) :=
  '(y, m) ← f (w_mem w2); Return (Ok y, mkWorld (w_self w2) m).

(** The item of a system call: [-ENOSYS] is what it returns if the host leaves
    it alone. *)
Definition syscall_item (num : Z) (argv data : list Z) : raw_item :=
  call_item Syscall 6 num argv [as_usize (- ENOSYS); 0] data.
Definition number_item (kind : Kind) (num : Z) (argv data : list Z) : raw_item :=
  call_item kind 4 num argv [as_usize (- ENOSYS)] data.

(** A system call whose body stages as [argv] and [s] is sent. *)
Lemma execute_staged {T : Type} `{SyscallLaws T} (call : T) (w : world H) argv s a0 :
  let b := handler_block_mut (w_self w) in
  sl_ok call → 13 ≤ b_len b → sc_stage call (request_alloc 6 2 b) = Return (Ok (argv, s), a0) →
  ∃ c data w1, sent w (syscall_item sc_NUM argv data) w1 ∧
    (∃ m m', sc_commit s m = Return (c, m') ∧ same_outside (b_ptr b) (b_ptr b + 88) (w_mem w) m ∧
      same_in (b_ptr b + 88) (b_ptr b + 88 + Z.of_nat (length data)) m' (w_mem w1)) ∧
    a_ptr a0 - (b_ptr b + 88) ≤ Z.of_nat (length data) ∧
    execute call w = syscall_reply b c w1.
Proof.
  intros b Hok Hlen Hs. destruct (execute_syscall call w Hok) as [[Hn _]|(argv' & s' & c & r & w1 & Hr & Hx)].
  { destruct Hn. split; [|by exists (argv, s), a0]. fold b. unfold payload_bytes. simpl. lia. }
  destruct Hr as [(a0' & Es & Hle) _ Hi Hwf Hself Hblk Hfr Hmw (m & m' & Hc & Hm & Hin) _].
  fold b in Es, Hle, Hblk, Hfr, Hm, Hin.
  rewrite Hs in Es. injection Es as <- <- <-.
  exists c, (ri_data r), w1. unfold syscall_item. rewrite <- Hi.
  change (a_ptr (request_alloc 6 2 b)) with (b_ptr b + 16 + 72) in *.
  replace (b_ptr b + 16 + 72) with (b_ptr b + 88) in * by lia.
  split; [split; done|]. split; [by exists m, m'|]. done.
Qed.

End sent.
