(* ===== verification/HandlerCalls.v ===== *)
(** * The methods of the guest handler

    [crates/sallyport/src/guest/handler.rs]: one method per supported call,
    and [syscall], which dispatches the registers of a trapped [syscall]
    instruction.  Memory management and [arch_prctl] are required methods,
    implemented by each shim. *)

From S2P Require Import Prelude Memory Libc PhaseAlloc StagedValues Items Calls CallLaws StageKit.
From S2P Require Import SockTypes Syscalls Stubs SyscallLaws NumberCalls Platform Handler.

(** [guest/tls.rs]: a [sigaction] is four words. *)
Definition SIGRTMAX : Z := 64.
Definition sigaction : Layout := array 4 ty_u64.
Record ThreadLocalStorage : Type := mkTLS { actions : list (option (list Z)) }.
Definition ThreadLocalStorage_new : ThreadLocalStorage := mkTLS (repeat None (Z.to_nat SIGRTMAX)).

(** The rest of the [Handler] trait: [thread_local_storage] as a pair of
    accessors, the required system calls, and the outcomes of [RDRAND]. *)
Class HandlerOS (H : Type) := {
  os_handler :: Handler H;
  thread_local_storage : H → ThreadLocalStorage;
  set_thread_local_storage : H → ThreadLocalStorage → H;
  arch_prctl : Z → Z → handlerM H unit;
  brk : option Z → handlerM H Z;
  madvise : Z → Z → Z → handlerM H unit;
  mmap : option Z → Z → Z → Z → Z → Z → handlerM H Z;
  mprotect : Z → Z → Z → handlerM H unit;
  munmap : Z → Z → handlerM H unit;
  rdrand : H → Z → nat * Z;
}.

(** What the methods of this file ask of a handler. *)
Class HandlerOSLaws (H : Type) `{HandlerOS H} := {
  hos_handler :: HandlerLaws H;
  hos_returns :: HandlerReturns H;
  hos_get : ∀ (h : H) t, thread_local_storage (set_thread_local_storage h t) = t;
  hos_block : ∀ (h : H) t, handler_block_mut (set_thread_local_storage h t) = handler_block_mut h;
}.

(** One slot per signal; an installed action has four words. *)
Definition tls_wf (t : ThreadLocalStorage) : Prop :=
  length (actions t) = Z.to_nat SIGRTMAX ∧
  Forall (λ o, match o with Some a => length a = 4%nat | None => True end) (actions t).

(** [NonNull::new] *)
Definition NonNull_new (addr : Z) : option Z := if addr =? 0 then None else Some addr.

Module handler.

Section handler.
Context {H : Type} `{Handler H}.

(** [self.execute(call)?]: the error of [execute] or the collected result;
    [self.execute(call)?.unwrap_or_else(|| self.attacked())] for the calls whose
    reply is checked. *)

Definition accept (sockfd : Z) (addr : option SockaddrOutput) : handlerM H Z :=
  r ← execute (mkAccept sockfd addr); try r.
Definition accept4 (sockfd : Z) (addr : option SockaddrOutput) (flags : Z) : handlerM H Z :=
  r ← execute (mkAccept4 sockfd addr flags); try r.
Definition bind (sockfd : Z) (addr : SockaddrInput) : handlerM H unit :=
  r ← execute (mkBind sockfd addr); try r.
Definition clock_getres (clockid : Z) (res : option gref) : handlerM H unit :=
  r ← execute (mkClockGetres clockid res); try r.
Definition clock_gettime (clockid : Z) (tp : gref) : handlerM H unit :=
  r ← execute (mkClockGettime clockid tp); try r.
Definition close (fd : Z) : handlerM H unit :=
  r ← execute (mkClose fd); try r.
Definition connect (sockfd : Z) (addr : SockaddrInput) : handlerM H unit :=
  r ← execute (mkConnect sockfd addr); try r.
Definition dup (oldfd : Z) : handlerM H unit :=
  r ← execute (mkDup oldfd); try r.
Definition dup2 (oldfd : Z) (newfd : Z) : handlerM H unit :=
  r ← execute (mkDup2 oldfd newfd); try r.
Definition dup3 (oldfd : Z) (newfd : Z) (flags : Z) : handlerM H unit :=
  r ← execute (mkDup3 oldfd newfd flags); try r.
Definition epoll_create1 (flags : Z) : handlerM H Z :=
  r ← execute (mkEpollCreate1 flags); try r.
Definition epoll_ctl (epfd : Z) (op : Z) (fd : Z) (event : gref) : handlerM H unit :=
  r ← execute (mkEpollCtl epfd op fd event); try r.
Definition epoll_wait (epfd : Z) (events : gref) (timeout : Z) : handlerM H Z :=
  r ← execute (mkEpollWait epfd events timeout); unwrap_or_attacked r.
Definition epoll_pwait (epfd : Z) (events : gref) (timeout : Z) (sigmask : gref) : handlerM H Z :=
  r ← execute (mkEpollPwait epfd events timeout sigmask); unwrap_or_attacked r.
Definition eventfd2 (initval : Z) (flags : Z) : handlerM H Z :=
  r ← execute (mkEventfd2 initval flags); try r.

(** [self.execute(..)??; self.attacked()] *)
Definition exit (status : Z) : handlerM H unit :=
  r ← execute (mkExit status); _ ← try r; unwrap_or_attacked None.
Definition exit_group (status : Z) : handlerM H unit :=
  r ← execute (mkExitGroup status); _ ← try r; unwrap_or_attacked None.

Definition fcntl (fd : Z) (cmd : Z) (arg : Z) : handlerM H Z :=
  r ← execute (mkFcntl fd cmd arg); try r.
Definition fstat (fd : Z) (statbuf : gref) : handlerM H unit :=
  r ← execute (mkFstat fd statbuf); try r.
Definition getegid : handlerM H Z :=
  r ← execute (mkGetegid); mret r.
Definition geteuid : handlerM H Z :=
  r ← execute (mkGeteuid); mret r.
Definition getgid : handlerM H Z :=
  r ← execute (mkGetgid); mret r.
Definition getpid : handlerM H Z :=
  r ← execute (mkGetpid); mret r.
Definition getsockname (sockfd : Z) (addr : SockaddrOutput) : handlerM H unit :=
  r ← execute (mkGetsockname sockfd addr); try r.
Definition getuid : handlerM H Z :=
  r ← execute (mkGetuid); mret r.
Definition ioctl (fd : Z) (request : Z) (argp : option gref) : handlerM H Z :=
  r ← execute (mkIoctl fd request argp); try r.
Definition listen (sockfd : Z) (backlog : Z) : handlerM H unit :=
  r ← execute (mkListen sockfd backlog); try r.
Definition nanosleep (req : gref) (rem : option gref) : handlerM H unit :=
  r ← execute (mkNanosleep req rem); try r.
Definition open (pathname : gref) (flags : Z) (mode : option Z) : handlerM H Z :=
  r ← execute (mkOpen pathname flags mode); try r.
Definition poll (fds : gref) (timeout : Z) : handlerM H Z :=
  r ← execute (mkPoll fds timeout); unwrap_or_attacked r.
Definition read (fd : Z) (buf : gref) : handlerM H Z :=
  r ← execute (mkRead fd buf); unwrap_or_attacked r.
Definition readlink (pathname : gref) (buf : gref) : handlerM H Z :=
  r ← execute (mkReadlink pathname buf); unwrap_or_attacked r.
Definition readv (fd : Z) (iovs : list gref) : handlerM H Z :=
  r ← execute (mkReadv fd iovs); unwrap_or_attacked r.
Definition recv (sockfd : Z) (buf : gref) (flags : Z) : handlerM H Z :=
  r ← execute (mkRecv sockfd buf flags); unwrap_or_attacked r.
Definition recvfrom (sockfd : Z) (buf : gref) (flags : Z) (src_addr : SockaddrOutput) : handlerM H Z :=
  r ← execute (mkRecvfrom sockfd buf flags src_addr); unwrap_or_attacked r.
Definition rt_sigprocmask (how : Z) (set : option gref) (oldset : option gref) (sigsetsize : Z) : handlerM H unit :=
  r ← execute (mkRtSigprocmask how set oldset sigsetsize); try r.
Definition send (sockfd : Z) (buf : gref) (flags : Z) : handlerM H Z :=
  r ← execute (mkSend sockfd buf flags); unwrap_or_attacked r.
Definition sendto (sockfd : Z) (buf : gref) (flags : Z) (dest_addr : SockaddrInput) : handlerM H Z :=
  r ← execute (mkSendto sockfd buf flags dest_addr); unwrap_or_attacked r.
Definition setsockopt (sockfd : Z) (level : Z) (optname : Z) (optval : option SockoptInput) : handlerM H Z :=
  r ← execute (mkSetsockopt sockfd level optname optval); try r.
Definition set_tid_address (tidptr : gref) : handlerM H Z :=
  r ← execute (mkSetTidAddress tidptr); mret r.
Definition sigaltstack (ss : option gref) (old_ss : option gref) : handlerM H unit :=
  r ← execute (mkSigaltstack ss old_ss); try r.
Definition socket (domain : Z) (typ : Z) (protocol : Z) : handlerM H Z :=
  r ← execute (mkSocket domain typ protocol); try r.
Definition sync : handlerM H unit :=
  r ← execute (mkSync); try r.
Definition uname (buf : gref) : handlerM H unit :=
  r ← execute (mkUname buf); try r.
Definition write (fd : Z) (buf : gref) : handlerM H Z :=
  r ← execute (mkWrite fd buf); unwrap_or_attacked r.
Definition writev (fd : Z) (iovs : list gref) : handlerM H Z :=
  r ← execute (mkWritev fd iovs); unwrap_or_attacked r.

(** GDB calls *)
Definition gdb_flush : handlerM H unit :=
  r ← execute (gdb.mkFlush); try r.
Definition gdb_on_session_start : handlerM H unit :=
  r ← execute (gdb.mkOnSessionStart); try r.
Definition gdb_peek : handlerM H (option Z) :=
  r ← execute (gdb.mkPeek); try r.
Definition gdb_read : handlerM H Z :=
  r ← execute (gdb.mkRead); try r.
Definition gdb_write (byte : Z) : handlerM H unit :=
  r ← execute (gdb.mkWrite byte); try r.
Definition gdb_write_all (buf : gref) : handlerM H Z :=
  r ← execute (gdb.mkWriteAll buf); unwrap_or_attacked r.

(** Enarx calls *)
Definition balloon_memory (size_exponent : Z) (pages : Z) (addr : Z) : handlerM H Z :=
  r ← execute (enarx.mkBalloonMemory size_exponent pages addr); try r.
Definition cpuid (leaf : Z) (sub_leaf : Z) (res : gref) : handlerM H unit :=
  r ← execute (enarx.mkCpuid leaf sub_leaf res); try r.
Definition get_sgx_quote (report : gref) (quote : gref) : handlerM H Z :=
  r ← execute (enarx.mkGetSgxQuote report quote); unwrap_or_attacked r.
Definition get_sgx_quote_size : handlerM H Z :=
  r ← execute (enarx.mkGetSgxQuoteSize); try r.
Definition get_sgx_target_info (info : gref) : handlerM H unit :=
  r ← execute (enarx.mkGetSgxTargetInfo info); try r.
Definition get_snp_vcek (vcek : gref) : handlerM H Z :=
  r ← execute (enarx.mkGetSnpVcek vcek); unwrap_or_attacked r.
Definition mem_info : handlerM H Z :=
  r ← execute (enarx.mkMemInfo); try r.
Definition mmap_host (addr : Z) (length : Z) (prot : Z) : handlerM H unit :=
  r ← execute (enarx.mkMmapHost addr length prot); try r.
Definition mprotect_host (addr : Z) (length : Z) (prot : Z) : handlerM H unit :=
  r ← execute (enarx.mkMprotectHost addr length prot); try r.
Definition munmap_host (addr : Z) (length : Z) : handlerM H unit :=
  r ← execute (enarx.mkMunmapHost addr length); try r.
Definition trim_sgx_pages (addr : Z) (length : Z) : handlerM H unit :=
  r ← execute (enarx.mkTrimSgxPages addr length); try r.

End handler.

(** ** Methods with a body of their own *)

Section bodies.
Context {H : Type} `{HandlerOS H}.

Definition getrandom (buf : gref) (flags : Z) : handlerM H Z := λ w,
  (r ← execute (mkGetrandom buf flags (rdrand (w_self w))); try r) w.

(** [rt_sigaction]; [oldact] tells whether the caller passed a place for the
    old action, whose new value is returned. *)
Definition rt_sigaction (signum : Z) (act : option gref) (oldact : bool) (sigsetsize : Z)
    : handlerM H (option (list Z)) := λ w,
  if (SIGRTMAX <=? signum) || negb (sigsetsize =? 8) then Return (Err EINVAL, w)
  else
    let tls := thread_local_storage (w_self w) in
    let index := as_usize signum in
    let in_range := index <? Z.of_nat (length (actions tls)) in
    old ← (if oldact then
             if in_range then Return (nth (Z.to_nat index) (actions tls) None) else Panicked
           else Return None);
    match act with
    | None => Return (Ok old, w)
    | Some act =>
        if in_range then
          let new := Some (read_words (w_mem w) (g_ptr act) 4) in
          let tls := mkTLS (<[Z.to_nat index := new]> (actions tls)) in
          Return (Ok old, mkWorld (set_thread_local_storage (w_self w) tls) (w_mem w))
        else Panicked
    end.

(** [let _ = self.f(..)] *)
Definition ignore {A : Type} (m : handlerM H A) : handlerM H unit := λ w,
  '(_, w) ← m w; Return (Ok (), w).

(** [dest.copy_from_slice(src)]; the lengths must agree. *)
Definition copy_from_slice (dest src : gref) : handlerM H unit := λ w,
  if negb (g_len dest =? g_len src) then Panicked
  else Return (Ok (), mkWorld (w_self w) (write_bytes (w_mem w) (g_ptr dest) (borrow src (w_mem w)))).

Definition mremap `{Platform} (old_address old_size new_size : Z) (flags : option MremapFlags)
    : handlerM H Z :=
  match flags with
  | None => if new_size =? old_size then mret old_address else try (Err ENOTSUP)
  | Some (mkMremapFlags (Some _) _) => try (Err ENOTSUP)
  | Some (mkMremapFlags None DONTUNMAP) =>
      if new_size =? old_size then mret old_address
      else if negb DONTUNMAP && (new_size <? old_size) then
        source_slice ← try (validate_slice ty_u8 old_address old_size);
        addr ← must (if new_size <? g_len source_slice then Return (g_ptr source_slice + new_size)
                     else Panicked);
        addr ← try (ok_or (NonNull_new addr) EINVAL);
        length ← try (ok_or (checked_sub old_size new_size) EINVAL);
        _ ← ignore (munmap addr length);
        mret old_address
      else if old_size <? new_size then
        source_slice ← try (validate_slice ty_u8 old_address old_size);
        let prot := Z.lor (Z.lor PROT_WRITE PROT_EXEC) PROT_READ in
        new_addr ← mmap None new_size prot (Z.lor MAP_PRIVATE MAP_ANONYMOUS) (-1) 0;
        _ ← copy_from_slice (mkGref new_addr old_size 1) source_slice;
        _ ← (if negb DONTUNMAP then ignore (munmap old_address old_size) else mret ());
        mret new_addr
      else try (Err ENOTSUP)
  end.

End bodies.

End handler.
