(* ===== verification/Dispatch.v ===== *)
(** * Dispatch of a trapped system call

    [Handler::syscall] of [crates/sallyport/src/guest/handler.rs]: the number
    and six argument registers of a [syscall] instruction are validated and
    passed to the method of the same name.  One definition per arm, then the
    [match]. *)

From S2P Require Import Prelude Memory Libc PhaseAlloc StagedValues Items Calls CallLaws StageKit.
From S2P Require Import SockTypes Syscalls Stubs SyscallLaws NumberCalls Platform Handler HandlerCalls.

Section dispatch.
Context {H : Type} `{HandlerOS H, Platform}.

(** The registers returned to the caller. *)
Definition regs : Type := Z * Z.
Definition arm : Type := handlerM H regs.

(** [.map(|_| [0, 0])], [.map(|ret| [ret, 0])], [.map(|ret| [ret as _, 0])] *)
Definition ret_unit (m : handlerM H unit) : arm := _ ← m; mret (0, 0).
Definition ret_usize (m : handlerM H Z) : arm := ret ← m; mret (ret, 0).
Definition ret_as (m : handlerM H Z) : arm := ret ← m; mret (as_usize ret, 0).

(** [if p == 0 { None } else { f(p).map(Some)? }] *)
Definition optional {A : Type} (p : Z) (f : Z → result A) : handlerM H (option A) :=
  if p =? 0 then mret None else x ← try (f p); mret (Some x).

(** Validation that reads guest memory. *)
Definition with_mem {A : Type} (f : mem → result A) : handlerM H A := λ w, Return (f (w_mem w), w).
Definition with_mem_loop {A : Type} (f : mem → outcome (result A)) : handlerM H A := λ w,
  r ← f (w_mem w); Return (r, w).

(** [*r = words] *)
Definition store_words (r : gref) (ws : list Z) : handlerM H unit := λ w,
  Return (Ok (), mkWorld (w_self w) (write_bytes (w_mem w) (g_ptr r) (words_to_bytes ws))).

(** The socket address arguments of [accept], [accept4]. *)
Definition optional_sockaddr (addr addrlen : Z) : handlerM H (option SockaddrOutput) :=
  if addr =? 0 then mret None
  else a ← with_mem (λ m, validate_sockaddr_output m addr addrlen); mret (Some a).

Definition sys_accept (sockfd addr addrlen : Z) : arm :=
  addr ← optional_sockaddr addr addrlen;
  ret_as (handler.accept (as_c_int sockfd) addr).
Definition sys_accept4 (sockfd addr addrlen flags : Z) : arm :=
  addr ← optional_sockaddr addr addrlen;
  ret_as (handler.accept4 (as_c_int sockfd) addr (as_c_int flags)).
Definition sys_arch_prctl (code addr : Z) : arm := ret_unit (arch_prctl (as_c_int code) addr).
Definition sys_bind (sockfd addr addrlen : Z) : arm :=
  addr ← try (validate_slice ty_u8 addr addrlen);
  ret_unit (handler.bind (as_c_int sockfd) (mkSockaddrInput addr)).
Definition sys_brk (addr : Z) : arm := ret_usize (brk (NonNull_new addr)).
Definition sys_clock_getres (clockid res : Z) : arm :=
  res ← optional res (validate_mut timespec);
  ret_unit (handler.clock_getres (as_c_int clockid) res).
Definition sys_clock_gettime (clockid tp : Z) : arm :=
  tp ← try (validate_mut timespec tp);
  ret_unit (handler.clock_gettime (as_c_int clockid) tp).
Definition sys_close (fd : Z) : arm := ret_unit (handler.close (as_c_int fd)).
Definition sys_connect (sockfd addr addrlen : Z) : arm :=
  addr ← try (validate_slice ty_u8 addr addrlen);
  ret_unit (handler.connect (as_c_int sockfd) (mkSockaddrInput addr)).
Definition sys_dup (oldfd : Z) : arm := ret_unit (handler.dup (as_c_int oldfd)).
Definition sys_dup2 (oldfd newfd : Z) : arm := ret_unit (handler.dup2 (as_c_int oldfd) (as_c_int newfd)).
Definition sys_dup3 (oldfd newfd flags : Z) : arm :=
  ret_unit (handler.dup3 (as_c_int oldfd) (as_c_int newfd) (as_c_int flags)).
Definition sys_epoll_create1 (flags : Z) : arm := ret_as (handler.epoll_create1 (as_c_int flags)).
Definition sys_epoll_ctl (epfd op fd event : Z) : arm :=
  event ← try (validate epoll_event event);
  ret_unit (handler.epoll_ctl (as_c_int epfd) (as_c_int op) (as_c_int fd) event).
Definition sys_epoll_pwait (epfd events maxevents timeout sigmask : Z) : arm :=
  events ← try (validate_slice_mut epoll_event events maxevents);
  ret_as (if sigmask =? 0 then handler.epoll_wait (as_c_int epfd) events (as_c_int timeout)
          else
            sigmask ← try (validate sigset_t sigmask);
            handler.epoll_pwait (as_c_int epfd) events (as_c_int timeout) sigmask).
Definition sys_epoll_wait (epfd events maxevents timeout : Z) : arm :=
  events ← try (validate_slice_mut epoll_event events maxevents);
  ret_as (handler.epoll_wait (as_c_int epfd) events (as_c_int timeout)).
Definition sys_eventfd2 (initval flags : Z) : arm :=
  ret_as (handler.eventfd2 (as_c_int initval) (as_c_int flags)).
Definition sys_exit (status : Z) : arm := _ ← handler.exit (as_c_int status); unwrap_or_attacked None.
Definition sys_exit_group (status : Z) : arm :=
  _ ← handler.exit_group (as_c_int status); unwrap_or_attacked None.
Definition sys_fcntl (fd cmd arg : Z) : arm :=
  ret_as (handler.fcntl (as_c_int fd) (as_c_int cmd) (as_c_int arg)).
Definition sys_fstat (fd statbuf : Z) : arm :=
  statbuf ← try (validate_mut stat statbuf);
  ret_unit (handler.fstat (as_c_int fd) statbuf).
Definition sys_getrandom (buf buflen flags : Z) : arm :=
  buf ← try (validate_slice_mut ty_u8 buf buflen);
  ret_as (handler.getrandom buf (as_u32 flags)).
Definition sys_getsockname (sockfd addr addrlen : Z) : arm :=
  addr ← with_mem (λ m, validate_sockaddr_output m addr addrlen);
  ret_unit (handler.getsockname (as_c_int sockfd) addr).
Definition sys_ioctl (fd request argp : Z) : arm :=
  argp ← (if argp =? 0 then mret None
          else if (as_c_int request =? FIONBIO) || (as_c_int request =? FIONREAD) then
            argp ← try (validate_mut c_int argp);
            mret (Some (mkGref (g_ptr argp) (l_size c_int) 1))
          else try (Err ENOTSUP));
  ret_as (handler.ioctl (as_c_int fd) (as_c_int request) argp).
Definition sys_listen (sockfd backlog : Z) : arm :=
  ret_unit (handler.listen (as_c_int sockfd) (as_c_int backlog)).
Definition sys_madvise (addr length advice : Z) : arm :=
  addr ← try (ok_or (NonNull_new addr) EFAULT);
  ret_unit (madvise addr length (as_c_int advice)).
Definition sys_mmap (addr length prot flags fd offset : Z) : arm :=
  ret_usize (mmap (NonNull_new addr) length (as_c_int prot) (as_c_int flags) (as_c_int fd) (as_i64 offset)).
Definition sys_mprotect (addr len prot : Z) : arm :=
  addr ← try (ok_or (NonNull_new addr) EFAULT);
  ret_unit (mprotect addr len (as_c_int prot)).

(** The [match (flags as _, new_address)] of [mremap]. *)
Definition mremap_flags (flags new_address : Z) : result (option MremapFlags) :=
  let flags := as_c_int flags in
  if (flags =? 0) && (new_address =? 0) then Ok None
  else if (flags =? MREMAP_MAYMOVE) && (new_address =? 0) then Ok (Some MremapFlags_default)
  else if (new_address =? 0) && (flags =? Z.lor MREMAP_MAYMOVE MREMAP_DONTUNMAP) then
    Ok (Some (mkMremapFlags None true))
  else if (new_address =? 0) && negb (Z.land flags MREMAP_FIXED =? 0) then Err EINVAL
  else if flags =? Z.lor MREMAP_MAYMOVE MREMAP_FIXED then
    Ok (Some (mkMremapFlags (Some new_address) false))
  else if flags =? Z.lor (Z.lor MREMAP_MAYMOVE MREMAP_FIXED) MREMAP_DONTUNMAP then
    Ok (Some (mkMremapFlags (Some new_address) true))
  else Err EINVAL.

Definition sys_mremap (old_address old_size new_size flags new_address : Z) : arm :=
  old_address ← try (ok_or (NonNull_new old_address) EFAULT);
  flags ← try (mremap_flags flags new_address);
  ret_usize (handler.mremap old_address old_size new_size flags).
Definition sys_munmap (addr length : Z) : arm :=
  addr ← try (ok_or (NonNull_new addr) EFAULT);
  ret_unit (munmap addr length).
Definition sys_nanosleep (req rem : Z) : arm :=
  req ← try (validate timespec req);
  rem ← optional rem (validate_mut timespec);
  ret_unit (handler.nanosleep req rem).
Definition sys_open (pathname flags mode : Z) : arm :=
  pathname ← with_mem_loop (λ m, validate_str m pathname);
  let mode := if mode =? 0 then None else Some (as_u32 mode) in
  ret_as (handler.open pathname (as_c_int flags) mode).
Definition sys_poll (fds nfds timeout : Z) : arm :=
  fds ← try (validate_slice_mut pollfd fds nfds);
  ret_as (handler.poll fds (as_c_int timeout)).
Definition sys_read (fd buf count : Z) : arm :=
  buf ← try (validate_slice_mut ty_u8 buf count);
  ret_usize (handler.read (as_c_int fd) buf).
Definition sys_readlink (pathname buf bufsiz : Z) : arm :=
  pathname ← with_mem_loop (λ m, validate_str m pathname);
  buf ← try (validate_slice_mut ty_u8 buf bufsiz);
  ret_usize (handler.readlink pathname buf).
Definition sys_readv (fd iov iovcnt : Z) : arm :=
  iovs ← with_mem (λ m, validate_iovec_slice_mut m iov iovcnt);
  ret_usize (handler.readv (as_c_int fd) iovs).
Definition sys_recvfrom (sockfd buf len flags src_addr addrlen : Z) : arm :=
  buf ← try (validate_slice_mut ty_u8 buf len);
  ret_usize (if src_addr =? 0 then handler.recv (as_c_int sockfd) buf (as_c_int flags)
             else
               src_addr ← with_mem (λ m, validate_sockaddr_output m src_addr addrlen);
               handler.recvfrom (as_c_int sockfd) buf (as_c_int flags) src_addr).
Definition sys_rt_sigaction (signum act oldact sigsetsize : Z) : arm :=
  act ← optional act (validate sigaction);
  if oldact =? 0 then
    _ ← handler.rt_sigaction (as_c_int signum) act false sigsetsize;
    mret (0, 0)
  else
    sys_oldact ← try (validate_mut sigaction oldact);
    old ← handler.rt_sigaction (as_c_int signum) act true sigsetsize;
    match old with
    | Some old => _ ← store_words sys_oldact old; mret (0, 0)
    | None => mret (0, 0)
    end.
Definition sys_rt_sigprocmask (how set oldset sigsetsize : Z) : arm :=
  set ← optional set (validate sigset_t);
  oldset ← optional oldset (validate_mut sigset_t);
  ret_unit (handler.rt_sigprocmask (as_c_int how) set oldset sigsetsize).
Definition sys_sendto (sockfd buf len flags dest_addr addrlen : Z) : arm :=
  buf ← try (validate_slice ty_u8 buf len);
  ret_usize (if dest_addr =? 0 then handler.send (as_c_int sockfd) buf (as_c_int flags)
             else
               dest_addr ← try (validate_slice ty_u8 dest_addr addrlen);
               handler.sendto (as_c_int sockfd) buf (as_c_int flags) (mkSockaddrInput dest_addr)).
Definition sys_setsockopt (sockfd level optname optval optlen : Z) : arm :=
  optval ← (if optval =? 0 then mret None
            else v ← try (validate_slice ty_u8 optval optlen); mret (Some (mkSockoptInput v)));
  ret_as (handler.setsockopt (as_c_int sockfd) (as_c_int level) (as_c_int optname) optval).
Definition sys_set_tid_address (tidptr : Z) : arm :=
  tidptr ← try (validate_mut c_int tidptr);
  ret_as (handler.set_tid_address tidptr).
Definition sys_sigaltstack (ss old_ss : Z) : arm :=
  ss ← optional ss (validate stack_t);
  old_ss ← optional old_ss (validate_mut stack_t);
  ret_unit (handler.sigaltstack ss old_ss).
Definition sys_socket (domain typ protocol : Z) : arm :=
  ret_as (handler.socket (as_c_int domain) (as_c_int typ) (as_c_int protocol)).
Definition sys_uname (buf : Z) : arm :=
  buf ← try (validate_mut utsname buf);
  ret_unit (handler.uname buf).
Definition sys_write (fd buf count : Z) : arm :=
  buf ← try (validate_slice ty_u8 buf count);
  ret_usize (handler.write (as_c_int fd) buf).
Definition sys_writev (fd iov iovcnt : Z) : arm :=
  iovs ← with_mem (λ m, validate_iovec_slice m iov iovcnt);
  ret_usize (handler.writev (as_c_int fd) iovs).

(** [match (num as _, argv)] *)
Definition syscall (num a0 a1 a2 a3 a4 a5 : Z) : arm :=
  let num := as_i64 num in
  if num =? SYS_accept then sys_accept a0 a1 a2
  else if num =? SYS_accept4 then sys_accept4 a0 a1 a2 a3
  else if num =? SYS_arch_prctl then sys_arch_prctl a0 a1
  else if num =? SYS_bind then sys_bind a0 a1 a2
  else if num =? SYS_brk then sys_brk a0
  else if num =? SYS_clock_getres then sys_clock_getres a0 a1
  else if num =? SYS_clock_gettime then sys_clock_gettime a0 a1
  else if num =? SYS_close then sys_close a0
  else if num =? SYS_connect then sys_connect a0 a1 a2
  else if num =? SYS_dup then sys_dup a0
  else if num =? SYS_dup2 then sys_dup2 a0 a1
  else if num =? SYS_dup3 then sys_dup3 a0 a1 a2
  else if num =? SYS_epoll_create1 then sys_epoll_create1 a0
  else if num =? SYS_epoll_ctl then sys_epoll_ctl a0 a1 a2 a3
  else if num =? SYS_epoll_pwait then sys_epoll_pwait a0 a1 a2 a3 a4
  else if num =? SYS_epoll_wait then sys_epoll_wait a0 a1 a2 a3
  else if num =? SYS_eventfd2 then sys_eventfd2 a0 a1
  else if num =? SYS_exit then sys_exit a0
  else if num =? SYS_exit_group then sys_exit_group a0
  else if num =? SYS_fcntl then sys_fcntl a0 a1 a2
  else if num =? SYS_fstat then sys_fstat a0 a1
  else if num =? SYS_getegid then ret_as handler.getegid
  else if num =? SYS_geteuid then ret_as handler.geteuid
  else if num =? SYS_getgid then ret_as handler.getgid
  else if num =? SYS_getpid then ret_as handler.getpid
  else if num =? SYS_getrandom then sys_getrandom a0 a1 a2
  else if num =? SYS_getsockname then sys_getsockname a0 a1 a2
  else if num =? SYS_getuid then ret_as handler.getuid
  else if num =? SYS_ioctl then sys_ioctl a0 a1 a2
  else if num =? SYS_listen then sys_listen a0 a1
  else if num =? SYS_madvise then sys_madvise a0 a1 a2
  else if num =? SYS_mmap then sys_mmap a0 a1 a2 a3 a4 a5
  else if num =? SYS_mprotect then sys_mprotect a0 a1 a2
  else if num =? SYS_mremap then sys_mremap a0 a1 a2 a3 a4
  else if num =? SYS_munmap then sys_munmap a0 a1
  else if num =? SYS_nanosleep then sys_nanosleep a0 a1
  else if num =? SYS_open then sys_open a0 a1 a2
  else if num =? SYS_poll then sys_poll a0 a1 a2
  else if num =? SYS_read then sys_read a0 a1 a2
  else if num =? SYS_readlink then sys_readlink a0 a1 a2
  else if num =? SYS_readv then sys_readv a0 a1 a2
  else if num =? SYS_recvfrom then sys_recvfrom a0 a1 a2 a3 a4 a5
  else if num =? SYS_rt_sigaction then sys_rt_sigaction a0 a1 a2 a3
  else if num =? SYS_rt_sigprocmask then sys_rt_sigprocmask a0 a1 a2 a3
  else if num =? SYS_sendto then sys_sendto a0 a1 a2 a3 a4 a5
  else if num =? SYS_setsockopt then sys_setsockopt a0 a1 a2 a3 a4
  else if num =? SYS_set_tid_address then sys_set_tid_address a0
  else if num =? SYS_sigaltstack then sys_sigaltstack a0 a1
  else if num =? SYS_socket then sys_socket a0 a1 a2
  else if num =? SYS_sync then ret_unit handler.sync
  else if num =? SYS_uname then sys_uname a0
  else if num =? SYS_write then sys_write a0 a1 a2
  else if num =? SYS_writev then sys_writev a0 a1 a2
  else try (Err ENOSYS).

End dispatch.
