(* ===== verification/Scenario.v ===== *)
(** * A scripted host

    The smallest handler there is: a keep with one block of 64 words at
    address 4096, and a host that answers by storing given words in that block.
    It satisfies every law a handler is asked for, and is the handler the
    properties are evaluated with on concrete requests. *)

From S2P Require Import Prelude Memory Libc PhaseAlloc StagedValues Items Calls CallLaws StageKit.
From S2P Require Import SockTypes Syscalls Stubs SyscallLaws NumberCalls Platform Handler HandlerCalls.

(** The words the host stores, with their index in the block, and the signal
    actions of the thread. *)
Record keep : Type := mkKeep { k_script : list (nat * Z); k_tls : ThreadLocalStorage }.

Definition keep_block : block := mkBlock 4096 64.

Definition keep_answer (script : list (nat * Z)) (m : mem) : mem :=
  foldl (λ m '(i, v), write_usize m (4096 + 8 * Z.of_nat (i mod 64)) v) m script.

#[global] Instance keep_handler : Handler keep := {|
  sally w := Return (Ok (), mkWorld (w_self w) (keep_answer (k_script (w_self w)) (w_mem w)));
  handler_block _ := keep_block;
  handler_block_mut _ := keep_block;
|}.

(** [RDRAND] succeeds at once; the memory calls are not supported. *)
#[global] Instance keep_os : HandlerOS keep := {|
  os_handler := keep_handler;
  thread_local_storage := k_tls;
  set_thread_local_storage k t := mkKeep (k_script k) t;
  arch_prctl _ _ := try (Err ENOSYS);
  brk _ := try (Err ENOSYS);
  madvise _ _ _ := try (Err ENOSYS);
  mmap _ _ _ _ _ _ := try (Err ENOSYS);
  mprotect _ _ _ := try (Err ENOSYS);
  munmap _ _ := try (Err ENOSYS);
  rdrand _ i := (0%nat, 42 + i);
|}.

Lemma keep_block_wf : block_wf keep_block.
Proof. by split. Qed.

Lemma keep_answer_frame script m :
  same_except [block_region keep_block] m (keep_answer script m) ∧
  (mem_wf m → mem_wf (keep_answer script m)).
Proof.
  revert m; induction script as [|[i v] script IH]; intros m; [done|].
  simpl. destruct (IH (write_usize m (4096 + 8 * Z.of_nat (i mod 64)) v)) as [Hs Hw].
  assert (i mod 64 < 64)%nat by by apply Nat.mod_upper_bound.
  split.
  - etransitivity; [|exact Hs]. apply (same_outside_block keep_block _ _
      (4096 + 8 * Z.of_nat (i mod 64)) (4096 + 8 * Z.of_nat (i mod 64) + 8)); [simpl; lia..|].
    exact (write_bytes_frame m (4096 + 8 * Z.of_nat (i mod 64)) (to_le_bytes 8 v)).
  - intros Hm. apply Hw, write_bytes_wf; [done|]. apply to_le_bytes_wf.
Qed.

#[global] Instance keep_laws : HandlerLaws keep.
Proof.
  refine {| hl_block _ := eq_refl; hl_wf _ := keep_block_wf |}. intros w r w' [= <- <-].
  destruct (keep_answer_frame (k_script (w_self w)) (w_mem w)) as [Hs Hw].
  split_and!; [reflexivity|exact Hs|exact Hw].
Defined.

#[global] Instance keep_returns : HandlerReturns keep.
Proof. intros w. by eexists _, _. Defined.

#[global] Instance keep_os_laws : HandlerOSLaws keep.
Proof. by refine {| hos_handler := keep_laws; hos_returns := keep_returns |}. Defined.

(** A keep whose host answers a system call with the word [ret]. *)
Definition answering (ret : Z) (m : mem) : world keep :=
  mkWorld (mkKeep [(9%nat, ret)] ThreadLocalStorage_new) m.

Lemma keep_room (w : world keep) : 13 ≤ b_len (handler_block_mut (w_self w)).
Proof. vm_compute. congruence. Qed.

(** Whether a method returned [Ok]. *)
Definition returned_ok {A W : Type} (o : outcome (result A * W)) : bool :=
  match o with Return (Ok _, _) => true | _ => false end.
