(* ===== verification/Transfer.v ===== *)
(** * Bytes in and out of the block

    The calls that move bytes -- [read], [write] and their vectored forms --
    followed byte by byte: how much of a buffer is staged, what the host finds
    in the item, and what the guest's buffers hold after the reply. *)

From S2P Require Import Prelude Memory Libc PhaseAlloc StagedValues Items Calls CallLaws StageKit.
From S2P Require Import SockTypes Syscalls Stubs SyscallLaws NumberCalls Platform Handler Request HandlerCalls.
From S2P Require Import Scenario.

(** ** Staging bytes succeeds, with as much as fits *)

Section staging_bytes.
Context (a : Alloc phase.Stage) (Hwf : alloc_wf a) (Hlen : a_len a ≤ isize_MAX).

Lemma free_bytes : free ty_u8 a = Return (a_len a).
Proof.
  destruct Hwf as (_ & ? & _). unfold free. simpl. rewrite align_offset_0 by (done || apply Z.mod_1_r).
  rewrite (proj2 (Z.ltb_ge _ 0)) by lia. by rewrite Z.sub_0_r, Z.div_1_r.
Qed.

(** Where [n] bytes go. *)
Definition after_bytes (n : Z) : Alloc phase.Stage := mkAlloc (a_ptr a + n) (a_len a - n) (a_offset a + n).

Lemma allocate_bytes n :
  0 ≤ n ≤ a_len a →
  array_layout ty_u8 n = Ok (mkLayout n 1) ∧
  allocate_layout (mkLayout n 1) a = Return (Ok (a_ptr a, n, a_offset a), after_bytes n).
Proof.
  intros Hn. assert (isize_MAX ≤ usize_MAX) by done. split.
  - unfold array_layout, checked_mul. simpl. rewrite (proj2 (Z.leb_le _ _)) by lia.
    rewrite (proj2 (Z.leb_le _ _)) by lia. do 2 f_equal. lia.
  - rewrite allocate_layout_eq by (done || split; simpl; lia). cbv zeta. simpl l_align. simpl l_size.
    rewrite align_offset_0 by (done || apply Z.mod_1_r). rewrite (proj2 (Z.leb_le _ _)) by lia.
    unfold after_bytes. rewrite !Z.add_0_r, Z.sub_0_r. done.
Qed.

Lemma in_bytes_max n :
  0 ≤ n → let k := Z.min n (a_len a) in
  allocate_input_slice_max ty_u8 n a = Return (Ok (mkInRef ty_u8 (a_ptr a) k (a_offset a)), after_bytes k).
Proof.
  intros Hn k. destruct Hwf as (_ & ? & _). destruct (allocate_bytes k) as [E1 E2]; [lia|].
  unfold allocate_input_slice_max, get_free, mbind, stageM_bind, fal_bind. rewrite free_bytes. simpl.
  unfold allocate_input_slice, try, mbind, stageM_bind, fal_bind. fold k. rewrite E1.
  unfold allocate_input_layout, mbind, stageM_bind, fal_bind. by rewrite E2.
Qed.

Lemma out_bytes_max n :
  0 ≤ n → let k := Z.min n (a_len a) in
  allocate_output_slice_max ty_u8 n a = Return (Ok (mkOutRef ty_u8 (a_ptr a) k (a_offset a)), after_bytes k).
Proof.
  intros Hn k. destruct Hwf as (_ & ? & _). destruct (allocate_bytes k) as [E1 E2]; [lia|].
  unfold allocate_output_slice_max, get_free, mbind, stageM_bind, fal_bind. rewrite free_bytes. simpl.
  unfold allocate_output_slice, try, mbind, stageM_bind, fal_bind. fold k. rewrite E1.
  unfold allocate_output_layout, mbind, stageM_bind, fal_bind. by rewrite E2.
Qed.

Context (v : gref) (Hv : slice_ok ty_u8 v).
Let k := Z.min (g_len v) (a_len a).

Lemma stage_in_bytes :
  Input_stage_slice_max ty_u8 v a =
    Return (Ok (mkInput (mkInRef ty_u8 (a_ptr a) k (a_offset a)) (g_take v k), g_drop v k), after_bytes k).
Proof.
  destruct Hwf as (_ & ? & _). destruct (slice_ok_bytes _ _ Hv) as (_ & ? & _).
  destruct (allocate_bytes k) as [E1 E2]; [lia|].
  unfold Input_stage_slice_max, get_free, mbind, stageM_bind, fal_bind. rewrite free_bytes. simpl.
  unfold must, split_at. rewrite (proj2 (Z.leb_le _ (g_len v))) by lia. fold k.
  unfold Input_stage_slice, allocate_input_slice, try, mbind, stageM_bind, fal_bind. simpl g_len. rewrite E1.
  unfold allocate_input_layout, mbind, stageM_bind, fal_bind. by rewrite E2.
Qed.

Lemma stage_out_bytes :
  Output_stage_slice_max ty_u8 v a =
    Return (Ok (mkOutput (mkOutRef ty_u8 (a_ptr a) k (a_offset a)) (g_take v k), g_drop v k), after_bytes k).
Proof.
  destruct Hwf as (_ & ? & _). destruct (slice_ok_bytes _ _ Hv) as (_ & ? & _).
  destruct (allocate_bytes k) as [E1 E2]; [lia|].
  unfold Output_stage_slice_max, get_free, mbind, stageM_bind, fal_bind. rewrite free_bytes. simpl.
  unfold must, split_at. rewrite (proj2 (Z.leb_le _ (g_len v))) by lia. fold k.
  unfold Output_stage_slice, allocate_output_slice, try, mbind, stageM_bind, fal_bind. simpl g_len. rewrite E1.
  unfold allocate_output_layout, mbind, stageM_bind, fal_bind. by rewrite E2.
Qed.

End staging_bytes.

(** ** Scattered buffers *)

(** The bytes of a vector of buffers, one buffer after the other. *)
Definition iov_bytes (iovs : list gref) (m : mem) : list Z := iovs ≫= λ v, borrow v m.

Lemma read_bytes_take m p n k : 0 ≤ k ≤ n → take (Z.to_nat k) (read_bytes m p n) = read_bytes m p k.
Proof.
  intros H. replace n with (k + (n - k)) by lia. rewrite read_bytes_app by lia.
  apply take_app_length'. rewrite length_read_bytes. lia.
Qed.

Lemma length_borrow_byte (v : gref) m : g_elem v = 1 → 0 ≤ g_len v → Z.of_nat (length (borrow v m)) = g_len v.
Proof. intros He Hl. rewrite length_borrow_gref. unfold g_bytes. rewrite He. lia. Qed.

(** Gathering up to [n] bytes yields the first [n] bytes of the vector. *)
Lemma gather_take iovs n m :
  byte_slices iovs → 0 ≤ n → iov_bytes (take_capacity n iovs) m = take (Z.to_nat n) (iov_bytes iovs m).
Proof.
  intros Hb. revert n. unfold iov_bytes. induction Hb as [|v iovs [Hl He] Hb IH]; intros n Hn; simpl.
  { by rewrite take_nil. }
  pose proof (length_borrow_byte v m He Hl) as Lv.
  destruct (n =? 0) eqn:E; bool_to_prop; [by subst|]. destruct (_ <=? _) eqn:E2; bool_to_prop; simpl.
  - rewrite IH by lia. rewrite take_app_ge by lia. do 2 f_equal. lia.
  - rewrite app_nil_r, take_app_le by lia. unfold borrow, gref_borrow, g_bytes. simpl. rewrite He.
    rewrite !Z.mul_1_r. symmetry. apply read_bytes_take. lia.
Qed.

Lemma take_capacity_Forall (P : gref → Prop) iovs n :
  byte_slices iovs → 0 ≤ n →
  (∀ v k, 0 ≤ k ≤ g_len v → g_elem v = 1 ∧ P v → P (g_take v k)) → Forall P iovs →
  Forall P (take_capacity n iovs).
Proof.
  intros Hb Hn HP H. revert n Hn Hb. induction H as [|v iovs Hv H IH]; intros n Hn Hb; simpl; [done|].
  apply Forall_cons in Hb as [[Hl He] Hb].
  destruct (n =? 0); [done|]. destruct (_ <=? _) eqn:E; bool_to_prop.
  - constructor; [done|]. apply IH; [lia|done].
  - constructor; [|done]. apply HP; [lia|done].
Qed.

(** No two of the buffers share an address, and none shares one with
    [lo, hi). *)
Fixpoint separate (lo hi : Z) (iovs : list gref) : Prop :=
  match iovs with
  | [] => True
  | v :: iovs =>
      (∀ x, in_gref v x → ¬ (lo ≤ x < hi) ∧ Forall (λ r, ¬ in_gref r x) iovs) ∧ separate lo hi iovs
  end.

Lemma separate_weaken lo hi lo' hi' iovs : lo ≤ lo' → hi' ≤ hi → separate lo hi iovs → separate lo' hi' iovs.
Proof.
  intros H1 H2. induction iovs as [|v iovs IH]; [done|]. intros [Hv H]. split; [|auto].
  intros x Hx. destruct (Hv x Hx). split; [lia|done].
Qed.

Lemma iov_bytes_write iovs v m bs :
  Z.of_nat (length bs) ≤ g_bytes v → (∀ x, in_gref v x → Forall (λ r, ¬ in_gref r x) iovs) →
  iov_bytes iovs (write_bytes m (g_ptr v) bs) = iov_bytes iovs m.
Proof.
  intros Hl Hv. induction iovs as [|r iovs IH]; [done|]. unfold iov_bytes in *. rewrite !bind_cons, IH.
  - f_equal. apply read_bytes_ext. intros x Hx. apply write_bytes_outside. intros Hin.
    specialize (Hv x ltac:(unfold in_gref; lia)). by apply Forall_cons in Hv as [? _].
  - intros x Hx. by apply Hv, Forall_cons in Hx as [_ ?].
Qed.

Lemma borrow_bytes_take v k : g_elem v = 1 → g_bytes (g_take v k) = k.
Proof. intros He. unfold g_bytes. simpl. rewrite He. lia. Qed.

(** The last buffer takes part of its bytes. *)
Lemma scatter_last v iovs m p k :
  0 ≤ g_len v → g_elem v = 1 → 0 ≤ k ≤ g_len v → (∀ x, in_gref v x → Forall (λ r, ¬ in_gref r x) iovs) →
  iov_bytes (v :: iovs) (write_bytes m (g_ptr v) (read_bytes m p k)) =
  read_bytes m p k ++ drop (Z.to_nat k) (iov_bytes (v :: iovs) m).
Proof.
  intros Hl He Hk Hv. set (bs := read_bytes m p k).
  assert (Bv : g_bytes v = g_len v) by (unfold g_bytes; rewrite He; lia).
  assert (Lb : Z.of_nat (length bs) = k) by (unfold bs; rewrite length_read_bytes; lia).
  pose proof (length_borrow_byte v m He Hl) as Lv. unfold iov_bytes. rewrite !bind_cons.
  change (iovs ≫= ?f) with (iov_bytes iovs (write_bytes m (g_ptr v) bs)) at 1.
  rewrite iov_bytes_write by (done || lia). rewrite drop_app_le by lia. rewrite app_assoc. f_equal.
  unfold borrow, gref_borrow. rewrite Bv.
  replace (g_len v) with (k + (g_len v - k)) by lia. rewrite !read_bytes_app by lia.
  rewrite drop_app_length' by (rewrite length_read_bytes; lia). f_equal; [by apply read_write_same|].
  apply read_write_disjoint. lia.
Qed.

(** Scattering [k] bytes from [p]: they replace the first [k] bytes of the
    vector, the others stay. *)
Lemma scatter_bytes iovs : ∀ m p k,
  byte_slices iovs → 0 ≤ k ≤ total_len iovs → separate p (p + k) iovs →
  ∃ m', OutRef_copy_to_iter_unchecked (mkOutRef ty_u8 p k 0) (take_capacity k iovs) m = Return (tt, m') ∧
    iov_bytes iovs m' = read_bytes m p k ++ drop (Z.to_nat k) (iov_bytes iovs m).
Proof.
  intros m p k Hb Hk Hs. eexists. split; [reflexivity|]. cbn [out_ptr].
  revert m p k Hk Hs. induction Hb as [|v iovs [Hl He] Hb IH]; intros m p k Hk Hs.
  { simpl in Hk. rewrite read_bytes_nil by lia. unfold iov_bytes. simpl. by rewrite drop_nil. }
  destruct Hs as [Hv Hs].
  assert (Bv : g_bytes v = g_len v) by (unfold g_bytes; rewrite He; lia).
  pose proof (length_borrow_byte v m He Hl) as Lv. cbn [take_capacity]. simpl in Hk.
  destruct (k =? 0) eqn:E; bool_to_prop; [by subst; rewrite read_bytes_nil by lia|].
  destruct (g_len v <=? k) eqn:E2; bool_to_prop; cbn [foldl].
  - rewrite Bv. set (bs := read_bytes m p (g_len v)). set (m1 := write_bytes m (g_ptr v) bs).
    assert (Lb : Z.of_nat (length bs) = g_len v) by (unfold bs; rewrite length_read_bytes; lia).
    specialize (IH m1 (p + g_len v) (k - g_len v) ltac:(lia)).
    assert (Ew : iov_bytes iovs m1 = iov_bytes iovs m).
    { apply iov_bytes_write; [lia|]. intros x Hx. by apply Hv. }
    assert (E1 : read_bytes m1 (p + g_len v) (k - g_len v) = read_bytes m (p + g_len v) (k - g_len v)).
    { apply read_bytes_ext. intros x Hx. apply write_bytes_outside. intros Hin.
      destruct (Hv x) as [? _]; [unfold in_gref; lia|]. lia. }
    rewrite E1, Ew in IH. unfold iov_bytes in *. rewrite !bind_cons.
    rewrite IH by (eapply separate_weaken; [| |exact Hs]; lia).
    rewrite drop_app_ge by lia. replace (Z.to_nat k - length (borrow v m))%nat with (Z.to_nat (k - g_len v)) by lia.
    assert (Ek : read_bytes m p k = bs ++ read_bytes m (p + g_len v) (k - g_len v)).
    { unfold bs. rewrite <- read_bytes_app by lia. f_equal. lia. }
    rewrite Ek, <- app_assoc. f_equal. transitivity (borrow v m1).
    + apply read_bytes_ext. intros x Hx. destruct (Hv x Hx) as [_ Hx'].
      destruct (keeps_copy_to_iter iovs (mkOutRef ty_u8 (p + g_len v) 0 0) (take_capacity (k - g_len v) iovs)
        (take_capacity_covers iovs _ Hb) m1) as (u & m2 & Em & [Hf _] & _). injection Em as _ <-. by apply Hf.
    + unfold borrow, gref_borrow. rewrite Bv. by apply read_write_same.
  - cbn [take_capacity foldl snd]. rewrite borrow_bytes_take by done. cbn [g_ptr g_take].
    apply scatter_last; [done..|lia|]. intros x Hx. by apply Hv.
Qed.

(** What [read] does with the count the host returned. *)
Lemma read_collects (buf : gref) p n ret (m : mem) :
  slice_ok ty_u8 buf →
  sc_collect (T := Read) (mkOutput (mkOutRef ty_u8 (p) n 0) (g_take buf n)) ret m =
  match ret with
  | Ok k => if n <? k then Return (None, m)
            else Return (Some (Ok k), write_bytes m (g_ptr buf) (read_bytes m (p) k))
  | Err e => Return (Some (Err e), m)
  end.
Proof.
  intros Hv. destruct ret as [k|e]; [|done].
  cbn [sc_collect Read_alloc collect_bytes]. unfold Output_len. cbn [o_ref out_len].
  destruct (n <? k) eqn:E; [done|]. bool_to_prop.
  unfold mbind, ioM_bind, io_bind. rewrite Output_collect_range_eq by done. simpl.
  rewrite (proj2 Hv). simpl. by rewrite Z.mul_1_r.
Qed.

(** ** Requests that carry bytes *)

Section transfer.
Context {H : Type} `{HandlerOS H, !HandlerLaws H}.

(** Bytes of data a system call can carry in block [b]: what is left after the
    header, the nine payload words and the terminator. *)
Definition capacity (b : block) : Z := 8 * b_len b - 104.

Lemma request_alloc_bytes b :
  block_wf b → 13 ≤ b_len b →
  alloc_wf (request_alloc 6 2 b) ∧ a_len (request_alloc 6 2 b) = capacity b ∧
  a_len (request_alloc 6 2 b) ≤ isize_MAX ∧ a_ptr (request_alloc 6 2 b) = b_ptr b + 88.
Proof.
  intros [] Hlen. unfold alloc_wf, request_alloc, capacity, payload_bytes. simpl.
  split_and!; (done || lia).
Qed.

(** The host's first return word, decoded as a count of bytes. *)
Definition with_reply {X : Type} (w1 : world H) (k : result Z → world H → outcome (result X * world H))
    : outcome (result X * world H) := answered w1 72 (λ v, k (Result_usize v)).

(** The bytes handed over, when the buffer is not part of the block. *)
Lemma committed_prefix (w w1 : world H) (b : block) m m' p bs data :
  same_in (b_ptr b + 88) (b_ptr b + 88 + Z.of_nat (length data)) m' (w_mem w1) →
  read_bytes (w_mem w1) (b_ptr b + 88) (Z.of_nat (length data)) = data →
  m' = write_bytes m (b_ptr b + 88) bs → p = Z.of_nat (length bs) → p ≤ Z.of_nat (length data) →
  take (Z.to_nat p) data = bs.
Proof.
  intros Hin Hd -> -> Hle. rewrite <- Hd.
  replace (Z.of_nat (length data)) with (Z.of_nat (length bs) + (Z.of_nat (length data) - Z.of_nat (length bs))) by lia.
  rewrite read_bytes_app by lia. rewrite take_app_length' by (rewrite length_read_bytes; lia).
  rewrite <- (read_write_same m (b_ptr b + 88) bs (Z.of_nat (length bs)) eq_refl) at 2.
  apply read_bytes_ext. intros x Hx. apply Hin. lia.
Qed.

Lemma sent_data (w w1 : world H) num argv data :
  sent w (syscall_item num argv data) w1 →
  read_bytes (w_mem w1) (b_ptr (handler_block_mut (w_self w)) + 88) (Z.of_nat (length data)) = data.
Proof.
  intros Hs. replace (b_ptr _ + 88) with (b_ptr (handler_block_mut (w_self w)) + 16 + 72) by lia.
  exact (sent_holds _ _ _ Hs).
Qed.

(** A buffer of the guest that is not part of the block. *)
Definition outside_block (w : world H) (v : gref) : Prop :=
  let b := handler_block_mut (w_self w) in
  g_ptr v + g_bytes v ≤ b_ptr b ∨ b_ptr b + 8 * b_len b ≤ g_ptr v.

Lemma outside_block_read (w : world H) v m hi :
  let b := handler_block_mut (w_self w) in
  outside_block w v → hi ≤ b_ptr b + 8 * b_len b →
  same_outside (b_ptr b) hi (w_mem w) m → borrow v m = borrow v (w_mem w).
Proof.
  intros b Hv Hhi Hm. apply read_bytes_ext. intros x Hx. apply Hm.
  unfold outside_block in Hv. fold b in Hv. lia.
Qed.

Lemma outside_block_take (w : world H) v n :
  n ≤ g_len v → 0 ≤ g_elem v → outside_block w v → outside_block w (g_take v n).
Proof. intros Hn He Hv. unfold outside_block, g_bytes in *. simpl in *. nia. Qed.

Lemma outside_bind (w : world H) m hi vs :
  let b := handler_block_mut (w_self w) in
  Forall (λ v, 0 ≤ g_bytes v ∧ outside_block w v) vs → same_outside (b_ptr b) hi (w_mem w) m →
  hi ≤ b_ptr b + 8 * b_len b → (vs ≫= λ v, borrow v m) = iov_bytes vs (w_mem w).
Proof.
  intros b Hv Hm Hhi. unfold iov_bytes. induction Hv as [|v vs [_ Hv] _ IH]; [done|].
  rewrite !bind_cons, IH. f_equal. by eapply outside_block_read.
Qed.

Lemma borrow_take v n m : g_elem v = 1 → borrow (g_take v n) m = read_bytes m (g_ptr v) n.
Proof. intros He. unfold borrow, gref_borrow, g_bytes. simpl. by rewrite He, Z.mul_1_r. Qed.

Lemma reply_word b : b_ptr b + 24 + 8 * Z.of_nat 6 = b_ptr b + 72.
Proof. lia. Qed.

(** Runs a method whose request was sent up to the decoded reply [k]. *)
Ltac open_reply Hx Hs k :=
  unfold mbind, handlerM_bind, fal_bind; rewrite Hx;
  unfold syscall_reply, reply, with_reply, answered, mbind, outcome_bind;
  rewrite (sent_self _ _ _ Hs), reply_word;
  match goal with
  | |- context [sally ?w1] => destruct (sally w1) as [[[?|?] [? ?]]| | |]; try done
  end;
  cbn [w_mem w_self]; change (sc_ret ?v) with (Result_usize v);
  destruct (Result_usize _) as [k|?]; [|done].

Context (w : world H).
Let b := handler_block_mut (w_self w).
Context (Hcap : 13 ≤ b_len b).

Lemma stage_write fd buf :
  slice_ok ty_u8 buf → let n := Z.min (g_len buf) (capacity b) in
  ∃ i a0, sc_stage (mkWrite fd buf) (request_alloc 6 2 b) = Return (Ok ([as_usize fd; 0; n], i), a0) ∧
    i = mkInput (mkInRef ty_u8 (b_ptr b + 88) n 0) (g_take buf n) ∧ a_ptr a0 = b_ptr b + 88 + n.
Proof.
  intros Hv n. destruct (request_alloc_bytes b (hl_wf _) Hcap) as (Hwf & El & Hi & Ep).
  pose proof (stage_in_bytes _ Hwf Hi buf Hv) as E. rewrite El, Ep in E. fold n in E.
  change (sc_stage (mkWrite fd buf)) with (Write_stage (mkWrite fd buf)).
  unfold Write_stage, mbind, stageM_bind, fal_bind. cbn [write_buf]. rewrite E.
  eexists _, _. split; [reflexivity|]. split; [done|]. unfold after_bytes. by rewrite Ep.
Qed.

Lemma stage_read fd buf :
  slice_ok ty_u8 buf → let n := Z.min (g_len buf) (capacity b) in
  ∃ o a0, sc_stage (mkRead fd buf) (request_alloc 6 2 b) = Return (Ok ([as_usize fd; 0; n], o), a0) ∧
    o = mkOutput (mkOutRef ty_u8 (b_ptr b + 88) n 0) (g_take buf n) ∧ a_ptr a0 = b_ptr b + 88 + n.
Proof.
  intros Hv n. destruct (request_alloc_bytes b (hl_wf _) Hcap) as (Hwf & El & Hi & Ep).
  pose proof (stage_out_bytes _ Hwf Hi buf Hv) as E. rewrite El, Ep in E. fold n in E.
  change (sc_stage (mkRead fd buf)) with (Read_stage (mkRead fd buf)).
  unfold Read_stage, mbind, stageM_bind, fal_bind. cbn [read_buf]. rewrite E.
  eexists _, _. split; [reflexivity|]. split; [done|]. unfold after_bytes. by rewrite Ep.
Qed.

(** The request of a [write], and the length against which the reply is checked. *)
Lemma write_sends fd buf :
  slice_ok ty_u8 buf → outside_block w buf →
  let n := Z.min (g_len buf) (capacity b) in
  ∃ data w1, sent w (syscall_item SYS_write [as_usize fd; 0; n] data) w1 ∧
    0 ≤ n ≤ Z.of_nat (length data) ∧
    take (Z.to_nat n) data = read_bytes (w_mem w) (g_ptr buf) n ∧
    execute (mkWrite fd buf) w = syscall_reply (H := H) (T := Write) b n w1.
Proof.
  intros Hv Ho n. destruct (stage_write fd buf Hv) as (i & a0 & Es & -> & Ep). fold n in Es, Ep.
  destruct (slice_ok_bytes _ _ Hv) as (_ & Hl0 & _). destruct (hl_wf (w_self w)) as [_ Hbl _ _ _].
  fold b in Hbl.
  assert (Hn : 0 ≤ n ≤ g_len buf) by (unfold n, capacity; lia). fold n in Es.
  assert (Hok : sl_ok (mkWrite fd buf)) by exact Hv.
  destruct (execute_staged (mkWrite fd buf) w _ _ _ Hok Hcap Es)
    as (c & data & w1 & Hs & (m & m' & Hc & Hm & Hin) & Hle & Hx). fold b in Hm, Hin, Hle, Hx.
  exists data, w1. split; [exact Hs|]. split; [lia|]. injection Hc as <- <-. split; [|exact Hx].
  apply outside_block_take with (n := n) in Ho as Ho'; [|lia|apply Hv].
  rewrite <- borrow_take by apply Hv.
  rewrite <- (outside_block_read w _ m (b_ptr b + 88) Ho') by (fold b; done || lia).
  eapply (committed_prefix w w1 b m); [exact Hin|exact (sent_data _ _ _ _ _ Hs)|reflexivity| |lia].
  rewrite borrow_take, length_read_bytes by apply Hv. lia.
Qed.

(** The request of a [read], and the buffer its reply is collected from. *)
Lemma read_sends fd buf :
  slice_ok ty_u8 buf →
  let n := Z.min (g_len buf) (capacity b) in
  ∃ data w1, sent w (syscall_item SYS_read [as_usize fd; 0; n] data) w1 ∧
    0 ≤ n ≤ Z.of_nat (length data) ∧
    execute (mkRead fd buf) w =
      syscall_reply (H := H) (T := Read) b (mkOutput (mkOutRef ty_u8 (b_ptr b + 88) n 0) (g_take buf n)) w1.
Proof.
  intros Hv n. destruct (stage_read fd buf Hv) as (o & a0 & Es & -> & Ep). fold n in Es, Ep.
  destruct (slice_ok_bytes _ _ Hv) as (_ & Hl0 & _).
  assert (Hok : sl_ok (mkRead fd buf)) by exact Hv.
  destruct (execute_staged (mkRead fd buf) w _ _ _ Hok Hcap Es)
    as (c & data & w1 & Hs & (m & m' & Hc & _) & Hle & Hx). fold b in Hle, Hx.
  exists data, w1. split; [exact Hs|]. injection Hc as <- _. split; [|exact Hx].
  unfold n, capacity in *. lia.
Qed.

(** [write] hands the host one [SYS_write] item with the descriptor,
    offset 0 and the number of bytes that fit, whose data starts with exactly
    those bytes of the buffer.  The host's answer is an error code, or a count:
    a count larger than the number of bytes offered is treated as an attack, any
    other is returned, and the guest's memory outside the block is unchanged. *)
Theorem write_transfer fd buf :
  slice_ok ty_u8 buf → outside_block w buf →
  let n := Z.min (g_len buf) (capacity b) in
  ∃ data w1, sent w (syscall_item SYS_write [as_usize fd; 0; n] data) w1 ∧
    take (Z.to_nat n) data = read_bytes (w_mem w) (g_ptr buf) n ∧
    handler.write fd buf w = with_reply w1 (λ r w2,
      match r with
      | Ok k => if n <? k then Attacked else Return (Ok k, w2)
      | Err e => Return (Err e, w2)
      end).
Proof.
  intros Hv Ho n. destruct (write_sends fd buf Hv Ho) as (data & w1 & Hs & _ & Hd & Hx). fold n in Hs, Hd, Hx.
  exists data, w1. split; [exact Hs|]. split; [exact Hd|]. unfold handler.write. open_reply Hx Hs k. fold b.
  simpl. by destruct (n <? k).
Qed.

(** [read] hands the host one [SYS_read] item asking for as many bytes as
    fit.  A count larger than that is treated as an attack; for any other count
    [k] the first [k] bytes of the item's data are stored at the start of the
    buffer, and nothing else of the guest's memory changes. *)
Theorem read_transfer fd buf :
  slice_ok ty_u8 buf →
  let n := Z.min (g_len buf) (capacity b) in
  ∃ data w1, sent w (syscall_item SYS_read [as_usize fd; 0; n] data) w1 ∧
    n ≤ Z.of_nat (length data) ∧
    handler.read fd buf w = with_reply w1 (λ r w2,
      match r with
      | Ok k => if n <? k then Attacked
                else Return (Ok k, mkWorld (w_self w2)
                       (write_bytes (w_mem w2) (g_ptr buf) (read_bytes (w_mem w2) (b_ptr b + 88) k)))
      | Err e => Return (Err e, w2)
      end).
Proof.
  intros Hv n. destruct (read_sends fd buf Hv) as (data & w1 & Hs & Hd & Hx). fold n in Hs, Hd, Hx.
  exists data, w1. split; [exact Hs|]. split; [lia|]. unfold handler.read. open_reply Hx Hs k. fold b.
  rewrite read_collects by done. by destruct (n <? k).
Qed.

Lemma stage_writev fd iovs :
  iovs_ok iovs → let n := Z.min (total_len iovs) (capacity b) in
  ∃ a0, sc_stage (mkWritev fd iovs) (request_alloc 6 2 b) =
      Return (Ok ([as_usize fd; 0; n], (mkInRef ty_u8 (b_ptr b + 88) n 0, iovs)), a0) ∧
    a_ptr a0 = b_ptr b + 88 + n.
Proof.
  intros [Hv Hm] n. destruct (request_alloc_bytes b (hl_wf _) Hcap) as (Hwf & El & Hi & Ep).
  destruct (byte_slices_len iovs Hv) as [Hl Ht].
  pose proof (in_bytes_max _ Hwf Hi (total_len iovs) Ht) as E. rewrite El, Ep in E. fold n in E.
  change (sc_stage (mkWritev fd iovs)) with (Writev_stage (mkWritev fd iovs)).
  unfold Writev_stage, must, mbind, stageM_bind, fal_bind. cbn [writev_iovs].
  rewrite iov_len_spec, (proj2 (Z.leb_le _ _) Hm) by done. rewrite E.
  eexists. split; [reflexivity|]. unfold after_bytes. by rewrite Ep.
Qed.

Lemma stage_readv fd iovs :
  iovs_ok iovs → let n := Z.min (total_len iovs) (capacity b) in
  ∃ a0, sc_stage (mkReadv fd iovs) (request_alloc 6 2 b) =
      Return (Ok ([as_usize fd; 0; n], (mkOutRef ty_u8 (b_ptr b + 88) n 0, iovs)), a0) ∧
    a_ptr a0 = b_ptr b + 88 + n.
Proof.
  intros [Hv Hm] n. destruct (request_alloc_bytes b (hl_wf _) Hcap) as (Hwf & El & Hi & Ep).
  destruct (byte_slices_len iovs Hv) as [Hl Ht].
  pose proof (out_bytes_max _ Hwf Hi (total_len iovs) Ht) as E. rewrite El, Ep in E. fold n in E.
  change (sc_stage (mkReadv fd iovs)) with (Readv_stage (mkReadv fd iovs)).
  unfold Readv_stage, must, mbind, stageM_bind, fal_bind. cbn [readv_iovs].
  rewrite iov_len_spec, (proj2 (Z.leb_le _ _) Hm) by done. rewrite E.
  eexists. split; [reflexivity|]. unfold after_bytes. by rewrite Ep.
Qed.

(** What gathering a vector outside the block into it commits. *)
Lemma gather_committed iovs n m m' :
  byte_slices iovs → 0 ≤ n ≤ total_len iovs → n ≤ capacity b →
  Forall (outside_block w) iovs → same_outside (b_ptr b) (b_ptr b + 88) (w_mem w) m →
  InRef_copy_from_iter_unchecked (mkInRef ty_u8 (b_ptr b + 88) n 0) (take_capacity n iovs) m = Return (tt, m') →
  read_bytes m' (b_ptr b + 88) n = take (Z.to_nat n) (iov_bytes iovs (w_mem w)).
Proof.
  intros Hb Hn Hc Ho Hm Hcopy. unfold capacity in Hc.
  pose proof (take_capacity_total iovs n Hb ltac:(lia)) as Ht. rewrite Z.min_l in Ht by lia.
  assert (Ho' : Forall (λ v, 0 ≤ g_bytes v ∧ outside_block w v) (take_capacity n iovs)).
  { apply take_capacity_Forall; [done|lia| |].
    - intros v k Hk [He [Hg Hv]]. split; [rewrite borrow_bytes_take; lia|].
      apply outside_block_take; [lia|lia|done].
    - apply Forall_forall. intros v Hv. unfold byte_slices in Hb. rewrite Forall_forall in Hb, Ho.
      destruct (Hb v Hv) as [? He]. split; [unfold g_bytes; rewrite He; lia|by apply Ho]. }
  apply copy_from_iter_content in Hcopy.
  - rewrite Ht in Hcopy. cbn [in_ptr] in Hcopy. rewrite Hcopy, <- gather_take by (done || lia).
    eapply outside_bind; [exact Ho'|exact Hm|fold b; lia].
  - eapply Forall_impl; [exact Ho'|]. intros v [? Hv]. split; [done|]. rewrite Ht.
    cbn [in_ptr]. unfold outside_block in Hv. fold b in Hv. lia.
Qed.

(** [writev] hands the host one [SYS_write] item whose data starts with
    the bytes of the vector in order, as many as fit; the host's count is
    checked as for [write]. *)
Theorem writev_transfer fd iovs :
  iovs_ok iovs → Forall (outside_block w) iovs →
  let n := Z.min (total_len iovs) (capacity b) in
  ∃ data w1, sent w (syscall_item SYS_write [as_usize fd; 0; n] data) w1 ∧
    take (Z.to_nat n) data = take (Z.to_nat n) (iov_bytes iovs (w_mem w)) ∧
    handler.writev fd iovs w = with_reply w1 (λ r w2,
      match r with
      | Ok k => if n <? k then Attacked else Return (Ok k, w2)
      | Err e => Return (Err e, w2)
      end).
Proof.
  intros Hv Ho n. destruct (stage_writev fd iovs Hv) as (a0 & Es & Ep). fold n in Es, Ep.
  destruct (byte_slices_len iovs (proj1 Hv)) as [_ Ht].
  assert (Hn : 0 ≤ n ≤ total_len iovs) by (unfold n, capacity; lia).
  assert (Hok : sl_ok (mkWritev fd iovs)) by exact Hv.
  destruct (execute_staged (mkWritev fd iovs) w _ _ _ Hok Hcap Es)
    as (c & data & w1 & Hs & (m & m' & Hc & Hm & Hin) & Hle & Hx). fold b in Hm, Hin, Hle, Hx.
  exists data, w1. split; [exact Hs|]. injection Hc as <- Hm'. split.
  - rewrite <- (sent_data _ _ _ _ _ Hs) at 1. fold b. rewrite read_bytes_take by lia.
    rewrite <- (gather_committed iovs n m m'); [|apply Hv|lia|lia|done|done|by rewrite <- Hm'].
    apply read_bytes_ext. intros x Hx'. apply Hin. lia.
  - unfold handler.writev. open_reply Hx Hs k. fold b.
    simpl. by destruct (n <? k).
Qed.

(** [readv] scatters what the host returned: for a count [k] within what
    was asked for, the vector -- buffers that overlap neither each other nor the
    block -- holds the first [k] bytes of the item's data followed by the bytes
    it held before. *)
Theorem readv_transfer fd iovs :
  iovs_ok iovs → separate (b_ptr b) (b_ptr b + 8 * b_len b) iovs →
  let n := Z.min (total_len iovs) (capacity b) in
  ∃ data w1, sent w (syscall_item SYS_read [as_usize fd; 0; n] data) w1 ∧
    n ≤ Z.of_nat (length data) ∧
    ∃ scatter : Z → mem → mem,
      (∀ k m, 0 ≤ k ≤ n → same_except iovs m (scatter k m) ∧
        iov_bytes iovs (scatter k m) = read_bytes m (b_ptr b + 88) k ++ drop (Z.to_nat k) (iov_bytes iovs m)) ∧
      handler.readv fd iovs w = with_reply w1 (λ r w2,
        match r with
        | Ok k => if n <? k then Attacked else Return (Ok k, mkWorld (w_self w2) (scatter k (w_mem w2)))
        | Err e => Return (Err e, w2)
        end).
Proof.
  intros Hv Hsep n. destruct (stage_readv fd iovs Hv) as (a0 & Es & Ep). fold n in Es, Ep.
  destruct (byte_slices_len iovs (proj1 Hv)) as [_ Ht].
  assert (Hok : sl_ok (mkReadv fd iovs)) by exact Hv.
  destruct (execute_staged (mkReadv fd iovs) w _ _ _ Hok Hcap Es)
    as (c & data & w1 & Hs & (m0 & m' & Hc & _) & Hle & Hx). fold b in Hle, Hx.
  exists data, w1. split; [exact Hs|]. injection Hc as <- _. split; [lia|].
  set (out := mkOutRef ty_u8 (b_ptr b + 88) n 0).
  exists (λ k m, match OutRef_copy_to_iter_unchecked out (take_capacity k iovs) m with
                 | Return (_, m') => m' | _ => m end). split.
  - intros k m Hk. unfold n, capacity in Hk. split.
    + destruct (keeps_copy_to_iter iovs out (take_capacity k iovs)
        (take_capacity_covers iovs k (proj1 Hv)) m) as (u & m1 & -> & [Hf _] & _). exact Hf.
    + destruct (scatter_bytes iovs m (b_ptr b + 88) k) as (m1 & E & Hb); [apply Hv|lia| |].
      { eapply separate_weaken; [| |exact Hsep]; lia. }
      change (OutRef_copy_to_iter_unchecked out _ m) with
        (OutRef_copy_to_iter_unchecked (mkOutRef ty_u8 (b_ptr b + 88) k 0) (take_capacity k iovs) m).
      by rewrite E.
  - unfold handler.readv. open_reply Hx Hs k. fold b.
    cbn [sc_collect Readv_alloc Readv_collect out_len]. by destruct (n <? k).
Qed.

End transfer.

(** *** The properties at work *)

(** The text "hi" and a newline at address 100, and 8 bytes of buffers at 200
    and 300. *)
Definition hello_mem : mem := write_bytes (λ _, 0) 100 [104; 105; 10].
Definition hello : gref := mkGref 100 3 1.
Definition two_buffers : list gref := [mkGref 200 2 1; mkGref 300 6 1].

Lemma two_buffers_ok : iovs_ok two_buffers.
Proof. split; [|done]. repeat (apply Forall_cons_2; [done|]). done. Qed.

Lemma write_transfer_witness :
  ∃ data w1, sent (answering 3 hello_mem) (syscall_item SYS_write [1; 0; 3] data) w1 ∧
    take 3 data = [104; 105; 10].
Proof.
  destruct (@write_transfer keep keep_os keep_laws (answering 3 hello_mem) (keep_room _) 1 hello) as (data & w1 & Hs & Hd & _).
  - by split.
  - left. vm_compute. congruence.
  - exists data, w1. split; [exact Hs|exact Hd].
Defined.

Lemma read_transfer_witness :
  ∃ data w1, sent (answering 2 hello_mem) (syscall_item SYS_read [0; 0; 3] data) w1.
Proof.
  destruct (@read_transfer keep keep_os keep_laws (answering 2 hello_mem) (keep_room _) 0 hello) as (data & w1 & Hs & _); [by split|].
  exists data, w1. exact Hs.
Defined.

Lemma writev_transfer_witness :
  ∃ data w1, sent (answering 8 hello_mem) (syscall_item SYS_write [1; 0; 8] data) w1.
Proof.
  destruct (@writev_transfer keep keep_os keep_laws (answering 8 hello_mem) (keep_room _) 1 two_buffers two_buffers_ok)
    as (data & w1 & Hs & _).
  - repeat (apply Forall_cons_2; [left; vm_compute; congruence|]). done.
  - exists data, w1. exact Hs.
Defined.

Lemma readv_transfer_witness :
  ∃ data w1, sent (answering 5 hello_mem) (syscall_item SYS_read [0; 0; 8] data) w1.
Proof.
  destruct (@readv_transfer keep keep_os keep_laws (answering 5 hello_mem) (keep_room _) 0 two_buffers two_buffers_ok)
    as (data & w1 & Hs & _).
  - split; [|split; [|done]]; intros x Hx; unfold in_gref, g_bytes in Hx; simpl in Hx;
      (split; [simpl; lia|]); repeat (apply Forall_cons_2; [unfold in_gref, g_bytes; simpl; lia|]);
      apply Forall_nil_2.
  - exists data, w1. exact Hs.
Defined.
