(* ===== verification/Guarantees.v ===== *)
(** * What the guest side guarantees

    The properties of [Handler::execute] for every call, against any host that
    is confined to the block, and of the methods that do more than execute a
    call. *)

From S2P Require Import Prelude Memory Libc PhaseAlloc StagedValues Items Calls CallLaws StageKit.
From S2P Require Import SockTypes Syscalls Stubs SyscallLaws NumberCalls Platform Handler Request HandlerCalls.
From S2P Require Import Dispatch Scenario Transfer.

(** ** Every call *)

(** C25: whatever the host does with the block, executing a call returns; the
    block stays where it is; the only memory that changes is the block and --
    when the call succeeds -- the buffers the caller passed for output. *)
Theorem execute_integrity {H T : Type} `{HandlerLaws H, !HandlerReturns H, CallLaws T} (call : T) (w : world H) :
  cl_ok call →
  let b := handler_block_mut (w_self w) in
  ∃ r w', execute call w = Return (r, w') ∧
    handler_block_mut (w_self w') = b ∧
    same_except (block_region b :: match r with Ok _ => cl_outs call | Err _ => [] end) (w_mem w) (w_mem w').
Proof.
  intros Hok b. destruct (execute_law call w Hok) as (r & w' & E & Hb & Hs & _).
  exists r, w'. split; [done|]. split; [done|]. by destruct r.
Qed.

(** What was committed at [lo] is the data of the item. *)
Lemma committed_data m m1 lo (data : list Z) :
  same_in lo (lo + Z.of_nat (length data)) m m1 → holds m1 lo data → holds m lo data.
Proof.
  unfold holds. intros Hs Hd. rewrite <- Hd at 2. symmetry. by apply read_bytes_ext.
Qed.

(** C26: what a system call puts on the wire.  Either it cannot be staged, and
    nothing happens; or the host gets a block with one item: the call's number,
    the arguments the call staged, [-ENOSYS], and as data what the call
    committed, nothing else having changed.  The result is the host's error or
    what the call collects from the return word of that item. *)
Theorem syscall_on_wire {H T : Type} `{HandlerLaws H, SyscallLaws T} (call : T) (w : world H) :
  sl_ok call →
  let b := handler_block_mut (w_self w) in
  (¬ syscall_stageable call b ∧ ∃ e, execute call w = Return (Err e, w)) ∨
  ∃ argv s a data c w1, sc_stage call (request_alloc 6 2 b) = Return (Ok (argv, s), a) ∧
    (∃ m m', sc_commit s m = Return (c, m') ∧ same_outside (b_ptr b) (b_ptr b + 88) (w_mem w) m ∧
       holds m' (b_ptr b + 88) data) ∧
    (length argv ≤ 6)%nat ∧ sent w (syscall_item sc_NUM argv data) w1 ∧
    execute call w = answered w1 72 (λ v, collected (sc_collect c (sc_ret v))).
Proof.
  intros Hok b. destruct (execute_syscall call w Hok) as [?|(argv & s & c & r & w1 & Hr & Hx)]; [by left|].
  right. destruct Hr as [(a & Es & _) [Hl _] Hi Hwf Hself Hblk Hfr Hmw (m & m' & Hc & Hm & Hin) _].
  fold b in Es, Hm, Hin.
  assert (Hs : sent w (syscall_item sc_NUM argv (ri_data r)) w1) by (unfold syscall_item; rewrite <- Hi; by split).
  exists argv, s, a, (ri_data r), c, w1. split; [done|]. split.
  - change (a_ptr (request_alloc 6 2 b)) with (b_ptr b + 16 + 72) in *.
    replace (b_ptr b + 16 + 72) with (b_ptr b + 88) in * by lia.
    exists m, m'. split_and!; [done|done|]. eapply committed_data; [exact Hin|].
    replace (b_ptr b + 88) with (b_ptr b + 16 + 72) by lia. exact (sent_holds _ _ _ Hs).
  - split; [done|]. split; [done|]. refine (eq_trans Hx _).
    unfold syscall_reply, reply, answered, collected. by rewrite Hself, reply_word.
Qed.

(** The same for the calls to Enarx itself and to the debugger, whose items
    have four arguments and one return word. *)
Theorem number_on_wire {H T : Type} `{HandlerLaws H, NumberLaws T} (call : T) (w : world H) :
  nl_ok call →
  let b := handler_block_mut (w_self w) in
  (¬ number_stageable call b ∧ ∃ e, execute call w = Return (Err e, w)) ∨
  ∃ argv s a data c w1, nc_stage call (request_alloc 4 1 b) = Return (Ok (argv, s), a) ∧
    (∃ m m', nc_commit s m = Return (c, m') ∧ same_outside (b_ptr b) (b_ptr b + 64) (w_mem w) m ∧
       holds m' (b_ptr b + 64) data) ∧
    (length argv ≤ 4)%nat ∧ sent w (number_item nc_ITEM nc_NUM argv data) w1 ∧
    execute call w = answered w1 56 (λ v, collected (nc_collect c (nc_ret v))).
Proof.
  intros Hok b. destruct (execute_number call w Hok) as [?|(argv & s & c & r & w1 & Hr & Hx)]; [by left|].
  right. destruct Hr as [(a & Es & _) [Hl _] Hi Hwf Hself Hblk Hfr Hmw (m & m' & Hc & Hm & Hin) _].
  fold b in Es, Hm, Hin.
  assert (Hs : sent w (number_item nc_ITEM nc_NUM argv (ri_data r)) w1) by (unfold number_item; rewrite <- Hi; by split).
  exists argv, s, a, (ri_data r), c, w1. split; [done|]. split.
  - change (a_ptr (request_alloc 4 1 b)) with (b_ptr b + 16 + 48) in *.
    replace (b_ptr b + 16 + 48) with (b_ptr b + 64) in * by lia.
    exists m, m'. split_and!; [done|done|]. eapply committed_data; [exact Hin|].
    apply sent_holds in Hs. cbn [number_item call_item ri_kind ri_data] in Hs.
    replace (USIZE_COUNT nc_ITEM) with 6 in Hs by by destruct nl_kind as [-> | ->].
    by replace (b_ptr b + 64) with (b_ptr b + 16 + 8 * 6) by lia.
  - split; [done|]. split; [done|]. refine (eq_trans Hx _). unfold number_reply, reply, answered, collected.
    rewrite Hself. by replace (b_ptr (handler_block_mut (w_self w)) + 24 + 8 * Z.of_nat 4)
      with (b_ptr (handler_block_mut (w_self w)) + 56) by lia.
Qed.

(** A stub never reaches the host: it is computed in the keep, whatever the
    host is, and the block is not touched. *)
Theorem stub_stays_inside {H T : Type} `{HandlerLaws H, Stub T} (call : T) (w : world H) :
  2 ≤ b_len (handler_block_mut (w_self w)) →
  execute call w = collected (stub_collect call) w.
Proof.
  intros Hb. destruct (hl_wf (w_self w)) as [Hp Hl H8 Hm _].
  set (b := handler_block_mut (w_self w)) in *.
  assert (E := reserve_layout_exact (mkLayout 16 8) (section (call_stage (w_mem w) call))
    (Alloc_stage (Alloc_new b)) (call, 0) (mkAlloc (b_ptr b) (8 * b_len b - 16) 0)).
  unfold execute, reserve_input, reserve_input_layout, mbind, stageM_bind, fal_bind. fold b.
  change Header_layout with (mkLayout 16 8). rewrite E; clear E; simpl;
    try (unfold alloc_wf, layout_wf; simpl; lia); try dlia; try done.
  split; unfold alloc_wf; simpl; lia.
Qed.

(** ** After an attack *)

Section attacked.
Context {H : Type} `{HandlerLaws H}.

(** The block of [w1] asks the host for [exit(1)]; nothing else differs from [w]. *)
Definition asks_exit (w w1 : world H) : Prop := ∃ data, sent w (syscall_item SYS_exit [1] data) w1.

(** One round: the request is sent, and the next round follows in the memory
    the host leaves, whether it reports an error or a success. *)
Lemma attacked_round (w : world H) :
  13 ≤ b_len (handler_block_mut (w_self w)) →
  ∃ w1, asks_exit w w1 ∧ ∀ fuel,
    attacked (S fuel) w = ('(_, w2) ← sally w1; attacked fuel w2).
Proof.
  intros Hlen. assert (Hok : sl_ok (mkExit 1)) by exact I.
  destruct (execute_staged (mkExit 1) w _ _ _ Hok Hlen eq_refl) as (c & data & w1 & Hs & _ & _ & Hx).
  exists w1. split; [by exists data|]. intros fuel.
  cbn [attacked]. unfold exit_with, call_never, mbind, handlerM_bind, fal_bind, outcome_bind.
  rewrite Hx. unfold syscall_reply, reply, mbind, outcome_bind.
  destruct (sally w1) as [[[[]|e] [self m]]| | |]; cbn; try done.
  repeat case_match; simplify_eq/=; try done; by destruct (attacked fuel _) as [[]| | |].
Qed.

(** A host that resumes the keep whenever it is asked for [exit(1)] is asked for ever. *)
Lemma attacked_diverges (m : mem) (b : block) :
  13 ≤ b_len b →
  (∀ w0 w1, handler_block_mut (w_self w0) = b → same_except [block_region b] m (w_mem w0) →
     asks_exit w0 w1 → ∃ r w2, sally w1 = Return (r, w2)) →
  ∀ fuel w, handler_block_mut (w_self w) = b → same_except [block_region b] m (w_mem w) →
    attacked fuel w = Diverged.
Proof.
  intros Hlen Hhost. induction fuel as [|fuel IH]; intros w Hb Hm; [done|].
  rewrite <- Hb in Hlen. destruct (attacked_round w Hlen) as (w1 & Ha & E). rewrite E.
  destruct (Hhost w w1 Hb Hm Ha) as (r & w2 & Es). rewrite Es. cbn. destruct Ha as [data Hs].
  destruct (hl_sally _ _ _ Es) as (Hb2 & Hm2 & _). pose proof (sent_frame _ _ _ Hs) as Hm1.
  rewrite (sent_self _ _ _ Hs) in *. rewrite Hb in *. apply IH; [done|].
  transitivity (w_mem w); [done|]. by transitivity (w_mem w1).
Qed.

(** C38: once an attack is detected the keep only asks to be ended, and never goes on.
    Each round of [attacked] puts the request [exit(1)] in the block, hands the block
    to the host, and is followed by the next round in whatever memory the host leaves,
    also when the host reports an error or claims success; if the host does not
    resume the keep, neither does [attacked].  A host that resumes the keep at these
    requests, made with nothing but the block changed, is asked for ever: no number
    of steps is enough for [attacked] to return or to panic.  What the host would do at
    any other request is left open, so none is made. *)
Theorem attacked_never_returns (w : world H) :
  let b := handler_block_mut (w_self w) in
  13 ≤ b_len b →
  (∃ w1, asks_exit w w1 ∧ ∀ fuel,
     attacked (S fuel) w =
       match sally w1 with
       | Return (_, w2) => attacked fuel w2
       | Panicked => Panicked | Attacked => Attacked | Diverged => Diverged
       end) ∧
  ((∀ w0 w1, handler_block_mut (w_self w0) = b → same_except [block_region b] (w_mem w) (w_mem w0) →
      asks_exit w0 w1 → ∃ r w2, sally w1 = Return (r, w2)) →
   ∀ fuel, attacked fuel w = Diverged).
Proof.
  intros b Hlen. split; [exact (attacked_round w Hlen)|].
  intros Hhost fuel. exact (attacked_diverges (w_mem w) b Hlen Hhost fuel w eq_refl (reflexivity _)).
Qed.

End attacked.

(** ** Passthrough calls answered by the scripted host *)

Lemma answering_passthrough {T : Type} `{PassthroughLaws T} (call : T) (w : world keep) ret :
  sl_ok call → k_script (w_self w) = [(9%nat, ret)] → is_usize ret →
  ∃ m', execute call w = Return (Ok (spt_ret ret), mkWorld (w_self w) m').
Proof.
  intros Hok Hk Hr.
  assert (Es : sc_stage call (request_alloc 6 2 keep_block) =
    Return (Ok (spt_stage call, ()), request_alloc 6 2 keep_block)) by reflexivity.
  destruct (execute_staged call w _ _ _ Hok (keep_room w) Es)
    as (c & data & w1 & Hs & _ & _ & Hx).
  eexists. refine (eq_trans Hx _). unfold syscall_reply, reply, mbind, outcome_bind.
  cbn [sally keep_handler]. rewrite (sent_self _ _ _ Hs), Hk. cbn [w_mem].
  rewrite reply_word.
  assert (E : read_usize (keep_answer [(9%nat, ret)] (w_mem w1)) (b_ptr keep_block + 72) = ret)
    by by apply read_write_usize.
  cbn [handler_block_mut keep_handler]. rewrite E. reflexivity.
Qed.

(** The descriptor a successful [dup] creates is lost: whatever the host
    returns, the registers of the caller are set to [0, 0]. *)
Theorem dup_loses_descriptor (oldfd newfd : Z) (m : mem) :
  0 ≤ newfd < ERRNO_START →
  ∃ m', syscall SYS_dup oldfd 0 0 0 0 0 (answering newfd m) =
    Return (Ok (0, 0), mkWorld (w_self (answering newfd m)) m').
Proof.
  intros Hfd. assert (Hok : sl_ok (mkDup (as_c_int oldfd))) by exact I.
  destruct (answering_passthrough (mkDup (as_c_int oldfd)) (answering newfd m) newfd Hok eq_refl)
    as [m' E]; [unfold is_usize, ERRNO_START, usize_MAX, MAX_ERRNO in *; lia|].
  exists m'. change (syscall _ _ _ _ _ _ _) with (ret_unit (H := keep) (handler.dup (as_c_int oldfd))).
  unfold ret_unit, handler.dup, mbind, handlerM_bind, fal_bind.
  change (@os_handler keep keep_os) with keep_handler. rewrite E. cbn [spt_ret Dup_passthrough].
  unfold Result_unit. rewrite (proj2 (Z.leb_gt _ _)) by lia. reflexivity.
Qed.

(** ** Calls that are answered in the keep or forwarded *)

Section maybe_alloc.
Context {H T : Type} `{HandlerLaws H, MaybeAlloc T}.

(** Wrapping the staged value does not change the allocation. *)
Lemma reserve_section_map {A B : Type} l (f : stageM A) (h : A → B) a :
  reserve_input l (section (x ← f; mret (h x))) a =
  match reserve_input l (section f) a with
  | Return (Ok ((x, len), er), a') => Return (Ok ((h x, len), er), a')
  | Return (Err e, a') => Return (Err e, a')
  | Panicked => Panicked
  | Attacked => Attacked
  | Diverged => Diverged
  end.
Proof.
  unfold reserve_input, reserve_input_layout, reserve_layout, section, mbind, stageM_bind, fal_bind,
    outcome_bind. simpl.
  destruct (checked_sub _ _) as [f1|]; [|done]. destruct (checked_sub _ _) as [f2|]; [|done].
  destruct (f _) as [[[x|e] a1]| | |]; simpl; try done.
  destruct (add_usize _ _); simpl; try done. destruct (add_usize _ _); simpl; try done.
  destruct (add_usize _ _); simpl; try done. by destruct (allocate_layout _ _) as [[[?|?] ?]| | |].
Qed.

Lemma execute_forward (t : T) u (w : world H) :
  ma_stage (w_mem w) t = Ok (UAlloc u) → execute t w = execute u w.
Proof.
  intros E. unfold execute. cbn [call_stage maybe_alloc_call alloc_call].
  assert (Es : maybe_alloc_stage (w_mem w) t = (x ← alloc_call_stage u; mret (UAlloc x))).
  { unfold maybe_alloc_stage. rewrite E. reflexivity. }
  rewrite Es, reserve_section_map.
  change (Staged ma_Alloc) with (StagedCall (ac_Staged (T := ma_Alloc))).
  destruct (reserve_input _ (section (alloc_call_stage u)) _) as [[[[[s len] er]|e] a']| | |]; try done.
  cbn [mbind outcome_bind call_commit maybe_alloc_call maybe_alloc_commit].
  unfold mbind, ioM_bind, io_bind at 1.
  change (@call_commit ma_Alloc alloc_call s (w_mem w)) with (alloc_call_commit s (w_mem w)).
  destruct (alloc_call_commit s (w_mem w)) as [[c m]| | |]; reflexivity.
Qed.

Lemma execute_answer (t : T) v (w : world H) :
  ma_stage (w_mem w) t = Ok (UStub v) → 2 ≤ b_len (handler_block_mut (w_self w)) →
  execute t w = Return (Ok v, w).
Proof.
  intros E Hb. destruct (hl_wf (w_self w)) as [Hp Hl H8 Hm _].
  set (b := handler_block_mut (w_self w)) in *.
  assert (Es : maybe_alloc_stage (w_mem w) t = mret (UStub v)).
  { unfold maybe_alloc_stage. by rewrite E. }
  assert (R := reserve_layout_exact (mkLayout 16 8) (section (call_stage (w_mem w) t))
    (Alloc_stage (Alloc_new b)) (UStub v, 0) (mkAlloc (b_ptr b) (8 * b_len b - 16) 0)).
  unfold execute, reserve_input, reserve_input_layout, mbind, stageM_bind, fal_bind. fold b.
  change Header_layout with (mkLayout 16 8). rewrite R; clear R; simpl;
    try (unfold alloc_wf, layout_wf; simpl; lia); try dlia; try done.
  - by destruct w.
  - by rewrite Es.
  - split; unfold alloc_wf; simpl; lia.
Qed.

End maybe_alloc.

(** The only file a guest can open on the host is [/etc/resolv.conf], for
    reading: such an [open] is forwarded; any other path, or any flag beyond
    [O_RDONLY] and [O_CLOEXEC], is refused without involving the host. *)
Theorem open_confined {H : Type} `{HandlerOS H, !HandlerLaws H} (path : gref) (flags : Z) (mode : option Z)
    (w : world H) :
  2 ≤ b_len (handler_block_mut (w_self w)) →
  handler.open path flags mode w =
    if decide (borrow path (w_mem w) = resolv_conf ∧ Z.land flags (Z.lnot (Z.lor O_RDONLY O_CLOEXEC)) = 0)
    then (r ← execute (H := H) (mkAllocOpen (mkOpen path flags mode)); try r) w
    else Return (Err EACCES, w).
Proof.
  intros Hb. unfold handler.open, mbind, handlerM_bind, fal_bind.
  pose proof (execute_forward (H := H) (mkOpen path flags mode) (mkAllocOpen (mkOpen path flags mode)) w) as Hf.
  pose proof (execute_answer (H := H) (mkOpen path flags mode) (Err EACCES) w) as Ha.
  cbn [ma_stage Open_maybe_alloc] in Hf, Ha. unfold Open_stage in Hf, Ha. cbn [open_pathname open_flags] in Hf, Ha.
  match goal with |- context [decide ?P] => destruct (decide P) as [[Hp Hfl]|Hd] end.
  - rewrite (bool_decide_eq_true_2 _ Hp), Hfl in Hf. by rewrite Hf.
  - rewrite Ha; [done| |done].
    destruct (bool_decide _) eqn:E1; [|done]. apply bool_decide_eq_true in E1.
    destruct (_ =? 0) eqn:E2; [|done]. bool_to_prop. by destruct Hd.
Qed.

(** ** Decoding what the host returned *)

(** How a return word is read: up to [ERRNO_START] it is the value (for a
    [c_int], if it is one), above it is an error number between 1 and 4097. *)
Theorem result_decoding (v : Z) :
  is_usize v →
  (v < ERRNO_START ∧ Result_unit v = Ok tt ∧ Result_usize v = Ok v ∧
   Result_c_int v = if v <=? c_int_MAX then Ok v else Err EOVERFLOW) ∨
  (∃ e, 1 ≤ e ≤ 4097 ∧ v = as_usize (- e) ∧
    Result_unit v = Err e ∧ Result_usize v = Err e ∧ Result_c_int v = Err e).
Proof.
  intros Hv. unfold is_usize, usize_MAX in Hv. unfold Result_unit, Result_usize, Result_c_int.
  assert (Es : ERRNO_START = 2 ^ 64 - 4097) by done.
  destruct (ERRNO_START <=? v) eqn:E; bool_to_prop; [right|left].
  - exists (2 ^ 64 - v). assert (Ee : errno_of v = 2 ^ 64 - v) by (apply errno_of_word; unfold usize_MAX; lia).
    rewrite Ee. split_and!; try done; [lia|lia|]. unfold as_usize.
    replace (- (2 ^ 64 - v)) with (v + (-1) * 2 ^ 64) by lia. rewrite Z.mod_add by lia.
    rewrite Z.mod_small; lia.
  - split_and!; try done. destruct (v <=? c_int_MAX) eqn:E2; [|done]. bool_to_prop.
    unfold c_int_MAX in E2. f_equal. unfold as_c_int. rewrite Z.mod_small by lia.
    by rewrite (proj2 (Z.ltb_lt _ _)) by lia.
Qed.

(** ** [poll] *)

(** Two descriptors, of which the host reports the second one ready. *)
Definition pollfd_word (fd events revents : Z) : Z := fd + 2 ^ 32 * events + 2 ^ 48 * revents.
Definition poll_mem : mem :=
  write_usize (write_usize (λ _, 0) 200 (pollfd_word 3 1 0)) 208 (pollfd_word 4 1 0).
Definition poll_host : world keep :=
  mkWorld (mkKeep [(12%nat, pollfd_word 4 1 1); (9%nat, 1)] ThreadLocalStorage_new) poll_mem.

(** [poll] returns the number of ready descriptors, and the guest copies
    back only that many entries from the front: with the second of two
    descriptors ready, the guest is told that one is and sees none. *)
Theorem poll_drops_ready :
  match handler.poll (mkGref 200 2 8) 0 poll_host with
  | Return (Ok n, w) =>
      n = 1 ∧ read_usize (w_mem w) (4096 + 96) = pollfd_word 4 1 1 ∧
      read_usize (w_mem w) 200 = pollfd_word 3 1 0 ∧ read_usize (w_mem w) 208 = pollfd_word 4 1 0
  | _ => False
  end.
Proof. by vm_compute. Qed.

(** ** Signal actions *)

Section signals.
Context {H : Type} `{HandlerOSLaws H} (w : world H).
Let tls := thread_local_storage (w_self w).
Context (Htls : length (actions tls) = Z.to_nat SIGRTMAX).

(** An installed action is the one read back, and the actions of the other
    signals are kept. *)
Theorem rt_sigaction_installs signum act :
  0 ≤ signum < SIGRTMAX →
  ∃ w1, handler.rt_sigaction signum (Some act) false 8 w = Return (Ok None, w1) ∧
    handler.rt_sigaction signum None true 8 w1 = Return (Ok (Some (read_words (w_mem w) (g_ptr act) 4)), w1) ∧
    w_mem w1 = w_mem w ∧
    ∀ s, s ≠ signum → 0 ≤ s < SIGRTMAX →
      handler.rt_sigaction s None true 8 w1 = Return (Ok (nth (Z.to_nat s) (actions tls) None), w1).
Proof.
  intros Hs. unfold SIGRTMAX in *.
  assert (Hu : ∀ s, 0 ≤ s < 64 → as_usize s = s) by (intros; apply as_usize_small; unfold is_usize, usize_MAX; lia).
  unfold handler.rt_sigaction at 1. fold tls. unfold SIGRTMAX.
  rewrite (proj2 (Z.leb_gt _ _)), (Hu signum), Htls by lia. simpl Z.to_nat.
  rewrite (proj2 (Z.ltb_lt _ _)) by lia. simpl. eexists. split; [reflexivity|].
  set (new := Some _). split_and!; [|done|].
  - unfold handler.rt_sigaction, SIGRTMAX. cbn [w_self w_mem]. rewrite hos_get. cbn [actions].
    rewrite (proj2 (Z.leb_gt _ _)), (Hu signum), length_insert, Htls by lia. simpl Z.to_nat.
    rewrite (proj2 (Z.ltb_lt _ _)) by lia. simpl. rewrite nth_lookup, list_lookup_insert_eq by lia. done.
  - intros s Hne Hs'. unfold handler.rt_sigaction, SIGRTMAX. cbn [w_self w_mem]. rewrite hos_get. cbn [actions].
    rewrite (proj2 (Z.leb_gt _ _)), (Hu s), length_insert, Htls by lia. simpl Z.to_nat.
    rewrite (proj2 (Z.ltb_lt _ _)) by lia. simpl. rewrite !nth_lookup, list_lookup_insert_ne by lia. done.
Qed.

(** A negative signal number is not rejected: it indexes the table out of
    range, and the keep panics. *)
Theorem rt_sigaction_negative_panics signum act oldact :
  - 2 ^ 31 ≤ signum < 0 → act ≠ None ∨ oldact = true →
  handler.rt_sigaction signum act oldact 8 w = Panicked.
Proof.
  intros Hs Hargs. unfold handler.rt_sigaction. fold tls. unfold SIGRTMAX in *. rewrite (proj2 (Z.leb_gt _ _)) by lia.
  assert (Hu : as_usize signum = 2 ^ 64 + signum).
  { unfold as_usize. rewrite <- (Z.mod_add signum 1) by lia. rewrite Z.mod_small; lia. }
  rewrite Htls, Hu. simpl Z.to_nat. rewrite (proj2 (Z.ltb_ge _ _)) by lia. simpl.
  destruct oldact; [done|]. destruct act; [done|]. by destruct Hargs as [[]|].
Qed.

End signals.

(** ** The properties at work *)

Lemma hello_ok : slice_ok ty_u8 hello.
Proof. by split. Qed.

Lemma execute_integrity_witness :
  ∃ r w', execute (mkRead 0 hello) (answering 2 hello_mem) = Return (r, w') ∧
    same_except (block_region keep_block :: match r with Ok _ => [hello] | Err _ => [] end)
      hello_mem (w_mem w').
Proof.
  assert (Hok : cl_ok (mkRead 0 hello)) by exact hello_ok.
  destruct (execute_integrity (mkRead 0 hello) (answering 2 hello_mem) Hok) as (r & w' & E & _ & Hs).
  exists r, w'. split; [exact E|exact Hs].
Defined.

Lemma syscall_on_wire_witness :
  ∃ argv data w1, sent (answering 3 hello_mem) (syscall_item SYS_write argv data) w1.
Proof.
  assert (Hok : sl_ok (mkWrite 1 hello)) by exact hello_ok.
  assert (Hr : returned_ok (execute (mkWrite 1 hello) (answering 3 hello_mem)) = true) by by vm_compute.
  destruct (syscall_on_wire (mkWrite 1 hello) (answering 3 hello_mem) Hok)
    as [[_ [e E]]|(argv & s & a & data & c & w1 & _ & _ & _ & Hs & _)]; [exfalso; exact (eq_true_false_abs _ Hr (f_equal returned_ok E))|].
  exists argv, data, w1. exact Hs.
Defined.

Lemma number_on_wire_witness :
  ∃ argv data w1, sent (answering 3 hello_mem) (number_item Enarxcall (enarxcall.as_usize enarxcall.MemInfo) argv data) w1.
Proof.
  assert (Hok : nl_ok enarx.mkMemInfo) by exact I.
  assert (Hr : returned_ok (execute enarx.mkMemInfo (answering 3 hello_mem)) = true) by by vm_compute.
  destruct (number_on_wire enarx.mkMemInfo (answering 3 hello_mem) Hok)
    as [[_ [e E]]|(argv & s & a & data & c & w1 & _ & _ & _ & Hs & _)]; [exfalso; exact (eq_true_false_abs _ Hr (f_equal returned_ok E))|].
  exists argv, data, w1. exact Hs.
Defined.

Lemma stub_stays_inside_witness :
  execute mkGetpid (answering 0 hello_mem) = Return (Ok 1000, answering 0 hello_mem).
Proof.
  refine (eq_trans (stub_stays_inside mkGetpid (answering 0 hello_mem) _) _); [by vm_compute|reflexivity].
Defined.

Lemma attacked_never_returns_witness :
  attacked 5 (answering (usize_MAX - 37) hello_mem) = Diverged.
Proof.
  destruct (attacked_never_returns (answering (usize_MAX - 37) hello_mem) (keep_room _)) as [_ Hd].
  apply Hd. intros w0 w1 _ _ _. exact (hr_sally w1).
Defined.

Lemma dup_loses_descriptor_witness :
  ∃ m', syscall SYS_dup 1 0 0 0 0 0 (answering 7 hello_mem) =
    Return (Ok (0, 0), mkWorld (w_self (answering 7 hello_mem)) m').
Proof. apply (dup_loses_descriptor 1 7 hello_mem). split; [lia|reflexivity]. Defined.

Lemma open_confined_witness :
  handler.open hello O_RDONLY None (answering 7 hello_mem) = Return (Err EACCES, answering 7 hello_mem).
Proof.
  assert (Hb : 2 ≤ b_len (handler_block_mut (w_self (answering 7 hello_mem)))) by by vm_compute.
  pose proof (@open_confined keep keep_os keep_laws hello O_RDONLY None (answering 7 hello_mem) Hb) as E.
  match type of E with context [decide ?P] => destruct (decide P) as [[Hp _]|] end; [|exact E].
  vm_compute in Hp. congruence.
Defined.

Lemma result_decoding_witness : ∃ e, 1 ≤ e ≤ 4097 ∧ as_usize (- ENOENT) = as_usize (- e).
Proof.
  destruct (result_decoding (as_usize (- ENOENT)) (as_usize_range _)) as [[H _]|(e & He & E & _)].
  - by vm_compute in H.
  - exists e. split; [exact He|exact E].
Defined.

Lemma rt_sigaction_installs_witness :
  ∃ w1, handler.rt_sigaction 2 (Some hello) false 8 (answering 0 hello_mem) = Return (Ok None, w1).
Proof.
  destruct (@rt_sigaction_installs keep keep_os keep_os_laws (answering 0 hello_mem) eq_refl 2 hello)
    as (w1 & E & _); [done|]. exists w1. exact E.
Defined.

Lemma rt_sigaction_negative_panics_witness :
  handler.rt_sigaction (-1) None true 8 (answering 0 hello_mem) = Panicked.
Proof. apply (@rt_sigaction_negative_panics keep keep_os (answering 0 hello_mem) eq_refl); [done|by right]. Defined.
