(* ===== verification/DispatchLaws.v ===== *)
(** * The dispatcher is safe

    [Handler::syscall] with any number, any six registers and any host: which
    memory it may change, and the few arguments that make it panic. *)

From S2P Require Import Prelude Memory Libc PhaseAlloc StagedValues Items Calls CallLaws StageKit.
From S2P Require Import SockTypes Syscalls Stubs SyscallLaws NumberCalls Platform Handler Request HandlerCalls.
From S2P Require Import Dispatch Scenario.

(** The methods are unfolded to the call they execute. *)
Create HintDb methods.
#[export] Hint Unfold
  handler.accept handler.accept4 handler.bind handler.clock_getres handler.clock_gettime
  handler.close handler.connect handler.dup handler.dup2 handler.dup3 handler.epoll_create1
  handler.epoll_ctl handler.epoll_wait handler.epoll_pwait handler.eventfd2 handler.exit
  handler.exit_group handler.fcntl handler.fstat handler.getegid handler.geteuid handler.getgid
  handler.getpid handler.getsockname handler.getuid handler.ioctl handler.listen handler.nanosleep
  handler.open handler.poll handler.read handler.readlink handler.readv handler.recv
  handler.recvfrom handler.rt_sigprocmask handler.send handler.sendto handler.setsockopt
  handler.set_tid_address handler.sigaltstack handler.socket handler.sync handler.uname
  handler.write handler.writev : methods.

(** ** Running a method *)

Section runs.
Context {H : Type} `{HandlerOSLaws H}.

(** [runs outs f w]: [f] returns or detects an attack -- it does not panic and
    terminates -- and changes only the block and the regions [outs]. *)
Definition runs {A : Type} (outs : list gref) (f : handlerM H A) (w : world H) : Prop :=
  f w = Attacked ∨
  ∃ r w', f w = Return (r, w') ∧ handler_block_mut (w_self w') = handler_block_mut (w_self w) ∧
    same_except (block_region (handler_block_mut (w_self w)) :: outs) (w_mem w) (w_mem w').

Lemma runs_ret {A : Type} outs (x : A) w : runs outs (mret x) w.
Proof. right. by eexists _, _. Qed.

Lemma runs_try {A : Type} outs (r : result A) w : runs outs (try r) w.
Proof. right. by eexists _, _. Qed.

Lemma runs_unwrap {A : Type} outs (o : option (result A)) w : runs outs (unwrap_or_attacked o) w.
Proof. destruct o as [r|]; [right; by eexists _, _|by left]. Qed.

Lemma runs_bind {A B : Type} outs (f : handlerM H A) (k : A → handlerM H B) w :
  runs outs f w → (∀ x w', f w = Return (Ok x, w') → runs outs (k x) w') → runs outs (f ≫= k) w.
Proof.
  intros [Hf|(r & w1 & Hf & Hb & Hs)] Hk; unfold runs, mbind, handlerM_bind, fal_bind; rewrite Hf; [by left|].
  destruct r as [x|e]; [|right; by exists (Err e), w1].
  destruct (Hk x w1 Hf) as [Hx|(r & w2 & Hx & Hb2 & Hs2)]; rewrite Hx; [by left|].
  right. exists r, w2. rewrite Hb in *. split_and!; [done|done|]. by transitivity (w_mem w1).
Qed.

(** Steps that only look at memory. *)
Lemma runs_check {A B : Type} outs (r : result A) (k : A → handlerM H B) w :
  (∀ x, r = Ok x → runs outs (k x) w) → runs outs (try r ≫= k) w.
Proof. intros Hk. apply runs_bind; [apply runs_try|]. intros x w' [= Hr <-]. by apply Hk. Qed.

Lemma runs_with_mem {A B : Type} outs (f : mem → result A) (k : A → handlerM H B) w :
  (∀ x, f (w_mem w) = Ok x → runs outs (k x) w) → runs outs (with_mem f ≫= k) w.
Proof.
  intros Hk. apply runs_bind; [right; by eexists _, _|]. intros x w' [= Hr <-]. by apply Hk.
Qed.

Lemma runs_optional {A B : Type} outs p (f : Z → result A) (k : option A → handlerM H B) w :
  (∀ o, (p = 0 ∧ o = None ∨ ∃ x, p ≠ 0 ∧ o = Some x ∧ f p = Ok x) → runs outs (k o) w) →
  runs outs (optional p f ≫= k) w.
Proof.
  intros Hk. unfold optional. destruct (p =? 0) eqn:E; bool_to_prop.
  - apply runs_bind; [apply runs_ret|]. intros x w' [= <- <-]. apply Hk. by left.
  - apply runs_bind; [apply runs_check; intros; apply runs_ret|].
    intros o w' Ho. unfold mbind, handlerM_bind, fal_bind, try in Ho.
    destruct (f p) as [x|e] eqn:Ef; [|done]. injection Ho as <- <-. apply Hk. right. by exists x.
Qed.

Lemma optional_pure {A : Type} p (f : Z → result A) (w : world H) : ∃ r, optional p f w = Return (r, w).
Proof.
  unfold optional. destruct (p =? 0); [by eexists|].
  unfold mbind, handlerM_bind, fal_bind, try. by destruct (f p); eexists.
Qed.

Lemma runs_ret_unit outs (f : handlerM H unit) w : runs outs f w → runs outs (ret_unit f) w.
Proof. intros Hf. apply runs_bind; [done|]. intros. apply runs_ret. Qed.
Lemma runs_ret_usize outs (f : handlerM H Z) w : runs outs f w → runs outs (ret_usize f) w.
Proof. intros Hf. apply runs_bind; [done|]. intros. apply runs_ret. Qed.
Lemma runs_ret_as outs (f : handlerM H Z) w : runs outs f w → runs outs (ret_as f) w.
Proof. intros Hf. apply runs_bind; [done|]. intros. apply runs_ret. Qed.

(** ** Executing *)

Lemma runs_execute {T : Type} `{CallLaws T} outs (call : T) w :
  cl_ok call → cl_outs call ⊆ outs → runs outs (execute call) w.
Proof.
  intros Hok Hsub. right. destruct (execute_law call w Hok) as (r & w' & E & Hb & Hs & _).
  exists r, w'. split_and!; [done|done|]. eapply same_except_mono; [|exact Hs].
  apply list_subseteq_skip. destruct (is_ok r); [done|apply list_subseteq_nil].
Qed.

(** *** Panics *)

(** [f] runs, or it panics for a reason [P]. *)
Definition runs_unless {A : Type} (P : Prop) (outs : list gref) (f : handlerM H A) (w : world H) : Prop :=
  runs outs f w ∨ P ∧ f w = Panicked.

(** Staging stops: it fails or panics. *)
Definition stops {A : Type} (f : stageM A) (a : Alloc phase.Stage) : Prop :=
  match f a with Return (Ok _, _) => False | Return (Err _, _) | Panicked => True | _ => False end.

Lemma stops_bind_l {A B : Type} (f : stageM A) (k : A → stageM B) a : stops f a → stops (f ≫= k) a.
Proof.
  unfold stops, mbind, stageM_bind, fal_bind. by destruct (f a) as [[[x|e] a']| | |].
Qed.

Lemma stops_section {A : Type} (f : stageM A) : (∀ a, stops f a) → ∀ a, stops (section f) a.
Proof.
  intros Hf a. unfold stops, section, mbind, outcome_bind. specialize (Hf (mkAlloc (a_ptr a) (a_len a) 0)).
  unfold stops in Hf. by destruct (f _) as [[[x|e] a']| | |].
Qed.

(** Allocations fail, panic or succeed. *)
Definition settles {A : Type} (f : stageM A) : Prop :=
  ∀ a, match f a with Return _ | Panicked => True | _ => False end.

Lemma settles_layout l : settles (allocate_layout l).
Proof.
  intros a. unfold allocate_layout, mbind, outcome_bind, add_usize.
  destruct (checked_add _ _); [|done]. destruct (_ <? _); [done|].
  destruct (_ + _ <=? _); [|done]. by destruct (_ + _ <=? _).
Qed.

Lemma settles_cast {A B : Type} (f : stageM A) (g : A → B) : settles f → settles (x ← f; mret (g x)).
Proof.
  intros Hf a. specialize (Hf a). unfold mbind, stageM_bind, fal_bind. by destruct (f a) as [[[x|e] a']| | |].
Qed.

Lemma stops_after {A B : Type} (f : stageM A) (k : A → stageM B) :
  settles f → (∀ x a, stops (k x) a) → ∀ a, stops (f ≫= k) a.
Proof.
  intros Hf Hk a. specialize (Hf a). unfold stops, mbind, stageM_bind, fal_bind.
  destruct (f a) as [[[x|e] a']| | |]; try done. apply Hk.
Qed.

Lemma stops_reserve {A : Type} l (f : stageM A) : (∀ a, stops f a) → ∀ a, stops (reserve_input l f) a.
Proof.
  intros Hf a. unfold reserve_input, reserve_input_layout. apply stops_bind_l, stops_bind_l.
  unfold stops, reserve_layout, mbind, outcome_bind.
  destruct (checked_sub _ _); [|done]. cbv zeta. destruct (checked_sub _ _) as [fr|]; [|done].
  specialize (Hf (mkAlloc (a_ptr a) fr (a_offset a))). unfold stops in Hf.
  by destruct (f _) as [[[x|e] a']| | |].
Qed.

Lemma syscall_stops {T : Type} `{SyscallAlloc T} (call : T) m :
  (∀ a, stops (sc_stage call) a) → ∀ a, stops (call_stage m call) a.
Proof.
  intros Hs. assert (Hin : ∀ l, settles (allocate_input l)) by (intros; apply settles_cast, settles_cast, settles_layout).
  apply stops_after; [done|]. intros r0 a. apply stops_bind_l. revert a. apply stops_section.
  apply stops_after; [done|]. intros r1. apply stops_after; [done|]. intros r2.
  apply stops_after; [apply settles_cast, settles_cast, settles_layout|]. intros r3 a.
  by apply stops_bind_l, stops_section.
Qed.

Lemma runs_unless_execute {T : Type} `{SyscallAlloc T} (P : Prop) outs (call : T) w :
  P → (∀ a, stops (sc_stage call) a) → runs_unless P outs (execute call) w.
Proof.
  intros HP Hs. pose proof (stops_reserve Header_layout _ (stops_section _ (syscall_stops call (w_mem w) Hs))
    (Alloc_stage (Alloc_new (handler_block_mut (w_self w))))) as Hr. unfold stops in Hr.
  unfold runs_unless, runs, execute, mbind, outcome_bind.
  destruct (reserve_input _ _ _) as [[[x|e] a']| | |]; try done; [left; right; by eexists _, _|by right].
Qed.

Lemma runs_unless_bind {A B : Type} P outs (f : handlerM H A) (k : A → handlerM H B) w :
  runs_unless P outs f w → (∀ x w', f w = Return (Ok x, w') → runs_unless P outs (k x) w') →
  runs_unless P outs (f ≫= k) w.
Proof.
  intros [Hf|[HP Hf]] Hk.
  2: { right. split; [done|]. unfold mbind, handlerM_bind, fal_bind. by rewrite Hf. }
  destruct (f w) as [[[x|e] w1]| | |] eqn:E.
  - destruct (Hk x w1 eq_refl) as [Hx|[HP Hx]].
    + left. apply runs_bind; [done|]. intros x' w' Hx'. rewrite E in Hx'. by injection Hx' as <- <-.
    + right. split; [done|]. unfold mbind, handlerM_bind, fal_bind. by rewrite E.
  - left. apply runs_bind; [done|]. intros x' w' Hx'. by rewrite E in Hx'.
  - left. apply runs_bind; [done|]. intros x' w' Hx'. by rewrite E in Hx'.
  - left. apply runs_bind; [done|]. intros x' w' Hx'. by rewrite E in Hx'.
  - left. apply runs_bind; [done|]. intros x' w' Hx'. by rewrite E in Hx'.
Qed.

Lemma runs_unless_with_mem {A B : Type} P outs (f : mem → result A) (k : A → handlerM H B) w :
  (∀ x, f (w_mem w) = Ok x → runs_unless P outs (k x) w) → runs_unless P outs (with_mem f ≫= k) w.
Proof.
  intros Hk. apply runs_unless_bind; [left; right; by eexists _, _|]. intros x w' [= Hr <-]. by apply Hk.
Qed.

Lemma runs_unless_mono {A : Type} (P Q : Prop) outs (f : handlerM H A) w :
  (P → Q) → runs_unless P outs f w → runs_unless Q outs f w.
Proof. intros HPQ [Hf|[HP Hf]]; [by left|right; auto]. Qed.

Lemma runs_unless_ret P outs (f : handlerM H Z) w : runs_unless P outs f w → runs_unless P outs (ret_usize f) w.
Proof.
  intros Hf. apply runs_unless_bind; [done|]. intros. left. apply runs_ret.
Qed.

(** ** Validated arguments *)

Context `{PlatformLaws}.

Lemma slice_mut_ok T p n r :
  layout_wf T → is_usize p → is_usize n → validate_slice_mut T p n = Ok r →
  r = mkGref p n (l_size T) ∧ slice_ok T r.
Proof.
  intros HT Hp Hn Hr. apply pf_slice_mut in Hr as (-> & _ & _); [|done..]. split; [done|].
  unfold is_usize, layout_wf in *. split; [split_and!; simpl; lia|done].
Qed.

Lemma slice_ref_ok T p n r :
  layout_wf T → is_usize p → is_usize n → validate_slice T p n = Ok r →
  r = mkGref p n (l_size T) ∧ slice_ok T r.
Proof.
  intros HT Hp Hn Hr. apply pf_slice in Hr as (-> & _ & _); [|done..]. split; [done|].
  unfold is_usize, layout_wf in *. split; [split_and!; simpl; lia|done].
Qed.

Lemma mut_ok T p r :
  layout_wf T → is_usize p → validate_mut T p = Ok r → r = mkGref p 1 (l_size T) ∧ ref_ok T r.
Proof.
  intros HT Hp Hr. apply pf_mut in Hr as (-> & _ & _); [|done..]. split; [done|].
  unfold is_usize, layout_wf in *. split; [split_and!; simpl; lia|done].
Qed.

Lemma shared_ok T p r :
  layout_wf T → is_usize p → validate T p = Ok r → r = mkGref p 1 (l_size T) ∧ ref_ok T r.
Proof.
  intros HT Hp Hr. apply pf_ref in Hr as (-> & _ & _); [|done..]. split; [done|].
  unfold is_usize, layout_wf in *. split; [split_and!; simpl; lia|done].
Qed.

(** The socket address and its length, as the arguments denote them. *)
Definition sockaddr_at (m : mem) (addr addrlen : Z) : list gref :=
  [mkGref addr (read_u32 m addrlen) 1; mkGref addrlen 1 4].

Lemma read_u32_range m p : mem_wf m → is_usize (read_u32 m p).
Proof.
  intros Hm. unfold read_u32, is_usize, usize_MAX.
  pose proof (from_le_bytes_range (read_bytes m p 4) (read_bytes_wf m p 4 Hm)) as Hr.
  rewrite length_read_bytes in Hr. change (256 ^ Z.of_nat (Z.to_nat 4)) with (2 ^ 32) in Hr. lia.
Qed.

Lemma sockaddr_output_valid m addr addrlen s :
  mem_wf m → is_usize addr → is_usize addrlen → validate_sockaddr_output m addr addrlen = Ok s →
  sockaddr_outs s = sockaddr_at m addr addrlen ∧ sockaddr_output_ok s.
Proof.
  intros Hm Ha Hl Hs. unfold validate_sockaddr_output, mbind, result_bind in Hs.
  destruct (validate_mut socklen_t addrlen) as [l|e] eqn:El; [|done].
  apply mut_ok in El as [-> Hlok]; [|done..]. cbn [g_ptr] in Hs.
  destruct (validate_slice_mut ty_u8 addr _) as [a|e] eqn:Ea; [|done].
  apply slice_mut_ok in Ea as [-> Haok]; [|done|done|by apply read_u32_range]. injection Hs as <-.
  split; [done|]. split; done.
Qed.

(** ** The arms *)

Context (w : world H) (Hmem : mem_wf (w_mem w)).

Lemma runs_optional_sockaddr {B : Type} outs addr addrlen (k : option SockaddrOutput → handlerM H B) :
  is_usize addr → is_usize addrlen →
  (∀ o, from_option (λ s, sockaddr_outs s = sockaddr_at (w_mem w) addr addrlen ∧ sockaddr_output_ok s) True o →
    runs outs (k o) w) →
  runs outs (optional_sockaddr addr addrlen ≫= k) w.
Proof.
  intros Ha Hl Hk. unfold optional_sockaddr. destruct (addr =? 0).
  - apply runs_bind; [apply runs_ret|]. intros x w' [= <- <-]. by apply Hk.
  - apply runs_bind; [apply runs_with_mem; intros; apply runs_ret|].
    intros o w' Ho. unfold mbind, handlerM_bind, fal_bind, with_mem in Ho.
    destruct (validate_sockaddr_output _ _ _) as [s|e] eqn:Es; [|done]. injection Ho as <- <-.
    apply Hk. by apply sockaddr_output_valid.
Qed.

(** A checked argument, then the call: [ret] is how the result is returned. *)
Ltac run_execute :=
  match goal with
  | |- runs ?outs (@execute _ ?T _ ?C ?call) ?w => apply (@runs_execute T C _ outs call w)
  end;
  [|try apply list_subseteq_nil; try done].
Ltac exec := autounfold with methods; apply runs_bind;
  [run_execute|intros; first [apply runs_try|apply runs_unwrap|apply runs_ret]].
Ltac arm := first [apply runs_ret_unit|apply runs_ret_usize|apply runs_ret_as]; exec.

Context (a0 a1 a2 a3 a4 a5 : Z).
Context (U0 : is_usize a0) (U1 : is_usize a1) (U2 : is_usize a2).
Context (U3 : is_usize a3) (U4 : is_usize a4) (U5 : is_usize a5).

Lemma runs_accept : runs (sockaddr_at (w_mem w) a1 a2) (sys_accept a0 a1 a2) w.
Proof.
  apply runs_optional_sockaddr; [done..|]. intros [s|] Hs; arm; try exact I; [exact (proj2 Hs)|].
  by rewrite <- (proj1 Hs).
Qed.

Lemma runs_accept4 : runs (sockaddr_at (w_mem w) a1 a2) (sys_accept4 a0 a1 a2 a3) w.
Proof.
  apply runs_optional_sockaddr; [done..|]. intros [s|] Hs; arm; try exact I; [exact (proj2 Hs)|].
  by rewrite <- (proj1 Hs).
Qed.

Lemma runs_bind_ : runs [] (sys_bind a0 a1 a2) w.
Proof. apply runs_check. intros v Hv. apply slice_ref_ok in Hv as [_ Hv]; [|done..]. arm. exact Hv. Qed.

Lemma runs_connect : runs [] (sys_connect a0 a1 a2) w.
Proof. apply runs_check. intros v Hv. apply slice_ref_ok in Hv as [_ Hv]; [|done..]. arm. exact Hv. Qed.

Lemma runs_clock_getres : runs [mkGref a1 1 16] (sys_clock_getres a0 a1) w.
Proof.
  apply runs_optional. intros o [[_ ->]|(v & _ & -> & Hv)]; [by arm|].
  apply mut_ok in Hv as [-> Hv]; [|done..]. by arm.
Qed.

Lemma runs_clock_gettime : runs [mkGref a1 1 16] (sys_clock_gettime a0 a1) w.
Proof. apply runs_check. intros v Hv. apply mut_ok in Hv as [-> Hv]; [|done..]. by arm. Qed.

Lemma runs_epoll_ctl : runs [] (sys_epoll_ctl a0 a1 a2 a3) w.
Proof. apply runs_check. intros v Hv. apply shared_ok in Hv as [-> Hv]; [|done..]. by arm. Qed.

Lemma runs_epoll_wait : runs [mkGref a1 a2 (l_size epoll_event)] (sys_epoll_wait a0 a1 a2 a3) w.
Proof. apply runs_check. intros v Hv. apply slice_mut_ok in Hv as [-> Hv]; [|done..]. by arm. Qed.

Lemma runs_epoll_pwait : runs [mkGref a1 a2 (l_size epoll_event)] (sys_epoll_pwait a0 a1 a2 a3 a4) w.
Proof.
  apply runs_check. intros v Hv. apply slice_mut_ok in Hv as [-> Hv]; [|done..]. apply runs_ret_as.
  destruct (a4 =? 0); [by exec|].
  apply runs_check. intros g Hg. apply shared_ok in Hg as [-> Hg]; [|done..]. by exec.
Qed.

Lemma runs_exit : runs [] (sys_exit a0) w.
Proof. apply runs_bind; [|intros; apply runs_unwrap].
  autounfold with methods. apply runs_bind; [run_execute; exact I|].
  intros. apply runs_check. intros. apply runs_unwrap.
Qed.

Lemma runs_exit_group : runs [] (sys_exit_group a0) w.
Proof.
  apply runs_bind; [|intros; apply runs_unwrap].
  autounfold with methods. apply runs_bind; [run_execute; exact I|].
  intros. apply runs_check. intros. apply runs_unwrap.
Qed.

Lemma runs_fstat : runs [mkGref a1 1 (l_size stat)] (sys_fstat a0 a1) w.
Proof.
  apply runs_check. intros v Hv. apply mut_ok in Hv as [-> Hv]; [|split; vm_compute; congruence|done].
  arm. exact Hv.
Qed.

Lemma runs_getrandom : runs [mkGref a0 a1 1] (sys_getrandom a0 a1 a2) w.
Proof.
  apply runs_check. intros v Hv. apply slice_mut_ok in Hv as [-> Hv]; [|done..]. apply runs_ret_as.
  unfold handler.getrandom. unfold runs. apply runs_bind; [run_execute|intros; apply runs_try].
  split; [exact Hv|]. apply U1.
Qed.

Lemma runs_getsockname : runs (sockaddr_at (w_mem w) a1 a2) (sys_getsockname a0 a1 a2) w.
Proof.
  apply runs_with_mem. intros s Hs. apply sockaddr_output_valid in Hs as [Es Hs]; [|done..].
  arm; [exact Hs|]. by rewrite <- Es.
Qed.

Lemma runs_ioctl : runs [mkGref a2 4 1] (sys_ioctl a0 a1 a2) w.
Proof.
  apply runs_bind.
  { destruct (a2 =? 0); [apply runs_ret|]. destruct (_ || _); [|apply runs_try].
    apply runs_check. intros. apply runs_ret. }
  intros o w' Ho. assert (Hw : w' = w ∧ (o = None ∨ o = Some (mkGref a2 4 1))).
  { unfold mbind, handlerM_bind, fal_bind, try in Ho. destruct (a2 =? 0); [by injection Ho as <- <-; auto|].
    destruct (_ || _); [|done]. destruct (validate_mut c_int a2) as [v|e] eqn:Ev; [|done].
    apply mut_ok in Ev as [-> _]; [|done..]. injection Ho as <- <-. auto. }
  destruct Hw as [-> [-> | ->]]; arm; try exact I. split; [|done]. unfold gref_wf. simpl.
  unfold is_usize in U2. lia.
Qed.

Lemma runs_nanosleep : runs [mkGref a1 1 16] (sys_nanosleep a0 a1) w.
Proof.
  apply runs_check. intros v Hv. apply shared_ok in Hv as [-> Hv]; [|done..].
  apply runs_optional. intros o [[_ ->]|(r & _ & -> & Hr)]; [by arm|].
  apply mut_ok in Hr as [-> Hr]; [|done..]. by arm.
Qed.

Lemma runs_poll : runs [mkGref a0 a1 8] (sys_poll a0 a1 a2) w.
Proof. apply runs_check. intros v Hv. apply slice_mut_ok in Hv as [-> Hv]; [|done..]. by arm. Qed.

Lemma runs_read : runs [mkGref a1 a2 1] (sys_read a0 a1 a2) w.
Proof. apply runs_check. intros v Hv. apply slice_mut_ok in Hv as [-> Hv]; [|done..]. by arm. Qed.

Lemma runs_write : runs [] (sys_write a0 a1 a2) w.
Proof. apply runs_check. intros v Hv. apply slice_ref_ok in Hv as [-> Hv]; [|done..]. by arm. Qed.

Lemma runs_uname : runs [mkGref a0 1 (l_size utsname)] (sys_uname a0) w.
Proof.
  apply runs_check. intros v Hv. apply mut_ok in Hv as [-> Hv]; [|split; vm_compute; congruence|done].
  arm. exact Hv.
Qed.

Lemma runs_set_tid_address : runs [] (sys_set_tid_address a0) w.
Proof. apply runs_check. intros v _. by arm. Qed.

Lemma runs_recvfrom : runs (mkGref a1 a2 1 :: sockaddr_at (w_mem w) a4 a5) (sys_recvfrom a0 a1 a2 a3 a4 a5) w.
Proof.
  apply runs_check. intros v Hv. apply slice_mut_ok in Hv as [-> Hv]; [|done..]. apply runs_ret_usize.
  destruct (a4 =? 0); [exec; [exact Hv|by apply list_subseteq_skip, list_subseteq_nil]|].
  apply runs_with_mem. intros s Hs. apply sockaddr_output_valid in Hs as [Es Hs]; [|done..].
  exec; [by split|]. by rewrite <- Es.
Qed.

Lemma runs_sendto : runs [] (sys_sendto a0 a1 a2 a3 a4 a5) w.
Proof.
  apply runs_check. intros v Hv. apply slice_ref_ok in Hv as [-> Hv]; [|done..]. apply runs_ret_usize.
  destruct (a4 =? 0); [by exec|].
  apply runs_check. intros d Hd. apply slice_ref_ok in Hd as [-> Hd]; [|done..]. by exec.
Qed.

Lemma runs_setsockopt : runs [] (sys_setsockopt a0 a1 a2 a3 a4) w.
Proof.
  apply runs_bind.
  { destruct (a3 =? 0); [apply runs_ret|]. apply runs_check. intros. apply runs_ret. }
  intros o w' Ho. assert (Hw : w' = w ∧ from_option sockopt_input_ok True o).
  { unfold mbind, handlerM_bind, fal_bind, try in Ho. destruct (a3 =? 0); [by injection Ho as <- <-|].
    destruct (validate_slice ty_u8 a3 a4) as [v|e] eqn:Ev; [|done].
    apply slice_ref_ok in Ev as [_ Hv]; [|done..]. injection Ho as <- <-. done. }
  destruct Hw as [-> Hok]. arm. exact Hok.
Qed.

Lemma runs_rt_sigprocmask : runs [] (sys_rt_sigprocmask a0 a1 a2 a3) w.
Proof. apply runs_optional. intros o _. apply runs_optional. intros o' _. by arm. Qed.

Lemma runs_sigaltstack : runs [] (sys_sigaltstack a0 a1) w.
Proof. apply runs_optional. intros o _. apply runs_optional. intros o' _. by arm. Qed.

(** *** Strings *)

(** The string at [p] ends below the last address. *)
Definition terminated (m : mem) (p : Z) : Prop := ∃ i, p ≤ i < usize_MAX ∧ m i = 0.

Lemma runs_str {B : Type} outs p (k : gref → handlerM H B) :
  is_usize p → (∀ r, slice_ok ty_u8 r → runs outs (k r) w) →
  runs_unless (¬ terminated (w_mem w) p) outs (with_mem_loop (λ m, validate_str m p) ≫= k) w.
Proof.
  intros Hp Hk. pose proof (validate_str_spec (w_mem w) p Hp) as Hs.
  unfold runs_unless, runs, with_mem_loop, mbind, handlerM_bind, fal_bind, outcome_bind.
  destruct (validate_str (w_mem w) p) as [[r|e]| | |]; try done.
  - left. destruct Hs as (n & -> & Hn & _). apply Hk. unfold is_usize in Hp.
    split; [split_and!; simpl; lia|done].
  - left. right. by eexists _, _.
  - right. split; [|done]. intros (i & Hi & Hz). destruct Hs as [_ Hs]. apply (Hs i); [lia|done].
Qed.

Lemma runs_open : runs_unless (¬ terminated (w_mem w) a0) [] (sys_open a0 a1 a2) w.
Proof. apply runs_str; [done|]. intros r Hr. cbv zeta. arm. exact Hr. Qed.

Lemma runs_readlink : runs_unless (¬ terminated (w_mem w) a0) [mkGref a1 a2 1] (sys_readlink a0 a1 a2) w.
Proof.
  apply runs_str; [done|]. intros r Hr.
  apply runs_check. intros v Hv. apply slice_mut_ok in Hv as [-> Hv]; [|done..]. by arm.
Qed.

(** *** Vectors *)

Lemma iovecs_byte_slices r : byte_slices (iovecs_at (w_mem w) r).
Proof.
  apply Forall_fmap, Forall_true. intros i. unfold iovec_at. simpl.
  pose proof (read_usize_range (w_mem w) (g_ptr r + 16 * i + 8) Hmem) as Hr. split; [apply Hr|done].
Qed.

Lemma iovec_slice_valid m iov cnt vs :
  validate_iovec_slice m iov cnt = Ok vs ∨ validate_iovec_slice_mut m iov cnt = Ok vs →
  vs = iovecs_at m (mkGref iov cnt 16).
Proof.
  unfold validate_iovec_slice, validate_iovec_slice_mut, mbind, result_bind.
  destruct (validate_slice iovec iov cnt); [|by intros [?|?]].
  intros [Hv|Hv]; destruct (validate_each _ _); try done; by injection Hv as <-.
Qed.

(** [iov_len] panics when its sum overflows. *)
Lemma overflow_stops {B : Type} iovs (k : Z → stageM B) :
  byte_slices iovs → usize_MAX < total_len iovs → ∀ a, stops (must (iov_len iovs) ≫= k) a.
Proof.
  intros Hb Ho a. apply stops_bind_l. rewrite iov_len_spec by apply byte_slices_len, Hb.
  by rewrite (proj2 (Z.leb_gt _ _)).
Qed.

Lemma runs_readv :
  let iovs := iovecs_at (w_mem w) (mkGref a1 a2 16) in
  runs_unless (usize_MAX < total_len iovs) iovs (sys_readv a0 a1 a2) w.
Proof.
  intros iovs. apply runs_unless_with_mem. intros vs Hvs.
  rewrite (iovec_slice_valid _ _ _ _ (or_intror Hvs)). fold iovs.
  destruct (Z.le_gt_cases (total_len iovs) usize_MAX) as [Ht|Ht].
  - left. arm. split; [apply iovecs_byte_slices|exact Ht].
  - apply runs_unless_ret, runs_unless_bind; [|intros; left; apply runs_unwrap].
    apply (@runs_unless_execute Readv Readv_alloc _ iovs (mkReadv (as_c_int a0) iovs) w Ht).
    by apply overflow_stops; [apply iovecs_byte_slices|].
Qed.

Lemma runs_writev :
  let iovs := iovecs_at (w_mem w) (mkGref a1 a2 16) in
  runs_unless (usize_MAX < total_len iovs) [] (sys_writev a0 a1 a2) w.
Proof.
  intros iovs. apply runs_unless_with_mem. intros vs Hvs.
  rewrite (iovec_slice_valid _ _ _ _ (or_introl Hvs)). fold iovs.
  destruct (Z.le_gt_cases (total_len iovs) usize_MAX) as [Ht|Ht].
  - left. arm. split; [apply iovecs_byte_slices|exact Ht].
  - apply runs_unless_ret, runs_unless_bind; [|intros; left; apply runs_unwrap].
    apply (@runs_unless_execute Writev Writev_alloc _ [] (mkWritev (as_c_int a0) iovs) w Ht).
    by apply overflow_stops; [apply iovecs_byte_slices|].
Qed.

(** *** Signal actions *)

(** [rt_sigaction] returns; it changes no memory, and an old action has four
    words.  A negative number is not refused: it is an index out of bounds as
    soon as there is an action to read or to write. *)
Lemma rt_sigaction_returns signum act oldact size :
  - 2 ^ 31 ≤ signum → tls_wf (thread_local_storage (w_self w)) →
  (∃ r w', handler.rt_sigaction signum act oldact size w = Return (r, w') ∧ w_mem w' = w_mem w ∧
    handler_block_mut (w_self w') = handler_block_mut (w_self w) ∧
    match r with Ok (Some old) => length old = 4%nat | _ => True end) ∨
  signum < 0 ∧ handler.rt_sigaction signum act oldact size w = Panicked.
Proof.
  intros Hs [Hl Hw]. unfold handler.rt_sigaction. set (t := thread_local_storage (w_self w)) in *.
  destruct (_ || _) eqn:E; [left; by eexists _, w|]. bool_to_prop. unfold SIGRTMAX in *.
  assert (Hold : ∀ i, match nth i (actions t) None with Some a => length a = 4%nat | None => True end).
  { intros i. rewrite Forall_forall in Hw. destruct (nth_in_or_default i (actions t) None) as [Hin| ->]; [|done].
    by apply Hw, list_elem_of_In. }
  destruct (Z.le_gt_cases 0 signum) as [Hp|Hn].
  - rewrite (as_usize_small signum), Hl, (proj2 (Z.ltb_lt signum _)) by (simpl; unfold is_usize, usize_MAX; lia).
    left. destruct act as [act|], oldact; cbn [mbind outcome_bind]; eexists _, _; (split; [reflexivity|]); simpl;
      rewrite ?hos_block; split_and!; try done; specialize (Hold (Z.to_nat signum)); by destruct (nth _ _ _).
  - assert (Hi : as_usize signum = signum + 2 ^ 64) by (unfold as_usize; symmetry; apply (Z.mod_unique _ _ (-1)); lia).
    rewrite Hi, Hl, (proj2 (Z.ltb_ge _ _)) by (simpl; lia).
    destruct act as [act|], oldact; cbn [mbind outcome_bind]; [by right..|left; by eexists _, _].
Qed.

Lemma runs_rt_sigaction :
  tls_wf (thread_local_storage (w_self w)) →
  runs_unless (as_c_int a0 < 0) [mkGref a2 1 32] (sys_rt_sigaction a0 a1 a2 a3) w.
Proof.
  intros Htls. assert (Hc : - 2 ^ 31 ≤ as_c_int a0) by apply as_c_int_range.
  destruct (optional_pure a1 (validate sigaction) w) as [ro Ho].
  apply runs_unless_bind; [left; right; by eexists _, _|]. intros act w' Hw. rewrite Ho in Hw. injection Hw as _ <-.
  clear ro Ho. destruct (a2 =? 0).
  - destruct (rt_sigaction_returns (as_c_int a0) act false a3 Hc Htls) as [(r & w' & E & Em & Eb & _)|[Hn Hp]].
    + left. apply runs_bind; [|intros; apply runs_ret]. right. exists r, w'. by rewrite Em.
    + right. split; [done|]. unfold mbind, handlerM_bind, fal_bind. by rewrite Hp.
  - apply runs_unless_bind; [left; apply runs_try|]. intros v w' [= Hv <-]. apply mut_ok in Hv as [-> _]; [|done..].
    destruct (rt_sigaction_returns (as_c_int a0) act true a3 Hc Htls) as [(r & w' & E & Em & Eb & Hold)|[Hn Hp]].
    2: { right. split; [done|]. unfold mbind, handlerM_bind, fal_bind. by rewrite Hp. }
    left. apply runs_bind; [right; exists r, w'; by rewrite Em|]. intros x w1 Hx. rewrite E in Hx. injection Hx as -> ->.
    destruct x as [old|]; [|apply runs_ret]. apply runs_bind; [|intros; apply runs_ret].
    right. eexists _, _. split; [reflexivity|]. split; [done|]. apply same_except_cons_r.
    apply write_gref_frame; [done|]. rewrite length_words_to_bytes, Hold. unfold g_bytes. simpl. lia.
Qed.

(** ** The whole dispatcher *)

(** The calls each shim implements itself. *)
Definition os_syscalls : list Z :=
  [SYS_arch_prctl; SYS_brk; SYS_madvise; SYS_mmap; SYS_mprotect; SYS_mremap; SYS_munmap].

(** The memory a system call may write, as its registers denote it. *)
Definition syscall_outs (m : mem) (n : Z) : list gref :=
  if (n =? SYS_accept) || (n =? SYS_accept4) || (n =? SYS_getsockname) then sockaddr_at m a1 a2
  else if (n =? SYS_clock_getres) || (n =? SYS_clock_gettime) || (n =? SYS_nanosleep) then [mkGref a1 1 16]
  else if (n =? SYS_epoll_wait) || (n =? SYS_epoll_pwait) then [mkGref a1 a2 (l_size epoll_event)]
  else if n =? SYS_fstat then [mkGref a1 1 (l_size stat)]
  else if n =? SYS_getrandom then [mkGref a0 a1 1]
  else if n =? SYS_ioctl then [mkGref a2 4 1]
  else if n =? SYS_poll then [mkGref a0 a1 8]
  else if (n =? SYS_read) || (n =? SYS_readlink) then [mkGref a1 a2 1]
  else if n =? SYS_readv then iovecs_at m (mkGref a1 a2 16)
  else if n =? SYS_recvfrom then mkGref a1 a2 1 :: sockaddr_at m a4 a5
  else if n =? SYS_rt_sigaction then [mkGref a2 1 32]
  else if n =? SYS_uname then [mkGref a0 1 (l_size utsname)]
  else [].

(** The arguments that can make the dispatcher panic: a string that does not
    end, vectors whose total length is not a [usize], a negative signal number. *)
Definition panicking_args (n : Z) : Prop :=
  (n = SYS_open ∨ n = SYS_readlink) ∧ ¬ terminated (w_mem w) a0 ∨
  (n = SYS_readv ∨ n = SYS_writev) ∧ usize_MAX < total_len (iovecs_at (w_mem w) (mkGref a1 a2 16)) ∨
  n = SYS_rt_sigaction ∧ as_c_int a0 < 0.

(** One number of the table. *)
Lemma runs_case P outs (n c : Z) (f g : arm) :
  (n = c → runs_unless P outs f w) → (n ≠ c → runs_unless P outs g w) →
  runs_unless P outs (if n =? c then f else g) w.
Proof. intros Hf Hg. destruct (Z.eqb_spec n c); auto. Qed.

(** [os]: a number of [os_syscalls]; [plain]: a call without pointers. *)
Ltac os := exfalso; match goal with Hos : _ ∉ _ |- _ => apply Hos, list_elem_of_In; simpl; tauto end.
Ltac plain := arm; exact I.
Ltac case_num t := apply runs_case; [intros ->; first [left; t | t]|intros _].

Lemma syscall_runs num :
  as_i64 num ∉ os_syscalls → tls_wf (thread_local_storage (w_self w)) →
  runs_unless (panicking_args (as_i64 num)) (syscall_outs (w_mem w) (as_i64 num)) (syscall num a0 a1 a2 a3 a4 a5) w.
Proof.
  unfold syscall. generalize (as_i64 num) as n. intros n Hos Htls.
  case_num ltac:(apply runs_accept). case_num ltac:(apply runs_accept4). case_num ltac:(os).
  case_num ltac:(apply runs_bind_). case_num ltac:(os). case_num ltac:(apply runs_clock_getres).
  case_num ltac:(apply runs_clock_gettime). case_num ltac:(plain). case_num ltac:(apply runs_connect).
  case_num ltac:(plain). case_num ltac:(plain). case_num ltac:(plain). case_num ltac:(plain).
  case_num ltac:(apply runs_epoll_ctl). case_num ltac:(apply runs_epoll_pwait).
  case_num ltac:(apply runs_epoll_wait). case_num ltac:(plain). case_num ltac:(apply runs_exit).
  case_num ltac:(apply runs_exit_group). case_num ltac:(plain). case_num ltac:(apply runs_fstat).
  case_num ltac:(plain). case_num ltac:(plain). case_num ltac:(plain). case_num ltac:(plain).
  case_num ltac:(apply runs_getrandom). case_num ltac:(apply runs_getsockname). case_num ltac:(plain).
  case_num ltac:(apply runs_ioctl). case_num ltac:(plain). case_num ltac:(os). case_num ltac:(os).
  case_num ltac:(os). case_num ltac:(os). case_num ltac:(os). case_num ltac:(apply runs_nanosleep).
  case_num ltac:(eapply runs_unless_mono; [|apply runs_open]; unfold panicking_args; tauto). case_num ltac:(apply runs_poll).
  case_num ltac:(apply runs_read). case_num ltac:(eapply runs_unless_mono; [|apply runs_readlink]; unfold panicking_args; tauto).
  case_num ltac:(eapply runs_unless_mono; [|apply runs_readv]; unfold panicking_args; tauto). case_num ltac:(apply runs_recvfrom).
  case_num ltac:(eapply runs_unless_mono; [|by apply runs_rt_sigaction]; unfold panicking_args; tauto). case_num ltac:(apply runs_rt_sigprocmask).
  case_num ltac:(apply runs_sendto). case_num ltac:(apply runs_setsockopt).
  case_num ltac:(apply runs_set_tid_address). case_num ltac:(apply runs_sigaltstack).
  case_num ltac:(plain). case_num ltac:(plain). case_num ltac:(apply runs_uname).
  case_num ltac:(apply runs_write). case_num ltac:(eapply runs_unless_mono; [|apply runs_writev]; unfold panicking_args; tauto).
  left. apply runs_try.
Qed.

End runs.

(** ** Properties *)

(** C1: for every system call number that is not implemented by the shim
    itself, every contents of the six registers and every host that resumes the
    keep: the dispatcher terminates; it returns or detects an attack, unless the
    arguments are a string that does not end, vectors whose lengths do not add up
    to a [usize] or a negative signal number, with which it may panic; and when it
    returns, the only memory that changed is the block and the regions the
    registers denote as outputs of that call. *)
Theorem syscall_safe {H : Type} `{HandlerOSLaws H, PlatformLaws} (w : world H) (num a0 a1 a2 a3 a4 a5 : Z) :
  mem_wf (w_mem w) → Forall is_usize [a0; a1; a2; a3; a4; a5] →
  as_i64 num ∉ os_syscalls → tls_wf (thread_local_storage (w_self w)) →
  let b := handler_block_mut (w_self w) in
  syscall num a0 a1 a2 a3 a4 a5 w = Attacked ∨
  (∃ r w', syscall num a0 a1 a2 a3 a4 a5 w = Return (r, w') ∧
    handler_block_mut (w_self w') = b ∧
    same_except (block_region b :: syscall_outs a0 a1 a2 a4 a5 (w_mem w) (as_i64 num)) (w_mem w) (w_mem w')) ∨
  panicking_args w a0 a1 a2 (as_i64 num) ∧ syscall num a0 a1 a2 a3 a4 a5 w = Panicked.
Proof.
  intros Hm Hu Hos Ht b. repeat (apply Forall_cons in Hu as [? Hu]).
  destruct (syscall_runs w Hm a0 a1 a2 a3 a4 a5 ltac:(done) ltac:(done) ltac:(done) ltac:(done) ltac:(done)
    ltac:(done) num Hos Ht) as [[Ha|Hr]|Hp]; auto.
Qed.

(** Every number the dispatcher knows. *)
Definition supported_syscalls : list Z :=
  [SYS_accept; SYS_accept4; SYS_arch_prctl; SYS_bind; SYS_brk; SYS_clock_getres; SYS_clock_gettime;
   SYS_close; SYS_connect; SYS_dup; SYS_dup2; SYS_dup3; SYS_epoll_create1; SYS_epoll_ctl;
   SYS_epoll_pwait; SYS_epoll_wait; SYS_eventfd2; SYS_exit; SYS_exit_group; SYS_fcntl; SYS_fstat;
   SYS_getegid; SYS_geteuid; SYS_getgid; SYS_getpid; SYS_getrandom; SYS_getsockname; SYS_getuid;
   SYS_ioctl; SYS_listen; SYS_madvise; SYS_mmap; SYS_mprotect; SYS_mremap; SYS_munmap; SYS_nanosleep;
   SYS_open; SYS_poll; SYS_read; SYS_readlink; SYS_readv; SYS_recvfrom; SYS_rt_sigaction;
   SYS_rt_sigprocmask; SYS_sendto; SYS_setsockopt; SYS_set_tid_address; SYS_sigaltstack; SYS_socket;
   SYS_sync; SYS_uname; SYS_write; SYS_writev].

(** Any other number is refused with [ENOSYS], without reaching the host
    and without changing anything. *)
Theorem unsupported_syscall {H : Type} `{HandlerOS H, Platform} (w : world H) (num a0 a1 a2 a3 a4 a5 : Z) :
  existsb (Z.eqb (as_i64 num)) supported_syscalls = false →
  syscall num a0 a1 a2 a3 a4 a5 w = Return (Err ENOSYS, w).
Proof.
  unfold syscall. cbn [existsb supported_syscalls]. intros Hn.
  repeat (apply orb_false_iff in Hn as [-> Hn]). reflexivity.
Qed.

(** A vector whose lengths overflow makes the keep panic, instead of being
    refused. *)
Theorem readv_overflow_panics (m : mem) :
  handler.readv 0 [mkGref 100 usize_MAX 1; mkGref 200 1 1] (answering 0 m) = Panicked.
Proof. reflexivity. Qed.

Lemma syscall_safe_witness :
  let w := answering 2 (λ _, 0) in
  syscall SYS_read 0 200 8 0 0 0 w = Attacked ∨
  ∃ r w', syscall SYS_read 0 200 8 0 0 0 w = Return (r, w') ∧
    same_except [block_region keep_block; mkGref 200 8 1] (w_mem w) (w_mem w').
Proof.
  intros w. destruct (@syscall_safe keep keep_os keep_os_laws UserMemScope UserMemScope_laws
    w SYS_read 0 200 8 0 0 0) as [Ha|[(r & w' & E & _ & Hs)|[Hp _]]].
  - exact zero_mem_wf.
  - repeat (apply Forall_cons_2; [unfold is_usize, usize_MAX; lia|]). apply Forall_nil_2.
  - rewrite list_elem_of_In. vm_compute. intuition congruence.
  - split; [reflexivity|]. vm_compute. repeat constructor.
  - left. exact Ha.
  - right. exists r, w'. split; [exact E|exact Hs].
  - exfalso. destruct Hp as [[[?|?] _]|[[[?|?] _]|[? _]]]; discriminate.
Defined.

Lemma unsupported_syscall_witness :
  syscall 57 0 0 0 0 0 0 (answering 2 (λ _, 0)) = Return (Err ENOSYS, answering 2 (λ _, 0)).
Proof. by apply (@unsupported_syscall keep keep_os UserMemScope). Defined.
