(* ===== verification/Invariants.v ===== *)
(** * Invariants of a keep

    A relation on the states of a handler that holds across [sally], the
    required methods and a change of the signal actions holds across every
    method: [Handler::execute], and [Handler::syscall] with whatever registers.
    The shims use this for what a workload and its host cannot change. *)

From S2P Require Import Prelude Memory Libc PhaseAlloc StagedValues Items Calls CallLaws StageKit.
From S2P Require Import SockTypes Syscalls Stubs SyscallLaws NumberCalls Platform Handler HandlerCalls Dispatch.

Class Carried (H : Type) `{Handler H} := {
  carried : H → H → Prop;
  carried_preorder :: PreOrder carried;
  carried_sally : ∀ (w : world H) r w', sally w = Return (r, w') → carried (w_self w) (w_self w');
}.

Definition carries {H A : Type} `{Carried H} (f : handlerM H A) : Prop :=
  ∀ w r w', f w = Return (r, w') → carried (w_self w) (w_self w').

Section carries.
Context {H : Type} `{Carried H}.

Lemma carries_ret {A : Type} (x : A) : carries (mret x).
Proof. by intros w r w' [= <- <-]. Qed.

Lemma carries_try {A : Type} (r : result A) : carries (try r).
Proof. by intros w r' w' [= <- <-]. Qed.

Lemma carries_must {A : Type} (o : outcome A) : carries (must o).
Proof. intros w r w' E. unfold must in E. destruct o; try done. by injection E as <- <-. Qed.

Lemma carries_unwrap {A : Type} (o : option (result A)) : carries (unwrap_or_attacked o).
Proof. intros w r w' E. destruct o; [|done]. by injection E as <- <-. Qed.

Lemma carries_bind {A B : Type} (f : handlerM H A) (k : A → handlerM H B) :
  carries f → (∀ a, carries (k a)) → carries (f ≫= k).
Proof.
  intros Hf Hk w r w' E. unfold mbind, handlerM_bind, fal_bind in E.
  destruct (f w) as [[[a|e] w1]| | |] eqn:Ef; try done.
  - transitivity (w_self w1); [by eapply Hf|by eapply Hk].
  - injection E as <- <-. by eapply Hf.
Qed.

(** What leaves the state as it is. *)
Lemma carries_same {A : Type} (f : handlerM H A) :
  (∀ w r w', f w = Return (r, w') → w_self w' = w_self w) → carries f.
Proof. intros Hf w r w' E. by rewrite (Hf _ _ _ E). Qed.

Lemma carries_execute {T : Type} `{Call T} (call : T) : carries (execute call).
Proof.
  intros w r w' E. unfold execute, mbind, outcome_bind in E.
  destruct (reserve_input _ _ _) as [[[[[s len] er]|e] a]| | |]; try done; [|by injection E as <- <-].
  destruct (call_commit s (w_mem w)) as [[c m]| | |]; try done. destruct (0 <? len).
  - destruct (InRef_copy_from er _ m) as [[u m1]| | |]; try done.
    destruct (sally (mkWorld (w_self w) m1)) as [[[v|e] w1]| | |] eqn:Es; try done;
      apply carried_sally in Es; simpl in Es; [|by injection E as <- <-].
    destruct (Alloc_sally _ _); [|by injection E as <- <-].
    destruct (call_collect c (w_mem w1)) as [[x m2]| | |]; try done. by injection E as <- <-.
  - destruct (call_collect c m) as [[x m1]| | |]; try done. by injection E as <- <-.
Qed.

End carries.

Create HintDb carries.
#[export] Hint Resolve carries_ret carries_try carries_must carries_unwrap : carries.

(** ** The dispatcher *)

(** The required methods. *)
Class CarriedOS (H : Type) `{HandlerOS H, !Carried H} := {
  cos_tls : ∀ (h : H) t, carried h (set_thread_local_storage h t);
  cos_arch_prctl : ∀ code addr, carries (H := H) (arch_prctl code addr);
  cos_brk : ∀ addr, carries (H := H) (brk addr);
  cos_madvise : ∀ addr len advice, carries (H := H) (madvise addr len advice);
  cos_mmap : ∀ addr len prot flags fd offset, carries (H := H) (mmap addr len prot flags fd offset);
  cos_mprotect : ∀ addr len prot, carries (H := H) (mprotect addr len prot);
  cos_munmap : ∀ addr len, carries (H := H) (munmap addr len);
}.

Section dispatch.
Context {H : Type} `{CarriedOS H, Platform}.

Lemma carries_with_mem {A : Type} (f : mem → result A) : carries (H := H) (with_mem f).
Proof. apply carries_same. by intros w r w' [= <- <-]. Qed.

Lemma carries_with_mem_loop {A : Type} (f : mem → outcome (result A)) : carries (H := H) (with_mem_loop f).
Proof.
  apply carries_same. intros w r w' E. unfold with_mem_loop, mbind, outcome_bind in E.
  destruct (f (w_mem w)); try done. by injection E as <- <-.
Qed.

Lemma carries_store_words r ws : carries (H := H) (store_words r ws).
Proof. apply carries_same. by intros w r' w' [= <- <-]. Qed.

Lemma carries_optional {A : Type} p (f : Z → result A) : carries (H := H) (optional p f).
Proof. unfold optional. destruct (_ =? 0); [|apply carries_bind]; auto with carries. Qed.

Lemma carries_rt_sigaction signum act oldact size :
  carries (H := H) (handler.rt_sigaction signum act oldact size).
Proof.
  intros w r w' E. unfold handler.rt_sigaction in E. destruct (_ || _); [by injection E as <- <-|].
  unfold mbind, outcome_bind in E. destruct (if oldact then _ else _); try done.
  destruct act; [|by injection E as <- <-]. destruct (_ <? _); [|done]. injection E as <- <-. apply cos_tls.
Qed.

Lemma carries_getrandom buf flags : carries (H := H) (handler.getrandom buf flags).
Proof.
  intros w r w' E. unfold handler.getrandom in E.
  refine (carries_bind _ _ (carries_execute _) (λ c, carries_try _) w r w' E).
Qed.

Lemma carries_ignore {A : Type} (f : handlerM H A) : carries f → carries (handler.ignore f).
Proof.
  intros Hf w r w' E. unfold handler.ignore, mbind, outcome_bind in E.
  destruct (f w) as [[x w1]| | |] eqn:Ef; try done. injection E as <- <-. by eapply Hf.
Qed.

Lemma carries_copy dest src : carries (H := H) (handler.copy_from_slice dest src).
Proof.
  apply carries_same. intros w r w' E. unfold handler.copy_from_slice in E.
  destruct (negb _); [done|]. by injection E as <- <-.
Qed.

Lemma carries_mremap old_address old_size new_size flags :
  carries (H := H) (handler.mremap old_address old_size new_size flags).
Proof.
  assert (Hi : ∀ addr len, carries (H := H) (handler.ignore (munmap addr len)))
    by (intros; apply carries_ignore, cos_munmap).
  unfold handler.mremap. destruct flags as [[[] []]|]; repeat first
    [ progress intros | apply carries_ret | apply carries_try | apply carries_must | apply carries_copy
    | apply Hi | apply cos_mmap | apply carries_bind | match goal with |- carries (if ?b then _ else _) => destruct b end ].
Qed.

End dispatch.

#[export] Hint Resolve carries_with_mem carries_with_mem_loop carries_store_words carries_optional
  carries_copy : carries.

Ltac carry_step := first
  [ progress intros
  | solve [auto 1 with carries nocore]
  | match goal with |- carries (execute ?c) => exact (carries_execute c) end
  | apply carries_getrandom
  | apply carries_bind
  | apply carries_ignore
  | apply carries_rt_sigaction
  | apply carries_mremap
  | first [apply cos_arch_prctl | apply cos_brk | apply cos_madvise | apply cos_mmap | apply cos_mprotect
          | apply cos_munmap]
  | match goal with
    | |- carries (if ?b then _ else _) => destruct b
    | |- carries (match ?x with _ => _ end) => destruct x
    | |- carries (let '(_, _) := ?x in _) => destruct x
    end ].
Ltac carry := repeat carry_step.

(** The arms of the dispatcher, down to [execute]. *)
Ltac arms :=
  unfold sys_accept, sys_accept4, sys_arch_prctl, sys_bind, sys_brk, sys_clock_getres,
    sys_clock_gettime, sys_close, sys_connect, sys_dup, sys_dup2, sys_dup3, sys_epoll_create1,
    sys_epoll_ctl, sys_epoll_pwait, sys_epoll_wait, sys_eventfd2, sys_exit, sys_exit_group, sys_fcntl,
    sys_fstat, sys_getrandom, sys_getsockname, sys_ioctl, sys_listen, sys_madvise, sys_mmap,
    sys_mprotect, sys_mremap, sys_munmap, sys_nanosleep, sys_open, sys_poll, sys_read, sys_readlink,
    sys_readv, sys_recvfrom, sys_rt_sigaction, sys_rt_sigprocmask, sys_sendto, sys_setsockopt,
    sys_set_tid_address, sys_sigaltstack, sys_socket, sys_uname, sys_write, sys_writev,
    optional_sockaddr, ret_unit, ret_usize, ret_as,
    handler.accept, handler.accept4, handler.bind, handler.clock_getres, handler.clock_gettime,
    handler.close, handler.connect, handler.dup, handler.dup2, handler.dup3, handler.epoll_create1,
    handler.epoll_ctl, handler.epoll_wait, handler.epoll_pwait, handler.eventfd2, handler.exit,
    handler.exit_group, handler.fcntl, handler.fstat, handler.getegid, handler.geteuid, handler.getgid,
    handler.getpid, handler.getsockname, handler.getuid, handler.ioctl, handler.listen,
    handler.nanosleep, handler.open, handler.poll, handler.read, handler.readlink, handler.readv,
    handler.recv, handler.recvfrom, handler.rt_sigprocmask, handler.send, handler.sendto,
    handler.setsockopt, handler.set_tid_address, handler.sigaltstack, handler.socket, handler.sync,
    handler.uname, handler.write, handler.writev, handler.gdb_flush, handler.gdb_on_session_start,
    handler.gdb_peek, handler.gdb_read, handler.gdb_write, handler.gdb_write_all,
    handler.balloon_memory, handler.cpuid, handler.get_sgx_quote, handler.get_sgx_quote_size,
    handler.get_sgx_target_info, handler.get_snp_vcek, handler.mem_info, handler.mmap_host,
    handler.mprotect_host, handler.munmap_host, handler.trim_sgx_pages.

Section syscall.
Context {H : Type} `{CarriedOS H, Platform}.

Lemma carries_syscall num a0 a1 a2 a3 a4 a5 : carries (H := H) (syscall num a0 a1 a2 a3 a4 a5).
Proof.
  unfold syscall. cbv zeta.
  repeat (match goal with |- carries (if ?b then _ else _) => destruct b end; [solve [arms; carry]|]).
  apply carries_try.
Qed.
End syscall.
