(* ===== verification/Host.v ===== *)
(** * The host: executing items

    [crates/sallyport/src/host]: the untrusted side of the sallyport.  Items
    are decoded from the block, offsets into their data are turned into
    pointers, and the system call is made.  The kernel and the [cpuid]
    instruction are not part of the program: they are the operations of the
    class [Kernel]. *)

From S2P Require Import Prelude Memory Libc PhaseAlloc Items.

(** What the host runs on: [syscall] with a number and its register arguments
    gives [rax], or does not return ([SYS_exit]); [cpuid] gives [eax], [ebx],
    [ecx] and [edx]. *)
Class Kernel (K : Type) := {
  kernel_syscall : Z → list Z → K → mem → option (Z * K * mem);
  kernel_cpuid : Z → Z → K → Z * Z * Z * Z;
}.

Record machine (K : Type) : Type := mkMachine { mc_kernel : K; mc_mem : mem }.
Arguments mkMachine {K} _ _.
Arguments mc_kernel {K} _.
Arguments mc_mem {K} _.

Definition hostM (K A : Type) : Type := fal (machine K) A.
#[global] Instance hostM_ret {K} : MRet (hostM K) := fal_ret.
#[global] Instance hostM_bind {K} : MBind (hostM K) := fal_bind.

(** [io::Result]: an error may carry a number. *)
Definition io_result (A : Type) : Type := (A + option Z)%type.

(** [.map_err(|e| e.raw_os_error().unwrap_or(d))] *)
Definition raw_os_error {A : Type} (d : Z) (r : io_result A) : result A :=
  match r with inl a => Ok a | inr e => Err (default d e) end.

(** ** [host/mod.rs]: pointers into the data of an item

    [data] is the byte slice [&mut [u8]]. *)

Definition deref (T : Layout) (data : gref) (offset len : Z) : result Z :=
  size ← ok_or (checked_mul len (l_size T)) EOVERFLOW;
  if (g_len data <? size) || (g_len data - size <? offset) then Err EFAULT
  else Ok (g_ptr data + offset).

Definition deref_slice (T : Layout) (data : gref) (offset len : Z) : result gref :=
  ptr ← deref T data offset len;
  Ok (mkGref ptr len (l_size T)).

Definition deref_aligned (T : Layout) (data : gref) (offset len : Z) : result Z :=
  ptr ← deref T data offset len;
  if negb (align_offset ptr (l_align T) =? 0) then Err EFAULT else Ok ptr.

Definition deref_aligned_slice (T : Layout) (data : gref) (offset len : Z) : result gref :=
  ptr ← deref_aligned T data offset len;
  Ok (mkGref ptr len (l_size T)).

Section host.
Context {K : Type} `{Kernel K}.

(** Reading and writing the memory of the host process. *)
Definition load {A : Type} (f : mem → A) : hostM K A := λ h, Return (Ok (f (mc_mem h)), h).
Definition store (a : Z) (bs : list Z) : hostM K unit := λ h,
  Return (Ok tt, mkMachine (mc_kernel h) (write_bytes (mc_mem h) a bs)).

(** An operation of the environment. *)
Definition env {A : Type} (f : K → result A * K) : hostM K A := λ h,
  let '(r, k) := f (mc_kernel h) in Return (r, mkMachine k (mc_mem h)).

(** One whose [Result] is inspected. *)
Definition env_result {A : Type} (f : K → result A * K) : hostM K (result A) := λ h,
  let '(r, k) := f (mc_kernel h) in Return (Ok r, mkMachine k (mc_mem h)).

Definition panic {A : Type} : hostM K A := λ _, Panicked.

Definition cpuid (leaf sub_leaf : Z) : hostM K (Z * Z * Z * Z) := λ h,
  Return (Ok (kernel_cpuid leaf sub_leaf (mc_kernel h)), h).

(** ** [host/syscall.rs] *)

(** [impl Execute for Syscall<'_, ARGS, 1>]: the [syscall] instruction with
    [argv] in the argument registers; [rax] is stored to [ret]. *)
Definition Syscall_execute (num : Z) (argv : list Z) (ret : Z) : hostM K unit := λ h,
  match kernel_syscall (as_usize num) argv (mc_kernel h) (mc_mem h) with
  | Some (rax, k, m) => Return (Ok tt, mkMachine k (write_usize m ret rax))
  | None => Diverged
  end.

Definition deref_sockaddr_input (data : gref) (addr_offset addrlen : Z) : result Z :=
  addr ← deref ty_u8 data addr_offset addrlen;
  if negb (align_offset addr (l_align sockaddr_storage) =? 0) then Err EFAULT else Ok addr.

Definition deref_sockaddr_output (m : mem) (data : gref) (addr_offset addrlen_offset : Z)
    : result (Z * Z) :=
  addrlen ← deref_aligned socklen_t data addrlen_offset 1;
  addr ← deref ty_u8 data addr_offset (read_u32 m addrlen);
  if negb (align_offset addr (l_align sockaddr_storage) =? 0) then Err EFAULT
  else Ok (addr, addrlen).

(** [if *offset == NULL { null_mut() } else { ... }] *)
Definition nullable {A : Type} (offset : Z) (null : A) (r : result A) : result A :=
  if offset =? NULL then Ok null else r.

(** The arms of [execute] that pass pointers: [data] is the data of the item,
    [ret] the address of its first return word. *)
Section arms.
Context (data : gref) (ret : Z).

Definition host_accept (sockfd addr_offset addrlen_offset : Z) : hostM K unit :=
  r ← load (λ m, nullable addr_offset (0, 0) (deref_sockaddr_output m data addr_offset addrlen_offset));
  '(addr, addrlen) ← try r;
  Syscall_execute SYS_accept [sockfd; addr; addrlen] ret.

Definition host_accept4 (sockfd addr_offset addrlen_offset flags : Z) : hostM K unit :=
  r ← load (λ m, nullable addr_offset (0, 0) (deref_sockaddr_output m data addr_offset addrlen_offset));
  '(addr, addrlen) ← try r;
  Syscall_execute SYS_accept4 [sockfd; addr; addrlen; flags] ret.

Definition host_bind (sockfd addr_offset addrlen : Z) : hostM K unit :=
  addr ← try (deref_sockaddr_input data addr_offset addrlen);
  Syscall_execute SYS_bind [sockfd; addr; addrlen] ret.

Definition host_clock_getres (clockid res_offset : Z) : hostM K unit :=
  res ← try (nullable res_offset 0 (deref_aligned timespec data res_offset 1));
  Syscall_execute SYS_clock_getres [clockid; res] ret.

Definition host_clock_gettime (clockid tp_offset : Z) : hostM K unit :=
  tp ← try (deref_aligned timespec data tp_offset 1);
  Syscall_execute SYS_clock_gettime [clockid; tp] ret.

Definition host_connect (sockfd addr_offset addrlen : Z) : hostM K unit :=
  addr ← try (deref_sockaddr_input data addr_offset addrlen);
  Syscall_execute SYS_connect [sockfd; addr; addrlen] ret.

Definition host_epoll_ctl (epfd op fd event_offset : Z) : hostM K unit :=
  event ← try (deref_aligned epoll_event data event_offset 1);
  Syscall_execute SYS_epoll_ctl [epfd; op; fd; event] ret.

Definition host_epoll_pwait (epfd events_offset maxevents timeout sigmask_offset : Z) : hostM K unit :=
  events ← try (deref_aligned epoll_event data events_offset maxevents);
  sigmask ← try (deref_aligned sigset_t data sigmask_offset 1);
  Syscall_execute SYS_epoll_pwait [epfd; events; maxevents; timeout; sigmask] ret.

Definition host_epoll_wait (epfd events_offset maxevents timeout : Z) : hostM K unit :=
  events ← try (deref_aligned epoll_event data events_offset maxevents);
  Syscall_execute SYS_epoll_wait [epfd; events; maxevents; timeout] ret.

Definition host_getsockname (sockfd addr_offset addrlen_offset : Z) : hostM K unit :=
  r ← load (λ m, deref_sockaddr_output m data addr_offset addrlen_offset);
  '(addr, addrlen) ← try r;
  Syscall_execute SYS_getsockname [sockfd; addr; addrlen] ret.

Definition host_ioctl (fd request argp_offset argp_len : Z) : hostM K unit :=
  argp ← try (nullable argp_offset 0 (deref ty_u8 data argp_offset argp_len));
  Syscall_execute SYS_ioctl [fd; request; argp] ret.

Definition host_nanosleep (req_offset rem_offset : Z) : hostM K unit :=
  req ← try (deref_aligned timespec data req_offset 1);
  rem ← try (nullable rem_offset 0 (deref_aligned timespec data rem_offset 1));
  Syscall_execute SYS_nanosleep [req; rem] ret.

Definition host_open (pathname_offset pathname_len flags mode : Z) : hostM K unit :=
  pathname ← try (deref ty_u8 data pathname_offset pathname_len);
  Syscall_execute SYS_open [pathname; flags; mode] ret.

Definition host_poll (fds_offset nfds timeout : Z) : hostM K unit :=
  fds ← try (deref_aligned pollfd data fds_offset nfds);
  Syscall_execute SYS_poll [fds; nfds; timeout] ret.

Definition host_read (fd buf_offset count : Z) : hostM K unit :=
  buf ← try (deref ty_u8 data buf_offset count);
  Syscall_execute SYS_read [fd; buf; count] ret.

Definition host_recvfrom (sockfd buf_offset len flags src_addr_offset addrlen_offset : Z) : hostM K unit :=
  buf ← try (deref ty_u8 data buf_offset len);
  r ← load (λ m, nullable src_addr_offset (0, 0)
                   (deref_sockaddr_output m data src_addr_offset addrlen_offset));
  '(src_addr, addrlen) ← try r;
  Syscall_execute SYS_recvfrom [sockfd; buf; len; flags; src_addr; addrlen] ret.

Definition host_sendto (sockfd buf_offset len flags dest_addr_offset addrlen : Z) : hostM K unit :=
  buf ← try (deref ty_u8 data buf_offset len);
  dest_addr ← try (nullable dest_addr_offset 0 (deref_sockaddr_input data dest_addr_offset addrlen));
  Syscall_execute SYS_sendto [sockfd; buf; len; flags; dest_addr; addrlen] ret.

Definition host_setsockopt (sockfd level optname optval_offset optlen : Z) : hostM K unit :=
  '(optval, optlen) ← try (nullable optval_offset (0, 0)
    (optval ← deref ty_u8 data optval_offset optlen;
     if negb (align_offset optval (l_align ty_usize) =? 0) then Err EFAULT else Ok (optval, optlen)));
  Syscall_execute SYS_setsockopt [sockfd; level; optname; optval; optlen] ret.

Definition host_write (fd buf_offset count : Z) : hostM K unit :=
  buf ← try (deref ty_u8 data buf_offset count);
  Syscall_execute SYS_write [fd; buf; count] ret.

(** [syscall::execute], with the fields of the payload.  Unsupported items are
    skipped. *)
Definition syscall_execute (num a0 a1 a2 a3 a4 a5 : Z) : hostM K unit :=
  if num =? SYS_accept then host_accept a0 a1 a2
  else if num =? SYS_accept4 then host_accept4 a0 a1 a2 a3
  else if num =? SYS_bind then host_bind a0 a1 a2
  else if num =? SYS_clock_getres then host_clock_getres a0 a1
  else if num =? SYS_clock_gettime then host_clock_gettime a0 a1
  else if num =? SYS_close then Syscall_execute SYS_close [a0] ret
  else if num =? SYS_connect then host_connect a0 a1 a2
  else if num =? SYS_dup then Syscall_execute SYS_dup [a0] ret
  else if num =? SYS_dup2 then Syscall_execute SYS_dup2 [a0; a1] ret
  else if num =? SYS_dup3 then Syscall_execute SYS_dup3 [a0; a1; a2] ret
  else if num =? SYS_epoll_create1 then Syscall_execute SYS_epoll_create1 [a0] ret
  else if num =? SYS_epoll_ctl then host_epoll_ctl a0 a1 a2 a3
  else if num =? SYS_epoll_pwait then host_epoll_pwait a0 a1 a2 a3 a4
  else if num =? SYS_epoll_wait then host_epoll_wait a0 a1 a2 a3
  else if num =? SYS_eventfd2 then Syscall_execute SYS_eventfd2 [a0; a1] ret
  else if num =? SYS_exit then Syscall_execute SYS_exit [a0] ret
  else if num =? SYS_exit_group then Syscall_execute SYS_exit_group [a0] ret
  else if num =? SYS_fcntl then Syscall_execute SYS_fcntl [a0; a1; a2] ret
  else if num =? SYS_getsockname then host_getsockname a0 a1 a2
  else if num =? SYS_ioctl then host_ioctl a0 a1 a2 a3
  else if num =? SYS_listen then Syscall_execute SYS_listen [a0; a1] ret
  else if num =? SYS_nanosleep then host_nanosleep a0 a1
  else if num =? SYS_open then host_open a0 a1 a2 a3
  else if num =? SYS_poll then host_poll a0 a1 a2
  else if num =? SYS_read then host_read a0 a1 a2
  else if num =? SYS_recvfrom then host_recvfrom a0 a1 a2 a3 a4 a5
  else if num =? SYS_sendto then host_sendto a0 a1 a2 a3 a4 a5
  else if num =? SYS_setsockopt then host_setsockopt a0 a1 a2 a3 a4
  else if num =? SYS_socket then Syscall_execute SYS_socket [a0; a1; a2] ret
  else if num =? SYS_sync then Syscall_execute SYS_sync [] ret
  else if num =? SYS_write then host_write a0 a1 a2
  else mret tt.

(** [enarxcall::execute]: [cpuid] is executed by the host, everything else is
    skipped. *)
Definition enarxcall_execute (num leaf sub_leaf result_offset : Z) : hostM K unit :=
  if num =? enarxcall.as_usize enarxcall.Cpuid then
    result ← try (deref_aligned CpuidResult data result_offset 1);
    '(eax, ebx, ecx, edx) ← cpuid (as_u32 leaf) (as_u32 sub_leaf);
    _ ← store result ([eax; ebx; ecx; edx] ≫= to_le_bytes 4);
    store ret (to_le_bytes 8 0)
  else mret tt.

End arms.

(** ** [host/mod.rs]: items *)

Definition item_slice (it : Item) : gref := mkGref (it_data it) (it_data_len it) 1.

(** The address of the (first) return word of an item. *)
Definition item_ret (it : Item) : Z :=
  match it_kind it with Syscall => it_payload it + 56 | _ => it_payload it + 40 end.

(** [*ret = v] *)
Definition set_ret (it : Item) (v : Z) : hostM K unit := store (item_ret it) (to_le_bytes 8 v).

(** [match e { Ok(n) => n, Err(e) => -e as usize }] *)
Definition ret_of (r : result Z) : Z := match r with Ok n => n | Err e => as_usize (- e) end.

(** [Execute for Item] *)
Definition Item_execute (it : Item) : hostM K unit :=
  argv ← load (λ m i, read_usize m (it_payload it + 8 * i));
  match it_kind it with
  | Syscall =>
      syscall_execute (item_slice it) (item_ret it)
        (argv 0) (argv 1) (argv 2) (argv 3) (argv 4) (argv 5) (argv 6)
  | Enarxcall =>
      enarxcall_execute (item_slice it) (item_ret it) (argv 0) (argv 1) (argv 2) (argv 3)
  | _ => mret tt
  end.

(** [host::execute] on items that are already decoded: the first error ends
    the traversal. *)
Fixpoint execute_items (items : list Item) : hostM K unit :=
  match items with
  | [] => mret tt
  | item :: items => _ ← Item_execute item; execute_items items
  end.

Definition next_item (fuel : nat) (self : option block) : hostM K (option Item * option block) := λ h,
  must (BlockIterator_next fuel (mc_mem h) self) h.

(** [host::execute] on the items of a block: the iterator decodes each item
    when the one before it was executed. *)
Fixpoint execute_iter (fuel : nat) (self : option block) : hostM K unit :=
  match fuel with
  | O => λ _, Diverged
  | S fuel =>
      '(item, self) ← next_item (S fuel) self;
      match item with
      | None => mret tt
      | Some item => _ ← Item_execute item; execute_iter fuel self
      end
  end.

Definition host_execute (blk : block) : hostM K unit :=
  execute_iter (S (Z.to_nat (b_len blk))) (Some blk).

End host.
