(* ===== verification/HostLaws.v ===== *)
(** * The host: confinement

    What the code in [crates/sallyport/src/host] guarantees about a request an
    adversarial keep wrote: pointers handed to the kernel stay inside the data
    of the item, so a kernel that keeps to its documentation changes nothing
    but the block.  Three requests escape that argument; they are shown at the
    end. *)

From S2P Require Import Prelude Memory Libc PhaseAlloc Items Host.

(** ** Dereferencing *)

(** [p] addresses [len] elements of [T] inside [data], at [offset]. *)
Definition points_into (T : Layout) (data : gref) (offset len p : Z) : Prop :=
  p = g_ptr data + offset ∧ 0 ≤ offset ∧ 0 ≤ len ∧ offset + len * l_size T ≤ g_len data.

Lemma deref_Ok T data offset len p :
  0 ≤ offset → 0 ≤ len → deref T data offset len = Ok p → points_into T data offset len p.
Proof.
  intros Ho Hl. unfold deref. destruct (checked_mul len (l_size T)) as [size|] eqn:E; simpl; [|done].
  apply checked_mul_Some in E as [-> _]. destruct (_ || _) eqn:E; [done|]. intros [= <-].
  bool_to_prop. unfold points_into. lia.
Qed.

Lemma deref_aligned_Ok T data offset len p :
  0 ≤ offset → 0 ≤ len → deref_aligned T data offset len = Ok p → points_into T data offset len p.
Proof.
  intros Ho Hl H. unfold deref_aligned in H. destruct (deref T data offset len) as [q|e] eqn:E; [|done].
  simpl in H. destruct (negb _); [done|]. injection H as <-. by apply deref_Ok.
Qed.

(** ** What the kernel documents

    The regions a system call may store to.  Output lengths of sockets are
    read from memory when the call starts; the kernel's [epoll_event] is packed
    into 12 bytes.  [ioctl_out] is the size of the structure an [ioctl] request
    stores.  The commands of [fcntl] that store through their argument are those
    of fcntl(2) which ask for a lock, an owner or a hint. *)
Definition F_GETLK : Z := 5.
Definition F_GETOWN_EX : Z := 16.
Definition F_OFD_GETLK : Z := 36.
Definition F_GET_RW_HINT : Z := 1035.
Definition F_GET_FILE_RW_HINT : Z := 1037.

Definition fcntl_out (cmd : Z) : Z :=
  if (cmd =? F_GETLK) || (cmd =? F_OFD_GETLK) then 32
  else if (cmd =? F_GETOWN_EX) || (cmd =? F_GET_RW_HINT) || (cmd =? F_GET_FILE_RW_HINT) then 8 else 0.

Definition socket_out (m : mem) (addr addrlen : Z) : list gref :=
  if addr =? 0 then [] else [mkGref addr (read_u32 m addrlen) 1; mkGref addrlen 4 1].

Definition pointer_out (p size : Z) : list gref := if p =? 0 then [] else [mkGref p size 1].

Definition kernel_writes (ioctl_out : Z → Z) (num : Z) (argv : list Z) (m : mem) : list gref :=
  let a i := default 0 (argv !! i) in
  if (num =? SYS_accept) || (num =? SYS_accept4) || (num =? SYS_getsockname)
  then socket_out m (a 1%nat) (a 2%nat)
  else if num =? SYS_read then [mkGref (a 1%nat) (a 2%nat) 1]
  else if num =? SYS_recvfrom
  then mkGref (a 1%nat) (a 2%nat) 1 :: socket_out m (a 4%nat) (a 5%nat)
  else if (num =? SYS_clock_getres) || (num =? SYS_clock_gettime) || (num =? SYS_nanosleep)
  then pointer_out (a 1%nat) 16
  else if (num =? SYS_epoll_wait) || (num =? SYS_epoll_pwait)
  then [mkGref (a 1%nat) (a 2%nat * 12) 1]
  else if num =? SYS_poll then [mkGref (a 0%nat) (a 1%nat * 8) 1]
  else if num =? SYS_ioctl then pointer_out (a 2%nat) (ioctl_out (a 1%nat))
  else if num =? SYS_fcntl then pointer_out (a 2%nat) (fcntl_out (as_u32 (a 1%nat)))
  else [].

(** The calls the host makes. *)
Definition host_syscalls : list Z :=
  [SYS_accept; SYS_accept4; SYS_bind; SYS_clock_getres; SYS_clock_gettime; SYS_close; SYS_connect;
   SYS_dup; SYS_dup2; SYS_dup3; SYS_epoll_create1; SYS_epoll_ctl; SYS_epoll_pwait; SYS_epoll_wait;
   SYS_eventfd2; SYS_exit; SYS_exit_group; SYS_fcntl; SYS_getsockname; SYS_ioctl; SYS_listen;
   SYS_nanosleep; SYS_open; SYS_poll; SYS_read; SYS_recvfrom; SYS_sendto; SYS_setsockopt;
   SYS_socket; SYS_sync; SYS_write].

(** [recvfrom] stores the data before it reads the length of the address
    buffer: nothing is documented when the two overlap. *)
Definition kernel_specified (num : Z) (argv : list Z) : Prop :=
  let a i := default 0 (argv !! i) in
  num ∈ host_syscalls ∧
  (num = SYS_recvfrom → 0 ≤ a 2%nat ∧
    (a 4%nat = 0 ∨ a 5%nat + 4 ≤ a 1%nat ∨ a 1%nat + a 2%nat ≤ a 5%nat)).

Class KernelSpec (K : Type) `{Kernel K} := {
  ioctl_out : Z → Z;
  ks_frame : ∀ num argv (k : K) m rax k' m',
    kernel_syscall num argv k m = Some (rax, k', m') → kernel_specified num argv →
    same_except (kernel_writes ioctl_out num argv m) m m';
  ks_wf : ∀ num argv (k : K) m rax k' m',
    kernel_syscall num argv k m = Some (rax, k', m') → mem_wf m → is_usize rax ∧ mem_wf m';
}.

(** ** Confinement *)

Section confinement.
Context {K : Type} `{KernelSpec K}.

(** [f] changes memory only in [rs]; it may end the process, never panics. *)
Definition stays {A : Type} (rs : list gref) (f : hostM K A) (h : machine K) : Prop :=
  match f h with
  | Return (_, h') =>
      same_except rs (mc_mem h) (mc_mem h') ∧ (mem_wf (mc_mem h) → mem_wf (mc_mem h'))
  | Diverged => True
  | _ => False
  end.

Lemma stays_ret {A : Type} rs (a : A) h : stays rs (mret a) h.
Proof. done. Qed.

Lemma stays_bind {A B : Type} rs (f : hostM K A) (g : A → hostM K B) h :
  stays rs f h → (∀ a h', f h = Return (Ok a, h') → stays rs (g a) h') → stays rs (f ≫= g) h.
Proof.
  unfold stays, mbind, hostM_bind, fal_bind. intros Hf Hg.
  destruct (f h) as [[[a|e] h']| | |]; try done. specialize (Hg a h' eq_refl).
  destruct (g a h') as [[b h2]| | |]; try done. destruct Hf as [F1 F2], Hg as [G1 G2].
  split; [by etransitivity|auto].
Qed.

Lemma stays_try {A B : Type} rs (r : result A) (g : A → hostM K B) h :
  (∀ a, r = Ok a → stays rs (g a) h) → stays rs (try r ≫= g) h.
Proof. intros Hg. apply stays_bind; [done|]. intros a h' [= -> <-]. by apply Hg. Qed.

Lemma stays_load {A B : Type} rs (f : mem → A) (g : A → hostM K B) h :
  stays rs (g (f (mc_mem h))) h → stays rs (load f ≫= g) h.
Proof. intros Hg. apply stays_bind; [done|]. by intros a h' [= <- <-]. Qed.

Lemma stays_store rs a bs h :
  bytes_wf bs → (∀ x, a ≤ x < a + Z.of_nat (length bs) → Exists (λ r, in_gref r x) rs) →
  stays rs (store a bs) h.
Proof.
  intros Hbs Hin. split; simpl; [|auto with enarx].
  intros x Hx. apply write_bytes_outside. intros Hr. apply Hin, Exists_exists in Hr as (r & Hr & Hi).
  rewrite Forall_forall in Hx. by apply (Hx r).
Qed.

(** The region of the return word. *)
Definition ret_region (ret : Z) : gref := mkGref ret 8 1.

(** A region [r] inside the data of the item. *)
Definition inside (data r : gref) : Prop := ∀ x, in_gref r x → in_gref data x.

Lemma stays_syscall data ret num argv h :
  kernel_specified (as_usize num) argv →
  Forall (inside data) (kernel_writes ioctl_out (as_usize num) argv (mc_mem h)) →
  stays [data; ret_region ret] (Syscall_execute num argv ret) h.
Proof.
  intros Hs Hin. unfold stays, Syscall_execute.
  destruct (kernel_syscall _ _ _ _) as [[[rax k'] m']|] eqn:E; [|done]. simpl.
  apply ks_frame in E as Hf; [|done]. split.
  - transitivity m'.
    + intros x Hx. apply Hf. apply Forall_cons in Hx as [Hx _].
      eapply Forall_impl; [exact Hin|]. intros r Hr Hi. by apply Hx, Hr.
    + intros x Hx. apply Forall_cons in Hx as [_ [Hx _]%Forall_cons].
      apply write_bytes_outside. rewrite length_to_le_bytes. unfold in_gref, g_bytes, ret_region in Hx. simpl in Hx. lia.
  - intros Hm. apply ks_wf in E as [_ Hm']; [|done]. apply write_bytes_wf; auto with enarx.
Qed.

(** Evaluates the tests on the (constant) number of a call. *)
Ltac known_call :=
  repeat match goal with
  | |- context [as_usize ?n] =>
      let v := eval vm_compute in (as_usize n) in change (as_usize n) with v
  end.
Ltac known_writes :=
  known_call; unfold kernel_writes;
  repeat match goal with
  | |- context [Z.eqb ?a ?b] =>
      let v := eval vm_compute in (Z.eqb a b) in
      lazymatch v with true => idtac | false => idtac end; change (Z.eqb a b) with v
  end;
  cbn [orb default lookup list_lookup from_option id].
Ltac known_spec := known_call; split; [by apply (bool_decide_unpack _); vm_compute|].

(** The argument vector of the item keeps to what the kernel documents: the
    length given for an [ioctl] covers what the request stores, the buffer of
    [recvfrom] does not overlap the length of the address, and the command of
    an [fcntl], whose argument is handed on as it is, does not store through it. *)
Definition within_contract (num a0 a1 a2 a3 a4 a5 : Z) : Prop :=
  (num = SYS_ioctl → a2 = NULL ∨ ioctl_out a1 ≤ a3) ∧
  (num = SYS_recvfrom → a4 = NULL ∨ a5 + 4 ≤ a1 ∨ a1 + a2 ≤ a5) ∧
  (num = SYS_fcntl → fcntl_out (as_u32 a1) = 0).

Context (data : gref) (Hdata : g_elem data = 1) (ret : Z).

Lemma points_inside T offset len p n :
  points_into T data offset len p → n ≤ len * l_size T → inside data (mkGref p n 1).
Proof.
  intros (-> & ? & ? & ?) Hn x. unfold in_gref, g_bytes. simpl. rewrite Hdata. lia.
Qed.

Lemma nullable_inv {A : Type} offset (null a : A) r :
  nullable offset null r = Ok a → (offset = NULL ∧ a = null) ∨ (offset ≠ NULL ∧ r = Ok a).
Proof. unfold nullable. destruct (offset =? NULL) eqn:E; bool_to_prop; [intros [= ->]|]; auto. Qed.

Lemma inside_pointer_out T offset len p n :
  points_into T data offset len p → n ≤ len * l_size T → Forall (inside data) (pointer_out p n).
Proof.
  intros Hp Hn. unfold pointer_out. destruct (p =? 0); [done|].
  apply Forall_singleton. by eapply points_inside.
Qed.

(** The two pointers of a socket address. *)
Lemma sockaddr_output_Ok m addr_offset addrlen_offset addr addrlen :
  mem_wf m → 0 ≤ addr_offset → 0 ≤ addrlen_offset →
  deref_sockaddr_output m data addr_offset addrlen_offset = Ok (addr, addrlen) →
  points_into ty_u8 data addr_offset (read_u32 m addrlen) addr ∧
  points_into socklen_t data addrlen_offset 1 addrlen.
Proof.
  intros Hm H1 H2 E. unfold deref_sockaddr_output in E.
  destruct (deref_aligned _ _ _ _) as [q|] eqn:E1; [|done]. simpl in E.
  destruct (deref ty_u8 _ _ _) as [p|] eqn:E2; [|done]. simpl in E.
  destruct (negb _); [done|]. injection E as <- <-. split.
  - apply deref_Ok in E2; [done|done|].
    apply (from_le_bytes_range (read_bytes m q 4)). by apply read_bytes_wf.
  - by apply deref_aligned_Ok in E1.
Qed.

Lemma inside_socket_out m addr_offset addrlen_offset addr addrlen :
  points_into ty_u8 data addr_offset (read_u32 m addrlen) addr →
  points_into socklen_t data addrlen_offset 1 addrlen →
  Forall (inside data) (socket_out m addr addrlen).
Proof.
  intros H1 H2. unfold socket_out. destruct (addr =? 0); [done|].
  apply Forall_cons_2; [|apply Forall_singleton].
  - eapply points_inside; [exact H1|]. simpl. lia.
  - eapply points_inside; [exact H2|]. simpl. lia.
Qed.

(** The system call of an arm, once its pointers are known. *)
Ltac close_arm := apply stays_syscall; [known_spec; done|known_writes; try apply Forall_nil_2].

Context (h : machine K) (Hm : mem_wf (mc_mem h)).

Lemma sockaddr_arm {B : Type} a0 a1 (g : Z * Z → hostM K B) :
  0 ≤ a0 → 0 ≤ a1 → (∀ addr addrlen,
    points_into ty_u8 data a0 (read_u32 (mc_mem h) addrlen) addr →
    points_into socklen_t data a1 1 addrlen → stays [data; ret_region ret] (g (addr, addrlen)) h) →
  stays [data; ret_region ret] (r ← load (λ m, deref_sockaddr_output m data a0 a1); try r ≫= g) h.
Proof.
  intros U0 U1 Hg. apply stays_load, stays_try. intros [addr addrlen] E.
  apply sockaddr_output_Ok in E as [E1 E2]; [|done..]. by apply Hg.
Qed.

Lemma nullable_sockaddr_arm {B : Type} a0 a1 (g : Z * Z → hostM K B) :
  0 ≤ a0 → 0 ≤ a1 → (a0 = NULL → stays [data; ret_region ret] (g (0, 0)) h) →
  (∀ addr addrlen, a0 ≠ NULL →
    points_into ty_u8 data a0 (read_u32 (mc_mem h) addrlen) addr →
    points_into socklen_t data a1 1 addrlen → stays [data; ret_region ret] (g (addr, addrlen)) h) →
  stays [data; ret_region ret]
    (r ← load (λ m, nullable a0 (0, 0) (deref_sockaddr_output m data a0 a1)); try r ≫= g) h.
Proof.
  intros U0 U1 Hn Hg. apply stays_load, stays_try. intros [addr addrlen] E.
  apply nullable_inv in E as [[? [= -> ->]]|[? E]]; [auto|].
  apply sockaddr_output_Ok in E as [E1 E2]; [|done..]. by apply Hg.
Qed.

Lemma accept_stays a0 a1 a2 :
  0 ≤ a1 → 0 ≤ a2 → stays [data; ret_region ret] (host_accept data ret a0 a1 a2) h.
Proof.
  intros U1 U2. apply nullable_sockaddr_arm; [done..|intros _|intros addr addrlen _ P1 P2]; close_arm.
  by eapply inside_socket_out.
Qed.

Lemma accept4_stays a0 a1 a2 a3 :
  0 ≤ a1 → 0 ≤ a2 → stays [data; ret_region ret] (host_accept4 data ret a0 a1 a2 a3) h.
Proof.
  intros U1 U2. apply nullable_sockaddr_arm; [done..|intros _|intros addr addrlen _ P1 P2]; close_arm.
  by eapply inside_socket_out.
Qed.

Lemma getsockname_stays a0 a1 a2 :
  0 ≤ a1 → 0 ≤ a2 → stays [data; ret_region ret] (host_getsockname data ret a0 a1 a2) h.
Proof.
  intros U1 U2. apply sockaddr_arm; [done..|intros addr addrlen P1 P2]; close_arm.
  by eapply inside_socket_out.
Qed.

(** One pointer to [len] elements, of which the kernel stores [n] bytes. *)
Lemma stores_inside T offset len p n :
  0 ≤ offset → 0 ≤ len → (deref T data offset len = Ok p ∨ deref_aligned T data offset len = Ok p) →
  n ≤ len * l_size T → inside data (mkGref p n 1) ∧ Forall (inside data) (pointer_out p n).
Proof.
  intros Ho Hl E Hn. assert (P : points_into T data offset len p)
    by (destruct E; [by apply deref_Ok|by apply deref_aligned_Ok]).
  split; [by eapply points_inside|by eapply inside_pointer_out].
Qed.

Lemma clock_getres_stays a0 a1 : 0 ≤ a1 → stays [data; ret_region ret] (host_clock_getres data ret a0 a1) h.
Proof.
  intros U1. apply stays_try. intros p [[? ->]|[? E]]%nullable_inv; close_arm.
  by eapply (stores_inside timespec a1 1); auto.
Qed.

Lemma clock_gettime_stays a0 a1 : 0 ≤ a1 → stays [data; ret_region ret] (host_clock_gettime data ret a0 a1) h.
Proof.
  intros U1. apply stays_try. intros p E. close_arm. by eapply (stores_inside timespec a1 1); auto.
Qed.

Lemma nanosleep_stays a0 a1 : 0 ≤ a1 → stays [data; ret_region ret] (host_nanosleep data ret a0 a1) h.
Proof.
  intros U1. apply stays_try. intros q _. apply stays_try.
  intros p [[? ->]|[? E]]%nullable_inv; close_arm.
  by eapply (stores_inside timespec a1 1); auto.
Qed.

Lemma epoll_pwait_stays a0 a1 a2 a3 a4 :
  0 ≤ a1 → 0 ≤ a2 → stays [data; ret_region ret] (host_epoll_pwait data ret a0 a1 a2 a3 a4) h.
Proof.
  intros U1 U2. apply stays_try. intros p E. apply stays_try. intros q _. close_arm.
  apply Forall_singleton. eapply (stores_inside epoll_event a1 a2); auto. change (l_size epoll_event) with 16. lia.
Qed.

Lemma epoll_wait_stays a0 a1 a2 a3 :
  0 ≤ a1 → 0 ≤ a2 → stays [data; ret_region ret] (host_epoll_wait data ret a0 a1 a2 a3) h.
Proof.
  intros U1 U2. apply stays_try. intros p E. close_arm.
  apply Forall_singleton. eapply (stores_inside epoll_event a1 a2); auto. change (l_size epoll_event) with 16. lia.
Qed.

Lemma poll_stays a0 a1 a2 :
  0 ≤ a0 → 0 ≤ a1 → stays [data; ret_region ret] (host_poll data ret a0 a1 a2) h.
Proof.
  intros U0 U1. apply stays_try. intros p E. close_arm.
  apply Forall_singleton. by eapply (stores_inside pollfd a0 a1); auto.
Qed.

Lemma read_stays a0 a1 a2 :
  0 ≤ a1 → 0 ≤ a2 → stays [data; ret_region ret] (host_read data ret a0 a1 a2) h.
Proof.
  intros U1 U2. apply stays_try. intros p E. close_arm.
  apply Forall_singleton. eapply (stores_inside ty_u8 a1 a2); auto. simpl. lia.
Qed.

Lemma ioctl_stays a0 a1 a2 a3 :
  0 ≤ a2 → 0 ≤ a3 → a2 = NULL ∨ ioctl_out a1 ≤ a3 →
  stays [data; ret_region ret] (host_ioctl data ret a0 a1 a2 a3) h.
Proof.
  intros U2 U3 Hi. apply stays_try. intros p [[? ->]|[? E]]%nullable_inv; close_arm.
  destruct Hi as [?|Hi]; [done|]. eapply (stores_inside ty_u8 a2 a3); auto. simpl. lia.
Qed.

Lemma recvfrom_stays a0 a1 a2 a3 a4 a5 :
  0 ≤ a1 → 0 ≤ a2 → 0 ≤ a4 → 0 ≤ a5 → a4 = NULL ∨ a5 + 4 ≤ a1 ∨ a1 + a2 ≤ a5 →
  stays [data; ret_region ret] (host_recvfrom data ret a0 a1 a2 a3 a4 a5) h.
Proof.
  intros U1 U2 U4 U5 Hr. apply stays_try. intros buf E. apply deref_Ok in E as P; [|done..].
  assert (Hb : inside data (mkGref buf a2 1)) by (eapply points_inside; [exact P|]; simpl; lia).
  apply nullable_sockaddr_arm; [done..|intros _|intros addr addrlen Hn P1 P2]; apply stays_syscall.
  - known_spec. by auto.
  - known_writes. apply Forall_cons_2; [exact Hb|done].
  - known_spec. intros _. split; [done|]. right. cbn [default lookup list_lookup from_option id]. destruct P as [-> _], P2 as [-> _]. lia.
  - known_writes. apply Forall_cons_2; [exact Hb|]. by eapply inside_socket_out.
Qed.

Lemma setsockopt_stays a0 a1 a2 a3 a4 :
  stays [data; ret_region ret] (host_setsockopt data ret a0 a1 a2 a3 a4) h.
Proof. apply stays_try. intros [optval optlen] _. close_arm. Qed.

Lemma empty_inside p : Forall (inside data) (pointer_out p 0).
Proof.
  unfold pointer_out. destruct (p =? 0); [done|]. apply Forall_singleton. intros x. unfold in_gref, g_bytes. simpl. lia.
Qed.

Lemma fcntl_stays a0 a1 a2 : fcntl_out (as_u32 a1) = 0 →
  stays [data; ret_region ret] (Syscall_execute SYS_fcntl [a0; a1; a2] ret) h.
Proof.
  intros Hc. apply stays_syscall; [known_spec; done|]. known_writes. rewrite Hc. apply empty_inside.
Qed.

Create HintDb arms.
#[local] Hint Resolve accept_stays accept4_stays getsockname_stays clock_getres_stays clock_gettime_stays
  nanosleep_stays epoll_pwait_stays epoll_wait_stays poll_stays read_stays setsockopt_stays : arms.

Lemma syscall_execute_stays num a0 a1 a2 a3 a4 a5 :
  0 ≤ a0 → 0 ≤ a1 → 0 ≤ a2 → 0 ≤ a3 → 0 ≤ a4 → 0 ≤ a5 →
  within_contract num a0 a1 a2 a3 a4 a5 →
  stays [data; ret_region ret] (syscall_execute data ret num a0 a1 a2 a3 a4 a5) h.
Proof.
  intros U0 U1 U2 U3 U4 U5 (Hi & Hr & Hf). unfold syscall_execute.
  repeat (match goal with |- stays _ (if ?b then _ else _) _ => destruct b eqn:? end; bool_to_prop;
    [first [solve [auto with arms] | by apply ioctl_stays; auto | by apply recvfrom_stays; auto
           | by apply fcntl_stays; auto
           | repeat (apply stays_try; intros ? _); close_arm]|]).
  done.
Qed.

Lemma enarxcall_execute_stays num leaf sub_leaf offset :
  0 ≤ offset → stays [data; ret_region ret] (enarxcall_execute data ret num leaf sub_leaf offset) h.
Proof.
  intros Ho. unfold enarxcall_execute. destruct (num =? _); [|done].
  apply stays_try. intros p E.
  assert (Hp : inside data (mkGref p 16 1)) by by eapply (stores_inside CpuidResult offset 1); auto.
  apply stays_bind; [done|]. intros [[[eax ebx] ecx] edx] h1 _.
  assert (Hr : ∀ x, ret ≤ x < ret + 8 → in_gref (ret_region ret) x) by (intros x; unfold in_gref, g_bytes; simpl; lia).
  apply stays_bind; [|intros _ h2 _]; apply stays_store.
  - repeat (apply Forall_app_2; [apply to_le_bytes_wf|]). apply Forall_nil_2.
  - intros x Hx. apply Exists_cons_hd, Hp. unfold in_gref, g_bytes. simpl in *. lia.
  - apply to_le_bytes_wf.
  - intros x Hx. apply Exists_cons_tl, Exists_cons_hd, Hr, Hx.
Qed.

End confinement.

(** ** Iterating while executing *)

Section iteration.
Context {K : Type} `{KernelSpec K}.

Lemma stays_mono {A : Type} rs rs' (f : hostM K A) h :
  (∀ x, Forall (λ r, ¬ in_gref r x) rs' → Forall (λ r, ¬ in_gref r x) rs) →
  stays rs f h → stays rs' f h.
Proof.
  intros Hr. unfold stays. destruct (f h) as [[a h']| | |]; try done.
  intros [Hs Hw]. split; [|done]. intros x Hx. by apply Hs, Hr.
Qed.

Definition item_region (it : Item) : gref := mkGref (it_payload it) (it_end it - it_payload it) 1.
Definition words_region (blk : block) : gref := mkGref (b_ptr blk) (b_len blk) 8.

(** A system call among the items keeps to the contract of the kernel. *)
Definition item_within (m : mem) (it : Item) : Prop :=
  let a i := read_usize m (it_payload it + 8 * i) in
  it_kind it = Syscall → within_contract (a 0) (a 1) (a 2) (a 3) (a 4) (a 5) (a 6).

Lemma Item_execute_stays it h :
  mem_wf (mc_mem h) → it_kind it ≠ End_ → it_data it = it_payload it + 8 * USIZE_COUNT (it_kind it) →
  0 ≤ it_data_len it → item_within (mc_mem h) it → stays [item_region it] (Item_execute it) h.
Proof.
  intros Hm Hk Hd Hl Hw. apply (stays_mono [item_slice it; ret_region (item_ret it)]).
  - intros x Hx. apply Forall_cons in Hx as [Hx _].
    assert (Hr : it_payload it + 40 ≤ item_ret it ∧ item_ret it + 8 ≤ it_data it).
    { assert (USIZE_COUNT Syscall = 9 ∧ USIZE_COUNT Gdbcall = 6 ∧ USIZE_COUNT Enarxcall = 6) as (? & ? & ?) by done.
      rewrite Hd. unfold item_ret. destruct (it_kind it); [done|lia..]. }
    unfold item_region, item_slice, ret_region, in_gref, g_bytes, it_end in *. cbn [g_ptr g_len g_elem] in *.
    apply Forall_cons_2; [|apply Forall_singleton]; cbn [g_ptr g_len g_elem]; lia.
  - assert (Hr : ∀ a, 0 ≤ read_usize (mc_mem h) a) by (intros a; by apply read_usize_range).
    apply stays_load. destruct (it_kind it) eqn:Ek; [done| |done|].
    + by apply syscall_execute_stays; auto.
    + by apply enarxcall_execute_stays.
Qed.

(** The iterator looks only at the words it was given. *)
Definition agree (blk : block) (m m' : mem) : Prop :=
  ∀ x, b_ptr blk ≤ x < b_ptr blk + 8 * b_len blk → m' x = m x.

Lemma Block_into_ext m m' blk : agree blk m m' → Block_into m' blk = Block_into m blk.
Proof.
  intros Ha. unfold Block_into. destruct (b_len blk <? 2) eqn:E; [done|]. bool_to_prop.
  by rewrite !(read_usize_ext m m') by (intros x Hx; apply Ha; lia).
Qed.

Lemma BlockIterator_next_ext fuel m m' blk :
  mem_wf m → agree blk m m' → BlockIterator_next fuel m' (Some blk) = BlockIterator_next fuel m (Some blk).
Proof.
  intros Hm. revert blk. induction fuel as [|fuel IH]; intros blk Ha; [done|].
  simpl. rewrite (Block_into_ext m m' blk Ha).
  destruct (Block_into m blk) as [[[[it|] tail]|]| | |] eqn:E; try done. simpl.
  apply Block_into_skip in E as (? & ? & ? & ? & ?); [|done].
  apply IH. intros x Hx. apply Ha. lia.
Qed.

Lemma BlockIterator_collect_ext fuel m m' blk :
  mem_wf m → 0 ≤ b_len blk → (Z.to_nat (b_len blk) < fuel)%nat → agree blk m m' →
  BlockIterator_collect fuel m' (Some blk) = BlockIterator_collect fuel m (Some blk).
Proof.
  intros Hm. revert blk. induction fuel as [|fuel IH]; intros blk Hl Hf Ha; [done|].
  cbn [BlockIterator_collect]. rewrite (BlockIterator_next_ext _ m m' blk Hm Ha).
  pose proof (BlockIterator_next_spec (S fuel) m blk Hm Hl Hf) as Hn.
  destruct (BlockIterator_next (S fuel) m (Some blk)) as [[[it|] [tail|]]| | |]; try done.
  destruct Hn as (blk' & (? & ? & ?) & Hc). pose proof (carved_suffix _ _ _ _ Hc) as [(? & ? & ?) ?].
  unfold mbind, outcome_bind. rewrite IH; [done|lia..|]. intros x Hx. apply Ha. lia.
Qed.

Lemma item_within_ext m m' blk its :
  items_in m blk its → agree blk m m' → Forall (item_within m) its → Forall (item_within m') its.
Proof.
  intros Hi Ha Hw. apply items_in_bounds in Hi as Hb.
  rewrite Forall_forall in Hb, Hw |- *. intros it Hit Hk. specialize (Hb it Hit) as (B1 & B2 & B3).
  specialize (Hw it Hit Hk). assert (Hd : it_data it = it_payload it + 72).
  { clear -Hi Hit Hk. induction Hi as [|blk blk' it' tail its _ Hc _ IH]; [by apply not_elem_of_nil in Hit|].
    apply elem_of_cons in Hit as [<-|Hit]; [|auto]. destruct Hc. by rewrite Hk in *. }
  unfold it_start in B1. cbn zeta. 
  rewrite !(read_usize_ext m m') by (intros x Hx; apply Ha; lia). exact Hw.
Qed.

(** One step of an iteration that executes items as it goes: the item is well
    formed, lies in the words before [tail], and whatever is done to it leaves
    the rest of the block, its items and their contracts as they were. *)
Record stepped (m : mem) (blk : block) (fuel : nat) (it : Item) (tail : block) (its : list Item) : Prop := {
  sp_kind : it_kind it ≠ End_;
  sp_data : it_data it = it_payload it + 8 * USIZE_COUNT (it_kind it);
  sp_len : 0 ≤ it_data_len it;
  sp_item : ∀ x, in_gref (item_region it) x → in_gref (words_region blk) x;
  sp_tail : ∀ x, in_gref (words_region tail) x → in_gref (words_region blk) x;
  sp_tail_len : 0 ≤ b_len tail;
  sp_fuel : (Z.to_nat (b_len tail) < fuel)%nat;
  sp_within : item_within m it;
  sp_rest : ∀ m', same_except [item_region it] m m' →
    BlockIterator_collect fuel m' (Some tail) = Return its ∧ Forall (item_within m') its;
}.

Lemma iter_step fuel m blk its0 :
  mem_wf m → 0 ≤ b_len blk → (Z.to_nat (b_len blk) < S fuel)%nat →
  BlockIterator_collect (S fuel) m (Some blk) = Return its0 → Forall (item_within m) its0 →
  (its0 = [] ∧ BlockIterator_next (S fuel) m (Some blk) = Return (None, None)) ∨
  ∃ it tail its, its0 = it :: its ∧ BlockIterator_next (S fuel) m (Some blk) = Return (Some it, Some tail) ∧
    stepped m blk fuel it tail its.
Proof.
  intros Hm Hl Hf Hc Hw. cbn [BlockIterator_collect] in Hc.
  pose proof (BlockIterator_next_spec (S fuel) m blk Hm Hl Hf) as Hn.
  destruct (BlockIterator_next (S fuel) m (Some blk)) as [[[it|] [tail|]]| | |]; try done;
    unfold mbind, outcome_bind in Hc; [|left; by injection Hc as <-].
  destruct (BlockIterator_collect fuel m (Some tail)) as [its| | |] eqn:Et; try done.
  injection Hc as <-. apply Forall_cons in Hw as [Hw Hws]. right. exists it, tail, its. split_and!; [done..|].
  destruct Hn as (blk' & (? & ? & ?) & Hc). pose proof (carved_suffix _ _ _ _ Hc) as [(? & ? & ?) ?].
  assert (Hi : items_in m tail its).
  { pose proof (BlockIterator_collect_spec fuel m (Some tail) Hm ltac:(intros b [= <-]; lia) ltac:(lia)) as Hsp.
    by rewrite Et in Hsp. }
  destruct Hc. split; try done; try lia.
  - intros x. unfold in_gref, g_bytes, item_region, words_region, it_end. simpl. lia.
  - intros x. unfold in_gref, g_bytes, words_region. simpl. lia.
  - intros m' Hs. assert (Ha : agree tail m m').
    { intros x Hx. apply Hs, Forall_singleton. unfold in_gref, g_bytes, item_region, it_end. simpl. lia. }
    split; [|by eapply item_within_ext].
    by rewrite (BlockIterator_collect_ext _ m) by (done || lia).
Qed.

Lemma region_mono (r r' : gref) :
  (∀ x, in_gref r x → in_gref r' x) →
  ∀ x, Forall (λ r, ¬ in_gref r x) [r'] → Forall (λ r, ¬ in_gref r x) [r].
Proof. intros Hr x Hx. apply Forall_cons in Hx as [Hx _]. apply Forall_singleton. auto. Qed.

Lemma execute_iter_items fuel blk h its :
  mem_wf (mc_mem h) → 0 ≤ b_len blk → (Z.to_nat (b_len blk) < fuel)%nat →
  BlockIterator_collect fuel (mc_mem h) (Some blk) = Return its → Forall (item_within (mc_mem h)) its →
  execute_iter fuel (Some blk) h = execute_items its h ∧ stays [words_region blk] (execute_items its) h.
Proof.
  revert blk h its. induction fuel as [|fuel IH]; intros blk h its0 Hm Hl Hf Hc Hw; [done|].
  destruct (iter_step _ _ _ _ Hm Hl Hf Hc Hw) as [[-> En]|(it & tail & its & -> & En & Hs)];
    cbn [execute_iter execute_items]; unfold mbind at 1, hostM_bind at 1, fal_bind at 1, next_item, must;
    rewrite En; [done|]. destruct Hs.
  assert (Hst : stays [item_region it] (Item_execute it) h) by by apply Item_execute_stays.
  assert (Htail : ∀ h', Item_execute it h = Return (Ok tt, h') →
    execute_iter fuel (Some tail) h' = execute_items its h' ∧ stays [words_region tail] (execute_items its) h').
  { intros h' E. unfold stays in Hst. rewrite E in Hst. destruct Hst as [Hsx Hwf].
    destruct (sp_rest0 _ Hsx). by apply IH; auto. }
  split.
  - unfold mbind, hostM_bind, fal_bind. destruct (Item_execute it h) as [[[[]|e] h']| | |] eqn:E; try done.
    by apply Htail.
  - apply stays_bind; [exact (stays_mono _ _ _ _ (region_mono _ _ sp_item0) Hst)|]. intros [] h' E.
    apply (stays_mono _ _ _ _ (region_mono _ _ sp_tail0)). by apply Htail.
Qed.

End iteration.

(** ** What every item preserves

    A reflexive and transitive relation on the state of the host that holds
    across stores and across the system calls of the table holds across the
    execution of any item, whatever it asks for. *)

Section preserved.
Context {K : Type} `{Kernel K} (R : machine K → machine K → Prop) `{!PreOrder R}.
Context (R_store : ∀ h a bs, bytes_wf bs → R h (mkMachine (mc_kernel h) (write_bytes (mc_mem h) a bs))).
Context (R_call : ∀ num argv h rax k m, num ∈ host_syscalls →
  kernel_syscall num argv (mc_kernel h) (mc_mem h) = Some (rax, k, m) → R h (mkMachine k m)).

Definition preserves {A : Type} (f : hostM K A) : Prop := ∀ h r h', f h = Return (r, h') → R h h'.

Lemma pres_ret {A : Type} (a : A) : preserves (mret a).
Proof. by intros h r h' [= <- <-]. Qed.

Lemma pres_bind {A B : Type} (f : hostM K A) (g : A → hostM K B) :
  preserves f → (∀ a, preserves (g a)) → preserves (f ≫= g).
Proof.
  intros Hf Hg h r h' E. unfold mbind, hostM_bind, fal_bind in E.
  destruct (f h) as [[[a|e] h1]| | |] eqn:Ef; try done.
  - transitivity h1; [by eapply Hf|by eapply Hg].
  - injection E as <- <-. by eapply Hf.
Qed.

Lemma pres_try {A : Type} (r : result A) : preserves (try r).
Proof. by intros h r' h' [= <- <-]. Qed.

Lemma pres_load {A : Type} (f : mem → A) : preserves (load f).
Proof. by intros h r h' [= <- <-]. Qed.

Lemma pres_store a bs : bytes_wf bs → preserves (store a bs).
Proof. intros Hb h r h' [= <- <-]. by apply R_store. Qed.

Lemma pres_cpuid leaf sub_leaf : preserves (cpuid leaf sub_leaf).
Proof. by intros h r h' [= <- <-]. Qed.

Lemma pres_Syscall num argv ret : as_usize num ∈ host_syscalls → preserves (Syscall_execute num argv ret).
Proof.
  intros Hn h r h' E. unfold Syscall_execute in E.
  destruct (kernel_syscall _ _ _ _) as [[[rax k'] m']|] eqn:Ek; [|done]. injection E as <- <-.
  transitivity (mkMachine k' m'); [by eapply R_call|]. exact (R_store (mkMachine k' m') _ _ (to_le_bytes_wf _ _)).
Qed.

Create HintDb pres.
#[local] Hint Resolve pres_ret pres_try pres_load pres_store pres_cpuid to_le_bytes_wf : pres.
Ltac pres := repeat first
  [ solve [auto with pres]
  | apply pres_Syscall; by apply (bool_decide_unpack _); vm_compute
  | apply pres_bind; [|intros ?]
  | match goal with |- preserves (let '(_, _) := ?p in _) => destruct p end ].

Lemma pres_Item it : preserves (Item_execute it).
Proof.
  unfold Item_execute. apply pres_bind; [apply pres_load|]. intros argv.
  destruct (it_kind it); [apply pres_ret| |apply pres_ret|].
  - unfold syscall_execute. repeat (match goal with |- preserves (if ?b then _ else _) => destruct b end; [|]);
      unfold host_accept, host_accept4, host_bind, host_clock_getres, host_clock_gettime, host_connect,
      host_epoll_ctl, host_epoll_pwait, host_epoll_wait, host_getsockname, host_ioctl, host_nanosleep,
      host_open, host_poll, host_read, host_recvfrom, host_sendto, host_setsockopt, host_write; pres.
  - unfold enarxcall_execute. destruct (_ =? _); pres.
    apply pres_store. repeat (apply Forall_app_2; [apply to_le_bytes_wf|]). apply Forall_nil_2.
Qed.

Lemma pres_next fuel self : preserves (next_item fuel self).
Proof.
  intros h r h' E. unfold next_item, must in E.
  destruct (BlockIterator_next _ _ _); try done. by injection E as <- <-.
Qed.

Lemma pres_iter fuel self : preserves (execute_iter fuel self).
Proof.
  revert self. induction fuel as [|fuel IH]; intros self; [by intros h r h' E|]. cbn [execute_iter].
  apply pres_bind; [apply pres_next|]. intros [[it|] self']; [|apply pres_ret].
  apply pres_bind; [apply pres_Item|]. intros _. apply IH.
Qed.

End preserved.

Lemma host_execute_wf {K : Type} `{KernelSpec K} blk (h : machine K) r h' :
  host_execute blk h = Return (r, h') → mem_wf (mc_mem h) → mem_wf (mc_mem h').
Proof.
  refine (@pres_iter K _ (λ h h', mem_wf (mc_mem h) → mem_wf (mc_mem h')) _ _ _ _ _ h r h').
  - split; [by intros ?|]. intros x y z; auto.
  - intros h0 a bs Hb Hm. by apply write_bytes_wf.
  - intros num argv h0 rax k m _ E Hm. by apply ks_wf in E as [_ Hw].
Qed.

(** ** A kernel

    [read] and [recvfrom] deliver the bytes [k_bytes]; [recvfrom] reports the
    peer [127.0.0.1:80] after the data was stored, clipped to the length found
    then; [TIOCGWINSZ] stores a window of 24 lines and 80 columns, [F_GETLK] that
    there is no lock. *)

Record linux : Type := mkLinux { k_bytes : list Z }.

Definition peer_addr : list Z := [2; 0; 0; 80; 127; 0; 0; 1; 0; 0; 0; 0; 0; 0; 0; 0].
Definition window_size : list Z := [24; 0; 80; 0; 0; 0; 0; 0].
Definition no_lock : list Z := 2 :: repeat 0 31.

Definition linux_bytes (k : linux) (count : Z) : list Z :=
  take (Z.to_nat (Z.min count 4096)) (as_u8 <$> k_bytes k).

Definition linux_recvfrom (k : linux) (buf len addr addrlen : Z) (m : mem) : mem :=
  let m1 := write_bytes m buf (linux_bytes k len) in
  if addr =? 0 then m1
  else
    let m2 := write_bytes m1 addr (take (Z.to_nat (read_u32 m1 addrlen)) peer_addr) in
    write_bytes m2 addrlen (to_le_bytes 4 16).

Definition linux_syscall (num : Z) (argv : list Z) (k : linux) (m : mem) : option (Z * linux * mem) :=
  let a i := default 0 (argv !! i) in
  let n := Z.of_nat (length (linux_bytes k (a 2%nat))) in
  let k' := mkLinux (drop (Z.to_nat n) (k_bytes k)) in
  if num =? SYS_read then Some (n, k', write_bytes m (a 1%nat) (linux_bytes k (a 2%nat)))
  else if num =? SYS_recvfrom then
    Some (n, k', linux_recvfrom k (a 1%nat) (a 2%nat) (a 4%nat) (a 5%nat) m)
  else if (num =? SYS_ioctl) && (a 1%nat =? TIOCGWINSZ) && negb (a 2%nat =? 0) then
    Some (0, k, write_bytes m (a 2%nat) window_size)
  else if (num =? SYS_fcntl) && (as_u32 (a 1%nat) =? F_GETLK) && negb (a 2%nat =? 0) then
    Some (0, k, write_bytes m (a 2%nat) no_lock)
  else if (num =? SYS_exit) || (num =? SYS_exit_group) then None
  else Some (as_usize (- ENOSYS), k, m).

#[global] Instance linux_kernel : Kernel linux := {|
  kernel_syscall := linux_syscall;
  kernel_cpuid _ _ _ := (0, 0, 0, 0);
|}.

Definition linux_ioctl_out (request : Z) : Z := if request =? TIOCGWINSZ then 8 else 0.

Lemma length_linux_bytes k count : (length (linux_bytes k count) ≤ Z.to_nat (Z.min count 4096))%nat.
Proof. unfold linux_bytes. rewrite length_take. lia. Qed.

Lemma linux_bytes_wf k count : bytes_wf (linux_bytes k count).
Proof.
  apply Forall_take, Forall_fmap, Forall_true. intros b. apply Z.mod_pos_bound. lia.
Qed.

Lemma write_region m a bs n :
  (length bs ≤ Z.to_nat n)%nat → same_except [mkGref a n 1] m (write_bytes m a bs).
Proof.
  intros Hn. destruct bs as [|b bs]; [intros x _; apply write_bytes_nil|].
  apply write_gref_frame; unfold g_bytes; simpl in *; lia.
Qed.

Lemma linux_recvfrom_frame k buf len addr addrlen m :
  0 ≤ len → addr = 0 ∨ addrlen + 4 ≤ buf ∨ buf + len ≤ addrlen →
  same_except (mkGref buf len 1 :: socket_out m addr addrlen) m (linux_recvfrom k buf len addr addrlen m).
Proof.
  intros H0 Hs. unfold linux_recvfrom, socket_out. pose proof (length_linux_bytes k len) as Hl.
  set (bs := linux_bytes k len) in *.
  assert (H1 : same_except [mkGref buf len 1] m (write_bytes m buf bs)) by (apply write_region; lia).
  destruct (addr =? 0) eqn:E; bool_to_prop; [done|]. destruct Hs as [?|Hs]; [done|].
  assert (Er : read_u32 (write_bytes m buf bs) addrlen = read_u32 m addrlen).
  { unfold read_u32. rewrite read_write_disjoint; [done|]. lia. }
  rewrite Er. set (n := read_u32 m addrlen) in *. set (m1 := write_bytes m buf bs) in *.
  assert (H2 : same_except [mkGref addr n 1] m1 (write_bytes m1 addr (take (Z.to_nat n) peer_addr)))
    by (apply write_region; rewrite length_take; lia).
  set (m2 := write_bytes m1 addr _) in *.
  assert (H3 : same_except [mkGref addrlen 4 1] m2 (write_bytes m2 addrlen (to_le_bytes 4 16)))
    by by apply write_region.
  intros x Hx. rewrite !Forall_cons in Hx. destruct Hx as (X1 & X2 & X3 & _).
  by rewrite H3, H2, H1 by by apply Forall_singleton.
Qed.

Lemma linux_frame num argv k m rax k' m' :
  linux_syscall num argv k m = Some (rax, k', m') → kernel_specified num argv →
  same_except (kernel_writes linux_ioctl_out num argv m) m m'.
Proof.
  unfold linux_syscall, kernel_writes. intros E [_ Hs].
  pose proof (length_linux_bytes k (default 0 (argv !! 2%nat))).
  destruct (num =? SYS_read) eqn:E1; bool_to_prop; [subst|].
  { simpl. injection E as <- <- <-. apply write_region. lia. }
  destruct (num =? SYS_recvfrom) eqn:E2; bool_to_prop; [subst|].
  { simpl. injection E as <- <- <-. destruct (Hs eq_refl). by apply linux_recvfrom_frame. }
  destruct (num =? SYS_ioctl) eqn:E3; bool_to_prop; [subst|].
  - cbn -[lookup]. destruct (_ =? TIOCGWINSZ) eqn:E4; cbn -[lookup] in E.
    + unfold pointer_out, linux_ioctl_out. rewrite E4. destruct (_ =? 0); cbn -[lookup] in E; injection E as <- <- <-; [done|].
      by apply write_region.
    + injection E as <- <- <-. done.
  - cbn [andb] in E. destruct (num =? SYS_fcntl) eqn:E5; bool_to_prop; [subst|].
    + cbn -[lookup as_u32] in E |- *. unfold pointer_out.
      destruct (as_u32 _ =? F_GETLK) eqn:E6; cbn -[lookup as_u32] in E; [|by injection E as <- <- <-].
      unfold fcntl_out. rewrite E6. destruct (_ =? 0); cbn -[lookup as_u32] in E; injection E as <- <- <-; [done|].
      by apply write_region.
    + cbn [andb] in E. destruct (_ || _); [done|]. injection E as <- <- <-. done.
Qed.

#[global] Instance linux_spec : KernelSpec linux.
Proof.
  refine {| ioctl_out := linux_ioctl_out; ks_frame := linux_frame |}.
  intros num argv k m rax k' m' E Hm. cbn in E. unfold linux_syscall, linux_recvfrom in E.
  pose proof (length_linux_bytes k (default 0 (argv !! 2%nat))).
  assert (Hn : is_usize (Z.of_nat (length (linux_bytes k (default 0 (argv !! 2%nat))))))
    by (unfold is_usize, usize_MAX; lia).
  assert ((∀ n, bytes_wf (take n peer_addr)) ∧ bytes_wf window_size ∧ bytes_wf no_lock) as (Hp & Hw & Hk)
    by (split_and!; [intros n; apply Forall_take|..]; repeat (apply Forall_cons_2; [lia|]); apply Forall_nil_2).
  assert (0 ≤ 0 ≤ usize_MAX) by done.
  repeat case_match; simplify_eq; split; auto using as_usize_range;
    repeat apply write_bytes_wf; auto using to_le_bytes_wf, linux_bytes_wf.
Defined.

(** ** Properties *)

(** [deref_aligned] accepts exactly the offsets and lengths for which the
    elements lie inside the data and the address is aligned; otherwise the
    error tells an overflowing length ([EOVERFLOW]) from a bad address
    ([EFAULT]).  It never panics, whatever the keep sent. *)
Theorem deref_exact T data offset len :
  0 ≤ offset → 0 ≤ len → 0 ≤ l_size T → 0 < l_align T →
  let size := len * l_size T in
  let fits := offset + size ≤ g_len data ∧ (g_ptr data + offset) mod l_align T = 0 in
  match deref_aligned T data offset len with
  | Ok p => p = g_ptr data + offset ∧ size ≤ usize_MAX ∧ fits
  | Err e => (e = EOVERFLOW ∧ usize_MAX < size) ∨ (e = EFAULT ∧ size ≤ usize_MAX ∧ ¬ fits)
  end.
Proof.
  intros Ho Hl Hs Ha size fits. unfold deref_aligned, deref, checked_mul. fold size.
  destruct (size <=? usize_MAX) eqn:E1; bool_to_prop; simpl; [|by left].
  destruct (_ || _) eqn:E2; simpl.
  { right. split_and!; [done|done|]. intros [Hf _]. rewrite orb_true_iff, !Z.ltb_lt in E2. lia. }
  bool_to_prop.
  assert (Hal : align_offset (g_ptr data + offset) (l_align T) = 0 ↔ (g_ptr data + offset) mod l_align T = 0).
  { split; [|by apply align_offset_0]. intros E.
    pose proof (align_offset_aligned (g_ptr data + offset) (l_align T) Ha) as A. by rewrite E, Z.add_0_r in A. }
  destruct (align_offset _ _ =? 0) eqn:E3; bool_to_prop; simpl.
  - split_and!; [done|done|]. split; [lia|by apply Hal].
  - right. split_and!; [done|done|]. intros [_ Hf]. by apply E3, Hal.
Qed.


(** A block at address 64 holding one system call, with no room for more. *)
Definition one_call (num : Z) (argv data : list Z) : block * mem :=
  let r := mkRaw Syscall (num :: argv ++ [as_usize (- ENOSYS); 0]) data in
  (mkBlock 64 (2 + raw_size r / 8), write_bytes (λ _, 0) 64 (encode_item r)).

(** The byte at [x] before the host executes such a block and after it. *)
Definition host_changes (k : linux) (call : block * mem) (x : Z) : option (Z * Z) :=
  match host_execute (fst call) (mkMachine k (snd call)) with
  | Return (Ok _, h') => Some (snd call x, mc_mem h' x)
  | _ => None
  end.

(** The three requests with which a keep makes the host's kernel store
    outside the block: an [ioctl] whose length says 0 bytes although the request
    stores 8, a [recvfrom] whose address length lies in the data buffer, so
    that the received data replaces the length after it was checked, and an
    [fcntl] that asks for a lock at any address of the host. *)
Theorem host_escapes :
  let ioctl := one_call SYS_ioctl [0; TIOCGWINSZ; 8; 0; NULL; NULL] (repeat 0 8) in
  let recvfrom := one_call SYS_recvfrom [3; 0; 8; 0; 16; 0] (repeat 0 16) in
  let fcntl := one_call SYS_fcntl [0; F_GETLK; 4096; NULL; NULL; NULL] [] in
  ¬ in_gref (words_region (fst ioctl)) 160 ∧
  host_changes (mkLinux []) ioctl 160 = Some (0, 24) ∧
  ¬ in_gref (words_region (fst recvfrom)) 168 ∧
  host_changes (mkLinux [16; 0; 0; 0]) recvfrom 168 = Some (0, 2) ∧
  ¬ in_gref (words_region (fst fcntl)) 4096 ∧
  host_changes (mkLinux []) fcntl 4096 = Some (0, 2).
Proof.
  split_and!; [|vm_compute; reflexivity| |vm_compute; reflexivity| |vm_compute; reflexivity]; vm_compute;
    intros [_ H]; congruence.
Qed.

(** *** The properties at work *)

Lemma deref_exact_witness :
  match deref_aligned timespec (mkGref 152 32 1) 16 1 with Ok p => p = 168 | Err _ => False end.
Proof.
  pose proof (deref_exact timespec (mkGref 152 32 1) 16 1 ltac:(lia) ltac:(lia) ltac:(done) ltac:(done)) as H.
  destruct (deref_aligned timespec (mkGref 152 32 1) 16 1) as [p|e]; [by destruct H as [-> _]|].
  destruct H as [[_ H]|(_ & _ & H)]; [by vm_compute in H|]. apply H. split; [done|reflexivity].
Defined.

(** A [read] of eight bytes that finds five. *)
Definition sample_read : block * mem :=
  one_call SYS_read [0; 0; 8; NULL; NULL; NULL] (repeat 0 8).

