(* ===== verification/EndToEnd.v ===== *)
(** * The keep and its host

    A keep whose [sally] runs the host of [crates/sallyport/src/host] on its
    block, as the test handler of [crates/sallyport/tests] does: system calls
    travel through staging, the wire format, the host's decoding and
    dereferencing, the kernel, and back. *)

From S2P Require Import Prelude Memory Libc PhaseAlloc StagedValues Items Calls CallLaws StageKit.
From S2P Require Import SockTypes Syscalls Stubs SyscallLaws NumberCalls Platform Handler Request HandlerCalls.
From S2P Require Import Transfer Host HostLaws.

(** ** The handler *)

(** A keep with block [b] on a host with kernel state [hd_kernel].  The
    hardware keeps the host away from the rest of the keep's memory. *)
Record hosted (b : block) (K : Type) : Type := mkHosted {
  hd_kernel : K;
  hd_tls : ThreadLocalStorage;
  hd_rdrand : Z → nat * Z;
}.
Arguments mkHosted {b K} _ _ _.
Arguments hd_kernel {b K} _.
Arguments hd_tls {b K} _.
Arguments hd_rdrand {b K} _.

Definition isolate (b : block) (m m' : mem) : mem := λ x,
  if (b_ptr b <=? x) && (x <? b_ptr b + 8 * b_len b) then m' x else m x.

(** The keep is resumed on host state [h]. *)
Definition resume {b : block} {K : Type} (w : world (hosted b K)) (h : machine K) : world (hosted b K) :=
  mkWorld (mkHosted (mc_kernel h) (hd_tls (w_self w)) (hd_rdrand (w_self w)))
          (isolate b (w_mem w) (mc_mem h)).

(** [TestHandler::sally] *)
Definition hosted_sally {b : block} {K : Type} `{Kernel K} : handlerM (hosted b K) unit := λ w,
  '(r, h) ← host_execute b (mkMachine (hd_kernel (w_self w)) (w_mem w));
  Return (r, resume w h).

#[global] Instance hosted_handler {b : block} {K : Type} `{Kernel K} : Handler (hosted b K) := {|
  sally := hosted_sally;
  handler_block _ := b;
  handler_block_mut _ := b;
|}.

#[global] Instance hosted_os {b : block} {K : Type} `{Kernel K} : HandlerOS (hosted b K) := {|
  os_handler := hosted_handler;
  thread_local_storage := hd_tls;
  set_thread_local_storage k t := mkHosted (hd_kernel k) t (hd_rdrand k);
  arch_prctl _ _ := try (Err ENOSYS);
  brk _ := try (Err ENOSYS);
  madvise _ _ _ := try (Err ENOSYS);
  mmap _ _ _ _ _ _ := try (Err ENOSYS);
  mprotect _ _ _ := try (Err ENOSYS);
  munmap _ _ := try (Err ENOSYS);
  rdrand := hd_rdrand;
|}.

Section hosted.
Context {b : block} (Hb : block_wf b) {K : Type} `{KernelSpec K}.

#[local] Instance hosted_laws : HandlerLaws (hosted b K).
Proof.
  refine (@Build_HandlerLaws (hosted b K) hosted_handler (λ _, eq_refl) (λ _, Hb) _). intros w r w' E.
  cbn [sally hosted_handler] in E. unfold hosted_sally, mbind, outcome_bind in E.
  destruct (host_execute _ _) as [[r' h]| | |] eqn:Eh; try done. injection E as <- <-.
  split; [done|]. cbn [resume w_mem handler_block_mut hosted_handler]. split.
  - intros x Hx. apply Forall_cons in Hx as [Hx _]. unfold isolate.
    destruct (_ && _) eqn:Ex; [|done]. destruct Hx. bool_to_prop.
    unfold in_gref, g_bytes, block_region. simpl. lia.
  - intros Hm x. pose proof (host_execute_wf _ _ _ _ Eh Hm x). unfold isolate. destruct (_ && _); [done|apply Hm].
Qed.

Lemma read_words_lookup m a n i :
  0 ≤ i < n → read_words m a n !! Z.to_nat i = Some (read_usize m (a + 8 * i)).
Proof.
  intros Hi. unfold read_words. rewrite list_lookup_fmap.
  rewrite (proj2 (lookup_seqZ 0 n (Z.to_nat i) i)) by lia. done.
Qed.

(** The arguments as the host reads them. *)
Definition arg (argv : list Z) (i : nat) : Z := default NULL (argv !! i).

Lemma lookup_Argv_into argv i :
  (length argv ≤ 6)%nat → (i < 6)%nat → Argv_into 6 argv !! i = Some (arg argv i).
Proof.
  intros Hl Hi. unfold Argv_into, arg. destruct (argv !! i) as [v|] eqn:E; simpl.
  - by apply lookup_app_l_Some.
  - apply lookup_ge_None in E. rewrite lookup_app_r by done.
    assert (Hr : ∀ n j, (j < n)%nat → repeat NULL n !! j = Some NULL).
    { induction n as [|n IH]; intros [|j] Hj; simpl; [lia|lia|done|apply IH; lia]. }
    apply Hr. lia.
Qed.

(** The host executes exactly the call that was sent. *)
Lemma host_of_request (w w1 : world (hosted b K)) num argv data k :
  mem_wf (w_mem w) → (length argv ≤ 6)%nat → is_usize num →
  sent w (syscall_item num argv data) w1 →
  within_contract num (arg argv 0) (arg argv 1) (arg argv 2) (arg argv 3) (arg argv 4) (arg argv 5) →
  host_execute b (mkMachine k (w_mem w1)) =
    syscall_execute (mkGref (b_ptr b + 88) (Z.of_nat (length data)) 1) (b_ptr b + 72)
      num (arg argv 0) (arg argv 1) (arg argv 2) (arg argv 3) (arg argv 4) (arg argv 5)
      (mkMachine k (w_mem w1)).
Proof.
  intros Hm Hl Hn Hs Hw. pose proof (sent_items _ _ _ Hs) as [Hi Hv]. apply sent_mem in Hs as Hm1; [|done].
  set (r := syscall_item num argv data) in *. cbn [handler_block_mut hosted_handler] in Hi, Hv.
  set (it := first_item b r) in *.
  assert (Hword : ∀ i v, 0 ≤ i < 9 → ri_payload r !! Z.to_nat i = Some v →
    read_usize (w_mem w1) (b_ptr b + 16 + 8 * i) = v).
  { intros i v Hi9 E. rewrite <- Hv in E. cbn [item_view ri_payload] in E. unfold item_words in E.
    change (USIZE_COUNT (it_kind it)) with 9 in E. rewrite read_words_lookup in E by done. by injection E. }
  assert (Ha : ∀ i, (i < 6)%nat → read_usize (w_mem w1) (b_ptr b + 16 + 8 * (Z.of_nat i + 1)) = arg argv i).
  { intros i Hi6. apply Hword; [lia|]. replace (Z.to_nat (Z.of_nat i + 1)) with (S i) by lia.
    cbn [r syscall_item call_item ri_payload lookup list_lookup].
    apply lookup_app_l_Some. by apply lookup_Argv_into. }
  assert (N0 : read_usize (w_mem w1) (b_ptr b + 16 + 8 * 0) = num).
  { apply Hword; [lia|]. simpl. by rewrite as_usize_small. }
  pose proof (Ha 0%nat ltac:(lia) : read_usize _ (_ + 8 * 1) = _) as A0.
  pose proof (Ha 1%nat ltac:(lia) : read_usize _ (_ + 8 * 2) = _) as A1.
  pose proof (Ha 2%nat ltac:(lia) : read_usize _ (_ + 8 * 3) = _) as A2.
  pose proof (Ha 3%nat ltac:(lia) : read_usize _ (_ + 8 * 4) = _) as A3.
  pose proof (Ha 4%nat ltac:(lia) : read_usize _ (_ + 8 * 5) = _) as A4.
  pose proof (Ha 5%nat ltac:(lia) : read_usize _ (_ + 8 * 6) = _) as A5.
  destruct (execute_iter_items (S (Z.to_nat (b_len b))) b (mkMachine k (w_mem w1)) [it]) as [E _].
  - done.
  - apply Hb.
  - lia.
  - exact Hi.
  - apply Forall_singleton. intros _. cbn zeta. change (it_payload it) with (b_ptr b + 16).
    cbn [mc_mem]. rewrite N0, A0, A1, A2, A3, A4, A5. exact Hw.
  - unfold host_execute. rewrite E. cbn [execute_items].
    unfold Item_execute, load. change (it_kind it) with Syscall. change (it_payload it) with (b_ptr b + 16).
    cbv beta iota delta [mbind hostM_bind fal_bind]. cbn [mc_mem].
    rewrite N0, A0, A1, A2, A3, A4, A5.
    assert (Es : item_slice it = mkGref (b_ptr b + 88) (Z.of_nat (length data)) 1)
      by (unfold item_slice; f_equal; cbn [it it_data first_item]; change (USIZE_COUNT _) with 9; lia).
    assert (Er : item_ret it = b_ptr b + 72) by (unfold item_ret; cbn [it it_kind it_payload first_item]; simpl; lia).
    rewrite Es, Er. by destruct (syscall_execute _ _ _ _ _ _ _ _ _ _) as [[[[]|e] h']| | |].
Qed.

Context (Hroom : 13 ≤ b_len b).

Lemma isolate_in m m' x : b_ptr b ≤ x < b_ptr b + 8 * b_len b → isolate b m m' x = m' x.
Proof.
  intros Hx. unfold isolate. by rewrite (proj2 (Z.leb_le _ _)), (proj2 (Z.ltb_lt _ _)) by lia.
Qed.

(** Where the kernel's result lands: [rax] in the return word of the item, and
    the keep resumed. *)
Definition served (w1 : world (hosted b K)) (rax : Z) (k : K) (m : mem) : world (hosted b K) :=
  resume w1 (mkMachine k (write_usize m (b_ptr b + 72) rax)).

(** A system call for which the host makes the call [args]: the result is
    collected from what the kernel returned. *)
Definition call_result {X : Type} (num : Z) (args : list Z) (w1 : world (hosted b K))
    (k : Z → K → mem → outcome X) : outcome X :=
  match kernel_syscall num args (hd_kernel (w_self w1)) (w_mem w1) with
  | None => Diverged
  | Some (rax, k', m2) => k rax k' m2
  end.

Lemma reply_hosted {T : Type} `{SyscallAlloc T} (w1 : world (hosted b K)) c num args :
  mem_wf (w_mem w1) → is_usize num →
  (let h := mkMachine (hd_kernel (w_self w1)) (w_mem w1) in
   host_execute b h = Syscall_execute num args (b_ptr b + 72) h) →
  syscall_reply (T := T) b c w1 =
    call_result num args w1 (λ rax k m,
      collected (sc_collect c (sc_ret rax)) (served w1 rax k m)).
Proof.
  intros Hm Hn Hx. unfold syscall_reply, reply, call_result.
  cbn [sally hosted_handler]. unfold hosted_sally. cbn zeta in Hx. rewrite Hx.
  unfold Syscall_execute. cbn [mc_kernel mc_mem]. rewrite as_usize_small by done.
  destruct (kernel_syscall _ _ _ _) as [[[rax k'] m2]|] eqn:E; [|done].
  destruct (ks_wf _ _ _ _ _ _ _ E Hm) as [Hr _]. cbn [mbind outcome_bind].
  assert (Ew : read_usize (w_mem (served w1 rax k' m2)) (b_ptr b + 72) = rax).
  { rewrite <- (read_write_usize m2 (b_ptr b + 72) rax Hr) at 2. apply read_usize_ext.
    intros x Hx'. apply isolate_in. lia. }
  rewrite reply_word. fold (served w1 rax k' m2). by rewrite Ew.
Qed.

(** The data of the item, at its start. *)
Lemma deref_data (data : list Z) n :
  0 ≤ n ≤ Z.of_nat (length data) → n ≤ capacity b →
  deref ty_u8 (mkGref (b_ptr b + 88) (Z.of_nat (length data)) 1) 0 n = Ok (b_ptr b + 88).
Proof.
  intros Hn Hc. destruct Hb as [Hp _ _ Hmax _]. unfold deref, checked_mul, capacity in *. simpl l_size.
  rewrite Z.mul_1_r, (proj2 (Z.leb_le _ _)) by lia. simpl.
  rewrite !(proj2 (Z.ltb_ge _ _)) by lia. simpl. f_equal. lia.
Qed.

(** The bytes the kernel left in the data are still there when the keep resumes. *)
Lemma served_data w1 rax k m n :
  n ≤ capacity b → read_bytes (w_mem (served w1 rax k m)) (b_ptr b + 88) n = read_bytes m (b_ptr b + 88) n.
Proof.
  intros Hn. apply read_bytes_ext. intros x Hx. unfold capacity in Hn.
  unfold served, resume. cbn [w_mem mc_mem]. rewrite isolate_in by lia.
  apply write_bytes_outside. rewrite length_to_le_bytes. lia.
Qed.

Lemma holds_prefix m p bs n :
  holds m p bs → 0 ≤ n ≤ Z.of_nat (length bs) → read_bytes m p n = take (Z.to_nat n) bs.
Proof.
  unfold holds. intros Hh Hn. rewrite <- Hh.
  replace (Z.of_nat (length bs)) with (n + (Z.of_nat (length bs) - n)) by lia.
  rewrite read_bytes_app by lia. by rewrite take_app_length' by (rewrite length_read_bytes; lia).
Qed.

(** The host turns a transfer of bytes into the kernel's. *)
Lemma host_transfers (w w1 : world (hosted b K)) num fd n data k :
  num = SYS_read ∨ num = SYS_write → mem_wf (w_mem w) →
  sent w (syscall_item num [as_usize fd; 0; n] data) w1 →
  0 ≤ n ≤ Z.of_nat (length data) → n ≤ capacity b →
  let h := mkMachine k (w_mem w1) in
  host_execute b h = Syscall_execute num [as_usize fd; b_ptr b + 88; n] (b_ptr b + 72) h.
Proof.
  intros Hnum Hm Hs Hn Hc h. unfold h.
  rewrite (host_of_request w w1 num [as_usize fd; 0; n] data k Hm); [| |by destruct Hnum as [-> | ->]|done|].
  - destruct Hnum as [-> | ->].
    + change (host_read (mkGref (b_ptr b + 88) (Z.of_nat (length data)) 1) (b_ptr b + 72) (as_usize fd) 0 n h =
        Syscall_execute SYS_read [as_usize fd; b_ptr b + 88; n] (b_ptr b + 72) h).
      unfold host_read, try, mbind, hostM_bind, fal_bind. by rewrite deref_data.
    + change (host_write (mkGref (b_ptr b + 88) (Z.of_nat (length data)) 1) (b_ptr b + 72) (as_usize fd) 0 n h =
        Syscall_execute SYS_write [as_usize fd; b_ptr b + 88; n] (b_ptr b + 72) h).
      unfold host_write, try, mbind, hostM_bind, fal_bind. by rewrite deref_data.
  - simpl. lia.
  - by split; destruct Hnum as [-> | ->].
Qed.

(** C23: [read] from end to end.  A read of the keep is a [read(2)] of the
    host's kernel: of as many bytes as the block can carry, into the data of
    the item, which is then copied to the guest's buffer; the result of the
    kernel is the result of the call, and the keep's own memory changes nowhere
    else.  A kernel that claims to have read more than it was asked for is
    treated as an attack. *)
Theorem read_end_to_end (w : world (hosted b K)) fd buf :
  mem_wf (w_mem w) → slice_ok ty_u8 buf →
  let n := Z.min (g_len buf) (capacity b) in
  ∃ w1, w_self w1 = w_self w ∧ same_except [block_region b] (w_mem w) (w_mem w1) ∧
    handler.read fd buf w =
      call_result SYS_read [as_usize fd; b_ptr b + 88; n] w1 (λ rax k m,
        let w2 := served w1 rax k m in
        match Result_usize rax with
        | Ok c => if n <? c then Attacked
                  else Return (Ok c, mkWorld (w_self w2)
                         (write_bytes (w_mem w2) (g_ptr buf) (read_bytes m (b_ptr b + 88) c)))
        | Err e => Return (Err e, w2)
        end).
Proof.
  intros Hm Hv n. destruct (@read_sends (hosted b K) hosted_os hosted_laws w Hroom fd buf Hv) as (data & w1 & Hs & Hn & Hx). cbn zeta in Hs, Hn, Hx.
  cbn [handler_block_mut hosted_handler os_handler hosted_os] in Hs, Hn, Hx. fold n in Hs, Hn, Hx.
  exists w1. split; [apply (sent_self _ _ _ Hs)|]. split; [apply (sent_frame _ _ _ Hs)|].
  pose proof (sent_mem _ _ _ Hs Hm) as Hm1.
  unfold handler.read, mbind, handlerM_bind, fal_bind.
  change (@os_handler (hosted b K) hosted_os) with (@hosted_handler b K H). rewrite Hx.
  rewrite (reply_hosted w1 _ SYS_read [as_usize fd; b_ptr b + 88; n] Hm1); [|done|].
  - unfold call_result. destruct (kernel_syscall _ _ _ _) as [[[rax k] m]|]; [|done].
    unfold collected, mbind, outcome_bind. rewrite read_collects by done.
    change (sc_ret (T := Read) rax) with (Result_usize rax).
    destruct (Result_usize rax) as [c|e]; [|done]. destruct (n <? c) eqn:E; [done|]. bool_to_prop.
    cbn [handler_block_mut hosted_handler os_handler hosted_os]. rewrite served_data by lia. done.
  - apply (host_transfers w w1 SYS_read fd n data); auto; unfold n; lia.
Qed.

(** C24: [write] from end to end.  A write of the keep is a [write(2)] of the
    host's kernel, of the first bytes of the buffer, as many as the block can
    carry; the kernel finds exactly those bytes, its result is the result of
    the call, and the keep's own memory is unchanged. *)
Theorem write_end_to_end (w : world (hosted b K)) fd buf :
  mem_wf (w_mem w) → slice_ok ty_u8 buf → outside_block w buf →
  let n := Z.min (g_len buf) (capacity b) in
  ∃ w1, w_self w1 = w_self w ∧ same_except [block_region b] (w_mem w) (w_mem w1) ∧
    read_bytes (w_mem w1) (b_ptr b + 88) n = read_bytes (w_mem w) (g_ptr buf) n ∧
    handler.write fd buf w =
      call_result SYS_write [as_usize fd; b_ptr b + 88; n] w1 (λ rax k m,
        match Result_usize rax with
        | Ok c => if n <? c then Attacked else Return (Ok c, served w1 rax k m)
        | Err e => Return (Err e, served w1 rax k m)
        end).
Proof.
  intros Hm Hv Ho n. destruct (@write_sends (hosted b K) hosted_os hosted_laws w Hroom fd buf Hv Ho)
    as (data & w1 & Hs & Hn & Hd & Hx). cbn zeta in Hs, Hn, Hd, Hx.
  cbn [handler_block_mut hosted_handler os_handler hosted_os] in Hs, Hn, Hd, Hx. fold n in Hs, Hn, Hd, Hx.
  exists w1. split; [apply (sent_self _ _ _ Hs)|]. split; [apply (sent_frame _ _ _ Hs)|].
  pose proof (sent_mem _ _ _ Hs Hm) as Hm1. split.
  { rewrite <- Hd. replace (b_ptr b + 88) with (b_ptr b + 16 + 72) by lia.
    exact (holds_prefix _ _ data _ (sent_holds _ _ _ Hs) Hn). }
  unfold handler.write, mbind, handlerM_bind, fal_bind.
  change (@os_handler (hosted b K) hosted_os) with (@hosted_handler b K H). rewrite Hx.
  rewrite (reply_hosted w1 _ SYS_write [as_usize fd; b_ptr b + 88; n] Hm1); [|done|].
  - unfold call_result. destruct (kernel_syscall _ _ _ _) as [[[rax k] m]|]; [|done].
    unfold collected, mbind, outcome_bind. change (sc_ret (T := Write) rax) with (Result_usize rax).
    destruct (Result_usize rax) as [c|e]; [|done]. simpl. by destruct (n <? c).
  - apply (host_transfers w w1 SYS_write fd n data); auto; unfold n; lia.
Qed.

(** ** Calls without pointers *)

(** The calls without pointers, which the host makes with the first arguments as they
    are.  ([fcntl] is made in the same way, but some of its commands have one.) *)
Definition plain_arity (num : Z) : option nat :=
  if bool_decide (num ∈ [SYS_sync]) then Some 0%nat
  else if bool_decide (num ∈ [SYS_close; SYS_dup; SYS_epoll_create1; SYS_exit; SYS_exit_group]) then Some 1%nat
  else if bool_decide (num ∈ [SYS_dup2; SYS_eventfd2; SYS_listen]) then Some 2%nat
  else if bool_decide (num ∈ [SYS_dup3; SYS_socket]) then Some 3%nat
  else None.

(** One goal per plain call. *)
Ltac plain_cases Hp :=
  unfold plain_arity in Hp; repeat case_bool_decide; simplify_eq;
  repeat match goal with
  | E : _ ∈ _ :: _ |- _ => apply elem_of_cons in E as [-> |E]
  | E : _ ∈ [] |- _ => by apply not_elem_of_nil in E
  end.

Lemma syscall_execute_plain data ret num argv n h :
  plain_arity num = Some n → length argv = n →
  syscall_execute data ret num (arg argv 0) (arg argv 1) (arg argv 2) (arg argv 3) (arg argv 4) (arg argv 5) h =
  Syscall_execute num argv ret h.
Proof.
  intros Hp Hl. plain_cases Hp; destruct argv as [|? [|? [|? [|]]]]; done.
Qed.

Lemma plain_usize num n : plain_arity num = Some n → is_usize num.
Proof.
  intros Hp. plain_cases Hp; by split.
Qed.

(** Every system call without pointers, from end to end: the kernel is
    asked for the same number with the same arguments, its result decoded is the
    result of the call, and the keep's own memory is unchanged. *)
Theorem passthrough_end_to_end {T : Type} `{PassthroughLaws T} (call : T) (w : world (hosted b K)) :
  mem_wf (w_mem w) → plain_arity spt_NUM = Some (length (spt_stage call)) →
  ∃ w1, w_self w1 = w_self w ∧ same_except [block_region b] (w_mem w) (w_mem w1) ∧
    execute call w = call_result spt_NUM (spt_stage call) w1 (λ rax k m,
      Return (Ok (spt_ret rax), served w1 rax k m)).
Proof.
  intros Hm Hp. apply plain_usize in Hp as Hn.
  assert (Es : sc_stage call (request_alloc 6 2 b) = Return (Ok (spt_stage call, ()), request_alloc 6 2 b))
    by reflexivity.
  assert (Hr : 13 ≤ b_len (handler_block_mut (w_self w))) by exact Hroom.
  assert (Hok : sl_ok call) by exact I.
  destruct (execute_staged call w _ _ _ Hok Hr Es) as (c & data & w1 & Hs & _ & _ & Hx).
  exists w1. split; [apply (sent_self _ _ _ Hs)|]. split; [apply (sent_frame _ _ _ Hs)|].
  refine (eq_trans Hx _). cbn [handler_block_mut hosted_handler].
  rewrite (reply_hosted w1 c spt_NUM (spt_stage call) (sent_mem _ _ _ Hs Hm) Hn); [done|].
  cbn zeta. rewrite (host_of_request w w1 spt_NUM (spt_stage call) data _ Hm); try done.
  - by eapply syscall_execute_plain.
  - apply ptl_law.
  - split_and!; intros E; rewrite E in Hp; discriminate Hp.
Qed.

End hosted.

(** *** The properties at work *)

(** A keep with 64 words of block whose host has five bytes to read. *)
Definition sample_keep : world (hosted (mkBlock 4096 64) linux) :=
  mkWorld (mkHosted (mkLinux [104; 101; 108; 108; 111]) ThreadLocalStorage_new (λ i, (0%nat, i))) (λ _, 0).
Definition sample_buf : gref := mkGref 200 8 1.

Lemma sample_block_wf : block_wf (mkBlock 4096 64).
Proof. by split. Qed.

Lemma sample_buf_ok : slice_ok ty_u8 sample_buf.
Proof. by split. Qed.

Lemma read_end_to_end_witness :
  ∃ w', handler.read 0 sample_buf sample_keep = Return (Ok 5, w') ∧
    read_bytes (w_mem w') 200 5 = [104; 101; 108; 108; 111].
Proof.
  destruct (read_end_to_end sample_block_wf ltac:(done) sample_keep 0 sample_buf zero_mem_wf sample_buf_ok)
    as (w1 & Hs & _ & E).
  rewrite E. unfold call_result. rewrite Hs. eexists. split; [reflexivity|].
  cbn [w_mem]. rewrite read_write_same by done. by apply read_write_same.
Defined.

Lemma write_end_to_end_witness :
  ∃ w1, read_bytes (w_mem w1) 4184 8 = repeat 0 8 ∧
    handler.write 1 sample_buf sample_keep =
      Return (Err ENOSYS, served w1 (as_usize (- ENOSYS)) (mkLinux [104; 101; 108; 108; 111]) (w_mem w1)).
Proof.
  destruct (write_end_to_end sample_block_wf ltac:(done) sample_keep 1 sample_buf zero_mem_wf sample_buf_ok)
    as (w1 & Hs & _ & Hr & E); [left; by vm_compute|].
  exists w1. split; [exact Hr|]. rewrite E. unfold call_result. by rewrite Hs.
Defined.

Lemma passthrough_end_to_end_witness :
  ∃ w1, execute (mkDup 7) sample_keep =
    Return (Ok (Err ENOSYS), served w1 (as_usize (- ENOSYS)) (mkLinux [104; 101; 108; 108; 111]) (w_mem w1)).
Proof.
  assert (Hp : plain_arity (spt_NUM (T := Dup)) = Some (length (spt_stage (mkDup 7)))) by (vm_compute; reflexivity).
  destruct (passthrough_end_to_end sample_block_wf ltac:(done) (mkDup 7) sample_keep zero_mem_wf Hp)
    as (w1 & Hs & _ & E).
  exists w1. rewrite E. unfold call_result. by rewrite Hs.
Defined.
