(* ===== verification/GdbHost.v ===== *)
(** * The debugger's end of the sallyport

    [execute_gdb] of [src/backend/mod.rs]: the calls of the shim's debugger stub
    are forwarded to the connection with the debugger.  The connection is a
    parameter ([GdbEnv]).  [debugger_answers] composes the host's encoding of
    each answer with the shim's decoding of it. *)

From S2P Require Import Prelude Memory Libc PhaseAlloc Items Calls NumberCalls Host.

(** [.map_err(|e| e.raw_os_error().unwrap_or(libc::EINVAL))] *)
Definition or_einval {A : Type} (r : io_result A) : result A := raw_os_error EINVAL r.

(** [TcpListener::accept] and the [Connection] of [TcpStream]. *)
Class GdbEnv (K : Type) := {
  TcpStream : Type;
  wait_for_gdb_connection : K → io_result TcpStream * K;
  on_session_start : TcpStream → K → io_result unit * K;
  flush : TcpStream → K → io_result unit * K;
  peek : TcpStream → K → io_result (option Z) * K;
  read : TcpStream → K → io_result Z * K;
  write : TcpStream → Z → K → io_result unit * K;
  write_all : TcpStream → list Z → K → io_result unit * K;
}.

Section gdb.
Context {K : Type} `{GdbEnv K}.

(** An operation on the connection, with its error number. *)
Definition connection {A : Type} (f : K → io_result A * K) : hostM K (result A) :=
  env_result (λ k, let '(r, k) := f k in (or_einval r, k)).

(** [gdb_fd.as_mut().unwrap()] *)
Definition unwrap {A : Type} (o : option A) : hostM K A :=
  match o with Some a => mret a | None => panic end.

Definition result_map {A B : Type} (f : A → B) (r : result A) : result B :=
  match r with Ok a => Ok (f a) | Err e => Err e end.

(** The thread's connection after the call. *)
Definition gdb_on_session_start (it : Item) (gdb_fd : option TcpStream) : hostM K (option TcpStream) :=
  match gdb_fd with
  | None =>
      accepted ← connection wait_for_gdb_connection;
      match accepted with
      | Err _ => panic
      | Ok stream =>
          res ← connection (on_session_start stream);
          _ ← set_ret it (ret_of (result_map (λ _, 0) res));
          mret (match res with Ok _ => Some stream | Err _ => None end)
      end
  | Some _ => _ ← set_ret it 0; mret gdb_fd
  end.

Definition gdb_flush (it : Item) (gdb_fd : option TcpStream) : hostM K unit :=
  stream ← unwrap gdb_fd;
  res ← connection (flush stream);
  set_ret it (ret_of (result_map (λ _, 0) res)).

Definition gdb_peek (it : Item) (gdb_fd : option TcpStream) : hostM K unit :=
  stream ← unwrap gdb_fd;
  res ← connection (peek stream);
  set_ret it (ret_of (result_map (default (u8_MAX + 1)) res)).

Definition gdb_read (it : Item) (gdb_fd : option TcpStream) : hostM K unit :=
  stream ← unwrap gdb_fd;
  res ← connection (read stream);
  set_ret it (ret_of res).

Definition gdb_write (it : Item) (gdb_fd : option TcpStream) (byte : Z) : hostM K unit :=
  stream ← unwrap gdb_fd;
  res ← connection (write stream (as_u8 byte));
  set_ret it (ret_of (result_map (λ _, 0) res)).

Definition gdb_write_all (it : Item) (gdb_fd : option TcpStream) (buf_offset count : Z) : hostM K unit :=
  stream ← unwrap gdb_fd;
  match deref_slice ty_u8 (item_slice it) buf_offset count with
  | Err _ => panic
  | Ok buf =>
      bs ← load (λ m, read_bytes m (g_ptr buf) (g_len buf));
      res ← connection (write_all stream bs);
      set_ret it (ret_of (result_map (λ _, g_len buf) res))
  end.

Definition execute_gdb (it : Item) (num : gdbcall.Number) (gdb_fd : option TcpStream)
    : hostM K (option TcpStream) :=
  argv ← load (λ m i, read_usize m (it_payload it + 8 * i));
  let keeping (f : hostM K unit) := _ ← f; mret gdb_fd in
  match num with
  | gdbcall.OnSessionStart => gdb_on_session_start it gdb_fd
  | gdbcall.Flush => keeping (gdb_flush it gdb_fd)
  | gdbcall.Peek => keeping (gdb_peek it gdb_fd)
  | gdbcall.Read => keeping (gdb_read it gdb_fd)
  | gdbcall.Write => keeping (gdb_write it gdb_fd (argv 1))
  | gdbcall.WriteAll => keeping (gdb_write_all it gdb_fd (argv 1) (argv 2))
  end.

End gdb.

(** ** What the shim makes of the answers *)

(** What the standard library documents: error numbers are those of Linux, bytes
    are bytes. *)
Definition io_wf {A : Type} (P : A → Prop) (r : io_result A) : Prop :=
  match r with inl a => P a | inr (Some e) => 0 < e < 4096 | inr None => True end.

Class GdbLaws (K : Type) `{GdbEnv K} := {
  gdb_flush_wf s k : io_wf (λ _, True) (fst (flush s k));
  gdb_peek_wf s k : io_wf (λ o, ∀ b, o = Some b → 0 ≤ b ≤ u8_MAX) (fst (peek s k));
  gdb_read_wf s k : io_wf (λ b, 0 ≤ b ≤ u8_MAX) (fst (read s k));
  gdb_write_wf s b k : io_wf (λ _, True) (fst (write s b k));
  gdb_write_all_wf s bs k : io_wf (λ _, True) (fst (write_all s bs k));
}.

Section answers.
Context {K : Type} `{GdbLaws K}.

(** The call changes the return word of its item and the connection; the word
    satisfies [P]. *)
Definition answers (it : Item) (num : gdbcall.Number) (s : TcpStream) (h : machine K) (k' : K) (P : Z → Prop) : Prop :=
  ∃ h', execute_gdb it num (Some s) h = Return (Ok (Some s), h') ∧ mc_kernel h' = k' ∧
    mc_mem h' = write_usize (mc_mem h) (item_ret it) (read_usize (mc_mem h') (item_ret it)) ∧
    P (read_usize (mc_mem h') (item_ret it)).

(** The decodings of the shim, on words the host encodes. *)
Lemma decode_unit {A : Type} (r : result A) :
  (∀ e, r = Err e → 0 < e < 4096) →
  is_usize (ret_of (result_map (λ _, 0) r)) ∧
  Result_unit (ret_of (result_map (λ _, 0) r)) = result_map (λ _, tt) r.
Proof.
  destruct r as [a|e]; intros He; [done|]. destruct (errno_roundtrip e) as (? & ? & E & _); [auto|].
  split; [done|]. simpl. unfold Result_unit. by rewrite (proj2 (Z.leb_le _ _)), E.
Qed.

Lemma decode_u8 (r : result Z) :
  match r with Ok b => 0 ≤ b ≤ u8_MAX | Err e => 0 < e < 4096 end →
  is_usize (ret_of r) ∧ Result_u8 (ret_of r) = r.
Proof.
  destruct r as [b|e]; intros Hr; simpl; unfold Result_u8.
  - unfold u8_MAX in Hr. split; [unfold is_usize, usize_MAX; lia|].
    rewrite (proj2 (Z.leb_gt _ _)) by (change ERRNO_START with (2 ^ 64 - 4097); lia).
    rewrite (proj2 (Z.leb_le _ _)) by (unfold u8_MAX; lia). unfold as_u8. by rewrite Z.mod_small by lia.
  - destruct (errno_roundtrip e Hr) as (? & ? & E & _). split; [done|]. by rewrite (proj2 (Z.leb_le _ _)), E.
Qed.

Lemma decode_option_u8 (r : result (option Z)) :
  match r with Ok o => ∀ b, o = Some b → 0 ≤ b ≤ u8_MAX | Err e => 0 < e < 4096 end →
  let w := ret_of (result_map (default (u8_MAX + 1)) r) in
  is_usize w ∧
  Result_option_u8 w = match r with
                       | Ok (Some b) => Ok (Some b)
                       | Ok None => Err EOVERFLOW
                       | Err e => if e =? EPERM then Ok None else Err e
                       end.
Proof.
  destruct r as [[b|]|e]; intros Hr; [|done|]; simpl; unfold Result_option_u8.
  - specialize (Hr b eq_refl). unfold u8_MAX in Hr. split; [unfold is_usize, usize_MAX; lia|].
    rewrite (proj2 (Z.eqb_neq _ _)) by (unfold NULL, usize_MAX; lia).
    rewrite (proj2 (Z.leb_gt _ _)) by (change ERRNO_START with (2 ^ 64 - 4097); lia).
    rewrite (proj2 (Z.leb_le _ _)) by (unfold u8_MAX; lia). unfold as_u8. by rewrite Z.mod_small by lia.
  - destruct (errno_roundtrip e Hr) as (? & ? & E & Ew). split; [done|].
    destruct (e =? EPERM) eqn:Ep; bool_to_prop; [by subst|].
    rewrite (proj2 (Z.eqb_neq _ _)) by (rewrite Ew; unfold NULL, usize_MAX; change EPERM with 1 in Ep; lia).
    by rewrite (proj2 (Z.leb_le _ _)), E.
Qed.

Lemma or_einval_wf {A : Type} (P : A → Prop) (r : io_result A) :
  io_wf P r → match or_einval r with Ok a => P a | Err e => 0 < e < 4096 end.
Proof. destruct r as [a|[e|]]; done. Qed.

Lemma or_einval_err {A : Type} (P : A → Prop) (r : io_result A) :
  io_wf P r → ∀ e, or_einval r = Err e → 0 < e < 4096.
Proof. intros Hr e E. apply or_einval_wf in Hr. by rewrite E in Hr. Qed.

Lemma answers_word it num s h k' w (P : Z → Prop) :
  execute_gdb it num (Some s) h = Return (Ok (Some s), mkMachine k' (write_usize (mc_mem h) (item_ret it) w)) →
  is_usize w → P w → answers it num s h k' P.
Proof.
  intros E Hw HP. eexists. split; [exact E|]. cbn [mc_mem mc_kernel]. by rewrite read_write_usize.
Qed.

Lemma decode_count {A : Type} (r : result A) n :
  (∀ e, r = Err e → 0 < e < 4096) → 0 ≤ n < ERRNO_START →
  is_usize (ret_of (result_map (λ _, n) r)) ∧
  Result_usize (ret_of (result_map (λ _, n) r)) = result_map (λ _, n) r.
Proof.
  assert (Es : ERRNO_START = 2 ^ 64 - 4097) by done.
  destruct r as [a|e]; intros He Hn; simpl; unfold Result_usize.
  - split; [unfold is_usize, usize_MAX; lia|]. by rewrite (proj2 (Z.leb_gt _ _)) by lia.
  - destruct (errno_roundtrip e) as (? & ? & E & _); [auto|]. split; [done|]. by rewrite (proj2 (Z.leb_le _ _)), E.
Qed.

Lemma connection_run {A : Type} (f : K → io_result A * K) h r k :
  f (mc_kernel h) = (r, k) → connection f h = Return (Ok (or_einval r), mkMachine k (mc_mem h)).
Proof. intros E. unfold connection, env_result. by rewrite E. Qed.

End answers.

Ltac answer_run E :=
  unfold execute_gdb, gdb_flush, gdb_read, gdb_write, gdb_peek, mbind, hostM_bind, fal_bind;
  cbn -[connection read_usize as_u8 Z.mul]; erewrite connection_run by exact E.

(** The answers of a debugger, as the shim sees them.  The host forwards
    each call to the connection and changes nothing but the return word, and
    the shim decodes that word to the result of the connection, error numbers
    included; except for [peek], where no byte to read is encoded as 256 and
    decoded as the error [EOVERFLOW], and [EPERM] is decoded as no byte. *)
Theorem debugger_answers {K : Type} `{GdbLaws K} (it : Item) (s : TcpStream) (h : machine K) :
  (let '(r, k) := flush s (mc_kernel h) in
   answers it gdbcall.Flush s h k (λ w, npt_ret (T := gdb.Flush) w = or_einval r)) ∧
  (let '(r, k) := read s (mc_kernel h) in
   answers it gdbcall.Read s h k (λ w, npt_ret (T := gdb.Read) w = or_einval r)) ∧
  (let byte := read_usize (mc_mem h) (it_payload it + 8) in
   let '(r, k) := write s (as_u8 byte) (mc_kernel h) in
   answers it gdbcall.Write s h k (λ w, npt_ret (T := gdb.Write) w = or_einval r)) ∧
  (let '(r, k) := peek s (mc_kernel h) in
   answers it gdbcall.Peek s h k (λ w, npt_ret (T := gdb.Peek) w =
     match or_einval r with
     | Ok (Some b) => Ok (Some b)
     | Ok None => Err EOVERFLOW
     | Err e => if e =? EPERM then Ok None else Err e
     end)) ∧
  (∀ buf, deref_slice ty_u8 (item_slice it) (read_usize (mc_mem h) (it_payload it + 8))
            (read_usize (mc_mem h) (it_payload it + 16)) = Ok buf → 0 ≤ g_len buf < ERRNO_START →
   let '(r, k) := write_all s (read_bytes (mc_mem h) (g_ptr buf) (g_len buf)) (mc_kernel h) in
   answers it gdbcall.WriteAll s h k
     (λ w, nc_ret (T := gdb.WriteAll) w = result_map (λ _, g_len buf) (or_einval r))).
Proof.
  split_and!.
  - destruct (flush s (mc_kernel h)) as [r k] eqn:E. pose proof (gdb_flush_wf s (mc_kernel h)) as W.
    rewrite E in W. destruct (decode_unit (or_einval r) (or_einval_err _ _ W)) as [D1 D2].
    apply answers_word with (2 := D1); [by answer_run E|]. etransitivity; [exact D2|]. by destruct (or_einval r) as [[]|].
  - destruct (read s (mc_kernel h)) as [r k] eqn:E. pose proof (gdb_read_wf s (mc_kernel h)) as W.
    rewrite E in W. destruct (decode_u8 (or_einval r) (or_einval_wf _ _ W)) as [D1 D2].
    apply answers_word with (2 := D1); [by answer_run E|]. exact D2.
  - cbn zeta. set (byte := as_u8 _). destruct (write s byte (mc_kernel h)) as [r k] eqn:E.
    pose proof (gdb_write_wf s byte (mc_kernel h)) as W.
    rewrite E in W. destruct (decode_unit (or_einval r) (or_einval_err _ _ W)) as [D1 D2].
    apply answers_word with (2 := D1); [by answer_run E|]. etransitivity; [exact D2|]. by destruct (or_einval r) as [[]|].
  - destruct (peek s (mc_kernel h)) as [r k] eqn:E. pose proof (gdb_peek_wf s (mc_kernel h)) as W.
    rewrite E in W. destruct (decode_option_u8 (or_einval r) (or_einval_wf _ _ W)) as [D1 D2].
    apply answers_word with (2 := D1); [by answer_run E|]. exact D2.
  - intros buf Ed Hn. set (bs := read_bytes _ _ _). destruct (write_all s bs (mc_kernel h)) as [r k] eqn:E.
    pose proof (gdb_write_all_wf s bs (mc_kernel h)) as W.
    rewrite E in W. destruct (decode_count (or_einval r) (g_len buf) (or_einval_err _ _ W) Hn) as [D1 D2].
    apply answers_word with (2 := D1); [|exact D2]. unfold execute_gdb, gdb_write_all, mbind, hostM_bind, fal_bind.
    cbn -[deref_slice connection Z.mul]. change (8 * 1) with 8. change (8 * 2) with 16. rewrite Ed.
    cbn -[connection]. by answer_run E.
Qed.

(** A debugger that sends bytes and reads what it is sent. *)
Record debugger : Type := mkDebugger { db_in : list Z; db_out : list Z }.

#[global] Instance debugger_env : GdbEnv debugger := {|
  TcpStream := unit;
  wait_for_gdb_connection k := (inl tt, k);
  on_session_start _ k := (inl tt, k);
  flush _ k := (inl tt, k);
  peek _ k := (inl (as_u8 <$> head (db_in k)), k);
  read _ k := match db_in k with
              | [] => (inr None, k)
              | b :: bs => (inl (as_u8 b), mkDebugger bs (db_out k))
              end;
  write _ b k := (inl tt, mkDebugger (db_in k) (db_out k ++ [b]));
  write_all _ bs k := (inl tt, mkDebugger (db_in k) (db_out k ++ bs));
|}.

Lemma as_u8_range b : 0 ≤ as_u8 b ≤ u8_MAX.
Proof. unfold as_u8, u8_MAX. pose proof (Z.mod_pos_bound b (2 ^ 8)). lia. Qed.

#[global] Instance debugger_laws : GdbLaws debugger.
Proof.
  split; try done.
  - intros s [[|b bs] out]; simpl; [done|]. intros x [= <-]. apply as_u8_range.
  - intros s [[|b bs] out]; simpl; [done|]. apply as_u8_range.
Qed.

(** With nothing to read, the shim's [peek] fails instead of returning [None]. *)
Lemma debugger_answers_witness :
  answers (mkItem Gdbcall 80 128 0) gdbcall.Peek tt (mkMachine (mkDebugger [] []) (λ _, 0)) (mkDebugger [] [])
    (λ w, npt_ret (T := gdb.Peek) w = Err EOVERFLOW).
Proof.
  exact (proj1 (proj2 (proj2 (proj2
    (debugger_answers (mkItem Gdbcall 80 128 0) tt (mkMachine (mkDebugger [] []) (λ _, 0))))))).
Defined.
