(* ===== verification/Backend.v ===== *)
(** * The backends: evaluating the block of a keep

    What the threads of the SGX and the KVM backends share
    ([src/backend/sgx/thread.rs], [src/backend/kvm/thread.rs]): the loop over the
    items of the block of a keep, and what it takes for the loop to be confined
    to the block. *)

From S2P Require Import Prelude Memory Libc PhaseAlloc Items Calls Host HostLaws.

Inductive Command : Type := Continue | Exit (code : Z).

Section loop.
Context {K : Type} `{Kernel K} (call : Item → hostM K (option Item)).

(** [for item in block]: debugger calls are ignored without the [gdb] feature;
    [exit] and [exit_group] end the keep. *)
Fixpoint for_items (fuel : nat) (self : option block) : hostM K Command :=
  match fuel with
  | O => λ _, Diverged
  | S fuel =>
      '(item, self) ← next_item (S fuel) self;
      match item with
      | None => mret Continue
      | Some it =>
          match it_kind it with
          | Enarxcall =>
              rest ← call it;
              _ ← match rest with Some it => Item_execute it | None => mret tt end;
              for_items fuel self
          | Syscall =>
              num ← load (λ m, read_usize m (it_payload it));
              if (num =? SYS_exit) || (num =? SYS_exit_group) then
                status ← load (λ m, read_usize m (it_payload it + 8));
                mret (Exit (as_c_int status))
              else _ ← Item_execute it; for_items fuel self
          | _ => for_items fuel self
          end
      end
  end.

End loop.

(** ** Confinement *)

(** What a backend's kernel state may become while a block is evaluated. *)
Class Confinement (K : Type) `{Kernel K} := {
  allowed : K → K → Prop;
  allowed_preorder :: PreOrder allowed;
  allowed_call : ∀ num argv (k : K) m rax k' m',
    kernel_syscall num argv k m = Some (rax, k', m') → num ∈ host_syscalls → allowed k k';
}.

Section safety.
Context {K : Type} `{KernelSpec K, !Confinement K}.

(** [f] may panic or not return; otherwise memory changes only in [rs] and
    the state of the kernel only as is [allowed]. *)
Definition serves {A : Type} (rs : list gref) (f : hostM K A) (h : machine K) : Prop :=
  match f h with
  | Return (_, h') =>
      same_except rs (mc_mem h) (mc_mem h') ∧ (mem_wf (mc_mem h) → mem_wf (mc_mem h')) ∧
      allowed (mc_kernel h) (mc_kernel h')
  | Attacked => False
  | _ => True
  end.

Lemma serves_ret {A : Type} rs (a : A) h : serves rs (mret a) h.
Proof. done. Qed.

Lemma serves_panic {A : Type} rs h : serves rs (@panic K A) h.
Proof. done. Qed.

Lemma serves_bind {A B : Type} rs (f : hostM K A) (g : A → hostM K B) h :
  serves rs f h → (∀ a h', f h = Return (Ok a, h') → serves rs (g a) h') → serves rs (f ≫= g) h.
Proof.
  unfold serves, mbind, hostM_bind, fal_bind. intros Hf Hg.
  destruct (f h) as [[[a|e] h']| | |]; try done. specialize (Hg a h' eq_refl).
  destruct (g a h') as [[b h2]| | |]; try done. destruct Hf as (F1 & F2 & F3), Hg as (G1 & G2 & G3).
  split_and!; [by etransitivity|auto|by etransitivity].
Qed.

Lemma serves_bind_any {A B : Type} rs (f : hostM K A) (g : A → hostM K B) h :
  serves rs f h → (∀ a h', serves rs (g a) h') → serves rs (f ≫= g) h.
Proof. intros Hf Hg. apply serves_bind; auto. Qed.

Lemma serves_try {A : Type} rs (r : result A) h : serves rs (try r) h.
Proof. done. Qed.

Lemma serves_load {A : Type} rs (f : mem → A) h : serves rs (load f) h.
Proof. done. Qed.

Lemma serves_store rs a bs h :
  bytes_wf bs → (∀ x, a ≤ x < a + Z.of_nat (length bs) → Exists (λ r, in_gref r x) rs) →
  serves rs (store a bs) h.
Proof.
  intros Hbs Hin. destruct (stays_store rs a bs h Hbs Hin) as [S1 S2]. by split_and!.
Qed.

Lemma serves_env {A : Type} rs (f : K → result A * K) h :
  allowed (mc_kernel h) (snd (f (mc_kernel h))) → serves rs (env f) h.
Proof. unfold serves, env. by destruct (f (mc_kernel h)) as [r k]. Qed.

Lemma serves_env_result {A : Type} rs (f : K → result A * K) h :
  allowed (mc_kernel h) (snd (f (mc_kernel h))) → serves rs (env_result f) h.
Proof. unfold serves, env_result. by destruct (f (mc_kernel h)) as [r k]. Qed.

Lemma serves_mono {A : Type} rs rs' (f : hostM K A) h :
  (∀ x, Forall (λ r, ¬ in_gref r x) rs' → Forall (λ r, ¬ in_gref r x) rs) →
  serves rs f h → serves rs' f h.
Proof.
  intros Hr. unfold serves. destruct (f h) as [[a h']| | |]; try done.
  intros (Hs & Hw & Hk). split_and!; [|done..]. intros x Hx. by apply Hs, Hr.
Qed.

Section item.
Context (it : Item) (Hkind : it_kind it = Enarxcall) (Hlen : 0 ≤ it_data_len it)
  (Hdata : it_data it = it_payload it + 48).
Let rs := [item_region it].

Lemma serves_ret_word v h : serves rs (set_ret it v) h.
Proof.
  apply serves_store; [apply to_le_bytes_wf|]. intros x Hx. apply Exists_cons_hd.
  unfold item_ret in Hx. rewrite Hkind in Hx.
  unfold in_gref, g_bytes, item_region, it_end. simpl in *. lia.
Qed.

(** A slice of the data, as it was dereferenced. *)
Lemma deref_slice_Ok T offset len r :
  0 ≤ offset → 0 ≤ len → deref_slice T (item_slice it) offset len = Ok r →
  g_len r = len ∧ it_data it ≤ g_ptr r ∧ g_ptr r + len * l_size T ≤ it_end it.
Proof.
  intros Ho Hl E. unfold deref_slice in E. destruct (deref _ _ _ _) as [p|] eqn:Ed; [|done].
  injection E as <-. apply deref_Ok in Ed as (-> & ? & ? & ?); [|done..].
  unfold it_end. simpl in *. lia.
Qed.

Lemma serves_fill p bs h :
  bytes_wf bs → it_data it ≤ p → p + Z.of_nat (length bs) ≤ it_end it → serves rs (store p bs) h.
Proof.
  intros Hb P1 P2. apply serves_store; [done|]. intros x Hx. apply Exists_cons_hd.
  unfold in_gref, g_bytes, item_region. simpl. lia.
Qed.

End item.

(** Executing an item of the sallyport is as confined as [HostLaws] says. *)
Lemma execute_serves it h :
  mem_wf (mc_mem h) → it_kind it ≠ End_ → it_data it = it_payload it + 8 * USIZE_COUNT (it_kind it) →
  0 ≤ it_data_len it → item_within (mc_mem h) it → serves [item_region it] (Item_execute it) h.
Proof.
  intros Hm Hk Hd Hl Hw. pose proof (Item_execute_stays it h Hm Hk Hd Hl Hw) as Hs.
  unfold stays in Hs. unfold serves. destruct (Item_execute it h) as [[r h']| | |] eqn:E; try done.
  destruct Hs as [S1 S2]. split_and!; [done..|]. revert E.
  refine (@pres_Item K _ (λ h h', allowed (mc_kernel h) (mc_kernel h')) _ _ _ it h r h').
  - split; [by intros ?|]. intros h1 h2 h3 R1 R2. by etransitivity.
  - done.
  - intros num argv h1 rax k m Hn E. by eapply allowed_call.
Qed.

Lemma serves_at {A : Type} rs (f : hostM K A) h r h' :
  serves rs f h → mem_wf (mc_mem h) → f h = Return (r, h') →
  same_except rs (mc_mem h) (mc_mem h') ∧ mem_wf (mc_mem h').
Proof. unfold serves. intros Hf Hm E. rewrite E in Hf. destruct Hf as (? & ? & _). auto. Qed.

(** The calls of the backend are confined to their item, and those that are not
    handled are passed on as they are. *)
Context (call : Item → hostM K (option Item)).
Context (call_serves : ∀ it h, it_kind it = Enarxcall → 0 ≤ it_data_len it →
  it_data it = it_payload it + 48 → mem_wf (mc_mem h) → serves [item_region it] (call it) h).
Context (call_rest : ∀ it h it' h', call it h = Return (Ok (Some it'), h') → it' = it ∧ h' = h).

(** [for item in block]: no item touches the words of the items after it. *)
Lemma items_serve fuel blk h its :
  mem_wf (mc_mem h) → 0 ≤ b_len blk → (Z.to_nat (b_len blk) < fuel)%nat →
  BlockIterator_collect fuel (mc_mem h) (Some blk) = Return its → Forall (item_within (mc_mem h)) its →
  serves [words_region blk] (for_items call fuel (Some blk)) h.
Proof.
  revert blk h its. induction fuel as [|fuel IH]; intros blk h its0 Hm Hl Hf Hc Hw; [done|].
  destruct (iter_step _ _ _ _ Hm Hl Hf Hc Hw) as [[-> En]|(it & tail & its & -> & En & Hs)];
    cbn [for_items]; unfold serves, mbind at 1, hostM_bind at 1, fal_bind at 1, next_item, must;
    rewrite En; [done|].
  destruct Hs as [Hkind Hdata Hlen Hitem Hsub Htl Hfu Hwit Hrest].
  assert (Htail : ∀ h', same_except [item_region it] (mc_mem h) (mc_mem h') → mem_wf (mc_mem h') →
    serves [words_region blk] (for_items call fuel (Some tail)) h').
  { intros h' Hsx Hwf. destruct (Hrest _ Hsx). apply (serves_mono _ _ _ _ (region_mono _ _ Hsub)).
    by apply (IH _ _ its). }
  assert (Hrun : ∀ {A} (f : hostM K A) (g : A → hostM K Command), serves [item_region it] f h →
    (∀ a h', f h = Return (Ok a, h') → mem_wf (mc_mem h') → same_except [item_region it] (mc_mem h) (mc_mem h') →
       serves [words_region blk] (g a) h') → serves [words_region blk] (f ≫= g) h).
  { intros A f g Hsf Hg. apply serves_bind; [exact (serves_mono _ _ _ _ (region_mono _ _ Hitem) Hsf)|].
    intros a h' E. destruct (serves_at _ _ _ _ _ Hsf Hm E). auto. }
  match goal with |- match ?f h with _ => _ end => change (serves [words_region blk] f h) end.
  assert (Hx : serves [item_region it] (Item_execute it) h) by by apply execute_serves.
  destruct (it_kind it) eqn:Ek; [done| |by apply Htail|].
  - apply serves_bind; [done|]. intros num h1 [= <- <-]. destruct (_ || _); [done|].
    apply Hrun; [exact Hx|]. auto.
  - apply Hrun; [by apply call_serves|]. intros [it'|] h1 E Hm1 Hs1.
    + apply call_rest in E as [-> ->].
      apply Hrun; [exact Hx|]. auto.
    + apply serves_bind; [done|]. intros [] h2 E2. injection E2 as <-. by apply Htail.
Qed.

End safety.
