(* ===== verification/SgxHost.v ===== *)
(** * The SGX backend: serving an enclave

    [src/backend/sgx/thread.rs] and [src/backend/sgx/attestation.rs]: entering
    an enclave thread, evaluating its sallyport block, the calls of the shim to
    Enarx, and the requests to the attestation daemon.  The daemon, the enclave
    and the memory management of the kernel are parameters ([SgxEnv]).

    The crate is built without overflow checks, so [+] and [-] wrap. *)

From S2P Require Import Prelude Memory Libc PhaseAlloc Items Host HostLaws Backend.

(** ** [attestation.rs] *)

Inductive AesmRequest : Type :=
| GetSupportedAttKeyIDNum
| GetSupportedAttKeyIDs (buf_size : Z)
| InitQuoteEx (b_pub_key_id : bool) (att_key_id : list Z) (buf_size : option Z)
| GetQuoteSizeEx (att_key_id : list Z)
| GetQuoteEx (report att_key_id : list Z) (buf_size : Z).

Record AesmResponse : Type := mkAesmResponse {
  errorCode : Z;
  att_key_id_num : Z;
  att_key_ids : list Z;
  res_target_info : list Z;
  pub_key_id_size : Z;
  res_quote_size : Z;
  res_quote : list Z;
}.

(** What an enclave thread leaves behind when it is left. *)
Inductive Enclu : Type := EENTER | ERESUME | EEXIT | OtherLeaf (n : Z).
Inductive Vector : Type := InvalidOpcode | OtherVector (n : Z).
Record Run : Type := mkRun { run_function : Enclu; run_vector : Vector }.

Class SgxEnv (K : Type) `{Kernel K} := {
  aesm_request : AesmRequest → K → result AesmResponse * K;
  (** [__vdso_sgx_enter_enclave]: the enclave runs with the block at an address *)
  enter_enclave : Enclu → Z → K → mem → Run * K * mem;
  (** [Map::bytes(len).onto(addr).from(enclave, 0)], [mprotect], [munmap] *)
  sgx_mmap : Z → Z → Z → K → result unit * K;
  sys_mprotect : Z → Z → Z → K → result unit * K;
  sys_munmap : Z → Z → K → K;
  (** the ioctls of the enclave device *)
  ENCLAVE_RESTRICT_PERMISSIONS : Z → Z → Z → K → result unit * K;
  ENCLAVE_MODIFY_TYPES : Z → Z → Z → K → result unit * K;
  ENCLAVE_REMOVE_PAGES : Z → Z → K → result unit * K;
}.

Definition SGX_TI_SIZE : Z := 512.
Definition SGX_KEY_ID_SIZE : Z := 256.
Definition SGX_REPORT_SIZE : Z := 432.

(** An [anyhow::Error] or [io::Error] that is not an error number. *)
Definition OTHER_ERROR : Z := -1.

(** [slice::chunks_exact] *)
Fixpoint chunks_exact (fuel n : nat) (bs : list Z) : list (list Z) :=
  match fuel with
  | O => []
  | S fuel => if (length bs <? n)%nat then [] else take n bs :: chunks_exact fuel n (drop n bs)
  end.

Definition get_algorithm_id (key_id : list Z) : Z :=
  let ALGORITHM_OFFSET := 154%nat in
  if (length key_id <? ALGORITHM_OFFSET + 4)%nat then 2 ^ 32 - 1
  else from_le_bytes (take 4 (drop ALGORITHM_OFFSET key_id)).

Section sgx.
Context {K : Type} `{SgxEnv K}.

(** [transaction.request()?], and the test of the error code. *)
Definition request_ok (r : AesmRequest) : hostM K AesmResponse :=
  res ← env (aesm_request r);
  if negb (errorCode res =? 0) then try (Err OTHER_ERROR) else mret res.

Definition get_key_id_num : hostM K Z :=
  res ← request_ok GetSupportedAttKeyIDNum; mret (att_key_id_num res).

Definition get_key_ids (num_key_ids : Z) : hostM K (list (list Z)) :=
  res ← request_ok (GetSupportedAttKeyIDs (as_u32 (num_key_ids * SGX_KEY_ID_SIZE)));
  let blob := att_key_ids res in
  mret (chunks_exact (length blob) (Z.to_nat SGX_KEY_ID_SIZE) blob).

Definition get_attestation_key_id : hostM K (list Z) :=
  let SGX_QL_ALG_ECDSA_P256 := 2 in
  num_key_ids ← get_key_id_num;
  if num_key_ids =? 0 then try (Err OTHER_ERROR)
  else
    key_ids ← get_key_ids num_key_ids;
    match List.find (λ id, SGX_QL_ALG_ECDSA_P256 =? get_algorithm_id id) key_ids with
    | Some id => mret id
    | None => panic
    end.

Definition get_target_info (akid : list Z) (size : Z) (out_buf : gref) : hostM K Z :=
  if negb (g_len out_buf =? SGX_TI_SIZE) then try (Err OTHER_ERROR)
  else
    res ← request_ok (InitQuoteEx true akid (Some (as_u32 size)));
    let ti := res_target_info res in
    if negb (Z.of_nat (length ti) =? SGX_TI_SIZE) then try (Err OTHER_ERROR)
    else _ ← store (g_ptr out_buf) ti; mret (Z.of_nat (length ti)).

Definition get_key_size (akid : list Z) : hostM K Z :=
  res ← request_ok (InitQuoteEx false akid None); mret (pub_key_id_size res).

Definition get_quote_size (akid : list Z) : hostM K Z :=
  res ← request_ok (GetQuoteSizeEx akid); mret (res_quote_size res).

Definition get_quote (report : gref) (akid : list Z) (out_buf : gref) : hostM K Z :=
  if g_len report <? SGX_REPORT_SIZE then panic
  else
    report ← load (λ m, read_bytes m (g_ptr report) SGX_REPORT_SIZE);
    res ← request_ok (GetQuoteEx report akid (as_u32 (g_len out_buf)));
    let quote := res_quote res in
    if negb (Z.of_nat (length quote) =? g_len out_buf) then try (Err OTHER_ERROR)
    else _ ← store (g_ptr out_buf) quote; mret (Z.of_nat (length quote)).

(** ** [thread.rs]: calls to Enarx *)

(** [super::Keep]: the address range of the enclave. *)
Record Keep : Type := mkKeep { keep_addr : Z; keep_size : Z }.

Definition sgx_cpuid (it : Item) (leaf subleaf cpuid_offset : Z) : hostM K unit :=
  cpuid_buf ← try (deref_aligned CpuidResult (item_slice it) cpuid_offset 1);
  '(eax, ebx, ecx, edx) ← cpuid (as_u32 leaf) (as_u32 subleaf);
  _ ← store cpuid_buf ([eax; ebx; ecx; edx] ≫= to_le_bytes 4);
  set_ret it 0.

Definition sgx_get_target_info (it : Item) (target_info_offset : Z) : hostM K unit :=
  out_buf ← try (deref_slice ty_u8 (item_slice it) target_info_offset 512);
  akid ← get_attestation_key_id;
  pkeysize ← get_key_size akid;
  n ← get_target_info akid pkeysize out_buf;
  set_ret it n.

Definition sgx_get_quote (it : Item) (report_offset quote_offset quote_len : Z) : hostM K unit :=
  report_buf ← try (deref_slice ty_u8 (item_slice it) report_offset 512);
  quote_buf ← try (deref_slice ty_u8 (item_slice it) quote_offset quote_len);
  akid ← get_attestation_key_id;
  n ← get_quote report_buf akid quote_buf;
  set_ret it n.

Definition sgx_get_quote_size (it : Item) : hostM K unit :=
  akid ← get_attestation_key_id;
  n ← get_quote_size akid;
  set_ret it n.

Definition sgx_mmap_host (it : Item) (addr len prot : Z) : hostM K unit :=
  r ← env_result (sgx_mmap addr len (as_c_int prot));
  match r with
  | Ok _ => set_ret it 0
  | Err e => set_ret it (as_usize (- e))
  end.

(** [*addr < keep.mem.addr() || end > mem_end] *)
Definition out_of_range (keep : Keep) (addr len : Z) : bool :=
  let mem_end := as_usize (keep_addr keep + keep_size keep) in
  let end_ := as_usize (addr + len) in
  (addr <? keep_addr keep) || (mem_end <? end_).

Definition sgx_mprotect_host (keep : Keep) (it : Item) (addr len prot : Z) : hostM K unit :=
  if out_of_range keep addr len then set_ret it EINVAL
  else
    r ← env_result (sys_mprotect addr len (as_c_int prot));
    match r with
    | Err e => set_ret it (as_usize (- e))
    | Ok _ =>
        _ ← env (ENCLAVE_RESTRICT_PERMISSIONS (as_usize (addr - keep_addr keep)) len PROT_READ);
        set_ret it 0
    end.

Definition sgx_munmap_host (keep : Keep) (it : Item) (addr len : Z) : hostM K unit :=
  if out_of_range keep addr len then panic
  else
    _ ← env (λ k, (Ok tt, sys_munmap addr len k));
    _ ← env (ENCLAVE_REMOVE_PAGES (as_usize (addr - keep_addr keep)) len);
    set_ret it 0.

Definition sgx_trim (keep : Keep) (it : Item) (addr length : Z) : hostM K unit :=
  _ ← env (ENCLAVE_MODIFY_TYPES (as_usize (addr - keep_addr keep)) length 4);
  set_ret it 0.

(** Calls that are not handled are returned. *)
Definition sgx_enarxcall (keep : Keep) (it : Item) : hostM K (option Item) :=
  argv ← load (λ m i, read_usize m (it_payload it + 8 * i));
  let num_is n := argv 0 =? enarxcall.as_usize n in
  let handled (f : hostM K unit) := _ ← f; mret None in
  if num_is enarxcall.Cpuid then handled (sgx_cpuid it (argv 1) (argv 2) (argv 3))
  else if num_is enarxcall.GetSgxTargetInfo then handled (sgx_get_target_info it (argv 1))
  else if num_is enarxcall.GetSgxQuote then handled (sgx_get_quote it (argv 1) (argv 2) (argv 3))
  else if num_is enarxcall.GetSgxQuoteSize then handled (sgx_get_quote_size it)
  else if num_is enarxcall.MmapHost then handled (sgx_mmap_host it (argv 1) (argv 2) (argv 3))
  else if num_is enarxcall.MprotectHost then handled (sgx_mprotect_host keep it (argv 1) (argv 2) (argv 3))
  else if num_is enarxcall.MunmapHost then handled (sgx_munmap_host keep it (argv 1) (argv 2))
  else if num_is enarxcall.TrimSgxPages then handled (sgx_trim keep it (argv 1) (argv 2))
  else mret (Some it).

(** ** [thread.rs]: entering the enclave *)

(** [for item in block] *)
Definition sgx_items (fuel : nat) (keep : Keep) (self : option block) : hostM K Command :=
  for_items (sgx_enarxcall keep) fuel self.

Definition sgx_block (keep : Keep) (blk : block) : hostM K Command :=
  sgx_items (S (Z.to_nat (b_len blk))) keep (Some blk).

Record Thread : Type := mkThread { cssa : Z; how : Enclu }.

(** [self.how = match run.function ...] *)
Definition next_how (run : Run) : outcome Enclu :=
  match run_function run, run_vector run with
  | EENTER, InvalidOpcode | ERESUME, InvalidOpcode => Return EENTER
  | EEXIT, _ => Return ERESUME
  | _, _ => Panicked
  end.

(** The bookkeeping of [enter]: the new state, and whether the block is to be
    evaluated. *)
Definition advance (self : Thread) (run : Run) : outcome (Thread * bool) :=
  how' ← next_how run;
  cssa' ← match how' with
          | EENTER => Return (as_usize (cssa self + 1))
          | ERESUME => if cssa self =? 0 then Panicked else Return (cssa self - 1)
          | _ => Panicked
          end;
  Return (mkThread cssa' how',
          (0 <? cssa') && match how self, how' with EENTER, ERESUME => true | _, _ => false end).

Definition run_enclave (how : Enclu) (blk : block) : hostM K Run := λ h,
  let '(run, k, m) := enter_enclave how (b_ptr blk) (mc_kernel h) (mc_mem h) in
  Return (Ok run, mkMachine k m).

(** [Thread::enter] *)
Definition enter (keep : Keep) (blk : block) (self : Thread) : hostM K (Thread * Command) :=
  run ← run_enclave (how self) blk;
  '(self, evaluate) ← must (advance self run);
  command ← (if evaluate : bool then sgx_block keep blk else mret Continue);
  mret (self, command).

End sgx.
