(* ===== verification/SgxLaws.v ===== *)
(** * The SGX backend: what an enclave can make its host do

    The block of an enclave is adversarial input to the host process: serving
    it changes no memory outside the block and no mapping outside the enclave.
    The bookkeeping of [Thread::enter] counts the frames of the enclave's
    exception stack. *)

From S2P Require Import Prelude Memory Libc PhaseAlloc Items Calls NumberCalls Host HostLaws Backend SgxHost.

(** The range of the enclave is inside the address space and ends with a page. *)
Definition keep_wf (keep : Keep) : Prop :=
  0 ≤ keep_addr keep ∧ 0 ≤ keep_size keep ∧ keep_addr keep + keep_size keep ≤ usize_MAX ∧
  (keep_addr keep + keep_size keep) mod 4096 = 0.
Definition in_keep (keep : Keep) (x : Z) : Prop :=
  keep_addr keep ≤ x < keep_addr keep + keep_size keep.

(** [x] may be touched by a call on the span [addr, addr + len): the kernel works
    on whole pages, and refuses spans that leave the address space. *)
Definition page_up (x : Z) : Z := (x + 4095) / 4096 * 4096.
Definition in_span (addr len x : Z) : Prop :=
  addr + len ≤ usize_MAX ∧ addr ≤ x < page_up (addr + len).

(** What the environment documents.  [mapping k x] is what is mapped at [x] in
    the host process: nothing, or pages with some protection.  The kernel maps
    the enclave's file only inside the enclave. *)
Class SgxLaws (K : Type) `{KernelSpec K, !SgxEnv K} (keep : Keep) := {
  mapping : K → Z → Z;
  sx_syscall : ∀ num argv (k : K) m rax k' m', kernel_syscall num argv k m = Some (rax, k', m') →
    num ∈ host_syscalls → ∀ x, mapping k' x = mapping k x;
  sx_aesm : ∀ r (k : K), (∀ x, mapping (snd (aesm_request r k)) x = mapping k x) ∧
    match fst (aesm_request r k) with
    | Ok res => bytes_wf (res_target_info res) ∧ bytes_wf (res_quote res)
    | Err _ => True
    end;
  sx_mmap : ∀ addr len prot (k : K) x, ¬ in_keep keep x →
    mapping (snd (sgx_mmap addr len prot k)) x = mapping k x;
  sx_mprotect : ∀ addr len prot (k : K) x, ¬ in_span addr len x →
    mapping (snd (sys_mprotect addr len prot k)) x = mapping k x;
  sx_munmap : ∀ addr len (k : K) x, ¬ in_span addr len x →
    mapping (sys_munmap addr len k) x = mapping k x;
  sx_restrict : ∀ off len prot (k : K) x,
    mapping (snd (ENCLAVE_RESTRICT_PERMISSIONS off len prot k)) x = mapping k x;
  sx_modify : ∀ off len ty (k : K) x, mapping (snd (ENCLAVE_MODIFY_TYPES off len ty k)) x = mapping k x;
  sx_remove : ∀ off len (k : K) x, mapping (snd (ENCLAVE_REMOVE_PAGES off len k)) x = mapping k x;
}.

Section safety.
Context {K : Type} `{SgxLaws K keep} (Hkeep : keep_wf keep).

(** Mappings change only inside the enclave. *)
Definition keeps_mappings (k k' : K) : Prop := ∀ x, ¬ in_keep keep x → mapping k' x = mapping k x.

#[local] Instance sgx_confinement : Confinement K.
Proof.
  refine {| allowed := keeps_mappings |}.
  - split; [by intros k x|]. intros k1 k2 k3 E1 E2 x Hx. by rewrite E2, E1.
  - intros num argv k m rax k' m' E Hn x _. by eapply sx_syscall in E.
Defined.

(** Nothing but the kernel state may change. *)
Lemma serves_aesm rs r h : serves rs (env (aesm_request r)) h.
Proof. apply serves_env. intros x _. apply sx_aesm. Qed.

Lemma serves_request rs r h : serves rs (request_ok r) h.
Proof.
  apply serves_bind_any; [apply serves_aesm|]. intros res h'. by destruct (negb _).
Qed.

(** What a successful request carries are bytes. *)
Lemma request_bytes r h res h' :
  request_ok r h = Return (Ok res, h') → bytes_wf (res_target_info res) ∧ bytes_wf (res_quote res).
Proof.
  unfold request_ok, mbind, hostM_bind, fal_bind, env. pose proof (sx_aesm r (mc_kernel h)) as [_ Hb].
  destruct (aesm_request r (mc_kernel h)) as [[v|e] k]; [|done]. simpl in Hb.
  destruct (negb _); [done|]. by intros [= <- _].
Qed.

Lemma serves_key_id rs h : serves rs get_attestation_key_id h.
Proof.
  apply serves_bind_any.
  { apply serves_bind_any; [apply serves_request|done]. }
  intros n h1. destruct (n =? 0); [done|]. apply serves_bind_any.
  { apply serves_bind_any; [apply serves_request|done]. }
  intros ids h2. by destruct (List.find _ _).
Qed.

Section item.
Context (it : Item) (Hkind : it_kind it = Enarxcall) (Hlen : 0 ≤ it_data_len it)
  (Hdata : it_data it = it_payload it + 48).
Let rs := [item_region it].

Lemma cpuid_serves leaf subleaf offset h :
  0 ≤ offset → serves rs (sgx_cpuid it leaf subleaf offset) h.
Proof.
  intros Ho. apply serves_bind; [done|]. intros p h1 [= E <-].
  apply deref_aligned_Ok in E as (-> & _ & _ & Hp); [|done..]. change (l_size CpuidResult) with 16 in Hp.
  apply serves_bind_any; [done|]. intros [[[eax ebx] ecx] edx] h2.
  apply serves_bind_any; [|intros _ h3; by apply serves_ret_word]. unfold it_end in *. simpl in Hp.
  apply serves_fill; [done| |simpl; lia|unfold it_end; simpl; lia].
  repeat (apply Forall_app_2; [apply to_le_bytes_wf|]). apply Forall_nil_2.
Qed.

Lemma target_info_serves offset h : 0 ≤ offset → serves rs (sgx_get_target_info it offset) h.
Proof.
  intros Ho. apply serves_bind; [done|]. intros out h1 [= E <-].
  apply deref_slice_Ok in E as (El & Hp & He); [|done..]. simpl in He.
  apply serves_bind_any; [apply serves_key_id|]. intros akid h2.
  apply serves_bind_any; [apply serves_bind_any; [apply serves_request|done]|]. intros size h3.
  apply serves_bind_any; [|intros n h4; by apply serves_ret_word].
  unfold get_target_info. destruct (negb _); [done|].
  apply serves_bind; [apply serves_request|]. intros res h4 Er. apply request_bytes in Er as [Hb _].
  unfold SGX_TI_SIZE. destruct (Z.of_nat _ =? 512) eqn:E; [|done]. bool_to_prop. simpl negb. cbv iota.
  apply serves_bind_any; [|done]. apply serves_fill; [done..|lia].
Qed.

Lemma quote_serves report_offset offset len h :
  0 ≤ offset → 0 ≤ len → serves rs (sgx_get_quote it report_offset offset len) h.
Proof.
  intros Ho Hl. apply serves_bind_any; [done|]. intros report h0. apply serves_bind; [done|].
  intros out h1 [= E <-]. apply deref_slice_Ok in E as (El & Hp & He); [|done..]. simpl in He.
  apply serves_bind_any; [apply serves_key_id|]. intros akid h2.
  apply serves_bind_any; [|intros n h4; by apply serves_ret_word].
  unfold get_quote. destruct (_ <? _); [done|]. apply serves_bind_any; [done|]. intros bytes h3.
  apply serves_bind; [apply serves_request|]. intros res h4 Er. apply request_bytes in Er as [_ Hb].
  destruct (Z.of_nat _ =? g_len out) eqn:E; [|done]. bool_to_prop. simpl negb. cbv iota.
  apply serves_bind_any; [|done]. apply serves_fill; [done..|lia].
Qed.

Lemma quote_size_serves h : serves rs (sgx_get_quote_size it) h.
Proof.
  apply serves_bind_any; [apply serves_key_id|]. intros akid h1.
  apply serves_bind_any; [apply serves_bind_any; [apply serves_request|done]|].
  intros n h2. by apply serves_ret_word.
Qed.

Lemma mmap_serves addr len prot h : serves rs (sgx_mmap_host it addr len prot) h.
Proof.
  apply serves_bind_any; [apply serves_env_result; intros x Hx; by apply sx_mmap|].
  intros [[]|e] h1; by apply serves_ret_word.
Qed.

(** The check accepts a span of the enclave, or one that leaves the address
    space and is refused by the kernel. *)
Lemma range_checked addr len x :
  is_usize addr → 0 ≤ len → out_of_range keep addr len = false → ¬ in_keep keep x →
  ¬ in_span addr len x.
Proof.
  intros Ha Hl E Hx [Hu Hs]. destruct Hkeep as (K1 & K2 & K3 & K4). unfold is_usize, in_keep, page_up in *.
  unfold out_of_range in E. rewrite !as_usize_small in E by (unfold is_usize; lia). bool_to_prop.
  Z.div_mod_to_equations. lia.
Qed.

Lemma mprotect_serves addr len prot h :
  is_usize addr → 0 ≤ len → serves rs (sgx_mprotect_host keep it addr len prot) h.
Proof.
  intros Ha Hl. unfold sgx_mprotect_host. destruct (out_of_range _ _ _) eqn:E; [by apply serves_ret_word|].
  apply serves_bind_any; [apply serves_env_result; intros x Hx; by apply sx_mprotect, range_checked|].
  intros [[]|e] h1; [|by apply serves_ret_word].
  apply serves_bind_any; [apply serves_env; intros x _; apply sx_restrict|]. intros _ h2. by apply serves_ret_word.
Qed.

Lemma munmap_serves addr len h :
  is_usize addr → 0 ≤ len → serves rs (sgx_munmap_host keep it addr len) h.
Proof.
  intros Ha Hl. unfold sgx_munmap_host. destruct (out_of_range _ _ _) eqn:E; [done|].
  apply serves_bind_any; [apply serves_env; intros x Hx; by apply sx_munmap, range_checked|]. intros _ h1.
  apply serves_bind_any; [apply serves_env; intros x _; apply sx_remove|]. intros _ h2. by apply serves_ret_word.
Qed.

Lemma trim_serves addr len h : serves rs (sgx_trim keep it addr len) h.
Proof.
  apply serves_bind_any; [apply serves_env; intros x _; apply sx_modify|]. intros _ h2. by apply serves_ret_word.
Qed.

Lemma enarxcall_serves h : mem_wf (mc_mem h) → serves rs (sgx_enarxcall keep it) h.
Proof.
  intros Hm. apply serves_bind; [done|]. intros argv h1 [= <- <-].
  assert (Hr : ∀ a, is_usize (read_usize (mc_mem h) a)) by (intros a; by apply read_usize_range).
  assert (Hn : ∀ a, 0 ≤ read_usize (mc_mem h) a) by apply Hr.
  cbv zeta. repeat (match goal with |- serves _ (if ?b then _ else _) _ => destruct b end;
    [apply serves_bind_any; [|intros _ h1; exact (serves_ret rs None h1)]|]); [..|exact (serves_ret rs (Some it) h)];
    auto using cpuid_serves, target_info_serves, quote_serves, quote_size_serves, mmap_serves,
      mprotect_serves, munmap_serves, trim_serves.
Qed.

End item.

(** A call that is not handled is passed on as it is. *)
Lemma enarxcall_rest it h it' h' :
  sgx_enarxcall keep it h = Return (Ok (Some it'), h') → it' = it ∧ h' = h.
Proof.
  unfold sgx_enarxcall, mbind at 1, hostM_bind at 1, fal_bind at 1, load at 1. cbv zeta beta iota.
  assert (Hh : ∀ f : hostM K unit, (f ≫= λ _, mret None) h ≠ Return (Ok (Some it'), h')).
  { intros f. unfold mbind, hostM_bind, fal_bind. destruct (f h) as [[[[]|e] h1]| | |]; done. }
  intros E. repeat (match type of E with (if ?b then _ else _) _ = _ => destruct b end;
    [by apply Hh in E|]). by injection E.
Qed.

(** Evaluating a block is confined to the block and to the enclave. *)
Lemma items_served fuel blk h its :
  mem_wf (mc_mem h) → 0 ≤ b_len blk → (Z.to_nat (b_len blk) < fuel)%nat →
  BlockIterator_collect fuel (mc_mem h) (Some blk) = Return its → Forall (item_within (mc_mem h)) its →
  serves [words_region blk] (sgx_items fuel keep (Some blk)) h.
Proof. apply items_serve; [intros; by apply enarxcall_serves|intros ? ? ? ?; apply enarxcall_rest]. Qed.

End safety.

(** ** The exception stack *)

(** The thread is left through an exception, or by [EEXIT]. *)
Definition is_exit (run : Run) : bool := match run_function run with EEXIT => true | _ => false end.

(** Frames on the stack after the runs [rs]. *)
Definition depth (rs : list Run) : Z := foldl (λ d r, if is_exit r then d - 1 else d + 1) 0 rs.

(** The bookkeeping over a sequence of runs, with the decisions to evaluate the
    block. *)
Fixpoint advances (self : Thread) (rs : list Run) : outcome (Thread * list bool) :=
  match rs with
  | [] => Return (self, [])
  | r :: rs =>
      '(self, e) ← advance self r;
      '(self, es) ← advances self rs;
      Return (self, e :: es)
  end.

(** Evaluating is right after [r] if the run before it was an exception, [r] is
    an [EEXIT], and a frame is left. *)
Definition evaluates (before : list Run) (r : Run) : bool :=
  is_exit r && (0 <? depth (before ++ [r])) &&
  match last before with Some p => negb (is_exit p) | None => true end.

Fixpoint evaluations (before rs : list Run) : list bool :=
  match rs with
  | [] => []
  | r :: rs => evaluates before r :: evaluations (before ++ [r]) rs
  end.

Lemma depth_snoc rs r : depth (rs ++ [r]) = if is_exit r then depth rs - 1 else depth rs + 1.
Proof. unfold depth. by rewrite foldl_app. Qed.

(** The state after the runs [before]. *)
Definition tracks (self : Thread) (before : list Run) : Prop :=
  cssa self = depth before ∧ 0 ≤ depth before ≤ Z.of_nat (length before) ∧
  how self = match last before with Some p => if is_exit p then ERESUME else EENTER | None => EENTER end.

Lemma advance_tracks self before r self' e :
  Z.of_nat (length before) < usize_MAX → tracks self before → advance self r = Return (self', e) →
  tracks self' (before ++ [r]) ∧ e = evaluates before r.
Proof.
  intros Hl (Hc & Hd & Hh) E. unfold advance, next_how in E. unfold tracks, evaluates.
  rewrite depth_snoc, last_snoc, length_app. cbn [length].
  destruct r as [f v]. unfold is_exit in *. cbn [run_function run_vector] in *.
  assert (Hexc : f = EENTER ∨ f = ERESUME → v = InvalidOpcode →
    self' = mkThread (depth before + 1) EENTER ∧ e = false).
  { intros Hf ->. destruct Hf as [-> | ->]; simpl in E; rewrite as_usize_small in E
      by (unfold is_usize; lia); injection E as <- <-; rewrite Hc; split; try done;
      destruct (how self); by rewrite ?andb_false_r. }
  destruct f, v; simpl in E; try done;
    try (destruct (Hexc ltac:(auto) eq_refl) as [-> ->]; simpl; split; [split_and!; (done || lia)|done]).
  all: destruct (cssa self =? 0) eqn:Ez; [done|]; bool_to_prop; injection E as <- <-; rewrite <- Hc in *;
    split; [split_and!; simpl; (done || lia)|]; rewrite Hh; destruct (last before) as [p|]; [|done];
    destruct (run_function p); by rewrite ?andb_true_r, ?andb_false_r.
Qed.

Lemma advances_tracks rs : ∀ self before self' es,
  Z.of_nat (length before + length rs) ≤ usize_MAX → tracks self before →
  advances self rs = Return (self', es) →
  tracks self' (before ++ rs) ∧ es = evaluations before rs.
Proof.
  induction rs as [|r rs IH]; intros self before self' es Hl Ht E; cbn [advances] in E.
  - injection E as <- <-. by rewrite app_nil_r.
  - unfold mbind, outcome_bind in E. destruct (advance self r) as [[s1 e1]| | |] eqn:E1; try done.
    destruct (advances s1 rs) as [[s2 es2]| | |] eqn:E2; try done. injection E as <- <-. cbn [length] in Hl.
    apply (advance_tracks _ before) in E1 as [Ht1 ->]; [|lia|done].
    apply (IH _ (before ++ [r])) in E2 as [Ht2 ->]; [|rewrite length_app; simpl; lia|done].
    rewrite <- app_assoc in Ht2. done.
Qed.

(** ** A sample environment

    A host process with a table of protections, an attestation daemon that is
    not running, and an enclave that exits at once. *)

Record sgx_linux : Type := mkSgxLinux { sl_linux : linux; sl_prot : Z → Z }.

Definition sl_lift {A : Type} (k : sgx_linux) (r : A * linux * mem) : A * sgx_linux * mem :=
  let '(a, l, m) := r in (a, mkSgxLinux l (sl_prot k), m).

#[global] Instance sgx_linux_kernel : Kernel sgx_linux := {|
  kernel_syscall num argv k m := sl_lift k <$> linux_syscall num argv (sl_linux k) m;
  kernel_cpuid _ _ _ := (0, 0, 0, 0);
|}.

#[global] Instance sgx_linux_spec : KernelSpec sgx_linux.
Proof.
  refine {| ioctl_out := linux_ioctl_out |}.
  - intros num argv k m rax k' m' E Hs. cbn in E. destruct (linux_syscall _ _ _ _) as [[[r l] m1]|] eqn:El; [|done].
    injection E as <- <- <-. by apply (linux_frame _ _ _ _ _ _ _ El).
  - intros num argv k m rax k' m' E. cbn in E. destruct (linux_syscall _ _ _ _) as [[[r l] m1]|] eqn:El; [|done].
    injection E as <- <- <-. exact (ks_wf (K := linux) _ _ _ _ _ _ _ El).
Defined.

(** Protection [v] on the pages of a span. *)
Definition protect (addr len v : Z) (k : sgx_linux) : sgx_linux :=
  mkSgxLinux (sl_linux k)
    (λ x, if (addr + len <=? usize_MAX) && (addr <=? x) && (x <? page_up (addr + len)) then v else sl_prot k x).

Definition sample_keep : Keep := mkKeep 65536 65536.

#[global] Instance sgx_linux_env : SgxEnv sgx_linux := {|
  aesm_request _ k := (Err OTHER_ERROR, k);
  enter_enclave _ _ k m := (mkRun EEXIT InvalidOpcode, k, m);
  sgx_mmap addr len prot k :=
    if (keep_addr sample_keep <=? addr) && (page_up (addr + len) <=? keep_addr sample_keep + keep_size sample_keep)
    then (Ok tt, protect addr len prot k) else (Err EINVAL, k);
  sys_mprotect addr len prot k :=
    if addr + len <=? usize_MAX then (Ok tt, protect addr len prot k) else (Err ENOMEM, k);
  sys_munmap addr len k := protect addr len (-1) k;
  ENCLAVE_RESTRICT_PERMISSIONS _ _ _ k := (Ok tt, k);
  ENCLAVE_MODIFY_TYPES _ _ _ k := (Ok tt, k);
  ENCLAVE_REMOVE_PAGES _ _ k := (Ok tt, k);
|}.

Lemma protect_outside addr len v k x : ¬ in_span addr len x → sl_prot (protect addr len v k) x = sl_prot k x.
Proof. intros Hn. unfold in_span in Hn. simpl. destruct (_ && _) eqn:E; [bool_to_prop; lia|done]. Qed.

#[global] Instance sgx_linux_laws : SgxLaws sgx_linux sample_keep.
Proof.
  refine {| mapping := sl_prot |}; try done.
  - intros num argv k m rax k' m' E _ x. cbn in E.
    destruct (linux_syscall _ _ _ _) as [[[r l] m1]|]; [|done]. by injection E as <- <- <-.
  - intros addr len prot k x Hx. cbn -[page_up protect]. destruct (_ && _) eqn:E; [|done].
    apply protect_outside. intros [_ Hs]. apply Hx. bool_to_prop. unfold in_keep. simpl. lia.
  - intros addr len prot k x Hx. cbn -[page_up protect]. destruct (_ <=? _); [|done]. by apply protect_outside.
  - intros addr len k x Hx. by apply protect_outside.
Defined.

(** ** Properties *)


(** The bookkeeping of [Thread::enter] follows the enclave's exception
    stack: over any sequence of entries that does not panic, [cssa] is the number
    of exceptions minus the number of exits, and the block is evaluated exactly
    when an exit directly follows an exception and leaves a frame on the stack. *)
Theorem cssa_follows_stack (rs : list Run) self es :
  Z.of_nat (length rs) ≤ usize_MAX →
  advances (mkThread 0 EENTER) rs = Return (self, es) →
  cssa self = depth rs ∧ 0 ≤ depth rs ∧ es = evaluations [] rs.
Proof.
  intros Hl E. destruct (advances_tracks rs (mkThread 0 EENTER) [] self es) as [(? & ? & _) ->]; try done.
  simpl in *. split_and!; [done|lia|done].
Qed.

(** A refused [mprotect] looks like a success.  The host leaves the
    protections of a span outside the enclave alone, but answers with [EINVAL]
    instead of [-EINVAL], which the shim reads as [Ok(())]. *)
Theorem mprotect_refusal_reads_ok {K : Type} `{SgxEnv K} (keep : Keep) it addr len prot (h : machine K) :
  out_of_range keep addr len = true →
  ∃ h', sgx_mprotect_host keep it addr len prot h = Return (Ok tt, h') ∧
    mc_kernel h' = mc_kernel h ∧
    npt_ret (T := enarx.MprotectHost) (read_usize (mc_mem h') (item_ret it)) = Ok tt.
Proof.
  intros E. unfold sgx_mprotect_host. rewrite E. eexists. split_and!; [reflexivity|done|].
  exact (f_equal Result_unit (read_write_usize (mc_mem h) (item_ret it) EINVAL ltac:(done))).
Qed.

(** An enclave that asks for its pages to be made read-only. *)
Definition sample_mprotect (addr len prot : Z) : block * mem :=
  let r := mkRaw Enarxcall
    [enarxcall.as_usize enarxcall.MprotectHost; addr; len; prot; NULL; as_usize (- ENOSYS)] [] in
  (mkBlock 64 (2 + raw_size r / 8), write_bytes (λ _, 0) 64 (encode_item r)).

Definition sample_process (m : mem) : machine sgx_linux :=
  mkMachine (mkSgxLinux (mkLinux []) (λ _, 3)) m.


Definition aex : Run := mkRun EENTER InvalidOpcode.
Definition eexit : Run := mkRun EEXIT (OtherVector 0).

Lemma cssa_follows_stack_witness :
  cssa (mkThread 1 ERESUME) = depth [aex; aex; eexit; aex; eexit] ∧
  [false; false; true; false; true] = evaluations [] [aex; aex; eexit; aex; eexit].
Proof.
  destruct (cssa_follows_stack [aex; aex; eexit; aex; eexit] (mkThread 1 ERESUME)
    [false; false; true; false; true] ltac:(vm_compute; congruence) ltac:(vm_compute; reflexivity)) as (? & _ & ?).
  auto.
Defined.

Lemma mprotect_refusal_reads_ok_witness :
  let it := mkItem Enarxcall 80 128 0 in
  ∃ h', sgx_mprotect_host sample_keep it 4096 4096 PROT_READ (sample_process (λ _, 0)) = Return (Ok tt, h') ∧
    mc_kernel h' = mc_kernel (sample_process (λ _, 0)) ∧
    npt_ret (T := enarx.MprotectHost) (read_usize (mc_mem h') (item_ret it)) = Ok tt.
Proof. by apply (mprotect_refusal_reads_ok sample_keep (mkItem Enarxcall 80 128 0) 4096 4096 PROT_READ). Defined.
