(* ===== verification/KvmHost.v ===== *)
(** * The KVM backend: serving a virtual machine

    [src/backend/kvm/{mod,builder,thread}.rs], the personality of SEV-SNP keeps
    ([src/backend/sev/mod.rs]) and the loop of [keep_exec] ([src/exec/mod.rs]).
    KVM itself, the guest and the cache of the VCEK certificate are parameters
    ([KvmEnv], [VcekEnv]).

    The crate is built without overflow checks, so [+], [-], [*] and [<<] wrap.

    The laws: the sallyport slots of a keep are its blocks, one after the other; a slot
    is empty while its block is evaluated and full again afterwards; evaluating a block
    changes memory only there, and only appends memory regions. *)
From S2P Require Import Prelude Memory Libc PhaseAlloc Items Calls Host HostLaws Backend.

(** [kvm_userspace_memory_region] *)
Record Region : Type := mkRegion {
  slot : Z;
  guest_phys_addr : Z;
  memory_size : Z;
  userspace_addr : Z;
}.

Record Keep : Type := mkKeep {
  cpu_fds : list Z;
  sallyport_block_size : Z;
  sallyports : list (option Z);
  regions : list Region;
}.

Inductive VcpuExit : Type := IoOut (port : Z) (data : list Z) | OtherExit (reason : Z).

(** The operations of [kvm_ioctls], [sysconf] and anonymous mappings. *)
Class KvmEnv (K : Type) `{Kernel K} := {
  vcpu_run : Z → K → mem → io_result VcpuExit * K * mem;
  sysconf_page_size : K → Z;
  map_anonymous : Z → K → io_result Z * K;
  set_user_memory_region : Region → K → io_result unit * K;
  get_nr_memslots : K → Z;
  (** [get_supported_cpuid], [create_vcpu(0)], [set_cpuid2] *)
  create_vcpu : K → io_result Z * K;
}.

(** The process of a keep: the state of the kernel, and the keep. *)
Record kvm (K : Type) : Type := mkKvm { vm_env : K; vm_keep : Keep }.
Arguments mkKvm {K} _ _.
Arguments vm_env {K} _.
Arguments vm_keep {K} _.

#[global] Instance kvm_kernel {K} `{Kernel K} : Kernel (kvm K) := {|
  kernel_syscall num argv k m :=
    (λ '(rax, k', m'), (rax, mkKvm k' (vm_keep k), m')) <$> kernel_syscall num argv (vm_env k) m;
  kernel_cpuid leaf sub_leaf k := kernel_cpuid leaf sub_leaf (vm_env k);
|}.

Definition kvmM (K A : Type) : Type := hostM (kvm K) A.

(** [trait KeepPersonality] *)
Class KeepPersonality (K : Type) := {
  personality_map : Region → K → io_result unit * K;
  personality_enarxcall : Item → kvmM K (option Item);
}.

Section state.
Context {K : Type}.

Definition get_keep {A : Type} (f : Keep → A) : kvmM K A := λ h, Return (Ok (f (vm_keep (mc_kernel h))), h).
Definition set_keep (f : Keep → Keep) : kvmM K unit := λ h,
  Return (Ok tt, mkMachine (mkKvm (vm_env (mc_kernel h)) (f (vm_keep (mc_kernel h)))) (mc_mem h)).

Definition get_env {A : Type} (f : K → A) : kvmM K A := λ h, Return (Ok (f (vm_env (mc_kernel h))), h).

(** An operation of the environment whose result is inspected. *)
Definition on_env {A : Type} (f : K → A * K) : kvmM K A := λ h,
  let '(r, k) := f (vm_env (mc_kernel h)) in
  Return (Ok r, mkMachine (mkKvm k (vm_keep (mc_kernel h))) (mc_mem h)).

Definition set_sallyports (v : list (option Z)) (keep : Keep) : Keep :=
  mkKeep (cpu_fds keep) (sallyport_block_size keep) v (regions keep).
Definition set_regions (v : list Region) (keep : Keep) : Keep :=
  mkKeep (cpu_fds keep) (sallyport_block_size keep) (sallyports keep) v.
Definition set_cpu_fds (v : list Z) (keep : Keep) : Keep :=
  mkKeep v (sallyport_block_size keep) (sallyports keep) (regions keep).

End state.

(** ** [builder.rs]: the sallyport blocks of a segment *)

(** [x86_64::align_up] *)
Definition align_up (addr align : Z) : Z := (addr + (align - 1)) / align * align.

(** [for start in (0..pages.size()).step_by(block_size)]: the addresses of the
    blocks. *)
Fixpoint sallyport_starts (fuel : nat) (block_size size start : Z) : list Z :=
  match fuel with
  | O => []
  | S fuel =>
      if start <? size then
        let aligned := align_up start 8 in
        (if aligned + block_size <=? size then [aligned] else []) ++
        sallyport_starts fuel block_size size (start + block_size)
      else []
  end.

(** The entries [kvm_builder_map] pushes for a segment marked as sallyport. *)
Definition sallyport_blocks (block_size pages_addr pages_size : Z) : outcome (list (option Z)) :=
  if block_size =? 0 then Panicked
  else Return ((λ start, Some (pages_addr + start)) <$>
                 sallyport_starts (Z.to_nat pages_size) block_size pages_size 0).

Record Builder : Type := mkBuilder { bd_regions : list Region; bd_sallyports : list (option Z) }.

Definition SALLYPORT : Z := Z.shiftl 1 22.

(** [kvm_builder_map] *)
Definition kvm_builder_map {K : Type} `{KvmEnv K} (block_size : Z) (ports : list (option Z))
    (pages_addr pages_size to with_ slot : Z) (k : K) : outcome (result (Region * list (option Z)) * K) :=
  pushed ← (if negb (Z.land with_ SALLYPORT =? 0) then sallyport_blocks block_size pages_addr pages_size
            else Return []);
  let mem_region := mkRegion slot to pages_size pages_addr in
  let '(set, k) := set_user_memory_region mem_region k in
  Return (match set with inl _ => Ok (mem_region, ports ++ pushed) | inr e => Err (default (-1) e) end, k).

(** [Mapper::map] of the KVM builder *)
Definition Builder_map {K : Type} `{KvmEnv K} (block_size : Z) (self : Builder)
    (pages_addr pages_size to with_ : Z) (k : K) : outcome (result Builder * K) :=
  if pages_size =? 0 then Return (Ok self, k)
  else
    '(r, k) ← kvm_builder_map block_size (bd_sallyports self) pages_addr pages_size to with_
                (as_u32 (Z.of_nat (length (bd_regions self)))) k;
    Return (match r with
            | Ok (region, ports) => Ok (mkBuilder (bd_regions self ++ [region]) ports)
            | Err e => Err e
            end, k).

(** [kvm_try_from_builder] *)
Definition kvm_try_from_builder {K : Type} `{KvmEnv K} (ports : list (option Z)) (k : K) : result Z * K :=
  if bool_decide (ports = []) then (Err (-1), k)
  else let '(r, k) := create_vcpu k in (raw_os_error (-1) r, k).

(** [TryFrom<Builder>] for the keep: it has one virtual processor. *)
Definition Keep_try_from {K : Type} `{KvmEnv K} (block_size : Z) (self : Builder) (k : K) : result Keep * K :=
  let '(r, k) := kvm_try_from_builder (bd_sallyports self) k in
  (match r with
   | Ok vcpu_fd => Ok (mkKeep [vcpu_fd] block_size (bd_sallyports self) (bd_regions self))
   | Err e => Err e
   end, k).

Section kvm.
Context {K : Type} `{KvmEnv K, !KeepPersonality K}.

(** ** [mod.rs] *)

(** [Keep::map] *)
Definition Keep_map (pages_addr pages_len to : Z) : kvmM K (io_result Region) :=
  n ← get_keep (λ keep, Z.of_nat (length (regions keep)));
  let kvm_region := mkRegion (as_u32 n) to pages_len pages_addr in
  set ← on_env (set_user_memory_region kvm_region);
  match set with
  | inr e => mret (inr e)
  | inl _ =>
      mapped ← on_env (personality_map kvm_region);
      match mapped with
      | inr e => mret (inr e)
      | inl _ =>
          _ ← set_keep (λ keep, set_regions (regions keep ++ [kvm_region]) keep);
          mret (inl kvm_region)
      end
  end.

(** ** [thread.rs] *)

Definition is_power_of_two (x : Z) : bool := (0 <? x) && (2 ^ Z.log2 x =? x).

(** [Thread::balloon] *)
Definition balloon (log2 npgs addr : Z) : kvmM K (result Z) :=
  let size := as_usize (Z.shiftl 1 (log2 mod 64)) in
  pgsz ← get_env sysconf_page_size;
  if negb (is_power_of_two pgsz) then panic
  else if negb (size =? pgsz) || negb (addr mod size =? 0) then mret (Err EINVAL)
  else
    let bytes := as_usize (size * npgs) in
    pages ← on_env (map_anonymous bytes);
    match raw_os_error ENOTSUP pages with
    | Err e => mret (Err e)
    | Ok pages_addr =>
        mapped ← Keep_map pages_addr bytes addr;
        match raw_os_error ENOTSUP mapped with
        | Err e => mret (Err e)
        | Ok region => vaddr ← must (VirtAddr_new (userspace_addr region)); mret (Ok vaddr)
        end
    end.

(** [Thread::meminfo] *)
Definition meminfo : kvmM K (result Z) :=
  n ← get_env get_nr_memslots;
  used ← get_keep (λ keep, Z.of_nat (length (regions keep)));
  mret (Ok (as_usize (n - used))).

(** Calls that are not handled are returned. *)
Definition kvm_enarxcall (it : Item) : kvmM K (option Item) :=
  argv ← load (λ m i, read_usize m (it_payload it + 8 * i));
  if argv 0 =? enarxcall.as_usize enarxcall.MemInfo then
    r ← meminfo; _ ← set_ret it (ret_of r); mret None
  else if argv 0 =? enarxcall.as_usize enarxcall.BalloonMemory then
    r ← balloon (argv 1) (argv 2) (argv 3); _ ← set_ret it (ret_of r); mret None
  else mret (Some it).

(** [self.kvm_enarxcall(..)?], then [keep.personality.enarxcall(..)?]. *)
Definition kvm_call (it : Item) : kvmM K (option Item) :=
  rest ← kvm_enarxcall it;
  match rest with Some it => personality_enarxcall it | None => mret None end.

Definition run_vcpu (cpu : Z) : kvmM K VcpuExit := λ h,
  let '(r, k, m) := vcpu_run cpu (vm_env (mc_kernel h)) (mc_mem h) in
  Return (raw_os_error (-1) r, mkMachine (mkKvm k (vm_keep (mc_kernel h))) m).

(** [sallyports[block_nr].take().unwrap()] *)
Definition take_sallyport (block_nr : Z) : kvmM K Z :=
  ports ← get_keep sallyports;
  match ports !! Z.to_nat block_nr with
  | Some (Some block_virt) =>
      _ ← set_keep (set_sallyports (<[Z.to_nat block_nr := None]> ports)); mret block_virt
  | _ => panic
  end.

(** [sallyports[block_nr].replace(block_virt)] *)
Definition replace_sallyport (block_nr block_virt : Z) : kvmM K unit :=
  set_keep (λ keep, set_sallyports (<[Z.to_nat block_nr := Some block_virt]> (sallyports keep)) keep).

(** The block of a slot is evaluated; the slot is empty in the meantime. *)
Definition serve_slot (block_nr : Z) : kvmM K Command :=
  block_virt ← take_sallyport block_nr;
  size ← get_keep sallyport_block_size;
  let blk := mkBlock block_virt (size / 8) in
  command ← for_items kvm_call (S (Z.to_nat (b_len blk))) (Some blk);
  match command with
  | Exit code => mret (Exit code)
  | Continue => _ ← replace_sallyport block_nr block_virt; mret Continue
  end.

(** [Thread::enter] *)
Definition kvm_enter (cpu : Z) : kvmM K Command :=
  exit ← run_vcpu cpu;
  match exit with
  | IoOut port data =>
      if port =? KVM_SYSCALL_TRIGGER_PORT then
        match data with
        | lo :: hi :: _ => serve_slot (lo + Z.shiftl hi 8)
        | _ => panic
        end
      else try (Err (-1))
  | OtherExit _ => try (Err (-1))
  end.

(** [Keep::spawn]: a thread runs on a virtual processor of the keep. *)
Definition spawn : kvmM K (option Z) :=
  cpus ← get_keep cpu_fds;
  match last cpus with
  | None => mret None
  | Some cpu => _ ← set_keep (set_cpu_fds (removelast cpus)); mret (Some cpu)
  end.

(** [Drop for Thread] *)
Definition drop_thread (cpu : Z) : kvmM K unit :=
  set_keep (λ keep, set_cpu_fds (cpu_fds keep ++ [cpu]) keep).

(** ** [exec/mod.rs]: [keep_exec], for at most [fuel] entries *)
Fixpoint enter_loop (fuel : nat) (cpu : Z) : kvmM K Z :=
  match fuel with
  | O => λ _, Diverged
  | S fuel =>
      command ← kvm_enter cpu;
      match command with Continue => enter_loop fuel cpu | Exit exit_code => mret exit_code end
  end.

(** The thread is dropped when [f] returns, with an error or without. *)
Definition with_thread {A : Type} (cpu : Z) (f : kvmM K A) : kvmM K A := λ h,
  '(r, h) ← f h; '(_, h) ← drop_thread cpu h; Return (r, h).

Definition keep_exec (fuel : nat) : kvmM K Z :=
  thread ← spawn;
  match thread with
  | None => panic
  | Some cpu => with_thread cpu (enter_loop fuel cpu)
  end.

End kvm.

(** ** The personalities *)

(** [impl KeepPersonality for KvmKeepPersonality {}] *)
Definition KvmKeepPersonality {K : Type} : KeepPersonality K := {|
  personality_map _ k := (inl tt, k);
  personality_enarxcall it := mret (Some it);
|}.

(** [register_enc_memory_region], and the contents of the file with the VCEK. *)
Class VcekEnv (K : Type) := {
  register_enc_memory_region : Z → Z → K → io_result unit * K;
  get_vcek_reader : K → io_result (list Z) * K;
}.

(** [io::copy] to a slice that is shorter than the file fails. *)
Definition snp_enarxcall {K : Type} `{VcekEnv K} (it : Item) : kvmM K (option Item) :=
  argv ← load (λ m i, read_usize m (it_payload it + 8 * i));
  if argv 0 =? enarxcall.as_usize enarxcall.GetSnpVcek then
    vcek_buf ← try (deref_slice ty_u8 (item_slice it) (argv 1) (argv 2));
    r ← on_env get_vcek_reader;
    vcek ← try (raw_os_error (-1) r);
    let n := Z.of_nat (length vcek) in
    _ ← store (g_ptr vcek_buf) (take (Z.to_nat (g_len vcek_buf)) vcek);
    if g_len vcek_buf <? n then try (Err (-1))
    else
      _ ← set_ret it n;
      if n =? 0 then try (Err (-1)) else mret None
  else mret (Some it).

Definition SnpKeepPersonality {K : Type} `{VcekEnv K} : KeepPersonality K := {|
  personality_map region := register_enc_memory_region (userspace_addr region) (memory_size region);
  personality_enarxcall := snp_enarxcall;
|}.

(** ** The sallyport slots of a segment *)

Lemma align_up_aligned x : x mod 8 = 0 → align_up x 8 = x.
Proof. unfold align_up. intros Hx. Z.div_mod_to_equations. lia. Qed.

Lemma sallyport_starts_exact fuel bs size i :
  0 < bs → bs mod 8 = 0 → 0 ≤ i → size - i * bs ≤ Z.of_nat fuel →
  sallyport_starts fuel bs size (i * bs) = (λ j, j * bs) <$> seqZ i (size / bs - i).
Proof.
  revert i. induction fuel as [|fuel IH]; intros i Hb Hm Hi Hf; cbn [sallyport_starts]; cbv zeta.
  - rewrite seqZ_nil; [done|]. apply Z.le_sub_0, Z.div_le_upper_bound; lia.
  - destruct (i * bs <? size) eqn:E; bool_to_prop.
    + rewrite align_up_aligned by (rewrite Z.mul_mod, Hm, Z.mul_0_r by lia; done).
      replace (i * bs + bs) with ((i + 1) * bs) by lia. rewrite IH by lia.
      destruct ((i + 1) * bs <=? size) eqn:E2; bool_to_prop.
      * assert (i + 1 ≤ size / bs) by (apply Z.div_le_lower_bound; lia).
        rewrite (seqZ_cons i), fmap_cons by lia. unfold Z.succ, Z.pred.
        by replace (size / bs - i + -1) with (size / bs - (i + 1)) by lia.
      * assert (size / bs < i + 1) by (apply Z.div_lt_upper_bound; lia).
        rewrite !seqZ_nil by lia. done.
    + rewrite seqZ_nil; [done|]. apply Z.le_sub_0, Z.div_le_upper_bound; lia.
Qed.

(** ** Confinement *)

#[global] Instance kvm_spec {K} `{KernelSpec K} : KernelSpec (kvm K).
Proof.
  refine {| ioctl_out := ioctl_out (K := K) |}.
  - intros num argv k m rax k' m' E. cbn in E.
    destruct (kernel_syscall num argv (vm_env k) m) as [[[r k1] m1]|] eqn:Ek; [|done].
    injection E as <- <- <-. by eapply ks_frame.
  - intros num argv k m rax k' m' E. cbn in E.
    destruct (kernel_syscall num argv (vm_env k) m) as [[[r k1] m1]|] eqn:Ek; [|done].
    injection E as <- <- <-. by eapply ks_wf.
Defined.

(** The memory regions are numbered in order. *)
Definition numbered (rs : list Region) : Prop := ∀ i r, rs !! i = Some r → slot r = as_u32 (Z.of_nat i).

(** Regions may be appended to the keep, the rest stays. *)
Definition keep_grows (k k' : Keep) : Prop :=
  cpu_fds k' = cpu_fds k ∧ sallyport_block_size k' = sallyport_block_size k ∧
  sallyports k' = sallyports k ∧ regions k `prefix_of` regions k' ∧
  (numbered (regions k) → numbered (regions k')).

#[global] Instance keep_grows_preorder : PreOrder keep_grows.
Proof.
  split; [by intros k; split_and!|]. intros k1 k2 k3 (A1 & A2 & A3 & A4 & A5) (B1 & B2 & B3 & B4 & B5).
  split_and!; [congruence..|by etransitivity|auto].
Qed.

Lemma numbered_snoc rs r : numbered rs → slot r = as_u32 (Z.of_nat (length rs)) → numbered (rs ++ [r]).
Proof.
  intros Hr Hs i r' E. apply lookup_app_Some in E as [E|[Hl E]]; [by apply Hr|].
  apply list_lookup_singleton_Some in E as [Ei <-]. rewrite Hs. f_equal. lia.
Qed.

#[global] Instance kvm_confinement {K} `{Kernel K} : Confinement (kvm K).
Proof.
  refine {| allowed k k' := keep_grows (vm_keep k) (vm_keep k') |}.
  - split; [by intros k|]. intros k1 k2 k3 G1 G2. by etransitivity.
  - intros num argv k m rax k' m' E _. cbn in E.
    destruct (kernel_syscall num argv (vm_env k) m) as [[[r k1] m1]|]; [|done]. by injection E as <- <- <-.
Defined.

(** What a personality promises: its calls are confined to their item. *)
Class PersonalityLaws (K : Type) `{KernelSpec K, !KeepPersonality K} := {
  pl_serves : ∀ it (h : machine (kvm K)), it_kind it = Enarxcall → 0 ≤ it_data_len it →
    it_data it = it_payload it + 48 → mem_wf (mc_mem h) →
    serves [item_region it] (personality_enarxcall it) h;
  pl_rest : ∀ it (h : machine (kvm K)) it' h',
    personality_enarxcall it h = Return (Ok (Some it'), h') → it' = it ∧ h' = h;
}.

Section calls.
Context {K : Type} `{KernelSpec K, !KvmEnv K, !KeepPersonality K, !PersonalityLaws K}.
Implicit Types h : machine (kvm K).

Lemma serves_on_env {A : Type} rs (f : K → A * K) h : serves rs (on_env f) h.
Proof. unfold serves, on_env. by destruct (f _). Qed.

Lemma serves_set_keep rs f h : keep_grows (vm_keep (mc_kernel h)) (f (vm_keep (mc_kernel h))) → serves rs (set_keep f) h.
Proof. done. Qed.

Lemma Keep_map_serves rs addr len to h : serves rs (Keep_map addr len to) h.
Proof.
  apply serves_bind; [done|]. intros n h1 [= <- <-].
  apply serves_bind; [apply serves_on_env|]. intros [[]|e] h1 E1; [|done].
  apply serves_bind; [apply serves_on_env|]. intros [[]|e] h2 E2; [|done].
  apply serves_bind_any; [|done]. apply serves_set_keep.
  assert (Ek : vm_keep (mc_kernel h2) = vm_keep (mc_kernel h)).
  { unfold on_env in E1, E2. destruct (set_user_memory_region _ _) in E1. injection E1 as _ <-.
    destruct (personality_map _ _) in E2. by injection E2 as _ <-. }
  rewrite Ek. split_and!; try done; simpl; [by apply prefix_app_r|]. intros Hn. by apply numbered_snoc.
Qed.

Lemma balloon_serves rs log2 npgs addr h : serves rs (balloon log2 npgs addr) h.
Proof.
  unfold balloon. cbv zeta. apply serves_bind_any; [done|]. intros pgsz h1. destruct (negb _); [done|].
  destruct (_ || _); [done|]. apply serves_bind_any; [apply serves_on_env|]. intros pages h2.
  destruct (raw_os_error _ pages); [|done]. apply serves_bind_any; [apply Keep_map_serves|]. intros mapped h3.
  destruct (raw_os_error _ mapped); [|done]. unfold VirtAddr_new.
  destruct (_ || _); [done|]. by destruct (_ <? _).
Qed.

Lemma kvm_enarxcall_serves it h : it_kind it = Enarxcall → 0 ≤ it_data_len it →
  it_data it = it_payload it + 48 → serves [item_region it] (kvm_enarxcall it) h.
Proof.
  intros Hk Hl Hd. apply serves_bind_any; [done|]. intros argv h1.
  assert (Hret : ∀ (r : result Z) h2, serves [item_region it] (_ ← set_ret it (ret_of r); mret (M := hostM (kvm K)) (None : option Item)) h2).
  { intros r h2. apply serves_bind_any; [by apply serves_ret_word|done]. }
  destruct (_ =? _); [apply serves_bind_any; [done|auto]|].
  destruct (_ =? _); [apply serves_bind_any; [apply balloon_serves|auto]|done].
Qed.

Lemma kvm_enarxcall_rest it h it' h' :
  kvm_enarxcall it h = Return (Ok (Some it'), h') → it' = it ∧ h' = h.
Proof.
  unfold kvm_enarxcall, mbind at 1, hostM_bind at 1, fal_bind at 1, load at 1. cbv beta iota.
  assert (Hh : ∀ f : kvmM K (result Z),
    (f ≫= λ r, set_ret it (ret_of r) ≫= λ _, mret None) h ≠ Return (Ok (Some it'), h')).
  { intros f. unfold mbind, hostM_bind, fal_bind. by destruct (f h) as [[[r|e] h1]| | |]. }
  intros E. repeat (match type of E with (if ?b then _ else _) _ = _ => destruct b end; [by apply Hh in E|]).
  by injection E.
Qed.

Lemma kvm_call_serves it h : it_kind it = Enarxcall → 0 ≤ it_data_len it →
  it_data it = it_payload it + 48 → mem_wf (mc_mem h) → serves [item_region it] (kvm_call it) h.
Proof.
  intros Hk Hl Hd Hm. apply serves_bind; [by apply kvm_enarxcall_serves|]. intros [it'|] h1 E; [|done].
  apply kvm_enarxcall_rest in E as [-> ->]. by apply pl_serves.
Qed.

Lemma kvm_call_rest it h it' h' : kvm_call it h = Return (Ok (Some it'), h') → it' = it ∧ h' = h.
Proof.
  unfold kvm_call, mbind, hostM_bind, fal_bind.
  destruct (kvm_enarxcall it h) as [[[[it1|]|e] h1]| | |] eqn:E; try done.
  apply kvm_enarxcall_rest in E as [-> ->]. apply pl_rest.
Qed.

End calls.

(** ** The personalities keep their promise *)

Lemma KvmKeepPersonality_laws {K : Type} `{KernelSpec K} :
  @PersonalityLaws K _ _ KvmKeepPersonality.
Proof. split; [done|]. by intros it h it' h' [= <- <-]. Qed.

(** The certificate consists of bytes. *)
Class VcekLaws (K : Type) `{VcekEnv K} := {
  vcek_wf : ∀ (k : K), match fst (get_vcek_reader k) with inl bs => bytes_wf bs | inr _ => True end;
}.

Lemma snp_serves {K : Type} `{KernelSpec K, VcekLaws K} it (h : machine (kvm K)) :
  it_kind it = Enarxcall → 0 ≤ it_data_len it → it_data it = it_payload it + 48 → mem_wf (mc_mem h) →
  serves [item_region it] (snp_enarxcall it) h.
Proof.
  intros Hk Hl Hd Hm. apply serves_bind; [done|]. intros argv h1 [= <- <-].
  assert (Hr : ∀ a, is_usize (read_usize (mc_mem h) a)) by (intros a; by apply read_usize_range).
  destruct (_ =? _); [|done]. apply serves_bind; [done|]. intros buf h1 [= E <-].
  apply deref_slice_Ok in E as (El & Hp & He); [|apply Hr..]. simpl in He.
  apply serves_bind; [apply serves_on_env|]. intros r h2 E2.
  assert (Hb : match r with inl bs => bytes_wf bs | inr _ => True end).
  { unfold on_env in E2. pose proof (vcek_wf (vm_env (mc_kernel h))) as Hv.
    destruct (get_vcek_reader _) as [r' k']. by injection E2 as <- _. }
  apply serves_bind; [done|]. intros vcek h3 E3. destruct r as [bs|e]; [|done]. injection E3 as <- <-.
  cbv zeta. apply serves_bind_any.
  { apply serves_fill; [done|by apply Forall_take|done|]. rewrite length_take, El. specialize (Hr (it_payload it + 8 * 2)). unfold is_usize in Hr. lia. }
  intros [] h4. destruct (_ <? _); [done|].
  apply serves_bind_any; [by apply serves_ret_word|]. intros [] h5. by destruct (_ =? 0).
Qed.

Lemma SnpKeepPersonality_laws {K : Type} `{KernelSpec K, VcekLaws K} :
  @PersonalityLaws K _ _ SnpKeepPersonality.
Proof.
  split; [intros; by apply snp_serves|]. intros it h it' h' E. cbn in E.
  unfold snp_enarxcall, mbind, hostM_bind, fal_bind, load in E. destruct (_ =? _); [|by injection E].
  exfalso. unfold try, on_env in E. destruct (deref_slice _ _ _ _); [|done].
  destruct (get_vcek_reader _) as [r k]. destruct (raw_os_error _ r); [|done].
  cbv zeta in E. unfold store, set_ret in E. destruct (_ <? _); [done|]. by destruct (_ =? 0).
Qed.

(** ** Properties *)

(** The slots of a sallyport segment are exactly its blocks, one after the
    other: slot [i] of the host is the block at [i * block_size], and blocks do
    not overlap.  (This needs a block size that is a multiple of a word.) *)
Theorem sallyport_slots_exact block_size addr size :
  0 < block_size → block_size mod 8 = 0 → 0 ≤ size →
  sallyport_blocks block_size addr size =
    Return ((λ i, Some (addr + i * block_size)) <$> seqZ 0 (size / block_size)).
Proof.
  intros Hb Hm Hs. unfold sallyport_blocks. rewrite (proj2 (Z.eqb_neq _ _)) by lia.
  pose proof (sallyport_starts_exact (Z.to_nat size) block_size size 0 Hb Hm ltac:(lia) ltac:(lia)) as E.
  rewrite Z.mul_0_l, Z.sub_0_r in E. rewrite E, <- list_fmap_compose. done.
Qed.

(** Entering a virtual machine that asks for slot [nr] to be served.  If
    the slot is in use or does not exist, the host panics.  Otherwise its block
    is evaluated, which changes memory only there and only appends memory
    regions to the keep; the slot is full again afterwards, and stays empty if
    the keep ends. *)
Theorem slot_served {K : Type} `{KernelSpec K, !KvmEnv K, !KeepPersonality K, !PersonalityLaws K}
    (nr : Z) (h : machine (kvm K)) :
  let keep := vm_keep (mc_kernel h) in
  match sallyports keep !! Z.to_nat nr with
  | Some (Some virt) =>
      let blk := mkBlock virt (sallyport_block_size keep / 8) in
      ∀ its, mem_wf (mc_mem h) → 0 ≤ b_len blk →
      Block_items (mc_mem h) blk = Return its → Forall (item_within (mc_mem h)) its →
      match serve_slot nr h with
      | Return (r, h') =>
          same_except [words_region blk] (mc_mem h) (mc_mem h') ∧
          keep_grows (match r with
                      | Ok Continue => keep
                      | _ => set_sallyports (<[Z.to_nat nr := None]> (sallyports keep)) keep
                      end) (vm_keep (mc_kernel h'))
      | Attacked => False
      | _ => True
      end
  | _ => serve_slot nr h = Panicked
  end.
Proof.
  cbv zeta. unfold serve_slot, take_sallyport, mbind, hostM_bind, fal_bind, get_keep.
  destruct (sallyports _ !! _) as [[virt|]|] eqn:En; [|done..].
  intros its Hm Hl Hi Hw. cbn -[for_items Z.to_nat].
  set (keep := vm_keep (mc_kernel h)) in *.
  set (taken := set_sallyports (<[Z.to_nat nr := None]> (sallyports keep)) keep).
  set (h1 := mkMachine (mkKvm (vm_env (mc_kernel h)) taken) (mc_mem h)).
  pose proof (items_serve kvm_call kvm_call_serves kvm_call_rest _ (mkBlock virt (sallyport_block_size keep / 8))
    h1 its Hm Hl (Nat.lt_succ_diag_r _) Hi Hw) as Hs.
  unfold serves in Hs. cbn -[for_items Z.to_nat] in Hs.
  destruct (for_items _ _ _ _) as [[[[|code]|e] h2]| | |]; try done; destruct Hs as (S1 & _ & S2); [|done..].
  split; [done|]. cbn -[Z.to_nat]. destruct S2 as (G1 & G2 & G3 & G4 & G5). split_and!; try done. simpl.
  rewrite G3. simpl. rewrite list_insert_insert_eq. by apply list_insert_id.
Qed.

(** A host of three slots; the guest asks for the second one. *)
#[global] Instance linux_kvm : KvmEnv linux := {|
  vcpu_run _ k m := (inl (IoOut KVM_SYSCALL_TRIGGER_PORT [1; 0]), k, m);
  sysconf_page_size _ := 4096;
  map_anonymous n k := (if n =? 0 then inr (Some EINVAL) else inl 1048576, k);
  set_user_memory_region _ k := (inl tt, k);
  get_nr_memslots _ := 32764;
  create_vcpu k := (inl 0, k);
|}.

Lemma sallyport_slots_exact_witness :
  sallyport_blocks 4096 65536 12300 = Return [Some 65536; Some 69632; Some 73728].
Proof. by rewrite (sallyport_slots_exact 4096 65536 12300). Defined.

(** With a block size that is not a multiple of a word, blocks overlap. *)
Example unaligned_blocks_overlap : sallyport_blocks 12 0 48 = Return [Some 0; Some 16; Some 24].
Proof. reflexivity. Qed.

Definition sample_vm : machine (kvm linux) :=
  mkMachine (mkKvm (mkLinux [104; 105]) (mkKeep [0] (8 * b_len (fst sample_read)) [None; Some 64; None] []))
    (snd sample_read).

Lemma slot_served_witness :
  match serve_slot (KeepPersonality0 := KvmKeepPersonality) 1 sample_vm with
  | Return (r, h') => r = Ok Continue ∧ read_bytes (mc_mem h') 152 2 = [104; 105] ∧
      same_except [words_region (fst sample_read)] (mc_mem sample_vm) (mc_mem h') ∧
      sallyports (vm_keep (mc_kernel h')) = [None; Some 64; None]
  | _ => False
  end.
Proof.
  assert (Hm : mem_wf (mc_mem sample_vm)).
  { apply write_bytes_wf; [exact zero_mem_wf|].
    repeat (apply Forall_cons_2; [vm_compute; split; congruence|]). apply Forall_nil_2. }
  assert (Ei : Block_items (mc_mem sample_vm) (fst sample_read) = Return [mkItem Syscall 80 152 8])
    by (vm_compute; reflexivity).
  assert (Hw : Forall (item_within (mc_mem sample_vm)) [mkItem Syscall 80 152 8]).
  { apply Forall_singleton. intros _. split_and!; vm_compute; congruence. }
  pose proof (@slot_served linux _ _ _ KvmKeepPersonality KvmKeepPersonality_laws 1 sample_vm _ Hm
    ltac:(vm_compute; congruence) Ei Hw) as Hs.
  assert (Er : match serve_slot (KeepPersonality0 := KvmKeepPersonality) 1 sample_vm with
    Return (Ok Continue, h') => read_bytes (mc_mem h') 152 2 = [104; 105] | _ => False end)
    by (vm_compute; reflexivity).
  destruct (serve_slot _ _) as [[[[]|e] h']| | |]; try done. destruct Hs as (S1 & _ & _ & S2 & _). auto.
Defined.
