(* ===== verification/Loader.v ===== *)
(** * Loading a keep

    [src/backend/binary.rs], the constants of [crates/sallyport/src/elf.rs], and
    the configurations of the backends ([kvm/config.rs], [sev/config.rs],
    [sgx/config.rs]).  The shim and the executable are ELF files; their segments
    are copied to fresh pages, which a [Mapper] (a builder of keeps, or a hasher
    that only measures) puts at their addresses.

    Parsing ELF is the crate [goblin], comparing versions the crate [semver]; both
    are parameters, and so are fresh pages and the order that
    [sort_unstable_by_key] leaves open.  Errors of [anyhow] are numbered.  The
    crate is built without overflow checks. *)

From stdpp Require Import sorting.
From S2P Require Import Prelude Memory Libc PhaseAlloc.

Module E.
Definition Class : Z := 1.
Definition Data : Z := 2.
Definition IdentVersion : Z := 3.
Definition Machine : Z := 4.
Definition Version : Z := 5.
Definition Interp : Z := 6.
Definition Entry : Z := 7.
Definition Slot : Z := 8.
Definition Fit : Z := 9.
Definition Sallyport : Z := 10.
Definition Overlap : Z := 11.
Definition Missing : Z := 12.
Definition Ssap : Z := 13.
Definition Segments : Z := 14.
End E.

Definition PAGE : Z := 4096.

(** ** ELF *)

Definition PT_LOAD : Z := 1.
Definition PT_INTERP : Z := 3.
Definition PT_LOOS : Z := 0x60000000.
Definition PF_X : Z := 1.
Definition PF_W : Z := 2.
Definition PF_R : Z := 4.
Definition ELFCLASS64 : Z := 2.
Definition ELFDATA2LSB : Z := 1.
Definition EV_CURRENT : Z := 1.
Definition EM_X86_64 : Z := 62.

(** [sallyport::elf] *)
Module elf.
Definition EXEC : Z := PT_LOOS + 0x3400000.
Definition TCS : Z := Z.shiftl 1 20.
Definition UNMEASURED : Z := Z.shiftl 1 21.
Definition SALLYPORT : Z := Z.shiftl 1 22.
Definition CPUID : Z := Z.shiftl 1 23.
Definition SECRETS : Z := Z.shiftl 1 24.
Definition NAME : list Z := [115; 97; 108; 108; 121; 112; 111; 114; 116].
Definition REQUIRES : Z := 0.
Definition BLOCK_SIZE : Z := 0x73677820.
Definition BITS : Z := 0x73677800.
Definition SSAP : Z := 0x73677801.
Definition PID : Z := 0x73677810.
Definition SVN : Z := 0x73677811.
Definition MISC : Z := 0x73677812.
Definition MISCMASK : Z := 0x73677813.
Definition ATTR : Z := 0x73677814.
Definition ATTRMASK : Z := 0x73677815.
Definition POLICY : Z := 0x73677822.
Definition FAMILY_ID : Z := 0x73677823.
Definition IMAGE_ID : Z := 0x73677824.
Definition SNP_SVN : Z := 0x73677825.
End elf.

(** [goblin::elf] *)
Record ProgramHeader : Type := mkProgramHeader {
  p_type : Z; p_flags : Z; p_offset : Z; p_vaddr : Z; p_filesz : Z; p_memsz : Z;
}.
Record Note : Type := mkNote { n_type : Z; n_name : list Z; n_desc : list Z }.
Record Elf : Type := mkElf {
  ei_class : Z; ei_data : Z; ei_version : Z; e_machine : Z; e_version : Z; e_entry : Z;
  program_headers : list ProgramHeader;
  note_headers : option (list (option Note));
}.

Class Goblin := {
  Elf_parse : list Z → result Elf;
  vm_range : ProgramHeader → Z * Z;
  file_range : ProgramHeader → Z * Z;
}.

(** Ranges that do not leave the address space. *)
Class GoblinLaws `{Goblin} := {
  gl_vm : ∀ ph, p_vaddr ph + p_memsz ph < 2 ^ 64 → vm_range ph = (p_vaddr ph, p_vaddr ph + p_memsz ph);
  gl_file : ∀ ph, p_offset ph + p_filesz ph < 2 ^ 64 → file_range ph = (p_offset ph, p_offset ph + p_filesz ph);
}.

(** A segment: the bytes of the file, the pages of memory, and where in the first
    of them the bytes begin. *)
Record Segment : Type := mkSegment {
  s_bytes : list Z; s_start : Z; s_end : Z; s_skipb : Z; s_flags : Z;
}.

(** Rust does not say how [sort_unstable_by_key] orders equal keys. *)
Class UnstableSort := {
  sort_by_start : list Segment → list Segment;
  us_perm : ∀ l, sort_by_start l ≡ₚ l;
  us_sorted : ∀ l, Sorted (λ a b, s_start a ≤ s_start b) (sort_by_start l);
}.

(** [semver]: whether a requirement (the bytes of a note) can be read and admits
    the version of sallyport. *)
Class Semver := satisfied : list Z → bool.

(** [Option<Signatures>] *)
Record Signatures : Type := mkSignatures { sig_id_block : list Z; sig_id_auth : list Z; sig_sgx : list Z }.

Definition in_range (r : Z * Z) (x : Z) : bool := (fst r <=? x) && (x <? snd r).

(** [&bytes[range]] *)
Definition slice (bytes : list Z) (r : Z * Z) : outcome (list Z) :=
  if (fst r <=? snd r) && (snd r <=? Z.of_nat (length bytes)) then
    Return (take (Z.to_nat (snd r - fst r)) (drop (Z.to_nat (fst r)) bytes))
  else Panicked.

Section binary.
Context `{Goblin}.

Record Binary : Type := mkBinary { bin_bytes : list Z; bin_elf : Elf }.

Definition Binary_new (bytes : list Z) : result Binary :=
  match Elf_parse bytes with
  | Err e => Err e
  | Ok elf =>
      if negb (ei_class elf =? ELFCLASS64) then Err E.Class
      else if negb (ei_data elf =? ELFDATA2LSB) then Err E.Data
      else if negb (ei_version elf =? EV_CURRENT) then Err E.IdentVersion
      else if negb (e_machine elf =? EM_X86_64) then Err E.Machine
      else if negb (e_version elf =? EV_CURRENT) then Err E.Version
      else if existsb (λ ph, p_type ph =? PT_INTERP) (program_headers elf) then Err E.Interp
      else if negb (existsb (λ ph, (p_type ph =? PT_LOAD) && (p_vaddr ph <=? e_entry elf) &&
                                   (e_entry elf <? as_u64 (p_vaddr ph + p_memsz ph))) (program_headers elf))
      then Err E.Entry
      else Ok (mkBinary bytes elf)
  end.

Definition headers (self : Binary) (kind : Z) : list ProgramHeader :=
  filter (λ ph, p_type ph = kind) (program_headers (bin_elf self)).

(** The segment of a program header. *)
Definition segment (self : Binary) (relocate : Z) (phdr : ProgramHeader) : outcome Segment :=
  let range_start := as_usize (fst (vm_range phdr) + relocate) in
  let range_end := as_usize (snd (vm_range phdr) + relocate + PAGE - 1) in
  bytes ← slice (bin_bytes self) (file_range phdr);
  Return (mkSegment bytes (range_start / PAGE * PAGE) (range_end / PAGE * PAGE)
            (p_vaddr phdr mod PAGE) (p_flags phdr)).

Fixpoint map_segment (self : Binary) (relocate : Z) (phdrs : list ProgramHeader) : outcome (list Segment) :=
  match phdrs with
  | [] => Return []
  | phdr :: phdrs =>
      seg ← segment self relocate phdr;
      segs ← map_segment self relocate phdrs;
      Return (seg :: segs)
  end.

Definition segments (self : Binary) (relocate : Z) : outcome (list Segment) :=
  if negb (relocate mod PAGE =? 0) then Panicked else map_segment self relocate (headers self PT_LOAD).

(** The memory of the binary. *)
Definition min_list (l : list Z) : option Z := match l with [] => None | x :: l => Some (foldl Z.min x l) end.
Definition max_list (l : list Z) : option Z := match l with [] => None | x :: l => Some (foldl Z.max x l) end.
Definition Binary_range (self : Binary) : Z * Z :=
  (default 0 (min_list ((λ ph, fst (vm_range ph)) <$> headers self PT_LOAD)),
   default 0 (max_list ((λ ph, snd (vm_range ph)) <$> headers self PT_LOAD))).

Definition notes (self : Binary) (name : list Z) (kind : Z) : list (list Z) :=
  n_desc <$> filter (λ n, n_name n = name)
    (filter (λ n, n_type n = kind) (omap id (default [] (note_headers (bin_elf self))))).

(** [note::<T>], of the given size *)
Definition note (size : Z) (self : Binary) (name : list Z) (kind : Z) : option (list Z) :=
  list_find (λ desc, Z.of_nat (length desc) = size) (notes self name kind) ≫= λ '(_, desc), Some desc.
Definition note_num (size : Z) (self : Binary) (kind : Z) : option Z :=
  from_le_bytes <$> note size self elf.NAME kind.

End binary.

(** ** Loading *)

(** [trait Config] and [trait Mapper]; [W] is what the code calls outside of the
    process. *)
Class Config (C F : Type) `{Goblin} := {
  config_flags : Z → F;
  config_new : Binary → Binary → option Signatures → result C;
}.

(** [Map<perms::ReadWrite>] *)
Record Pages : Type := mkPages { pg_addr : Z; pg_bytes : list Z }.

Class Mapper (W C F T O : Type) := {
  mapper_try_from : C → fal W T;
  mapper_map : Pages → Z → F → T → fal W T;
  mapper_into : T → fal W O;
}.

(** [Map::bytes(n).anywhere().anonymously()]: the address of [n] zero bytes. *)
Class Anonymous (W : Type) := map_bytes : Z → W → result Z * W.

(** [map[skipb..][..bytes.len()].copy_from_slice(bytes)] in [n] zero bytes *)
Definition copy_segment (n skipb : Z) (bytes : list Z) : outcome (list Z) :=
  if (skipb <=? n) && (Z.of_nat (length bytes) <=? n - skipb) then
    Return (repeat 0 (Z.to_nat skipb) ++ bytes ++ repeat 0 (Z.to_nat (n - skipb) - length bytes))
  else Panicked.

Fixpoint windows_overlap (sorted : list Segment) : bool :=
  match sorted with
  | a :: (b :: _) as rest => (s_start b <? s_end a) || windows_overlap rest
  | _ => false
  end.

Section load.
Context {W C F T O : Type} `{Goblin, !UnstableSort, !Semver, !Config C F, !Mapper W C F T O, !Anonymous W}.

Definition on_world {A : Type} (f : W → result A * W) : fal W A := λ w, let '(r, w) := f w in Return (r, w).

Definition load_segment (seg : Segment) (loader : T) : fal W T :=
  let size := as_usize (s_end seg - s_start seg) in
  addr ← on_world (map_bytes size);
  bytes ← must (copy_segment size (s_skipb seg) (s_bytes seg));
  mapper_map (mkPages addr bytes) (s_start seg) (config_flags (s_flags seg)) loader.

Fixpoint load_segments (segs : list Segment) (loader : T) : fal W T :=
  match segs with
  | [] => mret loader
  | seg :: segs => loader ← load_segment seg loader; load_segments segs loader
  end.

Definition load (shim exec : list Z) (signatures : option Signatures) : fal W O :=
  sbin ← try (Binary_new shim);
  ebin ← try (Binary_new exec);
  slot ← try (ok_or (vm_range <$> head (headers sbin elf.EXEC)) E.Slot);
  let range := Binary_range ebin in
  if negb (fst range =? 0) || (as_usize (snd slot - fst slot) <? snd range) then try (Err E.Fit)
  else if negb (existsb satisfied (notes sbin elf.NAME elf.REQUIRES)) then try (Err E.Sallyport)
  else
    config ← try (config_new sbin ebin signatures);
    loader ← mapper_try_from config;
    ssegs ← must (segments sbin 0);
    esegs ← must (segments ebin (fst slot));
    if windows_overlap (sort_by_start (ssegs ++ esegs)) then try (Err E.Overlap)
    else
      loader ← load_segments (ssegs ++ esegs) loader;
      mapper_into loader.

End load.

(** ** The configurations *)

Section configs.
Context `{Goblin}.

(** [.ok_or_else(|| anyhow!("missing"))] *)
Definition required {A : Type} (o : option A) : result A := ok_or o E.Missing.

(** Exactly one segment holds the sallyport blocks. *)
Definition one_sallyport (shim : Binary) : bool :=
  Nat.eqb (length (filter (λ ph, Z.land (p_flags ph) elf.SALLYPORT ≠ 0) (headers shim PT_LOAD))) 1.

(** [kvm/config.rs] *)
Record KvmConfig : Type := mkKvmConfig { kc_block_size : Z; kc_signatures : option Signatures }.

Definition KvmConfig_new (shim exec : Binary) (signatures : option Signatures) : result KvmConfig :=
  if negb (one_sallyport shim) then Err E.Segments
  else
    match required (note_num 8 shim elf.BLOCK_SIZE) with
    | Err e => Err e
    | Ok block_size => Ok (mkKvmConfig block_size signatures)
    end.

#[global] Instance kvm_config : Config KvmConfig Z := {| config_flags flags := flags; config_new := KvmConfig_new |}.

(** [sev/config.rs] *)
Record SnpParameters : Type := mkSnpParameters {
  sp_policy : Z; sp_family_id : list Z; sp_image_id : list Z; sp_guest_svn : Z;
}.
Record SevConfig : Type := mkSevConfig {
  sc_block_size : Z; sc_signatures : option Signatures; sc_parameters : SnpParameters;
}.

Definition SevConfig_new (shim exec : Binary) (signatures : option Signatures) : result SevConfig :=
  if negb (one_sallyport shim) then Err E.Segments
  else
    match note_num 8 shim elf.BLOCK_SIZE, note_num 8 shim elf.POLICY, note 16 shim elf.NAME elf.FAMILY_ID,
          note 16 shim elf.NAME elf.IMAGE_ID, note_num 4 shim elf.SNP_SVN with
    | Some block_size, Some policy, Some family_id, Some image_id, Some guest_svn =>
        Ok (mkSevConfig block_size signatures (mkSnpParameters policy family_id image_id guest_svn))
    | _, _, _, _, _ => Err E.Missing
    end.

#[global] Instance sev_config : Config SevConfig Z := {| config_flags flags := flags; config_new := SevConfig_new |}.

(** [sgx/config.rs]; [Flags] are the permissions of a page. *)
Inductive SecInfo : Type := Regular (rwx : Z) | Tcs.
Definition READ : Z := 1.
Definition WRITE : Z := 2.
Definition EXECUTE : Z := 4.

(** The arm for the feature [gdb], which is off by default and makes executable
    pages writable, is left out. *)
Definition SgxConfig_flags (flags : Z) : SecInfo * bool :=
  let rwx := if negb (Z.land flags PF_R =? 0) then READ else 0 in
  let rwx := if negb (Z.land flags PF_W =? 0) then Z.lor rwx WRITE else rwx in
  let rwx := if negb (Z.land flags PF_X =? 0) then Z.lor rwx EXECUTE else rwx in
  let m := Z.land flags elf.UNMEASURED =? 0 in
  (if Z.land flags elf.TCS =? 0 then Regular rwx else Tcs, m).

Record SgxParameters : Type := mkSgxParameters {
  misc : Z; misc_mask : Z; attr : Z; attr_mask : Z; pid : Z; svn : Z;
}.
Record SgxConfig : Type := mkSgxConfig {
  gc_parameters : SgxParameters; gc_signatures : option Signatures; gc_ssap : Z; gc_size : Z; gc_block_size : Z;
}.

Definition SgxConfig_new (shim exec : Binary) (signatures : option Signatures) : result SgxConfig :=
  match note_num 4 shim elf.MISC, note_num 4 shim elf.MISCMASK, note_num 16 shim elf.ATTR,
        note_num 16 shim elf.ATTRMASK, note_num 2 shim elf.PID, note_num 2 shim elf.SVN, note_num 1 shim elf.SSAP with
  | Some misc, Some misc_mask, Some attr, Some attr_mask, Some pid, Some svn, Some ssap =>
      if ssap =? 0 then Err E.Ssap
      else
        match note_num 1 shim elf.BITS, note_num 8 shim elf.BLOCK_SIZE with
        | Some bits, Some block_size =>
            Ok (mkSgxConfig (mkSgxParameters misc misc_mask attr attr_mask pid svn) signatures ssap
                  (as_usize (Z.shiftl 1 (bits mod 64))) block_size)
        | _, _ => Err E.Missing
        end
  | _, _, _, _, _, _, _ => Err E.Missing
  end.

#[global] Instance sgx_config : Config SgxConfig (SecInfo * bool) :=
  {| config_flags := SgxConfig_flags; config_new := SgxConfig_new |}.

End configs.
