(* ===== verification/LoaderLaws.v ===== *)
(** * Loading a keep: what is loaded

    Every mapper gets the same regions, one per segment of the shim and of the
    executable: whole pages, apart from each other, that hold the bytes of the
    file at their addresses and zeros elsewhere. *)

From stdpp Require Import sorting.
From S2P Require Import Prelude Memory Libc PhaseAlloc Loader.

(** ** Segments that do not overlap *)

Definition apart (a b : Segment) : Prop := s_end a ≤ s_start b ∨ s_end b ≤ s_start a.

#[global] Instance apart_sym : Symmetric apart.
Proof. unfold apart. intros a b. tauto. Qed.

Lemma ForallOrdPairs_perm {A : Type} (R : A → A → Prop) `{!Symmetric R} l l' :
  l ≡ₚ l' → ForallOrdPairs R l → ForallOrdPairs R l'.
Proof.
  induction 1 as [|x l l' Hp IH|x y l|]; intros Hl; [done| | |auto].
  - inversion Hl as [|? ? Hx Hr]; subst. constructor; [|auto]. by rewrite <- Hp.
  - inversion Hl as [|? ? Hy Hr]; subst. inversion Hr as [|? ? Hx Hr']; subst.
    apply Forall_cons in Hy as [Hyx Hy]. constructor; [constructor; [by symmetry|done]|by constructor].
Qed.

Lemma windows_apart l :
  Sorted (λ a b, s_start a ≤ s_start b) l → windows_overlap l = false → ForallOrdPairs apart l.
Proof.
  intros Hs. apply Sorted_StronglySorted in Hs; [|intros a b c; lia].
  induction Hs as [|a l Hs IH Ha]; [constructor|]. intros Hw. constructor.
  - destruct l as [|b l]; [constructor|]. cbn in Hw. apply orb_false_iff in Hw as [Hab _]. apply Z.ltb_ge in Hab.
    apply Forall_cons in Ha as [_ Ha]. apply StronglySorted_inv in Hs as [_ Hb].
    constructor; [by left|]. eapply Forall_impl; [exact Hb|]. intros c Hc. cbn in Hc. left. lia.
  - apply IH. destruct l; [done|]. cbn in Hw. by apply orb_false_iff in Hw as [_ Hw].
Qed.

Lemma unstable_apart `{!UnstableSort} l : windows_overlap (sort_by_start l) = false → ForallOrdPairs apart l.
Proof. intros Hw. eapply (ForallOrdPairs_perm apart); [apply us_perm|]. by apply windows_apart; [apply us_sorted|]. Qed.

(** ** The pages of a segment *)

Lemma copy_segment_spec n skipb bytes pages :
  0 ≤ skipb → copy_segment n skipb bytes = Return pages →
  Z.of_nat (length pages) = n ∧ skipb + Z.of_nat (length bytes) ≤ n ∧
  ∀ i, 0 ≤ i < n → pages !! Z.to_nat i = Some (if (skipb <=? i) then default 0 (bytes !! Z.to_nat (i - skipb)) else 0).
Proof.
  unfold copy_segment. intros Hs. destruct (_ && _) eqn:E; [|done]. bool_to_prop. intros [= <-].
  rewrite !length_app, !repeat_length. split; [lia|]. split; [lia|]. intros i Hi.
  destruct (skipb <=? i) eqn:Ei; bool_to_prop.
  - rewrite lookup_app_r by (rewrite repeat_length; lia). rewrite repeat_length.
    replace (Z.to_nat i - Z.to_nat skipb)%nat with (Z.to_nat (i - skipb)) by lia.
    destruct (bytes !! Z.to_nat (i - skipb)) as [b|] eqn:Eb.
    + by rewrite lookup_app_l by (apply lookup_lt_Some in Eb; lia).
    + apply lookup_ge_None in Eb. rewrite lookup_app_r by lia. apply lookup_repeat. lia.
  - rewrite lookup_app_l by (rewrite repeat_length; lia). apply lookup_repeat. lia.
Qed.

(** A header whose ranges, rounded up to pages, are addresses. *)
Record header_wf (relocate : Z) (ph : ProgramHeader) : Prop := {
  hw_vm : 0 ≤ p_vaddr ph ∧ 0 ≤ p_memsz ph ∧ p_vaddr ph + p_memsz ph + relocate + PAGE ≤ 2 ^ 64;
  hw_file : 0 ≤ p_offset ph ∧ 0 ≤ p_filesz ph ∧ p_offset ph + p_filesz ph < 2 ^ 64;
}.

(** The byte of the image at an address: from the file, or zero. *)
Definition image_byte (file : list Z) (relocate : Z) (ph : ProgramHeader) (x : Z) : Z :=
  let i := x - (p_vaddr ph + relocate) in
  if in_range (0, p_filesz ph) i then default 0 (file !! Z.to_nat (p_offset ph + i)) else 0.

(** [bytes], loaded at [to], are the segment of a header. *)
Record holds_segment (file : list Z) (relocate : Z) (ph : ProgramHeader) (to : Z) (bytes : list Z) : Prop := {
  hs_aligned : to mod PAGE = 0 ∧ Z.of_nat (length bytes) mod PAGE = 0;
  hs_covers : to ≤ p_vaddr ph + relocate ∧ p_vaddr ph + relocate + p_memsz ph ≤ to + Z.of_nat (length bytes);
  hs_bytes : ∀ x, to ≤ x < to + Z.of_nat (length bytes) →
    bytes !! Z.to_nat (x - to) = Some (image_byte file relocate ph x);
}.

Section laws.
Context `{GoblinLaws}.

Lemma segment_spec self relocate ph seg :
  relocate mod PAGE = 0 → 0 ≤ relocate → header_wf relocate ph → segment self relocate ph = Return seg →
  s_flags seg = p_flags ph ∧ s_start seg mod PAGE = 0 ∧ 0 ≤ s_start seg ≤ s_end seg ∧ s_end seg < 2 ^ 64 ∧
  s_end seg mod PAGE = 0 ∧
  s_start seg + s_skipb seg = p_vaddr ph + relocate ∧ 0 ≤ s_skipb seg ∧
  p_vaddr ph + relocate + p_memsz ph ≤ s_end seg ∧
  s_bytes seg = take (Z.to_nat (p_filesz ph)) (drop (Z.to_nat (p_offset ph)) (bin_bytes self)) ∧
  p_offset ph + p_filesz ph ≤ Z.of_nat (length (bin_bytes self)).
Proof.
  intros Hr Hr0 [[Hv [Hm Hvm]] [Ho [Hf Hof]]]. unfold segment, slice, PAGE in *.
  rewrite gl_vm, gl_file by lia. cbn [fst snd].
  destruct (_ && _) eqn:E; [|done]. bool_to_prop. intros [= <-]. cbn [s_flags s_start s_end s_skipb s_bytes].
  rewrite !as_usize_small by (unfold is_usize, usize_MAX; lia).
  replace (p_offset ph + p_filesz ph - p_offset ph) with (p_filesz ph) by lia.
  split_and!; try done; dlia.
Qed.

Lemma segment_holds self relocate ph seg pages :
  relocate mod PAGE = 0 → 0 ≤ relocate → header_wf relocate ph → segment self relocate ph = Return seg →
  copy_segment (as_usize (s_end seg - s_start seg)) (s_skipb seg) (s_bytes seg) = Return pages →
  holds_segment (bin_bytes self) relocate ph (s_start seg) pages ∧
  Z.of_nat (length pages) = s_end seg - s_start seg.
Proof.
  intros Hr Hr0 Hw Hs Hc.
  destruct (segment_spec _ _ _ _ Hr Hr0 Hw Hs) as (_ & Hal & Hle & Hlt & Hae & Hsk & Hsk0 & Hcov & Hb & Hin).
  rewrite as_usize_small in Hc by (unfold is_usize, usize_MAX; lia).
  destruct (copy_segment_spec _ _ _ _ Hsk0 Hc) as (Hl & Hfit & Hbytes). split; [|done].
  destruct Hw as [_ [Ho [Hf _]]].
  split; [split; [done|unfold PAGE in *; dlia]|lia|]. intros x Hx. rewrite Hbytes by lia. f_equal.
  unfold image_byte, in_range. cbn [fst snd].
  replace (x - (p_vaddr ph + relocate)) with (x - s_start seg - s_skipb seg) by lia. set (j := x - s_start seg - s_skipb seg).
  destruct (s_skipb seg <=? x - s_start seg) eqn:E; bool_to_prop.
  - rewrite (proj2 (Z.leb_le 0 j)), Hb by (unfold j; lia). cbn [andb]. destruct (j <? p_filesz ph) eqn:Ej; bool_to_prop.
    + rewrite lookup_take_lt, lookup_drop by lia. do 2 f_equal. unfold j. lia.
    + by rewrite lookup_take_ge by lia.
  - by rewrite (proj2 (Z.leb_gt 0 j)) by (unfold j; lia).
Qed.

End laws.

(** ** Lists *)

Lemma ForallOrdPairs_Forall2 {A B : Type} (R : A → A → Prop) (Q : B → B → Prop) (P : A → B → Prop) l k :
  (∀ a a' b b', P a b → P a' b' → R a a' → Q b b') →
  Forall2 P l k → ForallOrdPairs R l → ForallOrdPairs Q k.
Proof.
  intros HPQ. induction 1 as [|a b l k Hab Hlk IH]; [constructor|]. inversion 1 as [|? ? Ha Hl]; subst.
  constructor; [|auto]. apply Forall_lookup. intros i b' Hb'.
  destruct (Forall2_lookup_r _ _ _ _ _ Hlk Hb') as (a' & Ha' & Hab').
  eapply HPQ; [exact Hab|exact Hab'|]. exact (Forall_lookup_1 _ _ _ _ Ha Ha').
Qed.

Lemma Forall2_compose {A B D : Type} (P : A → B → Prop) (Q : B → D → Prop) (R : A → D → Prop) la lb ld :
  (∀ a b d, P a b → Q b d → R a d) → Forall2 P la lb → Forall2 Q lb ld → Forall2 R la ld.
Proof.
  intros HR HP. revert ld. induction HP as [|a b la lb Hab _ IH]; intros ld HQ.
  - apply Forall2_nil_inv_l in HQ as ->. constructor.
  - apply Forall2_cons_inv_l in HQ as (d & ld' & Hbd & HQ & ->). constructor; eauto.
Qed.

Lemma foldl_max_ge l : ∀ x y, x ≤ y → x ≤ foldl Z.max y l.
Proof. induction l as [|z l IH]; intros x y Hx; cbn; [done|]. apply IH. lia. Qed.

Lemma max_list_ge l x : x ∈ l → x ≤ default 0 (max_list l).
Proof.
  destruct l as [|y l]; [by intros ?%elem_of_nil|]. cbn. revert y. induction l as [|z l IH]; intros y Hx; cbn.
  - apply list_elem_of_singleton in Hx as ->. done.
  - apply elem_of_cons in Hx as [->|[->|Hx]%elem_of_cons].
    + apply foldl_max_ge. lia.
    + apply foldl_max_ge. lia.
    + apply IH. apply elem_of_cons. by right.
Qed.

(** ** Every mapper gets the same regions *)

(** A call of [Mapper::map], without the address of the fresh pages. *)
Record region : Type := mkCall { r_to : Z; r_bytes : list Z; r_flags : Z }.

Definition region_apart (a b : region) : Prop :=
  r_to a + Z.of_nat (length (r_bytes a)) ≤ r_to b ∨ r_to b + Z.of_nat (length (r_bytes b)) ≤ r_to a.

(** A region is the copy of a segment. *)
Definition copy_of (seg : Segment) (r : region) : Prop :=
  r_to r = s_start seg ∧ r_flags r = s_flags seg ∧
  copy_segment (as_usize (s_end seg - s_start seg)) (s_skipb seg) (s_bytes seg) = Return (r_bytes r).

Lemma copies_unique segs rs rs' : Forall2 copy_of segs rs → Forall2 copy_of segs rs' → rs = rs'.
Proof.
  intros Hrs. revert rs'. induction Hrs as [|seg [to bytes flags] segs rs (Q1 & Q2 & Q3) _ IH]; intros rs' Hrs'.
  { by inversion Hrs'. }
  inversion Hrs' as [|? [to' bytes' flags'] ? rs2 (Q4 & Q5 & Q6) Hr]; subst. cbn in *.
  rewrite Q3 in Q6. injection Q6 as ->. f_equal; [congruence|by apply IH].
Qed.

Section mapper.
Context {W C F T O : Type} `{GoblinLaws, !UnstableSort, !Semver, !Config C F, !Mapper W C F T O, !Anonymous W}.

(** The calls for a list of regions, each on fresh pages. *)
Fixpoint mapped (rs : list region) (l : T) (w : W) (l' : T) (w' : W) : Prop :=
  match rs with
  | [] => l' = l ∧ w' = w
  | r :: rs => ∃ addr w1 l2 w2,
      map_bytes (Z.of_nat (length (r_bytes r))) w = (Ok addr, w1) ∧
      mapper_map (mkPages addr (r_bytes r)) (r_to r) (config_flags (r_flags r)) l w1 = Return (Ok l2, w2) ∧
      mapped rs l2 w2 l' w'
  end.

Lemma copy_segment_length n skipb bytes pages :
  copy_segment n skipb bytes = Return pages → 0 ≤ skipb → Z.of_nat (length pages) = n.
Proof. intros Hc Hs. by destruct (copy_segment_spec _ _ _ _ Hs Hc). Qed.

Lemma load_segments_mapped segs : ∀ (l : T) (w : W) l' w',
  Forall (λ seg, 0 ≤ s_skipb seg) segs → load_segments segs l w = Return (Ok l', w') →
  ∃ rs, Forall2 copy_of segs rs ∧ mapped rs l w l' w'.
Proof.
  induction segs as [|seg segs IH]; intros l w l' w' Hsk Eq; cbn [load_segments] in Eq.
  { injection Eq as <- <-. by exists []. }
  apply Forall_cons in Hsk as [Hsk Hsks].
  apply fal_bind_inv in Eq as (l1 & w1 & E1 & Eq). apply IH in Eq as (rs & Hrs & Hm); [|done].
  unfold load_segment in E1. apply fal_bind_inv in E1 as (addr & w2 & E2 & E1).
  apply fal_bind_inv in E1 as (bytes & w3 & E3 & E1).
  unfold on_world in E2. destruct (map_bytes _ w) as [ra wa] eqn:Ea. injection E2 as -> ->.
  unfold must in E3. destruct (copy_segment _ _ _) as [b| | |] eqn:Ec; try discriminate E3. injection E3 as -> ->.
  exists (mkCall (s_start seg) bytes (s_flags seg) :: rs). split; [by constructor|].
  exists addr, w3, l1, w1. cbn [r_to r_bytes r_flags]. by rewrite (copy_segment_length _ _ _ _ Ec Hsk).
Qed.

Lemma map_segment_Forall2 b reloc phs segs :
  map_segment b reloc phs = Return segs → Forall2 (λ ph seg, segment b reloc ph = Return seg) phs segs.
Proof.
  revert segs. induction phs as [|ph phs IH]; intros segs Eq; cbn [map_segment] in Eq; [by injection Eq as <-|].
  destruct (segment b reloc ph) as [seg| | |] eqn:Es; try discriminate Eq. cbn [mbind outcome_bind] in Eq.
  destruct (map_segment b reloc phs) as [rest| | |]; try discriminate Eq. injection Eq as <-. constructor; auto.
Qed.

Lemma segments_Forall2 b reloc segs :
  segments b reloc = Return segs →
  reloc mod PAGE = 0 ∧ Forall2 (λ ph seg, segment b reloc ph = Return seg) (headers b PT_LOAD) segs.
Proof.
  unfold segments. destruct (reloc mod PAGE =? 0) eqn:E; [|done]. cbn [negb]. bool_to_prop. intros Eq.
  split; [done|]. by apply map_segment_Forall2.
Qed.

(** The steps of a load that succeeds. *)
Lemma load_inv shim exec sigs (w : W) (o : O) w' : load shim exec sigs w = Return (Ok o, w') →
  ∃ sbin ebin sh cfg l0 w0 ssegs esegs l1 w1,
    let slot := vm_range sh in
    Binary_new shim = Ok sbin ∧ Binary_new exec = Ok ebin ∧ head (headers sbin elf.EXEC) = Some sh ∧
    fst (Binary_range ebin) = 0 ∧ snd (Binary_range ebin) ≤ as_usize (snd slot - fst slot) ∧
    config_new sbin ebin sigs = Ok cfg ∧ mapper_try_from cfg w = Return (Ok l0, w0) ∧
    segments sbin 0 = Return ssegs ∧ segments ebin (fst slot) = Return esegs ∧
    ForallOrdPairs apart (ssegs ++ esegs) ∧
    load_segments (ssegs ++ esegs) l0 w0 = Return (Ok l1, w1) ∧ mapper_into l1 w1 = Return (Ok o, w').
Proof.
  intros Eq. unfold load in Eq.
  apply fal_bind_inv in Eq as (sbin & ? & E1 & Eq). apply fal_bind_inv in Eq as (ebin & ? & E2 & Eq).
  apply fal_bind_inv in Eq as (slot & ? & E3 & Eq). unfold try in E1, E2, E3.
  injection E1 as E1 <-. injection E2 as E2 <-. injection E3 as E3 <-. cbv zeta in Eq.
  destruct (head (headers sbin elf.EXEC)) as [sh|] eqn:Eh; [|discriminate E3]. injection E3 as <-.
  destruct (negb _ || _) eqn:Ef; [discriminate Eq|]. apply orb_false_iff in Ef as [Ef1 Ef2].
  apply negb_false_iff, Z.eqb_eq in Ef1. apply Z.ltb_ge in Ef2.
  destruct (negb (existsb _ _)); [discriminate Eq|].
  apply fal_bind_inv in Eq as (cfg & ? & E4 & Eq). injection E4 as E4 <-.
  apply fal_bind_inv in Eq as (l0 & w0 & E5 & Eq). apply fal_bind_inv in Eq as (ssegs & w1 & E6 & Eq).
  apply fal_bind_inv in Eq as (esegs & w2 & E7 & Eq). unfold must in E6, E7.
  destruct (segments sbin 0) as [ss| | |] eqn:Es; try discriminate E6. injection E6 as -> <-.
  destruct (segments ebin _) as [es| | |] eqn:Ee; try discriminate E7. injection E7 as -> <-.
  destruct (windows_overlap _) eqn:Ew; [discriminate Eq|]. apply unstable_apart in Ew.
  apply fal_bind_inv in Eq as (l1 & w1' & E8 & Eq).
  exists sbin, ebin, sh, cfg, l0, w0, ssegs, esegs, l1, w1'. by split_and!.
Qed.

(** The headers of all segments, with the file they are in and where it is put. *)
Definition all_headers (sbin ebin : Binary) (slot : Z) : list (Binary * Z * ProgramHeader) :=
  ((λ ph, (sbin, 0, ph)) <$> headers sbin PT_LOAD) ++ ((λ ph, (ebin, slot, ph)) <$> headers ebin PT_LOAD).

Definition placed (h : Binary * Z * ProgramHeader) (r : region) : Prop :=
  let '(b, reloc, ph) := h in
  holds_segment (bin_bytes b) reloc ph (r_to r) (r_bytes r) ∧ r_flags r = p_flags ph.

Definition headers_wf (hs : list (Binary * Z * ProgramHeader)) : Prop :=
  Forall (λ h, 0 ≤ snd (fst h) ∧ header_wf (snd (fst h)) (snd h)) hs.

(** The segment of a header, cut from its file. *)
Definition cut (h : Binary * Z * ProgramHeader) (seg : Segment) : Prop :=
  snd (fst h) mod PAGE = 0 ∧ segment (fst (fst h)) (snd (fst h)) (snd h) = Return seg.

Lemma segments_cut b reloc segs :
  segments b reloc = Return segs → Forall2 cut ((λ ph, (b, reloc, ph)) <$> headers b PT_LOAD) segs.
Proof.
  intros [Hr Hs]%segments_Forall2. apply Forall2_fmap_l. eapply Forall2_impl; [exact Hs|]. by intros ph seg Es.
Qed.

Lemma cut_placed h seg r : 0 ≤ snd (fst h) → header_wf (snd (fst h)) (snd h) → cut h seg → copy_of seg r →
  placed h r ∧ r_to r = s_start seg ∧ r_to r + Z.of_nat (length (r_bytes r)) = s_end seg ∧ 0 ≤ s_skipb seg.
Proof.
  destruct h as [[b reloc] ph]. cbn. intros Hz Hw [Hr Hs] (Ht & Hf & Hc).
  destruct (segment_spec _ _ _ _ Hr Hz Hw Hs) as (Hfl & _ & _ & _ & _ & _ & Hsk & _).
  destruct (segment_holds _ _ _ _ _ Hr Hz Hw Hs Hc) as [Hh Hl].
  rewrite Ht, Hf. split_and!; [done|done|done|lia|done].
Qed.

(** Where a region is, and how long: its segment with at most two partial pages *)
Lemma cut_bounds h seg r : 0 ≤ snd (fst h) → header_wf (snd (fst h)) (snd h) → cut h seg → copy_of seg r →
  0 ≤ r_to r ∧ r_to r mod PAGE = 0 ∧ Z.of_nat (length (r_bytes r)) mod PAGE = 0 ∧
  r_to r + Z.of_nat (length (r_bytes r)) ≤ 2 ^ 64 ∧
  Z.of_nat (length (r_bytes r)) < p_memsz (snd h) + 2 * PAGE.
Proof.
  intros Hz Hw Hcut Hco. destruct (cut_placed _ _ _ Hz Hw Hcut Hco) as (Hp & Ht & He & _).
  destruct h as [[b reloc] ph]. cbn in *. destruct Hp as [[[Ha1 Ha2] _ _] _]. destruct Hcut as [Hr Hs].
  destruct (segment_spec _ _ _ _ Hr Hz Hw Hs) as (_ & Hal & Hle & Hlt & _).
  enough (s_end seg - s_start seg < p_memsz ph + 2 * PAGE) by (split_and!; try done; lia).
  destruct Hw as [[Hv [Hm Hvm]] [Ho [Hf Hof]]]. cbn [fst snd] in Hr, Hs. revert Hs. unfold segment, slice, PAGE in *.
  rewrite gl_vm, gl_file by lia. cbn [fst snd]. destruct (_ && _); [|done]. intros [= <-]. cbn [s_start s_end].
  rewrite !as_usize_small by (unfold is_usize, usize_MAX; lia). dlia.
Qed.

Lemma cut_skipb hs segs : headers_wf hs → Forall2 cut hs segs → Forall (λ seg, 0 ≤ s_skipb seg) segs.
Proof.
  intros Hw Hc. apply Forall_lookup. intros i seg Hseg.
  destruct (Forall2_lookup_r _ _ _ _ _ Hc Hseg) as ([[b reloc] ph] & Hh & Hr & Hs).
  destruct (Forall_lookup_1 _ _ _ _ Hw Hh) as [Hz Hwf]. cbn in *.
  by destruct (segment_spec _ _ _ _ Hr Hz Hwf Hs) as (_ & _ & _ & _ & _ & _ & Hsk & _).
Qed.

Lemma copies_placed hs segs rs : headers_wf hs → Forall2 cut hs segs → Forall2 copy_of segs rs →
  Forall2 placed hs rs ∧ (ForallOrdPairs apart segs → ForallOrdPairs region_apart rs).
Proof.
  intros Hw Hc Hr.
  assert (Hcut : Forall2 (λ seg r, copy_of seg r ∧ r_to r = s_start seg ∧
    r_to r + Z.of_nat (length (r_bytes r)) = s_end seg) segs rs).
  { apply Forall2_same_length_lookup. split; [by eapply Forall2_length|]. intros i seg r Hseg Hri.
    pose proof (Forall2_lookup_lr _ _ _ _ _ _ Hr Hseg Hri) as Hco.
    destruct (Forall2_lookup_r _ _ _ _ _ Hc Hseg) as (h & Hh & Hcu).
    destruct (Forall_lookup_1 _ _ _ _ Hw Hh) as [Hz Hwf].
    by destruct (cut_placed _ _ _ Hz Hwf Hcu Hco) as (_ & ? & ? & _). }
  split.
  - apply Forall2_same_length_lookup. split; [by rewrite (Forall2_length _ _ _ Hc), (Forall2_length _ _ _ Hr)|].
    intros i h r Hh Hri. destruct (Forall2_lookup_l _ _ _ _ _ Hc Hh) as (seg & Hseg & Hcu).
    destruct (Forall_lookup_1 _ _ _ _ Hw Hh) as [Hz Hwf].
    apply (cut_placed _ _ _ Hz Hwf Hcu (Forall2_lookup_lr _ _ _ _ _ _ Hr Hseg Hri)).
  - refine (ForallOrdPairs_Forall2 _ _ _ _ _ _ Hcut).
    intros a a' b b' (_ & Q1 & Q2) (_ & Q3 & Q4). unfold apart, region_apart. lia.
Qed.

(** The executable is inside its slot. *)
Lemma range_inside ebin n : fst (Binary_range ebin) = 0 → snd (Binary_range ebin) ≤ n →
  Forall (λ ph, snd (vm_range ph) ≤ n) (headers ebin PT_LOAD).
Proof.
  intros _ Hn. apply Forall_forall. intros ph Hph. etransitivity; [|exact Hn]. apply max_list_ge.
  apply list_elem_of_fmap. by exists ph.
Qed.

(** The regions of a load that succeeds: the same for every mapper. *)
Lemma load_regions shim exec sigs (w : W) (o : O) w' sbin ebin sh :
  load shim exec sigs w = Return (Ok o, w') →
  Binary_new shim = Ok sbin → Binary_new exec = Ok ebin → head (headers sbin elf.EXEC) = Some sh →
  header_wf 0 sh → headers_wf (all_headers sbin ebin (p_vaddr sh)) →
  ∃ cfg l0 w0 ss es rs l1 w1,
    config_new sbin ebin sigs = Ok cfg ∧ mapper_try_from cfg w = Return (Ok l0, w0) ∧
    mapped rs l0 w0 l1 w1 ∧ mapper_into l1 w1 = Return (Ok o, w') ∧
    segments sbin 0 = Return ss ∧ segments ebin (p_vaddr sh) = Return es ∧
    Forall2 cut (all_headers sbin ebin (p_vaddr sh)) (ss ++ es) ∧ Forall2 copy_of (ss ++ es) rs ∧
    ForallOrdPairs apart (ss ++ es) ∧ fst (Binary_range ebin) = 0 ∧ snd (Binary_range ebin) ≤ p_memsz sh.
Proof.
  intros Eq Hs He Hh Hsh Hw.
  destruct (load_inv _ _ _ _ _ _ Eq) as (sb & eb & sh' & cfg & l0 & w0 & ss & es & l1 & w1 &
    E1 & E2 & E3 & Ef & Ee & Ec & El & Ess & Ees & Ha & Em & Ei).
  rewrite Hs in E1. injection E1 as <-. rewrite He in E2. injection E2 as <-. rewrite Hh in E3. injection E3 as <-.
  assert (Hp : p_vaddr sh + p_memsz sh < 2 ^ 64) by (destruct Hsh as [[? [? ?]] _]; unfold PAGE in *; lia).
  rewrite (gl_vm sh Hp) in Ee, Ees. cbn [fst snd] in Ee, Ees.
  destruct Hsh as [[Hv [Hms Hsz]] _]. rewrite as_usize_small in Ee by (unfold is_usize, usize_MAX, PAGE in *; lia).
  assert (Hcut : Forall2 cut (all_headers sbin ebin (p_vaddr sh)) (ss ++ es)).
  { apply Forall2_app; by apply segments_cut. }
  destruct (load_segments_mapped _ _ _ _ _ (cut_skipb _ _ Hw Hcut) Em) as (rs & Hrs & Hm).
  exists cfg, l0, w0, ss, es, rs, l1, w1. split_and!; try done. lia.
Qed.

(** C9: what loading does, for every mapper.  When [load] succeeds, the mapper that
    was made from the configuration got one region per loadable segment of the
    shim and of the executable, in order, before the keep was made from it.  Each
    region is whole pages that hold the bytes of the file at the addresses of the
    segment, moved by the start of the slot for the executable, and zeros
    elsewhere, with the flags of the segment; no two regions overlap; and the
    executable is inside its slot. *)
Theorem load_exact shim exec sigs (w : W) (o : O) w' sbin ebin sh :
  load shim exec sigs w = Return (Ok o, w') →
  Binary_new shim = Ok sbin → Binary_new exec = Ok ebin → head (headers sbin elf.EXEC) = Some sh →
  header_wf 0 sh → headers_wf (all_headers sbin ebin (p_vaddr sh)) →
  ∃ cfg l0 w0 rs l1 w1,
    config_new sbin ebin sigs = Ok cfg ∧ mapper_try_from cfg w = Return (Ok l0, w0) ∧
    mapped rs l0 w0 l1 w1 ∧ mapper_into l1 w1 = Return (Ok o, w') ∧
    Forall2 placed (all_headers sbin ebin (p_vaddr sh)) rs ∧ ForallOrdPairs region_apart rs ∧
    Forall (λ ph, p_vaddr ph + p_memsz ph ≤ p_memsz sh) (headers ebin PT_LOAD).
Proof.
  intros Eq Hs He Hh Hsh Hw.
  destruct (load_regions _ _ _ _ _ _ _ _ _ Eq Hs He Hh Hsh Hw) as (cfg & l0 & w0 & ss & es & rs & l1 & w1 &
    Ec & El & Hm & Ei & _ & _ & Hcut & Hrs & Ha & Ef & Ee).
  destruct (copies_placed _ _ _ Hw Hcut Hrs) as [Hpl Hap].
  exists cfg, l0, w0, rs, l1, w1. split_and!; try done; [by apply Hap|].
  apply Forall_app in Hw as [_ Hwe]. rewrite Forall_fmap in Hwe.
  pose proof (range_inside _ _ Ef Ee) as Hin. apply Forall_forall. intros ph Hph.
  rewrite Forall_forall in Hin, Hwe. specialize (Hin _ Hph). destruct (Hwe _ Hph) as [_ [[Q1 [Q2 Q3]] _]].
  destruct Hsh as [[Hv [Hms Hsz]] _].
  cbn in Q3. rewrite gl_vm in Hin by (unfold PAGE in *; lia). cbn in Hin. lia.
Qed.

End mapper.
