(* ===== verification/SnpLoad.v ===== *)
(** * Launching and measuring a keep on SEV-SNP

    [src/backend/sev/{builder,hasher,cpuid_page}.rs] and
    [src/backend/sev/snp/launch/{mod,linux}.rs], with the builder of plain KVM
    keeps ([src/backend/kvm/builder.rs]) as a mapper.  The kernel with the firmware
    behind it is a parameter ([SnpKernel]), and so is SHA-384. *)

From S2P Require Import Prelude Memory Libc PhaseAlloc Items Host HostLaws Backend KvmHost Loader LoaderLaws.

Class Sha384 := sha384 : list Z → list Z.

(** ** [launch/mod.rs] *)

Inductive PageType : Type := Normal | Vmsa | Zero | Unmeasured | Secrets | Cpuid.
#[global] Instance PageType_eq_dec : EqDecision PageType.
Proof. solve_decision. Defined.

Definition PageType_u8 (t : PageType) : Z :=
  match t with Normal => 1 | Vmsa => 2 | Zero => 3 | Unmeasured => 4 | Secrets => 5 | Cpuid => 6 end.

Record PageInfo : Type := mkPageInfo {
  digest_cur : list Z; contents : list Z; pi_length : Z; page_type : Z; imi_page : Z;
  vmpl3_perms : Z; vmpl2_perms : Z; vmpl1_perms : Z; rsvd : Z; gpa : Z;
}.

(** [as_bytes] of the [repr(C)] structure *)
Definition PageInfo_as_bytes (p : PageInfo) : list Z :=
  digest_cur p ++ contents p ++ to_le_bytes 2 (pi_length p) ++
  [page_type p; imi_page p; vmpl3_perms p; vmpl2_perms p; vmpl1_perms p; rsvd p] ++ to_le_bytes 8 (gpa p).

(** [PageInfo { digest_cur, contents, page_type, gpa, ..Default::default() }] *)
Definition PageInfo_new (digest contents : list Z) (t : PageType) (gpa : Z) : PageInfo :=
  mkPageInfo digest contents 112 (PageType_u8 t) 0 0 0 0 0 gpa.

Record IdBlock : Type := mkIdBlock {
  launch_digest : list Z; family_id : list Z; image_id : list Z; id_version : Z; guest_svn : Z; policy : Z;
}.
Definition IdBlock_as_bytes (b : IdBlock) : list Z :=
  launch_digest b ++ family_id b ++ image_id b ++ to_le_bytes 4 (id_version b) ++ to_le_bytes 4 (guest_svn b) ++
  to_le_bytes 8 (policy b).
Definition IdBlock_SIZE : Z := 96.
Definition IdAuth_SIZE : Z := 4096.

Definition id_block_from_digest (config : SevConfig) (digest : list Z) : IdBlock :=
  let p := sc_parameters config in
  mkIdBlock digest (sp_family_id p) (sp_image_id p) 1 (sp_guest_svn p) (sp_policy p).

(** What the ioctls get ([launch/linux.rs]). *)
Record LaunchStart : Type := mkLaunchStart { ls_policy : Z; ma_uaddr : Z; ma_en : Z; ls_imi_en : Z; gosvw : list Z }.
Record LaunchUpdate : Type := mkLaunchUpdate {
  start_gfn : Z; uaddr : Z; lu_len : Z; lu_imi_page : Z; lu_page_type : Z; lu_vmpl3 : Z; lu_vmpl2 : Z; lu_vmpl1 : Z;
}.
Record LaunchFinish : Type := mkLaunchFinish {
  id_block_n_auth : option (list Z * list Z); id_block_en : Z; auth_key_en : Z; host_data : list Z;
}.

(** [LaunchUpdate::from(Update::new(..))], for an update without permissions *)
Definition LaunchUpdate_from (gfn : Z) (pages : Pages) (t : PageType) : LaunchUpdate :=
  mkLaunchUpdate gfn (pg_addr pages) (as_u32 (Z.of_nat (length (pg_bytes pages)))) 0 (PageType_u8 t) 0 0 0.

(** ** [hasher.rs] *)

(** [pages.chunks(n)] *)
Fixpoint chunks (fuel : nat) (n : nat) (bytes : list Z) : list (list Z) :=
  match fuel with
  | O => []
  | S fuel => match bytes with [] => [] | _ => take n bytes :: chunks fuel n (drop n bytes) end
  end.
Definition page_chunks (bytes : list Z) : list (list Z) := chunks (length bytes) (Z.to_nat PAGE) bytes.

Definition SEV_SNP_VMSA_SHA384 : list Z :=
  [242; 150; 129; 234; 78; 108; 210; 8; 181; 220; 115; 97; 177; 151; 18; 182; 194; 113; 247; 187;
   250; 103; 79; 153; 66; 190; 175; 127; 71; 49; 98; 212; 142; 95; 100; 3; 17; 10; 72; 80; 61; 36;
   68; 55; 240; 160; 163; 53].

Section hasher.
Context `{Sha384}.

(** [dst.copy_from_slice(digest)] for 48 bytes *)
Definition digest48 (d : list Z) : outcome (list Z) :=
  if Z.of_nat (length d) =? 48 then Return d else Panicked.

Record Hasher : Type := mkHasher { h_config : SevConfig; h_digest : list Z }.

Definition update (t : PageType) (to : Z) (src : option (list Z)) (self : Hasher) : outcome Hasher :=
  contents ← (match src with
              | None => Return (repeat 0 48)
              | Some src =>
                  if Z.of_nat (length src) =? PAGE then digest48 (sha384 src) else Panicked
              end);
  d ← digest48 (sha384 (PageInfo_as_bytes (PageInfo_new (h_digest self) contents t to)));
  Return (mkHasher (h_config self) d).

Definition update_finish (self : Hasher) : outcome Hasher :=
  d ← digest48 (sha384 (PageInfo_as_bytes
         (PageInfo_new (h_digest self) SEV_SNP_VMSA_SHA384 Vmsa 0xFFFFFFFFF000)));
  Return (mkHasher (h_config self) d).

(** [for (i, page) in pages.chunks(Page::SIZE).enumerate()] *)
Fixpoint hash_pages (pages : list (list Z)) (to i : Z) (self : Hasher) : outcome Hasher :=
  match pages with
  | [] => Return self
  | page :: pages =>
      self ← update Normal (as_usize (to + i * PAGE)) (Some page) self;
      hash_pages pages to (i + 1) self
  end.

Definition hash (pages : list Z) (to with_ : Z) (self : Hasher) : outcome Hasher :=
  if bool_decide (pages = []) then Return self
  else if negb (Z.land with_ elf.CPUID =? 0) then
    if Z.of_nat (length pages) =? PAGE then update Cpuid to None self else Panicked
  else if negb (Z.land with_ elf.SECRETS =? 0) then
    if Z.of_nat (length pages) =? PAGE then update Secrets to None self else Panicked
  else hash_pages (page_chunks pages) to 0 self.

Definition Hasher_into (self : Hasher) : outcome (list Z) :=
  self ← update_finish self;
  Return (IdBlock_as_bytes (id_block_from_digest (h_config self) (h_digest self))).

#[global] Instance hasher_mapper {W : Type} : Mapper W SevConfig Z Hasher (list Z) := {|
  mapper_try_from config := mret (mkHasher config (repeat 0 48));
  mapper_map pages to with_ self := must (hash (pg_bytes pages) to with_ self);
  mapper_into self := must (Hasher_into self);
|}.

End hasher.

(** ** [cpuid_page.rs] *)

Definition CPUID_COUNT_MAX : Z := 64.
Definition KVM_CPUID_FLAG_SIGNIFCANT_INDEX : Z := 1.

(** [kvm_cpuid_entry2] *)
Record KvmCpuidEntry : Type := mkKvmCpuidEntry {
  ke_function : Z; ke_index : Z; ke_flags : Z; ke_eax : Z; ke_ebx : Z; ke_ecx : Z; ke_edx : Z;
}.

(** [CpuidFunctionEntry]; its [xcr0_in], [xss_in] and [reserved] are zero. *)
Record CpuidEntry : Type := mkCpuidEntry {
  ce_eax_in : Z; ce_ecx_in : Z; ce_eax : Z; ce_ebx : Z; ce_ecx : Z; ce_edx : Z;
}.

Definition CpuidEntry_bytes (e : CpuidEntry) : list Z :=
  to_le_bytes 4 (ce_eax_in e) ++ to_le_bytes 4 (ce_ecx_in e) ++ repeat 0 16 ++
  to_le_bytes 4 (ce_eax e) ++ to_le_bytes 4 (ce_ebx e) ++ to_le_bytes 4 (ce_ecx e) ++ to_le_bytes 4 (ce_edx e) ++
  repeat 0 8.

(** [CpuidPage]: the entries up to [count]; what follows them is zero. *)
Definition CpuidPage_bytes (functions : list CpuidEntry) : list Z :=
  to_le_bytes 4 (Z.of_nat (length functions)) ++ repeat 0 12 ++ concat (CpuidEntry_bytes <$> functions) ++
  repeat 0 (4080 - 48 * length functions).

Definition add_entry (functions : list CpuidEntry) (e : CpuidEntry) : option (list CpuidEntry) :=
  if CPUID_COUNT_MAX <=? Z.of_nat (length functions) then None else Some (functions ++ [e]).

Definition cpuid_in_range (function : Z) : bool :=
  in_range (0, 0xFFFF) function || in_range (0x80000000, 0x8000FFFF) function.

(** The entry for the page, with the size of the save area that firmware expects. *)
Definition snp_cpuid_entry (k : KvmCpuidEntry) : CpuidEntry :=
  let ecx_in := if negb (Z.land (ke_flags k) KVM_CPUID_FLAG_SIGNIFCANT_INDEX =? 0) then ke_index k else 0 in
  let ebx := if (ke_function k =? 0xD) && ((ecx_in =? 0) || (ecx_in =? 1)) then 0x240 else ke_ebx k in
  mkCpuidEntry (ke_function k) ecx_in (ke_eax k) ebx (ke_ecx k) (ke_edx k).

Fixpoint import_entries (entries : list KvmCpuidEntry) (functions : list CpuidEntry) : option (list CpuidEntry) :=
  match entries with
  | [] => Some functions
  | k :: entries =>
      if (ke_function k =? 0) && (ke_index k =? 0) && (0 <? Z.of_nat (length functions)) then Some functions
      else if ke_function k =? 0xFFFFFFFF then Some functions
      else if negb (cpuid_in_range (ke_function k)) then import_entries entries functions
      else functions ← add_entry functions (snp_cpuid_entry k); import_entries entries functions
  end.

(** ** [builder.rs] *)

(** The ioctls of KVM for SNP guests.  [snp_launch_update] gets the bytes at the
    address and returns what they are afterwards. *)
Class SnpKernel (K : Type) := {
  kvm_new : K → result unit * K;
  create_vm : K → result unit * K;
  firmware_open : K → result unit * K;
  snp_init : K → result unit * K;
  snp_launch_start : LaunchStart → K → result unit * K;
  register_enc_memory_region : Z → Z → K → result unit * K;
  snp_launch_update : LaunchUpdate → list Z → K → result unit * list Z * K;
  snp_launch_finish : LaunchFinish → K → result unit * K;
  get_supported_cpuid : K → result (list KvmCpuidEntry) * K;
}.

Definition SEV_RETRIES : nat := 3.

(** [retry]: sleeping between two attempts is left out. *)
Fixpoint retry_loop {K A : Type} (retries : nat) (f : fal K A) : fal K A := λ k,
  match f k with
  | Return (Err e, k) => match retries with O => Return (Err e, k) | S retries => retry_loop retries f k end
  | other => other
  end.
Definition retry {K A : Type} (f : fal K A) : fal K A := retry_loop SEV_RETRIES f.

#[global] Instance kvm_anonymous {K : Type} `{KvmEnv K} : Anonymous K :=
  λ n k, let '(r, k) := map_anonymous n k in (raw_os_error (-1) r, k).

Section builder.
Context {K : Type} `{KvmEnv K, !SnpKernel K}.

(** [Launcher::update_data], with the bytes of the pages afterwards: the firmware
    may change them, also when it refuses them. *)
Definition update_data (u : LaunchUpdate) (pages : Pages) (k : K) : result unit * list Z * K :=
  match register_enc_memory_region (pg_addr pages) (Z.of_nat (length (pg_bytes pages))) k with
  | (Err e, k) => (Err e, pg_bytes pages, k)
  | (Ok _, k) => snp_launch_update u (pg_bytes pages) k
  end.

(** One update; what the pages hold afterwards is not used. *)
Definition update_once (u : LaunchUpdate) (pages : Pages) : fal K unit := λ k,
  let '(r, _, k) := update_data u pages k in Return (r, k).

(** An update that is tried again with what the firmware left in the pages. *)
Definition update_twice (u : LaunchUpdate) (pages : Pages) : fal K unit := λ k,
  match update_data u pages k with
  | (Ok _, _, k) => Return (Ok (), k)
  | (Err _, bytes, k) => update_once u (mkPages (pg_addr pages) bytes) k
  end.

Record SevBuilder : Type := mkSevBuilder { sb_config : SevConfig; sb_builder : Builder }.

Definition open_launcher : fal K unit :=
  retry (_ ← on_world kvm_new; _ ← on_world create_vm; _ ← retry (on_world firmware_open); on_world snp_init).

Definition SevBuilder_try_from (config : SevConfig) : fal K SevBuilder :=
  _ ← open_launcher;
  _ ← on_world (snp_launch_start (mkLaunchStart (sp_policy (sc_parameters config)) 0 0 0 (repeat 0 16)));
  mret (mkSevBuilder config (mkBuilder [] [])).

Definition SevBuilder_map (pages : Pages) (to with_ : Z) (self : SevBuilder) : fal K SevBuilder :=
  let size := Z.of_nat (length (pg_bytes pages)) in
  if size =? 0 then mret self
  else
    let b := sb_builder self in
    '(mem_region, ports) ← (kvm_builder_map (sc_block_size (sb_config self)) (bd_sallyports b) (pg_addr pages) size
        to with_ (as_u32 (Z.of_nat (length (bd_regions b)))) : fal K _);
    let gfn := Z.shiftr to 12 in
    _ ← (if negb (Z.land with_ elf.CPUID =? 0) then
           if negb (size =? PAGE) then must Panicked
           else
             entries ← on_world get_supported_cpuid;
             functions ← try (ok_or (import_entries entries []) (-1));
             let pages := mkPages (pg_addr pages) (CpuidPage_bytes functions) in
             update_twice (LaunchUpdate_from gfn pages Cpuid) pages
         else if negb (Z.land with_ elf.SECRETS =? 0) then
           if negb (size =? PAGE) then must Panicked
           else update_once (LaunchUpdate_from gfn pages Secrets) pages
         else update_once (LaunchUpdate_from gfn pages Normal) pages);
    mret (mkSevBuilder (sb_config self) (mkBuilder (bd_regions b ++ [mem_region]) ports)).

(** [Finish::new] and [LaunchFinish::from] *)
Definition finish_of (signatures : option Signatures) : result LaunchFinish :=
  match signatures with
  | None => Ok (mkLaunchFinish None 0 0 (repeat 0 32))
  | Some sig =>
      if negb (Z.of_nat (length (sig_id_auth sig)) =? IdAuth_SIZE) then Err (-1)
      else if negb (Z.of_nat (length (sig_id_block sig)) =? IdBlock_SIZE) then Err (-1)
      else Ok (mkLaunchFinish (Some (sig_id_block sig, sig_id_auth sig)) 1 1 (repeat 0 32))
  end.

Definition SevBuilder_into (self : SevBuilder) : fal K Keep :=
  let b := sb_builder self in
  vcpu_fd ← on_world (kvm_try_from_builder (bd_sallyports b));
  finish ← try (finish_of (sc_signatures (sb_config self)));
  _ ← on_world (snp_launch_finish finish);
  mret (mkKeep [vcpu_fd] (sc_block_size (sb_config self)) (bd_sallyports b) (bd_regions b)).

#[global] Instance sev_mapper : Mapper K SevConfig Z SevBuilder Keep := {|
  mapper_try_from := SevBuilder_try_from;
  mapper_map := SevBuilder_map;
  mapper_into := SevBuilder_into;
|}.

(** The builder of plain KVM keeps *)
Record KvmBuilder : Type := mkKvmBuilder { kb_config : KvmConfig; kb_builder : Builder }.

#[global] Instance kvm_mapper : Mapper K KvmConfig Z KvmBuilder Keep := {|
  mapper_try_from config :=
    _ ← on_world kvm_new; _ ← on_world create_vm; mret (mkKvmBuilder config (mkBuilder [] []));
  mapper_map pages to with_ self :=
    b ← (Builder_map (kc_block_size (kb_config self)) (kb_builder self) (pg_addr pages)
           (Z.of_nat (length (pg_bytes pages))) to with_ : fal K _);
    mret (mkKvmBuilder (kb_config self) b);
  mapper_into self := on_world (Keep_try_from (kc_block_size (kb_config self)) (kb_builder self));
|}.

End builder.
