(* ===== verification/SnpLoadLaws.v ===== *)
(** * The measurement of a keep on SEV-SNP, and its CPUID page

    [Hasher] computes the digest that is signed; the firmware computes the digest
    of the keep that [Builder] launches.  The firmware is specified by
    [SnpLaws], after the SNP firmware ABI (SNP_LAUNCH_UPDATE, PAGE_INFO). *)

From S2P Require Import Prelude Memory Libc PhaseAlloc Items Host HostLaws Backend KvmHost Loader LoaderLaws SnpLoad.

(** ** What the firmware measures *)

Section spec.
Context `{Sha384}.

(** PAGE_INFO of a page of an update *)
Definition fw_page_info (u : LaunchUpdate) (digest contents : list Z) (gpa : Z) : list Z :=
  digest ++ contents ++ to_le_bytes 2 0x70 ++
  [lu_page_type u; lu_imi_page u; lu_vmpl3 u; lu_vmpl2 u; lu_vmpl1 u; 0] ++ to_le_bytes 8 gpa.

(** Only normal pages and the VMSA are measured with their contents. *)
Definition fw_contents (type : Z) (page : list Z) : list Z :=
  if (type =? 1) || (type =? 2) then sha384 page else repeat 0 48.

Fixpoint fw_pages (u : LaunchUpdate) (gpa : Z) (pages : list (list Z)) (digest : list Z) : list Z :=
  match pages with
  | [] => digest
  | page :: pages =>
      fw_pages u (gpa + PAGE) pages (sha384 (fw_page_info u digest (fw_contents (lu_page_type u) page) gpa))
  end.

Definition fw_update (u : LaunchUpdate) (bytes digest : list Z) : list Z :=
  fw_pages u (start_gfn u * PAGE) (page_chunks (take (Z.to_nat (lu_len u)) bytes)) digest.

End spec.

(** The launch digest of the guest in the firmware.  Only the launch commands
    change it; a command that is refused does not.  [vmsa] is the save area the
    kernel adds at the end of the launch, whose digest the sources contain. *)
Class SnpLaws (K : Type) `{KvmEnv K, !SnpKernel K, !Sha384} := {
  fw_digest : K → list Z;
  vmsa : list Z;
  sl_sha384 : ∀ bytes, length (sha384 bytes) = 48%nat;
  sl_vmsa : sha384 vmsa = SEV_SNP_VMSA_SHA384;
  sl_start : ∀ s k k', snp_launch_start s k = (Ok (), k') → fw_digest k' = repeat 0 48;
  sl_update : ∀ u bytes k bytes' k',
    snp_launch_update u bytes k = (Ok (), bytes', k') → fw_digest k' = fw_update u bytes (fw_digest k);
  sl_refused : ∀ u bytes k e bytes' k',
    snp_launch_update u bytes k = (Err e, bytes', k') → fw_digest k' = fw_digest k ∧ length bytes' = length bytes;
  sl_finish : ∀ f k k', snp_launch_finish f k = (Ok (), k') →
    fw_digest k' = sha384 (fw_page_info (mkLaunchUpdate 0 0 0 0 2 0 0 0) (fw_digest k) (sha384 vmsa) 0xFFFFFFFFF000);
  sl_register : ∀ a n k, fw_digest (snd (register_enc_memory_region a n k)) = fw_digest k;
  sl_cpuid : ∀ k, fw_digest (snd (get_supported_cpuid k)) = fw_digest k;
  sl_anonymous : ∀ n k, fw_digest (snd (map_anonymous n k)) = fw_digest k;
  sl_memory : ∀ r k, fw_digest (snd (set_user_memory_region r k)) = fw_digest k;
  sl_vcpu : ∀ k, fw_digest (snd (create_vcpu k)) = fw_digest k;
}.

(** ** One region *)

Section region.
Context `{Sha384}.

(** The update that one call of [map] stands for *)
Definition region_type (with_ : Z) : PageType :=
  if negb (Z.land with_ elf.CPUID =? 0) then Cpuid
  else if negb (Z.land with_ elf.SECRETS =? 0) then Secrets else Normal.

Definition measure (to with_ : Z) (bytes digest : list Z) : list Z :=
  fw_pages (mkLaunchUpdate 0 0 0 0 (PageType_u8 (region_type with_)) 0 0 0) to (page_chunks bytes) digest.

(** The header is all that [fw_pages] uses of an update. *)
Lemma fw_pages_header u v pages : ∀ gpa d,
  (lu_page_type u, lu_imi_page u, lu_vmpl3 u, lu_vmpl2 u, lu_vmpl1 u) =
  (lu_page_type v, lu_imi_page v, lu_vmpl3 v, lu_vmpl2 v, lu_vmpl1 v) →
  fw_pages u gpa pages d = fw_pages v gpa pages d.
Proof.
  induction pages as [|p pages IH]; intros gpa d E; [done|]. cbn [fw_pages]. rewrite (IH _ _ E).
  unfold fw_page_info. by injection E as -> -> -> -> ->.
Qed.

Lemma chunks_nil fuel n : chunks fuel n [] = [].
Proof. by destruct fuel. Qed.

Lemma page_chunks_one bytes : Z.of_nat (length bytes) = PAGE → page_chunks bytes = [bytes].
Proof.
  intros Hl. unfold page_chunks. assert (Hn : length bytes = Z.to_nat PAGE) by lia.
  destruct bytes as [|b bytes]; [done|]. cbn [length chunks]. cbn [length] in Hn.
  by rewrite take_ge, drop_ge, chunks_nil by (cbn [length]; lia).
Qed.

Lemma update_digest t to src self self' : update t to src self = Return self' →
  h_config self' = h_config self ∧
  h_digest self' = sha384 (fw_page_info (mkLaunchUpdate 0 0 0 0 (PageType_u8 t) 0 0 0) (h_digest self)
    (match src with Some page => sha384 page | None => repeat 0 48 end) to).
Proof.
  unfold update, digest48. intros Eq. destruct src as [src|].
  - destruct (_ =? PAGE); [|discriminate Eq]. destruct (Z.of_nat (length (sha384 src)) =? 48); [|discriminate Eq].
    cbn [mbind outcome_bind] in Eq. destruct (_ =? 48); [|discriminate Eq]. by injection Eq as <-.
  - cbn [mbind outcome_bind] in Eq. destruct (_ =? 48); [|discriminate Eq]. by injection Eq as <-.
Qed.

Lemma hash_pages_digest pages to : ∀ i self self',
  0 ≤ to → 0 ≤ i → to + (i + Z.of_nat (length pages)) * PAGE ≤ 2 ^ 64 →
  hash_pages pages to i self = Return self' →
  h_config self' = h_config self ∧
  h_digest self' = fw_pages (mkLaunchUpdate 0 0 0 0 (PageType_u8 Normal) 0 0 0) (to + i * PAGE) pages (h_digest self).
Proof.
  induction pages as [|p pages IH]; intros i self self' Ht Hi Hb Eq; cbn [hash_pages] in Eq; [by injection Eq as <-|].
  destruct (update _ _ _ self) as [s1| | |] eqn:E1; try discriminate Eq. cbn [mbind outcome_bind] in Eq.
  cbn [length] in Hb. rewrite as_usize_small in E1 by (unfold is_usize, usize_MAX, PAGE in *; lia).
  apply update_digest in E1 as [Hc Hd].
  destruct (IH (i + 1) s1 self') as [Hc' Hd']; [lia|lia|lia|done|].
  split; [congruence|]. rewrite Hd', Hd. cbn [fw_pages]. f_equal. unfold PAGE. lia.
Qed.

Lemma chunks_length n fuel : ∀ bytes, (0 < n)%nat → (length (chunks fuel n bytes) * n < length bytes + n)%nat.
Proof.
  induction fuel as [|fuel IH]; intros bytes Hn; cbn [chunks length]; [lia|].
  destruct bytes as [|b bytes]; cbn [length]; [lia|].
  specialize (IH (drop n (b :: bytes)) Hn). rewrite length_drop in IH. cbn [length] in IH.
  destruct (decide (n ≤ S (length bytes))%nat); [lia|].
  rewrite drop_ge, chunks_nil by (cbn [length]; lia). cbn [length]. lia.
Qed.

(** [hash] of a region that does not leave the address space *)
Lemma hash_digest bytes to with_ self self' :
  0 ≤ to → to + Z.of_nat (length bytes) ≤ 2 ^ 64 → Z.of_nat (length bytes) mod PAGE = 0 →
  hash bytes to with_ self = Return self' →
  h_config self' = h_config self ∧ h_digest self' = measure to with_ bytes (h_digest self).
Proof.
  intros Ht Hb Hm. unfold hash, measure, region_type. case_bool_decide as Hn; [intros [= <-]; by subst|].
  destruct (negb (Z.land with_ elf.CPUID =? 0)); [|destruct (negb (Z.land with_ elf.SECRETS =? 0))].
  1,2: destruct (_ =? PAGE) eqn:El; [|done]; bool_to_prop; rewrite page_chunks_one by done; apply update_digest.
  intros Eq. apply hash_pages_digest in Eq as [Hc Hd]; [|lia|lia|].
  - by replace (to + 0 * PAGE) with to in Hd by lia.
  - assert (Q := chunks_length (Z.to_nat PAGE) (length bytes) bytes ltac:(unfold PAGE; lia)).
    apply inj_lt in Q. rewrite Nat2Z.inj_mul, Nat2Z.inj_add, Z2Nat.id in Q by (unfold PAGE; lia).
    unfold page_chunks. unfold PAGE in *. dlia.
Qed.

End region.

(** ** The CPUID page *)

Lemma import_entries_length entries : ∀ functions functions',
  (length functions ≤ 64)%nat → import_entries entries functions = Some functions' → (length functions' ≤ 64)%nat.
Proof.
  induction entries as [|k entries IH]; intros functions functions' Hl Eq; cbn [import_entries] in Eq;
    [by injection Eq as <-|].
  destruct (_ && _ && _); [by injection Eq as <-|]. destruct (_ =? _); [by injection Eq as <-|].
  destruct (negb _); [by eapply IH|]. unfold add_entry, CPUID_COUNT_MAX in Eq.
  destruct (64 <=? _) eqn:E; [discriminate Eq|]. bool_to_prop. cbn [mbind option_bind] in Eq.
  refine (IH _ _ _ Eq). rewrite length_app. cbn [length]. lia.
Qed.

Lemma CpuidEntry_bytes_length e : length (CpuidEntry_bytes e) = 48%nat.
Proof. unfold CpuidEntry_bytes. by rewrite !length_app, !length_to_le_bytes, !repeat_length. Qed.

Lemma concat_CpuidEntry_length functions :
  length (concat (CpuidEntry_bytes <$> functions)) = (48 * length functions)%nat.
Proof.
  induction functions as [|e functions IH]; [done|]. rewrite fmap_cons. cbn [concat length].
  rewrite length_app, CpuidEntry_bytes_length, IH. lia.
Qed.

Lemma CpuidPage_bytes_length functions :
  (length functions ≤ 64)%nat → Z.of_nat (length (CpuidPage_bytes functions)) = PAGE.
Proof.
  intros Hl. unfold CpuidPage_bytes.
  rewrite !length_app, length_to_le_bytes, !repeat_length, concat_CpuidEntry_length. unfold PAGE. lia.
Qed.

(** ** The builder *)

Section builder.
Context {K : Type} `{SnpLaws K}.

Lemma on_world_ok {W A : Type} (f : W → result A * W) w a w' :
  on_world f w = Return (Ok a, w') → f w = (Ok a, w').
Proof. unfold on_world. destruct (f w) as [r w1]. by intros [= -> ->]. Qed.

Lemma update_data_digest u pages k r bytes k' : update_data u pages k = (r, bytes, k') →
  match r with
  | Ok _ => fw_digest k' = fw_update u (pg_bytes pages) (fw_digest k)
  | Err _ => fw_digest k' = fw_digest k ∧ length bytes = length (pg_bytes pages)
  end.
Proof.
  unfold update_data. pose proof (sl_register (pg_addr pages) (Z.of_nat (length (pg_bytes pages))) k) as Hr.
  destruct (register_enc_memory_region _ _ k) as [[[]|e] k1]; cbn [snd] in Hr; rewrite <- Hr; [|by intros [= <- <- <-]].
  destruct r as [[]|e]; intros Eq; [by eapply sl_update|by eapply sl_refused].
Qed.

Lemma update_once_digest u pages k k' :
  update_once u pages k = Return (Ok (), k') → fw_digest k' = fw_update u (pg_bytes pages) (fw_digest k).
Proof.
  unfold update_once. destruct (update_data u pages k) as [[r b] k1] eqn:E. intros [= -> <-].
  exact (update_data_digest _ _ _ _ _ _ E).
Qed.

Lemma update_twice_digest u pages k k' :
  update_twice u pages k = Return (Ok (), k') →
  ∃ bytes, length bytes = length (pg_bytes pages) ∧ fw_digest k' = fw_update u bytes (fw_digest k).
Proof.
  unfold update_twice. destruct (update_data u pages k) as [[[[]|e] b] k1] eqn:E;
    apply update_data_digest in E as Hd.
  - intros [= <-]. by exists (pg_bytes pages).
  - destruct Hd as [Hd Hl]. intros Eq%update_once_digest. exists b. by rewrite <- Hd.
Qed.

(** The update of a region measures it, whatever its contents where they do not
    count. *)
Lemma fw_update_measure to with_ addr bytes bytes' d :
  to mod PAGE = 0 → 0 ≤ to → Z.of_nat (length bytes) < 2 ^ 32 → length bytes' = length bytes →
  (region_type with_ = Normal → bytes' = bytes) →
  (region_type with_ ≠ Normal → Z.of_nat (length bytes) = PAGE) →
  fw_update (LaunchUpdate_from (Z.shiftr to 12) (mkPages addr bytes) (region_type with_)) bytes' d
  = measure to with_ bytes d.
Proof.
  intros Ha Ht Hl Hl' Hn Hp. unfold fw_update, measure, LaunchUpdate_from. cbn [lu_len start_gfn pg_bytes].
  unfold as_u32. rewrite Z.mod_small, Nat2Z.id, take_ge by lia.
  rewrite Z.shiftr_div_pow2 by lia. replace (to / 2 ^ 12 * PAGE) with to by (unfold PAGE in *; dlia).
  rewrite (fw_pages_header _ (mkLaunchUpdate 0 0 0 0 (PageType_u8 (region_type with_)) 0 0 0)) by done.
  destruct (decide (region_type with_ = Normal)) as [E|E]; [by rewrite Hn|].
  rewrite !page_chunks_one by (rewrite ?Hl'; auto). cbn [fw_pages lu_page_type]. unfold fw_contents.
  revert E. unfold region_type. by repeat case_match.
Qed.

Lemma SevBuilder_map_digest addr bytes to with_ self k self' k' :
  to mod PAGE = 0 → 0 ≤ to → Z.of_nat (length bytes) < 2 ^ 32 →
  SevBuilder_map (mkPages addr bytes) to with_ self k = Return (Ok self', k') →
  sb_config self' = sb_config self ∧ fw_digest k' = measure to with_ bytes (fw_digest k).
Proof.
  intros Ha Ht Hl Eq. unfold SevBuilder_map in Eq. cbn [pg_bytes pg_addr] in Eq.
  destruct (_ =? 0) eqn:E0; bool_to_prop.
  { injection Eq as <- <-. destruct bytes; [done|by cbn in E0]. }
  apply fal_bind_inv in Eq as ([region ports] & k1 & E1 & Eq).
  assert (Hk1 : fw_digest k1 = fw_digest k).
  { unfold kvm_builder_map in E1. destruct (if negb (Z.land with_ KvmHost.SALLYPORT =? 0) then _ else _) as [pushed| | |];
      try discriminate E1. cbn [mbind outcome_bind] in E1.
    match type of E1 with context [set_user_memory_region ?r k] => pose proof (sl_memory r k) as Hs end.
    destruct (set_user_memory_region _ k) as [set k2]. by injection E1 as _ <-. }
  apply fal_bind_inv in Eq as (u & k2 & E2 & Eq). injection Eq as <- <-. split; [done|]. rewrite <- Hk1.
  assert (Hm := λ bytes', fw_update_measure to with_ addr bytes bytes' (fw_digest k1) Ha Ht Hl).
  unfold region_type in Hm. destruct u.
  destruct (negb (Z.land with_ elf.CPUID =? 0)); [|destruct (negb (Z.land with_ elf.SECRETS =? 0))].
  - destruct (_ =? PAGE) eqn:Ep; cbn [negb] in E2; [|discriminate E2]. bool_to_prop.
    apply fal_bind_inv in E2 as (entries & k3 & E3 & E2). apply on_world_ok in E3.
    pose proof (sl_cpuid k1) as Hc. rewrite E3 in Hc. cbn [snd] in Hc.
    apply fal_bind_inv in E2 as (functions & k4 & E4 & E2). unfold try in E4. injection E4 as E4 <-.
    apply update_twice_digest in E2 as (bytes' & Hb & Hd). cbn [pg_bytes] in Hb.
    unfold ok_or in E4. destruct (import_entries entries []) as [fs|] eqn:Ei; [|discriminate E4]. injection E4 as ->.
    apply import_entries_length in Ei; [|cbn; lia]. apply CpuidPage_bytes_length in Ei as Hf.
    rewrite Hd, Hc, <- Hm with (bytes' := bytes'); [|lia|done|lia].
    unfold LaunchUpdate_from. cbn [pg_bytes pg_addr]. by rewrite Hf, Ep.
  - destruct (_ =? PAGE) eqn:Ep; cbn [negb] in E2; [|discriminate E2]. bool_to_prop.
    rewrite (update_once_digest _ _ _ _ E2). by apply Hm.
  - rewrite (update_once_digest _ _ _ _ E2). by apply Hm.
Qed.

End builder.

(** ** All regions *)

Definition region_wf (r : region) : Prop :=
  0 ≤ r_to r ∧ r_to r mod PAGE = 0 ∧ Z.of_nat (length (r_bytes r)) mod PAGE = 0 ∧
  r_to r + Z.of_nat (length (r_bytes r)) ≤ 2 ^ 64 ∧ Z.of_nat (length (r_bytes r)) < 2 ^ 32.

(** The digest of a list of regions *)
Definition measure_all `{Sha384} (rs : list region) (d : list Z) : list Z :=
  foldl (λ d r, measure (r_to r) (r_flags r) (r_bytes r) d) d rs.

Lemma hasher_measures {W : Type} `{Sha384, Goblin, !Anonymous W} rs : ∀ (l : Hasher) (w : W) l' w',
  Forall region_wf rs → mapped (O := list Z) rs l w l' w' →
  h_config l' = h_config l ∧ h_digest l' = measure_all rs (h_digest l).
Proof.
  induction rs as [|r rs IH]; intros l w l' w' Hr Hm; cbn [mapped] in Hm; [by destruct Hm as [-> ->]|].
  apply Forall_cons in Hr as [(Hr1 & Hr2 & Hr3 & Hr4 & Hr5) Hrs].
  destruct Hm as (addr & w1 & l2 & w2 & _ & Hmap & Hm). cbn in Hmap. unfold must in Hmap.
  destruct (hash _ _ _ l) as [l3| | |] eqn:E; try discriminate Hmap. injection Hmap as -> <-.
  apply hash_digest in E as [Hc Hd]; [|done|done|done].
  destruct (IH _ _ _ _ Hrs Hm) as [Hc' Hd']. rewrite Hc', Hd', Hd. done.
Qed.

Section launch.
Context {K : Type} `{SnpLaws K}.

Lemma map_bytes_digest n k r k' : map_bytes n k = (r, k') → fw_digest k' = fw_digest k.
Proof.
  unfold map_bytes, kvm_anonymous. pose proof (sl_anonymous n k) as Ha. destruct (map_anonymous n k) as [x k1].
  by intros [= <- <-].
Qed.

Lemma builder_measures `{Goblin} rs : ∀ (l : SevBuilder) (k : K) l' k',
  Forall region_wf rs → mapped (O := Keep) rs l k l' k' →
  sb_config l' = sb_config l ∧ fw_digest k' = measure_all rs (fw_digest k).
Proof.
  induction rs as [|r rs IH]; intros l k l' k' Hr Hm; cbn [mapped] in Hm; [by destruct Hm as [-> ->]|].
  apply Forall_cons in Hr as [(Hr1 & Hr2 & Hr3 & Hr4 & Hr5) Hrs].
  destruct Hm as (addr & k1 & l2 & k2 & Ha & Hmap & Hm). apply map_bytes_digest in Ha.
  apply SevBuilder_map_digest in Hmap as [Hc Hd]; [|done|done|done].
  destruct (IH _ _ _ _ Hrs Hm) as [Hc' Hd']. rewrite Hc', Hd', Hd, Ha. done.
Qed.

Lemma SevBuilder_try_from_digest config (k : K) b k' :
  SevBuilder_try_from config k = Return (Ok b, k') → sb_config b = config ∧ fw_digest k' = repeat 0 48.
Proof.
  unfold SevBuilder_try_from. intros Eq. apply fal_bind_inv in Eq as (_ & k1 & _ & Eq).
  apply fal_bind_inv in Eq as ([] & k2 & E2 & Eq). injection Eq as <- <-. split; [done|].
  apply on_world_ok in E2. exact (sl_start _ _ _ E2).
Qed.

Lemma SevBuilder_into_digest b (k : K) keep k' :
  SevBuilder_into b k = Return (Ok keep, k') →
  fw_digest k' = sha384 (PageInfo_as_bytes (PageInfo_new (fw_digest k) SEV_SNP_VMSA_SHA384 Vmsa 0xFFFFFFFFF000)).
Proof.
  unfold SevBuilder_into. intros Eq. apply fal_bind_inv in Eq as (fd & k1 & E1 & Eq).
  apply fal_bind_inv in Eq as (f & k2 & E2 & Eq). apply fal_bind_inv in Eq as ([] & k3 & E3 & Eq).
  injection Eq as _ <-. unfold try in E2. injection E2 as _ <-. apply on_world_ok in E1, E3.
  rewrite (sl_finish _ _ _ E3), sl_vmsa. unfold kvm_try_from_builder in E1.
  case_bool_decide; [discriminate E1|]. pose proof (sl_vcpu k) as Hv. destruct (create_vcpu k) as [x k4].
  injection E1 as _ <-. cbn [snd] in Hv. rewrite Hv. done.
Qed.

Lemma Hasher_into_digest h idb : Hasher_into h = Return idb →
  take 48 idb = sha384 (PageInfo_as_bytes (PageInfo_new (h_digest h) SEV_SNP_VMSA_SHA384 Vmsa 0xFFFFFFFFF000)).
Proof.
  unfold Hasher_into, update_finish, digest48. destruct (_ =? 48) eqn:E; [|done]. bool_to_prop.
  intros [= <-]. cbn [h_config h_digest]. unfold IdBlock_as_bytes, id_block_from_digest. cbn [launch_digest].
  apply take_app_length'. lia.
Qed.

Lemma cuts_region_wf `{GoblinLaws} hs segs rs :
  headers_wf hs → Forall (λ h, p_memsz (snd h) + 2 * PAGE ≤ 2 ^ 32) hs →
  Forall2 cut hs segs → Forall2 copy_of segs rs → Forall region_wf rs.
Proof.
  intros Hw Hs Hc Hr. apply Forall_lookup. intros i r Hri.
  destruct (Forall2_lookup_r _ _ _ _ _ Hr Hri) as (seg & Hseg & Hco).
  destruct (Forall2_lookup_r _ _ _ _ _ Hc Hseg) as (h & Hh & Hcu).
  destruct (Forall_lookup_1 _ _ _ _ Hw Hh) as [Hz Hwf].
  pose proof (Forall_lookup_1 _ _ _ _ Hs Hh) as Hsm. cbn in Hsm.
  destruct (cut_bounds _ _ _ Hz Hwf Hcu Hco) as (? & ? & ? & ? & ?). unfold region_wf. split_and!; try done. lia.
Qed.

(** The launch digest of both loads *)
Lemma load_digest {W : Type} `{GoblinLaws, !UnstableSort, !Semver, !Anonymous W}
    shim exec sigs (w : W) idb w' (k : K) (keep : Keep) k' sbin ebin sh :
  load (T := Hasher) shim exec None w = Return (Ok idb, w') →
  load (T := SevBuilder) shim exec sigs k = Return (Ok keep, k') →
  Binary_new shim = Ok sbin → Binary_new exec = Ok ebin → head (headers sbin elf.EXEC) = Some sh →
  header_wf 0 sh → headers_wf (all_headers sbin ebin (p_vaddr sh)) →
  Forall (λ h, p_memsz (snd h) + 2 * PAGE ≤ 2 ^ 32) (all_headers sbin ebin (p_vaddr sh)) →
  take 48 idb = fw_digest k'.
Proof.
  intros Eh Eb Hs He Hh Hsh Hw Hsm.
  destruct (load_regions _ _ _ _ _ _ _ _ _ Eh Hs He Hh Hsh Hw) as (cfg & l0 & w0 & ss & es & rs & l1 & w1 &
    Ec & El & Hm & Ei & Ess & Ees & Hcut & Hrs & _).
  destruct (load_regions _ _ _ _ _ _ _ _ _ Eb Hs He Hh Hsh Hw) as (cfg' & b0 & k0 & ss' & es' & rs' & b1 & k1 &
    Ec' & El' & Hm' & Ei' & Ess' & Ees' & _ & Hrs' & _).
  rewrite Ess in Ess'. injection Ess' as <-. rewrite Ees in Ees'. injection Ees' as <-.
  rewrite <- (copies_unique _ _ _ Hrs Hrs') in Hm'.
  pose proof (cuts_region_wf _ _ _ Hw Hsm Hcut Hrs) as Hwf.
  apply hasher_measures in Hm as [_ Hd]; [|done]. apply builder_measures in Hm' as [_ Hd']; [|done].
  injection El as <- <-. apply SevBuilder_try_from_digest in El' as [_ H0']. cbn [h_digest] in Hd.
  apply SevBuilder_into_digest in Ei'. cbn in Ei. unfold must in Ei.
  destruct (Hasher_into l1) as [idb'| | |] eqn:E1; try discriminate Ei. injection Ei as -> _.
  apply Hasher_into_digest in E1. by rewrite E1, Ei', Hd, Hd', H0'.
Qed.

(** C4: the digest that is signed is the digest that is launched.  If [Hasher]
    loads a shim and an executable and gives an ID block, and [Builder] launches
    the same files on a machine with SNP, then the launch digest in the ID block
    is the one the firmware has measured when the keep is made, provided the
    segments are less than 4 GiB long. *)
Theorem snp_measured {W : Type} `{GoblinLaws, !UnstableSort, !Semver, !Anonymous W}
    shim exec sigs (w : W) idb w' (k : K) (keep : Keep) k' sbin ebin sh :
  load (T := Hasher) shim exec None w = Return (Ok idb, w') →
  load (T := SevBuilder) shim exec sigs k = Return (Ok keep, k') →
  Binary_new shim = Ok sbin → Binary_new exec = Ok ebin → head (headers sbin elf.EXEC) = Some sh →
  header_wf 0 sh → headers_wf (all_headers sbin ebin (p_vaddr sh)) →
  Forall (λ h, p_memsz (snd h) + 2 * PAGE ≤ 2 ^ 32) (all_headers sbin ebin (p_vaddr sh)) →
  take 48 idb = fw_digest k'.
Proof. apply load_digest. Qed.

End launch.
