(* ===== verification/SgxLoad.v ===== *)
(** * Creating and measuring an enclave

    [src/backend/sgx/{builder,hasher,ioctls}.rs], with the pool of thread control
    structures of [sgx/thread.rs].  The crate [sgx] (the measurement, signatures),
    the crate [mmarinus] (mappings that are split) and the enclave device are
    parameters. *)

From S2P Require Import Prelude Memory Libc PhaseAlloc Items Host HostLaws Backend Loader LoaderLaws SnpLoad.

(** ** The crates *)

(** [sgx::signature]; bodies, keys and signatures are the bytes they are made of. *)
Class SgxCrypto := {
  SgxHash : Type;
  hash_new : Z → Z → SgxHash;
  hash_load : list Z → Z → SecInfo → bool → SgxHash → result SgxHash;
  hash_finish : SgxHash → list Z;
  parameters_body : SgxParameters → list Z → list Z;
  Signature_new : list Z → list Z → result (list Z);
}.
Definition Signature_SIZE : Z := 1808.

(** [mmarinus]: a mapping (its address and size), split after a number of bytes and
    at an address. *)
Class MapSplit := {
  map_split : Z * Z → Z → result ((Z * Z) * (Z * Z));
  map_split_at : Z * Z → Z → result ((Z * Z) * (Z * Z));
}.

(** ** [ioctls.rs] *)

Record Secs : Type := mkSecs { secs_parameters : SgxParameters; secs_base : Z; secs_size : Z; secs_ssap : Z }.

Record AddPages : Type := mkAddPages {
  ap_src : Z; ap_offset : Z; ap_length : Z; ap_secinfo : SecInfo; ap_flags : Z; ap_count : Z;
}.

Definition AddPages_new (pages : Pages) (offset : Z) (secinfo : SecInfo) (measure : bool) : AddPages :=
  let flags := if measure then Z.shiftl 1 0 else 0 in
  mkAddPages (pg_addr pages) offset (Z.of_nat (length (pg_bytes pages))) secinfo flags 0.

Record RestrictPermissions : Type := mkRestrictPermissions {
  rp_offset : Z; rp_length : Z; rp_permissions : Z; rp_result : Z; rp_count : Z;
}.
Definition RestrictPermissions_new (offset length permissions : Z) : RestrictPermissions :=
  mkRestrictPermissions offset length permissions 0 0.
(** "Read result attribute." *)
Definition RestrictPermissions_result (self : RestrictPermissions) : Z := rp_count self.
Definition RestrictPermissions_count (self : RestrictPermissions) : Z := rp_count self.

Record ModifyTypes : Type := mkModifyTypes {
  mt_offset : Z; mt_length : Z; mt_page_type : Z; mt_result : Z; mt_count : Z;
}.
Definition ModifyTypes_new (offset length page_type : Z) : ModifyTypes := mkModifyTypes offset length page_type 0 0.
(** "Read result attribute." *)
Definition ModifyTypes_result (self : ModifyTypes) : Z := mt_count self.
Definition ModifyTypes_count (self : ModifyTypes) : Z := mt_count self.

Record RemovePages : Type := mkRemovePages { rm_offset : Z; rm_length : Z; rm_count : Z }.
Definition RemovePages_new (offset length : Z) : RemovePages := mkRemovePages offset length 0.
Definition RemovePages_count (self : RemovePages) : Z := rm_count self.

(** The device, mappings and keys.  [enclave_add_pages] gets the bytes and returns
    the request as the kernel leaves it. *)
Class SgxDevice (W : Type) := {
  map_reserved : Z → W → result Z * W;
  open_enclave : W → result unit * W;
  enclave_create : Secs → W → result unit * W;
  enclave_add_pages : AddPages → list Z → W → result AddPages * W;
  enclave_init : list Z → W → result unit * W;
  (** the key of [ENARX_TEST_SGX_KEY_FILE], and a new one *)
  test_key : W → option (list Z) * W;
  generate_key : W → result (list Z) * W;
  (** [Map::bytes(size).onto(addr).from(file, 0)] with the given protection *)
  map_enclave : Z → Z → Z → W → result unit * W;
  try_clone : W → result unit * W;
}.

(** ** [hasher.rs] *)

Section hasher.
Context `{SgxCrypto}.

Record SgxHasher : Type := mkSgxHasher { gh_digest : SgxHash; gh_cnfg : SgxConfig }.

#[global] Instance sgx_hasher_mapper {W : Type} : Mapper W SgxConfig (SecInfo * bool) SgxHasher (list Z) := {|
  mapper_try_from config := mret (mkSgxHasher (hash_new (gc_size config) (gc_ssap config)) config);
  mapper_map pages to with_ self :=
    match hash_load (pg_bytes pages) to (fst with_) (snd with_) (gh_digest self) with
    | Ok digest => mret (mkSgxHasher digest (gh_cnfg self))
    | Err _ => must Panicked
    end;
  mapper_into self := mret (parameters_body (gc_parameters (gh_cnfg self)) (hash_finish (gh_digest self)));
|}.

End hasher.

(** ** [builder.rs] *)

(** [Vec::sort_by_key], which is stable, for the addresses of the mappings *)
Fixpoint insert_fixup (x : Z * Z * SecInfo) (l : list (Z * Z * SecInfo)) : list (Z * Z * SecInfo) :=
  match l with
  | [] => [x]
  | y :: l => if fst (fst x) <=? fst (fst y) then x :: y :: l else y :: insert_fixup x l
  end.
Fixpoint sort_fixups (l : list (Z * Z * SecInfo)) : list (Z * Z * SecInfo) :=
  match l with [] => [] | x :: l => insert_fixup x (sort_fixups l) end.

Definition fixup_prot (si : SecInfo) : Z :=
  match si with
  | Tcs => Z.lor PROT_READ PROT_WRITE
  | Regular rwx =>
      let prot := 0 in
      let prot := if Z.land rwx READ =? READ then Z.lor prot PROT_READ else prot in
      let prot := if Z.land rwx WRITE =? WRITE then Z.lor prot PROT_WRITE else prot in
      if Z.land rwx EXECUTE =? EXECUTE then Z.lor prot PROT_EXEC else prot
  end.

(** [usize::is_power_of_two] *)
Definition is_power_of_two (n : Z) : bool := (0 <? n) && (Z.land n (n - 1) =? 0).

Section builder.
Context {W : Type} `{SgxCrypto, MapSplit, !SgxDevice W}.

Record SgxBuilder : Type := mkSgxBuilder {
  gb_cnfg : SgxConfig; gb_hash : SgxHash; gb_mmap : Z * Z; gb_perm : list (Z * Z * SecInfo); gb_tcsp : list Z;
}.

(** [super::Keep] *)
Record SgxKeep : Type := mkSgxKeep { gk_block_size : Z; gk_mem : Z * Z; gk_tcs : list Z }.

Definition SgxBuilder_try_from (config : SgxConfig) : fal W SgxBuilder :=
  if negb (is_power_of_two (gc_size config)) then must Panicked
  else
    let n := as_usize (gc_size config * 2) in
    a ← on_world (map_reserved n);
    let addr := as_usize (as_usize (a + gc_size config - 1) / gc_size config * gc_size config) in
    '(_, map) ← try (map_split_at (a, n) addr);
    '(map, _) ← try (map_split map (gc_size config));
    _ ← on_world open_enclave;
    _ ← on_world (enclave_create (mkSecs (gc_parameters config) (fst map) (snd map) (gc_ssap config)));
    mret (mkSgxBuilder config (hash_new (gc_size config) (gc_ssap config)) map [] []).

(** The loop over the pages of thread control structures *)
Fixpoint tcs_pages (chunks : list (list Z)) (addr : Z) : list Z :=
  match chunks with
  | [] => []
  | chunk :: chunks => addr :: tcs_pages chunks (as_usize (addr + Z.of_nat (length chunk)))
  end.

Definition SgxBuilder_map (pages : Pages) (to : Z) (with_ : SecInfo * bool) (self : SgxBuilder) : fal W SgxBuilder :=
  if bool_decide (pg_bytes pages = []) then mret self
  else
    _ ← on_world (enclave_add_pages (AddPages_new pages to (fst with_) (snd with_)) (pg_bytes pages));
    match hash_load (pg_bytes pages) to (fst with_) (snd with_) (gb_hash self) with
    | Err _ => must Panicked
    | Ok hash =>
        let addr := as_usize (fst (gb_mmap self) + to) in
        let perm := gb_perm self ++ [(addr, Z.of_nat (length (pg_bytes pages)), fst with_)] in
        let tcsp := match fst with_ with
                    | Tcs => gb_tcsp self ++ tcs_pages (page_chunks (pg_bytes pages)) addr
                    | Regular _ => gb_tcsp self
                    end in
        mret (mkSgxBuilder (gb_cnfg self) hash (gb_mmap self) perm tcsp)
    end.

(** The signature: the one that was given, or one made here *)
Definition signature_of (self : SgxBuilder) : fal W (list Z) :=
  match gc_signatures (gb_cnfg self) with
  | Some signatures =>
      if Z.of_nat (length (sig_sgx signatures)) =? Signature_SIZE then mret (sig_sgx signatures) else try (Err (-1))
  | None =>
      let body := parameters_body (gc_parameters (gb_cnfg self)) (hash_finish (gb_hash self)) in
      found ← on_world (λ w, let '(k, w) := test_key w in (Ok k, w));
      key ← (match found with Some key => mret key | None => on_world generate_key end);
      try (Signature_new key body)
  end.

Fixpoint fix_permissions (perm : list (Z * Z * SecInfo)) : fal W unit :=
  match perm with
  | [] => mret ()
  | (addr, size, si) :: perm => _ ← on_world (map_enclave addr size (fixup_prot si)); fix_permissions perm
  end.

Definition SgxBuilder_into (self : SgxBuilder) : fal W SgxKeep :=
  signature ← signature_of self;
  _ ← on_world (enclave_init signature);
  _ ← fix_permissions (sort_fixups (gb_perm self));
  cloned ← on_world (λ w, let '(r, w) := try_clone w in (Ok r, w));
  match cloned with
  | Ok _ => mret (mkSgxKeep (gc_block_size (gb_cnfg self)) (gb_mmap self) (gb_tcsp self))
  | Err _ => must Panicked
  end.

#[global] Instance sgx_mapper : Mapper W SgxConfig (SecInfo * bool) SgxBuilder SgxKeep := {|
  mapper_try_from := SgxBuilder_try_from;
  mapper_map := SgxBuilder_map;
  mapper_into := SgxBuilder_into;
|}.

End builder.

(** ** The pool of thread control structures ([thread.rs]) *)

(** The pool of a keep, and the structures of the threads that live. *)
Record Pool : Type := mkPool { pool_tcs : list Z; pool_threads : list Z }.

(** [Keep::spawn] pops a structure, if there is one. *)
Definition sgx_spawn (p : Pool) : option Z * Pool :=
  match last (pool_tcs p) with
  | Some tcs => (Some tcs, mkPool (removelast (pool_tcs p)) (pool_threads p ++ [tcs]))
  | None => (None, p)
  end.

(** [Thread::drop] of thread [i] pushes its structure. *)
Definition sgx_drop_thread (i : nat) (p : Pool) : Pool :=
  match pool_threads p !! i with
  | Some tcs => mkPool (pool_tcs p ++ [tcs]) (delete i (pool_threads p))
  | None => p
  end.

Inductive pool_step : Pool → Pool → Prop :=
  | step_spawn p : pool_step p (snd (sgx_spawn p))
  | step_drop p i : pool_step p (sgx_drop_thread i p).
