(* ===== verification/SgxLoadLaws.v ===== *)
(** * What is launched as an enclave

    The enclave that runs has the measurement [Hasher] computes; its pages are
    mapped with the permissions of the segments, inside the range that was
    reserved; and no two threads enter with the same control structure. *)

From stdpp Require Import sorting relations.
From S2P Require Import Prelude Memory Libc PhaseAlloc Items Host HostLaws Backend Loader LoaderLaws SnpLoad SnpLoadLaws SgxLoad.

(** ** The measurement of an enclave

    What the processor hashes to MRENCLAVE, after the description of ECREATE, EADD and
    EEXTEND in the Intel SDM: records of 64 bytes, and for EEXTEND the 256 bytes that
    are measured. *)

Definition mr_tag (s : list Z) : list Z := s ++ repeat 0 (8 - length s).
Definition mr_create (size ssa_frames : Z) : list Z :=
  mr_tag [69; 67; 82; 69; 65; 84; 69] ++ to_le_bytes 4 ssa_frames ++ to_le_bytes 8 size ++ repeat 0 44.

(** The flags of SECINFO: the permissions and the type of the page *)
Definition secinfo_bytes (si : SecInfo) : list Z :=
  to_le_bytes 8 (match si with Tcs => 0x100 | Regular rwx => 0x200 + rwx end) ++ repeat 0 40.
Definition mr_add (offset : Z) (si : SecInfo) : list Z :=
  mr_tag [69; 65; 68; 68] ++ to_le_bytes 8 offset ++ secinfo_bytes si.

Fixpoint mr_extend (offset : Z) (blocks : list (list Z)) : list Z :=
  match blocks with
  | [] => []
  | blk :: blocks =>
      mr_tag [69; 69; 88; 84; 69; 78; 68] ++ to_le_bytes 8 offset ++ repeat 0 48 ++ blk
        ++ mr_extend (offset + 256) blocks
  end.

(** Pages that are added one after the other; their contents count if [measure]. *)
Fixpoint mr_pages (offset : Z) (si : SecInfo) (measure : bool) (pages : list (list Z)) : list Z :=
  match pages with
  | [] => []
  | page :: pages =>
      mr_add offset si ++ (if measure then mr_extend offset (chunks (length page) 256 page) else [])
        ++ mr_pages (offset + PAGE) si measure pages
  end.

(** ** The parameters *)

(** [sgx::signature::Hasher] computes the measurement as the processor does; a
    signature holds the body that was signed, and a body the measurement. *)
Class SgxCryptoLaws `{SgxCrypto} := {
  sha256 : list Z → list Z;
  hash_log : SgxHash → list Z;
  signature_body : list Z → list Z;
  body_hash : list Z → list Z;
  sc_new : ∀ size ssap, hash_log (hash_new size ssap) = mr_create size ssap;
  sc_load : ∀ bytes to si m h h', hash_load bytes to si m h = Ok h' →
    hash_log h' = hash_log h ++ mr_pages to si m (page_chunks bytes);
  sc_finish : ∀ h, hash_finish h = sha256 (hash_log h);
  sc_signed : ∀ key body sig, Signature_new key body = Ok sig → signature_body sig = body;
  sc_body : ∀ p h, body_hash (parameters_body p h) = h;
}.

Class MapSplitLaws `{MapSplit} := {
  ms_split : ∀ m n l r, map_split m n = Ok (l, r) → 0 ≤ n ≤ snd m ∧ l = (fst m, n);
  ms_split_at : ∀ m a l r, map_split_at m a = Ok (l, r) →
    fst m ≤ a ≤ fst m + snd m ∧ r = (a, fst m + snd m - a);
}.

(** The size of the enclave, what has been measured of it, its measurement and the
    body of its signature once it is initialised, and the mappings of it so far.  A
    request to add pages that leave the enclave is refused; the pages that are added are
    the bytes at the given address, at the given offset, and their contents are measured
    if the first flag is set.  EINIT refuses a signature whose body has another
    measurement than the enclave. *)
Class SgxDeviceLaws (W : Type) `{SgxCryptoLaws, !SgxDevice W, !Anonymous W} := {
  enclave_size : W → Z;
  mrlog : W → list Z;
  mrenclave : W → list Z;
  einit_body : W → list Z;
  maps : W → list (Z * Z * Z);
  sd_reserved : ∀ n w a w', map_reserved n w = (Ok a, w') → 0 ≤ a ∧ a + n ≤ 2 ^ 64;
  sd_create : ∀ secs w w', enclave_create secs w = (Ok (), w') →
    enclave_size w' = secs_size secs ∧ mrlog w' = mr_create (secs_size secs) (secs_ssap secs);
  sd_add : ∀ ap bytes w ap' w', enclave_add_pages ap bytes w = (Ok ap', w') →
    ap_offset ap + ap_length ap ≤ enclave_size w ∧ enclave_size w' = enclave_size w ∧
    mrlog w' = mrlog w ++ mr_pages (ap_offset ap) (ap_secinfo ap) (Z.testbit (ap_flags ap) 0)
      (page_chunks (take (Z.to_nat (ap_length ap)) bytes));
  sd_anonymous : ∀ n w, enclave_size (snd (map_bytes n w)) = enclave_size w ∧ mrlog (snd (map_bytes n w)) = mrlog w;
  sd_log_test_key : ∀ w, mrlog (snd (test_key w)) = mrlog w;
  sd_log_key : ∀ w, mrlog (snd (generate_key w)) = mrlog w;
  sd_init : ∀ sig w w', enclave_init sig w = (Ok (), w') →
    mrenclave w' = sha256 (mrlog w) ∧ einit_body w' = signature_body sig ∧
    body_hash (signature_body sig) = sha256 (mrlog w);
  sd_map : ∀ addr size prot w w', map_enclave addr size prot w = (Ok (), w') →
    mrenclave w' = mrenclave w ∧ einit_body w' = einit_body w ∧ maps w' = maps w ++ [(addr, size, prot)];
  sd_clone : ∀ w, mrenclave (snd (try_clone w)) = mrenclave w ∧ einit_body (snd (try_clone w)) = einit_body w ∧
    maps (snd (try_clone w)) = maps w;
  sd_maps_reserved : ∀ n w, maps (snd (map_reserved n w)) = maps w;
  sd_maps_open : ∀ w, maps (snd (open_enclave w)) = maps w;
  sd_maps_create : ∀ secs w, maps (snd (enclave_create secs w)) = maps w;
  sd_maps_add : ∀ ap bytes w, maps (snd (enclave_add_pages ap bytes w)) = maps w;
  sd_maps_anonymous : ∀ n w, maps (snd (map_bytes n w)) = maps w;
  sd_maps_init : ∀ sig w, maps (snd (enclave_init sig w)) = maps w;
  sd_maps_test_key : ∀ w, maps (snd (test_key w)) = maps w;
  sd_maps_key : ∀ w, maps (snd (generate_key w)) = maps w;
}.

(** ** Hashing *)

Section hash.
Context `{SgxCryptoLaws}.

Definition region_log (r : region) : list Z :=
  mr_pages (r_to r) (fst (SgxConfig_flags (r_flags r))) (snd (SgxConfig_flags (r_flags r))) (page_chunks (r_bytes r)).

Lemma sgx_hasher_hashes {W : Type} `{Goblin, !Anonymous W} rs : ∀ (l : SgxHasher) (w : W) l' w',
  mapped (O := list Z) rs l w l' w' →
  gh_cnfg l' = gh_cnfg l ∧ hash_log (gh_digest l') = hash_log (gh_digest l) ++ concat (region_log <$> rs).
Proof.
  induction rs as [|r rs IH]; intros l w l' w' Hm; cbn [mapped] in Hm; [destruct Hm as [-> ->]; by rewrite app_nil_r|].
  destruct Hm as (addr & w1 & l2 & w2 & _ & Hmap & Hm). cbn in Hmap.
  destruct (hash_load _ _ _ _ _) as [d|e] eqn:El; [|discriminate Hmap]. injection Hmap as <- <-.
  apply IH in Hm as [Hc Hh]. apply sc_load in El. split; [by rewrite Hc|].
  rewrite Hh. cbn [gh_digest fmap list_fmap concat]. by rewrite El, <- app_assoc.
Qed.

End hash.

(** ** The builder *)

Section builder.
Context {W : Type} `{SgxDeviceLaws W, MapSplitLaws}.

(** What a region leaves to be mapped, and its control structures *)
Definition fixup (base : Z) (r : region) : list (Z * Z * SecInfo) :=
  if bool_decide (r_bytes r = []) then []
  else [(base + r_to r, Z.of_nat (length (r_bytes r)), fst (SgxConfig_flags (r_flags r)))].

Definition control (base : Z) (r : region) : list Z :=
  match fst (SgxConfig_flags (r_flags r)) with
  | Tcs => (λ i, base + r_to r + PAGE * i) <$> seqZ 0 (Z.of_nat (length (r_bytes r)) / PAGE)
  | Regular _ => []
  end.

Definition whole_pages (r : region) : Prop := 0 ≤ r_to r ∧ Z.of_nat (length (r_bytes r)) mod PAGE = 0.

Lemma as_usize_id z : 0 ≤ z < 2 ^ 64 → as_usize z = z.
Proof. intros Hz. apply as_usize_small. unfold is_usize, usize_MAX. lia. Qed.

Lemma tcs_pages_spec n : ∀ fuel bytes addr,
  length bytes = (n * Z.to_nat PAGE)%nat → (length bytes ≤ fuel)%nat → 0 ≤ addr →
  addr + Z.of_nat (length bytes) ≤ 2 ^ 64 →
  tcs_pages (chunks fuel (Z.to_nat PAGE) bytes) addr = (λ i, addr + PAGE * i) <$> seqZ 0 (Z.of_nat n).
Proof.
  induction n as [|n IH]; intros fuel bytes addr Hl Hf Ha Hb.
  { apply nil_length_inv in Hl as ->. by rewrite chunks_nil. }
  assert (Hp : Z.of_nat (Z.to_nat PAGE) = PAGE) by done.
  destruct bytes as [|b bytes]; [cbn [length] in Hl; unfold PAGE in *; lia|].
  destruct fuel as [|fuel]; [cbn [length] in Hf; lia|]. cbn [chunks tcs_pages]. set (l := b :: bytes) in *.
  assert (Hd : length (drop (Z.to_nat PAGE) l) = (n * Z.to_nat PAGE)%nat) by (rewrite length_drop; lia).
  rewrite length_take, Nat.min_l, Hp by lia. rewrite seqZ_cons, fmap_cons by lia.
  replace (addr + PAGE * 0) with addr by lia. f_equal. replace (Z.pred (Z.of_nat (S n))) with (Z.of_nat n) by lia.
  destruct (decide (n = 0%nat)) as [->|Hn].
  { apply nil_length_inv in Hd as ->. by rewrite chunks_nil. }
  assert (Hu : Z.of_nat (length l) = PAGE + Z.of_nat n * PAGE) by lia.
  rewrite as_usize_id by (unfold PAGE in *; lia).
  rewrite IH; [|done|rewrite Hd; unfold PAGE in *; lia|unfold PAGE; lia|rewrite Hd; unfold PAGE in *; lia].
  change (Z.succ 0) with (1 + 0). rewrite <- (fmap_add_seqZ 1 0), <- list_fmap_compose. apply list_fmap_ext.
  intros _ i _. cbn. unfold PAGE. lia.
Qed.

Lemma tcs_pages_chunks bytes addr : Z.of_nat (length bytes) mod PAGE = 0 → 0 ≤ addr →
  addr + Z.of_nat (length bytes) ≤ 2 ^ 64 →
  tcs_pages (page_chunks bytes) addr = (λ i, addr + PAGE * i) <$> seqZ 0 (Z.of_nat (length bytes) / PAGE).
Proof.
  intros Hm Ha Hb. unfold page_chunks. rewrite (tcs_pages_spec (Z.to_nat (Z.of_nat (length bytes) / PAGE))); try done.
  - rewrite Z2Nat.id by (unfold PAGE; dlia). done.
  - unfold PAGE in *. dlia.
Qed.

Lemma SgxBuilder_map_spec addr r self (w : W) self' w' :
  whole_pages r → 0 ≤ fst (gb_mmap self) → fst (gb_mmap self) + enclave_size w ≤ 2 ^ 64 →
  SgxBuilder_map (mkPages addr (r_bytes r)) (r_to r) (SgxConfig_flags (r_flags r)) self w = Return (Ok self', w') →
  hash_log (gb_hash self') = hash_log (gb_hash self) ++ region_log r ∧ mrlog w' = mrlog w ++ region_log r ∧
  self' = mkSgxBuilder (gb_cnfg self) (gb_hash self') (gb_mmap self) (gb_perm self ++ fixup (fst (gb_mmap self)) r)
    (gb_tcsp self ++ control (fst (gb_mmap self)) r) ∧
  enclave_size w' = enclave_size w ∧ maps w' = maps w ∧
  (r_bytes r ≠ [] → r_to r + Z.of_nat (length (r_bytes r)) ≤ enclave_size w).
Proof.
  intros [Ht Hp] Hb He Eq. unfold SgxBuilder_map in Eq. cbn [pg_bytes] in *. unfold fixup, control, region_log.
  destruct (SgxConfig_flags (r_flags r)) as [si m]. cbn [fst snd] in *.
  case_bool_decide as Hn.
  { injection Eq as <- <-. rewrite Hn, !app_nil_r. cbn [length]. change (Z.of_nat 0 / PAGE) with 0.
    destruct self. by destruct si; cbn; rewrite ?app_nil_r. }
  apply fal_bind_inv in Eq as (ap & w1 & E1 & Eq). apply on_world_ok in E1.
  match type of E1 with enclave_add_pages ?a ?b _ = _ => pose proof (sd_maps_add a b w) as Hmp end.
  rewrite E1 in Hmp. cbn [snd] in Hmp. apply sd_add in E1 as (Hfit & Hsz & Hlog). cbn [AddPages_new ap_offset ap_length ap_secinfo ap_flags pg_bytes] in Hfit, Hlog.
  rewrite Nat2Z.id, firstn_all in Hlog.
  destruct (hash_load _ _ _ _ _) as [h|e] eqn:El; [|discriminate Eq]. injection Eq as <- <-. cbn [gb_hash].
  apply sc_load in El.
  rewrite as_usize_id by (destruct (r_bytes r); [done|cbn [length] in *; lia]).
  split_and!; try done; [by destruct m|]. destruct si; [by rewrite app_nil_r|].
  by rewrite tcs_pages_chunks by (done || lia).
Qed.

Definition inside (n : Z) (r : region) : Prop := r_bytes r ≠ [] → r_to r + Z.of_nat (length (r_bytes r)) ≤ n.

Lemma sgx_builder_maps `{Goblin} rs : ∀ (b : SgxBuilder) (w : W) b' w',
  Forall whole_pages rs → 0 ≤ fst (gb_mmap b) → fst (gb_mmap b) + enclave_size w ≤ 2 ^ 64 →
  mapped (O := SgxKeep) rs b w b' w' →
  hash_log (gb_hash b') = hash_log (gb_hash b) ++ concat (region_log <$> rs) ∧
  mrlog w' = mrlog w ++ concat (region_log <$> rs) ∧
  b' = mkSgxBuilder (gb_cnfg b) (gb_hash b') (gb_mmap b) (gb_perm b ++ concat (fixup (fst (gb_mmap b)) <$> rs))
    (gb_tcsp b ++ concat (control (fst (gb_mmap b)) <$> rs)) ∧
  enclave_size w' = enclave_size w ∧ maps w' = maps w ∧ Forall (inside (enclave_size w)) rs.
Proof.
  induction rs as [|r rs IH]; intros b w b' w' Hr Hb He Hm; cbn [mapped] in Hm.
  { destruct Hm as [-> ->]. cbn. rewrite !app_nil_r. by destruct b. }
  apply Forall_cons in Hr as [Hr Hrs]. destruct Hm as (addr & w1 & b2 & w2 & Ha & Hmap & Hm).
  match type of Ha with map_bytes ?n _ = _ => destruct (sd_anonymous n w) as [Hs Hl]; pose proof (sd_maps_anonymous n w) as Hmp end.
  rewrite Ha in Hs, Hl, Hmp. cbn [snd] in Hs, Hl, Hmp.
  assert (He1 : fst (gb_mmap b) + enclave_size w1 ≤ 2 ^ 64) by lia.
  destruct (SgxBuilder_map_spec _ _ _ _ _ _ Hr Hb He1 Hmap) as (Hh & Hl2 & E2 & Hs2 & Hm2 & Hin).
  assert (Hbase : gb_mmap b2 = gb_mmap b) by (by rewrite E2).
  destruct (IH b2 w2 b' w' Hrs) as (Hh' & Hl' & E' & Hs' & Hm' & Hin'); [by rewrite Hbase|rewrite Hbase; lia|exact Hm|].
  cbn [fmap list_fmap concat].
  split; [by rewrite Hh', Hh, <- app_assoc|]. split; [by rewrite Hl', Hl2, Hl, <- app_assoc|]. rewrite E', E2.
  cbn [gb_cnfg gb_hash gb_mmap gb_perm gb_tcsp fmap list_fmap concat]. rewrite <- !app_assoc.
  split; [done|]. split; [lia|]. split; [congruence|].
  constructor; [unfold inside; rewrite <- Hs; exact Hin|]. by rewrite <- Hs, <- Hs2.
Qed.

Lemma land_power_of_two n : is_power_of_two n = true → 0 < n.
Proof. unfold is_power_of_two. intros E. bool_to_prop. lia. Qed.

Lemma SgxBuilder_try_from_spec config (w : W) b w' :
  gc_size config < 2 ^ 64 → SgxBuilder_try_from config w = Return (Ok b, w') →
  ∃ base, b = mkSgxBuilder config (hash_new (gc_size config) (gc_ssap config)) (base, gc_size config) [] [] ∧
    base mod gc_size config = 0 ∧ 0 ≤ base ∧ 0 < gc_size config ∧ base + gc_size config ≤ 2 ^ 64 ∧
    enclave_size w' = gc_size config ∧ mrlog w' = mr_create (gc_size config) (gc_ssap config) ∧ maps w' = maps w.
Proof.
  intros Hlt. unfold SgxBuilder_try_from. destruct (is_power_of_two _) eqn:Ep; cbn [negb]; [|done].
  apply land_power_of_two in Ep. intros Eq. set (n := gc_size config) in *.
  apply fal_bind_inv in Eq as (a & w1 & E1 & Eq). apply on_world_ok in E1.
  apply fal_bind_inv in Eq as ([l1 m1] & w2 & E2 & Eq). unfold try in E2. injection E2 as E2 <-.
  apply fal_bind_inv in Eq as ([m2 r2] & w3 & E3 & Eq). injection E3 as E3 <-.
  apply fal_bind_inv in Eq as ([] & w4 & E4 & Eq). apply on_world_ok in E4.
  apply fal_bind_inv in Eq as ([] & w5 & E5 & Eq). apply on_world_ok in E5. injection Eq as <- <-.
  pose proof (sd_maps_reserved (as_usize (n * 2)) w) as M1. rewrite E1 in M1.
  pose proof (sd_maps_open w1) as M4. rewrite E4 in M4.
  pose proof (sd_maps_create (mkSecs (gc_parameters config) (fst m2) (snd m2) (gc_ssap config)) w4) as M5.
  rewrite E5 in M5. cbn [snd] in *. apply sd_reserved in E1 as [Ha Han]. apply sd_create in E5 as [E5 E6]. cbn in E5, E6.
  apply ms_split_at in E2 as [Hat ->]. apply ms_split in E3 as [Hn ->]. cbn [fst snd] in *.
  eexists. split; [reflexivity|]. split_and!; [|lia|lia|lia|done|done|congruence].
  assert (Hz : 0 ≤ as_usize (a + n - 1) < 2 ^ 64) by (unfold as_usize; apply Z.mod_pos_bound; lia).
  rewrite as_usize_id by (split; [apply Z.mul_nonneg_nonneg; [apply Z.div_pos; lia|lia]|];
    pose proof (Z.mul_div_le (as_usize (a + n - 1)) n ltac:(lia)); lia).
  by apply Z_mod_mult.
Qed.

Lemma fix_permissions_maps perm : ∀ (w : W) w', fix_permissions perm w = Return (Ok (), w') →
  mrenclave w' = mrenclave w ∧ einit_body w' = einit_body w ∧ maps w' = maps w ++ ((λ '(addr, size, si), (addr, size, fixup_prot si)) <$> perm).
Proof.
  induction perm as [|[[addr size] si] perm IH]; intros w w' Eq; cbn [fix_permissions] in Eq.
  { injection Eq as <-. by rewrite app_nil_r. }
  apply fal_bind_inv in Eq as ([] & w1 & E1 & Eq). apply on_world_ok in E1. apply sd_map in E1 as (Hm1 & Hb1 & Hm2).
  apply IH in Eq as (Hm3 & Hb2 & Hm4). by rewrite Hm3, Hb2, Hm4, Hm1, Hb1, Hm2, <- app_assoc.
Qed.

Lemma signature_of_spec b (w : W) sig w' : signature_of b w = Return (Ok sig, w') →
  maps w' = maps w ∧ mrlog w' = mrlog w ∧
  signature_body sig = match gc_signatures (gb_cnfg b) with
    | Some s => signature_body (sig_sgx s)
    | None => parameters_body (gc_parameters (gb_cnfg b)) (hash_finish (gb_hash b))
    end.
Proof.
  unfold signature_of. destruct (gc_signatures _) as [sigs|].
  { destruct (_ =? _); [|done]. by intros [= <- <-]. }
  intros Eq. apply fal_bind_inv in Eq as (found & w1 & E1 & Eq). apply on_world_ok in E1.
  apply fal_bind_inv in Eq as (key & w2 & E2 & Eq). unfold try in Eq. injection Eq as Eq <-.
  pose proof (sd_maps_test_key w) as M1. pose proof (sd_log_test_key w) as L1.
  destruct (test_key w) as [k w3]. injection E1 as -> ->. cbn [snd] in M1, L1.
  rewrite (sc_signed _ _ _ Eq). destruct found as [k|]; [by injection E2 as _ <-|].
  apply on_world_ok in E2. pose proof (sd_maps_key w1) as M2. pose proof (sd_log_key w1) as L2. rewrite E2 in M2, L2.
  cbn [snd] in M2, L2. split_and!; congruence.
Qed.

Lemma SgxBuilder_into_spec b (w : W) keep w' : SgxBuilder_into b w = Return (Ok keep, w') →
  keep = mkSgxKeep (gc_block_size (gb_cnfg b)) (gb_mmap b) (gb_tcsp b) ∧
  mrenclave w' = sha256 (mrlog w) ∧ body_hash (einit_body w') = sha256 (mrlog w) ∧
  einit_body w' = match gc_signatures (gb_cnfg b) with
    | Some s => signature_body (sig_sgx s)
    | None => parameters_body (gc_parameters (gb_cnfg b)) (hash_finish (gb_hash b))
    end ∧
  maps w' = maps w ++ ((λ '(addr, size, si), (addr, size, fixup_prot si)) <$> sort_fixups (gb_perm b)).
Proof.
  unfold SgxBuilder_into. intros Eq. apply fal_bind_inv in Eq as (sig & w1 & E1 & Eq).
  apply fal_bind_inv in Eq as ([] & w2 & E2 & Eq). apply on_world_ok in E2.
  apply fal_bind_inv in Eq as ([] & w3 & E3 & Eq). apply fal_bind_inv in Eq as (c & w4 & E4 & Eq).
  apply on_world_ok in E4. destruct (sd_clone w3) as (C1 & C2 & C3). destruct (try_clone w3) as [r w5].
  injection E4 as -> ->. cbn [snd] in C1, C2, C3. destruct c; [|done]. injection Eq as <- <-.
  apply signature_of_spec in E1 as (M1 & L1 & Hs). pose proof (sd_maps_init sig w1) as M2. rewrite E2 in M2. cbn [snd] in M2.
  apply sd_init in E2 as (I1 & I2 & I3). apply fix_permissions_maps in E3 as (F1 & F2 & F3).
  rewrite C1, C2, C3, F1, F2, F3, I1, I2, I3, L1, Hs. split_and!; congruence.
Qed.

End builder.

(** ** Permissions and order *)

(** The protection of a segment: the bits of its flags, and read-write for thread
    control structures *)
Definition elf_prot (flags : Z) : Z :=
  if Z.testbit flags 20 then 3
  else (if Z.testbit flags 2 then 1 else 0) + (if Z.testbit flags 1 then 2 else 0) + (if Z.testbit flags 0 then 4 else 0).

Lemma land_bit flags i : 0 ≤ i → (Z.land flags (Z.shiftl 1 i) =? 0) = negb (Z.testbit flags i).
Proof.
  intros Hi. destruct (Z.testbit flags i) eqn:E; cbn [negb].
  - apply Z.eqb_neq. intros Hz. apply (f_equal (λ z, Z.testbit z i)) in Hz.
    rewrite Z.land_spec, E, Z.shiftl_spec, Z.sub_diag, Z.bits_0 in Hz by lia. done.
  - apply Z.eqb_eq, Z.bits_inj. intros j. rewrite Z.land_spec, Z.bits_0.
    destruct (decide (j = i)) as [->|Hj]; [by rewrite E|]. rewrite Z.shiftl_1_l, Z.pow2_bits_false by lia. apply andb_false_r.
Qed.

Lemma fixup_prot_elf flags : fixup_prot (fst (SgxConfig_flags flags)) = elf_prot flags.
Proof.
  unfold SgxConfig_flags, elf_prot. cbn [fst].
  rewrite (land_bit flags 20 ltac:(lia) : (Z.land flags elf.TCS =? 0) = _).
  rewrite (land_bit flags 2 ltac:(lia) : (Z.land flags PF_R =? 0) = _).
  rewrite (land_bit flags 1 ltac:(lia) : (Z.land flags PF_W =? 0) = _).
  rewrite (land_bit flags 0 ltac:(lia) : (Z.land flags PF_X =? 0) = _).
  by destruct (Z.testbit flags 20), (Z.testbit flags 2), (Z.testbit flags 1), (Z.testbit flags 0).
Qed.

Definition before (x y : Z * Z * SecInfo) : Prop := fst (fst x) ≤ fst (fst y).

Lemma insert_fixup_perm x l : insert_fixup x l ≡ₚ x :: l.
Proof.
  induction l as [|y l IH]; [done|]. cbn [insert_fixup]. destruct (_ <=? _); [done|]. rewrite IH. apply perm_swap.
Qed.

Lemma sort_fixups_perm l : sort_fixups l ≡ₚ l.
Proof. induction l as [|x l IH]; [done|]. cbn [sort_fixups]. by rewrite insert_fixup_perm, IH. Qed.

Lemma insert_fixup_sorted x l : StronglySorted before l → StronglySorted before (insert_fixup x l).
Proof.
  induction 1 as [|y l Hl IH Hy]; cbn [insert_fixup]; [by repeat constructor|].
  destruct (_ <=? _) eqn:E; bool_to_prop.
  - constructor; [by constructor|]. constructor; [done|]. eapply Forall_impl; [exact Hy|]. unfold before. intros; lia.
  - constructor; [done|]. rewrite insert_fixup_perm. constructor; [unfold before; lia|done].
Qed.

Lemma sort_fixups_sorted l : StronglySorted before (sort_fixups l).
Proof. induction l as [|x l IH]; cbn [sort_fixups]; [constructor|]. by apply insert_fixup_sorted. Qed.

Lemma elem_of_control base r x : x ∈ control base r →
  base + r_to r ≤ x < base + r_to r + Z.of_nat (length (r_bytes r)).
Proof.
  unfold control. destruct (fst _); [by intros ?%elem_of_nil|]. intros (i & -> & Hi)%list_elem_of_fmap.
  apply elem_of_seqZ in Hi. unfold PAGE in *. dlia.
Qed.

Lemma control_NoDup base r : NoDup (control base r).
Proof.
  unfold control. destruct (fst _); [constructor|]. apply NoDup_fmap_2; [|apply NoDup_seqZ].
  intros i j E. unfold PAGE in E. lia.
Qed.

Lemma controls_NoDup base rs : ForallOrdPairs region_apart rs → NoDup (concat (control base <$> rs)).
Proof.
  induction 1 as [|r rs Hr Hrs IH]; cbn [fmap list_fmap concat]; [constructor|].
  apply NoDup_app. split; [apply control_NoDup|]. split; [|exact IH]. intros x Hx%elem_of_control Hc.
  apply list_elem_of_In, in_concat in Hc as (l & Hl & Hc). apply list_elem_of_In, list_elem_of_fmap in Hl as (r' & -> & Hr').
  apply list_elem_of_In, elem_of_control in Hc. rewrite Forall_forall in Hr.
  apply list_elem_of_In in Hr' as Hi. apply Hr in Hr'. unfold region_apart in Hr'. lia.
Qed.

Definition with_prot (x : Z * Z * SecInfo) : Z * Z * Z := let '(addr, size, si) := x in (addr, size, fixup_prot si).

Lemma with_prot_sorted l : StronglySorted before l → StronglySorted (λ x y, fst (fst x) ≤ fst (fst y)) (with_prot <$> l).
Proof.
  induction 1 as [|x l Hl IH Hx]; cbn [fmap list_fmap]; [constructor|]. constructor; [exact IH|].
  apply Forall_fmap. eapply Forall_impl; [exact Hx|]. by intros [[? ?] ?]; destruct x as [[? ?] ?].
Qed.

Lemma with_prot_fixups base rs : with_prot <$> concat (fixup base <$> rs) =
  (λ r, (base + r_to r, Z.of_nat (length (r_bytes r)), elf_prot (r_flags r))) <$> filter (λ r, r_bytes r ≠ []) rs.
Proof.
  induction rs as [|r rs IH]; [done|]. rewrite fmap_cons. cbn [concat]. rewrite fmap_app, IH, filter_cons.
  unfold fixup at 1. case_bool_decide as Hr.
  - rewrite decide_False by tauto. done.
  - rewrite decide_True by done. rewrite fmap_cons. cbn [fmap list_fmap with_prot app]. by rewrite fixup_prot_elf.
Qed.

(** ** The enclave *)

Lemma SgxConfig_new_spec `{Goblin} shim exec sigs cfg : SgxConfig_new shim exec sigs = Ok cfg →
  gc_signatures cfg = sigs ∧ gc_size cfg < 2 ^ 64.
Proof.
  unfold SgxConfig_new. repeat (case_match; try done). intros [= <-]. split; [done|]. cbn [gc_size].
  unfold as_usize. apply Z.mod_pos_bound. lia.
Qed.

(** Signatures are not used for anything else. *)
Lemma SgxConfig_new_sigs `{Goblin} shim exec sigs sigs' cfg cfg' :
  SgxConfig_new shim exec sigs = Ok cfg → SgxConfig_new shim exec sigs' = Ok cfg' →
  gc_size cfg = gc_size cfg' ∧ gc_ssap cfg = gc_ssap cfg' ∧ gc_parameters cfg = gc_parameters cfg'.
Proof. unfold SgxConfig_new. repeat (case_match; try done). by intros [= <-] [= <-]. Qed.

Section launch.
Context {W : Type} `{SgxDeviceLaws W, MapSplitLaws, GoblinLaws, !UnstableSort, !Semver}.

Lemma cuts_whole_pages hs segs rs : headers_wf hs → Forall2 cut hs segs → Forall2 copy_of segs rs →
  Forall whole_pages rs.
Proof.
  intros Hw Hc Hr. apply Forall_lookup. intros i r Hri.
  destruct (Forall2_lookup_r _ _ _ _ _ Hr Hri) as (seg & Hseg & Hco).
  destruct (Forall2_lookup_r _ _ _ _ _ Hc Hseg) as (h & Hh & Hcu).
  destruct (Forall_lookup_1 _ _ _ _ Hw Hh) as [Hz Hwf].
  by destruct (cut_bounds _ _ _ Hz Hwf Hcu Hco) as (? & ? & ? & ? & ?).
Qed.

(** What a builder that succeeds has done. *)
Lemma sgx_launched shim exec sigs (w : W) keep w' sbin ebin sh :
  load (T := SgxBuilder) shim exec sigs w = Return (Ok keep, w') →
  Binary_new shim = Ok sbin → Binary_new exec = Ok ebin → head (headers sbin elf.EXEC) = Some sh →
  header_wf 0 sh → headers_wf (all_headers sbin ebin (p_vaddr sh)) →
  ∃ cfg base ss es rs,
    SgxConfig_new sbin ebin sigs = Ok cfg ∧ segments sbin 0 = Return ss ∧ segments ebin (p_vaddr sh) = Return es ∧
    Forall2 cut (all_headers sbin ebin (p_vaddr sh)) (ss ++ es) ∧ Forall2 copy_of (ss ++ es) rs ∧
    ForallOrdPairs apart (ss ++ es) ∧
    (let m := sha256 (mr_create (gc_size cfg) (gc_ssap cfg) ++ concat (region_log <$> rs)) in
     mrenclave w' = m ∧ body_hash (einit_body w') = m ∧
     einit_body w' = match sigs with
       | Some s => signature_body (sig_sgx s)
       | None => parameters_body (gc_parameters cfg) m
       end) ∧
    keep = mkSgxKeep (gc_block_size cfg) (base, gc_size cfg) (concat (control base <$> rs)) ∧
    base mod gc_size cfg = 0 ∧ Forall (inside (gc_size cfg)) rs ∧
    maps w' = maps w ++ (with_prot <$>
      sort_fixups (concat (fixup base <$> rs))).
Proof.
  intros Eb Hs He Hh Hsh Hw.
  destruct (load_regions _ _ _ _ _ _ _ _ _ Eb Hs He Hh Hsh Hw) as (cfg & b0 & w0 & ss & es & rs & b1 & w1 &
    Ec & El & Hm & Ei & Ess & Ees & Hcut & Hrs & Ha & _).
  destruct (SgxConfig_new_spec _ _ _ _ Ec) as [Hsig Hsz].
  apply SgxBuilder_try_from_spec in El as (base & -> & Hal & Hb & Hn & Hbs & Hes & Hl0 & Hm0); [|done].
  apply sgx_builder_maps in Hm as (Hha & Hl1 & E1 & Hs1 & Hm1 & Hin); [|by eapply cuts_whole_pages|done|cbn; lia].
  apply SgxBuilder_into_spec in Ei as (-> & Hmr & Hbh & Hbd & Hmp).
  cbn [gb_hash] in Hha. rewrite sc_new in Hha. rewrite Hl1, Hl0 in Hmr, Hbh.
  rewrite sc_finish, Hha in Hbd. rewrite E1 in Hbd, Hmp |- *. cbn in Hbd, Hmp |- *. rewrite Hsig in Hbd.
  exists cfg, base, ss, es, rs. rewrite Hes in Hin. split_and!; try done. by rewrite Hmp, Hm1, Hm0.
Qed.


(** C10: the address space of a keep.  When [Builder] succeeds, the enclave is at a
    multiple of its size; the mappings made on top of the range that was reserved
    are exactly one per segment that is not empty, in the order of addresses, each
    with the permissions of its segment (read and write for thread control
    structures), and all inside that range; and the pool of thread control structures
    holds every page of the segments for them, each once. *)
Theorem sgx_mappings_exact shim exec sigs (w : W) keep w' sbin ebin sh :
  load (T := SgxBuilder) shim exec sigs w = Return (Ok keep, w') →
  Binary_new shim = Ok sbin → Binary_new exec = Ok ebin → head (headers sbin elf.EXEC) = Some sh →
  header_wf 0 sh → headers_wf (all_headers sbin ebin (p_vaddr sh)) →
  ∃ base size rs new,
    gk_mem keep = (base, size) ∧ base mod size = 0 ∧
    Forall2 placed (all_headers sbin ebin (p_vaddr sh)) rs ∧ ForallOrdPairs region_apart rs ∧
    maps w' = maps w ++ new ∧ StronglySorted (λ x y, fst (fst x) ≤ fst (fst y)) new ∧
    new ≡ₚ (λ r, (base + r_to r, Z.of_nat (length (r_bytes r)), elf_prot (r_flags r))) <$>
             filter (λ r, r_bytes r ≠ []) rs ∧
    Forall (λ '(addr, n, _), base ≤ addr ∧ addr + n ≤ base + size) new ∧
    gk_tcs keep = concat (control base <$> rs) ∧ NoDup (gk_tcs keep).
Proof.
  intros Eb Hs He Hh Hsh Hw.
  destruct (sgx_launched _ _ _ _ _ _ _ _ _ Eb Hs He Hh Hsh Hw) as (cfg & base & ss & es & rs &
    Ec & Ess & Ees & Hcut & Hrs & Ha & _ & -> & Hal & Hin & Hmp).
  destruct (copies_placed _ _ _ Hw Hcut Hrs) as [Hpl Hap]. apply Hap in Ha. clear Hap.
  pose proof (cuts_whole_pages _ _ _ Hw Hcut Hrs) as Hwp.
  assert (Hperm : with_prot <$> sort_fixups (concat (fixup base <$> rs)) ≡ₚ
    (λ r, (base + r_to r, Z.of_nat (length (r_bytes r)), elf_prot (r_flags r))) <$> filter (λ r, r_bytes r ≠ []) rs).
  { rewrite <- with_prot_fixups. apply fmap_Permutation, sort_fixups_perm. }
  eexists base, (gc_size cfg), rs, _. cbn [gk_mem gk_tcs]. split_and!; [done..|exact Hmp| |exact Hperm| |done|].
  - apply with_prot_sorted, sort_fixups_sorted.
  - rewrite Hperm, Forall_fmap. apply Forall_forall. intros r [Hne Hr]%list_elem_of_filter.
    rewrite Forall_forall in Hin, Hwp. specialize (Hin _ Hr Hne). destruct (Hwp _ Hr) as [Ht _]. cbn. lia.
  - by apply controls_NoDup.
Qed.

End launch.

(** ** The pool *)

Lemma pool_step_perm p p' : pool_step p p' →
  pool_tcs p' ++ pool_threads p' ≡ₚ pool_tcs p ++ pool_threads p.
Proof.
  destruct 1 as [p|p i].
  - unfold sgx_spawn. destruct (last (pool_tcs p)) as [tcs|] eqn:El; [|done]. cbn.
    apply last_Some in El as [l ->]. rewrite removelast_last. rewrite <- app_assoc.
    apply Permutation_app_head, Permutation_app_comm.
  - unfold sgx_drop_thread. destruct (pool_threads p !! i) as [tcs|] eqn:Ei; [|done]. cbn.
    rewrite <- app_assoc. apply Permutation_app_head. symmetry. by apply delete_Permutation.
Qed.

Lemma pool_steps_perm p p' : rtc pool_step p p' → pool_tcs p' ++ pool_threads p' ≡ₚ pool_tcs p ++ pool_threads p.
Proof. induction 1 as [|p p1 p2 Hs _ IH]; [done|]. by rewrite IH, (pool_step_perm _ _ Hs). Qed.

(** Thread control structures are exclusive.  Through any sequence of threads
    that are spawned and dropped, no two living threads of a keep have the same
    control structure, none is both in the pool and in use, and none is lost; and
    [sgx_spawn] has a structure to give as long as fewer threads live than there are. *)
Theorem tcs_exclusive (tcs : list Z) p : NoDup tcs → rtc pool_step (mkPool tcs []) p →
  NoDup (pool_threads p) ∧ (∀ t, t ∈ pool_threads p → t ∉ pool_tcs p) ∧
  pool_tcs p ++ pool_threads p ≡ₚ tcs ∧
  (is_Some (fst (sgx_spawn p)) ↔ (length (pool_threads p) < length tcs)%nat).
Proof.
  intros Hn Hr. assert (Hp : pool_tcs p ++ pool_threads p ≡ₚ tcs).
  { apply pool_steps_perm in Hr. cbn in Hr. by rewrite app_nil_r in Hr. }
  rewrite <- Hp in Hn. apply NoDup_app in Hn as (_ & Hd & Ht). split; [done|]. split; [by intros t H1 H2; apply (Hd t)|].
  split; [done|]. apply Permutation_length in Hp. rewrite length_app in Hp. unfold sgx_spawn.
  destruct (last (pool_tcs p)) as [t|] eqn:El.
  - apply last_Some in El as [l Hl]. rewrite Hl, length_app in Hp. cbn [length fst] in *. split; [lia|eauto].
  - apply last_None in El. rewrite El in Hp. cbn [length fst] in *. split; [by intros []|lia].
Qed.

Lemma tcs_exclusive_witness :
  NoDup (pool_threads (sgx_drop_thread 0 (snd (sgx_spawn (snd (sgx_spawn (mkPool [8192; 12288; 16384] []))))))) .
Proof.
  apply (tcs_exclusive [8192; 12288; 16384]).
  - repeat (apply NoDup_cons; split; [set_solver|]). apply NoDup_nil_2.
  - eapply rtc_l; [apply step_spawn|]. eapply rtc_l; [apply step_spawn|]. eapply rtc_l; [apply (step_drop _ 0)|].
    apply rtc_refl.
Defined.
