(* ===== verification/LoadSample.v ===== *)
(** * Loading a small shim and executable

    Instances of the parameters of the loaders, and the properties of the loaders
    evaluated with them: a parser that knows three files, a machine whose firmware
    keeps the launch digest, and a checksum in the place of SHA-384. *)

From stdpp Require Import sorting.
From S2P Require Import Prelude Memory Libc PhaseAlloc Items Host HostLaws Backend KvmHost Loader LoaderLaws SnpLoad SnpLoadLaws.
From S2P Require Import SgxLoad SgxLoadLaws.

Definition shim_file : list Z := [1; 2; 3; 4; 5; 6; 7; 8; 9; 10; 11; 12].
Definition exec_file : list Z := [21; 22; 23; 24].

Definition sally_note (kind : Z) (desc : list Z) : option Note := Some (mkNote kind elf.NAME desc).

Definition exec_header : ProgramHeader := mkProgramHeader elf.EXEC PF_R 0 0x10000 0 0x10000.

Definition shim_elf : Elf := mkElf ELFCLASS64 ELFDATA2LSB EV_CURRENT EM_X86_64 EV_CURRENT 0x2004
  [mkProgramHeader PT_LOAD (Z.lor PF_R elf.SALLYPORT) 0 0 0 0x1000;
   mkProgramHeader PT_LOAD (Z.lor PF_R elf.CPUID) 0 0x1000 0 0x1000;
   mkProgramHeader PT_LOAD (Z.lor PF_R PF_X) 2 0x2004 8 0x1000; exec_header]
  (Some [sally_note elf.REQUIRES [1]; sally_note elf.BLOCK_SIZE (to_le_bytes 8 4096);
         sally_note elf.POLICY (to_le_bytes 8 0x30000); sally_note elf.FAMILY_ID (repeat 7 16);
         sally_note elf.IMAGE_ID (repeat 8 16); sally_note elf.SNP_SVN (to_le_bytes 4 1); None]).

Definition exec_elf : Elf := mkElf ELFCLASS64 ELFDATA2LSB EV_CURRENT EM_X86_64 EV_CURRENT 0
  [mkProgramHeader PT_LOAD (Z.lor PF_R PF_X) 0 0 4 16] None.

(** A shim for SGX: two thread control structures, code, and an empty segment *)
Definition enclave_file : list Z := 0 :: shim_file.
Definition enclave_elf : Elf := mkElf ELFCLASS64 ELFDATA2LSB EV_CURRENT EM_X86_64 EV_CURRENT 0x2004
  [mkProgramHeader PT_LOAD (Z.lor PF_R elf.TCS) 0 0 0 0x2000;
   mkProgramHeader PT_LOAD (Z.lor PF_R PF_X) 2 0x2004 8 0x1000;
   mkProgramHeader PT_LOAD PF_R 0 0x5000 0 0; exec_header]
  (Some [sally_note elf.REQUIRES [1]; sally_note elf.BLOCK_SIZE (to_le_bytes 8 4096);
         sally_note elf.MISC (repeat 0 4); sally_note elf.MISCMASK (repeat 0 4);
         sally_note elf.ATTR (repeat 4 16); sally_note elf.ATTRMASK (repeat 255 16);
         sally_note elf.PID [1; 0]; sally_note elf.SVN [2; 0]; sally_note elf.SSAP [1]; sally_note elf.BITS [17]]).

#[local] Instance three_files : Goblin := {|
  Elf_parse bytes :=
    if bool_decide (bytes = shim_file) then Ok shim_elf
    else if bool_decide (bytes = enclave_file) then Ok enclave_elf
    else if bool_decide (bytes = exec_file) then Ok exec_elf else Err E.Class;
  vm_range ph := (p_vaddr ph, p_vaddr ph + p_memsz ph);
  file_range ph := (p_offset ph, p_offset ph + p_filesz ph);
|}.

#[local] Instance three_files_laws : GoblinLaws.
Proof. by split. Qed.

Definition le_start (a b : Segment) : Prop := s_start a ≤ s_start b.
#[local] Instance le_start_dec : RelDecision le_start.
Proof. intros a b. unfold le_start. apply _. Defined.
#[local] Instance le_start_total : Total le_start.
Proof. intros a b. unfold le_start. lia. Qed.

#[local] Instance merge_start : UnstableSort := {|
  sort_by_start := merge_sort le_start;
  us_perm l := merge_sort_Permutation le_start l;
  us_sorted l := Sorted_merge_sort le_start l;
|}.

#[local] Instance any_version : Semver := λ bytes, negb (bool_decide (bytes = [])).
#[local] Instance one_address : Anonymous unit := λ _ w, (Ok 0x100000, w).

(** The empty list stands for the save area of the processor. *)
#[local] Instance checksum : Sha384 := λ bytes,
  if bool_decide (bytes = []) then SEV_SNP_VMSA_SHA384
  else to_le_bytes 48 (foldl (λ a b, (a * 17 + b) mod 65521) 1 bytes).

(** The machine is the launch digest. *)
#[local] Instance fw_kernel : Kernel (list Z) := {| kernel_syscall _ _ _ _ := None; kernel_cpuid _ _ _ := (0, 0, 0, 0) |}.
#[local] Instance fw_kvm : KvmEnv (list Z) := {|
  vcpu_run _ k m := (inr None, k, m);
  sysconf_page_size _ := 4096;
  map_anonymous _ k := (inl 0x200000, k);
  set_user_memory_region _ k := (inl tt, k);
  get_nr_memslots _ := 32764;
  create_vcpu k := (inl 0, k);
|}.

(** It refuses a CPUID page whose size of the save area is large, and corrects it. *)
#[local] Instance fw_snp : SnpKernel (list Z) := {|
  kvm_new k := (Ok (), k);
  create_vm k := (Ok (), k);
  firmware_open k := (Ok (), k);
  snp_init k := (Ok (), k);
  snp_launch_start _ _ := (Ok (), repeat 0 48);
  register_enc_memory_region _ _ k := (Ok (), k);
  snp_launch_update u bytes k :=
    if (lu_page_type u =? 6) && bool_decide (bytes !! 40%nat = Some 99) then (Err (-1), <[40%nat:=0]> bytes, k)
    else (Ok (), bytes, fw_update u bytes k);
  snp_launch_finish _ k :=
    (Ok (), sha384 (fw_page_info (mkLaunchUpdate 0 0 0 0 2 0 0 0) k (sha384 []) 0xFFFFFFFFF000));
  get_supported_cpuid k := (Ok [mkKvmCpuidEntry 0 0 0 99 1 2 3], k);
|}.

#[local] Instance fw_laws : SnpLaws (list Z).
Proof.
  refine {| fw_digest := id; vmsa := [] |}; try done.
  - intros bytes. unfold sha384, checksum. case_bool_decide; [done|]. by rewrite length_to_le_bytes.
  - intros s k k'. by intros [= <-].
  - intros u bytes k bytes' k'. cbn. destruct (_ && _); [done|]. by intros [= _ <-].
  - intros u bytes k e bytes' k'. cbn. destruct (_ && _); [|done]. intros [= _ <- <-]. by rewrite length_insert.
  - intros f k k'. by intros [= <-].
Qed.

Definition shim_binary : Binary := mkBinary shim_file shim_elf.
Definition exec_binary : Binary := mkBinary exec_file exec_elf.

Lemma sample_headers_wf : headers_wf (all_headers shim_binary exec_binary (p_vaddr exec_header)).
Proof. by repeat constructor; cbn. Qed.

Lemma sample_header_wf : header_wf 0 exec_header.
Proof. by repeat constructor; cbn. Qed.

Lemma sample_hashed : ∃ idb, load (T := Hasher) shim_file exec_file None tt = Return (Ok idb, tt).
Proof.
  assert (Q : match load (T := Hasher) shim_file exec_file None tt with Return (Ok _, _) => True | _ => False end)
    by (vm_compute; exact I).
  destruct (load _ _ _ _) as [[[idb|e] []]| | |]; try destruct Q. by exists idb.
Qed.

Lemma sample_launched : ∃ keep k, load (T := SevBuilder) shim_file exec_file None [] = Return (Ok keep, k).
Proof.
  assert (Q : match load (T := SevBuilder) shim_file exec_file None [] with Return (Ok _, _) => True | _ => False end)
    by (vm_compute; exact I).
  destruct (load _ _ _ _) as [[[keep|e] k]| | |]; try destruct Q. by exists keep, k.
Qed.

Lemma load_exact_witness : ∃ idb cfg l0 rs l1,
  load (T := Hasher) shim_file exec_file None tt = Return (Ok idb, tt) ∧
  mapper_try_from cfg tt = Return (Ok l0, tt) ∧ mapped rs l0 tt l1 tt ∧ length rs = 4%nat.
Proof.
  destruct sample_hashed as [idb El].
  destruct (load_exact shim_file exec_file None tt idb tt shim_binary exec_binary exec_header El eq_refl eq_refl
    eq_refl sample_header_wf sample_headers_wf) as (cfg & l0 & [] & rs & l1 & [] & _ & Et & Hm & _ & Hp & _).
  exists idb, cfg, l0, rs, l1. split_and!; [exact El|exact Et|exact Hm|].
  by rewrite <- (Forall2_length _ _ _ Hp).
Defined.

Lemma snp_measured_witness : ∃ idb keep k,
  load (T := Hasher) shim_file exec_file None tt = Return (Ok idb, tt) ∧
  load (T := SevBuilder) shim_file exec_file None [] = Return (Ok keep, k) ∧ take 48 idb = fw_digest k.
Proof.
  destruct sample_hashed as [idb El]. destruct sample_launched as (keep & k & Eb).
  exists idb, keep, k. split_and!; [exact El|exact Eb|].
  refine (snp_measured shim_file exec_file None tt idb tt [] keep k shim_binary exec_binary exec_header El Eb
    eq_refl eq_refl eq_refl sample_header_wf sample_headers_wf _).
  by repeat constructor; cbn.
Defined.

(** ** An enclave *)

(** The measurement is a checksum; a signature is the body. *)
#[local] Instance sgx_checksum : SgxCrypto := {|
  SgxHash := list Z;
  hash_new := mr_create;
  hash_load bytes to si m h :=
    if Z.of_nat (length bytes) mod PAGE =? 0 then Ok (h ++ mr_pages to si m (page_chunks bytes)) else Err EINVAL;
  hash_finish h := sha384 h;
  parameters_body p h := svn p :: h;
  Signature_new key body := Ok body;
|}.

#[local] Instance sgx_checksum_laws : SgxCryptoLaws.
Proof.
  refine {| sha256 := sha384; hash_log h := h; signature_body sig := sig; body_hash := drop 1 |}; try done.
  - intros bytes to si m h h'. cbn [hash_load sgx_checksum]. destruct (_ =? _); [|done]. by intros [= <-].
  - by intros key body sig [= <-].
Defined.

#[local] Instance sample_split : MapSplit := {|
  map_split m n := if (0 <=? n) && (n <=? snd m) then Ok ((fst m, n), (fst m + n, snd m - n)) else Err EINVAL;
  map_split_at m a :=
    if (fst m <=? a) && (a <=? fst m + snd m) then Ok ((fst m, a - fst m), (a, fst m + snd m - a)) else Err EINVAL;
|}.

#[local] Instance sample_split_laws : MapSplitLaws.
Proof.
  split; intros m n l r; cbn; destruct (_ && _) eqn:E; try done; intros [= <- <-]; bool_to_prop; split; done || lia.
Qed.

(** The device: the size of the enclave, what was measured, the body of its
    signature and its measurement, and its mappings *)
Record sgx_world : Type := mkSgxWorld {
  sw_size : Z; sw_log : list Z; sw_init : list Z * list Z; sw_maps : list (Z * Z * Z);
}.
Definition new_world : sgx_world := mkSgxWorld 0 [] ([], []) [].

#[local] Instance sgx_address : Anonymous sgx_world := λ _ w, (Ok 0x100000, w).
#[local] Instance sample_device : SgxDevice sgx_world := {|
  map_reserved n w := (if n <=? 2 ^ 40 then Ok 0x7f0000001000 else Err ENOMEM, w);
  open_enclave w := (Ok (), w);
  enclave_create secs w :=
    (Ok (), mkSgxWorld (secs_size secs) (mr_create (secs_size secs) (secs_ssap secs)) (sw_init w) (sw_maps w));
  enclave_add_pages ap bytes w :=
    if ap_offset ap + ap_length ap <=? sw_size w then
      (Ok (mkAddPages (ap_src ap) (ap_offset ap) (ap_length ap) (ap_secinfo ap) (ap_flags ap) (ap_length ap)),
       mkSgxWorld (sw_size w)
         (sw_log w ++ mr_pages (ap_offset ap) (ap_secinfo ap) (Z.testbit (ap_flags ap) 0)
            (page_chunks (take (Z.to_nat (ap_length ap)) bytes))) (sw_init w) (sw_maps w))
    else (Err EINVAL, w);
  enclave_init sig w :=
    if bool_decide (drop 1 sig = sha384 (sw_log w))
    then (Ok (), mkSgxWorld (sw_size w) (sw_log w) (sig, sha384 (sw_log w)) (sw_maps w)) else (Err EPERM, w);
  test_key w := (None, w);
  generate_key w := (Ok [7], w);
  map_enclave addr size prot w :=
    (Ok (), mkSgxWorld (sw_size w) (sw_log w) (sw_init w) (sw_maps w ++ [(addr, size, prot)]));
  try_clone w := (Ok (), w);
|}.

#[local] Instance sample_device_laws : SgxDeviceLaws sgx_world.
Proof.
  refine {| enclave_size := sw_size; mrlog := sw_log; mrenclave w := snd (sw_init w);
            einit_body w := fst (sw_init w); maps := sw_maps |}; try done.
  - intros n w a w'. cbn. destruct (_ <=? _) eqn:E; [|done]. intros [= <- <-]. bool_to_prop. lia.
  - intros secs w w'. by intros [= <-].
  - intros ap bytes w ap' w'. cbn [enclave_add_pages sample_device]. destruct (_ <=? _) eqn:E; [|done].
    intros [= <- <-]. by bool_to_prop.
  - intros sig w w'. cbn [enclave_init sample_device]. case_bool_decide; [|done]. by intros [= <-].
  - intros addr size prot w w'. by intros [= <-].
  - intros ap bytes w. cbn [enclave_add_pages sample_device]. by destruct (_ <=? _).
  - intros sig w. cbn [enclave_init sample_device]. by case_bool_decide.
Qed.

Definition enclave_binary : Binary := mkBinary enclave_file enclave_elf.

Lemma enclave_headers_wf : headers_wf (all_headers enclave_binary exec_binary (p_vaddr exec_header)).
Proof. by repeat constructor; cbn. Qed.

Lemma sample_body : ∃ body, load (T := SgxHasher) enclave_file exec_file None tt = Return (Ok body, tt).
Proof.
  assert (Q : match load (T := SgxHasher) enclave_file exec_file None tt with Return (Ok _, _) => True | _ => False end)
    by (vm_compute; exact I).
  destruct (load _ _ _ _) as [[[body|e] []]| | |]; try destruct Q. by exists body.
Qed.

Lemma sample_enclave : ∃ keep w, load (T := SgxBuilder) enclave_file exec_file None new_world = Return (Ok keep, w).
Proof.
  assert (Q : match load (T := SgxBuilder) enclave_file exec_file None new_world with
              | Return (Ok _, _) => True | _ => False end) by (vm_compute; exact I).
  destruct (load _ _ _ _) as [[[keep|e] w]| | |]; try destruct Q. by exists keep, w.
Qed.


Lemma sgx_mappings_exact_witness : ∃ keep w base size,
  load (T := SgxBuilder) enclave_file exec_file None new_world = Return (Ok keep, w) ∧
  gk_mem keep = (base, size) ∧ base mod size = 0 ∧ NoDup (gk_tcs keep).
Proof.
  destruct sample_enclave as (keep & w & Eb).
  destruct (sgx_mappings_exact enclave_file exec_file None _ keep w enclave_binary exec_binary exec_header Eb
    eq_refl eq_refl eq_refl sample_header_wf enclave_headers_wf)
    as (base & size & rs & new & Hk & Ha & _ & _ & _ & _ & _ & _ & _ & Hn).
  exists keep, w, base, size. exact (conj Eb (conj Hk (conj Ha Hn))).
Defined.
