(* ===== verification/SgxHeap.v ===== *)
(** * The heap of the SGX shim

    [crates/shim-sgx/src/heap.rs]: the program break and the mappings of the
    workload, recorded in a ledger.  The ledger (the crate [mmledger]) is a
    parameter; addresses are byte addresses of pages, lengths count pages. *)

From S2P Require Import Prelude Memory Libc.

Definition PAGE_SIZE : Z := 4096.

(** [mmledger::Ledger]: a failing operation may leave a different ledger. *)
Class LedgerOps (L : Type) := {
  Access : Type;
  Access_from_bits_truncate : Z → Access;
  Ledger_new : Z → Z → L;
  ledger_contains : L → Z → Z → option Access;
  ledger_overlaps : L → Z → Z → bool;
  ledger_find_free_back : L → Z → option Z;
  ledger_map : L → Z → Z → Access → bool * L;
  ledger_unmap : L → Z → Z → bool * L;
}.

Definition ACCESS_READ_WRITE : Z := Z.lor PROT_READ PROT_WRITE.

Record Heap (L : Type) : Type := mkHeap {
  hp_start : Z;
  hp_end : Z;
  hp_brk : Z;
  hp_brk_max : Z;
  hp_ledger : L;
}.
Arguments mkHeap {L} _ _ _ _ _.
Arguments hp_start {L} _.
Arguments hp_end {L} _.
Arguments hp_brk {L} _.
Arguments hp_brk_max {L} _.
Arguments hp_ledger {L} _.

Section heap.
Context {L : Type} `{LedgerOps L}.

Definition Heap_new (start end_ : Z) : Heap L := mkHeap start end_ start start (Ledger_new start end_).

Definition Heap_contains (self : Heap L) (addr length : Z) : option Access :=
  ledger_contains (hp_ledger self) addr length.

Definition set_ledger (self : Heap L) (ledger : L) : Heap L :=
  mkHeap (hp_start self) (hp_end self) (hp_brk self) (hp_brk_max self) ledger.

Definition Heap_brk (self : Heap L) (next : Z) : Z * Heap L :=
  if (next <? hp_start self) || (hp_end self <=? next) then (hp_brk self, self)
  else if next <=? hp_brk_max self then
    (next, mkHeap (hp_start self) (hp_end self) next (hp_brk_max self) (hp_ledger self))
  else
    let length := (next - hp_brk_max self) / PAGE_SIZE in
    if ledger_overlaps (hp_ledger self) (hp_brk_max self) length then (hp_brk self, self)
    else
      let '(ok, ledger) := ledger_map (hp_ledger self) (hp_brk_max self) length
                             (Access_from_bits_truncate ACCESS_READ_WRITE) in
      if (ok : bool) then (next, mkHeap (hp_start self) (hp_end self) (hp_brk self) next ledger)
      else (hp_brk self, set_ledger self ledger).

Definition Heap_mmap (self : Heap L) (addr : option Z) (length : Z) (access : Access) : option Z * Heap L :=
  match (match addr with Some addr => Some addr | None => ledger_find_free_back (hp_ledger self) length end) with
  | None => (None, self)
  | Some addr =>
      let '(ok, ledger) := ledger_map (hp_ledger self) addr length access in
      ((if (ok : bool) then Some addr else None), set_ledger self ledger)
  end.

Definition Heap_munmap (self : Heap L) (addr length : Z) : bool * Heap L :=
  let '(ok, ledger) := ledger_unmap (hp_ledger self) addr length in (ok, set_ledger self ledger).

End heap.

(** ** What the ledger documents

    [recorded l p] is the access recorded for the page at [p]. *)

Definition in_pages (addr length p : Z) : Prop := addr ≤ p < addr + PAGE_SIZE * length.

Class LedgerLaws (L : Type) `{LedgerOps L} := {
  recorded : L → Z → option Access;
  lg_bounds : L → Z * Z;
  lg_new start end_ : lg_bounds (Ledger_new start end_) = (start, end_) ∧
    ∀ p, recorded (Ledger_new start end_) p = None;
  lg_map l addr n access l' : ledger_map l addr n access = (true, l') →
    lg_bounds l' = lg_bounds l ∧
    (∀ p, in_pages addr n p → recorded l' p = Some access) ∧
    (∀ p, ¬ in_pages addr n p → recorded l' p = recorded l p);
  lg_unmap l addr n l' : ledger_unmap l addr n = (true, l') →
    lg_bounds l' = lg_bounds l ∧
    (∀ p, in_pages addr n p → recorded l' p = None) ∧
    (∀ p, ¬ in_pages addr n p → recorded l' p = recorded l p);
  (** a failing operation records nothing new *)
  lg_map_failed l addr n access l' : ledger_map l addr n access = (false, l') →
    lg_bounds l' = lg_bounds l ∧ ∀ p, is_Some (recorded l' p) → is_Some (recorded l p);
  lg_unmap_failed l addr n l' : ledger_unmap l addr n = (false, l') →
    lg_bounds l' = lg_bounds l ∧ ∀ p, is_Some (recorded l' p) → is_Some (recorded l p);
  lg_overlaps l addr n : ledger_overlaps l addr n = false → ∀ p, in_pages addr n p → recorded l p = None;
  lg_contains l addr n access : ledger_contains l addr n = Some access →
    ∀ p, in_pages addr n p → is_Some (recorded l p);
  lg_free l n addr : ledger_find_free_back l n = Some addr →
    fst (lg_bounds l) ≤ addr ∧ addr + PAGE_SIZE * n ≤ snd (lg_bounds l) ∧
    addr mod PAGE_SIZE = 0 ∧ ∀ p, in_pages addr n p → recorded l p = None;
}.

Section laws.
Context {L : Type} `{LedgerLaws L}.

(** The break is inside the heap, and so is everything the ledger records; the
    heap lies below the kernel's half of the address space. *)
Record heap_wf (h : Heap L) : Prop := mkHeapWf {
  hw_brk : hp_start h ≤ hp_brk h ≤ hp_brk_max h;
  hw_max : hp_brk_max h ≤ hp_end h ≤ 2 ^ 47;
  hw_bounds : lg_bounds (hp_ledger h) = (hp_start h, hp_end h);
  hw_recorded : ∀ p, is_Some (recorded (hp_ledger h) p) → hp_start h ≤ p < hp_end h;
}.

Lemma Heap_new_wf start end_ : start ≤ end_ ≤ 2 ^ 47 → heap_wf (Heap_new start end_).
Proof.
  intros Hle. destruct (lg_new start end_) as [Hb Hr]. split; simpl; [lia|lia|done|].
  intros p [x E]. by rewrite Hr in E.
Qed.

(** Recording pages inside the heap, or fewer pages, keeps it well formed. *)
Lemma heap_wf_map h addr n access ok l' :
  heap_wf h → (∀ p, in_pages addr n p → hp_start h ≤ p < hp_end h) →
  ledger_map (hp_ledger h) addr n access = (ok, l') → heap_wf (set_ledger h l').
Proof.
  intros [B1 B2 B3 B4] Hin E. destruct ok.
  - destruct (lg_map _ _ _ _ _ E) as (Eb & Ein & Eout). split; simpl; [done|done|congruence|].
    intros p Hp. destruct (decide (addr ≤ p < addr + PAGE_SIZE * n)) as [Hi|Hi]; [by apply Hin|].
    rewrite Eout in Hp by exact Hi. by apply B4.
  - destruct (lg_map_failed _ _ _ _ _ E) as (Eb & Er). split; simpl; [done|done|congruence|auto].
Qed.

Lemma heap_wf_unmap h addr n ok l' :
  heap_wf h → ledger_unmap (hp_ledger h) addr n = (ok, l') → heap_wf (set_ledger h l').
Proof.
  intros [B1 B2 B3 B4] E. destruct ok.
  - destruct (lg_unmap _ _ _ _ E) as (Eb & Ein & Eout). split; simpl; [done|done|congruence|].
    intros p Hp. destruct (decide (addr ≤ p < addr + PAGE_SIZE * n)) as [Hi|Hi].
    + rewrite Ein in Hp by exact Hi. by destruct Hp.
    + rewrite Eout in Hp by exact Hi. by apply B4.
  - destruct (lg_unmap_failed _ _ _ _ E) as (Eb & Er). split; simpl; [done|done|congruence|auto].
Qed.

Lemma pages_below lo hi p : in_pages lo ((hi - lo) / PAGE_SIZE) p → lo ≤ p < hi.
Proof. unfold in_pages, PAGE_SIZE. intros Hp. Z.div_mod_to_equations. lia. Qed.

(** [brk] keeps the heap well formed and its bounds; it returns the old break,
    a break up to the highest one so far, or a new highest one. *)
Lemma Heap_brk_wf h next a h' :
  heap_wf h → Heap_brk h next = (a, h') →
  heap_wf h' ∧ hp_start h' = hp_start h ∧ hp_end h' = hp_end h ∧
  hp_start h ≤ a ∧ (a ≤ hp_brk_max h ∨ a = hp_brk_max h' ∧ a < hp_end h).
Proof.
  intros Hw. pose proof Hw as [B1 B2 B3 B4]. unfold Heap_brk.
  destruct (_ || _) eqn:E1; [intros [= <- <-]; split_and!; (done || lia)|]. bool_to_prop.
  destruct (next <=? hp_brk_max h) eqn:E2; bool_to_prop.
  { intros [= <- <-]. split_and!; simpl; try (done || lia). }
  destruct (ledger_overlaps _ _ _); [intros [= <- <-]; split_and!; (done || lia)|].
  destruct (ledger_map _ _ _ _) as [ok l'] eqn:Em.
  assert (Hw' : heap_wf (set_ledger h l')).
  { eapply heap_wf_map; [done| |done]. intros p Hp%pages_below. lia. }
  destruct ok; intros [= <- <-]; simpl; [|split_and!; (done || lia)].
  destruct Hw' as [C1 C2 C3 C4]. split_and!; try (done || lia). split; simpl in *; (done || lia).
Qed.

Lemma Heap_mmap_wf h addr n access a h' :
  heap_wf h → (∀ q, addr = Some q → ∀ p, in_pages q n p → hp_start h ≤ p < hp_end h) →
  Heap_mmap h addr n access = (a, h') →
  heap_wf h' ∧ hp_start h' = hp_start h ∧ hp_end h' = hp_end h ∧
  ∀ q, a = Some q → ∀ p, in_pages q n p → hp_start h ≤ p < hp_end h.
Proof.
  intros Hw Hin. unfold Heap_mmap. pose proof Hw as [B1 B2 B3 B4].
  assert (Hq : ∀ q, match addr with Some a => Some a | None => ledger_find_free_back (hp_ledger h) n end = Some q →
    ∀ p, in_pages q n p → hp_start h ≤ p < hp_end h).
  { intros q E p Hp. destruct addr as [q'|]; [by eapply Hin|]. destruct (lg_free _ _ _ E) as (F1 & F2 & _).
    rewrite B3 in F1, F2. simpl in *. unfold in_pages in Hp. lia. }
  destruct (match addr with Some _ => _ | None => _ end) as [q|]; [|intros [= <- <-]; by split_and!].
  destruct (ledger_map _ _ _ _) as [ok l'] eqn:Em. intros [= <- <-].
  split_and!; [|done|done|]; [eapply heap_wf_map; [done|by apply Hq|done]|].
  intros q' E. destruct ok; [|done]. injection E as <-. by apply Hq.
Qed.

Lemma Heap_munmap_wf h addr n ok h' :
  heap_wf h → Heap_munmap h addr n = (ok, h') →
  heap_wf h' ∧ hp_start h' = hp_start h ∧ hp_end h' = hp_end h.
Proof.
  intros Hw. unfold Heap_munmap. destruct (ledger_unmap _ _ _) as [ok' l'] eqn:Em. intros [= <- <-].
  split_and!; [|done|done]. by eapply heap_wf_unmap.
Qed.

End laws.
