(* ===== verification/SgxShim.v ===== *)
(** * The SGX shim

    [crates/shim-sgx/src/handler/mod.rs] and [main] of
    [crates/shim-sgx/src/main.rs]: the handler of the exceptions of the workload,
    with its implementation of the memory calls.  The instructions of the
    processor and the host behind [EEXIT] are parameters ([Enclave]).

    The crate is built with overflow checks; its debug output is off. *)

From S2P Require Import Prelude Memory Libc PhaseAlloc StagedValues Items Calls CallLaws StageKit.
From S2P Require Import SockTypes Syscalls Stubs SyscallLaws NumberCalls Platform Handler HandlerCalls Dispatch.
From S2P Require Import SgxHeap.

Definition ENCL_SIZE : Z := Z.shiftl 1 32.
Definition BLOCK_SIZE : Z := 69632.
Definition OP_SYSCALL : Z := 0x050f.
Definition OP_CPUID : Z := 0xa20f.
Definition TECH : Z := 2.

(** [handler/key.rs] *)
Definition SGX_KEY_LEN : Z := 16.
Inductive Names : Type := EinittokenKey | ProvisionKey | ProvisionSealKey | ReportKey | SealKey.
Definition Policy_MRSIGNER : Z := 2.
Record Request : Type := mkRequest {
  rq_name : Names; rq_policy : Z; rq_isvsvn : Z; rq_cet_attr_mask : Z; rq_rsvd : Z;
  rq_cpusvn : list Z; rq_attribute_mask : list Z; rq_keyid : list Z; rq_misc_mask : list Z;
  rq_config_svn : Z; rq_rsvd2 : list Z;
}.

(** [Request { name, policy, isvsvn, ..Default::default() }] *)
Definition Request_with (name : Names) (policy isvsvn : Z) : Request :=
  mkRequest name policy isvsvn 0 0 (repeat 0 16) (repeat 0 16) (repeat 0 32) (repeat 0 4) 0 (repeat 0 434).

(** The flags of a [SECINFO]. *)
Definition Flags_READ : Z := 1.
Definition Flags_MODIFIED : Z := 16.
Definition Flags_RESTRICTED : Z := 32.
Definition Flags_from_bits_truncate (bits : Z) : Z := Z.land bits 63.

Inductive Class_ : Type := Regular | Trimmed.

(** The processor, and the host that runs while the enclave is left.
    [EACCEPTCOPY], [EACCEPT] tell whether they succeeded. *)
Class Enclave (E : Type) := {
  enclave_exit : block → E → mem → E * mem;
  EACCEPTCOPY : Z → Z → Z → E → mem → bool * E * mem;
  EACCEPT : Class_ → Z → Z → E → bool * E;
  EMODPE : Z → Z → E → E;
  EGETKEY : Request → E → option (list Z);
  EREPORT : list Z → list Z → E → list Z;
  rdrand64_step : E → Z → nat * Z;
}.

(** The general purpose registers of the state save area. *)
Record Gpr : Type := mkGpr {
  rax : Z; rbx : Z; rcx : Z; rdx : Z; rsi : Z; rdi : Z; r8 : Z; r9 : Z; r10 : Z; rip : Z;
}.

Definition set_rax (v : Z) (g : Gpr) : Gpr :=
  mkGpr v (rbx g) (rcx g) (rdx g) (rsi g) (rdi g) (r8 g) (r9 g) (r10 g) (rip g).
Definition set_rdx (v : Z) (g : Gpr) : Gpr :=
  mkGpr (rax g) (rbx g) (rcx g) v (rsi g) (rdi g) (r8 g) (r9 g) (r10 g) (rip g).
Definition set_rip (v : Z) (g : Gpr) : Gpr :=
  mkGpr (rax g) (rbx g) (rcx g) (rdx g) (rsi g) (rdi g) (r8 g) (r9 g) (r10 g) v.

Inductive Vector : Type := InvalidOpcode | OtherVector (n : Z).

(** [Handler] with the block [b], the statics of the shim ([HEAP], [TLS],
    [ZERO]) and the places of the locals it passes by reference. *)
Record shim (b : block) (L E : Type) : Type := mkShim {
  sh_gpr : Gpr;
  sh_vector : option Vector;
  sh_heap : Heap L;
  sh_tls : ThreadLocalStorage;
  sh_env : E;
  sh_zero : Z;
  sh_cpuid_result : Z;
  sh_target_info : Z;
  sh_report : Z;
}.
Arguments mkShim {b L E} _ _ _ _ _ _ _ _ _.
Arguments sh_gpr {b L E} _.
Arguments sh_vector {b L E} _.
Arguments sh_heap {b L E} _.
Arguments sh_tls {b L E} _.
Arguments sh_env {b L E} _.
Arguments sh_zero {b L E} _.
Arguments sh_cpuid_result {b L E} _.
Arguments sh_target_info {b L E} _.
Arguments sh_report {b L E} _.

Section shim.
Context {b : block} {L E : Type} `{LedgerOps L, Enclave E}.
Let S_ := shim b L E.

Definition set_env (e : E) (s : S_) : S_ :=
  mkShim (sh_gpr s) (sh_vector s) (sh_heap s) (sh_tls s) e
    (sh_zero s) (sh_cpuid_result s) (sh_target_info s) (sh_report s).
Definition set_heap (h : Heap L) (s : S_) : S_ :=
  mkShim (sh_gpr s) (sh_vector s) h (sh_tls s) (sh_env s)
    (sh_zero s) (sh_cpuid_result s) (sh_target_info s) (sh_report s).
Definition set_tls (t : ThreadLocalStorage) (s : S_) : S_ :=
  mkShim (sh_gpr s) (sh_vector s) (sh_heap s) t (sh_env s)
    (sh_zero s) (sh_cpuid_result s) (sh_target_info s) (sh_report s).
Definition set_gpr (g : Gpr) (s : S_) : S_ :=
  mkShim g (sh_vector s) (sh_heap s) (sh_tls s) (sh_env s)
    (sh_zero s) (sh_cpuid_result s) (sh_target_info s) (sh_report s).

(** [sally]: [asm!("syscall")] raises an exception, which leaves the enclave. *)
#[global] Instance shim_handler : Handler S_ := {|
  sally w :=
    let '(e, m) := enclave_exit b (sh_env (w_self w)) (w_mem w) in
    Return (Ok (), mkWorld (set_env e (w_self w)) m);
  handler_block _ := b;
  handler_block_mut _ := b;
|}.

(** ** State *)

Definition asks {A : Type} (f : S_ → A) : handlerM S_ A := λ w, Return (Ok (f (w_self w)), w).
Definition modify (f : S_ → S_) : handlerM S_ unit := λ w,
  Return (Ok (), mkWorld (f (w_self w)) (w_mem w)).
Definition on_heap {A : Type} (f : Heap L → A * Heap L) : handlerM S_ A := λ w,
  let '(a, h) := f (sh_heap (w_self w)) in
  Return (Ok a, mkWorld (set_heap h (w_self w)) (w_mem w)).
Definition on_enclave {A : Type} (f : E → A * E) : handlerM S_ A := λ w,
  let '(a, e) := f (sh_env (w_self w)) in
  Return (Ok a, mkWorld (set_env e (w_self w)) (w_mem w)).
Definition reads {A : Type} (f : mem → A) : handlerM S_ A := λ w, Return (Ok (f (w_mem w)), w).
Definition writes (a : Z) (bs : list Z) : handlerM S_ unit := λ w,
  Return (Ok (), mkWorld (w_self w) (write_bytes (w_mem w) a bs)).

(** The [Result] of a call, to be inspected. *)
Definition attempt {A : Type} (m : handlerM S_ A) : handlerM S_ (result A) := λ w,
  '(r, w) ← m w; Return (Ok r, w).

(** [.unwrap_or_else(|_| self.attacked())] *)
Definition or_attacked (ok : bool) : handlerM S_ unit := λ w, if ok then Return (Ok (), w) else Attacked.
Definition call_or_attacked (m : handlerM S_ unit) : handlerM S_ unit :=
  r ← attempt m; or_attacked (is_ok r).

Definition panic {A : Type} : handlerM S_ A := λ _, Panicked.

(** [for i in 0..n { f(addr + i * Page::SIZE) }], with the address checked by
    [VirtAddr::new]. *)
Fixpoint for_pages (n : nat) (addr : Z) (f : Z → handlerM S_ unit) : handlerM S_ unit :=
  match n with
  | O => mret ()
  | S n =>
      page_addr ← must (VirtAddr_new addr);
      _ ← f page_addr;
      for_pages n (addr + PAGE_SIZE) f
  end.

(** ** Memory management *)

Definition is_prot_allowed (prot : Z) : bool :=
  (prot =? PROT_READ) || (prot =? Z.lor PROT_READ PROT_WRITE) || (prot =? Z.lor PROT_READ PROT_EXEC).

(** [(length + Page::SIZE - 1) & !(Page::SIZE - 1)] *)
Definition round_up (length : Z) : outcome Z :=
  sum ← add_usize length PAGE_SIZE;
  Return (Z.land (sum - 1) (Z.lxor usize_MAX (PAGE_SIZE - 1))).

Definition accept_copy (flags page_addr : Z) : handlerM S_ bool := λ w,
  let '(ok, e, m) := EACCEPTCOPY flags page_addr (sh_zero (w_self w)) (sh_env (w_self w)) (w_mem w) in
  Return (Ok ok, mkWorld (set_env e (w_self w)) m).

Definition mmap_guest_page (prot page_addr : Z) : handlerM S_ unit :=
  ok ← accept_copy (Flags_from_bits_truncate (as_u8 prot)) page_addr;
  or_attacked ok.

Definition mmap_guest (addr length prot : Z) : handlerM S_ unit :=
  zero ← asks sh_zero;
  _ ← must (VirtAddr_new zero);
  for_pages (Z.to_nat length) addr (mmap_guest_page prot).

Definition mprotect_page (prot page_addr : Z) : handlerM S_ unit :=
  ok ← on_enclave (EACCEPT Regular (Z.lor Flags_READ Flags_RESTRICTED) page_addr);
  _ ← or_attacked ok;
  on_enclave (λ e, ((), EMODPE (Flags_from_bits_truncate (as_u8 prot)) page_addr e)).

Definition mprotect_unlocked (addr_in length_in prot : Z) : handlerM S_ unit :=
  rounded ← must (round_up length_in);
  let pages := rounded / PAGE_SIZE in
  if negb (Z.land addr_in 0xfff =? 0) || (pages =? 0) then try (Err EINVAL)
  else if negb (is_prot_allowed prot) then try (Err EACCES)
  else
    contained ← asks (λ s, Heap_contains (sh_heap s) addr_in pages);
    match contained with
    | None => try (Err ENOMEM)
    | Some _ =>
        _ ← handler.mprotect_host addr_in (pages * PAGE_SIZE) prot;
        _ ← for_pages (Z.to_nat pages) addr_in (mprotect_page prot);
        _ ← on_heap (λ heap, Heap_mmap heap (Some addr_in) pages (Access_from_bits_truncate (as_usize prot)));
        mret ()
    end.

Definition munmap_page (page_addr : Z) : handlerM S_ unit :=
  ok ← on_enclave (EACCEPT Trimmed Flags_MODIFIED page_addr);
  or_attacked ok.

Definition munmap_unlocked (addr_in length_in : Z) : handlerM S_ unit :=
  rounded ← must (round_up length_in);
  let pages := rounded / PAGE_SIZE in
  if negb (Z.land addr_in 0xfff =? 0) || (pages =? 0) then try (Err EINVAL)
  else
    contained ← asks (λ s, Heap_contains (sh_heap s) addr_in pages);
    match contained with
    | None => mret ()
    | Some _ =>
        ok ← on_heap (λ heap, Heap_munmap heap addr_in pages);
        if negb ok then try (Err ENOMEM)
        else
          _ ← call_or_attacked (handler.trim_sgx_pages addr_in (pages * PAGE_SIZE));
          _ ← for_pages (Z.to_nat pages) addr_in munmap_page;
          call_or_attacked (handler.munmap_host addr_in (pages * PAGE_SIZE))
    end.

(** [NonNull::new(addr).unwrap()] *)
Definition non_null (addr : Z) : handlerM S_ Z := if addr =? 0 then panic else mret addr.

Definition shim_brk (addr : option Z) : handlerM S_ Z :=
  addr ← must (match addr with Some v => round_up v | None => Return 0 end);
  max ← asks (λ s, hp_brk_max (sh_heap s));
  addr ← on_heap (λ heap, Heap_brk heap addr);
  _ ← (if max <? addr then
         let prot := Z.lor PROT_READ PROT_WRITE in
         start ← non_null max;
         _ ← handler.mmap_host start (addr - max) prot;
         mmap_guest max ((addr - max) / PAGE_SIZE) prot
       else mret ());
  non_null addr.

Definition shim_mmap (addr : option Z) (len prot flags fd offset : Z) : handlerM S_ Z :=
  let addr := default 0 addr in
  let prot := Z.lor prot PROT_READ in
  if negb (addr =? 0) || (len =? 0) || negb (fd =? -1) || negb (offset =? 0) ||
     negb (flags =? Z.lor MAP_PRIVATE MAP_ANONYMOUS) then try (Err ENOTSUP)
  else if negb (prot =? 0) && negb (is_prot_allowed prot) then try (Err EACCES)
  else
    sum ← must (add_usize len PAGE_SIZE);
    let length := (sum - 1) / PAGE_SIZE in
    mapped ← on_heap (λ heap, Heap_mmap heap None length (Access_from_bits_truncate (as_usize prot)));
    match mapped with
    | None => try (Err ENOMEM)
    | Some addr =>
        ret ← non_null addr;
        _ ← handler.mmap_host addr (length * PAGE_SIZE) (Z.lor PROT_READ PROT_WRITE);
        _ ← mmap_guest addr length prot;
        if prot =? Z.lor PROT_READ PROT_WRITE then mret ret
        else
          protected ← attempt (mprotect_unlocked ret (length * PAGE_SIZE) prot);
          match protected with
          | Ok _ => mret ret
          | Err e => _ ← munmap_unlocked ret (length * PAGE_SIZE); try (Err e)
          end
    end.

(** [impl guest::Handler for Handler] *)
#[global] Instance shim_os : HandlerOS S_ := {|
  os_handler := shim_handler;
  thread_local_storage := sh_tls;
  set_thread_local_storage s t := set_tls t s;
  arch_prctl _ _ := try (Err ENOSYS);
  brk := shim_brk;
  madvise _ _ _ := mret ();
  mmap := shim_mmap;
  mprotect := mprotect_unlocked;
  munmap := munmap_unlocked;
  rdrand s := rdrand64_step (sh_env s);
|}.

(** ** Keys and attestation *)

Definition get_key (buf buf_len : Z) : handlerM S_ Z :=
  if buf =? 0 then mret SGX_KEY_LEN
  else if isize_MAX <? buf_len then try (Err EINVAL)
  else if buf_len <? SGX_KEY_LEN then try (Err EMSGSIZE)
  else
    buf ← try (validate_slice_mut ty_u8 buf buf_len);
    response ← asks (λ s, EGETKEY (Request_with SealKey Policy_MRSIGNER 0) (sh_env s));
    key ← try (ok_or response EIO);
    _ ← writes (g_ptr buf) key;
    mret SGX_KEY_LEN.

Definition get_attestation (hash hash_len buf buf_len : Z) : handlerM S_ (Z * Z) :=
  target_info ← asks (λ s, mkGref (sh_target_info s) 1 512);
  _ ← writes (g_ptr target_info) (repeat 0 512);
  _ ← handler.get_sgx_target_info target_info;
  quote_size ← handler.get_sgx_quote_size;
  if buf =? 0 then mret (quote_size, TECH)
  else if isize_MAX <? buf_len then try (Err EINVAL)
  else if buf_len <? quote_size then try (Err EMSGSIZE)
  else if negb (hash_len =? 64) then try (Err EINVAL)
  else
    h ← try (validate_slice ty_u8 hash hash_len);
    hash ← reads (λ m, read_bytes m (g_ptr h) 64);
    buf ← try (validate_slice_mut ty_u8 buf buf_len);
    info ← reads (λ m, read_bytes m (g_ptr target_info) 512);
    report ← asks (λ s, EREPORT info hash (sh_env s));
    place ← asks (λ s, mkGref (sh_report s) 1 512);
    _ ← writes (g_ptr place) report;
    len ← handler.get_sgx_quote place buf;
    mret (len, TECH).

(** ** Exceptions *)

Definition gpr {A : Type} (f : Gpr → A) : handlerM S_ A := asks (λ s, f (sh_gpr s)).
Definition modify_gpr (f : Gpr → Gpr) : handlerM S_ unit := modify (λ s, set_gpr (f (sh_gpr s)) s).

(** [self.ssa.gpr.rip += 2] *)
Definition skip_instruction : handlerM S_ unit :=
  old ← gpr rip;
  new ← must (add_usize old 2);
  modify_gpr (set_rip new).

(** [match ret { Err(e) => rax = -e as u64, Ok(..) => .. }] *)
Definition set_result (ret : result (Z * Z)) : handlerM S_ unit :=
  match ret with
  | Err e => modify_gpr (set_rax (as_u64 (- e)))
  | Ok (rax, rdx) => modify_gpr (λ g, set_rdx rdx (set_rax rax g))
  end.

Definition handle_syscall : handlerM S_ unit :=
  g ← gpr id;
  let orig_rdx := rdx g in
  let nr := rax g in
  let keeping_rdx (ret : result Z) : result (Z * Z) :=
    match ret with Ok v => Ok (v, orig_rdx) | Err e => Err e end in
  _ ← (if as_i64 nr =? enarxcall.SYS_GETKEY then
         ret ← attempt (get_key (rdi g) (rsi g));
         set_result (keeping_rdx ret)
       else if as_i64 nr =? enarxcall.SYS_GETATT then
         ret ← attempt (get_attestation (rdi g) (rsi g) (rdx g) (r10 g));
         set_result ret
       else
         ret ← attempt (syscall nr (rdi g) (rsi g) (rdx g) (r10 g) (r8 g) (r9 g));
         set_result (keeping_rdx (match ret with Ok (v, _) => Ok v | Err e => Err e end)));
  skip_instruction.

Definition handle_cpuid : handlerM S_ unit :=
  g ← gpr id;
  result ← asks (λ s, mkGref (sh_cpuid_result s) 1 (l_size CpuidResult));
  _ ← writes (g_ptr result) (repeat 0 16);
  ret ← attempt (handler.cpuid (as_u32 (rax g)) (as_u32 (rcx g)) result);
  match ret with
  | Err _ => panic
  | Ok _ =>
      reg ← reads (λ m i, read_u32 m (g_ptr result + 4 * i));
      _ ← modify_gpr (λ g, mkGpr (reg 0) (reg 1) (reg 2) (reg 3)
                             (rsi g) (rdi g) (r8 g) (r9 g) (r10 g) (rip g));
      skip_instruction
  end.

(** The two bytes at [rip]. *)
Definition opcode (g : Gpr) (m : mem) : Z := from_le_bytes (read_bytes m (rip g) 2).

Definition handle : handlerM S_ unit :=
  vector ← asks sh_vector;
  match vector with
  | Some InvalidOpcode =>
      g ← gpr id;
      op ← reads (opcode g);
      if op =? OP_SYSCALL then handle_syscall
      else if op =? OP_CPUID then handle_cpuid
      else _ ← attempt (handler.exit_group 1); panic
  | _ => unwrap_or_attacked None
  end.

(** Anything else than the two instructions ends in [ud2]. *)
Definition finish : handlerM S_ unit :=
  vector ← asks sh_vector;
  match vector with
  | Some InvalidOpcode =>
      g ← gpr id;
      op ← reads (opcode g);
      if (op =? OP_SYSCALL) || (op =? OP_CPUID) then skip_instruction else panic
  | _ => panic
  end.

(** ** [main.rs] *)

(** The sallyport block of [BLOCK_SIZE] bytes must not touch the enclave. *)
Definition block_in_shim (block_start shim_start : Z) : outcome bool :=
  block_end ← add_usize block_start BLOCK_SIZE;
  shim_end ← add_usize shim_start ENCL_SIZE;
  Return ((shim_start <=? block_start) && (block_start <? shim_end) ||
          (shim_start <? block_end) && (block_end <=? shim_end)).

(** [entry] starts the workload. *)
Definition main (entry : handlerM S_ unit) (shim_start cssa : Z) : handlerM S_ unit :=
  if 3 <=? cssa then panic
  else
    inside ← must (block_in_shim (b_ptr b) shim_start);
    if (inside : bool) then panic
    else if cssa =? 0 then entry
    else if cssa =? 1 then handle
    else finish.

End shim.
