(* ===== verification/SgxShimLaws.v ===== *)
(** * The SGX shim: what a workload and its host cannot do

    The shim is a lawful handler, so what is proved of [Handler::syscall] holds
    of it.  No exception it handles, whatever the workload asks for and the host
    answers, makes a page writable and executable or touches the permissions of
    a page outside the heap; the sallyport block cannot overlap the enclave. *)

From stdpp Require Import relations.
From S2P Require Import Prelude Memory Libc PhaseAlloc StagedValues Items Calls CallLaws StageKit.
From S2P Require Import SockTypes Syscalls Stubs SyscallLaws NumberCalls Platform Handler HandlerCalls Dispatch.
From S2P Require Import DispatchLaws Invariants SgxHeap SgxShim.

(** ** What the processor documents

    [perms e p] are the permissions of the accepted page at [p]: bits 0 to 2 for
    reading, writing and executing. *)

Definition sub_perms (o o' : option Z) : Prop := ∀ x, o = Some x → ∃ y, o' = Some y ∧ Z.land x y = x.

Class EnclaveLaws (E : Type) `{Enclave E} := {
  perms : E → Z → option Z;
  en_confined : ∀ b e m e' m', block_wf b → enclave_exit b e m = (e', m') →
    same_except [block_region b] m m' ∧ (mem_wf m → mem_wf m');
  (** the host can restrict and remove pages *)
  en_exit : ∀ b e m e' m' p, enclave_exit b e m = (e', m') → sub_perms (perms e' p) (perms e p);
  en_copy : ∀ f p z e m e' m', EACCEPTCOPY f p z e m = (true, e', m') →
    perms e' p = Some (Z.land f 7) ∧ (∀ q, q ≠ p → perms e' q = perms e q) ∧
    same_except [mkGref p PAGE_SIZE 1] m m' ∧ (mem_wf m → mem_wf m');
  (** the permissions must be the accepted ones *)
  en_accept : ∀ f p e e', EACCEPT Regular f p e = (true, e') →
    perms e p = Some (Z.land f 7) ∧ ∀ q, perms e' q = perms e q;
  en_trim : ∀ f p e e', EACCEPT Trimmed f p e = (true, e') →
    perms e' p = None ∧ ∀ q, q ≠ p → perms e' q = perms e q;
  en_extend : ∀ f p e q,
    perms (EMODPE f p e) q = if q =? p then Z.lor (Z.land f 7) <$> perms e q else perms e q;
}.

(** No page is writable and executable. *)
Definition no_wx {E} `{EnclaveLaws E} (e : E) : Prop := ∀ p x, perms e p = Some x → Z.land x 6 ≠ 6.

Lemma sub_perms_refl o : sub_perms o o.
Proof. intros x ->. exists x. by rewrite Z.land_diag. Qed.

Lemma sub_perms_trans o1 o2 o3 : sub_perms o1 o2 → sub_perms o2 o3 → sub_perms o1 o3.
Proof.
  intros H1 H2 x E. destruct (H1 x E) as (y & Ey & Hy). destruct (H2 y Ey) as (z & Ez & Hz).
  exists z. split; [done|]. by rewrite <- Hy, <- Z.land_assoc, Hz.
Qed.

Lemma wx_sub x y : Z.land x y = x → Z.land y 6 ≠ 6 → Z.land x 6 ≠ 6.
Proof.
  intros Hs Hy Hx. apply Hy. apply Z.bits_inj. intros i.
  assert (E : Z.testbit (Z.land x 6) i = Z.testbit 6 i) by by rewrite Hx.
  assert (E2 : Z.testbit (Z.land x y) i = Z.testbit x i) by by rewrite Hs.
  rewrite !Z.land_spec in *. destruct (Z.testbit x i), (Z.testbit y i), (Z.testbit 6 i); simpl in *; congruence.
Qed.

(** Allowed protections are not both. *)
Lemma prot_allowed_wx prot : is_prot_allowed prot = true →
  let f := Z.land (Flags_from_bits_truncate (as_u8 prot)) 7 in
  Z.land f 6 ≠ 6 ∧ Z.land (Z.lor f 1) 6 ≠ 6.
Proof.
  unfold is_prot_allowed. rewrite !orb_true_iff, !Z.eqb_eq. intros [[->| ->]| ->]; by vm_compute.
Qed.

(** ** The shim is a lawful handler *)

Section shim.
Context {b : block} (Hb : block_wf b) {L En : Type} `{LedgerLaws L, EnclaveLaws En}.
Let S_ := shim b L En.

Lemma shim_laws : HandlerLaws S_.
Proof.
  refine (@Build_HandlerLaws S_ _ (λ _, eq_refl) (λ _, Hb) _). intros w r w' Es. cbn in Es.
  destruct (enclave_exit _ _ _) as [e m] eqn:Ee. injection Es as <- <-.
  destruct (en_confined _ _ _ _ _ Hb Ee). by split_and!.
Qed.

Lemma shim_returns : HandlerReturns S_.
Proof. intros w. cbn. destruct (enclave_exit _ _ _). by eexists _, _. Qed.

Lemma shim_os_laws : HandlerOSLaws S_.
Proof.
  exact (@Build_HandlerOSLaws S_ _ shim_laws shim_returns (λ _ _, eq_refl) (λ _ _, eq_refl)).
Qed.

(** ** The invariant *)

Definition shim_inv (s : S_) : Prop := heap_wf (sh_heap s) ∧ no_wx (sh_env s).

(** The heap keeps its place; permissions outside it are only taken away. *)
Definition shim_kept (s s' : S_) : Prop :=
  shim_inv s →
  shim_inv s' ∧ hp_start (sh_heap s') = hp_start (sh_heap s) ∧ hp_end (sh_heap s') = hp_end (sh_heap s) ∧
  ∀ p, ¬ (hp_start (sh_heap s) ≤ p < hp_end (sh_heap s)) →
       sub_perms (perms (sh_env s') p) (perms (sh_env s) p).

#[local] Instance shim_kept_preorder : PreOrder shim_kept.
Proof.
  split; [by intros s Hi; split_and!; eauto using sub_perms_refl|].
  intros s1 s2 s3 K1 K2 Hi. destruct (K1 Hi) as (Hi2 & A1 & A2 & P2). destruct (K2 Hi2) as (Hi3 & B1 & B2 & P3).
  split_and!; [done|congruence..|]. intros p Hp. eapply sub_perms_trans; [apply P3|by apply P2].
  by rewrite A1, A2.
Qed.

Lemma no_wx_sub e e' : (∀ p, sub_perms (perms e' p) (perms e p)) → no_wx e → no_wx e'.
Proof. intros Hs Hn p x E. destruct (Hs p x E) as (y & Ey & Hy). eapply wx_sub; [done|]. by eapply Hn. Qed.

Lemma shim_kept_env (s : S_) e :
  (∀ p, sub_perms (perms e p) (perms (sh_env s) p)) → shim_kept s (set_env e s).
Proof. intros Hs [Hh Hn]. split_and!; [split; [done|by eapply no_wx_sub]|done|done|auto]. Qed.

#[local] Instance shim_carried : Carried S_.
Proof.
  refine {| carried := shim_kept |}. intros w r w' Es. cbn in Es.
  destruct (enclave_exit _ _ _) as [e m] eqn:Ee. injection Es as <- <-.
  apply shim_kept_env. intros p. by eapply en_exit.
Defined.

(** A page of the heap gets permissions that are not writable and executable. *)
Lemma shim_kept_page (s : S_) e p :
  hp_start (sh_heap s) ≤ p < hp_end (sh_heap s) →
  (∀ q, q ≠ p → sub_perms (perms e q) (perms (sh_env s) q)) →
  (∀ x, perms e p = Some x → Z.land x 6 ≠ 6) → shim_kept s (set_env e s).
Proof.
  intros Hp Hq Hx [Hh Hn]. split_and!; [split; [done|]|done|done|].
  - intros q x E. destruct (decide (q = p)) as [->|Hne]; [by apply Hx|].
    destruct (Hq q Hne x E) as (y & Ey & Hy). eapply wx_sub; [done|]. by eapply Hn.
  - intros q Hq'. apply Hq. intros ->. done.
Qed.

(** Pointwise: what [f] does in the state [w]. *)
Definition goes {A : Type} (f : handlerM S_ A) (w : world S_) : Prop :=
  ∀ r w', f w = Return (r, w') → shim_kept (w_self w) (w_self w').

Lemma goes_carries {A : Type} (f : handlerM S_ A) w : carries f → goes f w.
Proof. intros Hf r w' E. exact (Hf w r w' E). Qed.

Lemma goes_bind {A B : Type} (f : handlerM S_ A) (k : A → handlerM S_ B) w :
  goes f w →
  (∀ a w1, f w = Return (Ok a, w1) → shim_kept (w_self w) (w_self w1) → goes (k a) w1) → goes (f ≫= k) w.
Proof.
  intros Hf Hk r w' E. unfold mbind, handlerM_bind, fal_bind in E.
  destruct (f w) as [[[a|e] w1]| | |] eqn:Ef; try done.
  - pose proof (Hf _ _ Ef). transitivity (w_self w1); [done|by eapply Hk].
  - injection E as <- <-. by eapply Hf.
Qed.

(** The invariant may be assumed. *)
Lemma goes_inv {A : Type} (f : handlerM S_ A) w : (shim_inv (w_self w) → goes f w) → goes f w.
Proof. intros Hf r w' E Hi. by apply (Hf Hi r w' E). Qed.

Lemma goes_attempt {A : Type} (f : handlerM S_ A) w : goes f w → goes (attempt f) w.
Proof.
  intros Hf r w' E. unfold attempt, mbind, outcome_bind in E.
  destruct (f w) as [[x w1]| | |] eqn:Ef; try done. injection E as <- <-. by eapply Hf.
Qed.

Lemma goes_or_attacked ok w : goes (or_attacked ok) w.
Proof. intros r w' E. destruct ok; [|done]. by injection E as <- <-. Qed.

Lemma goes_call (f : handlerM S_ unit) w : carries f → goes (call_or_attacked f) w.
Proof.
  intros Hf. apply goes_bind; [by apply goes_attempt, goes_carries|]. intros a w1 _ _. apply goes_or_attacked.
Qed.

(** ** Pages *)

Definition in_heap (w : world S_) (p : Z) : Prop :=
  hp_start (sh_heap (w_self w)) ≤ p < hp_end (sh_heap (w_self w)).

Lemma goes_for_pages n f : ∀ addr w,
  (∀ p w1, in_heap w1 p → goes (f p) w1) →
  (∀ p, in_pages addr (Z.of_nat n) p → in_heap w p) →
  goes (for_pages n addr f) w.
Proof.
  induction n as [|n IH]; intros addr w Hf Hin; cbn [for_pages]; [by intros r w' [= <- <-]|].
  assert (Hfirst : in_pages addr (Z.of_nat (S n)) addr) by (unfold in_pages, PAGE_SIZE; lia).
  apply goes_inv. intros Hi.
  apply goes_bind; [apply goes_carries, carries_must|]. intros page w1 E1 _.
  assert (page = addr ∧ w1 = w) as [-> ->].
  { pose proof (hw_max _ (proj1 Hi)). pose proof (Hin addr Hfirst) as Ha. unfold in_heap in Ha.
    unfold must, VirtAddr_new in E1. rewrite (proj2 (Z.ltb_lt addr _)) in E1 by lia. by injection E1. }
  apply goes_bind; [by apply Hf, Hin|]. intros [] w1 _ K. destruct (K Hi) as (_ & K1 & K2 & _).
  apply IH; [auto|]. intros p Hp. unfold in_heap. rewrite K1, K2.
  apply Hin. unfold in_pages, PAGE_SIZE in *. lia.
Qed.

Lemma goes_mmap_guest_page prot p w :
  is_prot_allowed prot = true → in_heap w p → goes (mmap_guest_page prot p) w.
Proof.
  intros Hp Hin r w' E. unfold mmap_guest_page, accept_copy, mbind, handlerM_bind, fal_bind in E.
  destruct (EACCEPTCOPY _ _ _ _ _) as [[[] e] m] eqn:Ec; [|done]. injection E as <- <-.
  destruct (en_copy _ _ _ _ _ _ _ Ec) as (Ep & Eq & _). apply (shim_kept_page _ _ p); [done| |].
  - intros q Hq. rewrite Eq by done. apply sub_perms_refl.
  - intros x Hx. rewrite Ep in Hx. injection Hx as <-. by apply prot_allowed_wx.
Qed.

Lemma goes_mprotect_page prot p w :
  is_prot_allowed prot = true → in_heap w p → goes (mprotect_page prot p) w.
Proof.
  intros Hp Hin r w' E. unfold mprotect_page, on_enclave, mbind, handlerM_bind, fal_bind in E.
  destruct (EACCEPT _ _ _ _) as [[] e] eqn:Ec; [|done]. cbn in E. injection E as <- <-.
  destruct (en_accept _ _ _ _ Ec) as (Ep & Eq).
  change (set_env ?a (set_env e (w_self w))) with (set_env a (w_self w)).
  apply (shim_kept_page _ _ p); [done| |].
  - intros q Hq. rewrite en_extend, (proj2 (Z.eqb_neq _ _)), Eq by done. apply sub_perms_refl.
  - intros x Hx. rewrite en_extend, Z.eqb_refl, Eq, Ep in Hx. injection Hx as <-. by apply prot_allowed_wx.
Qed.

Lemma goes_munmap_page p w : in_heap w p → goes (munmap_page p) w.
Proof.
  intros Hin r w' E. unfold munmap_page, on_enclave, mbind, handlerM_bind, fal_bind in E.
  destruct (EACCEPT _ _ _ _) as [[] e] eqn:Ec; [|done]. injection E as <- <-.
  destruct (en_trim _ _ _ _ Ec) as (Ep & Eq). apply (shim_kept_page _ _ p); [done| |].
  - intros q Hq. rewrite Eq by done. apply sub_perms_refl.
  - intros x Hx. by rewrite Ep in Hx.
Qed.

Lemma goes_mmap_guest addr n prot w :
  is_prot_allowed prot = true → (∀ p, in_pages addr n p → in_heap w p) → goes (mmap_guest addr n prot) w.
Proof.
  intros Hp Hin. apply goes_bind; [by intros r w' [= <- <-]|]. intros zero w1 [= <- <-] _.
  apply goes_bind; [apply goes_carries, carries_must|]. intros z w1 E1 _.
  assert (w1 = w) as ->.
  { unfold must in E1. destruct (VirtAddr_new _); try done. by injection E1. }
  apply goes_for_pages; [intros; by apply goes_mmap_guest_page|].
  intros p Hi. apply Hin. unfold in_pages, PAGE_SIZE in *. lia.
Qed.

(** ** The heap *)

Lemma goes_on_heap {A : Type} (f : Heap L → A * Heap L) w :
  (heap_wf (sh_heap (w_self w)) → let h := snd (f (sh_heap (w_self w))) in
   heap_wf h ∧ hp_start h = hp_start (sh_heap (w_self w)) ∧ hp_end h = hp_end (sh_heap (w_self w))) →
  goes (on_heap f) w.
Proof.
  intros Hw r w' E [Hh Hn]. unfold on_heap in E. destruct (Hw Hh) as (W1 & W2 & W3).
  destruct (f _) as [a h]. injection E as <- <-. split_and!; [by split|done..|]. intros p _. apply sub_perms_refl.
Qed.

(** The pages a ledger contains are pages of the heap. *)
Lemma contained_in_heap (w : world S_) addr n access :
  shim_inv (w_self w) → Heap_contains (sh_heap (w_self w)) addr n = Some access →
  ∀ p, in_pages addr n p → in_heap w p.
Proof. intros [Hh _] E p Hp. apply (hw_recorded _ Hh). by eapply lg_contains. Qed.

Lemma in_heap_kept (w w' : world S_) :
  shim_inv (w_self w) → shim_kept (w_self w) (w_self w') →
  shim_inv (w_self w') ∧ ∀ p, in_heap w p → in_heap w' p.
Proof. intros Hi K. destruct (K Hi) as (Hi' & K1 & K2 & _). split; [done|]. unfold in_heap. by rewrite K1, K2. Qed.

(** ** The memory calls *)

Lemma carries_mmap_host addr len prot : carries (H := S_) (handler.mmap_host addr len prot).
Proof. unfold handler.mmap_host. carry. Qed.
Lemma carries_mprotect_host addr len prot : carries (H := S_) (handler.mprotect_host addr len prot).
Proof. unfold handler.mprotect_host. carry. Qed.
Lemma carries_munmap_host addr len : carries (H := S_) (handler.munmap_host addr len).
Proof. unfold handler.munmap_host. carry. Qed.
Lemma carries_trim addr len : carries (H := S_) (handler.trim_sgx_pages addr len).
Proof. unfold handler.trim_sgx_pages. carry. Qed.

Lemma goes_must {A : Type} (o : outcome A) (w : world S_) : goes (must o) w.
Proof. apply goes_carries, carries_must. Qed.

Lemma goes_try {A : Type} (r : result A) (w : world S_) : goes (try r) w.
Proof. apply goes_carries, carries_try. Qed.

Lemma goes_mprotect addr len prot w : goes (mprotect_unlocked addr len prot) w.
Proof.
  apply goes_bind; [apply goes_must|]. intros rounded w1 _ _. cbv zeta. set (n := rounded / PAGE_SIZE).
  destruct (_ || _) eqn:E0; [apply goes_try|]. destruct (is_prot_allowed prot) eqn:Ep; simpl; [|apply goes_try].
  apply goes_inv. intros Hi. apply goes_bind; [by intros r w' [= <- <-]|]. intros c w2 [= <- <-] _.
  destruct (Heap_contains _ _ _) as [access|] eqn:Ec; [|apply goes_try].
  pose proof (contained_in_heap _ _ _ _ Hi Ec) as Hin.
  apply goes_bind; [exact (goes_carries _ _ (carries_mprotect_host _ _ _))|]. intros [] w2 _ K2.
  destruct (in_heap_kept _ _ Hi K2) as [Hi2 Hin2].
  apply goes_bind.
  { apply goes_for_pages; [intros; by apply goes_mprotect_page|]. intros p Hp. apply Hin2, Hin.
    unfold in_pages, PAGE_SIZE in *. lia. }
  intros [] w3 _ K3. destruct (in_heap_kept _ _ Hi2 K3) as [Hi3 Hin3].
  apply goes_bind; [|by intros a w4 _ _ r w' [= <- <-]]. apply goes_on_heap. intros Hw.
  cbv zeta. destruct (Heap_mmap _ _ _ _) as [a h] eqn:Em.
  apply Heap_mmap_wf in Em as (? & ? & ? & _); [done|done|]. intros q [= <-] p Hp. by apply Hin3, Hin2, Hin.
Qed.

Lemma goes_munmap addr len w : goes (munmap_unlocked addr len) w.
Proof.
  apply goes_bind; [apply goes_must|]. intros rounded w1 _ _. cbv zeta. set (n := rounded / PAGE_SIZE).
  destruct (_ || _) eqn:E0; [apply goes_try|].
  apply goes_inv. intros Hi. apply goes_bind; [by intros r w' [= <- <-]|]. intros c w2 [= <- <-] _.
  destruct (Heap_contains _ _ _) as [access|] eqn:Ec; [|by intros r w' [= <- <-]].
  pose proof (contained_in_heap _ _ _ _ Hi Ec) as Hin.
  apply goes_bind.
  { apply goes_on_heap. intros Hw. cbv zeta. destruct (Heap_munmap _ _ _) as [ok h] eqn:Em.
    by apply Heap_munmap_wf in Em. }
  intros ok w2 _ K2. destruct (in_heap_kept _ _ Hi K2) as [Hi2 Hin2]. destruct (negb ok); [apply goes_try|].
  apply goes_bind; [exact (goes_call _ _ (carries_trim _ _))|]. intros [] w3 _ K3.
  destruct (in_heap_kept _ _ Hi2 K3) as [Hi3 Hin3].
  apply goes_bind; [|intros [] w4 _ _; exact (goes_call _ _ (carries_munmap_host _ _))].
  apply goes_for_pages; [intros; by apply goes_munmap_page|]. intros p Hp. apply Hin3, Hin2, Hin.
  unfold in_pages, PAGE_SIZE in *. lia.
Qed.

Lemma goes_non_null addr (w : world S_) : goes (non_null addr) w.
Proof. unfold non_null. destruct (_ =? 0); [by intros r w' E|by intros r w' [= <- <-]]. Qed.

Lemma goes_brk addr w : goes (shim_brk addr) w.
Proof.
  apply goes_bind; [apply goes_must|]. intros next w1 _ _. apply goes_inv. intros Hi.
  apply goes_bind; [by intros r w' [= <- <-]|]. intros max w2 [= <- <-] _.
  apply goes_bind.
  { apply goes_on_heap. intros Hw. cbv zeta. destruct (Heap_brk _ _) as [a h] eqn:Eb.
    by apply Heap_brk_wf in Eb as (? & ? & ? & _). }
  intros a w2 Eb K2. destruct (in_heap_kept _ _ Hi K2) as [Hi2 Hin2].
  apply goes_bind; [|intros [] w3 _ _; apply goes_non_null].
  destruct (_ <? a) eqn:Ea; [|by intros r w' [= <- <-]]. bool_to_prop.
  assert (Hin : ∀ p, in_pages (hp_brk_max (sh_heap (w_self w1))) ((a - hp_brk_max (sh_heap (w_self w1))) / PAGE_SIZE) p →
    in_heap w1 p).
  { intros p Hp%pages_below. unfold on_heap in Eb. destruct (Heap_brk _ _) as [a' h] eqn:Eh. injection Eb as <- <-.
    pose proof (hw_brk _ (proj1 Hi)).
    destruct (Heap_brk_wf _ _ _ _ (proj1 Hi) Eh) as (_ & _ & _ & _ & Hcase). unfold in_heap. lia. }
  apply goes_bind; [apply goes_non_null|]. intros start w3 E3 _.
  assert (start = hp_brk_max (sh_heap (w_self w1)) ∧ w3 = w2) as [-> ->].
  { unfold non_null in E3. destruct (_ =? 0); [done|]. by injection E3. }
  apply goes_bind; [exact (goes_carries _ _ (carries_mmap_host _ _ _))|]. intros [] w3 _ K3.
  destruct (in_heap_kept _ _ Hi2 K3) as [_ Hin3]. apply goes_mmap_guest; [done|auto].
Qed.

Lemma goes_mmap addr len prot flags fd offset w : goes (shim_mmap addr len prot flags fd offset) w.
Proof.
  unfold shim_mmap. cbv zeta. set (pr := Z.lor prot PROT_READ). destruct (_ || _); [apply goes_try|].
  destruct (_ && _) eqn:Ea; [apply goes_try|].
  assert (Hp : is_prot_allowed pr = true).
  { destruct (is_prot_allowed pr); [done|]. rewrite andb_true_r, negb_false_iff, Z.eqb_eq in Ea.
    apply Z.lor_eq_0_iff in Ea as [_ ?]. done. }
  apply goes_bind; [apply goes_must|]. intros sum w1 _ _. set (n := (sum - 1) / PAGE_SIZE).
  apply goes_inv. intros Hi. pose proof (proj1 Hi) as Hw.
  apply goes_bind.
  { apply goes_on_heap. intros _. cbv zeta. destruct (Heap_mmap _ _ _ _) as [a h] eqn:Em.
    by apply Heap_mmap_wf in Em as (? & ? & ? & _). }
  intros mapped w2 Em K2. destruct (in_heap_kept _ _ Hi K2) as [Hi2 Hin2].
  destruct mapped as [a|]; [|apply goes_try].
  assert (Hin : ∀ p, in_pages a n p → in_heap w1 p).
  { unfold on_heap in Em. destruct (Heap_mmap _ _ _ _) as [a' h] eqn:Eh. injection Em as -> <-.
    apply Heap_mmap_wf in Eh as (_ & _ & _ & Hq); [|done..]. exact (Hq a eq_refl). }
  apply goes_bind; [apply goes_non_null|]. intros ret w3 E3 _.
  assert (ret = a ∧ w3 = w2) as [-> ->].
  { unfold non_null in E3. destruct (a =? 0); [by unfold panic in E3|]. by injection E3. }
  apply goes_bind; [exact (goes_carries _ _ (carries_mmap_host _ _ _))|]. intros [] w3 _ K3.
  destruct (in_heap_kept _ _ Hi2 K3) as [_ Hin3].
  apply goes_bind; [apply goes_mmap_guest; [done|auto]|]. intros [] w4 _ _.
  clear Ea; destruct (pr =? _); [apply goes_carries, carries_ret|].
  apply goes_bind; [apply goes_attempt, goes_mprotect|]. intros [[]|e] w5 _ _; [apply goes_carries, carries_ret|].
  apply goes_bind; [apply goes_munmap|]. intros [] w6 _ _. apply goes_try.
Qed.

#[local] Instance shim_carried_os : CarriedOS S_.
Proof.
  split; intros; try (intros w r w'; first [apply goes_brk|apply goes_mmap|apply goes_mprotect|apply goes_munmap]).
  - intros Hi. split_and!; [done..|]. intros p _. apply sub_perms_refl.
  - apply carries_try.
  - apply carries_ret.
Qed.

(** ** Exceptions *)

Lemma carries_attempt {A : Type} (f : handlerM S_ A) : carries f → carries (attempt f).
Proof. intros Hf w. apply goes_attempt. exact (goes_carries f w Hf). Qed.

Lemma carries_asks {A : Type} (f : S_ → A) : carries (asks f).
Proof. apply carries_same. by intros w r w' [= <- <-]. Qed.

Lemma carries_reads {A : Type} (f : mem → A) : carries (H := S_) (reads f).
Proof. apply carries_same. by intros w r w' [= <- <-]. Qed.

Lemma carries_writes a bs : carries (H := S_) (writes a bs).
Proof. apply carries_same. by intros w r w' [= <- <-]. Qed.

Lemma carries_gpr f : carries (H := S_) (modify_gpr f).
Proof. intros w r w' [= <- <-] Hi. split_and!; [done..|]. intros p _. apply sub_perms_refl. Qed.

Lemma carries_panic {A : Type} : carries (H := S_) (@panic b L En A).
Proof. by intros w r w' E. Qed.

Ltac keep := repeat first
  [ progress intros
  | apply carries_asks | apply carries_reads | apply carries_writes | apply carries_gpr | apply carries_panic
  | apply carries_attempt | carry ].

Lemma carries_get_key buf len : carries (H := S_) (get_key buf len).
Proof. unfold get_key. keep. Qed.

Lemma carries_get_attestation hash hash_len buf len : carries (H := S_) (get_attestation hash hash_len buf len).
Proof.
  unfold get_attestation, handler.get_sgx_target_info, handler.get_sgx_quote_size, handler.get_sgx_quote. keep.
Qed.

Lemma carries_skip : carries (H := S_) skip_instruction.
Proof. unfold skip_instruction, gpr. keep. Qed.

Lemma carries_set_result r : carries (H := S_) (set_result r).
Proof. unfold set_result. keep. Qed.

Lemma carries_shim_syscall num a0 a1 a2 a3 a4 a5 : carries (H := S_) (syscall num a0 a1 a2 a3 a4 a5).
Proof. exact (@carries_syscall S_ shim_os shim_carried shim_carried_os UserMemScope num a0 a1 a2 a3 a4 a5). Qed.

Lemma carries_handle_syscall : carries (H := S_) handle_syscall.
Proof.
  apply carries_bind; [apply carries_asks|]. intros g. cbv zeta.
  apply carries_bind; [|intros; apply carries_skip].
  repeat (match goal with |- carries (if ?c then _ else _) => destruct c end);
    (apply carries_bind; [apply carries_attempt|intros; apply carries_set_result]);
    [apply carries_get_key|apply carries_get_attestation|apply carries_shim_syscall].
Qed.

Lemma carries_handle_cpuid : carries (H := S_) handle_cpuid.
Proof. unfold handle_cpuid, gpr, handler.cpuid. keep. Qed.

Lemma carries_handle : carries (H := S_) handle.
Proof.
  apply carries_bind; [apply carries_asks|]. intros [[|n]|]; [|apply carries_unwrap..].
  apply carries_bind; [apply carries_asks|]. intros g. apply carries_bind; [apply carries_reads|]. intros op.
  destruct (op =? OP_SYSCALL); [apply carries_handle_syscall|].
  destruct (op =? OP_CPUID); [apply carries_handle_cpuid|]. unfold handler.exit_group. keep.
Qed.

Lemma carries_finish : carries (H := S_) finish.
Proof. unfold finish, gpr. keep. Qed.

(** ** Steps of an enclave

    Between exceptions the workload runs (it does not use [ENCLU] itself), and
    the host may take permissions away at any time. *)

Inductive shim_step : S_ → S_ → Prop :=
| step_exception w r w' : handle w = Return (r, w') → shim_step (w_self w) (w_self w')
| step_finish w r w' : finish w = Return (r, w') → shim_step (w_self w) (w_self w')
| step_workload s g v e :
    (∀ p, sub_perms (perms e p) (perms (sh_env s) p)) →
    shim_step s (mkShim g v (sh_heap s) (sh_tls s) e (sh_zero s) (sh_cpuid_result s) (sh_target_info s) (sh_report s)).

Lemma shim_step_kept s s' : shim_step s s' → shim_kept s s'.
Proof.
  intros [w r w' Eh|w r w' Eh|s0 g v e Hs].
  - exact (carries_handle w r w' Eh).
  - exact (carries_finish w r w' Eh).
  - intros Hi. exact (shim_kept_env s0 e Hs Hi).
Qed.

Lemma shim_steps_kept s s' : rtc shim_step s s' → shim_kept s s'.
Proof.
  induction 1 as [s|s1 s2 s3 Hs _ IH]; [reflexivity|]. transitivity s2; [by apply shim_step_kept|done].
Qed.

End shim.

(** ** Registers *)

Section registers.
Context {b : block} (Hb : block_wf b) {L En : Type} `{LedgerLaws L, EnclaveLaws En}.
Let S_ := shim b L En.

#[local] Instance gpr_carried : Carried S_.
Proof.
  refine {| carried s s' := sh_gpr s' = sh_gpr s |}.
  - split; [by intros s|]. intros s1 s2 s3 E1 E2. congruence.
  - intros w r w' Es. cbn in Es. destruct (enclave_exit _ _ _). by injection Es as <- <-.
Defined.

Lemma gpr_same {A : Type} (f : handlerM S_ A) :
  (∀ w r w', f w = Return (r, w') → sh_gpr (w_self w') = sh_gpr (w_self w)) → carries f.
Proof. done. Qed.

Lemma gpr_attempt {A : Type} (f : handlerM S_ A) : carries f → carries (attempt f).
Proof.
  intros Hf w r w' E. unfold attempt, mbind, outcome_bind in E.
  destruct (f w) as [[x w1]| | |] eqn:Ef; try done. injection E as <- <-. by eapply Hf.
Qed.

Lemma gpr_or_attacked ok : carries (H := S_) (or_attacked ok).
Proof. apply gpr_same. intros w r w' E. destruct ok; [|done]. by injection E as <- <-. Qed.

Lemma gpr_on_heap {A : Type} (f : Heap L → A * Heap L) : carries (H := S_) (on_heap f).
Proof. apply gpr_same. intros w r w' E. unfold on_heap in E. destruct (f _). by injection E as <- <-. Qed.

Lemma gpr_on_enclave {A : Type} (f : En → A * En) : carries (H := S_) (on_enclave f).
Proof. apply gpr_same. intros w r w' E. unfold on_enclave in E. destruct (f _). by injection E as <- <-. Qed.

Lemma gpr_accept_copy f p : carries (H := S_) (accept_copy f p).
Proof.
  apply gpr_same. intros w r w' E. unfold accept_copy in E.
  destruct (EACCEPTCOPY _ _ _ _ _) as [[ok e] m]. by injection E as <- <-.
Qed.

Lemma gpr_asks {A : Type} (f : S_ → A) : carries (asks f).
Proof. apply gpr_same. by intros w r w' [= <- <-]. Qed.

Lemma gpr_panic {A : Type} : carries (H := S_) (@panic b L En A).
Proof. by intros w r w' E. Qed.

Ltac same_with t := repeat first
  [ progress intros
  | t
  | apply gpr_or_attacked | apply gpr_on_heap | apply gpr_on_enclave | apply gpr_accept_copy | apply gpr_asks
  | apply gpr_panic | apply gpr_attempt | carry_step ].
Ltac same := same_with fail.

Lemma gpr_for_pages n f : (∀ p, carries (H := S_) (f p)) → ∀ addr, carries (for_pages n addr f).
Proof. intros Hf. induction n as [|n IH]; intros addr; cbn [for_pages]; same; auto. Qed.

Lemma gpr_mprotect addr len prot : carries (H := S_) (mprotect_unlocked addr len prot).
Proof.
  unfold mprotect_unlocked, handler.mprotect_host. same.
  apply gpr_for_pages. intros p. unfold mprotect_page. same.
Qed.

Lemma gpr_munmap addr len : carries (H := S_) (munmap_unlocked addr len).
Proof.
  unfold munmap_unlocked, call_or_attacked, handler.munmap_host, handler.trim_sgx_pages. same.
  apply gpr_for_pages. intros p. unfold munmap_page. same.
Qed.

Lemma gpr_mmap_guest addr n prot : carries (H := S_) (mmap_guest addr n prot).
Proof. unfold mmap_guest. same. apply gpr_for_pages. intros p. unfold mmap_guest_page. same. Qed.

Lemma gpr_brk addr : carries (H := S_) (shim_brk addr).
Proof. unfold shim_brk, non_null, handler.mmap_host. same_with ltac:(apply gpr_mmap_guest). Qed.

Lemma gpr_mmap addr len prot flags fd offset : carries (H := S_) (shim_mmap addr len prot flags fd offset).
Proof.
  unfold shim_mmap, non_null, handler.mmap_host.
  same_with ltac:(first [apply gpr_mmap_guest|apply gpr_mprotect|apply gpr_munmap]).
Qed.

#[local] Instance gpr_carried_os : CarriedOS S_.
Proof.
  split; intros; [done|apply carries_try|apply gpr_brk|apply carries_ret|apply gpr_mmap|apply gpr_mprotect|
    apply gpr_munmap].
Qed.

Lemma syscall_keeps_gpr num a0 a1 a2 a3 a4 a5 (w : world S_) r w' :
  syscall num a0 a1 a2 a3 a4 a5 w = Return (r, w') → sh_gpr (w_self w') = sh_gpr (w_self w).
Proof.
  exact (@carries_syscall S_ shim_os gpr_carried gpr_carried_os UserMemScope num a0 a1 a2 a3 a4 a5 w r w').
Qed.

Lemma skip_at (s : shim b L En) m :
  skip_instruction (mkWorld s m) =
    if rip (sh_gpr s) + 2 <=? usize_MAX
    then Return (Ok tt, mkWorld (set_gpr (set_rip (rip (sh_gpr s) + 2) (sh_gpr s)) s) m)
    else Panicked.
Proof.
  unfold skip_instruction, mbind, handlerM_bind, fal_bind, gpr, asks, must, add_usize. cbn -[Z.add Z.leb].
  by destruct (_ <=? _).
Qed.

(** At a [syscall] instruction whose number is forwarded: the outcome of
    [syscall] decides. *)
Lemma handle_forwards (w : world (shim b L En)) :
  let g := sh_gpr (w_self w) in
  sh_vector (w_self w) = Some InvalidOpcode → opcode g (w_mem w) = OP_SYSCALL →
  as_i64 (rax g) ≠ enarxcall.SYS_GETKEY → as_i64 (rax g) ≠ enarxcall.SYS_GETATT →
  match syscall (rax g) (rdi g) (rsi g) (rdx g) (r10 g) (r8 g) (r9 g) w with
  | Return (r, w') =>
      let v := match r with Ok (v, _) => v | Err e => as_u64 (- e) end in
      handle w = if rip g + 2 <=? usize_MAX
        then Return (Ok tt, mkWorld (set_gpr (set_rip (rip g + 2) (set_rax v g)) (w_self w')) (w_mem w'))
        else Panicked
  | Attacked => handle w = Attacked
  | Panicked => handle w = Panicked
  | Diverged => handle w = Diverged
  end.
Proof.
  intros g Hv Ho N1 N2.
  unfold handle, handle_syscall, mbind, handlerM_bind, fal_bind, gpr, asks, reads, id, attempt.
  cbv beta. rewrite Hv. cbn -[syscall opcode as_i64]. fold g. rewrite Ho. cbn -[syscall Z.eqb as_i64].
  rewrite Z.eqb_refl. cbv beta iota. fold g.
  rewrite (proj2 (Z.eqb_neq _ _) N1), (proj2 (Z.eqb_neq _ _) N2). cbn -[syscall].
  pose proof (syscall_keeps_gpr (rax g) (rdi g) (rsi g) (rdx g) (r10 g) (r8 g) (r9 g) w) as Hg.
  destruct (syscall _ _ _ _ _ _ _ w) as [[r [s' m']]| | |] eqn:Es; [|done..].
  specialize (Hg _ _ Es). cbn in Hg.
  change (sh_gpr s' = g) in Hg.
  destruct r as [[v v']|e]; cbn -[add_usize Z.add]; rewrite Hg, skip_at; cbn -[Z.add Z.leb];
    destruct (_ <=? _); simpl; by destruct g.
Qed.

End registers.
