(* ===== verification/SgxGuarantees.v ===== *)
(** * Properties of the SGX shim *)

From stdpp Require Import relations.
From S2P Require Import Prelude Memory Libc PhaseAlloc StagedValues Items Calls CallLaws StageKit.
From S2P Require Import SockTypes Syscalls Stubs SyscallLaws NumberCalls Platform Handler HandlerCalls Dispatch.
From S2P Require Import Scenario DispatchLaws Invariants SgxHeap SgxShim SgxShimLaws.

(** ** A sample ledger and a sample processor *)

(** A log of what was mapped ([Some]) and unmapped ([None]), last first. *)
Record log : Type := mkLog { lo : Z; hi : Z; entries : list (Z * Z * option Z) }.

Definition covers (addr n p : Z) : bool := (addr <=? p) && (p <? addr + PAGE_SIZE * n).
Fixpoint find_page (es : list (Z * Z * option Z)) (p : Z) : option Z :=
  match es with
  | [] => None
  | (addr, n, access) :: es => if covers addr n p then access else find_page es p
  end.
Definition apart (addr n : Z) (e : Z * Z * option Z) : bool :=
  let '(addr', n', _) := e in (addr + PAGE_SIZE * n <=? addr') || (addr' + PAGE_SIZE * n' <=? addr).
Fixpoint find_span (es : list (Z * Z * option Z)) (addr n : Z) : option Z :=
  match es with
  | [] => None
  | (addr', n', access) :: es =>
      if apart addr n (addr', n', access) then find_span es addr n
      else if (addr' <=? addr) && (addr + PAGE_SIZE * n <=? addr' + PAGE_SIZE * n') then access else None
  end.

Definition log_add (l : log) (addr n : Z) (access : option Z) : bool * log :=
  if (lo l <=? addr) && (addr + PAGE_SIZE * n <=? hi l) then
    (true, mkLog (lo l) (hi l) ((addr, n, access) :: entries l))
  else (false, l).

#[global] Instance log_ops : LedgerOps log := {|
  Access := Z;
  Access_from_bits_truncate bits := Z.land bits 7;
  Ledger_new start end_ := mkLog start end_ [];
  ledger_contains l := find_span (entries l);
  ledger_overlaps l addr n := negb (forallb (apart addr n) (entries l));
  ledger_find_free_back l n :=
    let addr := hi l - PAGE_SIZE * n in
    if (lo l <=? addr) && (addr mod PAGE_SIZE =? 0) && forallb (apart addr n) (entries l) then Some addr else None;
  ledger_map l addr n access := log_add l addr n (Some access);
  ledger_unmap l addr n := log_add l addr n None;
|}.

Lemma covers_spec addr n p : covers addr n p = true ↔ in_pages addr n p.
Proof. unfold covers, in_pages. rewrite andb_true_iff, Z.leb_le, Z.ltb_lt. done. Qed.

Lemma log_add_spec l addr n access l' :
  log_add l addr n access = (true, l') →
  lo l' = lo l ∧ hi l' = hi l ∧
  (∀ p, in_pages addr n p → find_page (entries l') p = access) ∧
  (∀ p, ¬ in_pages addr n p → find_page (entries l') p = find_page (entries l) p).
Proof.
  unfold log_add. destruct (_ && _); [|done]. intros [= <-]. split_and!; [done..| |]; intros p Hp; simpl.
  - by rewrite (proj2 (covers_spec _ _ _) Hp).
  - destruct (covers addr n p) eqn:E; [|done]. by apply covers_spec in E.
Qed.

Lemma apart_free es addr n p : forallb (apart addr n) es = true → in_pages addr n p → find_page es p = None.
Proof.
  induction es as [|[[addr' n'] access] es IH]; [done|]. simpl. rewrite andb_true_iff. intros [Ha Hes] Hp.
  destruct (covers addr' n' p) eqn:E; [|auto]. apply covers_spec in E.
  rewrite orb_true_iff, !Z.leb_le in Ha. unfold in_pages in *. lia.
Qed.

Lemma find_span_spec es addr n x p : find_span es addr n = Some x → in_pages addr n p → find_page es p = Some x.
Proof.
  induction es as [|[[addr' n'] access] es IH]; [done|]. intros E Hp. cbn [find_span] in E. cbn [find_page].
  destruct (apart addr n (addr', n', access)) eqn:Ea.
  - destruct (covers addr' n' p) eqn:Ec; [|auto]. apply covers_spec in Ec. unfold apart in Ea.
    rewrite orb_true_iff, !Z.leb_le in Ea. unfold in_pages in *. lia.
  - destruct (_ && _) eqn:Eb; [|done]. subst access. rewrite andb_true_iff, !Z.leb_le in Eb.
    rewrite (proj2 (covers_spec addr' n' p)); [done|]. unfold in_pages in *. lia.
Qed.

#[global] Instance log_laws : LedgerLaws log.
Proof.
  refine {| recorded l p := find_page (entries l) p; lg_bounds l := (lo l, hi l) |}.
  - done.
  - intros l addr n access l' E. apply log_add_spec in E as (-> & -> & ? & ?). done.
  - intros l addr n l' E. apply log_add_spec in E as (-> & -> & ? & ?). done.
  - intros l addr n access l' E. cbn in E. unfold log_add in E. destruct (_ && _); [done|]. by injection E as <-.
  - intros l addr n l' E. cbn in E. unfold log_add in E. destruct (_ && _); [done|]. by injection E as <-.
  - intros l addr n E p Hp. cbn in E. apply negb_false_iff in E. by eapply apart_free.
  - intros l addr n x E p Hp. exists x. exact (find_span_spec _ _ _ _ _ E Hp).
  - intros l n addr E. cbn in E. destruct (_ && _) eqn:Ec; [|done]. injection E as <-.
    rewrite !andb_true_iff, Z.leb_le, Z.eqb_eq in Ec. destruct Ec as [[? ?] Hf]. simpl.
    split_and!; [lia|lia|done|]. intros p Hp. by eapply apart_free.
Defined.

(** A processor with given permissions; the host answers every request with 0. *)
Record cpu : Type := mkCpu { cpu_perms : Z → option Z }.

Definition cpu_host (b : block) (m : mem) : mem :=
  if 10 <=? b_len b then write_usize (write_usize m (b_ptr b + 56) 0) (b_ptr b + 72) 0 else m.

#[global] Instance cpu_enclave : Enclave cpu := {|
  enclave_exit b e m := (e, cpu_host b m);
  EACCEPTCOPY f p _ e m := (true, mkCpu (λ q, if q =? p then Some (Z.land f 7) else cpu_perms e q), m);
  EACCEPT c f p e :=
    match c with
    | Regular => (match cpu_perms e p with Some x => x =? Z.land f 7 | None => false end, e)
    | Trimmed => (true, mkCpu (λ q, if q =? p then None else cpu_perms e q))
    end;
  EMODPE f p e := mkCpu (λ q, if q =? p then Z.lor (Z.land f 7) <$> cpu_perms e q else cpu_perms e q);
  EGETKEY _ _ := Some (repeat 1 16);
  EREPORT _ _ _ := repeat 0 512;
  rdrand64_step _ i := (0%nat, i);
|}.

Lemma cpu_host_confined b m : same_except [block_region b] m (cpu_host b m) ∧ (mem_wf m → mem_wf (cpu_host b m)).
Proof.
  unfold cpu_host. destruct (10 <=? b_len b) eqn:E; [|done]. bool_to_prop. split.
  - transitivity (write_usize m (b_ptr b + 56) 0).
    + apply (same_outside_block b _ _ (b_ptr b + 56) (b_ptr b + 56 + 8)); [lia..|].
      exact (write_bytes_frame m (b_ptr b + 56) (to_le_bytes 8 0)).
    + apply (same_outside_block b _ _ (b_ptr b + 72) (b_ptr b + 72 + 8)); [lia..|].
      exact (write_bytes_frame (write_usize m (b_ptr b + 56) 0) (b_ptr b + 72) (to_le_bytes 8 0)).
  - intros Hm. repeat (apply write_bytes_wf; [|apply to_le_bytes_wf]). done.
Qed.

#[global] Instance cpu_laws : EnclaveLaws cpu.
Proof.
  refine {| perms := cpu_perms |}.
  - intros b e m e' m' _ [= <- <-]. apply cpu_host_confined.
  - intros b e m e' m' p [= <- <-]. apply sub_perms_refl.
  - intros f p z e m e' m' [= <- <-]. split_and!; [by simpl; rewrite Z.eqb_refl| |done|done].
    intros q Hq. simpl. by rewrite (proj2 (Z.eqb_neq _ _)).
  - intros f p e e' Ea. cbn in Ea. injection Ea as Ea <-. destruct (cpu_perms e p); [|done].
    apply Z.eqb_eq in Ea. by subst.
  - intros f p e e' [= <-]. split; [by simpl; rewrite Z.eqb_refl|].
    intros q Hq. simpl. by rewrite (proj2 (Z.eqb_neq _ _)).
  - intros f p e q. simpl. by destruct (q =? p).
Defined.

(** ** Properties *)

(** C2: the shim does not make memory writable and executable.  From any state
    in which the heap is well formed and no page is both, through any sequence
    of exceptions with whatever system calls of the workload and answers of the
    host, no page becomes both; and no permission of a page outside the heap
    (the shim, the runtime) is added. *)
Theorem shim_wx {b : block} {L En : Type} `{LedgerLaws L, EnclaveLaws En} (s s' : shim b L En) :
  shim_inv s → rtc shim_step s s' →
  heap_wf (sh_heap s') ∧ no_wx (sh_env s') ∧
  ∀ p, ¬ (hp_start (sh_heap s) ≤ p < hp_end (sh_heap s)) →
       sub_perms (perms (sh_env s') p) (perms (sh_env s) p).
Proof. intros Hi Hs. destruct (shim_steps_kept s s' Hs Hi) as ([? ?] & _ & _ & ?). done. Qed.

(** C28: a system call of the workload.  At a [syscall] instruction with a
    number the shim forwards, whatever the registers and whatever the host
    answers, one of three things happens.  The shim detects an attack; or it
    stores the result in [rax] (the negated error number if the call failed),
    skips the instruction and leaves every other register as it was, and the only
    memory that changes is the block and the outputs of the call; or it panics,
    which it does only for a string that does not end, vectors whose lengths do
    not add up to a [usize], a negative signal number, or an instruction at the
    end of the address space. *)
Theorem syscall_instruction {b : block} {L En : Type} `{LedgerLaws L, EnclaveLaws En} (w : world (shim b L En)) :
  let g := sh_gpr (w_self w) in
  block_wf b → mem_wf (w_mem w) → Forall is_usize [rdi g; rsi g; rdx g; r10 g; r8 g; r9 g] →
  sh_vector (w_self w) = Some InvalidOpcode → opcode g (w_mem w) = OP_SYSCALL →
  as_i64 (rax g) ∉ enarxcall.SYS_GETKEY :: enarxcall.SYS_GETATT :: os_syscalls →
  tls_wf (thread_local_storage (w_self w)) →
  handle w = Attacked ∨
  (∃ r w', syscall (rax g) (rdi g) (rsi g) (rdx g) (r10 g) (r8 g) (r9 g) w = Return (r, w') ∧
    let v := match r with Ok (v, _) => v | Err e => as_u64 (- e) end in
    handle w = Return (Ok tt, mkWorld (set_gpr (set_rip (rip g + 2) (set_rax v g)) (w_self w')) (w_mem w')) ∧
    same_except (block_region b :: syscall_outs (rdi g) (rsi g) (rdx g) (r8 g) (r9 g) (w_mem w) (as_i64 (rax g)))
      (w_mem w) (w_mem w')) ∨
  (panicking_args w (rdi g) (rsi g) (rdx g) (as_i64 (rax g)) ∨ usize_MAX < rip g + 2) ∧ handle w = Panicked.
Proof.
  intros g Hb Hm Hu Hv Ho Hn Ht. repeat (apply Forall_cons in Hu as [? Hu]).
  rewrite !not_elem_of_cons in Hn. destruct Hn as (N1 & N2 & Hos).
  pose proof (handle_forwards w Hv Ho N1 N2) as Hh. fold g in Hh.
  destruct (@syscall_runs (shim b L En) shim_os (shim_os_laws Hb) UserMemScope UserMemScope_laws w Hm
    (rdi g) (rsi g) (rdx g) (r10 g) (r8 g) (r9 g) ltac:(done) ltac:(done) ltac:(done) ltac:(done) ltac:(done)
    ltac:(done) (rax g) Hos Ht) as [[Ha|(r & w' & Es & _ & Hs)]|[Hp Es]].
  - left. by rewrite Ha in Hh.
  - right. rewrite Es in Hh. destruct (_ <=? _) eqn:E; bool_to_prop.
    + left. exists r, w'. by split_and!.
    + right. split; [by right|done].
  - right. right. rewrite Es in Hh. split; [by left|done].
Qed.

(** The block of a keep is outside the enclave.  If [main] accepts the
    block the host passed, no byte of it is a byte of the enclave, so what the
    shim writes for the host never overwrites the enclave, and what it reads
    from the host is not enclave memory. *)
Theorem block_outside_enclave block_start shim_start :
  block_in_shim block_start shim_start = Return false →
  ∀ x, block_start ≤ x < block_start + BLOCK_SIZE → ¬ (shim_start ≤ x < shim_start + ENCL_SIZE).
Proof.
  unfold block_in_shim, add_usize. destruct (block_start + _ <=? _) eqn:E1; [|done]. cbn -[Z.add ENCL_SIZE BLOCK_SIZE].
  destruct (shim_start + _ <=? _) eqn:E2; [|done]. cbn -[Z.add ENCL_SIZE BLOCK_SIZE].
  intros [= Hc]. apply orb_false_iff in Hc as [C1 C2].
  rewrite andb_false_iff, Z.leb_gt, Z.ltb_ge in C1. rewrite andb_false_iff, Z.ltb_ge, Z.leb_gt in C2.
  change BLOCK_SIZE with 69632 in *. change ENCL_SIZE with 4294967296 in *. lia.
Qed.

(** C32: memory the heap hands out is not in use.  When [brk] raises the
    break, or [mmap] finds a place, the pages handed out lie in the heap, were
    not recorded before and are recorded with the access asked for afterwards;
    every other page is recorded as before. *)
Theorem heap_grants_fresh {L : Type} `{LedgerLaws L} (h : Heap L) :
  heap_wf h →
  let granted addr n access h' :=
    (∀ p, in_pages addr n p → hp_start h ≤ p < hp_end h ∧ recorded (hp_ledger h) p = None ∧
          recorded (hp_ledger h') p = Some access) ∧
    (∀ p, ¬ in_pages addr n p → recorded (hp_ledger h') p = recorded (hp_ledger h) p) in
  (∀ next a h', Heap_brk h next = (a, h') → hp_brk_max h < a →
     a = next ∧ granted (hp_brk_max h) ((next - hp_brk_max h) / PAGE_SIZE)
       (Access_from_bits_truncate (Z.lor PROT_READ PROT_WRITE)) h') ∧
  (∀ n access a h', Heap_mmap h None n access = (Some a, h') → granted a n access h').
Proof.
  intros Hw granted. pose proof Hw as [B1 B2 B3 B4]. split.
  - intros next a h' E Ha. unfold Heap_brk in E.
    destruct (_ || _) eqn:E1; [injection E as <- <-; lia|]. bool_to_prop.
    destruct (next <=? hp_brk_max h) eqn:E2; bool_to_prop; [injection E as <- <-; lia|].
    destruct (ledger_overlaps _ _ _) eqn:Eo; [injection E as <- <-; lia|].
    destruct (ledger_map _ _ _ _) as [[] l'] eqn:Em; injection E as <- <-; [|lia].
    destruct (lg_map _ _ _ _ _ Em) as (_ & M1 & M2). split; [done|]. split; [|exact M2].
    intros p Hp. split; [|split; [by eapply lg_overlaps|by apply M1]]. apply pages_below in Hp. lia.
  - intros n access a h' E. unfold Heap_mmap in E. destruct (ledger_find_free_back _ _) as [q|] eqn:Ef; [|done].
    destruct (ledger_map _ _ _ _) as [[] l'] eqn:Em; [|done]. injection E as <- <-.
    destruct (lg_map _ _ _ _ _ Em) as (_ & M1 & M2). destruct (lg_free _ _ _ Ef) as (F1 & F2 & _ & F4).
    rewrite B3 in F1, F2. simpl in F1, F2. split; [|exact M2].
    intros p Hp. split; [|split; [by apply F4|by apply M1]]. unfold in_pages in Hp. lia.
Qed.

(** The break is forgotten when it grows.  After [brk] raised it to
    [next], asking for the current break ([brk(NULL)]) returns the break before
    the growth: only [brk_max] was updated. *)
Theorem brk_growth_forgotten {L : Type} `{LedgerLaws L} (h : Heap L) next h' :
  heap_wf h → 0 < hp_start h → hp_brk_max h < next → Heap_brk h next = (next, h') →
  fst (Heap_brk h' 0) = hp_brk h ∧ hp_brk h < next.
Proof.
  intros [B1 B2 B3 B4] Hs0 Hn E. unfold Heap_brk in E.
  destruct (_ || _) eqn:E1; [injection E as E <-; lia|]. bool_to_prop.
  destruct (next <=? hp_brk_max h) eqn:E2; bool_to_prop; [lia|].
  destruct (ledger_overlaps _ _ _); [injection E as E <-; lia|].
  destruct (ledger_map _ _ _ _) as [[] l']; injection E as <-; [|lia].
  split; [|lia]. unfold Heap_brk. simpl. by rewrite (proj2 (Z.ltb_lt 0 (hp_start h))) by lia.
Qed.

(** ** Witnesses *)

Definition sample_heap : Heap log := Heap_new 1048576 2097152.

Lemma sample_heap_wf : heap_wf sample_heap.
Proof. by apply Heap_new_wf. Qed.

(** The workload asks for a page that is readable and writable. *)
Definition mmap_gpr : Gpr :=
  mkGpr SYS_mmap 0 0 (Z.lor PROT_READ PROT_WRITE) 4096 0 (as_usize (-1)) 0 (Z.lor MAP_PRIVATE MAP_ANONYMOUS) 300.

Definition sample_shim (g : Gpr) : shim keep_block log cpu :=
  mkShim g (Some InvalidOpcode) sample_heap ThreadLocalStorage_new
    (mkCpu (λ p, if p =? 8192 then Some 5 else None)) 0 256 0 0.

Definition syscall_code : mem := write_bytes (λ _, 0) 300 [0x0f; 0x05].

Lemma sample_no_wx g : no_wx (sh_env (sample_shim g)).
Proof. intros p x Hx. cbn in Hx. destruct (p =? 8192); [|done]. by injection Hx as <-. Qed.

Lemma shim_wx_witness :
  ∃ r w', handle (mkWorld (sample_shim mmap_gpr) syscall_code) = Return (r, w') ∧
    rax (sh_gpr (w_self w')) = 2093056 ∧ perms (sh_env (w_self w')) 2093056 = Some 3 ∧ no_wx (sh_env (w_self w')).
Proof.
  assert (Eh : match handle (mkWorld (sample_shim mmap_gpr) syscall_code) with
    | Return (r, w') => rax (sh_gpr (w_self w')) = 2093056 ∧ cpu_perms (sh_env (w_self w')) 2093056 = Some 3
    | _ => False end) by (vm_compute; split; reflexivity).
  destruct (handle _) as [[r w']| | |] eqn:E; [|destruct Eh..]. destruct Eh as [E1 E2]. exists r, w'.
  split; [reflexivity|]. split; [exact E1|]. split; [exact E2|].
  exact (proj1 (proj2 (shim_wx (sample_shim mmap_gpr) (w_self w')
    (conj sample_heap_wf (sample_no_wx mmap_gpr)) (rtc_once _ _ (step_exception _ r w' E))))).
Defined.

(** [close(3)] *)
Definition close_gpr : Gpr := mkGpr SYS_close 11 12 13 14 3 15 16 17 300.

Lemma syscall_instruction_witness :
  let w := mkWorld (sample_shim close_gpr) syscall_code in
  handle w = Attacked ∨
  ∃ v w', handle w = Return (Ok tt, mkWorld (set_gpr (set_rip 302 (set_rax v close_gpr)) (w_self w')) (w_mem w')) ∧
    same_except [block_region keep_block] (w_mem w) (w_mem w').
Proof.
  intros w. assert (Hm : mem_wf syscall_code).
  { apply write_bytes_wf; [exact zero_mem_wf|]. repeat (apply Forall_cons_2; [lia|]). apply Forall_nil_2. }
  destruct (syscall_instruction (b := keep_block) (L := log) (En := cpu) w) as [Ha|[(r & w' & _ & Eh & Hs)|[Hp _]]].
  - exact keep_block_wf.
  - exact Hm.
  - repeat (apply Forall_cons_2; [unfold is_usize, usize_MAX; vm_compute; split; congruence|]). apply Forall_nil_2.
  - reflexivity.
  - vm_compute. reflexivity.
  - rewrite list_elem_of_In. vm_compute. intuition congruence.
  - split; [reflexivity|]. vm_compute. repeat constructor.
  - left. exact Ha.
  - right. eexists _, w'. split; [exact Eh|exact Hs].
  - exfalso. destruct Hp as [[[[?|?] _]|[[[?|?] _]|[? _]]]|Hr]; [discriminate..|]. vm_compute in Hr. discriminate.
Defined.

Lemma block_outside_enclave_witness :
  4096 ≤ 73727 < 4096 + BLOCK_SIZE ∧ ¬ (73728 ≤ 73727 < 73728 + ENCL_SIZE).
Proof.
  split; [vm_compute; split; congruence|].
  apply (block_outside_enclave 4096 73728); [reflexivity|]. vm_compute. split; congruence.
Defined.

Definition rw_access : @Access log log_ops := 3.

Lemma heap_grants_fresh_witness :
  ∃ h', Heap_mmap sample_heap None 2 rw_access = (Some 2088960, h') ∧
    recorded (hp_ledger sample_heap) 2088960 = None ∧ recorded (hp_ledger h') 2088960 = Some rw_access.
Proof.
  destruct (Heap_mmap sample_heap None 2 rw_access) as [a h'] eqn:E.
  assert (a = Some 2088960) as -> by (apply (f_equal fst) in E; vm_compute in E; by symmetry).
  exists h'. split; [reflexivity|].
  destruct (proj2 (heap_grants_fresh sample_heap sample_heap_wf) 2 rw_access 2088960 h' E) as [Hg _].
  destruct (Hg 2088960) as (_ & ? & ?); [|done]. unfold in_pages, PAGE_SIZE. lia.
Defined.

Lemma brk_growth_forgotten_witness :
  ∃ h', Heap_brk sample_heap 1056768 = (1056768, h') ∧ fst (Heap_brk h' 0) = 1048576.
Proof.
  destruct (Heap_brk sample_heap 1056768) as [a h'] eqn:E.
  assert (a = 1056768) as -> by (apply (f_equal fst) in E; vm_compute in E; by symmetry).
  exists h'. split; [reflexivity|].
  exact (proj1 (brk_growth_forgotten sample_heap 1056768 h' sample_heap_wf ltac:(vm_compute; reflexivity)
    ltac:(vm_compute; reflexivity) E)).
Defined.
