(* ===== verification/SnpReport.v ===== *)
(** * The encoding of an SNP attestation report

    [crates/shim-kvm/src/snp/attestation.rs]: the report of the firmware and the
    certificate of its key are handed to the workload as one DER structure,
    written in place into the buffer of the workload.  A [&mut [u8]] is the list
    of its bytes, returned changed; an index or a split out of range panics. *)

From S2P Require Import Prelude Memory.

(** [u32::try_from(usize).ok()] *)
Definition u32_try_from (z : Z) : option Z := if z <=? 2 ^ 32 - 1 then Some z else None.

(** [u32::to_be_bytes] *)
Definition to_be_bytes4 (z : Z) : Z * Z * Z * Z :=
  (z / 2 ^ 24 mod 256, z / 2 ^ 16 mod 256, z / 2 ^ 8 mod 256, z mod 256).

Definition len (s : list Z) : Z := Z.of_nat (length s).

(** [s[0] = bs[0]; s[1] = bs[1]; ..] and [s[..bs.len()].copy_from_slice(bs)] *)
Definition store (s bs : list Z) : outcome (list Z) :=
  if len bs <=? len s then Return (bs ++ drop (length bs) s) else Panicked.

(** [s.split_at_mut(mid)] *)
Definition split_at_mut (s : list Z) (mid : Z) : outcome (list Z * list Z) :=
  if mid <=? len s then Return (take (Z.to_nat mid) s, drop (Z.to_nat mid) s) else Panicked.

(** A closure that writes to a slice and tells how many bytes it wrote. *)
Definition writer : Type := list Z → outcome (option Z * list Z).

Definition stored (s bs : list Z) : outcome (option Z * list Z) :=
  s ← store s bs; Return (Some (len bs), s).

Definition write_asn_header (tag len : Z) : writer := λ header,
  match u32_try_from len with
  | None => Return (None, header)
  | Some len =>
      match to_be_bytes4 len with
      | (0, 0, 0, byte0) =>
          if byte0 <? 0x80 then stored header [tag; byte0] else stored header [tag; 0x81; byte0]
      | (0, 0, byte1, byte0) => stored header [tag; 0x82; byte1; byte0]
      | (0, byte2, byte1, byte0) => stored header [tag; 0x83; byte2; byte1; byte0]
      | (byte3, byte2, byte1, byte0) => stored header [tag; 0x84; byte3; byte2; byte1; byte0]
      end
  end.

Definition calc_asn_header_len (len : Z) : option Z :=
  len ← u32_try_from len;
  match to_be_bytes4 len with
  | (0, 0, 0, byte) => if byte <? 0x80 then Some 2 else Some 3
  | (0, 0, _, _) => Some 4
  | (0, _, _, _) => Some 5
  | _ => Some 6
  end.

Definition asn_wrap (header_f : Z → writer) (body_f : writer) (body_len : option Z) : writer :=
  λ chunks,
  match body_len with
  | None => Return (None, chunks)
  | Some body_len =>
      match calc_asn_header_len body_len with
      | None => Return (None, chunks)
      | Some header_len =>
          '(head_chunk, body_chunk) ← split_at_mut chunks header_len;
          '(copied_body_len, body_chunk) ← body_f body_chunk;
          match copied_body_len with
          | None => Return (None, head_chunk ++ body_chunk)
          | Some copied_body_len =>
              '(copied_header_len, head_chunk) ← header_f body_len head_chunk;
              match copied_header_len with
              | None => Return (None, head_chunk ++ body_chunk)
              | Some copied_header_len =>
                  Return (checked_add copied_header_len copied_body_len, head_chunk ++ body_chunk)
              end
          end
      end
  end.

Definition ASN_SECTION_CONSTRUCTED : Z := 0x30.
Definition ASN_OCTET_STRING : Z := 0x04.

Section encode.
Context (report vcek : list Z).

Definition report_chunk : writer := λ chunks, stored chunks report.
Definition report_chunk_len_f : option Z := Some (len report).

Definition vcek_report : writer := λ chunks,
  '(vcek_chunk, chunks) ← split_at_mut chunks (len vcek);
  vcek_chunk ← store vcek_chunk vcek;
  '(report_chunk_len, chunks) ← asn_wrap (write_asn_header ASN_OCTET_STRING)
    report_chunk report_chunk_len_f chunks;
  Return (l ← report_chunk_len; checked_add l (len vcek), vcek_chunk ++ chunks).

Definition vcek_report_len_f : option Z :=
  report_chunk_len ← report_chunk_len_f;
  header_len ← calc_asn_header_len report_chunk_len;
  sum ← checked_add report_chunk_len header_len;
  checked_add sum (len vcek).

Definition asn1_encode_report_vcek : writer :=
  asn_wrap (write_asn_header ASN_SECTION_CONSTRUCTED) vcek_report vcek_report_len_f.

End encode.

(** ** The distinguished encoding rules

    A length below 128 is one octet; any other is the number of its octets plus
    128, followed by the octets, most significant first and without leading
    zeros. *)

Fixpoint be_digits (fuel : nat) (n : Z) : list Z :=
  match fuel with
  | O => []
  | S fuel => if n =? 0 then [] else be_digits fuel (n / 256) ++ [n mod 256]
  end.

Definition der_length (n : Z) : list Z :=
  if n <? 128 then [n] else let ds := be_digits 8 n in (128 + len ds) :: ds.

Definition der (tag : Z) (body : list Z) : list Z := tag :: der_length (len body) ++ body.

Definition from_be (ds : list Z) : Z := foldl (λ n d, n * 256 + d) 0 ds.

(** A reader of one element: its tag, its contents and what follows; a length
    that is not encoded in the least number of octets is refused. *)
Definition der_read (s : list Z) : option (Z * list Z * list Z) :=
  match s with
  | tag :: l :: s =>
      '(n, s) ← (if l <? 128 then Some (l, s)
                 else
                   let ds := take (Z.to_nat (l - 128)) s in
                   if (len ds =? l - 128) && bool_decide (der_length (from_be ds) = l :: ds)
                   then Some (from_be ds, drop (Z.to_nat (l - 128)) s) else None);
      if n <=? len s then Some (tag, take (Z.to_nat n) s, drop (Z.to_nat n) s) else None
  | _ => None
  end.

(** ** Lengths *)

Lemma be_digits_0 f : be_digits f 0 = [].
Proof. by destruct f. Qed.

Lemma be_digits_pos f n :
  0 < n → be_digits (S f) n = be_digits f (n / 256) ++ [n mod 256].
Proof. intros H. cbn [be_digits]. by rewrite (proj2 (Z.eqb_neq n 0)) by lia. Qed.

Lemma from_be_snoc ds d : from_be (ds ++ [d]) = from_be ds * 256 + d.
Proof. unfold from_be. by rewrite foldl_app. Qed.

Lemma from_be_digits f n : 0 ≤ n < 256 ^ Z.of_nat f → from_be (be_digits f n) = n.
Proof.
  revert n; induction f as [|f IH]; intros n Hn; [change (256 ^ Z.of_nat 0) with 1 in Hn; cbn; lia|].
  destruct (decide (n = 0)) as [->|Hn0]; [by rewrite be_digits_0|].
  rewrite be_digits_pos, from_be_snoc by lia.
  rewrite Nat2Z.inj_succ, Z.pow_succ_r in Hn by lia.
  rewrite IH; dlia.
Qed.

Lemma len_be_digits f n : 0 ≤ len (be_digits f n) ≤ Z.of_nat f.
Proof.
  unfold len. revert n; induction f as [|f IH]; intros n; cbn [be_digits]; [simpl; lia|].
  destruct (n =? 0); [simpl; lia|]. rewrite length_app. specialize (IH (n / 256)). simpl. lia.
Qed.

(** The five shapes of a length below [2 ^ 32]. *)
Lemma der_length_cases n :
  0 ≤ n < 2 ^ 32 →
  let '(b3, b2, b1, b0) := to_be_bytes4 n in
  der_length n =
    match b3, b2, b1 with
    | 0, 0, 0 => if b0 <? 0x80 then [b0] else [0x81; b0]
    | 0, 0, _ => [0x82; b1; b0]
    | 0, _, _ => [0x83; b2; b1; b0]
    | _, _, _ => [0x84; b3; b2; b1; b0]
    end.
Proof.
  intros Hn. unfold to_be_bytes4, der_length.
  set (b3 := n / 2 ^ 24 mod 256). set (b2 := n / 2 ^ 16 mod 256).
  set (b1 := n / 2 ^ 8 mod 256). set (b0 := n mod 256).
  assert (n = ((b3 * 256 + b2) * 256 + b1) * 256 + b0) as En by (subst b3 b2 b1 b0; dlia).
  assert (n / 256 = (b3 * 256 + b2) * 256 + b1) as E1 by (subst b3 b2 b1 b0; dlia).
  assert (n / 256 / 256 = b3 * 256 + b2) as E2 by (subst b3 b2 b1 b0; dlia).
  assert (n / 256 / 256 / 256 = b3) as E3 by (subst b3 b2 b1 b0; dlia).
  assert (0 ≤ b3 < 256 ∧ 0 ≤ b2 < 256 ∧ 0 ≤ b1 < 256 ∧ 0 ≤ b0 < 256) as Hb
    by (subst b3 b2 b1 b0; dlia).
  clearbody b3 b2 b1 b0.
  assert (∀ f m, 0 < m < 256 → be_digits (S f) m = [m]) as Hlast.
  { intros f m Hm. rewrite be_digits_pos by lia.
    by rewrite Z.div_small, be_digits_0, Z.mod_small by lia. }
  assert (∀ f q d, 0 < q → 0 ≤ d < 256 → be_digits (S f) (q * 256 + d) = be_digits f q ++ [d]) as Hsnoc.
  { intros f q d Hq Hd. rewrite be_digits_pos by lia. f_equal; [f_equal|f_equal]; dlia. }
  clear E1 E2 E3.
  destruct b3 as [|p3|p3]; [|subst n|lia].
  2:{ rewrite (proj2 (Z.ltb_ge _ _)) by lia. cbv zeta. rewrite !Hsnoc, Hlast by lia. done. }
  destruct b2 as [|p2|p2]; [|subst n|lia].
  2:{ rewrite (proj2 (Z.ltb_ge _ _)) by lia. cbv zeta. rewrite Z.mul_0_l, Z.add_0_l.
      rewrite !Hsnoc, Hlast by lia. done. }
  destruct b1 as [|p1|p1]; [|subst n|lia].
  2:{ rewrite (proj2 (Z.ltb_ge _ _)) by lia. cbv zeta.
      replace ((0 * 256 + 0) * 256 + Z.pos p1) with (Z.pos p1) by lia.
      rewrite !Hsnoc, Hlast by lia. done. }
  replace n with b0 by lia. destruct (b0 <? 128) eqn:E; [done|]. bool_to_prop.
  by rewrite Hlast by lia.
Qed.

Lemma u32_try_from_ok n : n < 2 ^ 32 → u32_try_from n = Some n.
Proof. intros H. unfold u32_try_from. by rewrite (proj2 (Z.leb_le _ _)) by lia. Qed.

Lemma u32_try_from_none n : 2 ^ 32 ≤ n → u32_try_from n = None.
Proof. intros H. unfold u32_try_from. by rewrite (proj2 (Z.leb_gt _ _)) by lia. Qed.

Lemma write_asn_header_der tag n s :
  0 ≤ n < 2 ^ 32 → write_asn_header tag n s = stored s (tag :: der_length n).
Proof.
  intros Hn. unfold write_asn_header. rewrite u32_try_from_ok by lia.
  pose proof (der_length_cases n Hn) as H. destruct (to_be_bytes4 n) as [[[b3 b2] b1] b0].
  rewrite H. destruct b3; [|done..]. destruct b2; [|done..]. destruct b1; [|done..].
  by destruct (b0 <? 128).
Qed.

Lemma calc_asn_header_len_der n :
  0 ≤ n < 2 ^ 32 → calc_asn_header_len n = Some (1 + len (der_length n)).
Proof.
  intros Hn. unfold calc_asn_header_len. rewrite u32_try_from_ok by lia. cbn [mbind option_bind].
  pose proof (der_length_cases n Hn) as H. destruct (to_be_bytes4 n) as [[[b3 b2] b1] b0].
  rewrite H. destruct b3; [|done..]. destruct b2; [|done..]. destruct b1; [|done..].
  by destruct (b0 <? 128).
Qed.

Lemma len_der_length n : 1 ≤ len (der_length n) ≤ 9.
Proof.
  unfold der_length. destruct (n <? 128); [by cbn|]. cbv zeta.
  pose proof (len_be_digits 8 n) as H. unfold len in *. rewrite length_cons. lia.
Qed.

(** ** Writers *)

Lemma stored_fits s bs :
  len bs ≤ len s → stored s bs = Return (Some (len bs), bs ++ drop (length bs) s).
Proof. intros H. unfold stored, store. by rewrite (proj2 (Z.leb_le _ _) H). Qed.

Lemma stored_short s bs : len s < len bs → stored s bs = Panicked.
Proof. intros H. unfold stored, store. by rewrite (proj2 (Z.leb_gt _ _) H). Qed.

Lemma len_app a b : len (a ++ b) = len a + len b.
Proof. unfold len. rewrite length_app. lia. Qed.

Lemma len_der tag body : len (der tag body) = 1 + len (der_length (len body)) + len body.
Proof. unfold der. unfold len at 1. rewrite length_cons, length_app. unfold len. lia. Qed.

Lemma len_nonneg s : 0 ≤ len s.
Proof. unfold len. lia. Qed.

Lemma len_drop n s : (n ≤ length s)%nat → len (drop n s) = len s - Z.of_nat n.
Proof. unfold len. rewrite length_drop. lia. Qed.

Lemma len_take n s : (n ≤ length s)%nat → len (take n s) = Z.of_nat n.
Proof. unfold len. rewrite length_take. lia. Qed.

(** A wrapped body is the DER element around it, written in place. *)
Lemma asn_wrap_der tag body_f body chunks :
  (∀ s, body_f s = stored s body) → len body < 2 ^ 32 →
  asn_wrap (write_asn_header tag) body_f (Some (len body)) chunks = stored chunks (der tag body).
Proof.
  intros Hf Hb. unfold asn_wrap. pose proof (len_nonneg body) as Hb0.
  rewrite calc_asn_header_len_der by lia.
  set (h := tag :: der_length (len body)).
  assert (1 + len (der_length (len body)) = len h) as -> by (unfold h, len; simpl length; lia).
  assert (der tag body = h ++ body) as -> by done.
  unfold split_at_mut. pose proof (len_der_length (len body)) as Hd.
  destruct (len h <=? len chunks) eqn:E; bool_to_prop.
  2:{ cbn [mbind outcome_bind]. symmetry. apply stored_short. rewrite len_app. lia. }
  assert (Z.to_nat (len h) = length h) as -> by (unfold len; lia).
  cbn [mbind outcome_bind]. rewrite Hf.
  destruct (decide (len (h ++ body) ≤ len chunks)) as [Hl|Hl].
  - assert (length h ≤ length chunks)%nat by (unfold len in *; lia).
    rewrite len_app in Hl.
    rewrite (stored_fits (drop _ _) body) by (rewrite len_drop by done; unfold len in *; lia).
    cbn [mbind outcome_bind]. rewrite write_asn_header_der by lia. fold h.
    rewrite stored_fits by (rewrite len_take by done; unfold len; lia).
    cbn [mbind outcome_bind]. rewrite stored_fits by (by rewrite len_app).
    rewrite length_app, <- drop_drop. f_equal. f_equal.
    + unfold checked_add, usize_MAX. rewrite len_app, (proj2 (Z.leb_le _ _)); [done|].
      assert (len h = 1 + len (der_length (len body))) by (unfold h, len; simpl length; lia). lia.
    + rewrite (drop_ge (take _ _)) by (rewrite length_take; lia). by rewrite app_nil_r, app_assoc.
  - assert (length h ≤ length chunks)%nat by (unfold len in *; lia).
    rewrite len_app in Hl.
    rewrite (stored_short (drop _ _)) by (rewrite len_drop by done; unfold len in *; lia).
    symmetry. apply stored_short. rewrite len_app. lia.
Qed.

Lemma vcek_report_der report vcek s :
  len report < 2 ^ 32 → len vcek ≤ isize_MAX →
  vcek_report report vcek s = stored s (vcek ++ der ASN_OCTET_STRING report).
Proof.
  intros Hr Hv. unfold vcek_report, split_at_mut. pose proof (len_nonneg report).
  destruct (len vcek <=? len s) eqn:E; bool_to_prop.
  2:{ cbn [mbind outcome_bind]. symmetry. apply stored_short. rewrite len_app. pose proof (len_nonneg (der ASN_OCTET_STRING report)). lia. }
  assert (Z.to_nat (len vcek) = length vcek) as -> by (unfold len; lia).
  assert (length vcek ≤ length s)%nat as Hl by (unfold len in *; lia).
  cbn [mbind outcome_bind]. unfold store at 1. rewrite (proj2 (Z.leb_le _ _)) by (rewrite len_take by done; unfold len; lia).
  cbn [mbind outcome_bind]. rewrite (drop_ge (take _ _)), app_nil_r by (rewrite length_take; lia).
  unfold report_chunk_len_f. rewrite (asn_wrap_der _ _ report) by done.
  set (e := der ASN_OCTET_STRING report).
  assert (len e = 1 + len (der_length (len report)) + len report) as He by apply len_der.
  destruct (decide (len e ≤ len (drop (length vcek) s))) as [Hf|Hf].
  - rewrite stored_fits by done. cbn [mbind outcome_bind option_bind].
    rewrite stored_fits by (rewrite len_app; rewrite len_drop in Hf by done; unfold len in *; lia).
    rewrite length_app, <- drop_drop, app_assoc. f_equal. f_equal.
    unfold checked_add. rewrite len_app, (proj2 (Z.leb_le _ _)); [f_equal; lia|].
    pose proof (len_der_length (len report)). unfold isize_MAX, usize_MAX in *. lia.
  - rewrite (stored_short (drop _ _)) by lia. cbn [mbind outcome_bind].
    symmetry. apply stored_short. rewrite len_app. rewrite len_drop in Hf by done. unfold len in *. lia.
Qed.

(** What is encoded is read back. *)
Lemma der_read_der tag body rest :
  len body < 2 ^ 64 → der_read (der tag body ++ rest) = Some (tag, body, rest).
Proof.
  intros Hb. pose proof (len_nonneg body) as Hb0.
  assert (∀ n, n = len body →
    (if n <=? len (body ++ rest)
     then Some (tag, take (Z.to_nat n) (body ++ rest), drop (Z.to_nat n) (body ++ rest)) else None) =
    Some (tag, body, rest)) as Hend.
  { intros ? ->. rewrite len_app, (proj2 (Z.leb_le _ _)) by (pose proof (len_nonneg rest); lia).
    by rewrite take_app_length', drop_app_length' by (unfold len; lia). }
  unfold der, der_length. destruct (len body <? 128) eqn:E.
  - cbn [app der_read]. rewrite E. cbn [mbind option_bind]. by apply Hend.
  - cbv zeta. set (ds := be_digits 8 (len body)).
    assert (from_be ds = len body) as Hds by (apply from_be_digits; lia).
    cbn [app der_read]. rewrite <- app_assoc.
    pose proof (len_nonneg ds) as Hd. rewrite (proj2 (Z.ltb_ge _ _)) by lia.
    replace (Z.to_nat (128 + len ds - 128)) with (length ds) by (unfold len; lia).
    rewrite take_app_length, drop_app_length, Hds.
    replace (len ds =? 128 + len ds - 128) with true by (symmetry; apply Z.eqb_eq; lia).
    rewrite bool_decide_eq_true_2 by (unfold der_length; by rewrite E).
    cbn [mbind option_bind andb]. by apply Hend.
Qed.

Lemma vcek_report_len_f_der report vcek :
  len report < 2 ^ 32 → len vcek ≤ isize_MAX →
  vcek_report_len_f report vcek = Some (len (vcek ++ der ASN_OCTET_STRING report)).
Proof.
  intros Hr Hv. unfold vcek_report_len_f, report_chunk_len_f. cbn [mbind option_bind].
  pose proof (len_nonneg report). pose proof (len_der_length (len report)).
  rewrite calc_asn_header_len_der by lia. cbn [mbind option_bind]. unfold checked_add, isize_MAX, usize_MAX in *.
  rewrite (proj2 (Z.leb_le _ _)) by lia. cbn [mbind option_bind].
  rewrite (proj2 (Z.leb_le _ _)) by lia. rewrite len_app, len_der. f_equal. lia.
Qed.

(** The whole encoding. *)
Definition report_der (report vcek : list Z) : list Z :=
  der ASN_SECTION_CONSTRUCTED (vcek ++ der ASN_OCTET_STRING report).

(** The encoder writes [report_der] to the front of the buffer, gives up when a
    length does not fit 32 bits, and panics when the buffer is too short. *)
Lemma asn1_encode_exact report vcek chunks :
  len vcek ≤ isize_MAX →
  asn1_encode_report_vcek report vcek chunks =
    if (len report <? 2 ^ 32) && (len (vcek ++ der ASN_OCTET_STRING report) <? 2 ^ 32)
    then stored chunks (report_der report vcek) else Return (None, chunks).
Proof.
  intros Hv. unfold asn1_encode_report_vcek. destruct (len report <? 2 ^ 32) eqn:Er; bool_to_prop.
  - rewrite vcek_report_len_f_der by done. cbn [andb]. destruct (_ <? 2 ^ 32) eqn:Eb; bool_to_prop.
    + apply asn_wrap_der; [|done]. intros s. by apply vcek_report_der.
    + unfold asn_wrap, calc_asn_header_len. by rewrite u32_try_from_none by lia.
  - unfold vcek_report_len_f, report_chunk_len_f, calc_asn_header_len. cbn [mbind option_bind].
    by rewrite u32_try_from_none by lia.
Qed.

Lemma len_report_der report vcek :
  len report < 2 ^ 32 → len (vcek ++ der ASN_OCTET_STRING report) < 2 ^ 32 →
  len (report_der report vcek) ≤ len report + len vcek + 12.
Proof.
  intros H1 H2. unfold report_der. rewrite len_der, len_app, len_der.
  assert (∀ n, 0 ≤ n < 2 ^ 32 → len (der_length n) ≤ 5) as Hl.
  { intros n Hn. pose proof (der_length_cases n Hn) as H. destruct (to_be_bytes4 n) as [[[b3 b2] b1] b0].
    rewrite H. destruct b3; [|by cbn..]. destruct b2; [|by cbn..]. destruct b1; [|by cbn..].
    destruct (b0 <? 128); by cbn. }
  pose proof (len_nonneg report). pose proof (len_nonneg (vcek ++ der ASN_OCTET_STRING report)).
  pose proof (Hl (len report) ltac:(lia)). pose proof (Hl _ ltac:(split; [|exact H2]; lia)) as Hbody.
  rewrite len_app, len_der in Hbody. lia.
Qed.

(** C30: The evidence handed to the workload can be read back.  Whenever
    [asn1_encode_report_vcek] reports a length, the first that many bytes of the
    buffer are one DER element, a SEQUENCE whose contents are the certificate
    followed by an OCTET STRING holding exactly the report; both lengths are in
    the least number of octets.  The rest of the buffer is untouched.  It reports
    a length whenever the buffer is as long as report, certificate and 12 octets of headers. *)
Theorem report_roundtrip report vcek chunks :
  len report < 2 ^ 31 → len vcek < 2 ^ 31 - 16 →
  len report + len vcek + 12 ≤ len chunks →
  ∃ n out content,
    asn1_encode_report_vcek report vcek chunks = Return (Some n, out) ∧
    len out = len chunks ∧ drop (Z.to_nat n) out = drop (Z.to_nat n) chunks ∧
    der_read (take (Z.to_nat n) out) = Some (ASN_SECTION_CONSTRUCTED, content, []) ∧
    take (length vcek) content = vcek ∧
    der_read (drop (length vcek) content) = Some (ASN_OCTET_STRING, report, []).
Proof.
  intros Hr Hv Hc. pose proof (len_nonneg report) as Hr0. pose proof (len_nonneg vcek) as Hv0.
  pose proof (len_der_length (len report)) as Hd.
  assert (len (vcek ++ der ASN_OCTET_STRING report) < 2 ^ 32) as Hb by (rewrite len_app, len_der; lia).
  set (e := report_der report vcek).
  assert (len e ≤ len chunks) as He by (pose proof (len_report_der report vcek ltac:(lia) Hb); unfold e; lia).
  exists (len e), (e ++ drop (length e) chunks), (vcek ++ der ASN_OCTET_STRING report).
  assert (Z.to_nat (len e) = length e) as -> by (unfold len; lia).
  split_and!.
  - rewrite asn1_encode_exact by (unfold isize_MAX; lia).
    rewrite !(proj2 (Z.ltb_lt _ _)) by lia. cbn [andb]. by apply stored_fits.
  - rewrite len_app, len_drop by (unfold len in He; lia). unfold len; lia.
  - by rewrite drop_app_length.
  - rewrite take_app_length. rewrite <- (app_nil_r e). by apply der_read_der; lia.
  - by rewrite take_app_length.
  - rewrite drop_app_length, <- (app_nil_r (der _ _)). apply der_read_der. lia.
Qed.

Lemma report_roundtrip_witness :
  ∃ n out content,
    asn1_encode_report_vcek [7; 8; 9] [0x30; 0x01; 5] (repeat 0xee 18) = Return (Some n, out) ∧
    len out = 18 ∧ drop (Z.to_nat n) out = drop (Z.to_nat n) (repeat 0xee 18) ∧
    der_read (take (Z.to_nat n) out) = Some (0x30, content, []) ∧
    take 3 content = [0x30; 0x01; 5] ∧ der_read (drop 3 content) = Some (0x04, [7; 8; 9], []).
Proof. apply (report_roundtrip [7; 8; 9] [0x30; 0x01; 5] (repeat 0xee 18)); done. Defined.
