(* ===== verification/KvmMachine.v ===== *)
(** * The KVM shim: the machine and the statics

    What the files of [crates/shim-kvm/src] share: the processor and the
    hypervisor ([Machine], a parameter), the places of the linked image
    ([Image]), the statics ([kvm]), the address arithmetic of the [x86_64] crate
    and [addr.rs], [random.rs], [snp/mod.rs] and [snp/cpuid_page.rs].

    The crate is built with overflow checks and without debug assertions; its
    debug output is off.  [_early_debug_panic] and the triple fault end the
    machine, as a panic does. *)

From S2P Require Import Prelude Memory Libc PhaseAlloc StagedValues Items Calls CallLaws StageKit.
From S2P Require Import SockTypes Syscalls Stubs SyscallLaws NumberCalls Platform Handler HandlerCalls.

Record CpuidResult_ : Type := mkCpuidResult { c_eax : Z; c_ebx : Z; c_ecx : Z; c_edx : Z }.

(** The instructions the shim uses.  [vmmcall] is [rep vmmcall] with the value of
    the GHCB register before and after it; [out16] writes to a port.  Both hand
    control to the hypervisor.  [pvalidate_instr rax rcx edx] is the new [rax] and
    the carry flag.  [RDRAND] is described by its failures before a value: for the
    words of one [getrandom], and for the next value. *)
Class Machine (E : Type) := {
  vmmcall : Z → E → mem → Z * E * mem;
  out16 : Z → Z → E → mem → E * mem;
  pvalidate_instr : Z → Z → Z → E → Z * bool * E;
  cpuid_instr : Z → Z → E → CpuidResult_;
  rdrand64_step : E → Z → nat * Z;
  rdrand_next : E → nat * Z * E;
}.

(** Where the linker and the loader put things. *)
Class Image := {
  C_BIT_MASK : Z;
  ghcb_at : Z;
  request_at : Z;
  response_at : Z;
  secrets_at : Z;
  cpuid_at : Z;
  sallyport_at : Z;
  vcek_buffer_at : Z;
  mem_start_at : Z;
  exec_start_at : Z;
  exec_end_at : Z;
}.

(** ** State *)

(** [lset::Line] *)
Record Line : Type := mkLine { start : Z; end_ : Z }.

Record EnarxAllocator (L : Type) : Type := mkEnarxAllocator {
  last_alloc : Z; max_alloc : Z; end_of_mem : Z; allocator : L;
}.
Arguments mkEnarxAllocator {L} _ _ _ _.
Arguments last_alloc {L} _.
Arguments max_alloc {L} _.
Arguments end_of_mem {L} _.
Arguments allocator {L} _.

Record BlockGuard : Type := mkBlockGuard { block_index : Z; guard_block : option block }.

(** The bases of the segments [fs] and [gs], and the one [swapgs] exchanges with
    that of [gs]. *)
Record Bases : Type := mkBases { fs_base : Z; gs_base : Z; kernel_gs_base : Z }.

(** [HOST_CALL_ALLOC], the [HostCall] at work, [ALLOCATOR], [SHIM_PAGETABLE],
    [BRK_LINE], [NEXT_MMAP_RWLOCK], [THREAD_TLS], the segment bases and [SNP_VCEK]
    once it is initialised; [kv_env] is the machine. *)
Record kvm (L P E : Type) : Type := mkKvm {
  kv_env : E;
  kv_blocks : list (option block);
  kv_guard : BlockGuard;
  kv_alloc : EnarxAllocator L;
  kv_pt : P;
  kv_brk : Line;
  kv_next_mmap : Z;
  kv_tls : ThreadLocalStorage;
  kv_bases : Bases;
  kv_vcek : option (result (list Z));
}.
Arguments mkKvm {L P E} _ _ _ _ _ _ _ _ _ _.
Arguments kv_env {L P E} _.
Arguments kv_blocks {L P E} _.
Arguments kv_guard {L P E} _.
Arguments kv_alloc {L P E} _.
Arguments kv_pt {L P E} _.
Arguments kv_brk {L P E} _.
Arguments kv_next_mmap {L P E} _.
Arguments kv_tls {L P E} _.
Arguments kv_bases {L P E} _.
Arguments kv_vcek {L P E} _.

Section setters.
Context {L P E : Type}.
Implicit Types s : kvm L P E.

Definition set_env e s : kvm L P E :=
  mkKvm e (kv_blocks s) (kv_guard s) (kv_alloc s) (kv_pt s) (kv_brk s) (kv_next_mmap s) (kv_tls s)
    (kv_bases s) (kv_vcek s).
Definition set_blocks bs g s : kvm L P E :=
  mkKvm (kv_env s) bs g (kv_alloc s) (kv_pt s) (kv_brk s) (kv_next_mmap s) (kv_tls s)
    (kv_bases s) (kv_vcek s).
Definition set_alloc a s : kvm L P E :=
  mkKvm (kv_env s) (kv_blocks s) (kv_guard s) a (kv_pt s) (kv_brk s) (kv_next_mmap s) (kv_tls s)
    (kv_bases s) (kv_vcek s).
Definition set_pt p s : kvm L P E :=
  mkKvm (kv_env s) (kv_blocks s) (kv_guard s) (kv_alloc s) p (kv_brk s) (kv_next_mmap s) (kv_tls s)
    (kv_bases s) (kv_vcek s).
Definition set_brk l s : kvm L P E :=
  mkKvm (kv_env s) (kv_blocks s) (kv_guard s) (kv_alloc s) (kv_pt s) l (kv_next_mmap s) (kv_tls s)
    (kv_bases s) (kv_vcek s).
Definition set_next_mmap n s : kvm L P E :=
  mkKvm (kv_env s) (kv_blocks s) (kv_guard s) (kv_alloc s) (kv_pt s) (kv_brk s) n (kv_tls s)
    (kv_bases s) (kv_vcek s).
Definition set_tls t s : kvm L P E :=
  mkKvm (kv_env s) (kv_blocks s) (kv_guard s) (kv_alloc s) (kv_pt s) (kv_brk s) (kv_next_mmap s) t
    (kv_bases s) (kv_vcek s).
Definition set_bases b s : kvm L P E :=
  mkKvm (kv_env s) (kv_blocks s) (kv_guard s) (kv_alloc s) (kv_pt s) (kv_brk s) (kv_next_mmap s)
    (kv_tls s) b (kv_vcek s).
Definition set_vcek v s : kvm L P E :=
  mkKvm (kv_env s) (kv_blocks s) (kv_guard s) (kv_alloc s) (kv_pt s) (kv_brk s) (kv_next_mmap s)
    (kv_tls s) (kv_bases s) v.

End setters.

(** Access to the state and to memory, for any state [S]. *)
Section access.
Context {S : Type}.

Definition asks {A : Type} (f : S → A) : handlerM S A := λ w, Return (Ok (f (w_self w)), w).
Definition modify (f : S → S) : handlerM S unit := λ w,
  Return (Ok (), mkWorld (f (w_self w)) (w_mem w)).
Definition reads {A : Type} (f : mem → A) : handlerM S A := λ w, Return (Ok (f (w_mem w)), w).
Definition writes (a : Z) (bs : list Z) : handlerM S unit := λ w,
  Return (Ok (), mkWorld (w_self w) (write_bytes (w_mem w) a bs)).

Definition panic {A : Type} : handlerM S A := λ _, Panicked.

(** The [Result] of a call, to be inspected; [.unwrap()] of it. *)
Definition catch {A : Type} (m : handlerM S A) : handlerM S (result A) := λ w,
  '(r, w) ← m w; Return (Ok r, w).
Definition unwrap {A : Type} (m : handlerM S A) : handlerM S A :=
  r ← catch m; match r with Ok x => mret x | Err _ => panic end.
Definition unwrap_option {A : Type} (o : option A) : handlerM S A :=
  match o with Some x => mret x | None => panic end.

End access.

(** ** Addresses *)

Definition Size4KiB : Z := 4096.
Definition Size2MiB : Z := Z.shiftl 1 21.
Definition Size1GiB : Z := Z.shiftl 1 30.

(** [VirtAddr + u64] and [VirtAddr - u64]; [PhysAddr::new] panics above 52 bits. *)
Definition virt_add (a n : Z) : outcome Z := VirtAddr_new (as_u64 (a + n)).
Definition virt_sub (a n : Z) : outcome Z := if n <=? a then VirtAddr_new (a - n) else Panicked.
Definition PhysAddr_new (addr : Z) : outcome Z := if addr <? 2 ^ 52 then Return addr else Panicked.

(** [VirtAddr::new_truncate] *)
Definition VirtAddr_new_truncate (addr : Z) : Z :=
  let u := addr mod 2 ^ 48 in if u <? 2 ^ 47 then u else u + (2 ^ 64 - 2 ^ 48).

(** [x86_64::align_up] and [align_down], for a power of two. *)
Definition align_down (addr align : Z) : Z := addr - addr mod align.
Definition align_up (addr align : Z) : outcome Z :=
  if addr mod align =? 0 then Return addr
  else if align_down addr align + align <=? usize_MAX then Return (align_down addr align + align)
  else Panicked.

(** [addr.rs]; [Address::try_cast] checks the alignment of the type, which is one
    for [u8]. *)
Definition SHIM_VIRT_OFFSET : Z := 0xFFFFFF8000000000.

Section snp.
Context `{Image}.

(** [snp/mod.rs] *)
Definition get_cbit_mask : Z := C_BIT_MASK.
Definition snp_active : bool := 0 <? get_cbit_mask.

(** [ShimPhysAddr::from] an address *)
Definition ShimPhysAddr_from (addr : Z) : Z := Z.lor addr get_cbit_mask.

(** [ShimVirtAddr::from(ShimPhysAddr)]: the C-bit is removed. *)
Definition ShimVirtAddr_from (phys : Z) : outcome Z :=
  add_usize (Z.land phys (Z.lxor usize_MAX get_cbit_mask)) SHIM_VIRT_OFFSET.

(** [ShimPhysAddr::try_from(ShimVirtAddr)]: the C-bit is not set. *)
Definition ShimPhysAddr_try_from (virt : Z) : option Z := checked_sub virt SHIM_VIRT_OFFSET.

(** [allocator.rs], for a pointer of the shim. *)
Definition shim_virt_to_enc_phys (p : Z) : outcome Z :=
  virt ← VirtAddr_new p;
  if SHIM_VIRT_OFFSET <=? virt then PhysAddr_new (Z.lor (virt - SHIM_VIRT_OFFSET) get_cbit_mask) else Panicked.

End snp.

Inductive PvalidateSize : Type := Size4K | Size2M.
Inductive PvalidateError : Type := FailInput | FailSizeMismatch | Unknown (ret : Z).
Definition pvalidate_size (s : PvalidateSize) : Z := match s with Size4K => 0 | Size2M => 1 end.

Section machine.
Context {L P E : Type} `{Machine E, Image}.

(** [pvalidate]; the result tells whether the entry was changed. *)
Definition pvalidate (addr : Z) (size : PvalidateSize) (validated : bool)
    : handlerM (kvm L P E) (bool + PvalidateError) := λ w,
  let '(ret, carry, e) := pvalidate_instr (align_down addr 4096) (pvalidate_size size)
    (if validated then 1 else 0) (kv_env (w_self w)) in
  let w := mkWorld (set_env e (w_self w)) (w_mem w) in
  let ret := as_u32 ret in
  Return (Ok (if ret =? 0 then inl (negb carry)
              else if ret =? 1 then inr FailInput
              else if ret =? 6 then inr FailSizeMismatch
              else inr (Unknown ret)), w).

(** [pvalidate(..).unwrap()] *)
Definition pvalidate_unwrap (addr : Z) (size : PvalidateSize) (validated : bool)
    : handlerM (kvm L P E) bool :=
  r ← pvalidate addr size validated; match r with inl changed => mret changed | inr _ => panic end.

(** [random.rs]: up to 1024 attempts. *)
Definition random : handlerM (kvm L P E) Z := λ w,
  let '(failures, r, e) := rdrand_next (kv_env (w_self w)) in
  if (failures <? 1024)%nat then Return (Ok r, mkWorld (set_env e (w_self w)) (w_mem w)) else Panicked.

(** ** [snp/cpuid_page.rs] *)

Definition COUNT_MAX : Z := 64.

(** [CpuidFunctionEntry] is 48 bytes long, the first one at offset 16. *)
Record CpuidFunctionEntry : Type := mkCpuidFunctionEntry {
  eax_in : Z; ecx_in : Z; xcr0_in : Z; xss_in : Z; eax : Z; ebx : Z; ecx : Z; edx : Z;
}.
Definition entry_at (m : mem) (a : Z) : CpuidFunctionEntry :=
  mkCpuidFunctionEntry (read_u32 m a) (read_u32 m (a + 4)) (read_usize m (a + 8)) (read_usize m (a + 16))
    (read_u32 m (a + 24)) (read_u32 m (a + 28)) (read_u32 m (a + 32)) (read_u32 m (a + 36)).

Definition get_functions (m : mem) : outcome (list CpuidFunctionEntry) :=
  let count := read_u32 m cpuid_at in
  if count <=? COUNT_MAX then Return ((λ i, entry_at m (cpuid_at + 16 + 48 * i)) <$> seqZ 0 count)
  else Panicked.

Definition cpuid_count (leaf sub_leaf : Z) : handlerM (kvm L P E) CpuidResult_ :=
  if negb snp_active then asks (λ s, cpuid_instr leaf sub_leaf (kv_env s))
  else
    functions ← reads get_functions;
    functions ← must functions;
    match list_find (λ e, eax_in e = leaf ∧ ecx_in e = sub_leaf) functions with
    | Some (_, e) => mret (mkCpuidResult (eax e) (ebx e) (ecx e) (edx e))
    | None => mret (mkCpuidResult 0 0 0 0)
    end.

Definition cpuid (leaf : Z) : handlerM (kvm L P E) CpuidResult_ := cpuid_count leaf 0.

Definition get_cpuid_max (leaf : Z) : handlerM (kvm L P E) (Z * Z) :=
  r ← cpuid leaf; mret (c_eax r, c_ebx r).

(** ** [interrupts.rs]: the handler of #VC *)

Record ExtendedInterruptStackFrameValue : Type := mkFrame {
  f_rbp : Z; f_rbx : Z; f_r15 : Z; f_r14 : Z; f_r13 : Z; f_r12 : Z; f_r11 : Z; f_r10 : Z; f_r9 : Z; f_r8 : Z;
  f_rax : Z; f_rcx : Z; f_rdx : Z; f_rdi : Z; f_rsi : Z;
  instruction_pointer : Z; code_segment : Z; cpu_flags : Z; stack_pointer : Z; stack_segment : Z;
}.

(** The body of the handler *)
Definition vmm_communication_exception_handler (error_code : Z) (f : ExtendedInterruptStackFrameValue)
    : handlerM (kvm L P E) ExtendedInterruptStackFrameValue :=
  if error_code =? 0x72 then
    r ← cpuid_count (as_u32 (f_rax f)) (as_u32 (f_rcx f));
    ip ← must (virt_add (instruction_pointer f) 2);
    mret (mkFrame (f_rbp f) (c_ebx r) (f_r15 f) (f_r14 f) (f_r13 f) (f_r12 f) (f_r11 f) (f_r10 f) (f_r9 f) (f_r8 f)
            (c_eax r) (c_ecx r) (c_edx r) (f_rdi f) (f_rsi f)
            ip (code_segment f) (cpu_flags f) (stack_pointer f) (stack_segment f))
  else panic.

End machine.

(** ** What is assumed of the machine *)

(** Two pages that do not overlap. *)
Definition apart (a b : Z) : Prop := a + 4096 ≤ b ∨ b + 4096 ≤ a.
Definition shim_page (a : Z) : Prop := a mod 4096 = 0 ∧ SHIM_VIRT_OFFSET ≤ a ∧ a + 4096 ≤ 2 ^ 64.

Record image_wf `{Image} : Prop := {
  iw_ghcb : shim_page ghcb_at;
  iw_request : shim_page request_at;
  iw_response : shim_page response_at;
  iw_secrets : shim_page secrets_at;
  iw_pages : apart ghcb_at request_at ∧ apart ghcb_at response_at ∧ apart request_at response_at ∧
    apart secrets_at ghcb_at ∧ apart secrets_at request_at ∧ apart secrets_at response_at;
  iw_sallyport : secrets_at + 4096 ≤ sallyport_at ∨ sallyport_at + 2 * 69632 ≤ secrets_at;
}.

(** The memory that is not encrypted. *)
Definition hypervisor_pages `{Image} : list gref :=
  [mkGref ghcb_at 4096 1; mkGref request_at 4096 1; mkGref response_at 4096 1;
   mkGref sallyport_at (2 * 69632) 1].

(** The hypervisor reaches nothing else. *)
Class MachineLaws (E : Type) `{Machine E, Image} := {
  ml_exit : ∀ v e m v' e' m', vmmcall v e m = (v', e', m') →
    same_except hypervisor_pages m m' ∧ (mem_wf m → mem_wf m');
}.
