(* ===== verification/Ghcb.v ===== *)
(** * Talking to the hypervisor and to the firmware

    [crates/shim-kvm/src/snp/ghcb.rs] and [snp/secrets_page.rs]: exits to the
    hypervisor through the GHCB page, and the encrypted messages to the firmware
    of the secure processor that they carry.  The pages are bytes in memory at
    the places of [Image]; AES-GCM is a parameter ([Aead]).

    [Err(())] is [Err 0]. *)

From S2P Require Import Prelude Memory Libc PhaseAlloc StagedValues Items Calls CallLaws StageKit.
From S2P Require Import SockTypes Syscalls Stubs SyscallLaws NumberCalls Platform Handler HandlerCalls.
From S2P Require Import KvmMachine.

(** ** Layouts *)

(** Sizes of consecutive fields without padding, and where the [n]-th one is. *)
Definition field_offset (sizes : list Z) (n : nat) : Z := foldr Z.add 0 (take n sizes).

Definition GhcbSaveArea : list Z :=
  [203; 1; 300; 8; 264; 8; 8; 8; 112; 8; 8; 8; 8; 56; 8; 16; 8; 1016].
Definition off_rax : Z := field_offset GhcbSaveArea 3.
Definition off_rbx : Z := field_offset GhcbSaveArea 7.
Definition off_sw_exit_code : Z := field_offset GhcbSaveArea 9.
Definition off_sw_exit_info1 : Z := field_offset GhcbSaveArea 10.
Definition off_sw_exit_info2 : Z := field_offset GhcbSaveArea 11.
Definition off_sw_scratch : Z := field_offset GhcbSaveArea 12.
Definition off_valid_bitmap : Z := field_offset GhcbSaveArea 15.

(** [Ghcb]: the save area, the shared buffer, reserved bytes, version and usage. *)
Definition Ghcb : list Z := [2048; 2032; 10; 2; 4].
Definition off_shared_buffer : Z := field_offset Ghcb 1.
Definition off_protocol_version : Z := field_offset Ghcb 3.
Definition off_ghcb_usage : Z := field_offset Ghcb 4.

Definition SNP_GUEST_MSG_PAYLOAD_LEN : Z := 4000.
Definition SNP_ATTESTATION_LEN_MAX : Z := SNP_GUEST_MSG_PAYLOAD_LEN.
Definition MSG_HDR_VER : Z := 1.

(** [SnpGuestMsgHdr] *)
Definition SnpGuestMsgHdr : list Z := [32; 8; 8; 1; 1; 2; 1; 1; 2; 4; 1; 35].
Definition off_authtag : Z := field_offset SnpGuestMsgHdr 0.
Definition off_msg_seqno : Z := field_offset SnpGuestMsgHdr 1.
Definition off_algo : Z := field_offset SnpGuestMsgHdr 3.
Definition off_hdr_version : Z := field_offset SnpGuestMsgHdr 4.
Definition off_hdr_sz : Z := field_offset SnpGuestMsgHdr 5.
Definition off_msg_type : Z := field_offset SnpGuestMsgHdr 6.
Definition off_msg_version : Z := field_offset SnpGuestMsgHdr 7.
Definition off_msg_sz : Z := field_offset SnpGuestMsgHdr 8.
Definition off_msg_vmpck : Z := field_offset SnpGuestMsgHdr 10.
Definition size_of_SnpGuestMsgHdr : Z := field_offset SnpGuestMsgHdr 12.
Definition off_payload : Z := size_of_SnpGuestMsgHdr.

Inductive SnpMsgType : Type := KeyReq | KeyRsp | ReportReq | ReportRsp.
Definition SnpMsgType_u8 (t : SnpMsgType) : Z :=
  match t with KeyReq => 3 | KeyRsp => 4 | ReportReq => 5 | ReportRsp => 6 end.
Definition SnpAeadAes256Gcm : Z := 1.

Inductive GhcbError : Type := VmmError | Exception_.

(** [GhcbMsr] *)
Definition GPA_REQ : Z := 0x12.
Definition GPA_RESP : Z := 0x13.
Definition PSC_REQ : Z := 0x14.
Definition PSC_RESP : Z := 0x15.
Definition PSC_OP_POS : Z := 52.
Definition PSC_ERROR_MASK : Z := Z.shiftr usize_MAX 32.

(** ** Authenticated encryption

    [encrypt key nonce associated_data plaintext] is the ciphertext and the tag. *)
Class Aead := {
  encrypt : list Z → list Z → list Z → list Z → option (list Z * list Z);
  decrypt : list Z → list Z → list Z → list Z → list Z → option (list Z);
}.

(** What the crate documents: the ciphertext is as long as the plaintext, and the
    tag has 16 bytes. *)
Class AeadLaws `{Aead} := {
  al_length : ∀ key nonce ad p c t, encrypt key nonce ad p = Some (c, t) →
    length c = length p ∧ length t = 16%nat;
  al_open : ∀ key nonce ad c t p, decrypt key nonce ad c t = Some p → length p = length c;
}.

Definition read_u16 (m : mem) (a : Z) : Z := from_le_bytes (read_bytes m a 2).

Section ghcb.
Context {L P E : Type} `{Machine E, Image}.
Let S_ := kvm L P E.

(** [rep vmmcall]: the value of the GHCB register afterwards. *)
Definition vmm_exit (msr : Z) : handlerM S_ Z := λ w,
  let '(msr, e, m) := vmmcall msr (kv_env (w_self w)) (w_mem w) in
  Return (Ok msr, mkWorld (set_env e (w_self w)) m).

Definition vmgexit_msr (request_code value expected_response : Z) : handlerM S_ Z :=
  retcode ← vmm_exit (Z.lor request_code value);
  if negb (expected_response =? Z.land retcode 0xFFF) then panic
  else mret (Z.land retcode (Z.lxor usize_MAX 0xFFF)).

(** ** [GhcbHandle] *)

Definition set_field (off v : Z) : handlerM S_ unit := writes (ghcb_at + off) (to_le_bytes 8 v).
Definition field (off : Z) : handlerM S_ Z := reads (λ m, read_usize m (ghcb_at + off)).

Definition set_offset_valid (addr : Z) : handlerM S_ unit :=
  offset ← unwrap_option (checked_sub addr ghcb_at);
  let offset := offset / 8 in
  if offset / 8 <? 16 then
    let byte := ghcb_at + off_valid_bitmap + offset / 8 in
    old ← reads (λ m, m byte);
    writes byte [Z.lor old (Z.shiftl 1 (Z.land offset 7))]
  else panic.

Definition invalidate : handlerM S_ unit :=
  _ ← set_field off_sw_exit_code 0;
  writes (ghcb_at + off_valid_bitmap) (repeat 0 16).

(** [self.ghcb.save_area.f = v; self.set_offset_valid(addr_of!(.. .f))] *)
Definition set_valid (off v : Z) : handlerM S_ unit :=
  _ ← set_field off v; set_offset_valid (ghcb_at + off).

(** The guest physical address of something in the shim. *)
Definition gpa_of (virt : Z) : handlerM S_ Z :=
  v ← must (VirtAddr_new virt); must (virt_sub v SHIM_VIRT_OFFSET).

(** What the hypervisor reports: an exception to inject, or another error. *)
Definition exit_result (m : mem) : unit + GhcbError :=
  if Z.land (read_usize m (ghcb_at + off_sw_exit_info1)) 0xffffffff =? 1 then
    let exit_info2 := read_usize m (ghcb_at + off_sw_exit_info2) in
    let vector := Z.land exit_info2 0xff in
    if negb (Z.land exit_info2 (Z.shiftl 1 31) =? 0) &&
       (Z.land exit_info2 (Z.shiftl 7 8) =? Z.shiftl 3 8) &&
       ((vector =? 13) || (vector =? 6))
    then inr Exception_ else inr VmmError
  else inl ().

Definition vmgexit (exit_code exit_info_1 exit_info_2 : Z) : handlerM S_ (unit + GhcbError) :=
  _ ← set_valid off_sw_exit_code exit_code;
  _ ← set_valid off_sw_exit_info1 exit_info_1;
  _ ← set_valid off_sw_exit_info2 exit_info_2;
  _ ← writes (ghcb_at + off_ghcb_usage) (to_le_bytes 4 0);
  _ ← writes (ghcb_at + off_protocol_version) (to_le_bytes 2 2);
  gpa ← gpa_of ghcb_at;
  _ ← vmm_exit gpa;
  reads exit_result.

Definition SVM_EXIT_IOIO_PROT : Z := 0x7B.
Definition IOIO_DATA_16 : Z := Z.shiftl 1 5.

Definition do_io_out (portnumber value : Z) : handlerM S_ unit :=
  _ ← invalidate;
  _ ← set_valid off_rax value;
  r ← vmgexit SVM_EXIT_IOIO_PROT (Z.lor IOIO_DATA_16 (Z.shiftl portnumber 16)) 0;
  match r with inl _ => mret () | inr _ => panic end.

Definition SVM_VMGEXIT_GUEST_REQUEST : Z := 0x80000011.
Definition SVM_VMGEXIT_EXT_GUEST_REQUEST : Z := 0x80000012.

(** What follows the exit of the two requests. *)
Definition request_status (r : unit + GhcbError) : handlerM S_ unit :=
  match r with
  | inr _ => try (Err usize_MAX)
  | inl _ =>
      info2 ← field off_sw_exit_info2;
      if negb (info2 =? 0) then try (Err info2) else mret ()
  end.

Definition guest_req (req_gpa resp_gpa : Z) : handlerM S_ unit :=
  _ ← invalidate;
  r ← vmgexit SVM_VMGEXIT_GUEST_REQUEST req_gpa resp_gpa;
  request_status r.

Definition guest_req_ext (data_gpa num_pages req_gpa resp_gpa : Z) : handlerM S_ unit :=
  _ ← invalidate;
  _ ← set_valid off_rax data_gpa;
  _ ← set_valid off_rbx num_pages;
  r ← vmgexit SVM_VMGEXIT_EXT_GUEST_REQUEST req_gpa resp_gpa;
  request_status r.

(** ** The secrets page *)

Definition off_vmpck0 : Z := 0x20.
Definition off_msg_seqno_0 : Z := 0xA0.

Definition get_vmpck0 : handlerM S_ (list Z) := reads (λ m, read_bytes m (secrets_at + off_vmpck0) 32).

Definition checked_add_u32 (a b : Z) : option Z := if a + b <=? 2 ^ 32 - 1 then Some (a + b) else None.

Definition get_msg_seqno_0 : handlerM S_ Z :=
  n ← reads (λ m, read_u32 m (secrets_at + off_msg_seqno_0));
  unwrap_option (checked_add_u32 n 1).

Definition inc_msg_seqno_0 : handlerM S_ unit :=
  n ← reads (λ m, read_u32 m (secrets_at + off_msg_seqno_0));
  n ← unwrap_option (checked_add_u32 n 2);
  writes (secrets_at + off_msg_seqno_0) (to_le_bytes 4 n).

(** ** Messages: [GhcbExtHandle] *)

Definition page_at (gpa_base : Z) : handlerM S_ Z := a ← gpa_of gpa_base; must (PhysAddr_new a).

(** [GhcbExtHandle::guest_req] *)
Definition ext_guest_req : handlerM S_ unit :=
  req_gpa ← page_at request_at;
  _ ← writes response_at (repeat 0 4096);
  resp_gpa ← page_at response_at;
  ret ← catch (guest_req req_gpa resp_gpa);
  _ ← (if is_ok ret then inc_msg_seqno_0 else mret ());
  try ret.

Context `{Aead}.

(** The nonce is the sequence number, as stored in the header. *)
Definition nonce_at (m : mem) (msg : Z) : list Z := read_bytes m (msg + off_msg_seqno) 8 ++ repeat 0 4.
Definition associated_at (m : mem) (msg : Z) : list Z := read_bytes m (msg + off_algo) 48.

Definition enc_payload (version : Z) (msg_type : SnpMsgType) (plaintext : list Z) : handlerM S_ unit :=
  let plaintext_size := Z.of_nat (length plaintext) in
  _ ← writes (request_at + off_algo) [SnpAeadAes256Gcm];
  _ ← writes (request_at + off_hdr_version) [MSG_HDR_VER];
  _ ← writes (request_at + off_hdr_sz) (to_le_bytes 2 size_of_SnpGuestMsgHdr);
  _ ← writes (request_at + off_msg_type) [SnpMsgType_u8 msg_type];
  _ ← writes (request_at + off_msg_version) [version];
  seqno ← get_msg_seqno_0;
  _ ← writes (request_at + off_msg_seqno) (to_le_bytes 8 seqno);
  _ ← writes (request_at + off_msg_vmpck) [0];
  _ ← writes (request_at + off_msg_sz) (to_le_bytes 2 plaintext_size);
  vmpck0 ← get_vmpck0;
  nonce ← reads (λ m, nonce_at m request_at);
  associated ← reads (λ m, associated_at m request_at);
  match encrypt vmpck0 nonce associated plaintext with
  | None => try (Err 0)
  | Some (ciphertext, tag) =>
      if plaintext_size <=? SNP_GUEST_MSG_PAYLOAD_LEN then
        _ ← writes (request_at + off_payload) ciphertext;
        writes (request_at + off_authtag) (take 16 tag)
      else panic
  end.

(** The checks on the header of the response. *)
Definition response_ok (m : mem) (payload_size : Z) (expected : SnpMsgType) : bool :=
  match checked_add (read_usize m (request_at + off_msg_seqno)) 1 with
  | None => false
  | Some next_seqno =>
      (next_seqno =? read_usize m (response_at + off_msg_seqno)) &&
      (SnpMsgType_u8 expected =? m (response_at + off_msg_type)) &&
      (m (request_at + off_msg_version) =? m (response_at + off_msg_version)) &&
      (m (response_at + off_algo) =? SnpAeadAes256Gcm) &&
      (read_u16 m (response_at + off_hdr_sz) =? size_of_SnpGuestMsgHdr) &&
      (m (response_at + off_msg_vmpck) =? 0) &&
      (read_u16 m (response_at + off_msg_sz) <=? payload_size)
  end.

(** [dec_payload]: the new contents of the buffer. *)
Definition dec_payload (plaintext : list Z) (expected : SnpMsgType) : handlerM S_ (list Z) :=
  ok ← reads (λ m, response_ok m (Z.of_nat (length plaintext)) expected);
  if negb ok then try (Err 0)
  else
    vmpck0 ← get_vmpck0;
    nonce ← reads (λ m, nonce_at m response_at);
    associated ← reads (λ m, associated_at m response_at);
    tag ← reads (λ m, read_bytes m (response_at + off_authtag) 16);
    msg_sz ← reads (λ m, read_u16 m (response_at + off_msg_sz));
    if msg_sz <=? SNP_GUEST_MSG_PAYLOAD_LEN then
      ciphertext ← reads (λ m, read_bytes m (response_at + off_payload) msg_sz);
      decrypted ← unwrap_option (decrypt vmpck0 nonce associated ciphertext tag);
      mret (decrypted ++ drop (Z.to_nat msg_sz) plaintext)
    else panic.

Definition SNP_KEY_LEN : Z := 32.
Definition GUEST_POLICY : Z := 1.
Definition GUEST_SVN : Z := Z.shiftl 1 4.

(** [KeyReq { .. }.as_bytes()] *)
Definition KeyReq_bytes (guest_svn : Z) : list Z :=
  to_le_bytes 4 0 ++ to_le_bytes 4 0 ++ to_le_bytes 8 (Z.lor GUEST_SVN GUEST_POLICY) ++
  to_le_bytes 4 0 ++ to_le_bytes 4 guest_svn ++ to_le_bytes 8 0.
Definition KeyRsp_SIZE : Z := 64.

(** The status of a response: 0, 0x16 for an error, anything else is not known. *)
Definition response_status {A : Type} (status : Z) (x : A) : handlerM S_ A :=
  if status =? 0 then mret x else if status =? 0x16 then try (Err EIO) else panic.

(** What the two requests have in common: the request page is cleared, the
    request is sealed and sent, and the response is opened. *)
Definition exchange (version : Z) (request : SnpMsgType) (plaintext : list Z) (response : SnpMsgType)
    (buffer : list Z) : handlerM S_ (list Z) :=
  _ ← writes request_at (repeat 0 4096);
  _ ← unwrap (enc_payload version request plaintext);
  _ ← unwrap ext_guest_req;
  unwrap (dec_payload buffer response).

Definition get_key (version guest_svn : Z) : handlerM S_ (list Z) :=
  response ← exchange version KeyReq (KeyReq_bytes guest_svn) KeyRsp (repeat 0 (Z.to_nat KeyRsp_SIZE));
  if negb (Z.of_nat (length response) =? KeyRsp_SIZE) then try (Err EIO)
  else response_status (from_le_bytes (take 4 response)) (take 32 (drop 32 response)).

Definition size_of_SnpReportResponseHeader : Z := 32.

(** [get_report]: the two numbers of its result, and the new contents of the
    response buffer. *)
Definition get_report (version : Z) (nonce response : list Z) : handlerM S_ (Z * Z * list Z) :=
  if negb (Z.of_nat (length nonce) =? 64) then try (Err EINVAL)
  else if Z.of_nat (length response) <? SNP_ATTESTATION_LEN_MAX then try (Err EINVAL)
  else
    response ← exchange version ReportReq nonce ReportRsp response;
    msg_sz ← reads (λ m, read_u16 m (response_at + off_msg_sz));
    if msg_sz <? size_of_SnpReportResponseHeader then try (Err EIO)
    else
      let status := from_le_bytes (take 4 response) in
      let size := from_le_bytes (take 4 (drop 4 response)) in
      response_status status (size_of_SnpReportResponseHeader, size, response).

End ghcb.
