(* ===== verification/KvmSample.v ===== *)
(** * A small machine for the KVM shim

    The image, the machine and the cipher that the properties of the KVM shim are
    evaluated with: a hypervisor that answers with any change of the memory, of
    which the hardware lets through what concerns the shared pages, and a cipher
    that does not hide anything and whose tag is the nonce. *)

From S2P Require Import Prelude Memory Libc PhaseAlloc StagedValues Items Calls CallLaws StageKit.
From S2P Require Import SockTypes Syscalls Stubs SyscallLaws NumberCalls Platform Handler HandlerCalls.
From S2P Require Import KvmMachine Ghcb.

#[global] Instance sample_image : Image := {|
  C_BIT_MASK := 2 ^ 51;
  ghcb_at := SHIM_VIRT_OFFSET + 0x1000;
  request_at := SHIM_VIRT_OFFSET + 0x2000;
  response_at := SHIM_VIRT_OFFSET + 0x3000;
  secrets_at := SHIM_VIRT_OFFSET + 0x4000;
  cpuid_at := SHIM_VIRT_OFFSET + 0x5000;
  vcek_buffer_at := SHIM_VIRT_OFFSET + 0x6000;
  sallyport_at := SHIM_VIRT_OFFSET + 0x10000;
  mem_start_at := SHIM_VIRT_OFFSET;
  exec_start_at := SHIM_VIRT_OFFSET + 0x100000;
  exec_end_at := SHIM_VIRT_OFFSET + 0x200000;
|}.

Lemma sample_image_wf : image_wf.
Proof. by split; vm_compute; intuition discriminate. Qed.

(** What it answers, and the pages that were validated. *)
Record hypervisor : Type := mkHypervisor { hy_answer : mem → mem; hy_validated : list Z }.

Definition is_shared (x : Z) : bool :=
  existsb (λ r, (g_ptr r <=? x) && (x <? g_ptr r + g_bytes r)) hypervisor_pages.

Definition confine (f : mem → mem) (m : mem) : mem := λ x,
  if is_shared x then let v := f m x in if (0 <=? v) && (v <? 256) then v else m x else m x.

#[global] Instance sample_machine : Machine hypervisor := {|
  vmmcall v e m := (v, e, confine (hy_answer e) m);
  out16 _ _ e m := (e, confine (hy_answer e) m);
  pvalidate_instr rax _ edx e :=
    (0, false, if edx =? 1 then mkHypervisor (hy_answer e) (rax :: hy_validated e) else e);
  cpuid_instr _ _ _ := mkCpuidResult 0 0 0 0;
  rdrand64_step _ i := (0%nat, i);
  rdrand_next e := (0%nat, 42, e);
|}.

Lemma confine_outside f m x : is_shared x = false → confine f m x = m x.
Proof. intros E. unfold confine. by rewrite E. Qed.

Lemma confine_frame f m :
  same_except hypervisor_pages m (confine f m) ∧ (mem_wf m → mem_wf (confine f m)).
Proof.
  split.
  - intros x Hx. apply confine_outside. apply not_true_iff_false. unfold is_shared.
    rewrite existsb_exists. intros (r & Hr & Hin). apply andb_true_iff in Hin as [H1 H2]. bool_to_prop.
    rewrite Forall_forall in Hx. apply (Hx r); [by apply list_elem_of_In|]. unfold in_gref. lia.
  - intros Hm x. unfold confine. destruct (is_shared x); [|apply Hm]. cbv zeta.
    destruct (_ && _) eqn:E; [|apply Hm]. bool_to_prop. lia.
Qed.

#[global] Instance sample_machine_laws : MachineLaws hypervisor.
Proof. split. intros v e m v' e' m' [= <- <- <-]. apply confine_frame. Qed.

(** What changes shared pages only, and to bytes, is let through. *)
Lemma confine_through f m :
  same_except hypervisor_pages m (f m) → (∀ x, f m x = m x ∨ 0 ≤ f m x < 256) → confine f m ≡ f m.
Proof.
  intros Hs Hb x. unfold confine. destruct (is_shared x) eqn:E; cbv zeta.
  - destruct (Hb x) as [->|[H1 H2]]; [by destruct (_ && _)|].
    by rewrite (proj2 (Z.leb_le _ _) H1), (proj2 (Z.ltb_lt _ _) H2).
  - symmetry. apply Hs. apply Forall_forall. intros r Hr Hin. unfold in_gref in Hin.
    apply not_true_iff_false in E. apply E. unfold is_shared. apply existsb_exists.
    exists r. split; [by apply list_elem_of_In|]. apply andb_true_iff. rewrite Z.leb_le, Z.ltb_lt. lia.
Qed.

Definition sample_tag (nonce : list Z) : list Z := take 16 (nonce ++ repeat 0 16).

#[global] Instance sample_aead : Aead := {|
  encrypt _ nonce _ p := Some (p, sample_tag nonce);
  decrypt _ nonce _ c t := if bool_decide (t = sample_tag nonce) then Some c else None;
|}.

#[global] Instance sample_aead_laws : AeadLaws.
Proof.
  split.
  - intros key nonce ad p c t [= <- <-]. split; [done|]. unfold sample_tag.
    rewrite length_take, length_app, repeat_length. lia.
  - intros key nonce ad c t p. simpl. case_bool_decide; [|done]. by intros [= ->].
Qed.
