(* ===== verification/GhcbLaws.v ===== *)
(** * What the hypervisor sees, and what the firmware protects

    Exits through the GHCB hand over exactly the fields that are meant.  The
    messages to the firmware are sealed with a nonce that is never used again,
    and what is accepted as an answer was sealed with the key that the shim
    shares with the firmware. *)

From stdpp Require Import relations.
From S2P Require Import Prelude Memory Libc PhaseAlloc StagedValues Items Calls CallLaws StageKit.
From S2P Require Import SockTypes Syscalls Stubs SyscallLaws NumberCalls Platform Handler HandlerCalls.
From S2P Require Import KvmMachine Ghcb KvmSample.

(** [offs] computes the places of the fields. *)
Ltac offs :=
  change off_rax with 0x1F8 in *; change off_rbx with 0x318 in *;
  change off_sw_exit_code with 0x390 in *; change off_sw_exit_info1 with 0x398 in *;
  change off_sw_exit_info2 with 0x3A0 in *; change off_sw_scratch with 0x3A8 in *;
  change off_valid_bitmap with 0x3F0 in *; change off_shared_buffer with 0x800 in *;
  change off_protocol_version with 0xFFA in *; change off_ghcb_usage with 0xFFC in *;
  change off_authtag with 0 in *; change off_msg_seqno with 32 in *; change off_algo with 48 in *;
  change off_hdr_version with 49 in *; change off_hdr_sz with 50 in *; change off_msg_type with 52 in *;
  change off_msg_version with 53 in *; change off_msg_sz with 54 in *; change off_msg_vmpck with 60 in *;
  change size_of_SnpGuestMsgHdr with 96 in *; change off_payload with 96 in *;
  change off_vmpck0 with 0x20 in *; change off_msg_seqno_0 with 0xA0 in *.

Section exits.
Context {L P E : Type} `{Machine E, Image} (Hi : image_wf).
Let S_ := kvm L P E.

Lemma gpa_of_page a (w : world (kvm L P E)) :
  shim_page a → gpa_of a w = Return (Ok (a - SHIM_VIRT_OFFSET), w).
Proof.
  intros (_ & H1 & H2). unfold gpa_of, VirtAddr_new, virt_sub, SHIM_VIRT_OFFSET in *.
  rewrite (proj2 (Z.leb_le (2 ^ 64 - 2 ^ 47) a)), orb_true_r by lia.
  unfold mbind, handlerM_bind, fal_bind, must. rewrite (proj2 (Z.leb_le _ a)) by lia.
  unfold VirtAddr_new. by rewrite (proj2 (Z.ltb_lt (a - _) (2 ^ 47))) by lia.
Qed.

(** Whether the hypervisor may look at the 8 bytes at [8 * i]. *)
Definition valid (m : mem) (i : Z) : bool := Z.testbit (m (ghcb_at + off_valid_bitmap + i / 8)) (i mod 8).

(** A field of the save area before the bitmap. *)
Definition save_field (off : Z) : Prop := 0 ≤ off ∧ off mod 8 = 0 ∧ off + 8 ≤ off_valid_bitmap.

Lemma valid_byte m off i (b := ghcb_at + off_valid_bitmap + off / 8 / 8) :
  0 ≤ off → 0 ≤ i →
  valid (write_bytes m b [Z.lor (m b) (Z.shiftl 1 (Z.land (off / 8) 7))]) i = valid m i || (i =? off / 8).
Proof.
  intros Ho Hi0. unfold valid. change 7 with (Z.ones 3). rewrite Z.land_ones by lia.
  change (2 ^ 3) with 8.
  destruct (decide (i / 8 = off / 8 / 8)) as [E8|E8].
  - rewrite E8. fold b.
    rewrite (write_bytes_in m b _ b (Z.lor (m b) (Z.shiftl 1 ((off / 8) mod 8)))); [|lia|by rewrite Z.sub_diag].
    rewrite Z.lor_spec. f_equal. rewrite Z.shiftl_1_l, Z.pow2_bits_eqb by dlia.
    apply eq_true_iff_eq. rewrite !Z.eqb_eq. dlia.
  - rewrite write_bytes_outside by (unfold b; simpl; lia).
    rewrite (proj2 (Z.eqb_neq i _)), orb_false_r; [done|]. intros ->. done.
Qed.

(** A field that was set is valid and holds the value; the others are as before. *)
Lemma set_valid_spec off v (w : world (kvm L P E)) :
  save_field off → is_usize v →
  ∃ m, set_valid off v w = Return (Ok (), mkWorld (w_self w) m) ∧
    read_usize m (ghcb_at + off) = v ∧
    (∀ o, save_field o → o ≠ off → read_usize m (ghcb_at + o) = read_usize (w_mem w) (ghcb_at + o)) ∧
    (∀ i, 0 ≤ i → valid m i = valid (w_mem w) i || (i =? off / 8)) ∧
    same_outside ghcb_at (ghcb_at + 0x400) (w_mem w) m.
Proof.
  intros (Hpos & H8 & Hlt) Hv. offs. unfold set_valid, set_field, set_offset_valid, reads, writes.
  unfold mbind, handlerM_bind, fal_bind. cbn [w_mem w_self].
  unfold checked_sub. rewrite (proj2 (Z.leb_le _ _)) by lia. cbn [unwrap_option].
  replace (ghcb_at + off - ghcb_at) with off by lia. unfold mret, handlerM_ret, fal_ret.
  offs. rewrite (proj2 (Z.ltb_lt _ _)) by dlia. cbn [w_mem w_self].
  set (m1 := write_bytes (w_mem w) (ghcb_at + off) (to_le_bytes 8 v)).
  set (b := ghcb_at + 0x3F0 + off / 8 / 8).
  eexists. split; [reflexivity|]. split_and!.
  - rewrite (read_usize_ext m1); [by apply read_write_usize|].
    intros x Hx. apply write_bytes_outside. unfold b. simpl. dlia.
  - intros o (Ho0 & Ho8 & Hol) Hne. offs. apply read_usize_ext. intros x Hx.
    rewrite write_bytes_outside by (unfold b; simpl; dlia).
    apply write_bytes_outside. rewrite length_to_le_bytes. dlia.
  - intros i Hi0. pose proof (valid_byte m1 off i Hpos Hi0) as Hb. cbv zeta in Hb. offs. fold b in Hb.
    rewrite Hb. f_equal. unfold valid. offs. f_equal.
    apply write_bytes_outside. rewrite length_to_le_bytes. dlia.
  - etransitivity; [eapply same_outside_weaken; [| |apply write_bytes_frame]|
                    eapply same_outside_weaken; [| |apply write_bytes_frame]];
      rewrite ?length_to_le_bytes; unfold b; simpl length; dlia.
Qed.

Lemma invalidate_spec (w : world (kvm L P E)) :
  ∃ m, invalidate w = Return (Ok (), mkWorld (w_self w) m) ∧
    (∀ i, 0 ≤ i < 128 → valid m i = false) ∧
    same_outside ghcb_at (ghcb_at + 0x400) (w_mem w) m.
Proof.
  unfold invalidate, set_field, writes, mbind, handlerM_bind, fal_bind. cbn [w_mem w_self]. offs.
  eexists. split; [reflexivity|]. split.
  - intros i Hi0. unfold valid. offs.
    rewrite (write_bytes_in _ _ _ _ 0); [by rewrite Z.testbit_0_l|dlia|].
    change (repeat 0 16) with (replicate 16 0). apply lookup_replicate_2. dlia.
  - etransitivity; [eapply same_outside_weaken; [| |apply write_bytes_frame]|
                    eapply same_outside_weaken; [| |apply write_bytes_frame]];
      rewrite ?length_to_le_bytes, ?repeat_length; lia.
Qed.

(** The page as the hypervisor gets it: the exit, the fields set before it, and
    no others marked as valid. *)
Record handed_over (m0 m : mem) (before : list Z) (code info1 info2 : Z) : Prop := {
  ho_code : read_usize m (ghcb_at + off_sw_exit_code) = code;
  ho_info1 : read_usize m (ghcb_at + off_sw_exit_info1) = info1;
  ho_info2 : read_usize m (ghcb_at + off_sw_exit_info2) = info2;
  ho_fields : ∀ o, save_field o → o ∉ [off_sw_exit_code; off_sw_exit_info1; off_sw_exit_info2] →
    read_usize m (ghcb_at + o) = read_usize m0 (ghcb_at + o);
  ho_valid : ∀ i, 0 ≤ i < 128 → valid m i = bool_decide
    (i ∈ before ++ [off_sw_exit_code / 8; off_sw_exit_info1 / 8; off_sw_exit_info2 / 8]);
  ho_version : read_u16 m (ghcb_at + off_protocol_version) = 2;
  ho_frame : same_outside ghcb_at (ghcb_at + 4096) m0 m;
}.

Lemma valid_snoc before i k : bool_decide (i ∈ before) || (i =? k) = bool_decide (i ∈ before ++ [k]).
Proof.
  apply eq_true_iff_eq. rewrite orb_true_iff, !bool_decide_eq_true, Z.eqb_eq, elem_of_app, list_elem_of_singleton.
  done.
Qed.

Lemma vmgexit_spec code info1 info2 before (w : world (kvm L P E)) :
  is_usize code → is_usize info1 → is_usize info2 →
  (∀ i, 0 ≤ i < 128 → valid (w_mem w) i = bool_decide (i ∈ before)) →
  ∃ m, handed_over (w_mem w) m before code info1 info2 ∧
    vmgexit code info1 info2 w =
      (let '(_, e, m') := vmmcall (ghcb_at - SHIM_VIRT_OFFSET) (kv_env (w_self w)) m in
       Return (Ok (exit_result m'), mkWorld (set_env e (w_self w)) m')).
Proof.
  intros Hc H1 H2 Hv.
  destruct (set_valid_spec off_sw_exit_code code w) as (m1 & E1 & R1 & F1 & V1 & S1); [by repeat split; offs; lia|done|].
  destruct (set_valid_spec off_sw_exit_info1 info1 (mkWorld (w_self w) m1)) as (m2 & E2 & R2 & F2 & V2 & S2);
    [by repeat split; offs; lia|done|].
  destruct (set_valid_spec off_sw_exit_info2 info2 (mkWorld (w_self w) m2)) as (m3 & E3 & R3 & F3 & V3 & S3);
    [by repeat split; offs; lia|done|].
  cbn [w_mem w_self] in *.
  set (m4 := write_bytes m3 (ghcb_at + off_ghcb_usage) (to_le_bytes 4 0)).
  set (m5 := write_bytes m4 (ghcb_at + off_protocol_version) (to_le_bytes 2 2)).
  assert (S5 : same_outside (ghcb_at + 0xFFA) (ghcb_at + 4096) m3 m5).
  { etransitivity; [eapply same_outside_weaken; [| |apply write_bytes_frame]|
                    eapply same_outside_weaken; [| |apply write_bytes_frame]];
      rewrite ?length_to_le_bytes; offs; lia. }
  assert (R5 : ∀ o, save_field o → read_usize m5 (ghcb_at + o) = read_usize m3 (ghcb_at + o)).
  { intros o (? & ? & ?). offs. apply read_usize_ext. intros x Hx. apply S5. lia. }
  exists m5. split.
  - split.
    + rewrite R5, F3, F2 by (done || by repeat split; offs; lia). done.
    + rewrite R5, F3 by (done || by repeat split; offs; lia). done.
    + rewrite R5 by (by repeat split; offs; lia). done.
    + intros o Ho Hn. rewrite !not_elem_of_cons in Hn. destruct Hn as (N1 & N2 & N3 & _).
      by rewrite R5, F3, F2, F1.
    + intros i Hi0.
      assert (valid m5 i = valid m3 i) as ->
        by (unfold valid; f_equal; apply S5; offs; dlia).
      rewrite V3, V2, V1, Hv by lia. rewrite !valid_snoc, <- !app_assoc. done.
    + unfold read_u16, m5. by rewrite read_write_same by (by rewrite length_to_le_bytes).
    + etransitivity; [eapply same_outside_weaken; [| |exact S1]|]; [lia..|].
      etransitivity; [eapply same_outside_weaken; [| |exact S2]|]; [lia..|].
      etransitivity; [eapply same_outside_weaken; [| |exact S3]|]; [lia..|].
      eapply same_outside_weaken; [| |exact S5]; lia.
  - unfold vmgexit. rewrite (fal_bind_ok _ _ _ _ _ E1), (fal_bind_ok _ _ _ _ _ E2), (fal_bind_ok _ _ _ _ _ E3).
    unfold writes at 1 2. unfold mbind, handlerM_bind, fal_bind. cbn [w_mem w_self]. fold m4. fold m5.
    rewrite gpa_of_page by apply (iw_ghcb Hi). unfold vmm_exit. cbn [w_mem w_self].
    destruct (vmmcall _ _ m5) as [[msr e] m']. done.
Qed.

(** A write to a port, as the hypervisor gets it.  When [do_io_out] leaves the
    machine, the GHCB page holds the exit code of port I/O, the port and the
    16-bit width, and the value in [rax]; exactly these four fields are marked as
    valid, so that nothing left in the page by an earlier exit is taken for an
    argument; no other page was written, and the GHCB register holds the guest
    physical address of the page.  The call goes on unless the hypervisor reports
    an error, which ends the machine. *)
Theorem io_out_exact port value (w : world (kvm L P E)) :
  0 ≤ port < 2 ^ 16 → 0 ≤ value < 2 ^ 16 →
  ∃ m,
    read_usize m (ghcb_at + 0x390) = SVM_EXIT_IOIO_PROT ∧
    read_usize m (ghcb_at + 0x398) = port * 2 ^ 16 + 32 ∧
    read_usize m (ghcb_at + 0x3A0) = 0 ∧
    read_usize m (ghcb_at + 0x1F8) = value ∧
    (∀ i, 0 ≤ i < 128 →
       valid m i = true ↔ 8 * i = 0x1F8 ∨ 8 * i = 0x390 ∨ 8 * i = 0x398 ∨ 8 * i = 0x3A0) ∧
    same_outside ghcb_at (ghcb_at + 4096) (w_mem w) m ∧
    do_io_out port value w =
      (let '(_, e, m') := vmmcall (ghcb_at - SHIM_VIRT_OFFSET) (kv_env (w_self w)) m in
       match exit_result m' with
       | inl _ => Return (Ok (), mkWorld (set_env e (w_self w)) m')
       | inr _ => Panicked
       end).
Proof.
  intros Hp Hv. destruct (invalidate_spec w) as (m1 & E1 & V1 & S1).
  destruct (set_valid_spec off_rax value (mkWorld (w_self w) m1)) as (m2 & E2 & R2 & _ & V2 & S2);
    [by repeat split; offs; lia|unfold is_usize, usize_MAX; lia|].
  cbn [w_mem w_self] in *.
  assert (Z.lor IOIO_DATA_16 (Z.shiftl port 16) = port * 2 ^ 16 + 32) as Einfo.
  { rewrite Z.shiftl_mul_pow2 by lia. rewrite Z.add_comm. symmetry. apply Z.add_nocarry_lor.
    apply Z.bits_inj'. intros n Hn. rewrite Z.land_spec, Z.bits_0.
    destruct (decide (n < 16)); [rewrite Z.mul_pow2_bits_low, andb_false_r by lia; done|].
    change IOIO_DATA_16 with (2 ^ 5). rewrite Z.pow2_bits_false by lia. done. }
  destruct (vmgexit_spec SVM_EXIT_IOIO_PROT (Z.lor IOIO_DATA_16 (Z.shiftl port 16)) 0 [off_rax / 8]
    (mkWorld (w_self w) m2)) as (m & Ho & Ex); [done|rewrite Einfo; unfold is_usize, usize_MAX; lia|done| |].
  { intros i Hi0. cbn [w_mem]. rewrite V2, V1 by lia. apply eq_true_iff_eq.
    rewrite bool_decide_eq_true, list_elem_of_singleton. apply Z.eqb_eq. }
  cbn [w_mem w_self] in *. destruct Ho as [G1 G2 G3 G4 G5 _ G6].
  exists m. split_and!; [done|by rewrite <- Einfo|done| | | |].
  - change (ghcb_at + 0x1F8) with (ghcb_at + off_rax).
    rewrite (G4 off_rax); [done|by repeat split; offs; lia|]. offs.
    rewrite !not_elem_of_cons. split_and!; [lia..|apply not_elem_of_nil].
  - intros i Hi0. rewrite G5 by done. offs. rewrite bool_decide_eq_true. cbn [app].
    rewrite !elem_of_cons, elem_of_nil. dlia.
  - etransitivity; [eapply same_outside_weaken; [| |exact S1]|]; [lia..|].
    etransitivity; [eapply same_outside_weaken; [| |exact S2]|exact G6]; lia.
  - unfold do_io_out. rewrite (fal_bind_ok _ _ _ _ _ E1), (fal_bind_ok _ _ _ _ _ E2).
    unfold mbind, handlerM_bind, fal_bind. rewrite Ex. destruct (vmmcall _ _ m) as [[msr e] m'].
    by destruct (exit_result m').
Qed.

End exits.

(** ** Messages *)

Section messages.
Context {L P E : Type} `{MachineLaws E, AeadLaws} (Hi : image_wf).
Let S_ := kvm L P E.

Definition seqno (m : mem) : Z := read_u32 m (secrets_at + off_msg_seqno_0).
Definition vmpck0 (m : mem) : list Z := read_bytes m (secrets_at + off_vmpck0) 32.

(** The nonce for the message with number [n], and the authenticated part of the
    header of a request. *)
Definition seqno_nonce (n : Z) : list Z := to_le_bytes 8 n ++ repeat 0 4.
Definition header_bytes (version : Z) (msg_type : SnpMsgType) (size : Z) : list Z :=
  [SnpAeadAes256Gcm] ++ [MSG_HDR_VER] ++ to_le_bytes 2 size_of_SnpGuestMsgHdr ++
  [SnpMsgType_u8 msg_type] ++ [version] ++ to_le_bytes 2 size ++ repeat 0 4 ++ [0] ++ repeat 0 35.

Lemma secrets_apart lo hi m m' :
  (ghcb_at ≤ lo ∧ hi ≤ ghcb_at + 4096 ∨ request_at ≤ lo ∧ hi ≤ request_at + 4096 ∨
   response_at ≤ lo ∧ hi ≤ response_at + 4096) →
  same_outside lo hi m m' → seqno m' = seqno m ∧ vmpck0 m' = vmpck0 m.
Proof.
  intros Hlo Hs. destruct (iw_pages Hi) as (_ & _ & _ & A1 & A2 & A3). unfold apart in *.
  split; [unfold seqno, read_u32; f_equal|unfold vmpck0]; apply read_bytes_ext; intros x Hx; apply Hs; offs; lia.
Qed.

(** Writing the header of a request. *)
Definition header_written (version : Z) (msg_type : SnpMsgType) (size : Z) (m : mem) : mem :=
  let r := request_at in
  let m := write_bytes m (r + off_algo) [SnpAeadAes256Gcm] in
  let m := write_bytes m (r + off_hdr_version) [MSG_HDR_VER] in
  let m := write_bytes m (r + off_hdr_sz) (to_le_bytes 2 size_of_SnpGuestMsgHdr) in
  let m := write_bytes m (r + off_msg_type) [SnpMsgType_u8 msg_type] in
  let m := write_bytes m (r + off_msg_version) [version] in
  let m := write_bytes m (r + off_msg_seqno) (to_le_bytes 8 (seqno m + 1)) in
  let m := write_bytes m (r + off_msg_vmpck) [0] in
  write_bytes m (r + off_msg_sz) (to_le_bytes 2 size).

Lemma header_written_frame version ty size m :
  same_outside request_at (request_at + 96) m (header_written version ty size m).
Proof.
  unfold header_written. cbv zeta.
  repeat (etransitivity; [|eapply same_outside_weaken; [| |apply write_bytes_frame]];
    [|rewrite ?length_to_le_bytes; offs; simpl length; lia..]).
  apply same_outside_refl.
Qed.

Ltac rw_field := repeat first
  [ rewrite read_write_same by (rewrite ?length_to_le_bytes; done)
  | rewrite read_write_disjoint by (rewrite ?length_to_le_bytes; simpl length; lia) ].

Lemma header_written_reads version ty size m :
  read_bytes m request_at 4096 = repeat 0 4096 →
  let m' := header_written version ty size m in
  nonce_at m' request_at = seqno_nonce (seqno m + 1) ∧
  associated_at m' request_at = header_bytes version ty size.
Proof.
  intros Hz m'. assert (Hzero : ∀ a n, request_at ≤ a → 0 ≤ n → a + n ≤ request_at + 4096 →
    read_bytes m a n = repeat 0 (Z.to_nat n)) by (intros; by eapply (read_bytes_filled m request_at 4096)).
  unfold m', nonce_at, associated_at, header_written. cbv zeta.
  match goal with |- context [seqno ?x] => assert (seqno x = seqno m) as -> end.
  { destruct (iw_pages Hi) as (_ & _ & _ & _ & A2 & _). unfold apart in *. unfold seqno, read_u32. offs.
    by rw_field. }
  offs. split.
  - unfold seqno_nonce. f_equal. by rw_field.
  - match goal with |- read_bytes ?M ?a _ = _ =>
      change (read_bytes M a 48) with (read_bytes M a (1 + (1 + (2 + (1 + (1 + (2 + (4 + (1 + 35)))))))))
    end.
    do 8 (rewrite read_bytes_app by lia).
    rewrite <- !Z.add_assoc. cbn [Z.add Pos.add Pos.succ].
    unfold header_bytes. offs.
    repeat f_equal; rw_field; try done; by apply Hzero; lia.
Qed.

Lemma enc_payload_spec version ty plaintext (w : world (kvm L P E)) :
  let size := Z.of_nat (length plaintext) in
  read_bytes (w_mem w) request_at 4096 = repeat 0 4096 → size ≤ SNP_GUEST_MSG_PAYLOAD_LEN →
  enc_payload version ty plaintext w =
    if seqno (w_mem w) + 1 <=? 2 ^ 32 - 1 then
      let m := header_written version ty size (w_mem w) in
      match encrypt (vmpck0 (w_mem w)) (seqno_nonce (seqno (w_mem w) + 1))
              (header_bytes version ty size) plaintext with
      | None => Return (Err 0, mkWorld (w_self w) m)
      | Some (ciphertext, tag) =>
          Return (Ok (), mkWorld (w_self w)
            (write_bytes (write_bytes m (request_at + off_payload) ciphertext)
               (request_at + off_authtag) (take 16 tag)))
      end
    else Panicked.
Proof.
  intros size Hz Hsz. destruct (header_written_reads version ty size (w_mem w) Hz) as [Hn Ha].
  assert (vmpck0 (header_written version ty size (w_mem w)) = vmpck0 (w_mem w)) as Hk.
  { eapply secrets_apart; [|apply header_written_frame]. lia. }
  unfold header_written in *. cbv zeta in Hn, Ha, Hk.
  match type of Hn with context [seqno ?x] => assert (seqno x = seqno (w_mem w)) as Hs end.
  { destruct (iw_pages Hi) as (_ & _ & _ & _ & A2 & _). unfold apart in *. unfold seqno, read_u32. offs.
    by rw_field. }
  unfold enc_payload, get_msg_seqno_0, get_vmpck0, writes, reads.
  unfold mbind, handlerM_bind, fal_bind. cbn [w_mem w_self]. unfold checked_add_u32.
  match goal with |- context [read_u32 ?x (secrets_at + off_msg_seqno_0)] => change (read_u32 x (secrets_at + off_msg_seqno_0)) with (seqno x) end.
  rewrite Hs in *. destruct (seqno (w_mem w) + 1 <=? 2 ^ 32 - 1); [|done].
  cbn [unwrap_option mret handlerM_ret fal_ret]. unfold mret, handlerM_ret, fal_ret. cbn [w_mem w_self].
  unfold size in *. rewrite Hn, Ha. unfold vmpck0 in Hk. rewrite Hk. fold (vmpck0 (w_mem w)).
  destruct (encrypt _ _ _ _) as [[c t]|]; [|done]. rewrite (proj2 (Z.leb_le _ _)) by done. done.
Qed.

(** ** The counter of messages *)

Definition same_secrets (m m' : mem) : Prop := read_bytes m' secrets_at 4096 = read_bytes m secrets_at 4096.
Definition secrets_wf (m : mem) : Prop := bytes_wf (read_bytes m (secrets_at + off_msg_seqno_0) 4).

#[local] Instance same_secrets_preorder : PreOrder same_secrets.
Proof. split; [by intros m|]. intros m1 m2 m3 Q1 Q2. unfold same_secrets in *. congruence. Qed.

Lemma same_secrets_read m m' a n :
  same_secrets m m' → secrets_at ≤ a → a + n ≤ secrets_at + 4096 → read_bytes m' a n = read_bytes m a n.
Proof.
  intros Hs Ha Hn. apply read_bytes_ext. intros x Hx.
  assert (∀ m, read_bytes m secrets_at 4096 !! Z.to_nat (x - secrets_at) = Some (m x)) as Hl.
  { intros m0. rewrite lookup_read_bytes by lia. do 2 f_equal. lia. }
  pose proof (Hl m) as E1. rewrite <- Hs, Hl in E1. by injection E1.
Qed.

Lemma same_secrets_counter m m' :
  same_secrets m m' → seqno m' = seqno m ∧ vmpck0 m' = vmpck0 m ∧ (secrets_wf m → secrets_wf m').
Proof.
  intros Hs. unfold seqno, vmpck0, secrets_wf, read_u32.
  rewrite !(same_secrets_read m m' _ _ Hs) by (offs; lia). auto.
Qed.

Lemma same_secrets_frame lo hi m m' :
  (ghcb_at ≤ lo ∧ hi ≤ ghcb_at + 4096 ∨ request_at ≤ lo ∧ hi ≤ request_at + 4096 ∨
   response_at ≤ lo ∧ hi ≤ response_at + 4096) →
  same_outside lo hi m m' → same_secrets m m'.
Proof.
  intros Hlo Hs. destruct (iw_pages Hi) as (_ & _ & _ & A1 & A2 & A3). unfold apart in *.
  apply read_bytes_ext. intros x Hx. apply Hs. lia.
Qed.

Lemma same_secrets_exit m m' : same_except hypervisor_pages m m' → same_secrets m m'.
Proof.
  intros Hs. destruct (iw_pages Hi) as (_ & _ & _ & A1 & A2 & A3). pose proof (iw_sallyport Hi) as A4.
  unfold apart in *. apply read_bytes_ext. intros x Hx. apply Hs.
  unfold hypervisor_pages, in_gref, g_bytes. repeat constructor; cbn; lia.
Qed.

Lemma page_gpa_usize a : shim_page a → is_usize (a - SHIM_VIRT_OFFSET) ∧ a - SHIM_VIRT_OFFSET < 2 ^ 52.
Proof. intros (_ & ? & ?). unfold is_usize, usize_MAX, SHIM_VIRT_OFFSET in *. lia. Qed.

(** The result of a request, from the memory after the exit. *)
Definition request_result (m : mem) : result unit :=
  match exit_result m with
  | inr _ => Err usize_MAX
  | inl _ =>
      let info2 := read_usize m (ghcb_at + off_sw_exit_info2) in
      if negb (info2 =? 0) then Err info2 else Ok ()
  end.

Lemma guest_req_spec req resp (w : world (kvm L P E)) :
  is_usize req → is_usize resp →
  ∃ m, same_outside ghcb_at (ghcb_at + 4096) (w_mem w) m ∧
    guest_req req resp w =
      (let '(_, e, m') := vmmcall (ghcb_at - SHIM_VIRT_OFFSET) (kv_env (w_self w)) m in
       Return (request_result m', mkWorld (set_env e (w_self w)) m')).
Proof.
  intros Hreq Hresp. destruct (invalidate_spec w) as (m1 & E1 & V1 & S1).
  destruct (vmgexit_spec Hi SVM_VMGEXIT_GUEST_REQUEST req resp [] (mkWorld (w_self w) m1))
    as (m2 & Ho & Ex); [done|done|done| |].
  { intros i Hi0. cbn [w_mem]. by rewrite V1. }
  exists m2. split.
  - etransitivity; [eapply same_outside_weaken; [| |exact S1]|exact (ho_frame _ _ _ _ _ _ Ho)]; lia.
  - unfold guest_req. rewrite (fal_bind_ok _ _ _ _ _ E1). cbn [w_mem w_self] in *.
    unfold mbind, handlerM_bind, fal_bind. rewrite Ex.
    destruct (vmmcall _ _ m2) as [[msr e] m3].
    unfold request_status, request_result, field, reads, mbind, handlerM_bind, fal_bind. cbn [w_mem].
    destruct (exit_result m3); [|done]. by destruct (negb _).
Qed.

Lemma guest_req_secrets req resp (w : world (kvm L P E)) r w' :
  is_usize req → is_usize resp → guest_req req resp w = Return (r, w') → same_secrets (w_mem w) (w_mem w').
Proof.
  intros Hreq Hresp Eg. destruct (guest_req_spec req resp w Hreq Hresp) as (m & Hs & Eq). rewrite Eq in Eg.
  destruct (vmmcall _ _ m) as [[msr e] m3] eqn:Ev. apply ml_exit in Ev as [Hx _]. injection Eg as _ <-.
  transitivity m; [eapply same_secrets_frame; [|exact Hs]; lia|]. by apply same_secrets_exit.
Qed.

(** A request that was answered uses up two numbers. *)
Definition counted (m m' : mem) : Prop :=
  seqno m' = seqno m + 2 ∧ vmpck0 m' = vmpck0 m ∧ secrets_wf m'.

Lemma seqno_range m : secrets_wf m → 0 ≤ seqno m < 2 ^ 32.
Proof.
  intros Hw. pose proof (from_le_bytes_range _ Hw) as Hr. rewrite length_read_bytes in Hr.
  change (256 ^ Z.of_nat (Z.to_nat 4)) with (2 ^ 32) in Hr. exact Hr.
Qed.

Lemma inc_msg_seqno_law (w : world (kvm L P E)) r w' :
  secrets_wf (w_mem w) → inc_msg_seqno_0 w = Return (r, w') → counted (w_mem w) (w_mem w').
Proof.
  intros Hw Ei. pose proof (seqno_range _ Hw) as Hr.
  unfold inc_msg_seqno_0, reads, writes, mbind, handlerM_bind, fal_bind in Ei.
  change (read_u32 (w_mem w) (secrets_at + off_msg_seqno_0)) with (seqno (w_mem w)) in Ei.
  unfold checked_add_u32 in Ei. destruct (_ <=? _) eqn:El; [|done]. bool_to_prop.
  unfold unwrap_option, mret, handlerM_ret, fal_ret in Ei.
  assert (w' = mkWorld (w_self w) (write_bytes (w_mem w) (secrets_at + off_msg_seqno_0)
    (to_le_bytes 4 (seqno (w_mem w) + 2)))) as -> by congruence.
  cbn [w_mem]. unfold counted, seqno at 1, vmpck0, secrets_wf, read_u32. offs.
  rewrite !read_write_same by done. rewrite read_write_disjoint by (rewrite ?length_to_le_bytes; lia).
  split_and!; [|done|apply to_le_bytes_wf]. rewrite from_to_le_bytes. apply Z.mod_small.
  change (256 ^ Z.of_nat 4) with (2 ^ 32). lia.
Qed.

Lemma page_at_page a (w : world (kvm L P E)) :
  shim_page a → page_at a w = Return (Ok (a - SHIM_VIRT_OFFSET), w).
Proof.
  intros Ha. unfold page_at, mbind, handlerM_bind, fal_bind. rewrite gpa_of_page by done.
  unfold must, PhysAddr_new. by rewrite (proj2 (Z.ltb_lt _ _) (proj2 (page_gpa_usize a Ha))).
Qed.

Lemma ext_guest_req_law (w : world (kvm L P E)) r w' :
  secrets_wf (w_mem w) → ext_guest_req w = Return (r, w') →
  match r with Ok _ => counted (w_mem w) (w_mem w') | Err _ => same_secrets (w_mem w) (w_mem w') end.
Proof.
  intros Hw Eq. unfold ext_guest_req, mbind, handlerM_bind, fal_bind in Eq.
  rewrite page_at_page in Eq by apply (iw_request Hi). unfold writes in Eq.
  rewrite page_at_page in Eq by apply (iw_response Hi).
  set (m1 := write_bytes (w_mem w) response_at (repeat 0 4096)) in Eq.
  assert (same_secrets (w_mem w) m1) as S1.
  { eapply same_secrets_frame; [|apply write_bytes_frame]. rewrite repeat_length. lia. }
  unfold catch, mbind, outcome_bind in Eq.
  destruct (guest_req _ _ _) as [[ret w2]| | |] eqn:Eg; [|discriminate Eq..].
  apply guest_req_secrets in Eg;
    [|apply page_gpa_usize, (iw_request Hi)|apply page_gpa_usize, (iw_response Hi)].
  cbn [w_mem] in Eg. assert (same_secrets (w_mem w) (w_mem w2)) as S2 by (by transitivity m1).
  destruct (same_secrets_counter _ _ S2) as (C1 & C2 & C3).
  destruct ret as [u|e]; cbn [is_ok] in Eq.
  - destruct (inc_msg_seqno_0 w2) as [[[u'|e] w3]| | |] eqn:Ei; [| |discriminate Eq..].
    + injection Eq as <- <-. destruct (inc_msg_seqno_law _ _ _ (C3 Hw) Ei) as (D1 & D2 & D3).
      unfold counted. split_and!; [lia|congruence|done].
    + exfalso. unfold inc_msg_seqno_0, reads, writes, mbind, handlerM_bind, fal_bind in Ei.
      destruct (checked_add_u32 _ _); discriminate Ei.
  - cbn in Eq. injection Eq as <- <-. done.
Qed.

Lemma unwrap_inv {A : Type} (f : handlerM (kvm L P E) A) w r w' :
  unwrap f w = Return (r, w') → ∃ a, r = Ok a ∧ f w = Return (Ok a, w').
Proof.
  unfold unwrap, catch, mbind, handlerM_bind, fal_bind, outcome_bind.
  destruct (f w) as [[[a|e] w1]| | |]; intros Eq; try discriminate Eq. injection Eq as <- <-. by exists a.
Qed.

(** The request page, cleared. *)
Definition cleared (w : world (kvm L P E)) : world (kvm L P E) :=
  mkWorld (w_self w) (write_bytes (w_mem w) request_at (repeat 0 4096)).

Lemma cleared_zero w : read_bytes (w_mem (cleared w)) request_at 4096 = repeat 0 4096.
Proof. apply read_write_same. by rewrite repeat_length. Qed.

Lemma cleared_secrets w : same_secrets (w_mem w) (w_mem (cleared w)).
Proof. eapply same_secrets_frame; [|apply write_bytes_frame]. rewrite repeat_length. lia. Qed.

(** Sealing a message writes the request page only. *)
Lemma enc_payload_secrets version ty plaintext (w : world (kvm L P E)) r w' :
  Z.of_nat (length plaintext) ≤ SNP_GUEST_MSG_PAYLOAD_LEN →
  enc_payload version ty plaintext (cleared w) = Return (r, w') → same_secrets (w_mem w) (w_mem w').
Proof.
  intros Hl Eq. rewrite enc_payload_spec in Eq; [|apply cleared_zero|done].
  destruct (_ <=? _); [|discriminate Eq]. cbv zeta in Eq.
  set (m := header_written _ _ _ _) in Eq.
  assert (same_secrets (w_mem w) m) as Hm.
  { etransitivity; [apply cleared_secrets|]. eapply same_secrets_frame; [|apply header_written_frame]. lia. }
  destruct (encrypt _ _ _ _) as [[c t]|] eqn:Ee; injection Eq as _ <-; [|done].
  destruct (al_length _ _ _ _ _ _ Ee) as [Hc Ht]. etransitivity; [exact Hm|]. cbn [w_mem].
  unfold SNP_GUEST_MSG_PAYLOAD_LEN in Hl.
  etransitivity; eapply same_secrets_frame; [|apply write_bytes_frame| |apply write_bytes_frame]; offs;
    rewrite ?length_take; lia.
Qed.

(** What is accepted was sealed by the firmware, as a message of the expected
    type; memory is only read. *)
Lemma dec_payload_law plaintext ty (w : world (kvm L P E)) r w' :
  dec_payload plaintext ty w = Return (r, w') →
  w' = w ∧ ∀ out, r = Ok out →
    let m := w_mem w in
    let size := read_u16 m (response_at + off_msg_sz) in
    response_ok m (Z.of_nat (length plaintext)) ty = true ∧
    ∃ p, decrypt (vmpck0 m) (nonce_at m response_at) (associated_at m response_at)
           (read_bytes m (response_at + off_payload) size) (read_bytes m (response_at + off_authtag) 16) = Some p ∧
         out = p ++ drop (Z.to_nat size) plaintext.
Proof.
  unfold dec_payload, get_vmpck0, reads, mbind, handlerM_bind, fal_bind. fold (vmpck0 (w_mem w)).
  destruct (response_ok _ _ _) eqn:Er; cbn [negb]; [|by intros [= <- <-]].
  destruct (_ <=? _); [|done].
  destruct (decrypt _ _ _ _ _) as [p|] eqn:Ed; [|done]. cbn [unwrap_option]. unfold mret, handlerM_ret, fal_ret.
  intros Eq. injection Eq as <- <-. split; [done|]. intros out [= <-]. split; [done|]. by exists p.
Qed.

Lemma exchange_law version ty plaintext ty' buffer (w : world (kvm L P E)) r w' :
  Z.of_nat (length plaintext) ≤ SNP_GUEST_MSG_PAYLOAD_LEN → secrets_wf (w_mem w) →
  exchange version ty plaintext ty' buffer w = Return (r, w') →
  counted (w_mem w) (w_mem w') ∧ ∃ out, r = Ok out ∧ dec_payload buffer ty' w' = Return (Ok out, w').
Proof.
  intros Hl Hw Eq. unfold exchange, writes, mbind, handlerM_bind, fal_bind in Eq. fold (cleared w) in Eq.
  destruct (unwrap (enc_payload _ _ _) _) as [[x w1]| | |] eqn:E1; [|discriminate Eq..].
  apply unwrap_inv in E1 as ([] & -> & E1).
  destruct (unwrap ext_guest_req w1) as [[x w2]| | |] eqn:E2; [|discriminate Eq..].
  apply unwrap_inv in E2 as ([] & -> & E2).
  apply unwrap_inv in Eq as (out & -> & E3). pose proof (proj1 (dec_payload_law _ _ _ _ _ E3)) as ->.
  split; [|by exists out]. apply enc_payload_secrets in E1; [|done].
  destruct (same_secrets_counter _ _ E1) as (C1 & C2 & C3).
  apply ext_guest_req_law in E2 as (D1 & D2 & D3); [|auto].
  unfold counted. split_and!; [lia|congruence|done].
Qed.

Lemma response_status_world {A : Type} status (x : A) (w : world (kvm L P E)) r w' :
  response_status status x w = Return (r, w') → w' = w.
Proof.
  unfold response_status. destruct (_ =? 0); [by intros [= _ <-]|]. by destruct (_ =? 0x16); [intros [= _ <-]|].
Qed.

(** A key or a report was asked for, and the call returned. *)
Inductive requested : world (kvm L P E) → world (kvm L P E) → Prop :=
| requested_key version guest_svn w r w' :
    get_key version guest_svn w = Return (r, w') → requested w w'
| requested_report version nonce response w r w' :
    length nonce = 64%nat → (4000 ≤ length response)%nat →
    get_report version nonce response w = Return (r, w') → requested w w'.

Lemma get_report_inv version nonce response (w : world (kvm L P E)) r w' :
  length nonce = 64%nat → (4000 ≤ length response)%nat → secrets_wf (w_mem w) →
  get_report version nonce response w = Return (r, w') →
  counted (w_mem w) (w_mem w') ∧ ∃ out, dec_payload response ReportRsp w' = Return (Ok out, w') ∧
    ∀ x, r = Ok x → x = (32, from_le_bytes (take 4 (drop 4 out)), out).
Proof.
  intros Hn Hresp Hw Eq. unfold get_report in Eq. rewrite Hn in Eq.
  rewrite (proj2 (Z.ltb_ge _ _)) in Eq by (unfold SNP_ATTESTATION_LEN_MAX, SNP_GUEST_MSG_PAYLOAD_LEN; lia).
  change (negb (Z.of_nat 64 =? 64)) with false in Eq. cbv match in Eq.
  unfold mbind at 1, handlerM_bind at 1, fal_bind at 1 in Eq.
  destruct (exchange _ _ _ _ _ w) as [[x w1]| | |] eqn:E1; [|discriminate Eq..].
  apply exchange_law in E1 as (Hc & out & -> & Ed); [|by rewrite Hn|done].
  unfold reads, mbind, handlerM_bind, fal_bind in Eq.
  assert (w' = w1 ∧ ∀ x, r = Ok x → x = (32, from_le_bytes (take 4 (drop 4 out)), out)) as [-> Hx].
  { destruct (_ <? _); [by injection Eq as <- <-|]. split; [by eapply response_status_world|].
    unfold response_status in Eq. destruct (_ =? 0); [by injection Eq as <- _; intros x [= <-]|].
    by destruct (_ =? 0x16); [injection Eq as <- _|]. }
  split; [done|]. by exists out.
Qed.

Lemma requested_counted w w' : secrets_wf (w_mem w) → requested w w' → counted (w_mem w) (w_mem w').
Proof.
  intros Hw Hr. destruct Hr as [version svn w r w' Eq|version nonce response w r w' Hn Hresp Eq].
  - unfold get_key in Eq. unfold mbind at 1, handlerM_bind at 1, fal_bind at 1 in Eq.
    destruct (exchange _ _ _ _ _ w) as [[x w1]| | |] eqn:E1; [|discriminate Eq..].
    apply exchange_law in E1 as (Hc & out & -> & _); [|done..].
    assert (w' = w1) as ->; [|done].
    destruct (negb _); [by injection Eq as _ <-|by eapply response_status_world].
  - by eapply get_report_inv.
Qed.

(** Anything the shim and its host do: requests, and what leaves the secrets as
    they are. *)
Definition snp_step (w w' : world (kvm L P E)) : Prop := requested w w' ∨ same_secrets (w_mem w) (w_mem w').

Lemma snp_steps_counter w w' :
  secrets_wf (w_mem w) → rtc snp_step w w' →
  seqno (w_mem w) ≤ seqno (w_mem w') ∧ vmpck0 (w_mem w') = vmpck0 (w_mem w) ∧ secrets_wf (w_mem w').
Proof.
  intros Hw Hs. induction Hs as [w|w w1 w2 [Hr|Hsame] _ IH]; [by split_and!| |].
  - destruct (requested_counted _ _ Hw Hr) as (C1 & C2 & C3). destruct (IH C3) as (D1 & D2 & D3).
    split_and!; [lia|congruence|done].
  - destruct (same_secrets_counter _ _ Hsame) as (C1 & C2 & C3). destruct (IH (C3 Hw)) as (D1 & D2 & D3).
    split_and!; [lia|congruence|done].
Qed.

Lemma seqno_nonce_inj a b : 0 ≤ a < 2 ^ 64 → 0 ≤ b < 2 ^ 64 → seqno_nonce a = seqno_nonce b → a = b.
Proof.
  intros Ha Hb Eq. unfold seqno_nonce in Eq. apply app_inj_1 in Eq as [Eq _]; [|done].
  apply (f_equal from_le_bytes) in Eq. rewrite !from_to_usize in Eq by (unfold is_usize, usize_MAX; lia). done.
Qed.

(** A request made in [w] seals its message under [nonce]: the result of the
    encryption is all there is in the payload. *)
Definition seals (w : world (kvm L P E)) (nonce : list Z) : Prop :=
  ∀ version ty plaintext, Z.of_nat (length plaintext) ≤ SNP_GUEST_MSG_PAYLOAD_LEN →
  ∃ m, enc_payload version ty plaintext (cleared w) =
    match encrypt (vmpck0 (w_mem w)) nonce (header_bytes version ty (Z.of_nat (length plaintext))) plaintext with
    | None => Return (Err 0, mkWorld (w_self w) m)
    | Some (ciphertext, tag) =>
        Return (Ok (), mkWorld (w_self w)
          (write_bytes (write_bytes m (request_at + off_payload) ciphertext)
             (request_at + off_authtag) (take 16 tag)))
    end.

Lemma seals_next w : seqno (w_mem w) + 1 < 2 ^ 32 → seals w (seqno_nonce (seqno (w_mem w) + 1)).
Proof.
  intros Hr version ty plaintext Hl. rewrite enc_payload_spec; [|apply cleared_zero|done].
  destruct (same_secrets_counter _ _ (cleared_secrets w)) as (C1 & C2 & _). rewrite C1, C2.
  rewrite (proj2 (Z.leb_le _ _)) by lia. cbv zeta. by eexists.
Qed.

(** C21: No nonce is used twice.  The firmware shares one key with the shim, and
    AES-GCM gives up confidentiality and authenticity when a nonce is repeated
    under a key.  Take any request for a key or a report that returned, anything
    that happened afterwards (further requests with whatever answers of the
    hypervisor, and anything that leaves the secrets page alone), and any later
    request: both seal their message under the same key, and the nonces differ. *)
Theorem nonces_never_repeat w w1 w2 :
  secrets_wf (w_mem w) → requested w w1 → rtc snp_step w1 w2 → seqno (w_mem w2) + 1 < 2 ^ 32 →
  vmpck0 (w_mem w2) = vmpck0 (w_mem w) ∧
  ∃ nonce1 nonce2, seals w nonce1 ∧ seals w2 nonce2 ∧ nonce1 ≠ nonce2.
Proof.
  intros Hw Hr Hs Hlt. destruct (requested_counted _ _ Hw Hr) as (C1 & C2 & C3).
  destruct (snp_steps_counter _ _ C3 Hs) as (D1 & D2 & D3). pose proof (seqno_range _ Hw). pose proof (seqno_range _ D3).
  split; [congruence|].
  exists (seqno_nonce (seqno (w_mem w) + 1)), (seqno_nonce (seqno (w_mem w2) + 1)).
  split_and!; [apply seals_next; lia..|]. intros Eq%seqno_nonce_inj; lia.
Qed.

(** C20: A report is what the firmware sealed.  Whenever [get_report] succeeds, the
    bytes it hands out are, up to the length of the message, the plaintext of a
    message that the cipher opened with the key shared with the firmware, whose
    authenticated header says that it is the answer to a request for a report;
    the hypervisor, which delivers the message and can write both pages, cannot
    have chosen them.  The rest of the buffer is as it was. *)
Theorem report_authentic version nonce response (w : world (kvm L P E)) skip size out w' :
  length nonce = 64%nat → (4000 ≤ length response)%nat → secrets_wf (w_mem w) →
  get_report version nonce response w = Return (Ok (skip, size, out), w') →
  skip = 32 ∧ size = from_le_bytes (take 4 (drop 4 out)) ∧
  ∃ number ad ciphertext tag plaintext,
    length number = 8%nat ∧ ad !! 4%nat = Some (SnpMsgType_u8 ReportRsp) ∧
    decrypt (vmpck0 (w_mem w)) (number ++ repeat 0 4) ad ciphertext tag = Some plaintext ∧
    out = plaintext ++ drop (length plaintext) response.
Proof.
  intros Hn Hresp Hw Eq. apply get_report_inv in Eq as ((_ & Hk & _) & out' & Ed & Hx); [|done..].
  specialize (Hx _ eq_refl). injection Hx as -> -> ->. split; [done|]. split; [done|].
  apply dec_payload_law in Ed as [_ Ed]. destruct (Ed _ eq_refl) as (Hok & p & Ep & ->). clear Ed.
  set (m := w_mem w') in *. set (n := read_u16 m (response_at + off_msg_sz)) in *.
  exists (read_bytes m (response_at + off_msg_seqno) 8), (associated_at m response_at),
    (read_bytes m (response_at + off_payload) n), (read_bytes m (response_at + off_authtag) 16), p.
  assert (length p = Z.to_nat n) as Hp by (by rewrite (al_open _ _ _ _ _ _ Ep), length_read_bytes).
  split_and!; [by rewrite length_read_bytes| |by rewrite <- Hk|by rewrite Hp].
  unfold response_ok in Hok. destruct (checked_add _ _); [|done]. bool_to_prop.
  unfold associated_at. rewrite lookup_read_bytes by lia. f_equal. offs.
  replace (response_at + 48 + Z.of_nat 4) with (response_at + 52) by lia. by symmetry.
Qed.

(** ** A replayed response

    [sub msg off n] is a part of a message. *)
Definition sub (msg : list Z) (off n : Z) : list Z := take (Z.to_nat n) (drop (Z.to_nat off) msg).

(** A response of the firmware with number [k], holding the plaintext [p]. *)
Record sealed_report (key msg : list Z) (k version size : Z) (p : list Z) : Prop := {
  sr_len : length msg = 4096%nat;
  sr_seqno : from_le_bytes (sub msg 32 8) = k;
  sr_algo : sub msg 48 1 = [SnpAeadAes256Gcm];
  sr_hdr_sz : from_le_bytes (sub msg 50 2) = 96;
  sr_type : sub msg 52 1 = [SnpMsgType_u8 ReportRsp];
  sr_version : sub msg 53 1 = [version];
  sr_size : from_le_bytes (sub msg 54 2) = size;
  sr_vmpck : sub msg 60 1 = [0];
  sr_fits : 32 ≤ size ≤ 4000;
  sr_open : decrypt key (sub msg 32 8 ++ repeat 0 4) (sub msg 48 48) (sub msg 96 size) (sub msg 0 16) = Some p;
  sr_status : from_le_bytes (take 4 p) = 0;
}.

(** The hypervisor reports success, puts the number before [k] in the request
    page, and the message in the response page. *)
Definition replay (k version : Z) (msg : list Z) (m : mem) : mem :=
  write_bytes
    (write_bytes (write_bytes m (ghcb_at + off_sw_exit_info1) (repeat 0 16))
       (request_at + off_msg_seqno) (to_le_bytes 8 (k - 1) ++ repeat 0 13 ++ [version]))
    response_at msg.

Definition replays (k version : Z) (msg : list Z) (e : E) : Prop :=
  ∀ m, ∃ msr e' m', vmmcall (ghcb_at - SHIM_VIRT_OFFSET) e m = (msr, e', m') ∧ m' ≡ replay k version msg m.

Lemma replay_response k version msg m m' o n :
  length msg = 4096%nat → same_outside secrets_at (secrets_at + 4096) (replay k version msg m) m' →
  0 ≤ o → 0 ≤ n → o + n ≤ 4096 → read_bytes m' (response_at + o) n = sub msg o n.
Proof.
  intros Hl Hs Ho Hn Hle. destruct (iw_pages Hi) as (_ & _ & _ & _ & _ & A3). unfold apart in *.
  rewrite (read_bytes_ext (replay k version msg m)) by (intros x Hx; apply Hs; lia).
  apply read_write_part; lia.
Qed.

Lemma replay_request k version msg m m' o n :
  length msg = 4096%nat → same_outside secrets_at (secrets_at + 4096) (replay k version msg m) m' →
  0 ≤ o → 0 ≤ n → o + n ≤ 22 →
  read_bytes m' (request_at + 32 + o) n = sub (to_le_bytes 8 (k - 1) ++ repeat 0 13 ++ [version]) o n.
Proof.
  intros Hl Hs Ho Hn Hle. destruct (iw_pages Hi) as (_ & _ & A1 & _ & A2 & A3). unfold apart in *.
  rewrite (read_bytes_ext (replay k version msg m)) by (intros x Hx; apply Hs; lia).
  unfold replay. offs. rewrite read_write_disjoint by lia.
  apply read_write_part; rewrite ?length_app, ?length_to_le_bytes, ?repeat_length; simpl length; lia.
Qed.

Lemma single_byte m a x : read_bytes m a 1 = [x] → m a = x.
Proof. change (read_bytes m a 1) with [m a]. congruence. Qed.

Lemma replay_opened k version msg size p m response (w : world (kvm L P E)) :
  1 ≤ k < 2 ^ 64 → (4000 ≤ length response)%nat →
  sealed_report (vmpck0 (w_mem w)) msg k version size p →
  same_outside secrets_at (secrets_at + 4096) (replay k version msg m) (w_mem w) →
  dec_payload response ReportRsp w = Return (Ok (p ++ drop (Z.to_nat size) response), w) ∧
  read_u16 (w_mem w) (response_at + off_msg_sz) = size.
Proof.
  intros Hk Hresp [Q1 Q2 Q3 Q4 Q5 Q6 Q7 Q8 Q9 Q10 _] Hs.
  pose proof (replay_response k version msg m (w_mem w)) as Hr.
  pose proof (replay_request k version msg m (w_mem w)) as Hq.
  assert (read_usize (w_mem w) (request_at + off_msg_seqno) = k - 1) as Eseq.
  { unfold read_usize. offs. replace (request_at + 32) with (request_at + 32 + 0) by lia.
    rewrite Hq by (done || lia). unfold sub. rewrite drop_0, take_app_length' by (by rewrite length_to_le_bytes).
    apply from_to_usize. unfold is_usize, usize_MAX. lia. }
  assert (w_mem w (request_at + off_msg_version) = version) as Ever.
  { apply single_byte. offs. replace (request_at + 53) with (request_at + 32 + 21) by lia.
    rewrite Hq by (done || lia). unfold sub. rewrite app_assoc, drop_app_length'; [done|].
    by rewrite length_app, length_to_le_bytes, repeat_length. }
  assert (read_u16 (w_mem w) (response_at + off_msg_sz) = size) as Esz.
  { unfold read_u16. offs. by rewrite Hr by (done || lia). }
  split; [|done]. unfold dec_payload.
  assert (response_ok (w_mem w) (Z.of_nat (length response)) ReportRsp = true) as Hok.
  { unfold response_ok. rewrite Eseq, Ever, Esz. unfold checked_add, usize_MAX.
    rewrite (proj2 (Z.leb_le _ _)) by lia. unfold read_usize, read_u16. offs.
    rewrite !Hr by (done || lia). rewrite Q2, Q4.
    rewrite (single_byte (w_mem w) (response_at + 52) 6), (single_byte (w_mem w) (response_at + 53) version),
      (single_byte (w_mem w) (response_at + 48) 1), (single_byte (w_mem w) (response_at + 60) 0)
      by (by rewrite Hr by (done || lia)).
    rewrite Z.sub_add, !Z.eqb_refl. cbn. apply Z.leb_le. lia. }
  unfold get_vmpck0, reads, mbind, handlerM_bind, fal_bind. rewrite Hok. cbn [negb]. fold (vmpck0 (w_mem w)).
  rewrite Esz. rewrite (proj2 (Z.leb_le _ _)) by (unfold SNP_GUEST_MSG_PAYLOAD_LEN; lia).
  unfold nonce_at, associated_at. offs. rewrite !Hr by (done || lia).
  rewrite Q10. done.
Qed.

(** The page [m] at the exit and the state after it, for a hypervisor that
    replays. *)
Lemma replay_exchanged k version msg (w : world (kvm L P E)) :
  length msg = 4096%nat → secrets_wf (w_mem w) → seqno (w_mem w) + 2 < 2 ^ 32 →
  replays k version msg (kv_env (w_self w)) →
  ∃ m w', ext_guest_req w = Return (Ok (), w') ∧ vmpck0 (w_mem w') = vmpck0 (w_mem w) ∧
    same_outside secrets_at (secrets_at + 4096) (replay k version msg m) (w_mem w').
Proof.
  intros Hl Hw Hlt Hv. set (w1 := mkWorld (w_self w) (write_bytes (w_mem w) response_at (repeat 0 4096))).
  assert (same_secrets (w_mem w) (w_mem w1)) as S1.
  { eapply same_secrets_frame; [|apply write_bytes_frame]. rewrite repeat_length. lia. }
  destruct (page_gpa_usize _ (iw_request Hi)) as [U1 _]. destruct (page_gpa_usize _ (iw_response Hi)) as [U2 _].
  destruct (guest_req_spec _ _ w1 U1 U2) as (m & Hm & Eg). cbn [w_self w1] in Eg.
  destruct (Hv m) as (msr & e & m2 & Ev & Em). rewrite Ev in Eg.
  destruct (iw_pages Hi) as (A1 & A2 & A3 & _). unfold apart in *.
  assert (read_bytes m2 (ghcb_at + off_sw_exit_info1) 16 = repeat 0 16) as Hz.
  { rewrite Em. unfold replay. offs.
    rewrite read_write_disjoint by lia.
    rewrite read_write_disjoint by (rewrite !length_app, length_to_le_bytes, repeat_length; simpl length; lia).
    by apply read_write_same. }
  assert (request_result m2 = Ok ()) as Er.
  { unfold request_result, exit_result, read_usize. offs.
    rewrite !(read_bytes_filled m2 _ _ _ _ _ Hz) by lia. done. }
  rewrite Er in Eg.
  assert (same_secrets (w_mem w) m2) as S2.
  { transitivity (w_mem w1); [done|]. transitivity m; [eapply same_secrets_frame; [|exact Hm]; lia|].
    eapply same_secrets_exit, ml_exit, Ev. }
  destruct (same_secrets_counter _ _ S2) as (C1 & C2 & C3).
  pose proof (inc_msg_seqno_law (mkWorld (set_env e (w_self w)) m2)) as Hinc.
  assert (∃ w', inc_msg_seqno_0 (mkWorld (set_env e (w_self w)) m2) = Return (Ok (), w') ∧
    same_outside secrets_at (secrets_at + 4096) m2 (w_mem w')) as (w' & Ei & Hs).
  { unfold inc_msg_seqno_0, reads, writes, mbind, handlerM_bind, fal_bind. cbn [w_mem w_self].
    change (read_u32 m2 (secrets_at + off_msg_seqno_0)) with (seqno m2). unfold checked_add_u32.
    rewrite C1, (proj2 (Z.leb_le _ _)) by lia. eexists. split; [reflexivity|]. cbn [w_mem].
    eapply same_outside_weaken; [| |apply write_bytes_frame]; offs; rewrite ?length_to_le_bytes; lia. }
  exists m, w'. split_and!; [| |intros x Hx; rewrite (Hs x Hx); apply Em].
  - unfold ext_guest_req, mbind, handlerM_bind, fal_bind.
    rewrite page_at_page by apply (iw_request Hi). unfold writes. fold w1.
    rewrite page_at_page by apply (iw_response Hi). unfold catch, mbind, outcome_bind. rewrite Eg. cbn [is_ok].
    by rewrite Ei.
  - destruct (Hinc _ _ (C3 Hw) Ei) as (_ & D2 & _). cbn [w_mem] in D2. congruence.
Qed.

(** An old report is accepted.  The number of a response is compared with the
    number in the request page, which the hypervisor can write as well.  Let
    [msg] be any response to a request for a report that the firmware ever sealed,
    with whatever number [k]: a hypervisor that stores it as the response, and
    [k - 1] in the request page, makes [get_report] succeed with the contents of
    that message, whatever the nonce the workload asks to be bound into the
    report and whatever the number of the present request. *)
Theorem stale_report_accepted version nonce response msg k size p c t (w : world (kvm L P E)) :
  length nonce = 64%nat → length response = 4000%nat → secrets_wf (w_mem w) →
  seqno (w_mem w) + 2 < 2 ^ 32 → 1 ≤ k < 2 ^ 64 →
  encrypt (vmpck0 (w_mem w)) (seqno_nonce (seqno (w_mem w) + 1)) (header_bytes version ReportReq 64) nonce =
    Some (c, t) →
  sealed_report (vmpck0 (w_mem w)) msg k version size p →
  replays k version msg (kv_env (w_self w)) →
  ∃ w', get_report version nonce response w =
    Return (Ok (32, from_le_bytes (take 4 (drop 4 p)), p ++ drop (Z.to_nat size) response), w').
Proof.
  intros Hn Hresp Hw Hlt Hk Henc Hmsg Hv.
  pose proof (enc_payload_spec version ReportReq nonce (cleared w) (cleared_zero w)) as E1. cbv zeta in E1.
  destruct (same_secrets_counter _ _ (cleared_secrets w)) as (C1 & C2 & _).
  rewrite Hn, C1, C2, (proj2 (Z.leb_le _ _)) in E1 by lia.
  change (Z.of_nat 64) with 64 in E1. rewrite Henc in E1. specialize (E1 ltac:(done)).
  match type of E1 with _ = Return (_, ?w) => set (w1 := w) in E1 end.
  assert (same_secrets (w_mem w) (w_mem w1)) as S1 by (eapply enc_payload_secrets; [|exact E1]; by rewrite Hn).
  destruct (same_secrets_counter _ _ S1) as (D1 & D2 & D3).
  destruct (replay_exchanged k version msg w1) as (m & w2 & E2 & K2 & S2);
    [apply Hmsg|auto|lia|exact Hv|].
  destruct (replay_opened k version msg size p m response w2) as [E3 Esz];
    [done|lia|by rewrite K2, D2|done|].
  assert (length p = Z.to_nat size) as Hp.
  { rewrite (al_open _ _ _ _ _ _ (sr_open _ _ _ _ _ _ Hmsg)). unfold sub.
    pose proof (sr_len _ _ _ _ _ _ Hmsg). pose proof (sr_fits _ _ _ _ _ _ Hmsg).
    rewrite length_take, length_drop. lia. }
  exists w2. unfold get_report. rewrite Hn, Hresp. cbn [negb].
  change (Z.of_nat 4000 <? SNP_ATTESTATION_LEN_MAX) with false. change (Z.of_nat 64 =? 64) with true. cbn [negb].
  unfold exchange, unwrap, catch, writes, reads, mbind, handlerM_bind, fal_bind, outcome_bind.
  fold (cleared w). rewrite E1. cbv beta iota delta [mret handlerM_ret fal_ret]. rewrite E2.
  cbv beta iota. rewrite E3. cbv beta iota. rewrite Esz.
  pose proof (sr_fits _ _ _ _ _ _ Hmsg) as Hf. rewrite (proj2 (Z.ltb_ge _ _)) by (unfold size_of_SnpReportResponseHeader; lia).
  unfold response_status. rewrite take_app_le, drop_app_le, take_app_le by (rewrite ?length_drop; lia).
  rewrite (sr_status _ _ _ _ _ _ Hmsg). done.
Qed.

End messages.

(** ** Witnesses *)

Definition sample_kvm (e : hypervisor) : kvm unit unit hypervisor :=
  mkKvm e [] (mkBlockGuard 0 None) (mkEnarxAllocator 0 0 0 tt) tt (mkLine 0 0) 0 ThreadLocalStorage_new (mkBases 0 0 0) None.
Definition sample_world (f : mem → mem) : world (kvm unit unit hypervisor) :=
  mkWorld (sample_kvm (mkHypervisor f [])) (λ _, 0).

(** A response with number [k]: status 0, 32 bytes of report. *)
Definition sample_payload : list Z := to_le_bytes 4 0 ++ to_le_bytes 4 32 ++ repeat 0 24 ++ repeat 0xab 32.
Definition sample_msg (k : Z) : list Z :=
  sample_tag (seqno_nonce k) ++ repeat 0 16 ++ to_le_bytes 8 k ++ repeat 0 8 ++ [1; 1; 96; 0; 6; 1; 64; 0] ++
  repeat 0 40 ++ sample_payload ++ repeat 0 3936.

Lemma sample_sealed : sealed_report (vmpck0 (λ _, 0)) (sample_msg 7) 7 1 64 sample_payload.
Proof. split; try (vm_compute; reflexivity). lia. Qed.

Lemma sample_replays : replays 7 1 (sample_msg 7) (mkHypervisor (replay 7 1 (sample_msg 7)) []).
Proof.
  intros m. eexists _, _, _. split; [reflexivity|]. apply confine_through.
  - unfold replay. offs. intros x Hx. unfold hypervisor_pages in Hx.
    repeat (apply Forall_cons in Hx as [? Hx]). unfold in_gref, g_bytes in *. cbn [g_ptr g_len g_elem] in *.
    rewrite !write_bytes_outside; [done|..];
      rewrite ?length_app, ?length_to_le_bytes, ?repeat_length; change (length (sample_msg 7)) with 4096%nat;
      simpl length; lia.
  - intros x. assert (Hw : ∀ m a bs, bytes_wf bs → m x = m x ∨ 0 ≤ m x < 256 →
      write_bytes m a bs x = m x ∨ 0 ≤ write_bytes m a bs x < 256).
    { intros m' a bs Hbs _. unfold write_bytes. destruct (_ <=? _); [|by left].
      destruct (bs !! _) as [v|] eqn:E; [|by left]. right. by apply (Forall_lookup_1 _ _ _ _ Hbs E). }
    assert (Hwf : ∀ bs, forallb (λ v, (0 <=? v) && (v <? 256)) bs = true → bytes_wf bs).
    { intros bs E. apply Forall_forall. intros v Hv. rewrite forallb_forall in E.
      specialize (E v (proj1 (list_elem_of_In _ _) Hv)). bool_to_prop. lia. }
    unfold replay.
    destruct (Hw (write_bytes (write_bytes m (ghcb_at + off_sw_exit_info1) (repeat 0 16))
       (request_at + off_msg_seqno) (to_le_bytes 8 (7 - 1) ++ repeat 0 13 ++ [1])) response_at (sample_msg 7))
      as [->|?]; [apply Hwf; vm_compute; reflexivity|by left| |by right].
    destruct (Hw (write_bytes m (ghcb_at + off_sw_exit_info1) (repeat 0 16))
       (request_at + off_msg_seqno) (to_le_bytes 8 (7 - 1) ++ repeat 0 13 ++ [1]))
      as [->|?]; [apply Hwf; vm_compute; reflexivity|by left| |by right].
    apply Hw; [apply Hwf; vm_compute; reflexivity|by left].
Qed.

Lemma sample_secrets_wf f : secrets_wf (w_mem (sample_world f)).
Proof. apply read_bytes_wf. intros x. cbn. lia. Qed.

Lemma io_out_exact_witness : ∃ m : mem,
  read_usize m (SHIM_VIRT_OFFSET + 0x1000 + 0x1F8) = 1 ∧
  read_usize m (SHIM_VIRT_OFFSET + 0x1000 + 0x398) = 0xFF * 2 ^ 16 + 32 ∧
  valid m 63 = true ∧ valid m 64 = false.
Proof.
  destruct (io_out_exact sample_image_wf 0xFF 1 (sample_world id) ltac:(lia) ltac:(lia))
    as (m & _ & H2 & _ & H4 & H5 & _).
  exists m. split_and!; [exact H4|exact H2|apply H5; lia|].
  apply not_true_iff_false. rewrite H5 by lia. lia.
Defined.

Lemma nonces_never_repeat_witness :
  ∃ (w1 : world (kvm unit unit hypervisor)) nonce1 nonce2, seals (sample_world (replay 7 1 (sample_msg 7))) nonce1 ∧ seals w1 nonce2 ∧ nonce1 ≠ nonce2.
Proof.
  set (w := sample_world (replay 7 1 (sample_msg 7))).
  pose proof (sample_secrets_wf _ : secrets_wf (w_mem w)) as Hw.
  assert (Hret : match get_report 1 (repeat 9 64) (repeat 0 4000) w with Return _ => True | _ => False end)
    by (vm_compute; exact I).
  destruct (get_report _ _ _ w) as [[r w1]| | |] eqn:E; try contradiction Hret.
  assert (Hr : requested w w1) by (eapply requested_report; [| |exact E]; rewrite repeat_length; lia).
  pose proof (requested_counted sample_image_wf _ _ Hw Hr) as (Hs & _).
  destruct (nonces_never_repeat sample_image_wf w w1 w1 Hw Hr (rtc_refl _ _)) as (_ & n1 & n2 & H1 & H2 & H3).
  { rewrite Hs. vm_compute. reflexivity. }
  exact (ex_intro _ w1 (ex_intro _ n1 (ex_intro _ n2 (conj H1 (conj H2 H3))))).
Defined.

Lemma report_authentic_witness :
  ∃ number ad ciphertext plaintext, length number = 8%nat ∧
    decrypt (repeat 0 32) (number ++ repeat 0 4) ad ciphertext (sample_tag (number ++ repeat 0 4)) = Some plaintext.
Proof.
  set (w := sample_world (replay 7 1 (sample_msg 7))).
  assert (Hret : match get_report 1 (repeat 9 64) (repeat 0 4000) w with Return (Ok _, _) => True | _ => False end)
    by (vm_compute; exact I).
  destruct (get_report _ _ _ w) as [[[[[skip size] out]|e] w1]| | |] eqn:E; try contradiction Hret.
  destruct (report_authentic sample_image_wf 1 (repeat 9 64) (repeat 0 4000) w skip size out w1)
    as (_ & _ & n & ad & c & t & p & H1 & _ & H2 & _);
    [by rewrite repeat_length|by rewrite repeat_length|apply sample_secrets_wf|exact E|].
  clear E Hret. exists n, ad, c, p. split; [exact H1|]. clearbody w. cbn in H2 |- *. case_bool_decide; [|discriminate H2].
  case_bool_decide; [exact H2|contradiction].
Defined.

Lemma stale_report_accepted_witness : ∃ w',
  get_report 1 (repeat 9 64) (repeat 0 4000) (sample_world (replay 7 1 (sample_msg 7))) =
    Return (Ok (32, from_le_bytes (take 4 (drop 4 sample_payload)),
                sample_payload ++ drop (Z.to_nat 64) (repeat 0 4000)), w').
Proof.
  apply (stale_report_accepted sample_image_wf 1 (repeat 9 64) (repeat 0 4000) (sample_msg 7) 7 64 sample_payload
    (repeat 9 64) (sample_tag (seqno_nonce 1)) (sample_world (replay 7 1 (sample_msg 7)))).
  - by rewrite repeat_length.
  - by rewrite repeat_length.
  - apply sample_secrets_wf.
  - vm_compute. reflexivity.
  - lia.
  - reflexivity.
  - exact sample_sealed.
  - exact sample_replays.
Defined.
