(* ===== verification/KvmHostcall.v ===== *)
(** * The KVM shim: calls to the host

    The first part of [crates/shim-kvm/src/hostcall.rs]: the blocks of the
    sallyport and who holds them, the [Handler] whose [sally] leaves the machine,
    and the calls the shim makes on its own behalf.

    A [HostCall] holds a block until it is dropped ([with_host_call]).  The thread
    local storage of the shim's own calls is never used by them and is left out. *)

From S2P Require Import Prelude Memory Libc PhaseAlloc StagedValues Items Calls CallLaws StageKit.
From S2P Require Import SockTypes Syscalls Stubs SyscallLaws NumberCalls Platform Handler HandlerCalls.
From S2P Require Import KvmMachine Ghcb.

Definition BLOCK_SIZE : Z := 69632.
Definition NUM_BLOCKS : Z := 2.
Definition BLOCK_SIZE_USIZE : Z := BLOCK_SIZE / 8.
Definition SNP_VCEK_BUF_SIZE : Z := 4096.

(** [block_mut.chunks_mut(n)], for a slice of words. *)
Fixpoint chunks_mut (fuel : nat) (n ptr words : Z) : list block :=
  match fuel with
  | O => []
  | S fuel =>
      if words <=? 0 then []
      else mkBlock ptr (Z.min n words) :: chunks_mut fuel n (ptr + 8 * n) (words - n)
  end.

(** [HOST_CALL_ALLOC], after the pages were shared: each store is given a chunk. *)
Definition HostCallAllocator_new `{Image} : list (option block) :=
  zip_with (λ _ chunk, Some chunk) (repeat (None : option block) (Z.to_nat NUM_BLOCKS))
    (chunks_mut (Z.to_nat NUM_BLOCKS) BLOCK_SIZE_USIZE sallyport_at (BLOCK_SIZE_USIZE * NUM_BLOCKS)).

(** [try_alloc]: the first block that is there is taken. *)
Definition try_alloc (blocks : list (option block)) : option (BlockGuard * list (option block)) :=
  match list_find is_Some blocks with
  | Some (i, x) => Some (mkBlockGuard (Z.of_nat i) x, <[i := None]> blocks)
  | None => None
  end.

(** [Drop for BlockGuard] *)
Definition drop_guard (g : BlockGuard) (blocks : list (option block)) : outcome (list (option block)) :=
  if block_index g <? Z.of_nat (length blocks) then Return (<[Z.to_nat (block_index g) := guard_block g]> blocks)
  else Panicked.

Section hostcall.
Context {L P E : Type} `{Machine E, Image}.
Let S_ := kvm L P E.

(** [HostCall::try_new(tls)], the use of the call, and its drop; the caller
    handles the lack of a block. *)
Definition with_host_call {A : Type} (none f : handlerM S_ A) : handlerM S_ A := λ w,
  let s := w_self w in
  match try_alloc (kv_blocks s) with
  | None => none w
  | Some (guard, blocks) =>
      '(r, w) ← f (mkWorld (set_blocks blocks guard s) (w_mem w));
      blocks ← drop_guard (kv_guard (w_self w)) (kv_blocks (w_self w));
      Return (r, mkWorld (set_blocks blocks (kv_guard s) (w_self w)) (w_mem w))
  end.

Definition guard_ref (s : S_) : block := default (mkBlock 0 0) (guard_block (kv_guard s)).

(** [impl Handler for HostCall]: what gives access to the block and to the host. *)
#[global] Instance kvm_handler : Handler (kvm L P E) := {|
  sally w :=
    let index := block_index (kv_guard (w_self w)) in
    if negb snp_active then
      let '(e, m) := out16 KVM_SYSCALL_TRIGGER_PORT index (kv_env (w_self w)) (w_mem w) in
      Return (Ok (), mkWorld (set_env e (w_self w)) m)
    else do_io_out KVM_SYSCALL_TRIGGER_PORT index w;
  handler_block := guard_ref;
  handler_block_mut := guard_ref;
|}.

(** The loop of [shim_write_all], through its first [fuel] iterations. *)
Fixpoint write_loop (fuel : nat) (fd : Z) (bytes : gref) (to_write : Z) : handlerM S_ unit :=
  match fuel with
  | O => λ _, Diverged
  | S fuel =>
      next ← try (ok_or (checked_sub (g_len bytes) to_write) EFAULT);
      written ← handler.write fd (mkGref (g_ptr bytes + next) (g_len bytes - next) 1);
      to_write ← try (ok_or (checked_sub to_write written) EIO);
      if to_write =? 0 then mret () else write_loop fuel fd bytes to_write
  end.

Definition shim_write_all (fuel : nat) (fd : Z) (bytes : gref) : handlerM S_ unit :=
  with_host_call (try (Err EAGAIN)) (write_loop fuel fd bytes (g_len bytes)).

(** [shim_exit]: the machine is shut down if the host lets the call return. *)
Definition shim_exit (status : Z) : handlerM S_ unit :=
  _ ← with_host_call (mret (Ok ())) (catch (handler.exit_group status));
  panic.

(** [SNP_VCEK], forced: the certificate is fetched once. *)
Definition SNP_VCEK_init : handlerM S_ (list Z) :=
  with_host_call (try (Err EAGAIN))
    (vcek_len ← handler.get_snp_vcek (mkGref vcek_buffer_at SNP_VCEK_BUF_SIZE 1);
     if vcek_len =? 0 then try (Err EIO)
     else if vcek_len <=? SNP_VCEK_BUF_SIZE then reads (λ m, read_bytes m vcek_buffer_at vcek_len)
     else panic).

Definition SNP_VCEK : handlerM S_ (list Z) :=
  cached ← asks kv_vcek;
  match cached with
  | Some r => try r
  | None => r ← catch SNP_VCEK_init; _ ← modify (set_vcek (Some r)); try r
  end.

End hostcall.
