(* ===== verification/KvmAlloc.v ===== *)
(** * The KVM shim: its memory

    [crates/shim-kvm/src/allocator.rs]: memory is requested from the host in
    growing pieces, validated, and handed out by the heap of the crate
    [linked_list_allocator] ([HeapOps]); it is mapped for the workload in the page
    tables of the crate [x86_64] ([Mapper]).  Both are parameters.

    Loops that depend on the host have fuel; running out of it is [Diverged]. *)

From S2P Require Import Prelude Memory Libc PhaseAlloc StagedValues Items Calls CallLaws StageKit.
From S2P Require Import SockTypes Syscalls Stubs SyscallLaws NumberCalls Platform Handler HandlerCalls.
From S2P Require Import KvmMachine Ghcb KvmHostcall.

(** [linked_list_allocator::Heap] *)
Class HeapOps (L : Type) := {
  Heap_empty : L;
  Heap_size : L → Z;
  Heap_free : L → Z;
  Heap_init : Z → Z → L → L;
  Heap_extend : Z → L → L;
  allocate_first_fit : Layout → L → option Z * L;
  Heap_deallocate : Z → Layout → L → L;
}.

(** [PageTableFlags] *)
Definition PRESENT : Z := 1.
Definition WRITABLE : Z := 2.
Definition USER_ACCESSIBLE : Z := 4.
Definition HUGE_PAGE : Z := Z.shiftl 1 7.
Definition NO_EXECUTE : Z := Z.shiftl 1 63.

Inductive MapToError : Type := FrameAllocationFailed | ParentEntryHugePage_ | PageAlreadyMapped_ (frame : Z).

(** [MappedPageTable]: pages and frames are their start addresses.  Mapping a page
    may ask for frames, with the allocator as a callback. *)
Class Mapper (P : Type) := {
  map_to_with_table_flags : ∀ S : Type, (S → outcome (option Z * S)) →
    Z → Z → Z → Z → P → S → outcome ((unit + MapToError) * P * S);
  unmap : Z → P → option Z * P;
  update_flags : Z → Z → P → bool * P;
  translate_addr : P → Z → option Z;
}.

Inductive AllocateError : Type :=
| NotAligned | OutOfMemory | ZeroSize | PageAlreadyMapped | ParentEntryHugePage.

(** [msb]: the loop runs at most once per bit. *)
Fixpoint msb_loop (fuel : nat) (val r : Z) : Z :=
  match fuel with
  | O => r
  | S fuel => let val := Z.shiftr val 1 in if val =? 0 then r else msb_loop fuel val (r + 1)
  end.
Definition msb (val : Z) : Z := msb_loop 64 val 0.

(** Pages from [start] to the one holding [start + size - 1], inclusive. *)
Definition page_range (start end_ : Z) : list Z :=
  (λ i, align_down start Size4KiB + Size4KiB * i) <$>
    seqZ 0 (align_down end_ Size4KiB / Size4KiB - align_down start Size4KiB / Size4KiB + 1).

(** [goblin]'s [Header] and [ProgramHeader] in memory *)
Definition PT_LOAD : Z := 1.
Definition PF_X : Z := 1.
Definition PF_W : Z := 2.
Definition ELFMAG : list Z := [0x7f; 0x45; 0x4c; 0x46].
Record ProgramHeader : Type := mkProgramHeader {
  p_type : Z; p_flags : Z; p_vaddr : Z; p_paddr : Z; p_memsz : Z;
}.
Definition program_header_at (m : mem) (a : Z) : ProgramHeader :=
  mkProgramHeader (read_u32 m a) (read_u32 m (a + 4)) (read_usize m (a + 16)) (read_usize m (a + 24))
    (read_usize m (a + 40)).
Definition program_headers (m : mem) (header : Z) : outcome (list ProgramHeader) :=
  if bool_decide (read_bytes m header 4 = ELFMAG) then
    let e_phoff := read_usize m (header + 32) in
    let e_phnum := read_u16 m (header + 56) in
    Return ((λ i, program_header_at m (header + e_phoff + 56 * i)) <$> seqZ 0 e_phnum)
  else Panicked.

(** The line of the addresses of all loaded segments. *)
Fixpoint load_line (headers : list ProgramHeader) (l : Line) : outcome Line :=
  match headers with
  | [] => Return l
  | ph :: headers =>
      if p_type ph =? PT_LOAD then
        end_ ← add_usize (p_vaddr ph) (p_memsz ph);
        load_line headers (mkLine (Z.min (start l) (p_vaddr ph)) (Z.max (KvmMachine.end_ l) end_))
      else load_line headers l
  end.

Section allocator.
Context {L P E : Type} `{Machine E, Image, HeapOps L, Mapper P}.
Let S_ := kvm L P E.

Definition set_heap (h : L) (s : S_) : S_ :=
  let a := kv_alloc s in set_alloc (mkEnarxAllocator (last_alloc a) (max_alloc a) (end_of_mem a) h) s.

(** A method of the heap. *)
Definition on_heap {A : Type} (f : L → A * L) : handlerM S_ A := λ w,
  let '(x, h) := f (allocator (kv_alloc (w_self w))) in
  Return (Ok x, mkWorld (set_heap h (w_self w)) (w_mem w)).

(** ** [EnarxAllocator::new] *)

Definition MIN_EXP : Z := 24.

(** The exponents: memory is doubled from [2 ^ MIN_EXP] up to [2 ^ max_exp]. *)
Definition max_exp (meminfo : Z) : outcome Z :=
  target_exp ← (if 0 <? get_cbit_mask then
                  if 1 <=? msb get_cbit_mask then Return (Z.min 47 (msb get_cbit_mask - 1)) else Panicked
                else Return 47);
  if target_exp <? MIN_EXP then Panicked
  else if meminfo <? target_exp - MIN_EXP then Panicked
  else
    let log_rest := msb (meminfo - (target_exp - MIN_EXP)) in
    Return (target_exp - Z.min log_rest (target_exp - MIN_EXP)).

Definition code_size (m : mem) : outcome Z :=
  headers ← program_headers m exec_start_at;
  l ← load_line headers (mkLine usize_MAX 0);
  let count := as_usize (end_ l - start l) in
  if exec_start_at <=? exec_end_at then
    if count <? exec_end_at - exec_start_at then align_up count Size4KiB else Panicked
  else Panicked.

Definition EnarxAllocator_new : handlerM S_ (EnarxAllocator L) :=
  meminfo ← unwrap (with_host_call panic handler.mem_info);
  exp ← must (max_exp meminfo);
  mem_start ← unwrap_option (ShimPhysAddr_try_from mem_start_at);
  mem_start ← must (PhysAddr_new mem_start);
  size ← reads code_size;
  size ← must size;
  before ← unwrap_option (checked_sub exec_start_at mem_start_at);
  mem_size ← must (sum ← add_usize before size; align_up sum Size4KiB);
  end_of_mem ← must (PhysAddr_new (mem_start + mem_size));
  next ← asks kv_next_mmap;
  next ← must (sum ← virt_add next size; align_up sum Size4KiB);
  _ ← modify (set_next_mmap (VirtAddr_new_truncate next));
  mret (mkEnarxAllocator (2 ^ MIN_EXP / 2) (2 ^ exp) end_of_mem Heap_empty).

(** ** Ballooning *)

(** [for addr in (start..end).step_by(4096) { pvalidate(addr).unwrap() }] *)
Fixpoint validate_pages (n : nat) (addr : Z) : handlerM S_ unit :=
  match n with
  | O => mret ()
  | S n =>
      va ← must (VirtAddr_new addr);
      _ ← pvalidate_unwrap va Size4K true;
      validate_pages n (addr + Size4KiB)
  end.

(** The host gave memory at [end_of_mem]. *)
Definition ballooned (new_size : Z) : handlerM S_ unit :=
  a ← asks kv_alloc;
  free_start ← must (ShimVirtAddr_from (ShimPhysAddr_from (end_of_mem a)));
  new_end ← must (PhysAddr_new (end_of_mem a + new_size));
  _ ← modify (λ s, let a := kv_alloc s in
        set_alloc (mkEnarxAllocator (last_alloc a) (max_alloc a) new_end (allocator a)) s);
  _ ← (if snp_active then
         _ ← must (add_usize free_start new_size);
         validate_pages (Z.to_nat ((new_size + Size4KiB - 1) / Size4KiB)) free_start
       else mret ());
  _ ← on_heap (λ h, ((), if 0 <? Heap_size h then Heap_extend new_size h else Heap_init free_start new_size h));
  modify (λ s, let a := kv_alloc s in
    set_alloc (mkEnarxAllocator new_size (max_alloc a) (end_of_mem a) (allocator a)) s).

(** The size of the next request. *)
Definition request_size (a : EnarxAllocator L) (last_size : Z) : Z :=
  Z.min (default last_size (checked_mul 2 last_size)) (max_alloc a).

Fixpoint balloon_loop (fuel : nat) (last_size : Z) : handlerM S_ bool :=
  match fuel with
  | O => λ _, Diverged
  | S fuel =>
      a ← asks kv_alloc;
      let new_size := request_size a last_size in
      ret ← with_host_call panic
        (catch (handler.balloon_memory 12 (new_size / Size4KiB) (end_of_mem a)));
      match ret with
      | Ok _ => _ ← ballooned new_size; mret true
      | Err _ =>
          let last_size := last_size / 2 in
          if last_size <? Size4KiB then mret false else balloon_loop fuel last_size
      end
  end.

(** The size is halved each time: 64 iterations are enough. *)
Definition balloon : handlerM S_ bool :=
  a ← asks kv_alloc; balloon_loop 64 (last_alloc a).

(** ** Pages of the heap *)

Definition alloc_pages (size : Z) : handlerM S_ (option Z) :=
  if isize_MAX - (Size4KiB - 1) <? size then panic
  else on_heap (allocate_first_fit (mkLayout size Size4KiB)).

Definition dealloc_pages (ptr size : Z) : handlerM S_ unit :=
  on_heap (λ h, ((), Heap_deallocate ptr (mkLayout size Size4KiB) h)).

(** A chunk of [size], or of half of it, and so on; it is zeroed. *)
Fixpoint alloc_half_loop (fuel : nat) (size : Z) : handlerM S_ (option Z * Z) :=
  match fuel with
  | O => λ _, Diverged
  | S fuel =>
      p ← alloc_pages size;
      match p with
      | Some p => _ ← writes p (repeat 0 (Z.to_nat size)); mret (Some p, size)
      | None => if size =? Size4KiB then mret (None, size) else alloc_half_loop fuel (size / 2)
      end
  end.

Definition try_alloc_half (size : Z) : handlerM S_ (option Z * Z) :=
  if size <? Size4KiB then panic else alloc_half_loop 64 size.

Definition try_alloc_layout (layout : Layout) : handlerM S_ (option Z) :=
  b ← on_heap (allocate_first_fit layout);
  match b with
  | Some p => mret (Some p)
  | None =>
      more ← balloon;
      if (more : bool) then on_heap (allocate_first_fit layout) else mret None
  end.

Definition deallocate (ptr : Z) (layout : Layout) : handlerM S_ unit :=
  if ptr =? 0 then panic else on_heap (λ h, ((), Heap_deallocate ptr layout h)).

Definition free : handlerM S_ Z := asks (λ s, Heap_free (allocator (kv_alloc s))).

(** [FrameAllocator::allocate_frame] for a size of frames *)
Definition allocate_frame (size : Z) : handlerM S_ (option Z) :=
  a ← try_alloc_layout (mkLayout size size);
  match a with
  | None => mret None
  | Some p => phys ← must (shim_virt_to_enc_phys p); mret (Some (align_down phys size))
  end.

(** [GlobalAlloc] *)
Definition alloc (layout : Layout) : handlerM S_ Z := p ← try_alloc_layout layout; mret (default 0 p).
Definition dealloc (ptr : Z) (layout : Layout) : handlerM S_ unit := deallocate ptr layout.

(** ** Mapping *)

Definition map_page (page frame flags parent_flags : Z) : handlerM S_ (unit + AllocateError) := λ w,
  let frames (w : world S_) : outcome (option Z * world S_) :=
    '(r, w) ← allocate_frame Size4KiB w;
    match r with Ok o => Return (o, w) | Err _ => Panicked end in
  '(r, pt, w) ← map_to_with_table_flags (world S_) frames page frame flags parent_flags (kv_pt (w_self w)) w;
  Return (Ok (match r with
              | inl _ => inl ()
              | inr FrameAllocationFailed => inr OutOfMemory
              | inr ParentEntryHugePage_ => inr ParentEntryHugePage
              | inr (PageAlreadyMapped_ _) => inr PageAlreadyMapped
              end), mkWorld (set_pt pt (w_self w)) (w_mem w)).

Fixpoint map_pages (pairs : list (Z * Z)) (flags parent_flags : Z) : handlerM S_ (unit + AllocateError) :=
  match pairs with
  | [] => mret (inl ())
  | (frame_from, page_to) :: pairs =>
      r ← map_page page_to frame_from flags parent_flags;
      match r with inl _ => map_pages pairs flags parent_flags | inr e => mret (inr e) end
  end.

Definition map_memory (map_from map_to size flags parent_flags : Z) : handlerM S_ (unit + AllocateError) :=
  if size =? 0 then mret (inr ZeroSize)
  else
    frame_end ← must (e ← PhysAddr_new (as_u64 (map_from + size)); PhysAddr_new (e - 1));
    page_end ← must (e ← virt_add map_to size; virt_sub e 1);
    map_pages (zip (page_range map_from frame_end) (page_range map_to page_end)) flags parent_flags.

Fixpoint unmap_pages (pages : list Z) : handlerM S_ bool :=
  match pages with
  | [] => mret true
  | page :: pages => λ w,
      let '(frame, pt) := unmap page (kv_pt (w_self w)) in
      (match frame with
       | None => mret false
       | Some phys =>
           shim_virt ← must (ShimVirtAddr_from (ShimPhysAddr_from phys));
           _ ← dealloc_pages shim_virt Size4KiB;
           unmap_pages pages
       end) (mkWorld (set_pt pt (w_self w)) (w_mem w))
  end.

(** [unmap_memory]: whether every page was mapped. *)
Definition unmap_memory (virt_addr size : Z) : handlerM S_ bool :=
  if size =? 0 then mret true
  else
    page_end ← must (e ← virt_add virt_addr size; virt_sub e 1);
    unmap_pages (page_range virt_addr page_end).

(** [while self.allocator.free() < curr_size { self.balloon(); }] *)
Fixpoint balloon_while (fuel : nat) (curr_size : Z) : handlerM S_ unit :=
  match fuel with
  | O => λ _, Diverged
  | S fuel =>
      available ← free;
      if available <? curr_size then _ ← balloon; balloon_while fuel curr_size else mret ()
  end.

(** [allocate_and_map_memory]; the slice it returns is the one asked for. *)
Fixpoint allocate_and_map_memory (fuel : nat) (map_to size flags parent_flags : Z)
    : handlerM S_ (Z * Z + AllocateError) :=
  match fuel with
  | O => λ _, Diverged
  | S fuel =>
      if size =? 0 then mret (inr ZeroSize)
      else if negb (map_to mod Size4KiB =? 0) then mret (inr NotAligned)
      else if negb (size =? align_down size Size4KiB) then mret (inr NotAligned)
      else
        let curr_size := 2 ^ msb size in
        _ ← balloon_while fuel curr_size;
        chunk ← try_alloc_half curr_size;
        chunk ← (match chunk with
                 | (None, _) => _ ← balloon; try_alloc_half curr_size
                 | _ => mret chunk
                 end);
        match chunk with
        | (None, _) => mret (inr OutOfMemory)
        | (Some first_half, first_half_size) =>
            second_half_size ← unwrap_option (checked_sub size first_half_size);
            rest ← (if 0 <? second_half_size then
                      second_half ← must (virt_add map_to first_half_size);
                      allocate_and_map_memory fuel second_half second_half_size flags parent_flags
                    else mret (inl (map_to, 0)));
            match rest with
            | inr e => _ ← dealloc_pages first_half first_half_size; mret (inr e)
            | inl _ =>
                phys ← must (shim_virt_to_enc_phys first_half);
                mapped ← map_memory phys map_to first_half_size flags parent_flags;
                match mapped with
                | inr e =>
                    _ ← dealloc_pages first_half first_half_size;
                    second_half ← must (virt_add map_to first_half_size);
                    _ ← unmap_memory second_half second_half_size;
                    mret (inr e)
                | inl _ => mret (inl (map_to, size))
                end
            end
        end
  end.

End allocator.
