(* ===== verification/KvmShim.v ===== *)
(** * The KVM shim: serving the workload

    The rest of [crates/shim-kvm/src/hostcall.rs] (the memory calls, keys and
    attestation), [syscall.rs], [exec.rs] without the initial stack of the workload,
    and [shim_stack.rs]. *)

From S2P Require Import Prelude Memory Libc PhaseAlloc StagedValues Items Calls CallLaws StageKit.
From S2P Require Import SockTypes Syscalls Stubs SyscallLaws NumberCalls Platform Handler HandlerCalls Dispatch.
From S2P Require Import SnpReport KvmMachine Ghcb KvmHostcall KvmAlloc.

Definition ARCH_SET_GS : Z := 0x1001.
Definition ARCH_SET_FS : Z := 0x1002.
Definition ARCH_GET_FS : Z := 0x1003.
Definition ARCH_GET_GS : Z := 0x1004.

(** [sallyport::item::enarxcall::sev::TECH] *)
Definition TECH : Z := 1.

Definition USER_FLAGS : Z := Z.lor PRESENT (Z.lor USER_ACCESSIBLE WRITABLE).

(** The flags of the entry for a protection. *)
Definition prot_flags (prot : Z) : Z :=
  let flags := Z.lor PRESENT USER_ACCESSIBLE in
  let flags := if negb (Z.land prot PROT_WRITE =? 0) then Z.lor flags WRITABLE else flags in
  if Z.land prot PROT_EXEC =? 0 then Z.lor flags NO_EXECUTE else flags.

Section shim.
Context {L P E : Type} `{Machine E, Image, HeapOps L, Mapper P, Aead}.
(** Fuel for the loops that wait for the host to give memory. *)
Context (fuel : nat).
Let S_ := kvm L P E.

(** [NonNull::new(addr).unwrap()] *)
Definition non_null (addr : Z) : handlerM S_ Z := if addr =? 0 then panic else mret addr.

(** [.map_err(|_| ENOMEM)?] *)
Definition or_enomem {A : Type} (r : A + AllocateError) : handlerM S_ A :=
  match r with inl x => mret x | inr _ => try (Err ENOMEM) end.

Definition set_base (f : Bases → Bases) : handlerM S_ unit := modify (λ s, set_bases (f (kv_bases s)) s).

Definition shim_arch_prctl (code addr : Z) : handlerM S_ unit :=
  if code =? ARCH_SET_FS then
    a ← must (VirtAddr_new addr);
    set_base (λ b, mkBases a (gs_base b) (kernel_gs_base b))
  else if code =? ARCH_GET_FS then
    place ← try (validate_mut ty_u64 addr);
    base ← asks (λ s, fs_base (kv_bases s));
    writes (g_ptr place) (to_le_bytes 8 base)
  else if code =? ARCH_SET_GS then
    a ← must (VirtAddr_new addr);
    set_base (λ b, mkBases (fs_base b) a (kernel_gs_base b))
  else if code =? ARCH_GET_GS then
    place ← try (validate_mut ty_u64 addr);
    base ← asks (λ s, gs_base (kv_bases s));
    writes (g_ptr place) (to_le_bytes 8 base)
  else try (Err EINVAL).

Definition shim_brk (addr : option Z) : handlerM S_ Z :=
  brk_line ← asks kv_brk;
  let brk_end := end_ brk_line in
  let set_end (a : Z) := v ← must (VirtAddr_new a); modify (set_brk (mkLine (start brk_line) v)) in
  match addr with
  | None => non_null brk_end
  | Some addr =>
      if addr <? start brk_line then try (Err EINVAL)
      else
        last_page ← unwrap_option (checked_sub brk_end Size4KiB);
        if addr <? last_page then
          aligned ← must (align_up addr Size4KiB);
          len ← must (virt_sub brk_end aligned);
          from ← must (VirtAddr_new aligned);
          ok ← unmap_memory from len;
          if negb ok then panic else _ ← set_end aligned; non_null addr
        else if addr <? brk_end then non_null addr
        else
          aligned ← must (align_up addr Size4KiB);
          len ← unwrap_option (checked_sub aligned brk_end);
          r ← allocate_and_map_memory fuel brk_end len USER_FLAGS USER_FLAGS;
          _ ← or_enomem r;
          _ ← set_end aligned;
          non_null addr
  end.

Definition shim_mmap (addr : option Z) (length prot flags fd offset : Z) : handlerM S_ Z :=
  match addr with
  | None =>
      if (flags =? Z.lor MAP_PRIVATE MAP_ANONYMOUS) && (fd =? -1) && (offset =? 0) then
        virt_addr ← asks kv_next_mmap;
        len_aligned ← must (align_up length Size4KiB);
        r ← allocate_and_map_memory fuel virt_addr len_aligned (prot_flags prot) USER_FLAGS;
        slice ← or_enomem r;
        next ← must (virt_add virt_addr len_aligned);
        _ ← modify (set_next_mmap next);
        non_null (fst slice)
      else panic
  | Some _ => panic
  end.

(** [for page in page_range { update_flags(page, flags) }] *)
Fixpoint update_pages (pages : list Z) (flags : Z) : handlerM S_ unit :=
  match pages with
  | [] => mret ()
  | page :: pages => λ w,
      let '(ok, pt) := update_flags page flags (kv_pt (w_self w)) in
      (if (ok : bool) then update_pages pages flags else try (Err EINVAL))
        (mkWorld (set_pt pt (w_self w)) (w_mem w))
  end.

Definition shim_mprotect (addr len prot : Z) : handlerM S_ unit :=
  start_addr ← must (VirtAddr_new addr);
  end_addr ← must (e ← virt_add start_addr len; virt_sub e 1);
  update_pages (page_range start_addr end_addr) (prot_flags prot).

Definition shim_munmap (addr length : Z) : handlerM S_ unit :=
  slice ← try (validate_slice ty_u8 addr length);
  from ← must (VirtAddr_new (g_ptr slice));
  _ ← unmap_memory from length;
  mret ().

(** [impl Handler for HostCall] *)
#[global] Instance kvm_os : HandlerOS (kvm L P E) := {|
  os_handler := kvm_handler;
  thread_local_storage := kv_tls;
  set_thread_local_storage s t := set_tls t s;
  arch_prctl := shim_arch_prctl;
  brk := shim_brk;
  madvise _ _ _ := mret ();
  mmap := shim_mmap;
  mprotect := shim_mprotect;
  munmap := shim_munmap;
  rdrand s := rdrand64_step (kv_env s);
|}.

(** ** Keys and attestation *)

Definition hostcall_get_key (buf buf_len : Z) : handlerM S_ Z :=
  if negb snp_active then mret 0
  else if buf =? 0 then mret SNP_KEY_LEN
  else if isize_MAX <? buf_len then try (Err EINVAL)
  else if buf_len <? SNP_KEY_LEN then try (Err EMSGSIZE)
  else
    user_buf ← try (validate_slice_mut ty_u8 buf buf_len);
    u ← catch (get_key 1 0);
    match u with
    | Err _ => try (Err EIO)
    | Ok u => _ ← writes (g_ptr user_buf) u; mret SNP_KEY_LEN
    end.

(** The encoded evidence, written to the buffer of the workload. *)
Definition write_evidence (user_buf : gref) (report_data vcek : list Z) : handlerM S_ Z :=
  chunks ← reads (λ m, read_bytes m (g_ptr user_buf) (g_len user_buf));
  '(n, out) ← must (asn1_encode_report_vcek report_data vcek chunks);
  _ ← writes (g_ptr user_buf) out;
  try (ok_or n EIO).

Definition get_attestation (nonce nonce_len buf buf_len : Z) : handlerM S_ (Z * Z) :=
  if negb snp_active then mret (0, 0)
  else
    vcek ← SNP_VCEK;
    if buf =? 0 then
      l ← unwrap_option (checked_add SNP_ATTESTATION_LEN_MAX (len vcek));
      mret (l, TECH)
    else if isize_MAX <? buf_len then try (Err EINVAL)
    else if buf_len <? SNP_ATTESTATION_LEN_MAX then try (Err EMSGSIZE)
    else if negb (nonce_len =? 64) then try (Err EINVAL)
    else
      nonce ← try (validate_slice ty_u8 nonce nonce_len);
      user_buf ← try (validate_slice_mut ty_u8 buf buf_len);
      nonce ← reads (λ m, read_bytes m (g_ptr nonce) nonce_len);
      '(skip, report_len, report_buf) ← get_report 1 nonce (repeat 0 (Z.to_nat SNP_ATTESTATION_LEN_MAX));
      if skip + report_len <=? len report_buf then
        n ← write_evidence user_buf (take (Z.to_nat report_len) (drop (Z.to_nat skip) report_buf)) vcek;
        mret (n, TECH)
      else panic.

(** ** [syscall.rs] *)

(** [e.checked_neg().unwrap() as u64] *)
Definition neg_errno (e : Z) : outcome Z := if e =? - 2 ^ 31 then Panicked else Return (as_u64 (- e)).

(** [X8664DoubleReturn] for a result; [rdx] is preserved unless the call sets it. *)
Definition double_return (orig_rdx : Z) (ret : result (Z * Z)) : handlerM S_ (Z * Z) :=
  match ret with
  | Err e => rax ← must (neg_errno e); mret (rax, orig_rdx)
  | Ok r => mret r
  end.

Definition syscall_rust (a b c d e f nr : Z) : handlerM S_ (Z * Z) :=
  let orig_rdx := c in
  with_host_call panic
    (if as_i64 nr =? enarxcall.SYS_GETKEY then
       ret ← catch (rax ← hostcall_get_key a b; mret (rax, orig_rdx));
       double_return orig_rdx ret
     else if as_i64 nr =? enarxcall.SYS_GETATT then
       ret ← catch (get_attestation a b c d);
       double_return orig_rdx ret
     else
       ret ← catch (syscall nr a b c d e f : handlerM S_ (Z * Z));
       let ret := match ret with Ok (rax, _) => Ok (rax, orig_rdx) | Err e => Err e end in
       double_return orig_rdx ret).

(** The user's registers at a [syscall] instruction. *)
Record Regs : Type := mkRegs {
  rax : Z; rdi : Z; rsi : Z; rdx : Z; r10 : Z; r8 : Z; r9 : Z; rsp : Z; rcx : Z; r11 : Z;
}.

(** Fields of the task state segment, relative to [gs]. *)
Definition KERNEL_RSP_OFF : Z := 4.
Definition USR_RSP_OFF : Z := 4 + 3 * 8.

Definition swapgs : handlerM S_ unit :=
  set_base (λ b, mkBases (fs_base b) (kernel_gs_base b) (gs_base b)).
Definition gs_read (off : Z) : handlerM S_ Z := λ w,
  Return (Ok (read_usize (w_mem w) (gs_base (kv_bases (w_self w)) + off)), w).
Definition gs_write (off v : Z) : handlerM S_ unit := λ w,
  Return (Ok (), mkWorld (w_self w) (write_usize (w_mem w) (gs_base (kv_bases (w_self w)) + off) v)).

(** [_syscall_enter]; what is pushed on the stack of the shim is popped from it
    unchanged.  The value loaded into [rsp] for the call is returned with the
    registers of the workload. *)
Definition _syscall_enter (r : Regs) : handlerM S_ (Regs * Z) :=
  _ ← swapgs;
  _ ← gs_write USR_RSP_OFF (rsp r);
  kernel_rsp ← gs_read KERNEL_RSP_OFF;
  user_rsp ← gs_read USR_RSP_OFF;
  _ ← gs_write USR_RSP_OFF 0;
  '(new_rax, new_rdx) ← syscall_rust (rdi r) (rsi r) (rdx r) (r10 r) (r8 r) (r9 r) (rax r);
  _ ← gs_write USR_RSP_OFF user_rsp;
  new_rsp ← gs_read USR_RSP_OFF;
  _ ← swapgs;
  mret (mkRegs new_rax (rdi r) (rsi r) new_rdx (r10 r) (r8 r) (r9 r) new_rsp (rcx r) (r11 r), kernel_rsp).

(** ** [exec.rs] and [shim_stack.rs] *)

Definition EXEC_ELF_VIRT_ADDR_BASE : Z := 0x7f0000000000.
Definition EXEC_BRK_VIRT_ADDR_BASE : Z := 0x555500000000.
Definition EXEC_STACK_VIRT_ADDR_BASE : Z := 0x7ff000000000.
Definition EXEC_STACK_SIZE : Z := 2 * 2 ^ 20.

(** The lazily initialised statics. *)
Definition EXEC_VIRT_ADDR_init : handlerM S_ Z :=
  r ← random; must (virt_add EXEC_ELF_VIRT_ADDR_BASE (Z.land r 0x7FFFFFF000)).
Definition BRK_LINE_init : handlerM S_ Line :=
  r ← random;
  a ← must (virt_add EXEC_BRK_VIRT_ADDR_BASE (Z.land r 0xFFFFF000));
  mret (mkLine a a).

(** The flags for a segment. *)
Definition segment_flags (ph : ProgramHeader) : Z :=
  let flags := Z.lor PRESENT USER_ACCESSIBLE in
  let flags := if Z.land (p_flags ph) PF_X =? 0 then Z.lor flags NO_EXECUTE else flags in
  if negb (Z.land (p_flags ph) PF_W =? 0) then Z.lor flags WRITABLE else flags.

(** [.expect(..)] of a mapping *)
Definition expect {A : Type} (r : A + AllocateError) : handlerM S_ A :=
  match r with inl x => mret x | inr _ => panic end.

Fixpoint map_segments (headers : list ProgramHeader) (code_start_phys app_virt_start : Z) : handlerM S_ unit :=
  match headers with
  | [] => mret ()
  | ph :: headers =>
      _ ← (if (p_type ph =? PT_LOAD) && (0 <? p_memsz ph) then
             map_from ← must (a ← add_usize code_start_phys (p_paddr ph); PhysAddr_new a);
             map_to ← must (virt_add app_virt_start (p_vaddr ph));
             r ← map_memory map_from map_to (p_memsz ph) (segment_flags ph) USER_FLAGS;
             expect r
           else mret ());
      map_segments headers code_start_phys app_virt_start
  end.

Definition map_elf (app_virt_start : Z) : handlerM S_ unit :=
  headers ← reads (λ m, program_headers m exec_start_at);
  headers ← must headers;
  header_virt ← must (VirtAddr_new exec_start_at);
  phys ← asks (λ s, translate_addr (kv_pt s) header_virt);
  code_start_phys ← unwrap_option phys;
  map_segments headers code_start_phys app_virt_start.

Record GuardedStack : Type := mkGuardedStack { pointer : Z; slice : Z * Z }.

Definition init_stack_with_guard (start stack_size extra_flags : Z) : handlerM S_ GuardedStack :=
  below ← must (virt_sub start Size4KiB);
  r ← map_memory 0 below Size4KiB 0 (Z.lor PRESENT WRITABLE);
  _ ← expect r;
  let flags := Z.lor (Z.lor (Z.lor PRESENT WRITABLE) NO_EXECUTE) extra_flags in
  r ← allocate_and_map_memory fuel start stack_size flags flags;
  mem_slice ← expect r;
  above ← must (virt_add start stack_size);
  r ← map_memory 0 above Size4KiB 0 (Z.lor PRESENT WRITABLE);
  _ ← expect r;
  pointer ← must (VirtAddr_new (fst mem_slice + snd mem_slice));
  mret (mkGuardedStack pointer mem_slice).

End shim.
