(* ===== verification/KvmShimLaws.v ===== *)
(** * The KVM shim: what stays as it is

    A call to the host changes nothing of the shim but the machine.  All else the
    shim does, whatever the workload asks for and the host answers, gets new
    memory from the host in consecutive pieces and validates each of its pages
    once. *)

From stdpp Require Import relations.
From S2P Require Import Prelude Memory Libc PhaseAlloc StagedValues Items Calls CallLaws StageKit.
From S2P Require Import SockTypes Syscalls Stubs SyscallLaws NumberCalls Platform Handler HandlerCalls Dispatch.
From S2P Require Import Invariants SnpReport KvmMachine Ghcb KvmHostcall KvmAlloc KvmShim.

(** What the crate documents of [map_to_with_table_flags]: it asks the allocator
    for frames, and does nothing else to it. *)
Class MapperFrames (P : Type) `{Mapper P} :=
  mp_frames : ∀ (S : Type) (f : S → outcome (option Z * S)) (R : S → S → Prop) page frame flags pflags pt s r pt' s',
    PreOrder R → (∀ s o s', f s = Return (o, s') → R s s') →
    map_to_with_table_flags S f page frame flags pflags pt s = Return (r, pt', s') → R s s'.

(** [validated e]: the pages for which [PVALIDATE] was executed to validate them,
    in order. *)
Class ValidationLog (E : Type) `{Machine E} := {
  validated : E → list Z;
  vl_vmmcall : ∀ v e m v' e' m', vmmcall v e m = (v', e', m') → validated e' = validated e;
  vl_out16 : ∀ p v e m e' m', out16 p v e m = (e', m') → validated e' = validated e;
  vl_rdrand : ∀ e n v e', rdrand_next e = (n, v, e') → validated e' = validated e;
  vl_pvalidate : ∀ rax rcx edx e r c e', pvalidate_instr rax rcx edx e = (r, c, e') →
    validated e' = if edx =? 1 then validated e ++ [rax] else validated e;
}.

Section quiet.
Context {L P E : Type} `{ValidationLog E, Image}.
Let S_ := kvm L P E.

Definition quiet (s s' : kvm L P E) : Prop :=
  ∃ e, s' = set_env e s ∧ validated e = validated (kv_env s).

Lemma quiet_refl s : quiet s s.
Proof. exists (kv_env s). by destruct s. Qed.

Lemma quiet_trans s1 s2 s3 : quiet s1 s2 → quiet s2 s3 → quiet s1 s3.
Proof. intros (e1 & -> & V1) (e2 & -> & V2). exists e2. split; [done|]. cbn in V2. congruence. Qed.

#[local] Instance quiet_preorder : PreOrder quiet.
Proof. split; [exact quiet_refl|exact quiet_trans]. Qed.

Definition keeps {A : Type} (f : handlerM (kvm L P E) A) : Prop :=
  ∀ w r w', f w = Return (r, w') → quiet (w_self w) (w_self w').

Lemma kept_bind {A B : Type} (f : handlerM (kvm L P E) A) (k : A → handlerM (kvm L P E) B) :
  keeps f → (∀ a, keeps (k a)) → keeps (f ≫= k).
Proof.
  intros Hf Hk w r w' Eq. unfold mbind, handlerM_bind, fal_bind in Eq.
  destruct (f w) as [[[a|e] w1]| | |] eqn:Ef; try discriminate Eq.
  - transitivity (w_self w1); [by eapply Hf|by eapply Hk].
  - injection Eq as <- <-. by eapply Hf.
Qed.

Lemma kept_same {A : Type} (f : handlerM (kvm L P E) A) :
  (∀ w r w', f w = Return (r, w') → w_self w' = w_self w) → keeps f.
Proof. intros Hf w r w' Eq. rewrite (Hf _ _ _ Eq). apply quiet_refl. Qed.

Lemma kept_writes a bs : keeps (writes a bs).
Proof. apply kept_same. by intros w r w' [= <- <-]. Qed.
Lemma kept_reads {A : Type} (f : mem → A) : keeps (reads f).
Proof. apply kept_same. by intros w r w' [= <- <-]. Qed.
Lemma kept_ret {A : Type} (x : A) : keeps (mret x).
Proof. apply kept_same. by intros w r w' [= <- <-]. Qed.
Lemma kept_must {A : Type} (o : outcome A) : keeps (must o).
Proof. apply kept_same. intros w r w' Eq. unfold must in Eq. destruct o; try discriminate Eq. by injection Eq as <- <-. Qed.
Lemma kept_panic {A : Type} : keeps (panic : handlerM (kvm L P E) A).
Proof. by intros w r w' Eq. Qed.
Lemma kept_unwrap_option {A : Type} (o : option A) : keeps (unwrap_option o).
Proof. destruct o; [apply kept_ret|apply kept_panic]. Qed.

Lemma kept_vmm_exit msr : keeps (vmm_exit msr).
Proof.
  intros w r w' Eq. unfold vmm_exit in Eq. destruct (vmmcall _ _ _) as [[v e] m] eqn:Ev. injection Eq as <- <-.
  exists e. split; [done|]. by eapply vl_vmmcall.
Qed.

(** An exit to the hypervisor. *)
Lemma kept_do_io_out port value : keeps (do_io_out port value).
Proof.
  unfold do_io_out, invalidate, vmgexit, set_valid, set_offset_valid, set_field, gpa_of.
  repeat first [apply kept_bind; intros | apply kept_writes | apply kept_reads | apply kept_must
    | apply kept_unwrap_option | apply kept_vmm_exit | apply kept_panic | apply kept_ret
    | match goal with |- keeps (if ?b then _ else _) => destruct b end
    | match goal with |- keeps (match ?b with _ => _ end) => destruct b end ].
Qed.

#[local] Instance quiet_carried : Carried (kvm L P E).
Proof.
  refine {| carried := quiet |}. intros w r w' Es. cbn in Es. destruct (negb snp_active).
  - destruct (out16 _ _ _ _) as [e m] eqn:Eo. injection Es as <- <-. exists e. split; [done|]. by eapply vl_out16.
  - by eapply kept_do_io_out.
Defined.

Lemma kept_execute {T : Type} `{Call T} (call : T) : keeps (execute call).
Proof. exact (carries_execute call). Qed.

Lemma kept_catch {A : Type} (f : handlerM (kvm L P E) A) : keeps f → keeps (catch f).
Proof.
  intros Hf w r w' Eq. unfold catch, mbind, outcome_bind in Eq.
  destruct (f w) as [[x w1]| | |] eqn:Ef; try discriminate Eq. injection Eq as <- <-. by eapply Hf.
Qed.

(** The block is given back where it was. *)
Lemma kept_with_host_call {A : Type} (none f : handlerM (kvm L P E) A) :
  keeps none → keeps f → keeps (with_host_call none f).
Proof.
  intros Hn Hf w r w' Eq. unfold with_host_call in Eq. destruct (try_alloc _) as [[g bs]|] eqn:Ea; [|by eapply Hn].
  unfold mbind, outcome_bind in Eq.
  destruct (f _) as [[x w1]| | |] eqn:Ef; try discriminate Eq. apply Hf in Ef as (e & Es & Ev).
  cbn in Es, Ev. rewrite Es in Eq. cbn in Eq.
  unfold try_alloc in Ea. destruct (list_find _ _) as [[i b]|] eqn:El; [|done]. injection Ea as <- <-.
  apply list_find_Some in El as (Hl & _ & _). apply lookup_lt_Some in Hl as Hlt.
  unfold drop_guard in Eq. cbn [block_index guard_block] in Eq.
  rewrite length_insert, (proj2 (Z.ltb_lt _ _)), Nat2Z.id, list_insert_insert_eq, list_insert_id in Eq by (done || lia).
  injection Eq as <- <-. cbn. exists e. by destruct (w_self w).
Qed.

Lemma kept_balloon_memory a b c : keeps (handler.balloon_memory a b c).
Proof.
  apply kept_bind; [match goal with |- keeps (execute ?c) => exact (kept_execute c) end|]. intros r. apply kept_same. by intros w x w' [= <- <-].
Qed.

End quiet.

(** ** Growing *)

(** Sizes are powers of two, at least a page; the shim has [2 ^ 39] bytes of
    addresses for its memory. *)
Record alloc_wf {L : Type} (a : EnarxAllocator L) : Prop := mkAllocWf {
  aw_last : ∃ k, 12 ≤ k ∧ last_alloc a = 2 ^ k;
  aw_max : ∃ k, 24 ≤ k ≤ 47 ∧ max_alloc a = 2 ^ k;
  aw_end : end_of_mem a mod Size4KiB = 0 ∧ 0 ≤ end_of_mem a < 2 ^ 39;
}.

(** The pages of [lo, hi). *)
Definition region_pages (lo hi : Z) : list Z := (λ i, lo + Size4KiB * i) <$> seqZ 0 ((hi - lo) / Size4KiB).

Lemma region_pages_app lo mid hi :
  lo ≤ mid ≤ hi → (mid - lo) mod Size4KiB = 0 →
  region_pages lo mid ++ region_pages mid hi = region_pages lo hi.
Proof.
  unfold region_pages, Size4KiB. intros Hle Hm.
  replace ((hi - lo) / 4096) with ((mid - lo) / 4096 + (hi - mid) / 4096) by dlia.
  rewrite seqZ_app by (apply Z.div_pos; lia). rewrite fmap_app. apply f_equal2; [done|].
  rewrite Z.add_0_l, <- (Z.add_0_r ((mid - lo) / 4096)), <- fmap_add_seqZ, <- list_fmap_compose. apply list_fmap_ext. intros i x _. simpl. dlia.
Qed.

Lemma region_pages_nil lo : region_pages lo lo = [].
Proof. unfold region_pages. by rewrite Z.sub_diag. Qed.

Lemma elem_of_region_pages lo hi p : (hi - lo) mod Size4KiB = 0 →
  p ∈ region_pages lo hi ↔ lo ≤ p < hi ∧ (p - lo) mod Size4KiB = 0.
Proof.
  unfold region_pages, Size4KiB. intros Hm. rewrite list_elem_of_fmap. setoid_rewrite elem_of_seqZ. split.
  - intros (i & -> & Hi). split; [dlia|]. replace (lo + 4096 * i - lo) with (i * 4096) by lia. by apply Z.mod_mul.
  - intros [Hp Hd]. exists ((p - lo) / 4096). dlia.
Qed.

Lemma pow2_page k : 12 ≤ k → 2 ^ k mod Size4KiB = 0 ∧ Size4KiB ≤ 2 ^ k.
Proof.
  intros Hk. replace k with (12 + (k - 12)) by lia. rewrite Z.pow_add_r by lia.
  change (2 ^ 12) with Size4KiB. pose proof (Z.pow_pos_nonneg 2 (k - 12)).
  split; [rewrite Z.mul_comm; apply Z.mod_mul; done|unfold Size4KiB; nia].
Qed.

Section grown.
Context {L P E : Type} `{ValidationLog E, Image, HeapOps L, MapperFrames P, Aead}.
(** SNP is active, and the C-bit lies above the memory of the shim. *)
Context (Hcbit : ∃ c, 39 ≤ c < 52 ∧ get_cbit_mask = 2 ^ c).
Let S_ := kvm L P E.

Lemma snp_is_active : snp_active = true.
Proof. destruct Hcbit as (c & Hc & Ec). unfold snp_active. rewrite Ec. apply Z.ltb_lt, Z.pow_pos_nonneg; lia. Qed.

(** Memory below the C-bit keeps its address. *)
Lemma shim_virt_of_end a v :
  0 ≤ a < 2 ^ 39 → ShimVirtAddr_from (ShimPhysAddr_from a) = Return v → v = SHIM_VIRT_OFFSET + a.
Proof.
  intros Ha. destruct Hcbit as (c & Hc & Ec). unfold ShimVirtAddr_from, ShimPhysAddr_from. rewrite Ec.
  assert (Z.land (Z.lor a (2 ^ c)) (Z.lxor usize_MAX (2 ^ c)) = a) as ->.
  { apply Z.bits_inj'. intros n Hn. rewrite Z.land_spec, Z.lor_spec, Z.lxor_spec, Z.pow2_bits_eqb by lia.
    change usize_MAX with (Z.ones 64). destruct (decide (n < 39)) as [Hlt|Hge].
    - rewrite (proj2 (Z.eqb_neq c n)), Z.ones_spec_low by lia. by destruct (Z.testbit a n).
    - rewrite (Z.bits_above_log2 a n); [|lia|]. 2:{ destruct (decide (a = 0)) as [->|]; [cbn; lia|].
        apply Z.log2_lt_pow2; [lia|].
        eapply Z.lt_le_trans; [apply Ha|]. apply Z.pow_le_mono_r; lia. }
      destruct (c =? n) eqn:En; cbn; [|done]. apply Z.eqb_eq in En as <-.
      by rewrite Z.ones_spec_low by lia. }
  intros E1%add_usize_Return. lia.
Qed.

Definition grown (s s' : kvm L P E) : Prop :=
  alloc_wf (kv_alloc s) →
  alloc_wf (kv_alloc s') ∧ end_of_mem (kv_alloc s) ≤ end_of_mem (kv_alloc s') ∧
  validated (kv_env s') = validated (kv_env s) ++
    region_pages (SHIM_VIRT_OFFSET + end_of_mem (kv_alloc s)) (SHIM_VIRT_OFFSET + end_of_mem (kv_alloc s')).

#[local] Instance grown_preorder : PreOrder grown.
Proof.
  split.
  - intros s Hw. by rewrite region_pages_nil, app_nil_r.
  - intros s1 s2 s3 G1 G2 W1. destruct (G1 W1) as (W2 & L2 & V2). destruct (G2 W2) as (W3 & L3 & V3).
    split; [done|]. split; [lia|]. rewrite V3, V2, <- app_assoc. f_equal. apply region_pages_app; [lia|].
    destruct (aw_end _ W1) as [M1 _], (aw_end _ W2) as [M2 _]. unfold Size4KiB in *. dlia.
Qed.

Lemma quiet_grown s s' : quiet s s' → grown s s'.
Proof. intros (e & -> & Hv) Hw. cbn. split; [done|]. split; [done|]. by rewrite region_pages_nil, app_nil_r. Qed.

(** Neither the machine nor the allocator changes. *)
Lemma grown_same (s s' : kvm L P E) : kv_env s' = kv_env s → kv_alloc s' = kv_alloc s → grown s s'.
Proof. intros E1 E2 Hw. rewrite E1, E2. by rewrite region_pages_nil, app_nil_r. Qed.

(** Neither the machine nor the bounds of the memory change. *)
Lemma grown_heap (s : kvm L P E) h : grown s (set_heap h s).
Proof. intros [W1 W2 W3]. split; [by split|]. split; [done|]. cbn. by rewrite region_pages_nil, app_nil_r. Qed.

Lemma validate_pages_spec n : ∀ addr (w : world (kvm L P E)) r w',
  SHIM_VIRT_OFFSET ≤ addr → addr mod Size4KiB = 0 → validate_pages n addr w = Return (r, w') →
  r = Ok () ∧ w_mem w' = w_mem w ∧ ∃ e, w_self w' = set_env e (w_self w) ∧
    validated e = validated (kv_env (w_self w)) ++ ((λ i, addr + Size4KiB * i) <$> seqZ 0 (Z.of_nat n)).
Proof.
  induction n as [|n IH]; intros addr w r w' Ha Hm Eq; cbn [validate_pages] in Eq.
  { injection Eq as <- <-. split_and!; [done..|]. exists (kv_env (w_self w)). cbn. rewrite app_nil_r.
    split; [by destruct (w_self w)|done]. }
  unfold mbind, handlerM_bind, fal_bind in Eq. unfold must, VirtAddr_new in Eq.
  rewrite (proj2 (Z.leb_le (2 ^ 64 - 2 ^ 47) addr)), orb_true_r in Eq by (unfold SHIM_VIRT_OFFSET in Ha; lia).
  unfold pvalidate_unwrap, mbind, handlerM_bind, fal_bind, pvalidate in Eq. cbn [pvalidate_size] in Eq.
  destruct (pvalidate_instr _ _ _ _) as [[ret c] e1] eqn:Ep. apply vl_pvalidate in Ep. cbn in Ep.
  assert (align_down addr 4096 = addr) as Hd by (unfold align_down, Size4KiB in *; lia). rewrite Hd in Ep.
  destruct (as_u32 ret =? 0); [|destruct (_ =? 1); [discriminate Eq|destruct (_ =? 6); discriminate Eq]].
  apply IH in Eq as (-> & Em & e & -> & Ev); [|unfold Size4KiB in *; lia|unfold Size4KiB in *; dlia].
  split_and!; [done|done|]. exists e. split; [done|]. cbn in Ev. rewrite Ev, Ep, <- app_assoc. f_equal.
  rewrite Nat2Z.inj_succ, (seqZ_cons 0 (Z.succ (Z.of_nat n))) by lia. rewrite fmap_cons. cbn [app]. f_equal; [lia|].
  change (Z.succ 0) with (1 + 0). rewrite <- fmap_add_seqZ, <- list_fmap_compose.
  replace (Z.pred (Z.succ (Z.of_nat n))) with (Z.of_nat n) by lia.
  apply list_fmap_ext. intros i x _. unfold compose, Size4KiB. lia.
Qed.

(** What a grant of [n] bytes makes of the allocator. *)
Definition grow_heap (a : EnarxAllocator L) (n : Z) : L :=
  if 0 <? Heap_size (allocator a) then Heap_extend n (allocator a)
  else Heap_init (SHIM_VIRT_OFFSET + end_of_mem a) n (allocator a).
Definition grow (a : EnarxAllocator L) (n : Z) : EnarxAllocator L :=
  mkEnarxAllocator n (max_alloc a) (end_of_mem a + n) (grow_heap a n).

Lemma ballooned_spec n (w : world (kvm L P E)) r w' :
  alloc_wf (kv_alloc (w_self w)) → (∃ j, 12 ≤ j ∧ n = 2 ^ j) → ballooned n w = Return (r, w') →
  let a := kv_alloc (w_self w) in
  r = Ok () ∧ w_mem w' = w_mem w ∧ alloc_wf (grow a n) ∧
  ∃ e, w_self w' = set_alloc (grow a n) (set_env e (w_self w)) ∧
    validated e = validated (kv_env (w_self w)) ++
      region_pages (SHIM_VIRT_OFFSET + end_of_mem a) (SHIM_VIRT_OFFSET + (end_of_mem a + n)).
Proof.
  intros Hw (j & Hj & Hn) Eq a. destruct (pow2_page j Hj) as [Hmod Hge]. rewrite <- Hn in Hmod, Hge.
  destruct (aw_end _ Hw) as [Me Re]. fold a in Me, Re.
  unfold ballooned, asks, modify, mbind, handlerM_bind, fal_bind in Eq. fold a in Eq.
  destruct (ShimVirtAddr_from _) as [v| | |] eqn:Ev; try discriminate Eq. cbn [must] in Eq.
  apply shim_virt_of_end in Ev; [|done]. subst v.
  unfold PhysAddr_new in Eq. destruct (_ <? 2 ^ 52); [|discriminate Eq]. cbn [must] in Eq.
  rewrite snp_is_active in Eq. unfold mbind, handlerM_bind, fal_bind in Eq.
  unfold add_usize in Eq. destruct (_ <=? usize_MAX) eqn:Efit; [|discriminate Eq]. cbn [must] in Eq.
  apply Z.leb_le in Efit. unfold usize_MAX, SHIM_VIRT_OFFSET in Efit.
  destruct (validate_pages _ _ _) as [[x w1]| | |] eqn:Ep; try discriminate Eq.
  apply validate_pages_spec in Ep as (-> & Em & e & Es & Hv); [|lia|unfold SHIM_VIRT_OFFSET, Size4KiB in *; dlia].
  cbn [w_self w_mem] in *. unfold on_heap in Eq. rewrite Es in Eq. cbn in Eq. injection Eq as <- <-.
  cbn [w_mem w_self]. split_and!; [done|done|split|].
  - by exists j.
  - exact (aw_max _ Hw).
  - cbn. unfold Size4KiB in *. split; [dlia|lia].
  - exists e. split; [done|]. cbn in Hv. rewrite Hv. f_equal. unfold region_pages. f_equal. f_equal.
    rewrite Z2Nat.id by (unfold Size4KiB in *; dlia). unfold Size4KiB in *. dlia.
Qed.

(** The sizes that are requested. *)
Lemma request_size_pow (a : EnarxAllocator L) k :
  alloc_wf a → 12 ≤ k → ∃ j, 12 ≤ j ∧ request_size a (2 ^ k) = 2 ^ j ∧ 2 ^ j ≤ max_alloc a.
Proof.
  intros Hw Hk. destruct (aw_max _ Hw) as (m & Hm & Em). unfold request_size. rewrite Em.
  assert (Hmin : ∀ i, 12 ≤ i → ∃ j, 12 ≤ j ∧ Z.min (2 ^ i) (2 ^ m) = 2 ^ j ∧ 2 ^ j ≤ 2 ^ m).
  { intros i Hi0. destruct (Z.le_ge_cases i m) as [Hl|Hl]; pose proof (Z.pow_le_mono_r 2 _ _ ltac:(lia) Hl).
    - exists i. rewrite Z.min_l by done. done.
    - exists m. rewrite Z.min_r by done. split; [lia|done]. }
  unfold checked_mul. destruct (_ <=? _); cbn [default].
  - replace (2 * 2 ^ k) with (2 ^ (k + 1)) by (rewrite Z.pow_add_r by lia; lia).
    apply (Hmin (k + 1)); lia.
  - apply (Hmin k); lia.
Qed.

Lemma half_pow k : 12 ≤ k → 2 ^ k / 2 = 2 ^ (k - 1).
Proof.
  intros Hk. replace k with (1 + (k - 1)) at 1 by lia. rewrite Z.pow_add_r by lia.
  change (2 ^ 1) with 2. by rewrite Z.mul_comm, Z.div_mul by lia.
Qed.

(** Either nothing was given, or one piece at the end of the memory. *)
Lemma balloon_loop_spec fuel : ∀ k (w : world (kvm L P E)) r w',
  alloc_wf (kv_alloc (w_self w)) → 12 ≤ k → balloon_loop fuel (2 ^ k) w = Return (r, w') →
  ∃ b : bool, r = Ok b ∧
    if b then
      let a := kv_alloc (w_self w) in
      ∃ n e, w_self w' = set_alloc (grow a n) (set_env e (w_self w)) ∧ alloc_wf (grow a n) ∧
        Size4KiB ≤ n ≤ max_alloc a ∧
        validated e = validated (kv_env (w_self w)) ++
          region_pages (SHIM_VIRT_OFFSET + end_of_mem a) (SHIM_VIRT_OFFSET + (end_of_mem a + n))
    else quiet (w_self w) (w_self w').
Proof.
  induction fuel as [|fuel IH]; intros k w r w' Hw Hk Eq; cbn [balloon_loop] in Eq; [discriminate Eq|].
  unfold asks, mbind, handlerM_bind, fal_bind in Eq. set (a := kv_alloc (w_self w)) in *.
  destruct (request_size_pow a k Hw Hk) as (j & Hj & Ej & Hmax). rewrite Ej in Eq.
  destruct (with_host_call _ _ w) as [[x w1]| | |] eqn:Eh; try discriminate Eq.
  assert (quiet (w_self w) (w_self w1)) as (e & Es & Ev).
  { eapply kept_with_host_call; [| |exact Eh]; [apply kept_panic|apply kept_catch, kept_balloon_memory]. }
  destruct x as [ret|e0]; [|exfalso].
  2:{ clear Eq. unfold with_host_call in Eh. destruct (try_alloc _) as [[g bs]|]; [|discriminate Eh].
      unfold catch, mbind, outcome_bind in Eh. destruct (handler.balloon_memory _ _ _ _) as [[y w2]| | |]; try discriminate Eh.
      destruct (drop_guard _ _); discriminate Eh. }
  assert (kv_alloc (w_self w1) = a) as Ea by (rewrite Es; done).
  destruct ret as [v|err].
  - destruct (ballooned _ w1) as [[y w2]| | |] eqn:Eb; try discriminate Eq.
    apply ballooned_spec in Eb as (-> & _ & Hg & e' & Es' & Ev'); [|by rewrite Ea|eauto].
    injection Eq as <- <-. exists true. split; [done|]. rewrite Ea in *. cbn zeta. exists (2 ^ j), e'.
    destruct (pow2_page j Hj). split_and!; [|done|done|done|].
    + rewrite Es', Es. done.
    + rewrite Ev', Es. cbn. by rewrite Ev.
  - rewrite half_pow in Eq by done. destruct (_ <? Size4KiB) eqn:El.
    + injection Eq as <- <-. exists false. split; [done|]. by exists e.
    + assert (12 ≤ k - 1) as Hk'.
      { apply Z.ltb_ge in El. destruct (decide (k = 12)) as [->|]; [done|lia]. }
      apply IH in Eq as (b & -> & Hb); [|by rewrite Ea|done]. exists b. split; [done|]. destruct b.
      * destruct Hb as (n & e' & Es' & Hg & Hn & Ev'). rewrite Ea in *. exists n, e'.
        split_and!; [rewrite Es', Es; done|done|lia|lia|]. rewrite Ev', Es. cbn. by rewrite Ev.
      * eapply quiet_trans; [|exact Hb]. by exists e.
Qed.

(** ** Everything the shim does *)

#[local] Instance grown_carried : Carried (kvm L P E).
Proof.
  refine {| carried := grown |}. intros w r w' Es. apply quiet_grown. exact (@carried_sally _ _ quiet_carried w r w' Es).
Defined.

Lemma grows_quiet {A : Type} (f : handlerM (kvm L P E) A) : keeps f → carries f.
Proof. intros Hf w r w' Eq. apply quiet_grown. by eapply Hf. Qed.

(** A step that touches neither the machine nor the allocator. *)
Lemma grows_same {A : Type} (f : handlerM (kvm L P E) A) :
  (∀ w r w', f w = Return (r, w') →
     kv_env (w_self w') = kv_env (w_self w) ∧ kv_alloc (w_self w') = kv_alloc (w_self w)) → carries f.
Proof. intros Hf w r w' Eq. destruct (Hf _ _ _ Eq). by apply grown_same. Qed.

Lemma grows_modify (f : kvm L P E → kvm L P E) :
  (∀ s, kv_env (f s) = kv_env s ∧ kv_alloc (f s) = kv_alloc s) → carries (modify f).
Proof. intros Hf. apply grows_same. intros w r w' [= <- <-]. apply Hf. Qed.

Lemma grows_asks {A : Type} (f : kvm L P E → A) : carries (asks f).
Proof. apply grows_same. by intros w r w' [= <- <-]. Qed.
Lemma grows_reads {A : Type} (f : mem → A) : carries (H := kvm L P E) (reads f).
Proof. apply grows_quiet, kept_reads. Qed.
Lemma grows_writes a bs : carries (H := kvm L P E) (writes a bs).
Proof. apply grows_quiet, kept_writes. Qed.
Lemma grows_panic {A : Type} : carries (panic : handlerM (kvm L P E) A).
Proof. by intros w r w' Eq. Qed.
Lemma grows_unwrap_option {A : Type} (o : option A) : carries (H := kvm L P E) (unwrap_option o).
Proof. apply grows_quiet, kept_unwrap_option. Qed.
Lemma grows_on_heap {A : Type} (f : L → A * L) : carries (H := kvm L P E) (on_heap f).
Proof. intros w r w' Eq. unfold on_heap in Eq. destruct (f _) as [x h]. injection Eq as <- <-. apply grown_heap. Qed.

Lemma grows_catch {A : Type} (f : handlerM (kvm L P E) A) : carries f → carries (catch f).
Proof.
  intros Hf w r w' Eq. unfold catch, mbind, outcome_bind in Eq.
  destruct (f w) as [[x w1]| | |] eqn:Ef; try discriminate Eq. injection Eq as <- <-. by eapply Hf.
Qed.

Lemma grows_balloon : carries (H := kvm L P E) balloon.
Proof.
  intros w r w' Eq Hw. unfold balloon, asks, mbind, handlerM_bind, fal_bind in Eq.
  destruct (aw_last _ Hw) as (k & Hk & Ek). rewrite Ek in Eq.
  apply balloon_loop_spec in Eq as ([] & -> & Hb); [| |done|done].
  - destruct Hb as (n & e & -> & Hg & Hn & Ev). cbn. split; [done|]. split; [unfold Size4KiB in Hn; lia|done].
  - by apply quiet_grown.
Qed.

Lemma grows_with_host_call {A : Type} (none f : handlerM (kvm L P E) A) :
  carries none → carries f → carries (with_host_call none f).
Proof.
  intros Hn Hf w r w' Eq. unfold with_host_call in Eq. destruct (try_alloc _) as [[g bs]|]; [|by eapply Hn].
  unfold mbind, outcome_bind in Eq. destruct (f _) as [[x w1]| | |] eqn:Ef; try discriminate Eq.
  destruct (drop_guard _ _) as [bs'| | |]; try discriminate Eq. injection Eq as <- <-.
  transitivity (set_blocks bs g (w_self w)); [by apply grown_same|].
  transitivity (w_self w1); [exact (Hf _ _ _ Ef)|by apply grown_same].
Qed.

Ltac grow_step := first
  [ progress intros
  | apply carries_ret | apply carries_try | apply carries_must | apply grows_asks | apply grows_reads
  | apply grows_writes | apply grows_panic | apply grows_unwrap_option | apply grows_on_heap | apply grows_balloon
  | solve [apply grows_modify; intros; done]
  | apply carries_bind | apply grows_catch
  | match goal with
    | |- carries (if ?b then _ else _) => destruct b
    | |- carries (match ?x with _ => _ end) => destruct x
    | |- carries (let '(_, _) := ?x in _) => destruct x
    end ].
Ltac grow := repeat grow_step.

Lemma grows_try_alloc_half size : carries (H := kvm L P E) (try_alloc_half size).
Proof.
  unfold try_alloc_half. destruct (_ <? _); [apply grows_panic|]. generalize 64%nat. intros n. revert size.
  induction n as [|n IH]; intros size; cbn [alloc_half_loop]; [by intros w r w' Eq|].
  unfold alloc_pages. grow; apply IH.
Qed.

Lemma grows_allocate_frame size : carries (H := kvm L P E) (allocate_frame size).
Proof. unfold allocate_frame, try_alloc_layout. grow. Qed.

Lemma grows_map_page page frame flags pflags : carries (H := kvm L P E) (map_page page frame flags pflags).
Proof.
  intros w r w' Eq. unfold map_page, mbind, outcome_bind in Eq.
  destruct (map_to_with_table_flags _ _ _ _ _ _ _ _) as [[[x pt] w1]| | |] eqn:Em; try discriminate Eq.
  assert (grown (w_self w) (w_self w1)) as G1.
  { refine (mp_frames _ _ (λ w w', grown (w_self w) (w_self w')) _ _ _ _ _ _ _ _ _ _ _ Em).
    - split; [by intros x0|]. intros w1' w2' w3' G1 G2. by etransitivity.
    - intros w0 o w0' Ef. destruct (allocate_frame Size4KiB w0) as [[[o'|e] w2]| | |] eqn:Ea; try discriminate Ef.
      injection Ef as <- <-. exact (grows_allocate_frame _ _ _ _ Ea). }
  injection Eq as <- <-. etransitivity; [exact G1|]. by apply grown_same.
Qed.

Lemma grows_map_memory from to size flags pflags :
  carries (H := kvm L P E) (map_memory from to size flags pflags).
Proof.
  unfold map_memory. grow. generalize (zip (page_range from a) (page_range to a0)). intros pairs.
  induction pairs as [|[f p] pairs IH]; cbn [map_pages]; [apply carries_ret|].
  apply carries_bind; [apply grows_map_page|]. intros []; [exact IH|apply carries_ret].
Qed.

Lemma grows_unmap_memory addr size : carries (H := kvm L P E) (unmap_memory addr size).
Proof.
  unfold unmap_memory. grow. generalize (page_range addr a). intros pages.
  induction pages as [|p pages IH]; cbn [unmap_pages]; [apply carries_ret|].
  intros w r w' Eq. destruct (unmap _ _) as [[frame|] pt]; [|injection Eq as <- <-; by apply grown_same].
  transitivity (set_pt pt (w_self w)); [by apply grown_same|].
  refine ((_ : carries _) _ _ _ Eq). unfold dealloc_pages. grow. exact IH.
Qed.

Lemma grows_balloon_while fuel size : carries (H := kvm L P E) (balloon_while fuel size).
Proof.
  induction fuel as [|fuel IH]; cbn [balloon_while]; [by intros w r w' Eq|]. unfold free. grow. exact IH.
Qed.

Lemma grows_allocate_and_map fuel : ∀ to size flags pflags,
  carries (H := kvm L P E) (allocate_and_map_memory fuel to size flags pflags).
Proof.
  induction fuel as [|fuel IH]; intros to size flags pflags; cbn [allocate_and_map_memory]; [by intros w r w' Eq|].
  cbv zeta. unfold dealloc_pages. repeat first [apply grows_balloon_while | apply grows_try_alloc_half
    | apply grows_map_memory | apply grows_unmap_memory | apply IH | grow_step].
Qed.

(** ** System calls *)

Context (fuel : nat).

Lemma grows_update_pages pages flags : carries (H := kvm L P E) (update_pages pages flags).
Proof.
  induction pages as [|p pages IH]; cbn [update_pages]; [apply carries_ret|].
  intros w r w' Eq. destruct (update_flags _ _ _) as [[] pt]; [|injection Eq as <- <-; by apply grown_same].
  transitivity (set_pt pt (w_self w)); [by apply grown_same|]. exact (IH _ _ _ Eq).
Qed.

#[local] Instance grown_os : @CarriedOS (kvm L P E) (kvm_os fuel) grown_carried.
Proof.
  split; cbn [arch_prctl brk madvise mmap mprotect munmap set_thread_local_storage kvm_os].
  - intros h t. by apply grown_same.
  - intros code addr. unfold shim_arch_prctl, set_base. grow.
  - intros addr. unfold shim_brk, non_null, or_enomem.
    repeat first [apply grows_unmap_memory | apply grows_allocate_and_map | grow_step].
  - intros. apply carries_ret.
  - intros addr l prot flags fd offset. unfold shim_mmap, non_null, or_enomem.
    repeat first [apply grows_allocate_and_map | grow_step].
  - intros addr l prot. unfold shim_mprotect. repeat first [apply grows_update_pages | grow_step].
  - intros addr l. unfold shim_munmap. repeat first [apply grows_unmap_memory | grow_step].
Qed.

Lemma grows_vmm_exit msr : carries (H := kvm L P E) (vmm_exit msr).
Proof. apply grows_quiet, kept_vmm_exit. Qed.

Lemma grows_exchange version ty p ty' buffer : carries (H := kvm L P E) (exchange version ty p ty' buffer).
Proof.
  unfold exchange, unwrap, enc_payload, dec_payload, ext_guest_req, guest_req, request_status, invalidate, vmgexit,
    set_valid, set_offset_valid, set_field, field, gpa_of, page_at, get_msg_seqno_0, inc_msg_seqno_0, get_vmpck0.
  repeat first [apply grows_vmm_exit | grow_step].
Qed.

Lemma grows_get_key buf l : carries (H := kvm L P E) (hostcall_get_key buf l).
Proof.
  unfold hostcall_get_key, get_key, response_status. repeat first [apply grows_exchange | grow_step].
Qed.

Lemma grows_vcek : carries (H := kvm L P E) SNP_VCEK.
Proof.
  unfold SNP_VCEK, SNP_VCEK_init, handler.get_snp_vcek.
  repeat first [apply grows_with_host_call | apply carries_unwrap
    | match goal with |- carries (execute ?c) => exact (carries_execute c) end | grow_step].
Qed.

Lemma grows_get_attestation nonce nonce_len buf buf_len :
  carries (H := kvm L P E) (get_attestation nonce nonce_len buf buf_len).
Proof.
  unfold get_attestation, get_report, write_evidence, response_status.
  repeat first [apply grows_vcek | apply grows_exchange | grow_step].
Qed.

Lemma grows_syscall_rust a b c d e f nr : carries (H := kvm L P E) (syscall_rust fuel a b c d e f nr).
Proof.
  unfold syscall_rust, double_return. cbv zeta. apply grows_with_host_call; [apply grows_panic|].
  repeat first [apply grows_get_key | apply grows_get_attestation
    | match goal with |- carries (syscall _ _ _ _ _ _ _) => exact (carries_syscall _ _ _ _ _ _ _) end | grow_step].
Qed.

(** A run of the keep: the workload does something to its memory, or executes a
    [syscall] instruction. *)
Inductive kvm_step : world (kvm L P E) → world (kvm L P E) → Prop :=
| kvm_workload s m m' : kvm_step (mkWorld s m) (mkWorld s m')
| kvm_syscall a b c d e f nr w r w' :
    syscall_rust fuel a b c d e f nr w = Return (r, w') → kvm_step w w'.

Lemma kvm_steps_grown w w' : rtc kvm_step w w' → grown (w_self w) (w_self w').
Proof.
  induction 1 as [w|w w1 w2 Hs _ IH]; [done|]. etransitivity; [|exact IH].
  destruct Hs as [s m m'|a b c d e f nr w r w' Eq]; [done|]. exact (grows_syscall_rust _ _ _ _ _ _ _ _ _ _ Eq).
Qed.

Lemma region_pages_NoDup lo hi : NoDup (region_pages lo hi).
Proof.
  unfold region_pages. apply NoDup_fmap_2; [|apply NoDup_seqZ]. intros x y. unfold Size4KiB. lia.
Qed.

End grown.
