(* ===== verification/KvmGuarantees.v ===== *)
(** * The KVM shim: guarantees

    The properties of the memory and the registers of a keep on KVM, whatever the
    host answers. *)

From stdpp Require Import relations.
From S2P Require Import Prelude Memory Libc PhaseAlloc StagedValues Items Calls CallLaws StageKit.
From S2P Require Import SockTypes Syscalls Stubs SyscallLaws NumberCalls Platform Handler HandlerCalls Dispatch.
From S2P Require Import Invariants SnpReport KvmMachine Ghcb KvmSample KvmHostcall KvmAlloc KvmShim KvmShimLaws.

(** ** Small instances of the crates *)

(** A heap that gives out its memory from the bottom up, once. *)
Record bump : Type := mkBump { bump_next : Z; bump_end : Z; bump_size : Z }.

#[local] Instance bump_heap : HeapOps bump := {|
  Heap_empty := mkBump 0 0 0;
  Heap_size := bump_size;
  Heap_free h := bump_end h - bump_next h;
  Heap_init start size _ := mkBump start (start + size) size;
  Heap_extend n h := mkBump (bump_next h) (bump_end h + n) (bump_size h + n);
  allocate_first_fit l h :=
    let p := (bump_next h + l_align l - 1) / l_align l * l_align l in
    if p + l_size l <=? bump_end h then (Some p, mkBump (p + l_size l) (bump_end h) (bump_size h)) else (None, h);
  Heap_deallocate _ _ h := h;
|}.

(** The pages that are mapped, with their frames and flags. *)
#[local] Instance list_mapper : Mapper (list (Z * (Z * Z))) := {|
  map_to_with_table_flags S _ page frame flags _ pt s :=
    match list_find (λ e, e.1 = page) pt with
    | Some (_, (_, (old, _))) => Return (inr (PageAlreadyMapped_ old), pt, s)
    | None => Return (inl (), (page, (frame, flags)) :: pt, s)
    end;
  unmap page pt :=
    match list_find (λ e, e.1 = page) pt with
    | Some (_, (_, (frame, _))) => (Some frame, filter (λ e, e.1 ≠ page) pt)
    | None => (None, pt)
    end;
  update_flags page flags pt :=
    (bool_decide (page ∈ pt.*1), (λ e, if bool_decide (e.1 = page) then (page, (e.2.1, flags)) else e) <$> pt);
  translate_addr pt a := (λ e, e.2.2.1 + a mod Size4KiB) <$> list_find (λ e, e.1 = align_down a Size4KiB) pt;
|}.

#[local] Instance list_mapper_frames : MapperFrames (list (Z * (Z * Z))).
Proof.
  intros S f R page frame flags pflags pt s r pt' s' HR _. cbn.
  destruct (list_find _ _) as [[i [p [old fl]]]|]; intros [= <- <- <-]; reflexivity.
Qed.

#[local] Instance sample_log : ValidationLog hypervisor.
Proof.
  refine {| validated e := rev (hy_validated e) |}.
  - by intros v e m v' e' m' [= <- <- <-].
  - by intros p v e m e' m' [= <- <-].
  - by intros e n v e' [= <- <- <-].
  - intros rax rcx edx e r c e' [= <- <- <-]. by destruct (edx =? 1).
Defined.

(** A keep with memory up to [0x300000] and nothing in its heap. *)
Definition keep (e : hypervisor) : kvm bump (list (Z * (Z * Z))) hypervisor :=
  mkKvm e HostCallAllocator_new (mkBlockGuard 0 None) (mkEnarxAllocator (2 ^ 23) (2 ^ 30) 0x300000 (mkBump 0 0 0)) []
    (mkLine 0x555500000000 0x555500000000) 0x7f0000000000 ThreadLocalStorage_new (mkBases 0 0 0) None.

(** The host answers the calls in the second block with success. *)
Definition grants (m : mem) : mem := write_usize m (sallyport_at + BLOCK_SIZE + 56) 0.

(** ** Loops *)

Section loops.
Context {L P E : Type} `{Machine E, Image, HeapOps L, Mapper P}.

Lemma balloon_loop_step f1 f2 x (w : world (kvm L P E)) :
  (Size4KiB ≤ x / 2 → ∀ w : world (kvm L P E), balloon_loop f1 (x / 2) w = balloon_loop f2 (x / 2) w) →
  balloon_loop (S f1) x w = balloon_loop (S f2) x w.
Proof.
  intros Hx. cbn [balloon_loop]. unfold asks, mbind, handlerM_bind, fal_bind.
  destruct (with_host_call _ _ w) as [[[[v|err]|e] w1]| | |]; [done| |done..].
  destruct (x / 2 <? Size4KiB) eqn:El; [done|]. apply Hx. by apply Z.ltb_ge.
Qed.

Lemma alloc_half_step f1 f2 x (w : world (kvm L P E)) :
  (x ≠ Size4KiB → ∀ w : world (kvm L P E), alloc_half_loop f1 (x / 2) w = alloc_half_loop f2 (x / 2) w) →
  alloc_half_loop (S f1) x w = alloc_half_loop (S f2) x w.
Proof.
  intros Hx. cbn [alloc_half_loop]. unfold mbind, handlerM_bind, fal_bind.
  destruct (alloc_pages _ w) as [[[[p|]|e] w1]| | |]; [done| |done..].
  destruct (x =? Size4KiB) eqn:El; [done|]. apply Hx. by apply Z.eqb_neq.
Qed.

(** Sizes are halved until they are below a page. *)
Lemma balloon_loop_fuel n : ∀ extra x (w : world (kvm L P E)),
  0 ≤ x < 2 ^ (12 + Z.of_nat n) → balloon_loop (S n + extra) x w = balloon_loop (S n) x w.
Proof.
  induction n as [|n IH]; intros extra x w Hx; apply balloon_loop_step; intros Hp.
  - exfalso. unfold Size4KiB in Hp. change (2 ^ (12 + Z.of_nat 0)) with 4096 in Hx.
    pose proof (Z.div_lt_upper_bound x 2 4096). lia.
  - intros w1. apply IH. split; [apply Z.div_pos; lia|]. apply Z.div_lt_upper_bound; [lia|].
    rewrite <- Z.pow_succ_r by lia. replace (Z.succ (12 + Z.of_nat n)) with (12 + Z.of_nat (S n)) by lia. lia.
Qed.

Lemma alloc_half_fuel n : ∀ extra k (w : world (kvm L P E)),
  12 ≤ k ≤ 12 + Z.of_nat n → alloc_half_loop (S n + extra) (2 ^ k) w = alloc_half_loop (S n) (2 ^ k) w.
Proof.
  induction n as [|n IH]; intros extra k w Hk; apply alloc_half_step; intros Hp.
  - destruct Hp. by replace k with 12 by lia.
  - intros w1. rewrite half_pow by lia. apply IH. split; [|lia].
    destruct (decide (k = 12)) as [->|]; [done|lia].
Qed.

End loops.

Section msb.

Lemma msb_loop_log2 n : ∀ v r, 0 < v < 2 ^ Z.of_nat (S n) → msb_loop (S n) v r = Z.log2 v + r.
Proof.
  induction n as [|n IH]; intros v r Hv; cbn [msb_loop].
  { replace v with 1 by (change (2 ^ Z.of_nat 1) with 2 in Hv; lia). done. }
  destruct (decide (v = 1)) as [->|Hn]; [done|].
  assert (Hs : Z.shiftr v 1 = v / 2) by apply (Z.shiftr_div_pow2 v 1 ltac:(lia)). rewrite Hs.
  assert (Hpos : 0 < v / 2) by (apply Z.div_str_pos; lia).
  rewrite (proj2 (Z.eqb_neq (v / 2) 0)) by lia.
  cbn [msb_loop] in IH. rewrite IH.
  - rewrite <- Hs, Z.log2_shiftr, Z.max_r by (first [lia | pose proof (Z.log2_le_mono 2 v); cbn in *; lia]). lia.
  - split; [done|]. apply Z.div_lt_upper_bound; [lia|]. rewrite <- Z.pow_succ_r by lia.
    replace (Z.succ (Z.of_nat (S n))) with (Z.of_nat (S (S n))) by lia. lia.
Qed.

(** The most significant bit. *)
Lemma msb_log2 v : 0 < v < 2 ^ 64 → msb v = Z.log2 v.
Proof. intros Hv. unfold msb. rewrite (msb_loop_log2 63); [lia|exact Hv]. Qed.

End msb.

(** ** A host that gives no memory *)

Section refused.
Context {L P E : Type} `{ValidationLog E, Image, HeapOps L, Mapper P}.

(** Whatever the machine and the memory are, the host refuses. *)
Definition refuses (s : kvm L P E) : Prop :=
  ∀ e m n, ∃ err w', with_host_call panic (catch (handler.balloon_memory 12 n (end_of_mem (kv_alloc s))))
    (mkWorld (set_env e s) m) = Return (Ok (Err err), w').

Definition same_shim (s : kvm L P E) (w : world (kvm L P E)) : Prop := ∃ e, w_self w = set_env e s.

Lemma refused_step s fuel k (w : world (kvm L P E)) : refuses s → 12 ≤ k → same_shim s w →
  ∃ w', same_shim s w' ∧ balloon_loop (S fuel) (2 ^ k) w =
    if 2 ^ (k - 1) <? Size4KiB then Return (Ok false, w') else balloon_loop fuel (2 ^ (k - 1)) w'.
Proof.
  intros Hr Hk. destruct w as [s0 m]. intros [e Es]. cbn in Es. subst s0. set (w := mkWorld (set_env e s) m).
  cbn [balloon_loop]. unfold asks, mbind, handlerM_bind, fal_bind.
  destruct (Hr e m (request_size (kv_alloc (w_self w)) (2 ^ k) / Size4KiB)) as (err & w' & Eh).
  change (end_of_mem (kv_alloc (w_self w))) with (end_of_mem (kv_alloc s)). fold w in Eh. rewrite Eh.
  rewrite half_pow by lia. exists w'. split; [|by destruct (_ <? _)].
  eapply kept_with_host_call in Eh as (e' & Ee & _); [|apply kept_panic|apply kept_catch, kept_balloon_memory].
  exists e'. exact Ee.
Qed.

Lemma refused_loop s n : refuses s → ∀ k (w : world (kvm L P E)),
  12 ≤ k ≤ 12 + Z.of_nat n → same_shim s w →
  ∃ w', balloon_loop (S n) (2 ^ k) w = Return (Ok false, w') ∧ same_shim s w'.
Proof.
  intros Hr. induction n as [|n IH]; intros k w Hk Hs.
  - destruct (refused_step s O k w Hr ltac:(lia) Hs) as (w' & Hs' & ->). replace k with 12 by lia. by exists w'.
  - destruct (refused_step s (S n) k w Hr ltac:(lia) Hs) as (w' & Hs' & ->).
    destruct (_ <? Size4KiB) eqn:El; [by exists w'|]. apply IH; [|done].
    destruct (decide (k = 12)) as [->|]; [discriminate El|lia].
Qed.

Lemma refused_while s k n fuel : refuses s → last_alloc (kv_alloc s) = 2 ^ k → 12 ≤ k ≤ 63 →
  Heap_free (allocator (kv_alloc s)) < n → ∀ w : world (kvm L P E), same_shim s w → balloon_while fuel n w = Diverged.
Proof.
  intros Hr Hl Hk Hn. induction fuel as [|fuel IH]; intros w [e Es]; [done|].
  cbn [balloon_while]. unfold free, asks, balloon, mbind, handlerM_bind, fal_bind. rewrite Es. cbn [kv_alloc set_env].
  rewrite (proj2 (Z.ltb_lt _ _) Hn). unfold asks. cbv beta iota. rewrite Es. cbn [kv_alloc set_env]. rewrite Hl.
  destruct (refused_loop s 63 Hr k w ltac:(lia)) as (w1 & -> & Hs); [by exists e|]. by apply IH.
Qed.

End refused.

(** ** [arch_prctl(ARCH_SET_GS)] *)

Section gs.
Context {L P E : Type} `{Machine E, Image, HeapOps L, Mapper P, Aead}.

(** A block that is taken is put back. *)
Lemma with_free_block {A : Type} (none f : handlerM (kvm L P E) A) (w : world (kvm L P E)) g bs r m
    (h : kvm L P E → kvm L P E) :
  (∀ s, kv_blocks (h s) = kv_blocks s ∧ kv_guard (h s) = kv_guard s) →
  (∀ bs g s, set_blocks bs g (h s) = h (set_blocks bs g s)) →
  try_alloc (kv_blocks (w_self w)) = Some (g, bs) →
  f (mkWorld (set_blocks bs g (w_self w)) (w_mem w)) = Return (r, mkWorld (h (set_blocks bs g (w_self w))) m) →
  with_host_call none f w = Return (r, mkWorld (h (w_self w)) m).
Proof.
  intros Hb Hc Ha Hf. unfold with_host_call. rewrite Ha, Hf. cbn [mbind outcome_bind w_self w_mem].
  destruct (Hb (set_blocks bs g (w_self w))) as [-> ->].
  unfold try_alloc in Ha. destruct (list_find _ _) as [[i b]|] eqn:El; [|done]. injection Ha as <- <-.
  apply list_find_Some in El as (Hl & _ & _). apply lookup_lt_Some in Hl as Hlt.
  unfold drop_guard. cbn [block_index guard_block set_blocks kv_guard kv_blocks].
  rewrite length_insert, (proj2 (Z.ltb_lt _ _)), Nat2Z.id, list_insert_insert_eq, (list_insert_id _ _ _ Hl) by lia.
  cbn [mbind outcome_bind]. rewrite Hc. by destruct (w_self w).
Qed.

Definition with_gs (v : Z) (s : kvm L P E) : kvm L P E :=
  set_bases (mkBases (fs_base (kv_bases s)) v (kernel_gs_base (kv_bases s))) s.

Lemma set_gs_call fuel v c d e f (w : world (kvm L P E)) :
  VirtAddr_new v = Return v → is_Some (try_alloc (kv_blocks (w_self w))) →
  syscall_rust fuel ARCH_SET_GS v c d e f SYS_arch_prctl w = Return (Ok (0, c), mkWorld (with_gs v (w_self w)) (w_mem w)).
Proof.
  intros Hv [[g bs] Ha]. unfold syscall_rust. cbv zeta.
  change (as_i64 SYS_arch_prctl =? enarxcall.SYS_GETKEY) with false.
  change (as_i64 SYS_arch_prctl =? enarxcall.SYS_GETATT) with false. cbv iota.
  apply (with_free_block _ _ _ g bs); [done|done|done|].
  change (@syscall _ (kvm_os fuel) _ SYS_arch_prctl ARCH_SET_GS v c d e f)
    with (@sys_arch_prctl (kvm L P E) (kvm_os fuel) ARCH_SET_GS v).
  unfold sys_arch_prctl, ret_unit, catch. cbn [arch_prctl kvm_os].
  change (as_c_int ARCH_SET_GS) with ARCH_SET_GS. unfold shim_arch_prctl.
  change (ARCH_SET_GS =? ARCH_SET_FS) with false. change (ARCH_SET_GS =? ARCH_GET_FS) with false.
  change (ARCH_SET_GS =? ARCH_SET_GS) with true. cbv iota. rewrite Hv. done.
Qed.

(** The stack of the shim is taken from the task state segment, before anything
    else is done. *)
Lemma enter_stack fuel r (w : world (kvm L P E)) r' k w' :
  _syscall_enter fuel r w = Return (Ok (r', k), w') →
  k = read_usize (w_mem w) (kernel_gs_base (kv_bases (w_self w)) + 4).
Proof.
  unfold _syscall_enter, swapgs, set_base, modify, gs_write, gs_read, mbind, handlerM_bind, fal_bind.
  cbn [w_self w_mem kv_bases set_bases gs_base kernel_gs_base fs_base].
  change KERNEL_RSP_OFF with 4. change USR_RSP_OFF with 28.
  destruct (syscall_rust _ _ _ _ _ _ _ _ _) as [[[[new_rax new_rdx]|e] w1]| | |]; intros Eq; try discriminate Eq.
  injection Eq as _ <- _. cbn [fs_base gs_base kernel_gs_base kv_bases set_bases].
  unfold read_usize, write_usize. rewrite read_write_disjoint; [done|]. rewrite length_to_le_bytes. lia.
Qed.

Lemma set_gs_enter fuel r v (w : world (kvm L P E)) :
  VirtAddr_new v = Return v → is_Some (try_alloc (kv_blocks (w_self w))) →
  rax r = SYS_arch_prctl → rdi r = ARCH_SET_GS → rsi r = v → is_usize (rsp r) →
  let tss := kernel_gs_base (kv_bases (w_self w)) in
  ∃ r' k w', _syscall_enter fuel r w = Return (Ok (r', k), w') ∧ rax r' = 0 ∧
    kernel_gs_base (kv_bases (w_self w')) = v ∧
    w_mem w' = write_usize (write_usize (write_usize (w_mem w) (tss + 28) (rsp r)) (tss + 28) 0) (v + 28) (rsp r).
Proof.
  intros Hv Hs Hn Hc Hb Hr tss. unfold _syscall_enter. rewrite Hn, Hc, Hb.
  unfold swapgs, set_base, modify, gs_write, gs_read, mbind, handlerM_bind, fal_bind.
  cbn [w_self w_mem]. rewrite set_gs_call by done. eexists _, _, _. split; [reflexivity|].
  cbn [w_self w_mem kv_bases set_bases with_gs gs_base kernel_gs_base rax].
  change USR_RSP_OFF with 28. fold tss. rewrite (read_write_usize (w_mem w) (tss + 28) (rsp r)) by done. done.
Qed.

End gs.

(** ** Properties *)

Section properties.
Context {L P E : Type} `{ValidationLog E, Image, HeapOps L, MapperFrames P, Aead}.

(** C3: whatever the workload does and asks for and however the host answers, the
    pages of memory that the shim validates ([PVALIDATE]) are exactly the pages
    between the old and the new end of its memory, each validated once.  So no
    page is validated twice, which is what would let the host swap it for
    another. *)
Theorem validated_once fuel (w w' : world (kvm L P E)) :
  (∃ c, 39 ≤ c < 52 ∧ get_cbit_mask = 2 ^ c) → alloc_wf (kv_alloc (w_self w)) →
  rtc (kvm_step fuel) w w' →
  let lo := SHIM_VIRT_OFFSET + end_of_mem (kv_alloc (w_self w)) in
  let hi := SHIM_VIRT_OFFSET + end_of_mem (kv_alloc (w_self w')) in
  ∃ pages, validated (kv_env (w_self w')) = validated (kv_env (w_self w)) ++ pages ∧ NoDup pages ∧
    ∀ p, p ∈ pages ↔ lo ≤ p < hi ∧ (p - lo) mod Size4KiB = 0.
Proof.
  intros Hc Hw Hs lo hi. destruct (kvm_steps_grown Hc fuel w w' Hs Hw) as (Hw' & Hle & Hv).
  exists (region_pages lo hi). split; [exact Hv|]. split; [apply region_pages_NoDup|]. intros p.
  apply elem_of_region_pages. destruct (aw_end _ Hw) as [M1 _], (aw_end _ Hw') as [M2 _].
  unfold lo, hi, Size4KiB in *. dlia.
Qed.

(** The loops of the allocator that ask for less after each refusal end: with
    sizes of 64 bits, 64 iterations are as good as any larger number. *)
Theorem halving_terminates fuel size k (w : world (kvm L P E)) :
  (64 ≤ fuel)%nat → is_usize size → 12 ≤ k ≤ 63 →
  balloon_loop fuel size w = balloon_loop 64 size w ∧
  alloc_half_loop fuel (2 ^ k) w = alloc_half_loop 64 (2 ^ k) w.
Proof.
  intros Hf Hs Hk. replace fuel with (S 63 + (fuel - 64))%nat by lia. split.
  - apply balloon_loop_fuel. unfold is_usize in Hs. change usize_MAX with (2 ^ 64 - 1) in Hs.
    pose proof (Z.pow_le_mono_r 2 64 (12 + Z.of_nat 63)). lia.
  - apply alloc_half_fuel. lia.
Qed.

(** A host that refuses to give memory makes the shim ask for ever: an
    allocation larger than the free memory of the heap never returns, not even
    with [ENOMEM]. *)
Theorem refused_memory_spins fuel to size flags pflags k (w : world (kvm L P E)) :
  0 < size < 2 ^ 64 → to mod Size4KiB = 0 → size mod Size4KiB = 0 →
  Heap_free (allocator (kv_alloc (w_self w))) < 2 ^ Z.log2 size →
  last_alloc (kv_alloc (w_self w)) = 2 ^ k → 12 ≤ k ≤ 63 →
  refuses (w_self w) →
  allocate_and_map_memory fuel to size flags pflags w = Diverged.
Proof.
  intros Hs Ht Hm Hf Hl Hk Hr. destruct fuel as [|fuel]; [done|]. cbn [allocate_and_map_memory].
  rewrite (proj2 (Z.eqb_neq size 0)), Ht by lia. unfold align_down. rewrite Hm, Z.sub_0_r, !Z.eqb_refl. cbn [negb].
  unfold mbind, handlerM_bind, fal_bind at 1. rewrite msb_log2 by done.
  rewrite (refused_while (w_self w) k _ _ Hr Hl Hk Hf w); [done|].
  exists (kv_env (w_self w)). by destruct (w_self w).
Qed.

(** C40: [arch_prctl(ARCH_SET_GS, a)] sets the base that the shim itself uses
    until it returns to the workload.  So the word that restores the stack pointer
    of the workload, whose value the workload chooses, is written to [a + 28], for
    any canonical [a], in the memory of the shim or not; and the next system call
    takes the stack of the shim from [a + 4]. *)
Theorem set_gs_writes_anywhere fuel r a (w : world (kvm L P E)) :
  0 ≤ a < 2 ^ 47 ∨ 2 ^ 64 - 2 ^ 47 ≤ a < 2 ^ 64 →
  rax r = SYS_arch_prctl → rdi r = ARCH_SET_GS → rsi r = a → is_usize (rsp r) →
  is_Some (try_alloc (kv_blocks (w_self w))) →
  ∃ r' k w', _syscall_enter fuel r w = Return (Ok (r', k), w') ∧
    rax r' = 0 ∧ read_usize (w_mem w') (a + 28) = rsp r ∧
    same_except [mkGref (kernel_gs_base (kv_bases (w_self w)) + 28) 8 1; mkGref (a + 28) 8 1] (w_mem w) (w_mem w') ∧
    ∀ r2 r2' k2 w2, _syscall_enter fuel r2 w' = Return (Ok (r2', k2), w2) → k2 = read_usize (w_mem w') (a + 4).
Proof.
  intros Ha Hn Hc Hb Hr Hs.
  assert (Hv : VirtAddr_new a = Return a).
  { unfold VirtAddr_new. destruct (a <? 2 ^ 47) eqn:E1; [done|]. apply Z.ltb_ge in E1.
    by rewrite (proj2 (Z.leb_le (2 ^ 64 - 2 ^ 47) a)) by lia. }
  destruct (set_gs_enter fuel r a w Hv Hs Hn Hc Hb Hr) as (r' & k & w' & Eq & Hx & Hk & Hm).
  exists r', k, w'. split; [exact Eq|]. split; [exact Hx|]. split; [rewrite Hm; by apply read_write_usize|]. split.
  - rewrite Hm. intros x Hx'. apply Forall_cons in Hx' as [H1x Hx']. apply Forall_cons in Hx' as [H2x _].
    unfold in_gref, g_bytes in *. cbn in *. unfold write_usize.
    rewrite !write_bytes_outside by (rewrite length_to_le_bytes; lia). done.
  - intros r2 r2' k2 w2 Eq2. apply enter_stack in Eq2. by rewrite Eq2, Hk.
Qed.

End properties.

(** ** Witnesses *)

Definition first_world : world (kvm bump (list (Z * (Z * Z))) hypervisor) :=
  mkWorld (keep (mkHypervisor grants [])) (λ _, 0).

Lemma sample_cbit : ∃ c, 39 ≤ c < 52 ∧ get_cbit_mask = 2 ^ c.
Proof. exists 51. split; [lia|reflexivity]. Qed.

Lemma keep_wf e : alloc_wf (kv_alloc (keep e)).
Proof. split; [exists 23|exists 30|]; vm_compute; intuition discriminate. Qed.

(** An anonymous mapping of two pages, for which memory is requested. *)
Lemma validated_once_witness : ∃ w' pages, rtc (kvm_step 10) first_world w' ∧ NoDup pages ∧
  validated (kv_env (w_self w')) = pages ∧ SHIM_VIRT_OFFSET + 0x300000 + 4095 * Size4KiB ∈ pages.
Proof.
  assert (Hret : match syscall_rust 10 0 0x2000 3 0x22 usize_MAX 0 SYS_mmap first_world with
                 | Return (_, w') => end_of_mem (kv_alloc (w_self w')) =? 0x300000 + 2 ^ 24
                 | _ => false
                 end = true) by (vm_compute; reflexivity).
  destruct (syscall_rust _ _ _ _ _ _ _ _ _) as [[r w']| | |] eqn:Eq; try discriminate Hret. apply Z.eqb_eq in Hret.
  assert (Hs : rtc (kvm_step 10) first_world w') by (eapply rtc_once, kvm_syscall; exact Eq).
  destruct (validated_once 10 first_world w' sample_cbit (keep_wf _) Hs) as (pages & Hv & Hd & Hp).
  exists w', pages. split; [exact Hs|]. split; [exact Hd|]. split; [exact Hv|]. apply Hp. rewrite Hret.
  vm_compute. intuition discriminate.
Defined.

Lemma halving_terminates_witness :
  balloon_loop 100 (2 ^ 13) first_world = balloon_loop 64 (2 ^ 13) first_world ∧
  alloc_half_loop 100 (2 ^ 14) first_world = alloc_half_loop 64 (2 ^ 14) first_world.
Proof. apply (halving_terminates 100 (2 ^ 13) 14 first_world); unfold is_usize; [lia|vm_compute; intuition discriminate|lia]. Defined.

(** A host that answers every call with [ENOSYS], and an image without SNP. *)
#[local] Instance plain_image : Image := {|
  C_BIT_MASK := 0;
  ghcb_at := @ghcb_at sample_image; request_at := @request_at sample_image; response_at := @response_at sample_image;
  secrets_at := @secrets_at sample_image; cpuid_at := @cpuid_at sample_image;
  vcek_buffer_at := @vcek_buffer_at sample_image; sallyport_at := @sallyport_at sample_image;
  mem_start_at := @mem_start_at sample_image; exec_start_at := @exec_start_at sample_image;
  exec_end_at := @exec_end_at sample_image;
|}.

#[local] Instance stingy_machine : Machine (list Z) := {|
  vmmcall v e m := (v, e, m);
  out16 _ _ e m := (e, write_usize (λ _, 0) (sallyport_at + 56) (as_u64 (- ENOSYS)));
  pvalidate_instr rax _ edx e := (0, false, if edx =? 1 then e ++ [rax] else e);
  cpuid_instr _ _ _ := mkCpuidResult 0 0 0 0;
  rdrand64_step _ i := (0%nat, i);
  rdrand_next e := (0%nat, 42, e);
|}.

#[local] Instance stingy_log : ValidationLog (list Z).
Proof.
  refine {| validated e := e |}.
  - by intros v e m v' e' m' [= <- <- <-].
  - by intros p v e m e' m' [= <- <-].
  - by intros e n v e' [= <- <- <-].
  - by intros rax rcx edx e r c e' [= <- <- <-].
Defined.

Definition stingy : world (kvm bump (list (Z * (Z * Z))) (list Z)) :=
  let s := keep (mkHypervisor grants []) in
  mkWorld (mkKvm [] (kv_blocks s) (kv_guard s) (kv_alloc s) (kv_pt s) (kv_brk s) (kv_next_mmap s) (kv_tls s)
    (kv_bases s) None) (λ _, 0).

Lemma stingy_refuses : refuses (w_self stingy).
Proof.
  intros e m n.
  assert (Hret : match with_host_call panic (catch (handler.balloon_memory 12 n (end_of_mem (kv_alloc (w_self stingy)))))
                         (mkWorld (set_env e (w_self stingy)) m) with
                 | Return (Ok (Err _), _) => True
                 | _ => False
                 end) by (vm_compute; exact I).
  destruct (with_host_call _ _ _) as [[[[v|err]|x] w']| | |]; try contradiction Hret. by exists err, w'.
Qed.

Lemma refused_memory_spins_witness : allocate_and_map_memory 1000 0x7f0000000000 0x2000 7 7 stingy = Diverged.
Proof.
  apply (refused_memory_spins 1000 0x7f0000000000 0x2000 7 7 23 stingy);
    [lia|reflexivity|reflexivity|reflexivity|reflexivity|lia|exact stingy_refuses].
Defined.

(** The workload writes to the secrets page of the shim. *)
Lemma set_gs_writes_anywhere_witness : ∃ r' k w',
  _syscall_enter 1 (mkRegs SYS_arch_prctl ARCH_SET_GS (SHIM_VIRT_OFFSET + 0x4000) 0 0 0 0 0xdeadbeef 0 0) first_world =
    Return (Ok (r', k), w') ∧ read_usize (w_mem w') (SHIM_VIRT_OFFSET + 0x4000 + 28) = 0xdeadbeef.
Proof.
  destruct (set_gs_writes_anywhere 1
    (mkRegs SYS_arch_prctl ARCH_SET_GS (SHIM_VIRT_OFFSET + 0x4000) 0 0 0 0 0xdeadbeef 0 0)
    (SHIM_VIRT_OFFSET + 0x4000) first_world) as (r' & k & w' & Eq & _ & Hm & _).
  - right. vm_compute. intuition discriminate.
  - reflexivity.
  - reflexivity.
  - reflexivity.
  - vm_compute. intuition discriminate.
  - vm_compute. by eexists.
  - exact (ex_intro _ r' (ex_intro _ k (ex_intro _ w' (conj Eq Hm)))).
Defined.
