(* ===== verification/CpuidPage.v ===== *)
(** * The CPUID page, from the host to the shim

    [src/backend/sev/cpuid_page.rs] writes the page, [crates/shim-kvm/src/snp/cpuid_page.rs]
    reads it: how what the shim finds for a leaf follows from what KVM supports. *)

From S2P Require Import Prelude Memory Libc PhaseAlloc StagedValues Items Calls CallLaws StageKit.
From S2P Require Import SockTypes Syscalls Stubs SyscallLaws NumberCalls Platform Handler HandlerCalls.
From S2P Require Import Loader SnpLoad SnpLoadLaws KvmMachine Ghcb KvmSample GhcbLaws.

(** ** The import *)

Definition accepted (entries : list KvmCpuidEntry) : list KvmCpuidEntry :=
  filter (λ k, cpuid_in_range (ke_function k)) entries.

(** The list ends at an entry of zeros that follows others, or at one without a function. *)
Definition ends_at (entries : list KvmCpuidEntry) (n : nat) : Prop :=
  ∃ k, entries !! n = Some k ∧
    (ke_function k = 0xFFFFFFFF ∨ ke_function k = 0 ∧ ke_index k = 0 ∧ accepted (take n entries) ≠ []).

Lemma accepted_app l k : accepted (l ++ k) = accepted l ++ accepted k.
Proof. apply filter_app. Qed.

Lemma import_entries_spec entries : ∀ pre functions,
  import_entries entries (snp_cpuid_entry <$> accepted pre) = Some functions →
  (∀ i, (i < length pre)%nat → ¬ ends_at (pre ++ entries) i) →
  ∃ n, functions = snp_cpuid_entry <$> accepted (take n (pre ++ entries)) ∧
    (n = length (pre ++ entries) ∨ ends_at (pre ++ entries) n) ∧ ∀ i, (i < n)%nat → ¬ ends_at (pre ++ entries) i.
Proof.
  induction entries as [|k entries IH]; intros pre functions Eq Hpre; cbn [import_entries] in Eq.
  { injection Eq as <-. exists (length pre). rewrite app_nil_r in *. rewrite firstn_all. auto. }
  assert (Hk : (pre ++ k :: entries) !! length pre = Some k) by (by apply list_lookup_middle).
  assert (Ht : take (length pre) (pre ++ k :: entries) = pre) by (by apply take_app_length').
  rewrite length_fmap in Eq. destruct (_ && _ && _) eqn:E1.
  { injection Eq as <-. exists (length pre). rewrite Ht. split_and!; [done| |done]. right. exists k.
    rewrite Ht. bool_to_prop. split; [done|]. right. split_and!; [done..|]. by destruct (accepted pre). }
  destruct (ke_function k =? 0xFFFFFFFF) eqn:E2.
  { injection Eq as <-. exists (length pre). rewrite Ht. bool_to_prop. split_and!; [done| |done]. right. exists k. auto. }
  assert (Hnext : ∀ i, (i < length (pre ++ [k]))%nat → ¬ ends_at ((pre ++ [k]) ++ entries) i).
  { intros i Hi. rewrite <- app_assoc. cbn [app]. rewrite length_app in Hi. cbn [length] in Hi.
    destruct (decide (i = length pre)) as [->|]; [|apply Hpre; lia]. intros (k' & Hk' & Hs).
    rewrite Hk in Hk'. injection Hk' as <-. rewrite Ht in Hs. apply Z.eqb_neq in E2.
    destruct Hs as [Hs|(Q1 & Q2 & Q3)]; [done|]. rewrite Q1, Q2 in E1. by destruct (accepted pre). }
  replace (pre ++ k :: entries) with ((pre ++ [k]) ++ entries) by (by rewrite <- app_assoc).
  apply IH; [|done]. rewrite accepted_app. unfold accepted at 2.
  destruct (cpuid_in_range (ke_function k)) eqn:E3; cbn [negb] in Eq.
  - rewrite filter_cons_True by (cbn beta; rewrite E3; cbn; tauto). rewrite fmap_app.
    unfold add_entry in Eq. destruct (_ <=? _); [discriminate Eq|]. exact Eq.
  - rewrite filter_cons_False by (cbn beta; rewrite E3; cbn; tauto). by rewrite app_nil_r.
Qed.

(** ** The page *)

Definition is_u32 (z : Z) : Prop := 0 ≤ z < 2 ^ 32.

Definition entry_u32 (e : CpuidEntry) : Prop :=
  is_u32 (ce_eax_in e) ∧ is_u32 (ce_ecx_in e) ∧ is_u32 (ce_eax e) ∧ is_u32 (ce_ebx e) ∧ is_u32 (ce_ecx e) ∧
  is_u32 (ce_edx e).

Definition kvm_entry_u32 (k : KvmCpuidEntry) : Prop :=
  is_u32 (ke_function k) ∧ is_u32 (ke_index k) ∧ is_u32 (ke_eax k) ∧ is_u32 (ke_ebx k) ∧ is_u32 (ke_ecx k) ∧
  is_u32 (ke_edx k).

Lemma snp_cpuid_entry_u32 k : kvm_entry_u32 k → entry_u32 (snp_cpuid_entry k).
Proof.
  unfold kvm_entry_u32, entry_u32, snp_cpuid_entry, is_u32. cbn. intros (? & ? & ? & ? & ? & ?).
  split_and!; repeat case_match; lia.
Qed.

(** The entry as the shim sees it *)
Definition seen (e : CpuidEntry) : CpuidFunctionEntry :=
  mkCpuidFunctionEntry (ce_eax_in e) (ce_ecx_in e) 0 0 (ce_eax e) (ce_ebx e) (ce_ecx e) (ce_edx e).

Lemma read_bytes_part m a n o k : 0 ≤ o → 0 ≤ k → o + k ≤ n →
  read_bytes m (a + o) k = take (Z.to_nat k) (drop (Z.to_nat o) (read_bytes m a n)).
Proof.
  intros Ho Hk Hn. replace n with (o + (k + (n - o - k))) by lia.
  rewrite read_bytes_app, drop_app_length' by (rewrite ?length_read_bytes; lia).
  by rewrite read_bytes_app, take_app_length' by (rewrite ?length_read_bytes; lia).
Qed.

Lemma from_to_u32 z : is_u32 z → from_le_bytes (to_le_bytes 4 z) = z.
Proof. intros Hz. rewrite from_to_le_bytes. unfold is_u32 in Hz. apply Z.mod_small. change (256 ^ Z.of_nat 4) with (2 ^ 32). lia. Qed.

Lemma entry_at_seen m a e :
  entry_u32 e → read_bytes m a 48 = CpuidEntry_bytes e → entry_at m a = seen e.
Proof.
  intros (H1 & H2 & H3 & H4 & H5 & H6) Hr. unfold entry_at, seen, read_u32, read_usize.
  assert (Hp := λ o k, read_bytes_part m a 48 o k). rewrite Hr in Hp.
  rewrite <- (Z.add_0_r a) at 1. rewrite !Hp by lia. unfold CpuidEntry_bytes.
  f_equal; try reflexivity;
    match goal with |- _ = ?z => rewrite <- (from_to_u32 z) at 2 by assumption end; reflexivity.
Qed.

(** Entry [i] of a concatenation of pieces of the same length *)
Lemma concat_piece {A : Type} (n : nat) (ls : list (list A)) (rest : list A) : ∀ i l,
  Forall (λ l, length l = n) ls → ls !! i = Some l → take n (drop (n * i) (concat ls ++ rest)) = l.
Proof.
  induction ls as [|l0 ls IH]; intros i l Hls Hi; [done|]. apply Forall_cons in Hls as [Hl0 Hls].
  cbn [concat]. rewrite <- app_assoc. destruct i as [|i].
  - injection Hi as <-. rewrite Nat.mul_0_r. cbn [drop]. by apply take_app_length'.
  - replace (n * S i)%nat with (length l0 + n * i)%nat by lia. rewrite drop_app_add. by apply IH.
Qed.

Section page.
Context `{Image}.

Lemma get_functions_page m functions : (length functions ≤ 64)%nat → Forall entry_u32 functions →
  read_bytes m cpuid_at PAGE = CpuidPage_bytes functions → get_functions m = Return (seen <$> functions).
Proof.
  intros Hl Hu Hr. assert (Hc : read_u32 m cpuid_at = Z.of_nat (length functions)).
  { unfold read_u32. rewrite <- (Z.add_0_r cpuid_at), (read_bytes_part m cpuid_at PAGE 0 4), Hr by (unfold PAGE; lia).
    change (Z.to_nat 4) with 4%nat. change (Z.to_nat 0) with 0%nat. rewrite drop_0.
    unfold CpuidPage_bytes. rewrite take_app_length' by (by rewrite length_to_le_bytes).
    apply from_to_u32. unfold is_u32; lia. }
  unfold get_functions. rewrite Hc. cbv zeta.
  rewrite (proj2 (Z.leb_le _ COUNT_MAX)) by (unfold COUNT_MAX; lia). f_equal.
  apply list_eq. intros i. rewrite !list_lookup_fmap. destruct (decide (i < length functions)%nat) as [Hi|Hi].
  - destruct (lookup_lt_is_Some_2 functions i Hi) as [e He]. rewrite He, lookup_seqZ_lt by lia. cbn. f_equal.
    apply entry_at_seen; [exact (Forall_lookup_1 _ _ _ _ Hu He)|].
    rewrite <- Z.add_assoc, (read_bytes_part m cpuid_at PAGE), Hr by (unfold PAGE; lia).
    replace (Z.to_nat (16 + 48 * (0 + Z.of_nat i))) with (16 + 48 * i)%nat by lia. change (Z.to_nat 48) with 48%nat.
    unfold CpuidPage_bytes. rewrite app_assoc, <- drop_drop.
    rewrite (drop_app_length' _ _ 16) by (by rewrite length_app, length_to_le_bytes, repeat_length).
    apply concat_piece; [|by rewrite list_lookup_fmap, He].
    apply Forall_fmap, Forall_true. intros; apply CpuidEntry_bytes_length.
  - rewrite (lookup_ge_None_2 functions), lookup_seqZ_ge by lia. done.
Qed.

End page.

(** ** What the page promises

    Written from the CPUID page of the SNP firmware and the ABI of [kvm_cpuid_entry2],
    not from the code that fills the page. *)

(** The leaves the page may hold *)
Definition page_leaf (leaf : Z) : Prop := 0 ≤ leaf < 0xFFFF ∨ 0x80000000 ≤ leaf < 0x8000FFFF.

(** Bit 0 of the flags of an entry says that it is for one sub-leaf; without it the
    entry is for sub-leaf 0 of the page. *)
Definition describes (k : KvmCpuidEntry) (leaf sub_leaf : Z) : Prop :=
  ke_function k = leaf ∧ (Z.testbit (ke_flags k) 0 = true ∧ ke_index k = sub_leaf ∨
                          Z.testbit (ke_flags k) 0 = false ∧ sub_leaf = 0).

(** The list is read up to an entry of function [0xFFFFFFFF], or up to one of function
    and index zero that comes after an entry for the page. *)
Definition list_end (entries : list KvmCpuidEntry) (n : nat) : Prop :=
  ∃ k, entries !! n = Some k ∧
    (ke_function k = 0xFFFFFFFF ∨
     ke_function k = 0 ∧ ke_index k = 0 ∧
       ∃ j k', (j < n)%nat ∧ entries !! j = Some k' ∧ page_leaf (ke_function k')).

(** Entry [i] is the first of those read that describes the leaf. *)
Definition first_of (entries : list KvmCpuidEntry) (leaf sub_leaf : Z) (i : nat) (k : KvmCpuidEntry) : Prop :=
  entries !! i = Some k ∧ describes k leaf sub_leaf ∧
  ∀ j k', (j < i)%nat → entries !! j = Some k' → ¬ describes k' leaf sub_leaf.

Lemma cpuid_in_range_spec leaf : cpuid_in_range leaf = true ↔ page_leaf leaf.
Proof. unfold cpuid_in_range, in_range, page_leaf. cbn. rewrite orb_true_iff, !andb_true_iff. lia. Qed.

Lemma snp_cpuid_entry_describes k leaf sub_leaf :
  ke_function k = leaf ∧ ce_ecx_in (snp_cpuid_entry k) = sub_leaf ↔ describes k leaf sub_leaf.
Proof.
  unfold describes, snp_cpuid_entry. cbn [ce_ecx_in]. unfold KVM_CPUID_FLAG_SIGNIFCANT_INDEX.
  replace (Z.land (ke_flags k) 1) with (Z.b2z (Z.testbit (ke_flags k) 0)).
  2: { change 1 with (Z.ones 1). rewrite Z.land_ones by lia. rewrite Z.bit0_mod. reflexivity. }
  destruct (Z.testbit (ke_flags k) 0); cbn; intuition congruence.
Qed.

Lemma accepted_elem k l : k ∈ accepted l ↔ page_leaf (ke_function k) ∧ k ∈ l.
Proof.
  unfold accepted. rewrite list_elem_of_filter, <- cpuid_in_range_spec.
  destruct (cpuid_in_range (ke_function k)); cbn; intuition discriminate.
Qed.

Lemma ends_at_spec entries n : ends_at entries n ↔ list_end entries n.
Proof.
  unfold ends_at, list_end.
  assert (Hne : accepted (take n entries) ≠ [] ↔
    ∃ j k', (j < n)%nat ∧ entries !! j = Some k' ∧ page_leaf (ke_function k')).
  { split.
    - destruct (accepted (take n entries)) as [|k' l] eqn:Ea; [done|]. intros _.
      assert (Hk : k' ∈ accepted (take n entries)) by (rewrite Ea; left).
      apply accepted_elem in Hk as [Hp Hk]. apply list_elem_of_lookup in Hk as [j Hj].
      apply lookup_take_Some in Hj as [Hj Hn]. by exists j, k'.
    - intros (j & k' & Hj & Hk & Hp) Ea. assert (Hin : k' ∈ accepted (take n entries)).
      { apply accepted_elem. split; [done|]. apply list_elem_of_lookup. exists j. by rewrite lookup_take_lt. }
      rewrite Ea in Hin. by apply not_elem_of_nil in Hin. }
  split; intros (k & Hk & Hs); exists k; (split; [done|]);
    (destruct Hs as [?|(? & ? & ?)]; [by left|right; split_and!; [done..|by apply Hne]]).
Qed.

Section roundtrip.
Context {L P E : Type} `{Machine E, Image}.

(** The entry of the page for a leaf, as the shim returns it; zero for a leaf
    without one. *)
Definition reported (entries : list KvmCpuidEntry) (leaf sub_leaf : Z) : CpuidResult_ :=
  match list_find (λ k, ke_function k = leaf ∧ ce_ecx_in (snp_cpuid_entry k) = sub_leaf) entries with
  | Some (_, k) =>
      let e := snp_cpuid_entry k in mkCpuidResult (ce_eax e) (ce_ebx e) (ce_ecx e) (ce_edx e)
  | None => mkCpuidResult 0 0 0 0
  end.

Lemma find_seen (ks : list KvmCpuidEntry) leaf sub_leaf :
  match list_find (λ e, eax_in e = leaf ∧ ecx_in e = sub_leaf) (seen <$> (snp_cpuid_entry <$> ks)) with
  | Some (_, e) => mkCpuidResult (eax e) (ebx e) (ecx e) (edx e)
  | None => mkCpuidResult 0 0 0 0
  end = reported ks leaf sub_leaf.
Proof.
  unfold reported. induction ks as [|k ks IH]; [done|]. rewrite !fmap_cons. cbn [list_find].
  destruct (decide (ke_function k = leaf ∧ ce_ecx_in (snp_cpuid_entry k) = sub_leaf)) as [D|D].
  - by rewrite decide_True by exact D.
  - rewrite decide_False by exact D. revert IH.
    destruct (list_find _ (seen <$> _)) as [[? ?]|]; destruct (list_find _ ks) as [[? ?]|]; done.
Qed.

(** The page as the shim reads it, in terms of what was imported. *)
Lemma cpuid_count_page entries functions (w : world (kvm L P E)) leaf sub_leaf :
  snp_active = true → Forall kvm_entry_u32 entries → import_entries entries [] = Some functions →
  read_bytes (w_mem w) cpuid_at PAGE = CpuidPage_bytes functions →
  ∃ n, (n = length entries ∨ ends_at entries n) ∧ (∀ i, (i < n)%nat → ¬ ends_at entries i) ∧
    cpuid_count leaf sub_leaf w = Return (Ok (reported (accepted (take n entries)) leaf sub_leaf), w).
Proof.
  intros Ha Hu Hi Hr. pose proof (import_entries_length _ [] _ (Nat.le_0_l 64) Hi) as Hl.
  apply (import_entries_spec entries []) in Hi as (n & -> & Hn & Hn'); [|cbn; lia]. exists n.
  split; [exact Hn|]. split; [exact Hn'|]. clear Hn Hn'. rewrite app_nil_l in *.
  set (ks := accepted (take n entries)) in *.
  assert (Hks : Forall entry_u32 (snp_cpuid_entry <$> ks)).
  { apply Forall_fmap, Forall_forall. intros k Hk. apply snp_cpuid_entry_u32. rewrite Forall_forall in Hu.
    apply Hu. apply list_elem_of_filter in Hk as [_ Hk]. exact (subseteq_take _ _ _ Hk). }
  unfold cpuid_count. rewrite Ha. cbn [negb]. unfold reads, mbind, handlerM_bind, fal_bind, must. cbv beta iota.
  rewrite (get_functions_page _ _ Hl Hks Hr). rewrite <- (find_seen ks leaf sub_leaf).
  by destruct (list_find _ _) as [[? ?]|].
Qed.

Lemma reported_first l leaf sub_leaf : page_leaf leaf → ∀ i k, first_of l leaf sub_leaf i k →
  reported (accepted l) leaf sub_leaf =
    mkCpuidResult (ke_eax k) (if bool_decide (leaf = 0xD ∧ (sub_leaf = 0 ∨ sub_leaf = 1)) then 0x240 else ke_ebx k)
      (ke_ecx k) (ke_edx k).
Proof.
  intros Hp. induction l as [|k0 l IH]; intros i k (Hi & Hd & Hfirst); [done|].
  destruct i as [|i]; cbn in Hi.
  - injection Hi as ->. unfold reported, accepted.
    rewrite filter_cons_True by (destruct Hd as [-> _]; apply cpuid_in_range_spec in Hp; by rewrite Hp).
    cbn [list_find]. pose proof (proj2 (snp_cpuid_entry_describes _ _ _) Hd) as Hs.
    rewrite decide_True by exact Hs. destruct Hs as [Hs1 Hs2]. revert Hs2. unfold snp_cpuid_entry. cbn.
    intros ->. rewrite Hs1. f_equal. case_bool_decide as Hb; case_match; bool_to_prop; try done; exfalso; lia.
  - rewrite <- (IH i k); [|split_and!; [done..|]; intros j k' Hj; apply (Hfirst (S j)); lia].
    unfold accepted. destruct (cpuid_in_range (ke_function k0)) eqn:Er.
    + rewrite filter_cons_True by (by rewrite Er). unfold reported. cbn [list_find].
      rewrite decide_False; [by destruct (list_find _ _) as [[? ?]|]|].
      rewrite snp_cpuid_entry_describes. apply (Hfirst 0%nat); [lia|done].
    + by rewrite filter_cons_False by (rewrite Er; tauto).
Qed.

Lemma reported_none l leaf sub_leaf :
  (page_leaf leaf → ∀ i k, l !! i = Some k → ¬ describes k leaf sub_leaf) →
  reported (accepted l) leaf sub_leaf = mkCpuidResult 0 0 0 0.
Proof.
  intros Hn. unfold reported. destruct (list_find _ _) as [[j k]|] eqn:Ef; [exfalso|done].
  apply list_find_Some in Ef as (Hk & Hd & _). apply snp_cpuid_entry_describes in Hd.
  assert (Hin : k ∈ accepted l) by (apply list_elem_of_lookup; by exists j).
  apply accepted_elem in Hin as [Hp Hin]. apply list_elem_of_lookup in Hin as [i Hi].
  refine (Hn _ i k Hi Hd). destruct Hd as [<- _]. exact Hp.
Qed.

(** C31: the CPUID page carries the entries KVM supports into the keep.  If the host
    imports the entries into the page, and the page of the shim holds these bytes, then
    the entries read are those before the end of the list, and the shim answers CPUID
    for a leaf and sub-leaf as follows.  If the leaf is one the page may hold and an
    entry describes it, with the registers of the first such entry, each in its place,
    except that EBX of leaf 0xD, sub-leaves 0 and 1, is always 0x240.  If no entry
    describes it, or the leaf is not one the page may hold (whatever KVM says of it),
    with zeros. *)
Theorem cpuid_roundtrip entries functions (w : world (kvm L P E)) leaf sub_leaf :
  snp_active = true → Forall kvm_entry_u32 entries → import_entries entries [] = Some functions →
  read_bytes (w_mem w) cpuid_at PAGE = CpuidPage_bytes functions →
  ∃ n r, (n = length entries ∨ list_end entries n) ∧ (∀ i, (i < n)%nat → ¬ list_end entries i) ∧
    cpuid_count leaf sub_leaf w = Return (Ok r, w) ∧
    (page_leaf leaf → ∀ i k, first_of (take n entries) leaf sub_leaf i k →
       r = mkCpuidResult (ke_eax k)
         (if bool_decide (leaf = 0xD ∧ (sub_leaf = 0 ∨ sub_leaf = 1)) then 0x240 else ke_ebx k)
         (ke_ecx k) (ke_edx k)) ∧
    ((page_leaf leaf → ∀ i k, take n entries !! i = Some k → ¬ describes k leaf sub_leaf) →
       r = mkCpuidResult 0 0 0 0).
Proof.
  intros Ha Hu Hi Hr. destruct (cpuid_count_page _ _ _ leaf sub_leaf Ha Hu Hi Hr) as (n & Hn & Hf & Eq).
  exists n, (reported (accepted (take n entries)) leaf sub_leaf). rewrite <- ends_at_spec.
  split_and!; [exact Hn|intros i Hlt; rewrite <- ends_at_spec; exact (Hf i Hlt)|exact Eq| |].
  - exact (reported_first _ _ _).
  - exact (reported_none _ _ _).
Qed.

End roundtrip.

(** The basic leaf, an extended leaf, one out of range, and the end *)
Definition kvm_entries : list KvmCpuidEntry :=
  [mkKvmCpuidEntry 0 0 0 16 1 2 3; mkKvmCpuidEntry 0xD 1 1 15 832 4 5; mkKvmCpuidEntry 0x40000000 0 0 9 9 9 9;
   mkKvmCpuidEntry 0x80000000 0 0 8 6 7 8; mkKvmCpuidEntry 0 0 0 0 0 0 0].

Definition page_world : world (kvm unit unit hypervisor) :=
  let w := sample_world id in
  mkWorld (w_self w) (write_bytes (w_mem w) cpuid_at (CpuidPage_bytes (snp_cpuid_entry <$>
    accepted (take 4 kvm_entries)))).

Lemma cpuid_roundtrip_witness :
  cpuid_count 0xD 1 page_world = Return (Ok (mkCpuidResult 15 0x240 4 5), page_world).
Proof.
  destruct (cpuid_roundtrip kvm_entries (snp_cpuid_entry <$> accepted (take 4 kvm_entries)) page_world 0xD 1)
    as (n & r & Hn & Hf & Eq & Hr & _).
  - reflexivity.
  - repeat constructor; cbn; lia.
  - vm_compute. reflexivity.
  - apply read_write_same. symmetry. apply CpuidPage_bytes_length. vm_compute. lia.
  - assert (n = 4%nat) as ->.
    { assert (H4 : ends_at kvm_entries 4) by (eexists; split; [reflexivity|]; right; done).
      apply ends_at_spec in H4.
      destruct (decide (4 < n)%nat) as [Hlt|Hge]; [by destruct (Hf 4%nat Hlt)|].
      destruct Hn as [->|(k & Hk & Hs)]; [destruct Hge; cbn; lia|].
      destruct n as [|[|[|[|[|n]]]]]; [..|lia]; injection Hk as <-;
        destruct Hs as [Hs|(Q1 & Q2 & j & k' & Hj & _)]; try done; lia. }
    rewrite Eq. rewrite (Hr ltac:(left; lia) 1%nat (mkKvmCpuidEntry 0xD 1 1 15 832 4 5)); [reflexivity|].
    split; [reflexivity|]. split; [by split; [|left]|].
    intros j k' Hj Hk [Hd _]. destruct j as [|j]; [|lia]. injection Hk as <-. discriminate Hd.
Defined.
