(* ===== verification/Asm.v ===== *)
(** * The instructions of the naked functions

    A model of the part of x86-64 that the assembly in [crates/shim-kvm/src] and
    [crates/shim-sgx/src] uses: general registers, the memory, the bases of [gs],
    the extended state as one value, control and model-specific registers.  Of the
    flags that arithmetic writes only the zero flag is modelled, no code here tests
    another; the flags that arithmetic does not write are one word.
    Programs are lists of instructions with numeric local labels, as in the
    sources.  A [call] is given as what the callee does until it returns. *)

From S2P Require Import Prelude Memory.

Inductive reg : Type :=
  | RAX | RBX | RCX | RDX | RSI | RDI | RBP | RSP | R8 | R9 | R10 | R11 | R12 | R13 | R14 | R15.
#[global] Instance reg_eq_dec : EqDecision reg.
Proof. solve_decision. Defined.

(** Control registers, segment selectors *)
Inductive sreg : Type := CR0 | CR3 | CR4 | DS | ES | FS | SS.
#[global] Instance sreg_eq_dec : EqDecision sreg.
Proof. solve_decision. Defined.

Definition is_selector (s : sreg) : bool := match s with CR0 | CR3 | CR4 => false | _ => true end.

Record regs : Type := mkGprs {
  v_rax : Z; v_rbx : Z; v_rcx : Z; v_rdx : Z; v_rsi : Z; v_rdi : Z; v_rbp : Z; v_rsp : Z;
  v_r8 : Z; v_r9 : Z; v_r10 : Z; v_r11 : Z; v_r12 : Z; v_r13 : Z; v_r14 : Z; v_r15 : Z;
}.
Definition get (g : regs) (r : reg) : Z :=
  match r with
  | RAX => v_rax g
  | RBX => v_rbx g
  | RCX => v_rcx g
  | RDX => v_rdx g
  | RSI => v_rsi g
  | RDI => v_rdi g
  | RBP => v_rbp g
  | RSP => v_rsp g
  | R8 => v_r8 g
  | R9 => v_r9 g
  | R10 => v_r10 g
  | R11 => v_r11 g
  | R12 => v_r12 g
  | R13 => v_r13 g
  | R14 => v_r14 g
  | R15 => v_r15 g
  end.
Definition upd (g : regs) (r : reg) (v : Z) : regs :=
  match r with
  | RAX => mkGprs v (v_rbx g) (v_rcx g) (v_rdx g) (v_rsi g) (v_rdi g) (v_rbp g) (v_rsp g) (v_r8 g) (v_r9 g) (v_r10 g) (v_r11 g) (v_r12 g) (v_r13 g) (v_r14 g) (v_r15 g)
  | RBX => mkGprs (v_rax g) v (v_rcx g) (v_rdx g) (v_rsi g) (v_rdi g) (v_rbp g) (v_rsp g) (v_r8 g) (v_r9 g) (v_r10 g) (v_r11 g) (v_r12 g) (v_r13 g) (v_r14 g) (v_r15 g)
  | RCX => mkGprs (v_rax g) (v_rbx g) v (v_rdx g) (v_rsi g) (v_rdi g) (v_rbp g) (v_rsp g) (v_r8 g) (v_r9 g) (v_r10 g) (v_r11 g) (v_r12 g) (v_r13 g) (v_r14 g) (v_r15 g)
  | RDX => mkGprs (v_rax g) (v_rbx g) (v_rcx g) v (v_rsi g) (v_rdi g) (v_rbp g) (v_rsp g) (v_r8 g) (v_r9 g) (v_r10 g) (v_r11 g) (v_r12 g) (v_r13 g) (v_r14 g) (v_r15 g)
  | RSI => mkGprs (v_rax g) (v_rbx g) (v_rcx g) (v_rdx g) v (v_rdi g) (v_rbp g) (v_rsp g) (v_r8 g) (v_r9 g) (v_r10 g) (v_r11 g) (v_r12 g) (v_r13 g) (v_r14 g) (v_r15 g)
  | RDI => mkGprs (v_rax g) (v_rbx g) (v_rcx g) (v_rdx g) (v_rsi g) v (v_rbp g) (v_rsp g) (v_r8 g) (v_r9 g) (v_r10 g) (v_r11 g) (v_r12 g) (v_r13 g) (v_r14 g) (v_r15 g)
  | RBP => mkGprs (v_rax g) (v_rbx g) (v_rcx g) (v_rdx g) (v_rsi g) (v_rdi g) v (v_rsp g) (v_r8 g) (v_r9 g) (v_r10 g) (v_r11 g) (v_r12 g) (v_r13 g) (v_r14 g) (v_r15 g)
  | RSP => mkGprs (v_rax g) (v_rbx g) (v_rcx g) (v_rdx g) (v_rsi g) (v_rdi g) (v_rbp g) v (v_r8 g) (v_r9 g) (v_r10 g) (v_r11 g) (v_r12 g) (v_r13 g) (v_r14 g) (v_r15 g)
  | R8 => mkGprs (v_rax g) (v_rbx g) (v_rcx g) (v_rdx g) (v_rsi g) (v_rdi g) (v_rbp g) (v_rsp g) v (v_r9 g) (v_r10 g) (v_r11 g) (v_r12 g) (v_r13 g) (v_r14 g) (v_r15 g)
  | R9 => mkGprs (v_rax g) (v_rbx g) (v_rcx g) (v_rdx g) (v_rsi g) (v_rdi g) (v_rbp g) (v_rsp g) (v_r8 g) v (v_r10 g) (v_r11 g) (v_r12 g) (v_r13 g) (v_r14 g) (v_r15 g)
  | R10 => mkGprs (v_rax g) (v_rbx g) (v_rcx g) (v_rdx g) (v_rsi g) (v_rdi g) (v_rbp g) (v_rsp g) (v_r8 g) (v_r9 g) v (v_r11 g) (v_r12 g) (v_r13 g) (v_r14 g) (v_r15 g)
  | R11 => mkGprs (v_rax g) (v_rbx g) (v_rcx g) (v_rdx g) (v_rsi g) (v_rdi g) (v_rbp g) (v_rsp g) (v_r8 g) (v_r9 g) (v_r10 g) v (v_r12 g) (v_r13 g) (v_r14 g) (v_r15 g)
  | R12 => mkGprs (v_rax g) (v_rbx g) (v_rcx g) (v_rdx g) (v_rsi g) (v_rdi g) (v_rbp g) (v_rsp g) (v_r8 g) (v_r9 g) (v_r10 g) (v_r11 g) v (v_r13 g) (v_r14 g) (v_r15 g)
  | R13 => mkGprs (v_rax g) (v_rbx g) (v_rcx g) (v_rdx g) (v_rsi g) (v_rdi g) (v_rbp g) (v_rsp g) (v_r8 g) (v_r9 g) (v_r10 g) (v_r11 g) (v_r12 g) v (v_r14 g) (v_r15 g)
  | R14 => mkGprs (v_rax g) (v_rbx g) (v_rcx g) (v_rdx g) (v_rsi g) (v_rdi g) (v_rbp g) (v_rsp g) (v_r8 g) (v_r9 g) (v_r10 g) (v_r11 g) (v_r12 g) (v_r13 g) v (v_r15 g)
  | R15 => mkGprs (v_rax g) (v_rbx g) (v_rcx g) (v_rdx g) (v_rsi g) (v_rdi g) (v_rbp g) (v_rsp g) (v_r8 g) (v_r9 g) (v_r10 g) (v_r11 g) (v_r12 g) (v_r13 g) (v_r14 g) v
  end.

Record cpu : Type := mkCpu {
  gprs : regs;
  zf : bool;
  (** the flags that arithmetic does not write *)
  flags : Z;
  xstate : Z;
  gs : Z;
  kernel_gs : Z;
  sysreg : sreg → Z;
  msr : Z → Z;
  cmem : mem;
}.

Inductive opnd : Type :=
  | R (r : reg)
  | E (r : reg)                          (** the low half of a register *)
  | W (r : reg)                          (** the low 16 bits of a register *)
  | Imm (z : Z)
  | Q (base : option reg) (disp : Z)     (** QWORD PTR [base + disp] *)
  | QX (base index : reg)                (** QWORD PTR [base + index * 8] *)
  | D (base : option reg) (disp : Z)     (** DWORD PTR [base + disp] *)
  | GS (disp : Z).                       (** QWORD PTR gs:disp *)

Inductive alu : Type := ADD | SUB | AND | OR | XOR | SHL.

Inductive dir : Type := f_ | b_.

Inductive instr : Type :=
  | Label (n : Z)
  | Push (s : opnd)
  | Pop (d : opnd)
  | Mov (d s : opnd)
  | Xchg (d : opnd) (r : reg)
  | Lea (r : reg) (base : option reg) (disp : Z)
  | Alu (op : alu) (d s : opnd)
  (** of a register of 32 bits *)
  | Bts (d s : reg)
  | Cmp (a b : opnd)
  | Test (a b : opnd)
  | Jmp (n : Z) (d : dir)
  | Je (n : Z) (d : dir)
  | Jne (n : Z) (d : dir)
  | Loop (n : Z) (d : dir)
  | Call (f : nat)
  | Swapgs
  | Lfence
  | Cld
  | Pushfq
  | Popfq
  | Xsave (r : reg)
  | Xrstor (r : reg)
  (** [xrstor] of the initial state *)
  | XrstorInit
  | MovTo (s : sreg) (r : reg)
  | MovFrom (r : reg) (s : sreg)
  | Rdmsr
  | Wrmsr
  | JmpReg (r : reg)
  | Vmmcall
  | Hlt
  | Ret
  | Iretq
  | Sysretq
  | Enclu
  | FarJmp.

(** ** State *)

Definition gpr (c : cpu) (r : reg) : Z := get (gprs c) r.

Definition set_gpr (r : reg) (v : Z) (c : cpu) : cpu :=
  mkCpu (upd (gprs c) r v) (zf c) (flags c) (xstate c) (gs c) (kernel_gs c) (sysreg c) (msr c) (cmem c).
Definition set_zf (z : bool) (c : cpu) : cpu :=
  mkCpu (gprs c) z (flags c) (xstate c) (gs c) (kernel_gs c) (sysreg c) (msr c) (cmem c).
Definition set_flags (z : bool) (fl : Z) (c : cpu) : cpu :=
  mkCpu (gprs c) z fl (xstate c) (gs c) (kernel_gs c) (sysreg c) (msr c) (cmem c).
Definition set_xstate (x : Z) (c : cpu) : cpu :=
  mkCpu (gprs c) (zf c) (flags c) x (gs c) (kernel_gs c) (sysreg c) (msr c) (cmem c).
Definition set_cmem (m : mem) (c : cpu) : cpu :=
  mkCpu (gprs c) (zf c) (flags c) (xstate c) (gs c) (kernel_gs c) (sysreg c) (msr c) m.
Definition set_sysreg (s : sreg) (v : Z) (c : cpu) : cpu :=
  mkCpu (gprs c) (zf c) (flags c) (xstate c) (gs c) (kernel_gs c)
    (λ s', if decide (s = s') then v else sysreg c s') (msr c) (cmem c).
Definition set_msr (n v : Z) (c : cpu) : cpu :=
  mkCpu (gprs c) (zf c) (flags c) (xstate c) (gs c) (kernel_gs c) (sysreg c)
    (λ n', if decide (n = n') then v else msr c n') (cmem c).
Definition swap_gs (c : cpu) : cpu :=
  mkCpu (gprs c) (zf c) (flags c) (xstate c) (kernel_gs c) (gs c) (sysreg c) (msr c) (cmem c).

(** ** Operands *)

Definition base_of (b : option reg) (c : cpu) : Z := match b with Some r => gpr c r | None => 0 end.

Definition read_opnd (o : opnd) (c : cpu) : Z :=
  match o with
  | R r => gpr c r
  | E r => as_u32 (gpr c r)
  | W r => gpr c r mod 2 ^ 16
  | Imm z => as_usize z
  | Q b d => read_usize (cmem c) (as_usize (base_of b c + d))
  | QX b i => read_usize (cmem c) (as_usize (gpr c b + gpr c i * 8))
  | D b d => read_u32 (cmem c) (as_usize (base_of b c + d))
  | GS d => read_usize (cmem c) (as_usize (gs c + d))
  end.

Definition write_opnd (o : opnd) (v : Z) (c : cpu) : cpu :=
  match o with
  | R r => set_gpr r (as_usize v) c
  | E r => set_gpr r (as_u32 v) c
  | W r => set_gpr r (gpr c r / 2 ^ 16 * 2 ^ 16 + v mod 2 ^ 16) c
  | Imm _ => c
  | Q b d => set_cmem (write_usize (cmem c) (as_usize (base_of b c + d)) v) c
  | QX b i => set_cmem (write_usize (cmem c) (as_usize (gpr c b + gpr c i * 8)) v) c
  | D b d => set_cmem (write_bytes (cmem c) (as_usize (base_of b c + d)) (to_le_bytes 4 v)) c
  | GS d => set_cmem (write_usize (cmem c) (as_usize (gs c + d)) v) c
  end.

(** A result at the width of the destination *)
Definition trunc (o : opnd) (v : Z) : Z := match o with E _ | D _ _ => as_u32 v | W _ => v mod 2 ^ 16 | _ => as_usize v end.

Definition alu_result (op : alu) (a b : Z) : Z :=
  match op with
  | ADD => a + b
  | SUB => a - b
  | AND => Z.land a b
  | OR => Z.lor a b
  | XOR => Z.lxor a b
  | SHL => Z.shiftl a (b mod 64)
  end.

Definition push (v : Z) (c : cpu) : cpu :=
  let sp := as_usize (gpr c RSP - 8) in
  set_cmem (write_usize (cmem c) sp v) (set_gpr RSP sp c).

(** [pop]: an operand is written with the stack pointer already moved. *)
Definition pop (o : opnd) (c : cpu) : cpu :=
  let v := read_usize (cmem c) (gpr c RSP) in
  write_opnd o v (set_gpr RSP (as_usize (gpr c RSP + 8)) c).

Definition flags_word (c : cpu) : Z := Z.lor (flags c) (if zf c then 64 else 0).

(** How the control leaves a piece of assembly *)
Inductive exit : Type :=
  | by_ret | by_iretq | by_sysretq | by_enclu | by_jmp (a : Z) | by_far | by_vmmcall | by_hlt.

(** ** Steps *)

(** The extended state in memory is stored and loaded as a whole. *)
Class XState := {
  xsave_area : Z → list Z;
  xrstor_area : list Z → Z;
  XSAVE_AREA_SIZE : Z;
  (** the state of [XSave::DEFAULT] *)
  xinit : Z;
}.

Section machine.
Context `{XState}.

(** Instructions that fall through; a [Call] is made by the environment. *)
Definition exec (env : nat → cpu → outcome cpu) (i : instr) (c : cpu) : outcome cpu :=
  match i with
  | Label _ | Lfence => Return c
  | Push s => Return (push (read_opnd s c) c)
  | Pop d => Return (pop d c)
  | Mov d s => Return (write_opnd d (read_opnd s c) c)
  | Xchg d r => let v := read_opnd d c in Return (set_gpr r v (write_opnd d (gpr c r) c))
  | Lea r b d => Return (set_gpr r (as_usize (base_of b c + d)) c)
  | Alu op d s =>
      let v := trunc d (alu_result op (read_opnd d c) (read_opnd s c)) in
      Return (set_zf (v =? 0) (write_opnd d v c))
  | Bts d s => Return (set_gpr d (Z.lor (as_u32 (gpr c d)) (Z.shiftl 1 (gpr c s mod 32))) c)
  | Cmp a b => Return (set_zf (trunc a (read_opnd a c - read_opnd b c) =? 0) c)
  | Test a b => Return (set_zf (Z.land (read_opnd a c) (read_opnd b c) =? 0) c)
  | Call f => env f c
  | Swapgs => Return (swap_gs c)
  | Cld => Return (set_flags (zf c) (Z.clearbit (flags c) 10) c)
  | Pushfq => Return (push (flags_word c) c)
  | Popfq =>
      let v := read_usize (cmem c) (gpr c RSP) in
      Return (set_flags (Z.testbit v 6) (Z.clearbit v 6) (set_gpr RSP (as_usize (gpr c RSP + 8)) c))
  | Xsave r => Return (set_cmem (write_bytes (cmem c) (gpr c r) (xsave_area (xstate c))) c)
  | Xrstor r => Return (set_xstate (xrstor_area (read_bytes (cmem c) (gpr c r) XSAVE_AREA_SIZE)) c)
  | XrstorInit => Return (set_xstate xinit c)
  | MovTo s r => Return (set_sysreg s (if is_selector s then gpr c r mod 2 ^ 16 else gpr c r) c)
  | MovFrom r s => Return (set_gpr r (sysreg c s) c)
  | Rdmsr =>
      let v := msr c (as_u32 (gpr c RCX)) in Return (set_gpr RDX (Z.shiftr v 32) (set_gpr RAX (as_u32 v) c))
  | Wrmsr =>
      Return (set_msr (as_u32 (gpr c RCX)) (Z.lor (Z.shiftl (as_u32 (gpr c RDX)) 32) (as_u32 (gpr c RAX))) c)
  | _ => Return c
  end.

(** The position after the next label [n] in a direction *)
Definition is_label (n : Z) (i : instr) : bool := match i with Label m => m =? n | _ => false end.
Definition target (code : list instr) (pc : nat) (n : Z) (d : dir) : option nat :=
  match d with
  | f_ => (λ '(i, _), (pc + i)%nat) <$> list_find (is_label n) (drop pc code)
  | b_ => (λ '(i, _), (pc - S i)%nat) <$> list_find (is_label n) (reverse (take pc code))
  end.

(** Where the control goes *)
Inductive next : Type := goto (pc : nat) | leave (e : exit).

Definition jump (code : list instr) (pc : nat) (n : Z) (d : dir) (taken : bool) : outcome next :=
  if taken then match target code pc n d with Some pc => Return (goto pc) | None => Panicked end
  else Return (goto (S pc)).

Definition step (env : nat → cpu → outcome cpu) (code : list instr) (c : cpu) (pc : nat) : outcome (cpu * next) :=
  match code !! pc with
  | None => Panicked
  | Some i =>
      match i with
      | Jmp n d => t ← jump code pc n d true; Return (c, t)
      | Je n d => t ← jump code pc n d (zf c); Return (c, t)
      | Jne n d => t ← jump code pc n d (negb (zf c)); Return (c, t)
      | Loop n d =>
          let v := as_usize (gpr c RCX - 1) in
          t ← jump code pc n d (negb (v =? 0)); Return (set_gpr RCX v c, t)
      | Ret => Return (c, leave by_ret)
      | Iretq => Return (c, leave by_iretq)
      | Sysretq => Return (c, leave by_sysretq)
      | Enclu => Return (c, leave by_enclu)
      | JmpReg r => Return (c, leave (by_jmp (gpr c r)))
      | Vmmcall => Return (c, leave by_vmmcall)
      | Hlt => Return (c, leave by_hlt)
      | FarJmp => Return (c, leave by_far)
      | _ => c ← exec env i c; Return (c, goto (S pc))
      end
  end.

Fixpoint run (fuel : nat) (env : nat → cpu → outcome cpu) (code : list instr) (c : cpu) (pc : nat)
    : outcome (exit * cpu) :=
  match fuel with
  | O => Diverged
  | S fuel =>
      '(c, t) ← step env code c pc;
      match t with goto pc => run fuel env code c pc | leave e => Return (e, c) end
  end.

(** A call of a function that is written in assembly: the return address is pushed,
    and popped by [ret]. *)
Definition asm_call (fuel : nat) (env : nat → cpu → outcome cpu) (code : list instr) (ret : Z) (c : cpu) : outcome cpu :=
  '(e, c) ← run fuel env code (push ret c) 0;
  match e with
  | by_ret =>
      if read_usize (cmem c) (gpr c RSP) =? ret then Return (set_gpr RSP (as_usize (gpr c RSP + 8)) c) else Panicked
  | _ => Panicked
  end.

End machine.

(** What compiled code preserves (System V) *)
Definition callee_saved : list reg := [RBX; RBP; RSP; R12; R13; R14; R15].
