(* ===== verification/AsmLaws.v ===== *)
(** * Running assembly

    Straight pieces of code, sequences of [push] and [pop], and what a compiled
    function preserves. *)

From S2P Require Import Prelude Memory Asm.

Lemma outcome_bind_return {A B : Type} (a : A) (f : A → outcome B) : (Return a ≫= f) = f a.
Proof. done. Qed.

(** ** Registers *)

Lemma get_upd_same g r v : get (upd g r v) r = v.
Proof. by destruct r. Qed.
Lemma get_upd_other g r r' v : r ≠ r' → get (upd g r v) r' = get g r'.
Proof. by destruct r, r'. Qed.
Lemma upd_upd g r v v' : upd (upd g r v) r v' = upd g r v'.
Proof. by destruct r. Qed.
Lemma upd_get g r : upd g r (get g r) = g.
Proof. by destruct g, r. Qed.
Lemma upd_swap g r r' v v' : r ≠ r' → upd (upd g r v) r' v' = upd (upd g r' v') r v.
Proof. by destruct r, r'. Qed.

Lemma regs_eq g g' : (∀ r, get g r = get g' r) → g = g'.
Proof.
  intros E. destruct g, g'. f_equal; [exact (E RAX)|exact (E RBX)|exact (E RCX)|exact (E RDX)|exact (E RSI)|
    exact (E RDI)|exact (E RBP)|exact (E RSP)|exact (E R8)|exact (E R9)|exact (E R10)|exact (E R11)|exact (E R12)|
    exact (E R13)|exact (E R14)|exact (E R15)].
Qed.

Lemma reg_not_in (r : reg) (l : list reg) : bool_decide (r ∉ l) = true → r ∉ l.
Proof. apply bool_decide_eq_true_1. Qed.
Lemma regs_NoDup (l : list reg) : bool_decide (NoDup l) = true → NoDup l.
Proof. apply bool_decide_eq_true_1. Qed.

Definition is_word (z : Z) : Prop := 0 ≤ z < 2 ^ 64.
Lemma as_usize_word z : is_word z → as_usize z = z.
Proof. intros Hz. apply as_usize_small. unfold is_word, is_usize, usize_MAX in *. lia. Qed.
Lemma is_word_usize z : is_word z → is_usize z.
Proof. unfold is_word, is_usize, usize_MAX. lia. Qed.

(** ** Words of memory *)

Lemma read_write_usize_other m a b v : a + 8 ≤ b ∨ b + 8 ≤ a → read_usize (write_usize m a v) b = read_usize m b.
Proof.
  intros H. apply read_usize_ext. intros x Hx. apply write_bytes_outside. rewrite length_to_le_bytes. lia.
Qed.

Lemma write_usize_outside m a v x : x < a ∨ a + 8 ≤ x → write_usize m a v x = m x.
Proof. intros H. apply write_bytes_outside. rewrite length_to_le_bytes. lia. Qed.

(** The words [vs], pushed below [sp] *)
Fixpoint push_words (m : mem) (sp : Z) (vs : list Z) : mem :=
  match vs with [] => m | v :: vs => push_words (write_usize m (sp - 8) v) (sp - 8) vs end.

Lemma push_words_outside vs : ∀ m sp x, x < sp - 8 * Z.of_nat (length vs) ∨ sp ≤ x → push_words m sp vs x = m x.
Proof.
  induction vs as [|v vs IH]; intros m sp x Hx; [done|]. cbn [push_words length] in *.
  rewrite IH by lia. apply write_usize_outside. lia.
Qed.

Lemma push_words_read vs : ∀ m sp i v, Forall is_word vs → vs !! i = Some v →
  read_usize (push_words m sp vs) (sp - 8 * (Z.of_nat i + 1)) = v.
Proof.
  induction vs as [|v0 vs IH]; intros m sp i v Hv Hi; [done|]. apply Forall_cons in Hv as [Hv0 Hvs].
  cbn [push_words]. destruct i as [|i].
  - injection Hi as <-. rewrite <- (read_write_usize m (sp - 8) v0) at 2 by (by apply is_word_usize).
    replace (sp - 8 * (Z.of_nat 0 + 1)) with (sp - 8) by lia.
    apply read_usize_ext. intros x Hx. apply push_words_outside. lia.
  - replace (sp - 8 * (Z.of_nat (S i) + 1)) with (sp - 8 - 8 * (Z.of_nat i + 1)) by lia. by apply IH.
Qed.

Lemma write_usize_inside m m' a v x : a ≤ x < a + 8 → write_usize m a v x = write_usize m' a v x.
Proof.
  intros Hx. unfold write_usize, write_bytes. rewrite (proj2 (Z.leb_le a x)) by lia.
  destruct (lookup_lt_is_Some_2 (to_le_bytes 8 v) (Z.to_nat (x - a))) as [b ->]; [rewrite length_to_le_bytes; lia|done].
Qed.

Lemma push_words_app vs ws : ∀ m sp,
  push_words m sp (vs ++ ws) = push_words (push_words m sp vs) (sp - 8 * Z.of_nat (length vs)) ws.
Proof.
  induction vs as [|v vs IH]; intros m sp; cbn [push_words app length]; [f_equal; lia|]. rewrite IH. f_equal. lia.
Qed.

Lemma push_words_inside vs : ∀ m m' sp x, sp - 8 * Z.of_nat (length vs) ≤ x < sp →
  push_words m sp vs x = push_words m' sp vs x.
Proof.
  induction vs as [|v vs IH]; intros m m' sp x Hx; cbn [push_words length] in *; [lia|].
  destruct (decide (x < sp - 8)) as [H|H]; [apply IH; lia|].
  rewrite !push_words_outside by lia. apply write_usize_inside. lia.
Qed.

Lemma read_word m a : mem_wf m → is_word (read_usize m a).
Proof. intros Hm. pose proof (read_usize_range m a Hm) as Q. unfold is_usize, usize_MAX, is_word in *. lia. Qed.

Section run.
Context `{XState}.
Variable env : nat → cpu → outcome cpu.

(** ** Straight code *)

Definition straight (i : instr) : bool :=
  match i with
  | Jmp _ _ | Je _ _ | Jne _ _ | Loop _ _ | Ret | Iretq | Sysretq | Enclu | JmpReg _ | Vmmcall | Hlt | FarJmp => false
  | _ => true
  end.

Fixpoint exec_all (l : list instr) (c : cpu) : outcome cpu :=
  match l with [] => Return c | i :: l => c ← exec env i c; exec_all l c end.

Lemma exec_all_cons i l c c1 : exec env i c = Return c1 → exec_all (i :: l) c = exec_all l c1.
Proof. intros E. cbn [exec_all]. by rewrite E. Qed.

Lemma exec_all_nil c : exec_all [] c = Return c.
Proof. done. Qed.

Lemma exec_all_app l k c : exec_all (l ++ k) c = (exec_all l c ≫= exec_all k).
Proof.
  revert c. induction l as [|i l IH]; intros c; [done|]. cbn [exec_all app]. destruct (exec env i c); try done.
  cbn [mbind outcome_bind]. apply IH.
Qed.

Lemma step_straight code c pc i : code !! pc = Some i → straight i = true →
  step env code c pc = (exec env i c ≫= λ c, Return (c, goto (S pc))).
Proof. intros Hi Hs. unfold step. rewrite Hi. by destruct i. Qed.

Lemma run_step fuel code c pc :
  run (S fuel) env code c pc = ('(c, t) ← step env code c pc;
    match t with goto pc => run fuel env code c pc | leave e => Return (e, c) end).
Proof. done. Qed.

Lemma run_straight code l : ∀ fuel c pc, take (length l) (drop pc code) = l → forallb straight l = true →
  run (length l + fuel) env code c pc = (exec_all l c ≫= λ c, run fuel env code c (pc + length l)).
Proof.
  induction l as [|i l IH]; intros fuel c pc Hc Hs; cbn [length exec_all].
  { cbn. by rewrite Nat.add_0_r. }
  cbn [forallb] in Hs. apply andb_true_iff in Hs as [Hi Hs].
  assert (Hl : code !! pc = Some i).
  { rewrite <- (Nat.add_0_r pc), <- lookup_drop. cbn [length] in Hc. destruct (drop pc code); [done|].
    by injection Hc as -> _. }
  change (S (length l) + fuel)%nat with (S (length l + fuel)). rewrite run_step, (step_straight _ _ _ _ Hl Hi).
  destruct (exec env i c) as [c1| | |]; try done. cbn [mbind outcome_bind].
  rewrite (IH fuel c1 (S pc)); [|cbn [length] in Hc|done].
  { by replace (S pc + length l)%nat with (pc + S (length l))%nat by lia. }
  rewrite (drop_S _ _ _ Hl) in Hc. by injection Hc.
Qed.

(** The instructions that leave the code *)
Definition leaves (i : instr) : option exit :=
  match i with Ret => Some by_ret | Iretq => Some by_iretq | Sysretq => Some by_sysretq | Enclu => Some by_enclu
  | Vmmcall => Some by_vmmcall | FarJmp => Some by_far | _ => None end.

Lemma run_leave fuel code c pc i e : code !! pc = Some i → leaves i = Some e →
  run (S fuel) env code c pc = Return (e, c).
Proof. intros Hi He. rewrite run_step. unfold step. rewrite Hi. by destruct i; try discriminate He; injection He as <-. Qed.

(** ** Single instructions *)

Lemma exec_xor_self r c : exec env (Alu XOR (R r) (R r)) c = Return (set_zf true (set_gpr r 0 c)).
Proof. cbn. by rewrite Z.lxor_nilpotent. Qed.

Lemma exec_mov_reg d s c : is_word (gpr c s) → exec env (Mov (R d) (R s)) c = Return (set_gpr d (gpr c s) c).
Proof. intros Hw. cbn. by rewrite as_usize_word. Qed.

Lemma exec_mov_imm d z c : exec env (Mov (R d) (Imm z)) c = Return (set_gpr d (as_usize (as_usize z)) c).
Proof. done. Qed.

Lemma exec_xrstor_init c : exec env XrstorInit c = Return (set_xstate xinit c).
Proof. done. Qed.

Lemma exec_mov_to s r c : exec env (MovTo s r) c = Return (set_sysreg s (if is_selector s then gpr c r mod 2 ^ 16 else gpr c r) c).
Proof. done. Qed.

Lemma exec_swapgs c : exec env Swapgs c = Return (swap_gs c).
Proof. done. Qed.

Lemma exec_lfence c : exec env Lfence c = Return c.
Proof. done. Qed.

Lemma exec_mov_imm32 d z c : exec env (Mov (E d) (Imm z)) c = Return (set_gpr d (as_u32 (as_usize z)) c).
Proof. done. Qed.

Lemma exec_xsave r c :
  exec env (Xsave r) c = Return (set_cmem (write_bytes (cmem c) (gpr c r) (xsave_area (xstate c))) c).
Proof. done. Qed.

Lemma exec_xrstor r c :
  exec env (Xrstor r) c = Return (set_xstate (xrstor_area (read_bytes (cmem c) (gpr c r) XSAVE_AREA_SIZE)) c).
Proof. done. Qed.

Lemma exec_label n c : exec env (Label n) c = Return c.
Proof. done. Qed.

Lemma exec_xchg_top r c : is_word (gpr c RSP) → exec env (Xchg (Q (Some RSP) 0) r) c =
  Return (set_gpr r (read_usize (cmem c) (gpr c RSP)) (set_cmem (write_usize (cmem c) (gpr c RSP) (gpr c r)) c)).
Proof. intros Hw. cbn. by rewrite Z.add_0_r, as_usize_word. Qed.

Lemma exec_sub_imm r z c : 0 ≤ z ≤ gpr c r → is_word (gpr c r) →
  exec env (Alu SUB (R r) (Imm z)) c = Return (set_zf (gpr c r - z =? 0) (set_gpr r (gpr c r - z) c)).
Proof.
  intros Hz Hw. cbn. unfold is_word in Hw. rewrite (as_usize_word z), !(as_usize_word (gpr c r - z)) by (unfold is_word; lia).
  done.
Qed.

Lemma exec_add_imm r z c : 0 ≤ z → 0 ≤ gpr c r → gpr c r + z < 2 ^ 64 →
  exec env (Alu ADD (R r) (Imm z)) c = Return (set_zf (gpr c r + z =? 0) (set_gpr r (gpr c r + z) c)).
Proof.
  intros Hz Hr Hw. cbn. rewrite (as_usize_word z), !(as_usize_word (gpr c r + z)) by (unfold is_word; lia). done.
Qed.

Lemma exec_shl r n c : 0 ≤ n < 64 → 0 ≤ gpr c r → gpr c r * 2 ^ n < 2 ^ 64 →
  exec env (Alu SHL (R r) (Imm n)) c = Return (set_zf (gpr c r * 2 ^ n =? 0) (set_gpr r (gpr c r * 2 ^ n) c)).
Proof.
  intros Hn Hr Hw. cbn [exec read_opnd write_opnd trunc alu_result].
  rewrite (as_usize_word n) by (unfold is_word; lia). rewrite (Z.mod_small n 64), Z.shiftl_mul_pow2 by lia.
  rewrite !(as_usize_word (gpr c r * 2 ^ n)); [done|unfold is_word; nia..].
Qed.

Lemma exec_add_reg d s c : 0 ≤ gpr c d → 0 ≤ gpr c s → gpr c d + gpr c s < 2 ^ 64 →
  exec env (Alu ADD (R d) (R s)) c = Return (set_zf (gpr c d + gpr c s =? 0) (set_gpr d (gpr c d + gpr c s) c)).
Proof.
  intros Hd Hs Hw. cbn [exec read_opnd write_opnd trunc alu_result].
  by rewrite !(as_usize_word (gpr c d + gpr c s)) by (unfold is_word; lia).
Qed.

(** Clearing the low bits of a word aligns it. *)
Lemma land_align z n : is_word z → 0 ≤ n ≤ 64 → Z.land z (as_usize (Z.lnot (2 ^ n - 1))) = z / 2 ^ n * 2 ^ n.
Proof.
  intros [Hz Hz'] Hn. rewrite Z.sub_1_r, <- Z.ones_equiv. unfold as_usize. rewrite <- Z.land_ones by lia.
  rewrite (Z.land_comm (Z.lnot _)), Z.land_assoc, Z.land_ones, Z.mod_small by lia.
  rewrite <- Z.ldiff_land, Z.ldiff_ones_r by lia.
  by rewrite Z.shiftl_mul_pow2, Z.shiftr_div_pow2 by lia.
Qed.

Lemma exec_align r n c : is_word (gpr c r) → 0 ≤ n ≤ 64 →
  exec env (Alu AND (R r) (Imm (Z.lnot (2 ^ n - 1)))) c =
    Return (set_zf (gpr c r / 2 ^ n * 2 ^ n =? 0) (set_gpr r (gpr c r / 2 ^ n * 2 ^ n) c)).
Proof.
  intros Hw Hn. cbn [exec read_opnd trunc alu_result write_opnd]. rewrite land_align by done.
  assert (Hb : is_word (gpr c r / 2 ^ n * 2 ^ n)).
  { unfold is_word in *. pose proof (Z.pow_pos_nonneg 2 n ltac:(lia) ltac:(lia)).
    pose proof (Z.mul_div_le (gpr c r) (2 ^ n) ltac:(lia)). pose proof (Z.div_pos (gpr c r) (2 ^ n) ltac:(lia) ltac:(lia)). nia. }
  by rewrite !(as_usize_word _ Hb).
Qed.

Lemma push_pop_flags r c : is_word (flags_word c) → is_word (gpr c RSP - 8) → is_word (gpr c RSP) → r ≠ RSP →
  exec_all [Pushfq; Pop (R r)] c =
    Return (set_gpr r (flags_word c) (set_cmem (write_usize (cmem c) (gpr c RSP - 8) (flags_word c)) c)).
Proof.
  intros Hf Hs Hs' Hr. cbn [exec_all exec mbind outcome_bind]. unfold push, pop. cbn [write_opnd].
  rewrite (as_usize_word (gpr c RSP - 8)) by done. f_equal.
  set (c1 := set_cmem _ _). assert (E : gpr c1 RSP = gpr c RSP - 8) by done. rewrite E.
  replace (gpr c RSP - 8 + 8) with (gpr c RSP) by lia. rewrite (as_usize_word (gpr c RSP)) by done.
  unfold c1. cbn [cmem set_cmem]. rewrite read_write_usize by (by apply is_word_usize). rewrite as_usize_word by done.
  unfold set_gpr, set_cmem. cbn [gprs cmem zf flags xstate gs kernel_gs sysreg msr]. rewrite upd_upd. f_equal.
Qed.

(** ** Jumps *)

Lemma run_jmp fuel code c pc n d t : code !! pc = Some (Jmp n d) → target code pc n d = Some t →
  run (S fuel) env code c pc = run fuel env code c t.
Proof. intros Hi Ht. rewrite run_step. unfold step, jump. by rewrite Hi, Ht. Qed.

Lemma run_jne fuel code c pc n d t : code !! pc = Some (Jne n d) → target code pc n d = Some t →
  run (S fuel) env code c pc = run fuel env code c (if zf c then S pc else t).
Proof. intros Hi Ht. rewrite run_step. unfold step, jump. rewrite Hi, Ht. by destruct (zf c). Qed.

Lemma run_je fuel code c pc n d t : code !! pc = Some (Je n d) → target code pc n d = Some t →
  run (S fuel) env code c pc = run fuel env code c (if zf c then t else S pc).
Proof. intros Hi Ht. rewrite run_step. unfold step, jump. rewrite Hi, Ht. by destruct (zf c). Qed.

(** More fuel does not change what a run ends with. *)
Lemma run_mono fuel k code : ∀ c pc, run fuel env code c pc ≠ Diverged →
  run (fuel + k) env code c pc = run fuel env code c pc.
Proof.
  induction fuel as [|fuel IH]; intros c pc Hd; [done|]. change (S fuel + k)%nat with (S (fuel + k)).
  rewrite run_step in Hd. rewrite !run_step. destruct (step env code c pc) as [[c1 [pc1|e]]| | |]; try done.
  cbn [mbind outcome_bind] in *. by apply IH.
Qed.

(** ** Pushing and popping *)

Definition pushes (rs : list reg) : list instr := (λ r, Push (R r)) <$> rs.
Definition pops (rs : list reg) : list instr := (λ r, Pop (R r)) <$> rs.

Lemma exec_pushes rs : ∀ c, RSP ∉ rs → is_word (gpr c RSP) → 8 * Z.of_nat (length rs) ≤ gpr c RSP →
  exec_all (pushes rs) c =
    Return (set_cmem (push_words (cmem c) (gpr c RSP) (gpr c <$> rs))
              (set_gpr RSP (gpr c RSP - 8 * Z.of_nat (length rs)) c)).
Proof.
  induction rs as [|r rs IH]; intros c Hr Hw Hs.
  { cbn [pushes fmap list_fmap exec_all push_words length]. unfold set_gpr, set_cmem. destruct c as [g]. cbn.
    rewrite Z.sub_0_r. unfold gpr. by destruct g. }
  apply not_elem_of_cons in Hr as [Hr Hrs]. cbn [length] in Hs.
  cbn [pushes fmap list_fmap exec_all]. cbn [exec mbind outcome_bind]. unfold push.
  rewrite as_usize_word by (unfold is_word in *; lia). fold (pushes rs).
  set (c1 := set_cmem _ _). assert (Hsp : gpr c1 RSP = gpr c RSP - 8) by done.
  rewrite IH by (rewrite ?Hsp; unfold is_word in *; done || lia). rewrite Hsp. f_equal.
  unfold c1, set_cmem, set_gpr. cbn [gprs cmem zf flags xstate gs kernel_gs sysreg msr]. rewrite upd_upd. f_equal.
  - f_equal. cbn [length]. lia.
  - cbn [push_words fmap list_fmap read_opnd]. f_equal. apply list_fmap_ext. intros i r' Hi.
    unfold gpr. cbn [gprs]. rewrite get_upd_other; [done|]. intros <-. apply Hrs. by eapply list_elem_of_lookup_2.
Qed.

(** The registers after popping the words at [sp] *)
Fixpoint pop_regs (m : mem) (sp : Z) (rs : list reg) (g : regs) : regs :=
  match rs with [] => g | r :: rs => pop_regs m (sp + 8) rs (upd g r (as_usize (read_usize m sp))) end.

Lemma pop_regs_rsp m sp rs g v : RSP ∉ rs → upd (pop_regs m sp rs g) RSP v = pop_regs m sp rs (upd g RSP v).
Proof.
  revert sp g. induction rs as [|r rs IH]; intros sp g Hr; [done|]. apply not_elem_of_cons in Hr as [Hr Hrs].
  cbn [pop_regs]. rewrite IH by done. by rewrite upd_swap.
Qed.

Lemma exec_pops rs : ∀ c, RSP ∉ rs → 0 ≤ gpr c RSP → gpr c RSP + 8 * Z.of_nat (length rs) < 2 ^ 64 →
  exec_all (pops rs) c =
    Return (mkCpu (upd (pop_regs (cmem c) (gpr c RSP) rs (gprs c)) RSP (gpr c RSP + 8 * Z.of_nat (length rs)))
              (zf c) (flags c) (xstate c) (gs c) (kernel_gs c) (sysreg c) (msr c) (cmem c)).
Proof.
  induction rs as [|r rs IH]; intros c Hr Hw Hs.
  { cbn [pops fmap list_fmap exec_all pop_regs length]. rewrite Z.add_0_r. destruct c as [g]. unfold gpr. cbn.
    by destruct g. }
  apply not_elem_of_cons in Hr as [Hr Hrs]. cbn [length] in Hs.
  cbn [pops fmap list_fmap exec_all]. cbn [exec mbind outcome_bind]. unfold pop. cbn [write_opnd].
  rewrite (as_usize_word (gpr c RSP + 8)) by (unfold is_word; lia). fold (pops rs).
  set (c1 := set_gpr r _ _).
  assert (Hsp : gpr c1 RSP = gpr c RSP + 8).
  { unfold c1, gpr, set_gpr. cbn [gprs]. by rewrite get_upd_other, get_upd_same by done. }
  rewrite IH by (rewrite ?Hsp; done || lia). rewrite Hsp. f_equal.
  unfold c1, set_gpr. cbn [gprs cmem zf flags xstate gs kernel_gs sysreg msr pop_regs]. f_equal.
  rewrite !(pop_regs_rsp _ _ rs) by done. rewrite (upd_swap _ r RSP) by done. rewrite upd_upd.
  rewrite (upd_swap _ RSP r) by done. cbn [length]. do 2 f_equal. lia.
Qed.

Lemma pop_regs_other m rs : ∀ sp g r, r ∉ rs → get (pop_regs m sp rs g) r = get g r.
Proof.
  induction rs as [|r0 rs IH]; intros sp g r Hr; [done|]. apply not_elem_of_cons in Hr as [Hr Hrs].
  cbn [pop_regs]. rewrite IH by done. by apply get_upd_other.
Qed.

(** What a popped register holds *)
Lemma pop_regs_get m rs : ∀ sp g i r, NoDup rs → rs !! i = Some r →
  get (pop_regs m sp rs g) r = as_usize (read_usize m (sp + 8 * Z.of_nat i)).
Proof.
  induction rs as [|r0 rs IH]; intros sp g i r Hn Hi; [done|]. apply NoDup_cons in Hn as [Hr0 Hn].
  cbn [pop_regs]. destruct i as [|i].
  - injection Hi as <-. rewrite pop_regs_other, get_upd_same by done. do 2 f_equal. lia.
  - rewrite (IH _ _ i r) by done. do 2 f_equal. lia.
Qed.

End run.

(** The state after an instruction, field by field *)
Ltac cpu_canon :=
  unfold set_cmem, set_gpr, set_zf, swap_gs; cbn [gprs zf flags xstate gs kernel_gs sysreg msr cmem].
Ltac name_cpu n := match goal with |- context [exec_all _ _ ?c] => set (n := c) end.
