(* ===== verification/KvmAsm.v ===== *)
(** * The naked functions of the KVM shim

    The stubs of exceptions ([declare_interrupt!] of [interrupts.rs]), the entry of
    system calls ([_syscall_enter] of [syscall.rs]) and the switch to user mode
    ([usermode.rs]), instruction by instruction.  The Rust functions they call are
    compiled code, of which the calling convention and the behaviour is assumed.

    The laws: an exception stub with the handler of #VC behaves like the CPUID
    instruction; the entry of system calls does what [KvmShim._syscall_enter] says;
    nothing of the shim is left in a register when the workload is entered. *)
From S2P Require Import Prelude Memory Libc PhaseAlloc StagedValues Items Calls CallLaws.
From S2P Require Import StageKit SockTypes Syscalls Stubs SyscallLaws NumberCalls Platform.
From S2P Require Import Handler HandlerCalls KvmMachine Asm AsmLaws.

(** ** [interrupts.rs] *)

Section codes.
Context `{XState}.

(** add 64 for alignment *)
Definition XSAVE_STACK_OFFSET : Z := XSAVE_AREA_SIZE + 64.

Definition declare_interrupt (push_or_exchange : instr) : list instr := [
  push_or_exchange;
  Push (R RDI); Push (R RDX); Push (R RCX); Push (R RAX); Push (R R8); Push (R R9); Push (R R10); Push (R R11);
  Push (R R12); Push (R R13); Push (R R14); Push (R R15); Push (R RBX); Push (R RBP);
  Mov (R RBX) (R RSP);
  Mov (R RDI) (R RSP);
  Alu SUB (R RSP) (Imm XSAVE_STACK_OFFSET);
  Alu AND (R RSP) (Imm (Z.lnot (0x40 - 1)));
  Alu XOR (R RAX) (R RAX);
  Label 2;
  Mov (QX RSP RAX) (Imm 0x0);
  Alu ADD (E RAX) (Imm 0x1);
  Cmp (E RAX) (Imm (XSAVE_STACK_OFFSET / 8));
  Jne 2 b_;
  Mov (E RDX) (Imm (-1));
  Mov (E RAX) (Imm (-1));
  Xsave RSP;
  Call 0;
  Mov (E RDX) (Imm (-1));
  Mov (E RAX) (Imm (-1));
  Xrstor RSP;
  Mov (R RSP) (R RBX);
  Pop (R RBP); Pop (R RBX); Pop (R R15); Pop (R R14); Pop (R R13); Pop (R R12); Pop (R R11); Pop (R R10);
  Pop (R R9); Pop (R R8); Pop (R RAX); Pop (R RCX); Pop (R RDX); Pop (R RDI); Pop (R RSI);
  Iretq].

(** For exceptions without and with an error code *)
Definition without_error : instr := Push (R RSI).
Definition with_error : instr := Xchg (Q (Some RSP) 0) RSI.

(** ** [syscall.rs] *)

Definition asm_KERNEL_RSP_OFF : Z := 4.
Definition asm_USR_RSP_OFF : Z := 4 + 3 * 8.

Definition asm_syscall_enter : list instr := [
  Swapgs;
  Lfence;
  Mov (GS asm_USR_RSP_OFF) (R RSP);
  Mov (R RSP) (GS asm_KERNEL_RSP_OFF);
  Push (GS asm_USR_RSP_OFF);
  Mov (GS asm_USR_RSP_OFF) (Imm 0x0);
  Push (R R11);
  Push (R RCX);
  Push (R RBP);
  Mov (R RBP) (R RSP);
  Mov (R RCX) (R R10);
  Push (R RDI); Push (R RSI); Push (R R10); Push (R R9); Push (R R8);
  Push (R RAX);
  Call 0;
  Alu ADD (R RSP) (Imm 0x8);
  Pop (R R8); Pop (R R9); Pop (R R10); Pop (R RSI); Pop (R RDI);
  Pop (R RBP);
  Pop (R RCX);
  Pop (R R11);
  Pop (GS asm_USR_RSP_OFF);
  Mov (R RSP) (GS asm_USR_RSP_OFF);
  Swapgs;
  Lfence;
  Sysretq].

(** ** [usermode.rs] *)

(** [SP] is in a register the compiler chooses; [rcx] is taken by [ip]. *)
Definition asm_usermode (SP : reg) : list instr := [
  Pushfq;
  Pop (R R11);
  Mov (R RSP) (R SP);
  Mov (R RDX) (Imm (-1));
  Mov (R RAX) (Imm (-1));
  XrstorInit;
  Alu XOR (R RAX) (R RAX); Alu XOR (R RBX) (R RBX); Alu XOR (R RDX) (R RDX); Alu XOR (R RSI) (R RSI);
  Alu XOR (R RDI) (R RDI); Alu XOR (R RBP) (R RBP); Alu XOR (R R8) (R R8); Alu XOR (R R9) (R R9);
  Alu XOR (R R10) (R R10); Alu XOR (R R12) (R R12); Alu XOR (R R13) (R R13); Alu XOR (R R14) (R R14);
  Alu XOR (R R15) (R R15);
  MovTo DS R10;
  MovTo ES R10;
  MovTo FS R10;
  Swapgs;
  Lfence;
  Sysretq].

End codes.

(** ** What compiled code preserves (System V) *)

Record preserved (c c' : cpu) : Prop := {
  pr_regs : Forall (λ r, gpr c' r = gpr c r) callee_saved;
  pr_gs : gs c' = gs c;
  pr_kernel_gs : kernel_gs c' = kernel_gs c;
}.

(** ** The words of a frame *)

Definition frame_at (m : mem) (a : Z) : ExtendedInterruptStackFrameValue :=
  let w i := read_usize m (a + 8 * i) in
  mkFrame (w 0) (w 1) (w 2) (w 3) (w 4) (w 5) (w 6) (w 7) (w 8) (w 9) (w 10) (w 11) (w 12) (w 13) (w 14)
    (w 15) (w 16) (w 17) (w 18) (w 19).

Definition frame_words (f : ExtendedInterruptStackFrameValue) : list Z :=
  [f_rbp f; f_rbx f; f_r15 f; f_r14 f; f_r13 f; f_r12 f; f_r11 f; f_r10 f; f_r9 f; f_r8 f; f_rax f; f_rcx f; f_rdx f;
   f_rdi f; f_rsi f; instruction_pointer f; code_segment f; cpu_flags f; stack_pointer f; stack_segment f].

Definition write_frame (m : mem) (a : Z) (f : ExtendedInterruptStackFrameValue) : mem :=
  write_bytes m a (words_to_bytes (frame_words f)).

(** ** [usermode] *)

Section usermode.
Context `{XState}.

(** C29: nothing of the shim is left in the registers when it enters the workload:
    [usermode] ends in [sysretq] with the entry point in [rcx], the flags in [r11],
    every other register but the stack pointer zero, the segment selectors zero, and the
    initial extended state.  The stack pointer is the one that was asked for, unless
    the compiler passes it in [r11], which it may: then the workload starts on the
    flags. *)
Theorem usermode_clean env (SP : reg) c :
  SP ≠ RCX → SP ≠ RSP → is_word (gpr c SP) → is_word (flags_word c) → 8 ≤ gpr c RSP < 2 ^ 64 →
  ∃ c', run 32 env (asm_usermode SP) c 0 = Return (by_sysretq, c') ∧
    (∀ r, r ∉ [RCX; R11; RSP] → gpr c' r = 0) ∧ gpr c' RCX = gpr c RCX ∧ gpr c' R11 = flags_word c ∧
    gpr c' RSP = (if decide (SP = R11) then flags_word c else gpr c SP) ∧
    xstate c' = xinit ∧ sysreg c' DS = 0 ∧ sysreg c' ES = 0 ∧ sysreg c' FS = 0 ∧
    gs c' = kernel_gs c ∧ kernel_gs c' = gs c.
Proof.
  intros Hc Hs Hw Hf Hsp. change 32%nat with (24 + 8)%nat.
  rewrite (run_straight env (asm_usermode SP) (take 24 (asm_usermode SP)) 8) by done.
  change (take 24 (asm_usermode SP)) with ([Pushfq; Pop (R R11)] ++ drop 2 (take 24 (asm_usermode SP))).
  rewrite exec_all_app, push_pop_flags by (done || unfold is_word; lia). rewrite outcome_bind_return.
  set (c1 := set_gpr R11 _ _). change (drop 2 (take 24 (asm_usermode SP))) with
    (Mov (R RSP) (R SP) :: drop 3 (take 24 (asm_usermode SP))).
  assert (Hw1 : is_word (gpr c1 SP)) by (destruct SP; done).
  rewrite (exec_all_cons _ _ _ _ _ (exec_mov_reg env RSP SP c1 Hw1)). cbn [asm_usermode take drop].
  do 2 rewrite (exec_all_cons _ _ _ _ _ (exec_mov_imm env _ _ _)).
  rewrite (exec_all_cons _ _ _ _ _ (exec_xrstor_init env _)).
  do 13 rewrite (exec_all_cons _ _ _ _ _ (exec_xor_self env _ _)).
  do 3 rewrite (exec_all_cons _ _ _ _ _ (exec_mov_to env _ _ _)).
  rewrite (exec_all_cons _ _ _ _ _ (exec_swapgs env _)), (exec_all_cons _ _ _ _ _ (exec_lfence env _)), exec_all_nil.
  rewrite outcome_bind_return.
  eexists. split; [by apply (run_leave _ _ _ _ _ Sysretq)|].
  split_and!; try reflexivity; [|by destruct SP].
  intros r Hr. rewrite !not_elem_of_cons in Hr. destruct Hr as (Q1 & Q2 & Q3 & _). by destruct r.
Qed.

End usermode.

(** ** Exceptions *)

(** The area of [xsave] is whole words, and restores what was saved. *)
Class XStateLaws `{XState} := {
  xl_size : 0 < XSAVE_AREA_SIZE < 2 ^ 31 ∧ XSAVE_AREA_SIZE mod 8 = 0;
  xl_length : ∀ x, Z.of_nat (length (xsave_area x)) = XSAVE_AREA_SIZE;
  xl_roundtrip : ∀ x, 0 ≤ x < 256 ^ XSAVE_AREA_SIZE → xrstor_area (xsave_area x) = x;
}.

Section stub.
Context `{XStateLaws}.
Variable env : nat → cpu → outcome cpu.

Definition vc_stub : list instr := declare_interrupt with_error.
Definition N : Z := XSAVE_STACK_OFFSET / 8.

Lemma N_range : 8 < N < 2 ^ 31 ∧ 8 * N = XSAVE_STACK_OFFSET.
Proof. unfold N, XSAVE_STACK_OFFSET. pose proof xl_size. dlia. Qed.

(** One word is cleared, and the loop ends after the last one. *)
Lemma zero_once fuel c k : gpr c RAX = k → 0 ≤ k < N → 0 ≤ gpr c RSP → gpr c RSP + 8 * N < 2 ^ 64 →
  run (5 + fuel) env vc_stub c 20 =
    run fuel env vc_stub (set_zf (k + 1 =? N) (set_gpr RAX (k + 1) (set_cmem (write_usize (cmem c) (gpr c RSP + k * 8) 0) c)))
      (if k + 1 =? N then 25 else 20).
Proof.
  intros Hk Hn Hs Hs'. pose proof N_range as [HN _]. change (5 + fuel)%nat with (4 + S fuel)%nat.
  change 4%nat with (length [Label 2; Mov (QX RSP RAX) (Imm 0); Alu ADD (E RAX) (Imm 1); Cmp (E RAX) (Imm N)]).
  rewrite run_straight by done.
  set (c1 := set_cmem (write_usize (cmem c) (gpr c RSP + k * 8) 0) c).
  assert (E1 : exec env (Mov (QX RSP RAX) (Imm 0)) c = Return c1).
  { cbn [exec read_opnd write_opnd trunc alu_result]. rewrite Hk, as_usize_word by (unfold is_word; lia). done. }
  assert (E2 : exec env (Alu ADD (E RAX) (Imm 1)) c1 = Return (set_zf (k + 1 =? 0) (set_gpr RAX (k + 1) c1))).
  { cbn [exec read_opnd write_opnd trunc alu_result]. change (gpr c1 RAX) with (gpr c RAX). rewrite Hk. unfold as_u32. change (as_usize 1) with 1.
    by rewrite !(Z.mod_small k), !(Z.mod_small (k + 1)) by lia. }
  set (c2 := set_zf _ _) in E2.
  assert (E3 : exec env (Cmp (E RAX) (Imm N)) c2 = Return (set_zf (k + 1 =? N) c2)).
  { cbn [exec read_opnd write_opnd trunc alu_result]. change (gpr c2 RAX) with (k + 1). unfold as_u32. rewrite as_usize_word, (Z.mod_small (k + 1)) by (unfold is_word; lia).
    do 2 f_equal. destruct (k + 1 =? N) eqn:En; bool_to_prop; [by rewrite En, Z.sub_diag|].
    apply Z.eqb_neq. rewrite Z.mod_eq by lia. intros E0.
    assert ((k + 1 - N) mod 2 ^ 32 = 0) by (rewrite Z.mod_eq; lia). dlia. }
  rewrite (exec_all_cons _ _ _ _ _ (exec_label env 2 c)), (exec_all_cons _ _ _ _ _ E1), (exec_all_cons _ _ _ _ _ E2),
    (exec_all_cons _ _ _ _ _ E3), exec_all_nil, outcome_bind_return, run_step.
  change (step env vc_stub (set_zf (k + 1 =? N) c2) (20 + _)) with
    (t ← jump vc_stub 24 2 b_ (negb (k + 1 =? N)); Return (set_zf (k + 1 =? N) c2, t)).
  by destruct (k + 1 =? N).
Qed.

(** The area for [xsave] is cleared, and nothing else. *)
Lemma zero_loop n : ∀ fuel c k, N = k + Z.of_nat n → (0 < n)%nat → gpr c RAX = k → 0 ≤ k → 0 ≤ gpr c RSP →
  gpr c RSP + 8 * N < 2 ^ 64 →
  ∃ m, (∀ x, x < gpr c RSP ∨ gpr c RSP + 8 * N ≤ x → m x = cmem c x) ∧
    run (5 * n + fuel) env vc_stub c 20 = run fuel env vc_stub (set_zf true (set_gpr RAX N (set_cmem m c))) 25.
Proof.
  induction n as [|n IH]; intros fuel c k HN Hn Hk Hk0 Hs Hs'; [lia|].
  replace (5 * S n + fuel)%nat with (5 + (5 * n + fuel))%nat by lia. rewrite (zero_once _ c k) by (done || lia).
  destruct (decide (n = 0%nat)) as [->|Hn0].
  - replace (k + 1) with N by lia. rewrite Z.eqb_refl. eexists. split; [|reflexivity].
    intros x Hx. apply write_usize_outside. lia.
  - rewrite (proj2 (Z.eqb_neq (k + 1) N)) by lia. set (c1 := set_zf _ _).
    destruct (IH fuel c1 (k + 1)) as (m & Hm & E); [lia|lia|done|lia|done|done|].
    exists m. split; [|by rewrite E]. intros x Hx. rewrite Hm by done. apply write_usize_outside. lia.
Qed.

(** The registers that are pushed, the frame, and the aligned stack for the call *)
Definition saved : list reg := [RDI; RDX; RCX; RAX; R8; R9; R10; R11; R12; R13; R14; R15; RBX; RBP].
Definition frame_ptr (c : cpu) : Z := gpr c RSP - 112.
Definition call_sp (c : cpu) : Z := (frame_ptr c - XSAVE_STACK_OFFSET) / 2 ^ 6 * 2 ^ 6.

Definition entered (c : cpu) : cpu :=
  mkCpu (upd (upd (upd (upd (upd (gprs c) RSI (read_usize (cmem c) (gpr c RSP))) RSP (call_sp c)) RBX (frame_ptr c))
           RDI (frame_ptr c)) RAX 0)
    true (flags c) (xstate c) (gs c) (kernel_gs c) (sysreg c) (msr c)
    (push_words (write_usize (cmem c) (gpr c RSP) (gpr c RSI)) (gpr c RSP) (gpr c <$> saved)).

Lemma stub_prefix c : is_word (gpr c RSP) → 112 + XSAVE_STACK_OFFSET ≤ gpr c RSP →
  exec_all env (take 20 vc_stub) c = Return (entered c).
Proof.
  intros Hw Hs. pose proof N_range as [HN HN8]. unfold vc_stub, declare_interrupt, with_error. cbn [take].
  rewrite (exec_all_cons _ _ _ _ _ (exec_xchg_top env RSI c Hw)). set (c1 := set_gpr RSI _ _).
  match goal with |- exec_all env ?l c1 = _ => change l with (pushes saved ++ drop 14 l) end.
  rewrite exec_all_app, exec_pushes; [|by apply reg_not_in|done|change (gpr c1 RSP) with (gpr c RSP); unfold saved; cbn [length]; lia].
  rewrite outcome_bind_return. cbn [drop]. set (c2 := set_cmem _ _).
  assert (H2 : gpr c2 RSP = frame_ptr c) by done.
  assert (Hw2 : is_word (gpr c2 RSP)) by (rewrite H2; unfold is_word, frame_ptr in *; lia).
  rewrite (exec_all_cons _ _ _ _ _ (exec_mov_reg env RBX RSP c2 Hw2)). set (c3 := set_gpr RBX _ c2).
  rewrite (exec_all_cons _ _ _ _ _ (exec_mov_reg env RDI RSP c3 Hw2)). set (c4 := set_gpr RDI _ c3).
  assert (H4 : 0 ≤ XSAVE_STACK_OFFSET ≤ gpr c4 RSP) by (change (gpr c4 RSP) with (gpr c RSP - 112); lia).
  rewrite (exec_all_cons _ _ _ _ _ (exec_sub_imm env RSP XSAVE_STACK_OFFSET c4 H4 Hw2)). set (c5 := set_zf _ _).
  assert (H5 : gpr c5 RSP = frame_ptr c - XSAVE_STACK_OFFSET) by done.
  assert (Hw5 : is_word (gpr c5 RSP)) by (rewrite H5; unfold is_word, frame_ptr in *; lia).
  change (Z.lnot (0x40 - 1)) with (Z.lnot (2 ^ 6 - 1)).
  rewrite (exec_all_cons _ _ _ _ _ (exec_align env RSP 6 c5 Hw5 ltac:(lia))). rewrite H5. set (c6 := set_zf _ _).
  rewrite (exec_all_cons _ _ _ _ _ (exec_xor_self env RAX c6)), exec_all_nil. done.
Qed.

End stub.

Definition words (c : cpu) : Prop := ∀ r, is_word (gpr c r).

(** The frame the handler sees: the registers, and what the processor pushed *)
Definition frame0 (c : cpu) : ExtendedInterruptStackFrameValue :=
  let w i := read_usize (cmem c) (gpr c RSP + 8 * i) in
  mkFrame (gpr c RBP) (gpr c RBX) (gpr c R15) (gpr c R14) (gpr c R13) (gpr c R12) (gpr c R11) (gpr c R10) (gpr c R9)
    (gpr c R8) (gpr c RAX) (gpr c RCX) (gpr c RDX) (gpr c RDI) (gpr c RSI) (w 1) (w 2) (w 3) (w 4) (w 5).

Lemma frame_at_ext m m' a : (∀ x, a ≤ x < a + 160 → m' x = m x) → frame_at m' a = frame_at m a.
Proof. intros Hm. unfold frame_at. f_equal; apply read_usize_ext; intros x Hx; apply Hm; lia. Qed.

Lemma entered_frame `{XState} c : words c → frame_at (cmem (entered c)) (frame_ptr c) = frame0 c.
Proof.
  intros Hw. set (m := write_usize (cmem c) (gpr c RSP) (gpr c RSI)).
  assert (Hv : Forall is_word (gpr c <$> saved)) by (apply Forall_fmap, Forall_true; intros; apply Hw).
  assert (Hr : ∀ i v, (gpr c <$> saved) !! i = Some v →
    read_usize (cmem (entered c)) (frame_ptr c + 8 * (13 - Z.of_nat i)) = v).
  { intros i v Hi. rewrite <- (push_words_read _ m (gpr c RSP) i v Hv Hi). unfold frame_ptr. cbn [cmem entered]. f_equal. lia. }
  assert (Ho : ∀ j, 0 < j → read_usize (cmem (entered c)) (frame_ptr c + 8 * (14 + j)) = read_usize (cmem c) (gpr c RSP + 8 * j)).
  { intros j Hj. replace (frame_ptr c + 8 * (14 + j)) with (gpr c RSP + 8 * j) by (unfold frame_ptr; lia).
    apply read_usize_ext. intros x Hx. cbn [cmem entered]. rewrite push_words_outside by lia. apply write_usize_outside. lia. }
  unfold frame_at, frame0. f_equal;
    [exact (Hr 13%nat _ eq_refl)|exact (Hr 12%nat _ eq_refl)|exact (Hr 11%nat _ eq_refl)|exact (Hr 10%nat _ eq_refl)|
     exact (Hr 9%nat _ eq_refl)|exact (Hr 8%nat _ eq_refl)|exact (Hr 7%nat _ eq_refl)|exact (Hr 6%nat _ eq_refl)|
     exact (Hr 5%nat _ eq_refl)|exact (Hr 4%nat _ eq_refl)|exact (Hr 3%nat _ eq_refl)|exact (Hr 2%nat _ eq_refl)|
     exact (Hr 1%nat _ eq_refl)|exact (Hr 0%nat _ eq_refl)| |exact (Ho 1 ltac:(lia))|exact (Ho 2 ltac:(lia))|
     exact (Ho 3 ltac:(lia))|exact (Ho 4 ltac:(lia))|exact (Ho 5 ltac:(lia))].
  replace (frame_ptr c + 8 * 14) with (gpr c RSP) by (unfold frame_ptr; lia).
  rewrite <- (read_write_usize (cmem c) (gpr c RSP) (gpr c RSI)) by apply is_word_usize, Hw.
  apply read_usize_ext. intros x Hx. cbn [cmem entered]. apply push_words_outside. lia.
Qed.

Lemma read_frame m a f i v : Forall is_word (frame_words f) → frame_words f !! i = Some v →
  read_usize (write_frame m a f) (a + 8 * Z.of_nat i) = v.
Proof.
  intros Hf Hi. apply lookup_lt_Some in Hi as Hl. change (length (frame_words f)) with 20%nat in Hl.
  assert (Hws : read_words (write_frame m a f) a 20 = frame_words f).
  { apply read_write_words; [|done]. eapply Forall_impl; [exact Hf|]. apply is_word_usize. }
  rewrite <- Hws in Hi. unfold read_words in Hi. rewrite list_lookup_fmap, lookup_seqZ_lt in Hi by lia.
  injection Hi as <-. done.
Qed.

(** A byte of a frame whose word is the word of another memory *)
Lemma frame_bytes m m' a f i x : Forall is_word (frame_words f) → mem_wf m' →
  a + 8 * Z.of_nat i ≤ x < a + 8 * Z.of_nat i + 8 →
  frame_words f !! i = Some (read_usize m' (a + 8 * Z.of_nat i)) → write_frame m a f x = m' x.
Proof.
  intros Hf Hm Hx Hi. pose proof (read_frame m a f i _ Hf Hi) as Hr. set (b := a + 8 * Z.of_nat i) in *.
  assert (Hb : read_bytes (write_frame m a f) b 8 = read_bytes m' b 8).
  { rewrite <- (to_from_le_bytes (read_bytes m' b 8)) by (by apply read_bytes_wf).
    rewrite <- (to_from_le_bytes (read_bytes (write_frame m a f) b 8)).
    - rewrite !length_read_bytes. unfold read_usize in Hr. by rewrite Hr.
    - apply Forall_lookup. intros j y Hy. unfold write_frame, b in Hy. apply lookup_lt_Some in Hi.
      change (length (frame_words f)) with 20%nat in Hi.
      rewrite read_write_part in Hy by (rewrite ?length_words_to_bytes; change (length (frame_words f)) with 20%nat; lia).
      rewrite lookup_take_Some in Hy. destruct Hy as [Hy _]. rewrite lookup_drop in Hy.
      refine (Forall_lookup_1 (λ v, 0 ≤ v < 256) _ _ y _ Hy). unfold words_to_bytes. apply Forall_bind, Forall_true. intros w. apply to_le_bytes_wf. }
  apply (f_equal (λ l, l !! Z.to_nat (x - b))) in Hb. rewrite !lookup_read_bytes in Hb by lia.
  injection Hb as Hb. by replace (b + Z.of_nat (Z.to_nat (x - b))) with x in Hb by lia.
Qed.

Lemma write_frame_outside m a f x : x < a ∨ a + 160 ≤ x → write_frame m a f x = m x.
Proof. intros Hx. apply write_bytes_outside. rewrite length_words_to_bytes. cbn. lia. Qed.

(** The rest of the stub, after the call *)
Definition restored : list reg := [RBP; RBX; R15; R14; R13; R12; R11; R10; R9; R8; RAX; RCX; RDX; RDI; RSI].

Lemma stub_suffix `{XState} env fuel c : is_word (gpr c RBX) → gpr c RBX + 120 < 2 ^ 64 →
  ∃ g, run (4 + (15 + S fuel)) env vc_stub c 29 =
    Return (by_iretq,
      mkCpu (upd (pop_regs (cmem c) (gpr c RBX) restored g) RSP (gpr c RBX + 120)) (zf c) (flags c)
        (xrstor_area (read_bytes (cmem c) (gpr c RSP) XSAVE_AREA_SIZE)) (gs c) (kernel_gs c) (sysreg c) (msr c) (cmem c)).
Proof.
  intros Hw Hs. rewrite (run_straight env vc_stub (take 4 (drop 29 vc_stub)) (15 + S fuel)) by done.
  change (take 4 (drop 29 vc_stub)) with
    [Mov (E RDX) (Imm (-1)); Mov (E RAX) (Imm (-1)); Xrstor RSP; Mov (R RSP) (R RBX)].
  rewrite (exec_all_cons _ _ _ _ _ (exec_mov_imm32 env RDX _ c)). set (c1 := set_gpr RDX _ c).
  rewrite (exec_all_cons _ _ _ _ _ (exec_mov_imm32 env RAX _ c1)). set (c2 := set_gpr RAX _ c1).
  rewrite (exec_all_cons _ _ _ _ _ (exec_xrstor env RSP c2)). set (x := xrstor_area _).
  rewrite (exec_all_cons _ _ _ _ _ (exec_mov_reg env RSP RBX (set_xstate x c2) Hw)), exec_all_nil, outcome_bind_return.
  set (c3 := set_gpr RSP _ _). rewrite (run_straight env vc_stub (take 15 (drop 33 vc_stub)) (S fuel)) by done.
  change (take 15 (drop 33 vc_stub)) with (pops restored).
  rewrite exec_pops; [|by apply reg_not_in|apply Hw|change (gpr c3 RSP) with (gpr c RBX); cbn [length restored]; lia].
  rewrite outcome_bind_return. eexists. by rewrite (run_leave _ _ _ _ _ Iretq by_iretq).
Qed.

Section cpuid.
Context {L P E : Type} `{Machine E, Image}.

Lemma get_functions_ext m m' : (∀ x, cpuid_at ≤ x < cpuid_at + 4096 → m' x = m x) → get_functions m' = get_functions m.
Proof.
  intros Hm. assert (H32 : ∀ a, cpuid_at ≤ a → a + 4 ≤ cpuid_at + 4096 → read_u32 m' a = read_u32 m a).
  { intros a Q1 Q2. unfold read_u32. f_equal. apply read_bytes_ext. intros x Hx. apply Hm. lia. }
  unfold get_functions. rewrite H32 by lia. destruct (_ <=? _) eqn:Ec; [|done]. unfold COUNT_MAX in Ec. bool_to_prop.
  f_equal. apply list_fmap_ext. intros j i Hi. apply lookup_seqZ in Hi as [-> Hi]. unfold entry_at.
  rewrite !H32 by lia. f_equal; apply read_usize_ext; intros x Hx; apply Hm; lia.
Qed.

(** CPUID depends on the page only. *)
Lemma cpuid_count_ext leaf sub_leaf (s : kvm L P E) m m' r :
  (∀ x, cpuid_at ≤ x < cpuid_at + 4096 → m' x = m x) →
  cpuid_count leaf sub_leaf (mkWorld s m) = Return (Ok r, mkWorld s m) →
  cpuid_count leaf sub_leaf (mkWorld s m') = Return (Ok r, mkWorld s m').
Proof.
  intros Hm. unfold cpuid_count. destruct (negb snp_active).
  { unfold asks. cbn. by intros [= <-]. }
  unfold reads, mbind, handlerM_bind, fal_bind, must. cbv beta iota. cbn [w_mem].
  rewrite (get_functions_ext m m' Hm). destruct (get_functions m) as [fs| | |]; try done.
  destruct (list_find _ fs) as [[? ?]|]; cbn; by intros [= <-].
Qed.

(** The handler of #VC as compiled code, called in the state [s]: what it does with the frame whose address
    is passed is what its source says; it returns as the calling convention
    demands; the stack below [rsp], down to [lo], is its own. *)
Definition compiled_vc (lo : Z) (s : kvm L P E) (inner : cpu → outcome cpu) : Prop := ∀ c s' m' f,
  vmm_communication_exception_handler (gpr c RSI) (frame_at (cmem c) (gpr c RDI)) (mkWorld s (cmem c)) =
    Return (Ok f, mkWorld s' m') →
  ∃ c', inner c = Return c' ∧ preserved c c' ∧
    ∀ x, ¬ (lo ≤ x < gpr c RSP) → cmem c' x = write_frame m' (gpr c RDI) f x.

End cpuid.

Section call.
Context `{XStateLaws}.

Lemma call_sp_range c : 112 + XSAVE_STACK_OFFSET + 64 ≤ gpr c RSP →
  0 ≤ call_sp c ∧ frame_ptr c - XSAVE_STACK_OFFSET - 64 < call_sp c ∧ call_sp c + XSAVE_STACK_OFFSET ≤ frame_ptr c.
Proof. intros Hs. unfold call_sp, frame_ptr. pose proof N_range as [? ?]. dlia. Qed.

(** The stub up to the call: the frame is in place, and only the stack has changed. *)
Lemma stub_call env fuel c : words c → 112 + XSAVE_STACK_OFFSET + 64 ≤ gpr c RSP →
  ∃ c3, run (20 + (5 * Z.to_nat N + (4 + fuel))) env vc_stub c 0 =
      (env 0%nat c3 ≫= λ c4, run fuel env vc_stub c4 29) ∧
    gpr c3 RSI = read_usize (cmem c) (gpr c RSP) ∧ gpr c3 RDI = frame_ptr c ∧ gpr c3 RBX = frame_ptr c ∧
    gpr c3 RSP = call_sp c ∧ frame_at (cmem c3) (frame_ptr c) = frame0 c ∧
    read_bytes (cmem c3) (call_sp c) XSAVE_AREA_SIZE = xsave_area (xstate c) ∧
    gs c3 = gs c ∧ kernel_gs c3 = kernel_gs c ∧
    (∀ x, x < call_sp c ∨ gpr c RSP + 8 ≤ x → cmem c3 x = cmem c x).
Proof.
  intros Hw Hs. pose proof (call_sp_range c Hs) as (Hc0 & Hc1 & Hc2). pose proof N_range as [HN HN8].
  pose proof (Hw RSP) as Hsp. pose proof (entered_frame c Hw) as Hfr.
  rewrite (run_straight env vc_stub (take 20 vc_stub) (5 * Z.to_nat N + (4 + fuel))) by done.
  rewrite stub_prefix by (done || lia). rewrite outcome_bind_return. change (0 + length (take 20 vc_stub))%nat with 20%nat.
  destruct (zero_loop env (Z.to_nat N) (4 + fuel) (entered c) 0) as (m & Hm & ->);
    [lia|lia|done|lia|done|change (gpr (entered c) RSP) with (call_sp c); unfold is_word, frame_ptr in *; lia|].
  change (gpr (entered c) RSP) with (call_sp c) in Hm. rewrite HN8 in Hm.
  rewrite (run_straight env vc_stub (take 4 (drop 25 vc_stub)) fuel) by done.
  change (take 4 (drop 25 vc_stub)) with [Mov (E RDX) (Imm (-1)); Mov (E RAX) (Imm (-1)); Xsave RSP; Call 0].
  set (c0 := set_zf true _). rewrite (exec_all_cons _ _ _ _ _ (exec_mov_imm32 env RDX _ c0)). set (c1 := set_gpr RDX _ c0).
  rewrite (exec_all_cons _ _ _ _ _ (exec_mov_imm32 env RAX _ c1)). set (c2 := set_gpr RAX _ c1).
  rewrite (exec_all_cons _ _ _ _ _ (exec_xsave env RSP c2)). set (c3 := set_cmem _ c2).
  exists c3. split; [cbn [exec_all exec]; by destruct (env 0%nat c3)|].
  assert (Hm3 : cmem c3 = write_bytes m (call_sp c) (xsave_area (xstate c))) by done.
  assert (Hl : Z.of_nat (length (xsave_area (xstate c))) = XSAVE_AREA_SIZE) by apply xl_length.
  assert (Hx : ∀ x, x < call_sp c ∨ frame_ptr c ≤ x → cmem c3 x = cmem (entered c) x).
  { intros x Hx. rewrite Hm3, write_bytes_outside by (unfold XSAVE_STACK_OFFSET in *; lia). apply Hm. lia. }
  split_and!; try done.
  - rewrite <- Hfr. apply frame_at_ext. intros x Hx'. apply Hx. lia.
  - rewrite Hm3. by apply read_write_same.
  - intros x Hx'. rewrite Hx by (unfold frame_ptr in *; lia). cbn [cmem entered].
    rewrite push_words_outside by (unfold saved; cbn [length fmap list_fmap]; unfold frame_ptr in *; lia).
    apply write_usize_outside. unfold frame_ptr in *; lia.
Qed.

End call.

Section vc.
Context {L P E : Type} `{Machine E, Image, XStateLaws}.

(** The result of CPUID in the registers of the machine *)
Definition after_cpuid (r : CpuidResult_) (g : regs) : regs :=
  upd (upd (upd (upd g RAX (c_eax r)) RBX (c_ebx r)) RCX (c_ecx r)) RDX (c_edx r).

(** The frame that the handler leaves for CPUID *)
Definition cpuid_frame (c : cpu) (r : CpuidResult_) (ip : Z) : ExtendedInterruptStackFrameValue :=
  mkFrame (gpr c RBP) (c_ebx r) (gpr c R15) (gpr c R14) (gpr c R13) (gpr c R12) (gpr c R11) (gpr c R10)
    (gpr c R9) (gpr c R8) (c_eax r) (c_ecx r) (c_edx r) (gpr c RDI) (gpr c RSI) ip (read_usize (cmem c) (gpr c RSP + 8 * 2))
    (read_usize (cmem c) (gpr c RSP + 8 * 3)) (read_usize (cmem c) (gpr c RSP + 8 * 4)) (read_usize (cmem c) (gpr c RSP + 8 * 5)).

Lemma cpuid_frame_words c r ip : words c → mem_wf (cmem c) → Forall is_word [c_eax r; c_ebx r; c_ecx r; c_edx r] →
  is_word ip → Forall is_word (frame_words (cpuid_frame c r ip)).
Proof.
  intros Hw Hwf Hr Hip. rewrite !Forall_cons in Hr. destruct Hr as (R1 & R2 & R3 & R4 & _).
  assert (Hrd : ∀ a, is_word (read_usize (cmem c) a)).
  { intros a. pose proof (read_usize_range (cmem c) a Hwf) as Q. unfold is_usize, usize_MAX, is_word in *. lia. }
  unfold frame_words, cpuid_frame.
  cbn [f_rbp f_rbx f_r15 f_r14 f_r13 f_r12 f_r11 f_r10 f_r9 f_r8 f_rax f_rcx f_rdx f_rdi f_rsi instruction_pointer
       code_segment cpu_flags stack_pointer stack_segment].
  repeat (apply Forall_cons; split); first [exact R1|exact R2|exact R3|exact R4|exact Hip|apply Hw|apply Hrd|constructor].
Qed.

(** What the handler does with the frame of a CPUID instruction, in a memory that
    agrees with the interrupted one on the CPUID page *)
Lemma handler_cpuid c (s : kvm L P E) m r ip :
  (∀ x, cpuid_at ≤ x < cpuid_at + 4096 → m x = cmem c x) →
  cpuid_count (as_u32 (gpr c RAX)) (as_u32 (gpr c RCX)) (mkWorld s (cmem c)) = Return (Ok r, mkWorld s (cmem c)) →
  virt_add (read_usize (cmem c) (gpr c RSP + 8)) 2 = Return ip →
  vmm_communication_exception_handler 0x72 (frame0 c) (mkWorld s m) = Return (Ok (cpuid_frame c r ip), mkWorld s m).
Proof.
  intros Hm Hcp Hip. unfold vmm_communication_exception_handler. change (0x72 =? 0x72) with true. cbv beta iota.
  cbn [f_rax f_rcx instruction_pointer frame0].
  pose proof (cpuid_count_ext _ _ s (cmem c) m r Hm Hcp) as Hcp3.
  unfold mbind, handlerM_bind, fal_bind at 1. rewrite Hcp3. unfold fal_bind, must.
  rewrite Z.mul_1_r, Hip. done.
Qed.

(** The registers that the stub pops from that frame *)
Lemma pop_cpuid_frame c m r ip g : Forall is_word (frame_words (cpuid_frame c r ip)) →
  (∀ i v, frame_words (cpuid_frame c r ip) !! i = Some v → read_usize m (frame_ptr c + 8 * Z.of_nat i) = v) →
  upd (pop_regs m (frame_ptr c) restored g) RSP (frame_ptr c + 120) = upd (after_cpuid r (gprs c)) RSP (gpr c RSP + 8).
Proof.
  intros Hfw Hrf. assert (Hpop : ∀ i r0 v, restored !! i = Some r0 → frame_words (cpuid_frame c r ip) !! i = Some v →
    get (upd (pop_regs m (frame_ptr c) restored g) RSP (frame_ptr c + 120)) r0 = v).
  { intros i r0 v Hi Hv. rewrite get_upd_other by (by intros <-; destruct i as [|[|[|[|[|[|[|[|[|[|[|[|[|[|[|i]]]]]]]]]]]]]]]).
    rewrite (pop_regs_get _ _ _ _ i r0) by (done || by apply regs_NoDup). rewrite (Hrf i v Hv).
    apply as_usize_word. exact (Forall_lookup_1 _ _ _ _ Hfw Hv). }
  apply regs_eq. intros r0. destruct r0;
    [exact (Hpop 10%nat RAX _ eq_refl eq_refl)|exact (Hpop 1%nat RBX _ eq_refl eq_refl)|exact (Hpop 11%nat RCX _ eq_refl eq_refl)|
     exact (Hpop 12%nat RDX _ eq_refl eq_refl)|exact (Hpop 14%nat RSI _ eq_refl eq_refl)|exact (Hpop 13%nat RDI _ eq_refl eq_refl)|
     exact (Hpop 0%nat RBP _ eq_refl eq_refl)| |exact (Hpop 9%nat R8 _ eq_refl eq_refl)|exact (Hpop 8%nat R9 _ eq_refl eq_refl)|
     exact (Hpop 7%nat R10 _ eq_refl eq_refl)|exact (Hpop 6%nat R11 _ eq_refl eq_refl)|exact (Hpop 5%nat R12 _ eq_refl eq_refl)|
     exact (Hpop 4%nat R13 _ eq_refl eq_refl)|exact (Hpop 3%nat R14 _ eq_refl eq_refl)|exact (Hpop 2%nat R15 _ eq_refl eq_refl)].
  rewrite !get_upd_same. unfold frame_ptr. lia.
Qed.

(** The frame above the instruction pointer is what the processor pushed *)
Lemma cpuid_frame_tail c m r ip x : Forall is_word (frame_words (cpuid_frame c r ip)) → mem_wf (cmem c) →
  gpr c RSP + 16 ≤ x < gpr c RSP + 48 → write_frame m (frame_ptr c) (cpuid_frame c r ip) x = cmem c x.
Proof.
  intros Hfw Hwf Hx. assert (Hw4 : ∃ j, 2 ≤ j ≤ 5 ∧ gpr c RSP + 8 * j ≤ x < gpr c RSP + 8 * j + 8).
  { exists ((x - gpr c RSP) / 8). dlia. }
  destruct Hw4 as (j & Hj & Hxj).
  refine (frame_bytes m (cmem c) (frame_ptr c) _ (Z.to_nat (14 + j)) x Hfw Hwf _ _); [unfold frame_ptr in *; lia|].
  replace (frame_ptr c + 8 * Z.of_nat (Z.to_nat (14 + j))) with (gpr c RSP + 8 * j) by (unfold frame_ptr; lia).
  assert (j = 2 ∨ j = 3 ∨ j = 4 ∨ j = 5) as [->|[->|[->| ->]]] by lia; reflexivity.
Qed.

(** C18: a CPUID instruction in an SNP guest.  When the processor raises #VC for it,
    with its error code and its frame on the interrupt stack, the stub and the
    handler end in [iretq] after a bounded number of instructions: with the values
    of the CPUID page in [rax], [rbx], [rcx] and [rdx] and all other registers as they
    were, the extended state restored, the stack pointer at the frame, where only the
    instruction pointer has changed (by the length of the instruction), and no memory
    changed outside the interrupt stack. *)
Theorem vc_cpuid_exact (lo : Z) (inner : cpu → outcome cpu) c (s : kvm L P E) r ip :
  compiled_vc lo s inner →
  words c → 0 ≤ xstate c < 256 ^ XSAVE_AREA_SIZE → lo + 112 + XSAVE_STACK_OFFSET + 64 ≤ gpr c RSP → 0 ≤ lo → gpr c RSP + 48 < 2 ^ 64 →
  (cpuid_at + 4096 ≤ lo ∨ gpr c RSP + 48 ≤ cpuid_at) → mem_wf (cmem c) →
  read_usize (cmem c) (gpr c RSP) = 0x72 →
  cpuid_count (as_u32 (gpr c RAX)) (as_u32 (gpr c RCX)) (mkWorld s (cmem c)) = Return (Ok r, mkWorld s (cmem c)) →
  Forall is_word [c_eax r; c_ebx r; c_ecx r; c_edx r] →
  virt_add (read_usize (cmem c) (gpr c RSP + 8)) 2 = Return ip → is_word ip →
  ∃ fuel c', run fuel (λ _, inner) vc_stub c 0 = Return (by_iretq, c') ∧
    gprs c' = upd (after_cpuid r (gprs c)) RSP (gpr c RSP + 8) ∧
    xstate c' = xstate c ∧ gs c' = gs c ∧ kernel_gs c' = kernel_gs c ∧
    read_usize (cmem c') (gpr c RSP + 8) = ip ∧
    ∀ x, x < lo ∨ gpr c RSP + 16 ≤ x → cmem c' x = cmem c x.
Proof.
  intros Hin Hw Hxw Hs Hlo Hs' Hpage Hwf Herr Hcp Hr Hip Hipw. pose proof N_range as [HN HN8]. assert (Hs0 : 112 + XSAVE_STACK_OFFSET + 64 ≤ gpr c RSP) by lia.
  pose proof (call_sp_range c Hs0) as (Hc0 & Hc1 & Hc2).
  destruct (stub_call (λ _, inner) (4 + (15 + 1)) c Hw Hs0) as (c3 & Erun & Hsi & Hdi & Hbx & Hsp3 & Hfr & Hxs & Hgs & Hkgs & Hm3).
  set (f := cpuid_frame c r ip).
  assert (Hrust : vmm_communication_exception_handler (gpr c3 RSI) (frame_at (cmem c3) (gpr c3 RDI)) (mkWorld s (cmem c3))
    = Return (Ok f, mkWorld s (cmem c3))).
  { rewrite Hsi, Herr, Hdi, Hfr. apply handler_cpuid; [|done..]. intros x Hx. apply Hm3. unfold frame_ptr in *. lia. }
  assert (Hfw : Forall is_word (frame_words f)) by (by apply cpuid_frame_words).
  destruct (Hin c3 s (cmem c3) f Hrust) as (c4 & Ec4 & [Hpr Hg Hk] & Hm4). rewrite Ec4, outcome_bind_return in Erun.
  unfold callee_saved in Hpr. rewrite !Forall_cons in Hpr. destruct Hpr as (Pbx & Pbp & Psp & _).
  rewrite Hsp3 in Hm4, Psp. rewrite Hdi in Hm4. rewrite Hbx in Pbx.
  destruct (stub_suffix (λ _, inner) 0 c4) as (g & Es); [rewrite Pbx; unfold is_word, frame_ptr in *; lia..|].
  rewrite Es, Pbx, Psp in Erun. clear Es.
  assert (Hfs : ∀ x, frame_ptr c ≤ x → cmem c4 x = write_frame (cmem c3) (frame_ptr c) f x) by (intros x Hx; apply Hm4; lia).
  assert (Hrf : ∀ i v, frame_words f !! i = Some v → read_usize (cmem c4) (frame_ptr c + 8 * Z.of_nat i) = v).
  { intros i v Hi. rewrite <- (read_frame (cmem c3) (frame_ptr c) f i v Hfw Hi). apply read_usize_ext.
    intros x Hx. apply Hfs. lia. }
  eexists _, _. split; [exact Erun|]. cbn [gprs xstate gs kernel_gs cmem]. split_and!.
  - by apply (pop_cpuid_frame c _ r ip).
  - rewrite <- (xl_roundtrip (xstate c)), <- Hxs by done. f_equal. apply read_bytes_ext. intros x Hx.
    rewrite Hm4 by lia. apply write_frame_outside. unfold XSAVE_STACK_OFFSET in *. lia.
  - congruence.
  - congruence.
  - replace (gpr c RSP + 8) with (frame_ptr c + 8 * Z.of_nat 15) by (unfold frame_ptr; lia). by apply Hrf.
  - intros x Hx. rewrite Hm4 by (unfold frame_ptr in *; lia).
    destruct (decide (x < gpr c RSP ∨ gpr c RSP + 48 ≤ x)) as [Ho|Hi].
    { rewrite write_frame_outside by (unfold frame_ptr in *; lia). apply Hm3. unfold frame_ptr in *. lia. }
    apply cpuid_frame_tail; [done|done|lia].
Qed.

End vc.
