(* ===== verification/KvmEnter.v ===== *)
(** * The entry of system calls, against its assembly

    [_syscall_enter] of [syscall.rs] is assembly around a call of [syscall_rust].
    [KvmShim._syscall_enter] says what it is for; here the instructions are shown
    to do that: the registers, the bases of [gs] and the memory outside the stack
    of the shim are the ones [KvmShim._syscall_enter] computes. *)

From S2P Require Import Prelude Memory Libc PhaseAlloc StagedValues Items Calls CallLaws StageKit.
From S2P Require Import SockTypes Syscalls Stubs SyscallLaws NumberCalls Platform Handler HandlerCalls.
From S2P Require Import KvmMachine Ghcb KvmHostcall KvmAlloc KvmShim Asm AsmLaws KvmAsm.

(** ** Instructions *)

Section instructions.
Context `{XState}.
Variable env : nat → cpu → outcome cpu.

Lemma exec_mov_gs_reg d r c : is_word (gs c + d) →
  exec env (Mov (GS d) (R r)) c = Return (set_cmem (write_usize (cmem c) (gs c + d) (gpr c r)) c).
Proof. intros Hw. cbn [exec write_opnd read_opnd]. by rewrite as_usize_word. Qed.

Lemma exec_mov_gs_zero d c : is_word (gs c + d) →
  exec env (Mov (GS d) (Imm 0)) c = Return (set_cmem (write_usize (cmem c) (gs c + d) 0) c).
Proof. intros Hw. cbn [exec write_opnd read_opnd]. by rewrite (as_usize_word (gs c + d)). Qed.

Lemma exec_mov_reg_gs d r c : is_word (gs c + d) → is_word (read_usize (cmem c) (gs c + d)) →
  exec env (Mov (R r) (GS d)) c = Return (set_gpr r (read_usize (cmem c) (gs c + d)) c).
Proof. intros Hw Hv. cbn [exec write_opnd read_opnd]. rewrite (as_usize_word (gs c + d)) by done. by rewrite as_usize_word. Qed.

Lemma exec_push_gs d c : is_word (gs c + d) → 8 ≤ gpr c RSP < 2 ^ 64 → exec env (Push (GS d)) c =
  Return (set_cmem (write_usize (cmem c) (gpr c RSP - 8) (read_usize (cmem c) (gs c + d))) (set_gpr RSP (gpr c RSP - 8) c)).
Proof.
  intros Hw Hs. cbn [exec read_opnd]. unfold push. rewrite !as_usize_word by (done || unfold is_word; lia). done.
Qed.

Lemma exec_pop_gs d c : is_word (gs c + d) → 0 ≤ gpr c RSP → gpr c RSP + 8 < 2 ^ 64 → exec env (Pop (GS d)) c =
  Return (set_cmem (write_usize (cmem c) (gs c + d) (read_usize (cmem c) (gpr c RSP))) (set_gpr RSP (gpr c RSP + 8) c)).
Proof.
  intros Hw Hs Hs'. cbn [exec]. unfold pop. cbn [write_opnd gs set_gpr]. rewrite !as_usize_word by (done || unfold is_word; lia). done.
Qed.

End instructions.

(** ** Before the call *)

Definition kernel_sp (c : cpu) : Z := read_usize (cmem c) (kernel_gs c + asm_KERNEL_RSP_OFF).

(** What is on the stack of the shim when [syscall_rust] is called *)
Definition on_stack (c : cpu) : list Z := gpr c <$> [RSP; R11; RCX; RBP; RDI; RSI; R10; R9; R8; RAX].

(** Where the stack pointer of the workload is kept, and the stack, are apart. *)
Record enter_ok (lo : Z) (c : cpu) : Prop := {
  eo_words : ∀ r, is_word (gpr c r);
  eo_mem : mem_wf (cmem c);
  eo_stack : 0 ≤ lo ∧ lo + 88 ≤ kernel_sp c;
  eo_tss : 0 ≤ kernel_gs c ∧ kernel_gs c + 36 < 2 ^ 64;
  eo_apart : kernel_gs c + 36 ≤ lo ∨ kernel_sp c ≤ kernel_gs c + 4;
}.

(** The machine when [syscall_rust] is called *)
Definition called (m : mem) (c : cpu) : cpu :=
  mkCpu (upd (upd (upd (gprs c) RSP (kernel_sp c - 80)) RBP (kernel_sp c - 32)) RCX (gpr c R10))
    (zf c) (flags c) (xstate c) (kernel_gs c) (gs c) (sysreg c) (msr c) m.

(** Pushing and writing a word apart from the stack are independent. *)
Lemma push_apart m sp usr v vs x : usr + 8 ≤ sp - 8 * Z.of_nat (S (length vs)) ∨ sp ≤ usr →
  push_words (write_usize (write_usize (write_usize m usr v) (sp - 8) v) usr 0) (sp - 8) vs x =
  write_usize (write_usize (push_words m sp (v :: vs)) usr v) usr 0 x.
Proof.
  intros Hu. destruct (decide (sp - 8 * Z.of_nat (S (length vs)) ≤ x < sp)) as [Hx|Hx].
  - rewrite !(write_usize_outside _ usr _ x) by lia. cbn [push_words].
    destruct (decide (x < sp - 8)) as [Hy|Hy]; [apply push_words_inside; lia|].
    rewrite !push_words_outside by lia. rewrite write_usize_outside by lia. apply write_usize_inside. lia.
  - rewrite (push_words_outside vs) by lia.
    destruct (decide (usr ≤ x < usr + 8)) as [Hy|Hy]; [by apply write_usize_inside|].
    rewrite !(write_usize_outside _ usr _ x) by lia. rewrite (push_words_outside (v :: vs)) by (cbn [length]; lia).
    rewrite !write_usize_outside by lia. done.
Qed.

(** The memory then *)
Definition saving (c : cpu) : mem :=
  let usr := kernel_gs c + asm_USR_RSP_OFF in
  push_words (write_usize (write_usize (write_usize (cmem c) usr (gpr c RSP)) (kernel_sp c - 8) (gpr c RSP)) usr 0)
    (kernel_sp c - 8) (drop 1 (on_stack c)).

Lemma saving_alike lo c x : enter_ok lo c →
  saving c x = write_usize (write_usize (push_words (cmem c) (kernel_sp c) (on_stack c)) (kernel_gs c + asm_USR_RSP_OFF) (gpr c RSP))
               (kernel_gs c + asm_USR_RSP_OFF) 0 x.
Proof.
  intros [Hw Hm [Hlo Hk] [Hg Hg'] Ha]. apply push_apart. change (length _) with 9%nat. unfold asm_USR_RSP_OFF. lia.
Qed.

Lemma saving_rax c : (∀ r, is_word (gpr c r)) → read_usize (saving c) (kernel_sp c - 80) = gpr c RAX.
Proof.
  intros Hw. replace (kernel_sp c - 80) with (kernel_sp c - 8 - 8 * (Z.of_nat 8 + 1)) by lia.
  apply push_words_read; [|done]. by apply Forall_drop, Forall_fmap, Forall_true.
Qed.

Section before.
Context `{XState}.
Variable env : nat → cpu → outcome cpu.

Lemma enter_prefix lo c : enter_ok lo c →
  exec_all env (take 17 asm_syscall_enter) c = Return (called (saving c) c).
Proof.
  intros [Hw Hm [Hlo Hk] [Hg Hg'] Ha]. assert (Hkw : is_word (kernel_sp c)) by (apply read_word; done).
  unfold is_word in Hkw. pose proof (Hw RSP) as Hsp. unfold asm_USR_RSP_OFF, asm_KERNEL_RSP_OFF in *.
  change (take 17 asm_syscall_enter) with ([Swapgs; Lfence; Mov (GS 28) (R RSP); Mov (R RSP) (GS 4); Push (GS 28); Mov (GS 28) (Imm 0)]
    ++ pushes [R11; RCX; RBP] ++ [Mov (R RBP) (R RSP); Mov (R RCX) (R R10)] ++ pushes [RDI; RSI; R10; R9; R8; RAX]).
  rewrite exec_all_app, (exec_all_cons _ _ _ _ _ (exec_swapgs env _)), (exec_all_cons _ _ _ _ _ (exec_lfence env _)).
  assert (W4 : is_word (kernel_gs c + 4)) by (unfold is_word; lia). assert (W28 : is_word (kernel_gs c + 28)) by (unfold is_word; lia).
  rewrite (exec_all_cons _ _ _ _ _ (exec_mov_gs_reg env 28 RSP (swap_gs c) W28)). set (c1 := set_cmem _ _).
  assert (Hk1 : read_usize (cmem c1) (gs c1 + 4) = kernel_sp c).
  { change (gs c1) with (kernel_gs c). apply (read_write_usize_other (cmem c) (kernel_gs c + 28)). lia. }
  rewrite (exec_all_cons _ _ _ _ _ (exec_mov_reg_gs env 4 RSP c1 W4 ltac:(rewrite Hk1; exact Hkw))), Hk1. set (c2 := set_gpr _ _ c1).
  assert (Hr2 : read_usize (cmem c2) (gs c2 + 28) = gpr c RSP) by (apply read_write_usize, is_word_usize, Hsp).
  assert (Hs2 : 8 ≤ gpr c2 RSP < 2 ^ 64) by (change (gpr c2 RSP) with (kernel_sp c); lia).
  rewrite (exec_all_cons _ _ _ _ _ (exec_push_gs env 28 c2 W28 Hs2)), Hr2. set (c3 := set_cmem _ _).
  rewrite (exec_all_cons _ _ _ _ _ (exec_mov_gs_zero env 28 c3 W28)), exec_all_nil, outcome_bind_return. set (c4 := set_cmem _ _).
  change (gpr c2 RSP) with (kernel_sp c) in c3.
  assert (Hs4 : gpr c4 RSP = kernel_sp c - 8) by done.
  rewrite exec_all_app, exec_pushes by (by apply reg_not_in || (rewrite Hs4; unfold is_word; cbn [length]; lia)).
  rewrite outcome_bind_return, Hs4. set (c5 := set_cmem _ _).
  assert (Hs5 : gpr c5 RSP = kernel_sp c - 32) by (change (gpr c5 RSP) with (kernel_sp c - 8 - 8 * Z.of_nat 3); lia).
  rewrite exec_all_app, (exec_all_cons _ _ _ _ _ (exec_mov_reg env RBP RSP c5 ltac:(rewrite Hs5; unfold is_word; lia))).
  set (c6 := set_gpr _ _ c5). assert (H10 : is_word (gpr c6 R10)) by apply (Hw R10).
  rewrite (exec_all_cons _ _ _ _ _ (exec_mov_reg env RCX R10 c6 H10)), exec_all_nil, outcome_bind_return.
  set (c7 := set_gpr _ _ c6). assert (Hs7 : gpr c7 RSP = kernel_sp c - 32) by exact Hs5.
  rewrite exec_pushes by (by apply reg_not_in || (rewrite Hs7; unfold is_word; cbn [length]; lia)).
  rewrite Hs7. f_equal. unfold called. 
  unfold set_cmem, set_gpr. cbn [gprs zf flags xstate gs kernel_gs sysreg msr cmem]. f_equal.
  - apply regs_eq. intros r. destruct r; try reflexivity; [exact Hs5|].
    change (kernel_sp c - 32 - 8 * 6 = kernel_sp c - 80). lia.
  - unfold saving. assert (Hv : drop 1 (on_stack c) = (gpr c <$> [R11; RCX; RBP]) ++ (gpr c <$> [RDI; RSI; R10; R9; R8; RAX])) by done.
    rewrite Hv, push_words_app. change (kernel_sp c - 8 - 8 * Z.of_nat (length _)) with (kernel_sp c - 8 - 24).
    replace (kernel_sp c - 8 - 24) with (kernel_sp c - 32) by lia. reflexivity.
Qed.

End before.

(** ** After the call *)

(** The registers of the workload that are popped *)
Definition popped : list reg := [R8; R9; R10; RSI; RDI; RBP; RCX; R11].

Lemma popped_regs c m sp g : (∀ r, is_word (gpr c r)) →
  (∀ i v, on_stack c !! i = Some v → read_usize m (sp - 8 * (Z.of_nat i + 1)) = v) →
  ∀ i r, popped !! i = Some r → get (pop_regs m (sp - 80 + 8) popped g) r = gpr c r.
Proof.
  intros Hw Hs i r Hi. rewrite (pop_regs_get _ _ _ _ i r) by (done || by apply regs_NoDup).
  assert (Hl : (i < 8)%nat) by (by apply lookup_lt_Some in Hi).
  replace (sp - 80 + 8 + 8 * Z.of_nat i) with (sp - 8 * (Z.of_nat (8 - i) + 1)) by lia.
  rewrite (Hs (8 - i)%nat (gpr c r)); [by apply as_usize_word|].
  do 8 (destruct i as [|i]; [injection Hi as <-; reflexivity|]). lia.
Qed.

Section after.
Context `{XState}.
Variable env : nat → cpu → outcome cpu.

Lemma enter_suffix fuel c :
  0 ≤ gpr c RSP → gpr c RSP + 80 < 2 ^ 64 → is_word (gs c + asm_USR_RSP_OFF) →
  is_word (read_usize (cmem c) (gpr c RSP + 72)) →
  let sp := read_usize (cmem c) (gpr c RSP + 72) in
  run (13 + S fuel) env asm_syscall_enter c 18 =
    Return (by_sysretq,
      mkCpu (upd (pop_regs (cmem c) (gpr c RSP + 8) popped (gprs c)) RSP sp) false (flags c) (xstate c)
        (kernel_gs c) (gs c) (sysreg c) (msr c) (write_usize (cmem c) (gs c + asm_USR_RSP_OFF) sp)).
Proof.
  intros Hs Hs' Hg Hsp sp.
  rewrite (run_straight env asm_syscall_enter (take 13 (drop 18 asm_syscall_enter)) (S fuel)) by done.
  change (take 13 (drop 18 asm_syscall_enter)) with
    (Alu ADD (R RSP) (Imm 8) :: pops popped ++ [Pop (GS asm_USR_RSP_OFF); Mov (R RSP) (GS asm_USR_RSP_OFF); Swapgs; Lfence]).
  rewrite (exec_all_cons _ _ _ _ _ (exec_add_imm env RSP 8 c ltac:(lia) Hs ltac:(lia))).
  cpu_canon. name_cpu c1. assert (S1 : gpr c1 RSP = gpr c RSP + 8) by done.
  rewrite exec_all_app, exec_pops by (by apply reg_not_in || (rewrite S1; cbn [length popped]; lia)).
  rewrite outcome_bind_return, S1. unfold c1. cpu_canon. name_cpu c2.
  assert (S2 : gpr c2 RSP = gpr c RSP + 72) by (unfold gpr at 1; cbn [gprs c2]; rewrite get_upd_same; cbn [length popped]; lia).
  rewrite (exec_all_cons _ _ _ _ _ (exec_pop_gs env asm_USR_RSP_OFF c2 Hg ltac:(rewrite S2; lia) ltac:(rewrite S2; lia))).
  rewrite S2. change (cmem c2) with (cmem c). fold sp. cpu_canon. name_cpu c3.
  assert (R3 : read_usize (cmem c3) (gs c3 + asm_USR_RSP_OFF) = sp) by (apply read_write_usize, is_word_usize, Hsp).
  rewrite (exec_all_cons _ _ _ _ _ (exec_mov_reg_gs env asm_USR_RSP_OFF RSP c3 Hg ltac:(rewrite R3; exact Hsp))), R3.
  rewrite (exec_all_cons _ _ _ _ _ (exec_swapgs env _)), (exec_all_cons _ _ _ _ _ (exec_lfence env _)), exec_all_nil.
  rewrite outcome_bind_return, (run_leave env _ _ _ _ Sysretq by_sysretq) by done. do 2 f_equal.
  unfold c3, c2. cpu_canon.
  rewrite !upd_upd, <- (pop_regs_rsp _ _ popped), upd_upd by (by apply reg_not_in).
  rewrite (proj2 (Z.eqb_neq (gpr c RSP + 8) 0)) by lia. reflexivity.
Qed.

End after.

(** ** The whole *)

Section enter.
Context {L P E : Type} `{Machine E, Image, HeapOps L, Mapper P, Aead}.
Variable fuel : nat.

(** The registers and bases of the machine, as the shim has them *)
Definition regs_of (c : cpu) : Regs :=
  mkRegs (gpr c RAX) (gpr c RDI) (gpr c RSI) (gpr c RDX) (gpr c R10) (gpr c R8) (gpr c R9) (gpr c RSP) (gpr c RCX) (gpr c R11).
Definition agrees (c : cpu) (s : kvm L P E) : Prop :=
  gs c = gs_base (kv_bases s) ∧ kernel_gs c = kernel_gs_base (kv_bases s).

Definition swapped (s : kvm L P E) : kvm L P E :=
  set_bases (mkBases (fs_base (kv_bases s)) (kernel_gs_base (kv_bases s)) (gs_base (kv_bases s))) s.

(** [syscall_rust] as compiled code, called in the state [s]: seven arguments, the
    last on the stack, two results; what it does to the state, the bases and the memory
    is what its source says, but for its own stack, from [lo] to [rsp]. *)
Definition compiled_syscall (lo : Z) (s : kvm L P E) (inner : cpu → outcome cpu) : Prop := ∀ c m m' s' v d,
  agrees c s → (∀ x, cmem c x = m x) →
  syscall_rust fuel (gpr c RDI) (gpr c RSI) (gpr c RDX) (gpr c RCX) (gpr c R8) (gpr c R9)
    (read_usize (cmem c) (gpr c RSP)) (mkWorld s m) = Return (Ok (v, d), mkWorld s' m') →
  ∃ c', inner c = Return c' ∧ Forall (λ r, gpr c' r = gpr c r) callee_saved ∧ agrees c' s' ∧
    gpr c' RAX = v ∧ gpr c' RDX = d ∧ ∀ x, ¬ (lo ≤ x < gpr c RSP) → cmem c' x = m' x.

(** What a run of [KvmShim._syscall_enter] consists of *)
Lemma enter_inv r s m r' k s' m' : is_usize (rsp r) →
  _syscall_enter fuel r (mkWorld s m) = Return (Ok (r', k), mkWorld s' m') →
  let usr := kernel_gs_base (kv_bases s) + asm_USR_RSP_OFF in
  ∃ v d s1 m1,
    syscall_rust fuel (rdi r) (rsi r) (rdx r) (r10 r) (r8 r) (r9 r) (rax r)
      (mkWorld (swapped s) (write_usize (write_usize m usr (rsp r)) usr 0)) = Return (Ok (v, d), mkWorld s1 m1) ∧
    r' = mkRegs v (rdi r) (rsi r) d (r10 r) (r8 r) (r9 r) (rsp r) (rcx r) (r11 r) ∧
    s' = swapped s1 ∧ m' = write_usize m1 (gs_base (kv_bases s1) + asm_USR_RSP_OFF) (rsp r) ∧
    k = read_usize m (kernel_gs_base (kv_bases s) + asm_KERNEL_RSP_OFF).
Proof.
  intros Hr. unfold _syscall_enter, KvmShim.swapgs, set_base, modify, gs_write, gs_read, mbind, handlerM_bind, fal_bind.
  cbn [w_self w_mem]. change USR_RSP_OFF with asm_USR_RSP_OFF. change KERNEL_RSP_OFF with asm_KERNEL_RSP_OFF.
  change (set_bases _ s) with (swapped s). change (gs_base (kv_bases (swapped s))) with (kernel_gs_base (kv_bases s)).
  rewrite (read_write_usize m) by done.
  destruct (syscall_rust _ _ _ _ _ _ _ _ _) as [[[[v d]|e] [s1 m1]]| | |] eqn:Eq; intros Hq; try discriminate Hq.
  cbn [w_self w_mem] in Hq. rewrite (read_write_usize m1) in Hq by done. injection Hq as <- <- <- <-.
  exists v, d, s1, m1. do 4 (split; [reflexivity|]).
  apply read_write_usize_other. unfold asm_USR_RSP_OFF, asm_KERNEL_RSP_OFF. lia.
Qed.

(** C19: what the instructions of [_syscall_enter] do is what [KvmShim._syscall_enter]
    says, when the stack pointer in the task state segment leaves room for the
    stack of the shim and the stack is kept by [syscall_rust]: they end in [sysretq],
    with the registers that it computes, the others as they were, the bases of [gs] as
    it has them, and its memory, but for the stack of the shim. *)
Theorem syscall_enter_refined lo (inner : cpu → outcome cpu) c s r' k s' m' `{XState} :
  compiled_syscall lo (swapped s) inner → agrees c s → enter_ok lo c →
  let sp := kernel_sp c in let m := push_words (cmem c) sp (on_stack c) in
  _syscall_enter fuel (regs_of c) (mkWorld s m) = Return (Ok (r', k), mkWorld s' m') →
  (∀ x, sp - 80 ≤ x < sp → m' x = m x) →
  let usr := kernel_gs_base (kv_bases s') + asm_USR_RSP_OFF in
  is_word usr → usr + 8 ≤ lo ∨ sp ≤ usr →
  k = sp ∧ ∃ c', run 32 (λ _, inner) asm_syscall_enter c 0 = Return (by_sysretq, c') ∧ regs_of c' = r' ∧
    Forall (λ r, gpr c' r = gpr c r) [RBX; RBP; R12; R13; R14; R15] ∧ agrees c' s' ∧
    ∀ x, ¬ (lo ≤ x < sp) → cmem c' x = m' x.
Proof.
  intros Hin [Hg Hkg] Hok sp m Hent Hst usr Hu Hua. pose proof Hok as [Hw Hm [Hlo Hk] [Hg0 Hg1] Ha].
  destruct (enter_inv (regs_of c) _ _ _ _ _ _ (is_word_usize _ (Hw RSP)) Hent) as (v & d & s1 & m1 & Hr & -> & -> & -> & ->).
  rewrite <- Hkg in *. split.
  { apply read_usize_ext. intros x Hx. apply push_words_outside. unfold asm_KERNEL_RSP_OFF in *.
    change (length (on_stack c)) with 10%nat. lia. }
  rewrite (run_straight (λ _, inner) asm_syscall_enter (take 18 asm_syscall_enter) 14) by done.
  change (take 18 asm_syscall_enter) with (take 17 asm_syscall_enter ++ [Call 0]).
  rewrite exec_all_app, (enter_prefix _ lo) by done. rewrite outcome_bind_return. set (cc := called (saving c) c).
  assert (Hrax : read_usize (cmem cc) (gpr cc RSP) = gpr c RAX) by (by apply saving_rax).
  destruct (Hin cc _ m1 s1 v d (conj Hkg Hg) (λ x, saving_alike lo c x Hok)) as (c1 & E1 & Hpr & [Hg2 Hk2] & Hv & Hd & Hm1).
  { rewrite Hrax. exact Hr. }
  assert (Ec : exec_all (λ _, inner) [Call 0] cc = Return c1) by (cbn [exec_all exec]; by rewrite E1).
  rewrite Ec, outcome_bind_return.
  change (0 + length _)%nat with 18%nat. change 14%nat with (13 + 1)%nat at 1.
  unfold callee_saved in Hpr. rewrite !Forall_cons in Hpr. destruct Hpr as (Pbx & _ & Psp & P12 & P13 & P14 & P15 & _).
  change (gpr cc RSP) with (sp - 80) in Psp, Hm1.
  assert (Hkw : is_word sp) by (by apply read_word). unfold is_word in Hkw. change (lo + 88 ≤ sp) in Hk.
  assert (Hus : gs c1 + asm_USR_RSP_OFF = usr) by (rewrite Hg2; done).
  change (gs_base (kv_bases s1) + asm_USR_RSP_OFF) with usr in Hst.
  assert (Hstk : ∀ i v0, on_stack c !! i = Some v0 → read_usize (cmem c1) (sp - 8 * (Z.of_nat i + 1)) = v0).
  { intros i v0 Hi. rewrite <- (push_words_read (on_stack c) (cmem c) sp i v0) by (done || by apply Forall_fmap, Forall_true).
    apply lookup_lt_Some in Hi. change (length (on_stack c)) with 10%nat in Hi.
    apply read_usize_ext. intros x Hx. rewrite Hm1 by lia.
    rewrite <- (write_usize_outside m1 usr (gpr c RSP) x) by lia. apply (Hst x). lia. }
  assert (Hsp : read_usize (cmem c1) (gpr c1 RSP + 72) = gpr c RSP).
  { rewrite <- (Hstk 0%nat (gpr c RSP) eq_refl). f_equal. lia. }
  eexists. split; [apply enter_suffix; rewrite ?Hsp, ?Psp, ?Hus; [lia|lia|done|apply Hw]|].
  rewrite Hsp, Psp, Hus. pose proof (popped_regs c (cmem c1) sp (gprs c1) Hw Hstk) as Hp.
  assert (Ho : ∀ r, r ∉ RSP :: popped → ∀ z, get (upd (pop_regs (cmem c1) (sp - 80 + 8) popped (gprs c1)) RSP z) r = gpr c1 r).
  { intros r [Hn1 Hn2]%not_elem_of_cons z. rewrite get_upd_other by (by apply not_eq_sym). by apply pop_regs_other. }
  split_and!.
  - unfold regs_of, gpr. cbn [gprs]. rewrite (Ho RAX), (Ho RDX) by (by apply reg_not_in). rewrite get_upd_same, !get_upd_other by done.
    rewrite (Hp 4%nat RDI eq_refl), (Hp 3%nat RSI eq_refl), (Hp 2%nat R10 eq_refl), (Hp 0%nat R8 eq_refl),
      (Hp 1%nat R9 eq_refl), (Hp 6%nat RCX eq_refl), (Hp 7%nat R11 eq_refl), Hv, Hd. reflexivity.
  - unfold gpr at 1. cbn [gprs]. repeat (apply Forall_cons; split); try (rewrite Ho by (by apply reg_not_in); done); [|constructor].
    rewrite get_upd_other by done. exact (Hp 5%nat RBP eq_refl).
  - done.
  - intros x Hx. cbn [cmem]. change (gs_base (kv_bases s1) + asm_USR_RSP_OFF) with usr. change (rsp (regs_of c)) with (gpr c RSP).
    destruct (decide (usr ≤ x < usr + 8)) as [Hy|Hy]; [by apply write_usize_inside|].
    rewrite !write_usize_outside by lia. apply Hm1. lia.
Qed.

End enter.
