(* ===== verification/KvmAsmSample.v ===== *)
(** * The naked functions on a concrete machine

    Compiled code that does what its source says and nothing else, an extended
    state of 576 bytes, and the properties of the naked functions of the KVM shim
    on a CPUID instruction, a system call and the entry of the workload. *)

From Stdlib Require Import FunctionalExtensionality.
From S2P Require Import Prelude Memory Libc PhaseAlloc StagedValues Items Calls CallLaws StageKit.
From S2P Require Import SockTypes Syscalls Stubs SyscallLaws NumberCalls Platform Handler HandlerCalls Dispatch.
From S2P Require Import KvmMachine Ghcb KvmHostcall KvmAlloc KvmShim KvmSample GhcbLaws KvmGuarantees SnpLoad CpuidPage.
From S2P Require Import Asm AsmLaws KvmAsm KvmEnter.

#[global] Instance sample_xstate : XState := {|
  xsave_area x := to_le_bytes 576 x;
  xrstor_area bs := from_le_bytes bs;
  XSAVE_AREA_SIZE := 576;
  xinit := 0x37F;
|}.

#[global] Instance sample_xstate_laws : XStateLaws.
Proof.
  split.
  - split; [cbn; lia|reflexivity].
  - intros x. cbn [xsave_area XSAVE_AREA_SIZE sample_xstate]. rewrite length_to_le_bytes. lia.
  - intros x Hx. cbn [xsave_area xrstor_area sample_xstate]. rewrite from_to_le_bytes. by apply Z.mod_small.
Qed.

Definition all_regs (v : Z) : regs := mkGprs v v v v v v v v v v v v v v v v.

(** ** The workload is entered *)

Lemma usermode_clean_witness : ∃ c',
  run 32 (λ _ c, Return c) (asm_usermode RSI)
    (mkCpu (upd (upd (upd (all_regs 0xdead) RSP 0x8000) RSI 0x7000) RCX 0x4000) true 2 99 1 2 (λ _, 0x30) (λ _, 0) (λ _, 0)) 0
    = Return (by_sysretq, c') ∧ gpr c' RSP = 0x7000 ∧ gpr c' RDI = 0.
Proof.
  destruct (usermode_clean (λ _ c, Return c) RSI
    (mkCpu (upd (upd (upd (all_regs 0xdead) RSP 0x8000) RSI 0x7000) RCX 0x4000) true 2 99 1 2 (λ _, 0x30) (λ _, 0) (λ _, 0)))
    as (c' & Er & Hr & _ & _ & Hs & _); [done|done|by vm_compute|by vm_compute|by vm_compute|].
  exists c'. split; [exact Er|]. split; [exact Hs|]. apply Hr. by apply reg_not_in.
Defined.

(** ** A CPUID instruction *)

Definition vc_code (c : cpu) : outcome cpu :=
  match vmm_communication_exception_handler (gpr c RSI) (frame_at (cmem c) (gpr c RDI))
          (mkWorld (w_self page_world) (cmem c)) with
  | Return (Ok f, w) => Return (set_cmem (write_frame (w_mem w) (gpr c RDI) f) c)
  | _ => Panicked
  end.

Lemma vc_code_compiled lo : compiled_vc lo (w_self page_world) vc_code.
Proof.
  intros c s' m' f Hr. unfold vc_code. rewrite Hr. eexists. split; [reflexivity|]. split; [|done].
  split; [|done..]. by apply Forall_true.
Qed.

(** Leaf 0xD, sub-leaf 1; the interrupt stack is above the CPUID page. *)
Definition vc_sp : Z := cpuid_at + 0x3000.
Definition vc_cpu : cpu :=
  mkCpu (upd (upd (upd (all_regs 7) RSP vc_sp) RAX 0xD) RCX 1) false 2 99 1 2 (λ _, 0) (λ _, 0)
    (write_bytes (w_mem page_world) vc_sp (words_to_bytes [0x72; 0x400000; 0x33; 2; 0x7ff000; 0x2b])).

Lemma sample_wf : mem_wf (w_mem page_world).
Proof.
  intros x. change (w_mem page_world) with (write_bytes (λ _, 0) cpuid_at (CpuidPage_bytes (snp_cpuid_entry <$>
    accepted (take 4 kvm_entries)))). apply write_bytes_wf; [intros y; lia|].
  apply Forall_forall. intros b Hb.
  assert (Hc : forallb (λ b, (0 <=? b) && (b <? 256)) (CpuidPage_bytes (snp_cpuid_entry <$> accepted (take 4 kvm_entries))) = true)
    by (vm_compute; reflexivity).
  rewrite forallb_forall in Hc. specialize (Hc b (proj1 (list_elem_of_In _ _) Hb)). bool_to_prop. lia.
Qed.

Lemma sample_functions : get_functions (cmem vc_cpu) = Return (seen <$> (snp_cpuid_entry <$> accepted (take 4 kvm_entries))).
Proof. vm_compute. reflexivity. Qed.

Lemma sample_cpuid : cpuid_count (as_u32 (gpr vc_cpu RAX)) (as_u32 (gpr vc_cpu RCX)) (mkWorld (w_self page_world) (cmem vc_cpu)) =
  Return (Ok (mkCpuidResult 15 0x240 4 5), mkWorld (w_self page_world) (cmem vc_cpu)).
Proof.
  unfold cpuid_count. change (negb snp_active) with false. cbv iota.
  unfold reads, mbind, handlerM_bind, fal_bind, must. cbn [w_mem]. rewrite sample_functions. reflexivity.
Qed.

Lemma vc_cpuid_exact_witness : ∃ fuel c', run fuel (λ _, vc_code) vc_stub vc_cpu 0 = Return (by_iretq, c') ∧
  gpr c' RAX = 15 ∧ gpr c' RBX = 0x240 ∧ gpr c' RDI = 7 ∧ read_usize (cmem c') (vc_sp + 8) = 0x400002.
Proof.
  destruct (vc_cpuid_exact (cpuid_at + 0x1000) vc_code vc_cpu (w_self page_world) (mkCpuidResult 15 0x240 4 5) 0x400002)
    as (fuel & c' & Er & Hg & _ & _ & _ & Hi & _).
  - apply vc_code_compiled.
  - intros r. by destruct r; vm_compute.
  - split; [done|]. by vm_compute.
  - by vm_compute.
  - by vm_compute.
  - by vm_compute.
  - left. by vm_compute.
  - apply write_bytes_wf; [exact sample_wf|]. apply Forall_bind, Forall_true. intros w. apply to_le_bytes_wf.
  - vm_compute. reflexivity.
  - exact sample_cpuid.
  - repeat (apply Forall_cons; split); [unfold is_word; cbn [c_eax c_ebx c_ecx c_edx]; lia..|constructor].
  - vm_compute. reflexivity.
  - by vm_compute.
  - exists fuel, c'. split; [exact Er|]. unfold gpr. rewrite Hg. by split_and!.
Defined.

(** ** A system call *)

#[local] Existing Instance bump_heap.
#[local] Existing Instance list_mapper.

(** The task state segment at 0x9000, the stack of the shim below 0x8000 *)
Definition enter_kvm : kvm bump (list (Z * (Z * Z))) hypervisor :=
  set_bases (mkBases 0 0x4000 0x9000) (keep (mkHypervisor grants [])).

(** [arch_prctl(ARCH_SET_FS, 0x7000)] *)
Definition enter_cpu : cpu :=
  mkCpu (upd (upd (upd (upd (all_regs 7) RSP 0x5000) RAX SYS_arch_prctl) RDI ARCH_SET_FS) RSI 0x7000)
    false 2 99 0x4000 0x9000 (λ _, 0) (λ _, 0) (write_usize (λ _, 0) 0x9004 0x8000).

Definition syscall_code (s : kvm bump (list (Z * (Z * Z))) hypervisor) (c : cpu) : outcome cpu :=
  match syscall_rust 1 (gpr c RDI) (gpr c RSI) (gpr c RDX) (gpr c RCX) (gpr c R8) (gpr c R9)
          (read_usize (cmem c) (gpr c RSP)) (mkWorld s (cmem c)) with
  | Return (Ok (v, d), w) =>
      Return (mkCpu (upd (upd (gprs c) RAX v) RDX d) (zf c) (flags c) (xstate c) (gs_base (kv_bases (w_self w)))
        (kernel_gs_base (kv_bases (w_self w))) (sysreg c) (msr c) (w_mem w))
  | _ => Panicked
  end.

Lemma syscall_code_compiled lo s : compiled_syscall 1 lo s (syscall_code s).
Proof.
  intros c m m' s' v d Ha Hm Hr. apply functional_extensionality in Hm as <-.
  unfold syscall_code. rewrite Hr. eexists. split; [reflexivity|]. split; [|done].
  repeat (apply Forall_cons; split); done || constructor.
Qed.

Lemma enter_cpu_ok : enter_ok 0x1000 enter_cpu.
Proof.
  split.
  - intros r. by destruct r; vm_compute.
  - apply write_bytes_wf; [intros x; lia|]. apply to_le_bytes_wf.
  - by vm_compute.
  - by vm_compute.
  - right. by vm_compute.
Qed.

(** What the model computes, as far as it is needed *)
Definition enter_checks (w' : world (kvm bump (list (Z * (Z * Z))) hypervisor)) (r' : Regs) : bool :=
  (rax r' =? 0) && (rsp r' =? 0x5000) && (fs_base (kv_bases (w_self w')) =? 0x7000) &&
  (kernel_gs_base (kv_bases (w_self w')) =? 0x9000) &&
  forallb (λ x, w_mem w' x =? push_words (cmem enter_cpu) 0x8000 (on_stack enter_cpu) x) (seqZ (0x8000 - 80) 80).

Lemma enter_runs : ∃ r' k w',
  _syscall_enter 1 (regs_of enter_cpu) (mkWorld enter_kvm (push_words (cmem enter_cpu) 0x8000 (on_stack enter_cpu))) =
    Return (Ok (r', k), w') ∧ enter_checks w' r' = true.
Proof.
  assert (Hret : match _syscall_enter 1 (regs_of enter_cpu) (mkWorld enter_kvm (push_words (cmem enter_cpu) 0x8000 (on_stack enter_cpu))) with
                 | Return (Ok (r', k), w') => enter_checks w' r'
                 | _ => false
                 end = true) by (vm_compute; reflexivity).
  destruct (_syscall_enter _ _ _) as [[[[r' k]|e] w']| | |]; try discriminate Hret. by exists r', k, w'.
Qed.

Lemma syscall_enter_refined_witness : ∃ c',
  run 32 (λ _, syscall_code (swapped enter_kvm)) asm_syscall_enter enter_cpu 0 = Return (by_sysretq, c') ∧
  gpr c' RAX = 0 ∧ gpr c' RSP = 0x5000 ∧ kernel_gs c' = 0x9000.
Proof.
  destruct enter_runs as (r' & k & [s' m'] & Er & Hc). unfold enter_checks in Hc. cbn [w_self w_mem] in Hc.
  rewrite !andb_true_iff, !Z.eqb_eq in Hc. destruct Hc as ((((Hx & Hs) & _) & Hg) & Hst).
  destruct (syscall_enter_refined 1 0x1000 (syscall_code (swapped enter_kvm)) enter_cpu enter_kvm r' k s' m')
    as (_ & c' & Hrun & Hr & _ & [Hgs Hkgs] & _).
  - apply syscall_code_compiled.
  - done.
  - exact enter_cpu_ok.
  - exact Er.
  - intros x Hx'. rewrite forallb_forall in Hst. apply Z.eqb_eq. apply Hst. apply list_elem_of_In, elem_of_seqZ.
    change (kernel_sp enter_cpu) with 0x8000 in Hx'. lia.
  - rewrite Hg. by vm_compute.
  - right. rewrite Hg. by vm_compute.
  - exists c'. split; [exact Hrun|]. subst r'. split; [exact Hx|]. split; [exact Hs|]. rewrite Hkgs. exact Hg.
Defined.
