(* ===== verification/SgxAsm.v ===== *)
(** * The naked functions of the SGX shim

    [crates/shim-sgx/src/main.rs]: the entry of the enclave, instruction by
    instruction, around the compiled functions [main] and [dyn_reloc].  Whatever
    [main] leaves in the registers, what the host sees after EEXIT is the exit
    address, the registers it called with and constants; and an exception before
    the shim is ready for it never leaves the enclave.

    The laws, at the end, say what each of them does. *)
From S2P Require Import Prelude Memory Asm AsmLaws.

(** [sgx::enclu::EEXIT] *)
Definition EEXIT : Z := 4.

Definition asm_clearx : list instr := [
  Alu XOR (R R10) (R R10);
  Alu XOR (R R11) (R R11);
  Push (Imm 0);
  Popfq;
  Push (R RAX);
  Push (R RDX);
  Mov (R RDX) (Imm (-1));
  Mov (R RAX) (Imm (-1));
  XrstorInit;
  Pop (R RDX);
  Pop (R RAX);
  Ret].

Definition asm_clearp : list instr := [
  Alu XOR (R RAX) (R RAX);
  Alu XOR (R RDI) (R RDI);
  Alu XOR (R RSI) (R RSI);
  Alu XOR (R RDX) (R RDX);
  Alu XOR (R RCX) (R RCX);
  Alu XOR (R R8) (R R8);
  Alu XOR (R R9) (R R9);
  Ret].

(** The addresses of [_DYNAMIC] and [ENARX_SHIM_ADDRESS] are of the linker. *)
Definition asm_relocate (_DYNAMIC ENARX_SHIM_ADDRESS : Z) : list instr := [
  Push (R RAX); Push (R RDI); Push (R RSI); Push (R RDX); Push (R RCX); Push (R R8); Push (R R9); Push (R R10);
  Push (R R11);
  Lea RDI None _DYNAMIC;
  Lea RSI None ENARX_SHIM_ADDRESS;
  Call 0;
  Pop (R R11); Pop (R R10); Pop (R R9); Pop (R R8); Pop (R RCX); Pop (R RDX); Pop (R RSI); Pop (R RDI);
  Pop (R RAX);
  Ret].

(** [EXTO] and [RSPO] are offsets of fields of [StateSaveArea], a structure of the
    [sgx] crate.  Calls: 0 is [RELOC], 1 [CLEARX], 2 [ENTRY], 3 [CLEARP]. *)
Definition asm_start (EXTO RSPO : Z) : list instr := [
  Cld;
  Xchg (R RBX) RCX;
  Cmp (R RAX) (Imm 0);
  Jne 2 f_;
  Mov (R R10) (R RCX);
  Jmp 3 f_;
  Label 2;
  Mov (R R10) (R RAX);
  Alu SHL (R R10) (Imm 12);
  Alu ADD (R R10) (R RCX);
  Mov (R R11) (Q (Some R10) EXTO);
  Cmp (R R11) (Imm 0);
  Je 2 b_;
  Mov (R R10) (Q (Some R10) RSPO);
  Alu SUB (R R10) (Imm 128);
  Label 3;
  Alu AND (R R10) (Imm (Z.lnot 0xf));
  Xchg (R RSP) R10;
  Alu SUB (R RSP) (Imm 8);
  Push (R R10);
  Cmp (R RAX) (Imm 0);
  Jne 4 f_;
  Call 0;
  Label 4;
  Lea RSI (Some RCX) 4096;
  Mov (R RDX) (R RAX);
  Call 1;
  Call 2;
  Call 1;
  Call 3;
  Pop (R RSP);
  Mov (R RAX) (Imm EEXIT);
  Enclu].

Section start.
Context `{XState}.
Variables EXTO RSPO _DYNAMIC ENARX_SHIM_ADDRESS ret : Z.
Variables dyn_reloc main : cpu → outcome cpu.

Definition relocate : cpu → outcome cpu :=
  asm_call 22 (λ _, dyn_reloc) (asm_relocate _DYNAMIC ENARX_SHIM_ADDRESS) ret.
Definition clearx : cpu → outcome cpu := asm_call 12 (λ _ c, Return c) asm_clearx ret.
Definition clearp : cpu → outcome cpu := asm_call 8 (λ _ c, Return c) asm_clearp ret.

(** [_start], with what it calls *)
Definition start_env (f : nat) : cpu → outcome cpu :=
  match f with 0%nat => relocate | 1%nat => clearx | 2%nat => main | _ => clearp end.
Definition _start (fuel : nat) (c : cpu) : outcome (exit * cpu) := run fuel start_env (asm_start EXTO RSPO) c 0.

End start.

(** ** Clearing *)

Section clear.
Context `{XState}.
Variable env : nat → cpu → outcome cpu.

Lemma exec_clear_flags c : 8 ≤ gpr c RSP < 2 ^ 64 →
  exec_all env [Push (Imm 0); Popfq] c = Return (set_flags false 0 (set_cmem (write_usize (cmem c) (gpr c RSP - 8) 0) c)).
Proof.
  intros Hs. cbn [exec_all exec mbind outcome_bind read_opnd]. unfold push. change (as_usize 0) with 0.
  rewrite (as_usize_word (gpr c RSP - 8)) by (unfold is_word; lia). set (c1 := set_cmem _ _).
  assert (S1 : gpr c1 RSP = gpr c RSP - 8) by done. rewrite S1.
  assert (R1 : read_usize (cmem c1) (gpr c RSP - 8) = 0) by (apply read_write_usize; unfold is_usize, usize_MAX; lia).
  rewrite R1. change (Z.testbit 0 6) with false. change (Z.clearbit 0 6) with 0.
  replace (gpr c RSP - 8 + 8) with (gpr c RSP) by lia. rewrite as_usize_word by (unfold is_word; lia).
  unfold c1, set_flags, set_gpr, set_cmem. cbn [gprs zf flags xstate gs kernel_gs sysreg msr cmem].
  rewrite upd_upd. unfold gpr. by rewrite upd_get.
Qed.

End clear.

(** A call returns when the code ends in [ret] with the return address in place. *)
Lemma asm_call_ret `{XState} fuel env code ret c c' : run fuel env code (push ret c) 0 = Return (by_ret, c') →
  gpr c' RSP = gpr c RSP - 8 → 8 ≤ gpr c RSP < 2 ^ 64 → read_usize (cmem c') (gpr c RSP - 8) = ret →
  asm_call fuel env code ret c = Return (set_gpr RSP (gpr c RSP) c').
Proof.
  intros Er Hs Hw Hr. unfold asm_call. rewrite Er. cbn [mbind outcome_bind]. rewrite Hs, Hr, Z.eqb_refl.
  replace (gpr c RSP - 8 + 8) with (gpr c RSP) by lia. by rewrite as_usize_word by (unfold is_word; lia).
Qed.

Lemma exec_lea `{XState} env r d c : exec env (Lea r None d) c = Return (set_gpr r (as_usize d) c).
Proof. done. Qed.

Lemma usize_word z : is_word (as_usize z).
Proof. unfold is_word, as_usize. apply Z.mod_pos_bound. lia. Qed.

Lemma words_upd g r v : (∀ r, is_word (get g r)) → is_word v → ∀ r', is_word (get (upd g r v) r').
Proof.
  intros Hg Hv r'. destruct (decide (r = r')) as [<-|]; [by rewrite get_upd_same|by rewrite get_upd_other].
Qed.

(** Registers are restored by popping in the opposite order. *)
Lemma pop_pushed m sp rs g g0 r : NoDup rs → (∀ r, is_word (get g0 r)) →
  (∀ i v, (get g0 <$> rs) !! i = Some v → read_usize m (sp - 8 * (Z.of_nat i + 1)) = v) → r ∈ rs →
  get (pop_regs m (sp - 8 * Z.of_nat (length rs)) (reverse rs) g) r = get g0 r.
Proof.
  intros Hn Hw Hr Hin. apply list_elem_of_lookup in Hin as [i Hi]. pose proof (lookup_lt_Some _ _ _ Hi) as Hl.
  rewrite (pop_regs_get _ _ _ _ (length rs - 1 - i) r).
  - replace (sp - 8 * Z.of_nat (length rs) + 8 * Z.of_nat (length rs - 1 - i)) with (sp - 8 * (Z.of_nat i + 1)) by lia.
    rewrite (Hr i (get g0 r)); [by apply as_usize_word|]. by rewrite list_lookup_fmap, Hi.
  - by rewrite reverse_Permutation.
  - rewrite reverse_lookup_Some. split; [|lia]. rewrite <- Hi. f_equal. lia.
Qed.

Section laws.
Context `{XState}.
Variable ret : Z.
Hypothesis Hret : is_word ret.

(** The flags, the extended state and [r10], [r11] are cleared, the other registers
    kept; of the memory, 24 bytes of stack are used. *)
Lemma clearx_call c : 24 ≤ gpr c RSP < 2 ^ 64 → is_word (gpr c RAX) → is_word (gpr c RDX) → ∃ m,
  clearx ret c = Return (mkCpu (upd (upd (gprs c) R10 0) R11 0) false 0 xinit (gs c) (kernel_gs c) (sysreg c) (msr c) m) ∧
  ∀ x, x < gpr c RSP - 24 ∨ gpr c RSP ≤ x → m x = cmem c x.
Proof.
  intros Hs Ha Hd. set (sp := gpr c RSP) in *. unfold clearx.
  assert (Er : ∃ m, run 12 (λ _ c, Return c) asm_clearx (push ret c) 0 =
    Return (by_ret, mkCpu (upd (upd (upd (gprs c) R10 0) R11 0) RSP (sp - 8)) false 0 xinit (gs c) (kernel_gs c) (sysreg c) (msr c) m) ∧
    ∀ x, x < sp - 24 ∨ sp - 8 ≤ x → m x = write_usize (cmem c) (sp - 8) ret x).
  2: { destruct Er as (m & Er & Hm). exists m. split; [|intros x Hx; rewrite Hm by lia; apply write_usize_outside; lia].
    apply (asm_call_ret _ _ _ _ _ _ Er); [done|lia|]. cbn [cmem]. fold sp.
    rewrite <- (read_write_usize (cmem c) (sp - 8) ret) by (by apply is_word_usize).
    apply read_usize_ext. intros x Hx. apply Hm. lia. }
  unfold push. rewrite (as_usize_word (gpr c RSP - 8)) by (unfold is_word; fold sp; lia). fold sp. cpu_canon.
  rewrite (run_straight _ asm_clearx (take 11 asm_clearx) 1) by done.
  change (take 11 asm_clearx) with ([Alu XOR (R R10) (R R10); Alu XOR (R R11) (R R11)] ++ [Push (Imm 0); Popfq] ++
    pushes [RAX; RDX] ++ [Mov (R RDX) (Imm (-1)); Mov (R RAX) (Imm (-1)); XrstorInit] ++ pops [RDX; RAX]).
  rewrite exec_all_app, !(exec_all_cons _ _ _ _ _ (exec_xor_self _ _ _)), exec_all_nil, outcome_bind_return.
  cpu_canon. name_cpu c1. assert (S1 : gpr c1 RSP = sp - 8) by done.
  rewrite exec_all_app, exec_clear_flags, outcome_bind_return by (rewrite S1; lia). rewrite S1. unfold set_flags. cpu_canon.
  name_cpu c2. assert (S2 : gpr c2 RSP = sp - 8) by done.
  rewrite exec_all_app, exec_pushes, outcome_bind_return by (by apply reg_not_in || (rewrite S2; unfold is_word; cbn [length]; lia)).
  rewrite S2. cpu_canon. name_cpu c3.
  rewrite exec_all_app, !(exec_all_cons _ _ _ _ _ (exec_mov_imm _ _ _ _)), (exec_all_cons _ _ _ _ _ (exec_xrstor_init _ _)).
  unfold set_xstate. cpu_canon. rewrite exec_all_nil, outcome_bind_return. name_cpu c4.
  assert (S4 : gpr c4 RSP = sp - 24) by (change (sp - 8 - 16 = sp - 24); lia).
  rewrite exec_pops, outcome_bind_return by (by apply reg_not_in || (rewrite S4; cbn [length]; lia)). rewrite S4.
  rewrite (run_leave _ _ _ _ _ Ret by_ret) by done. eexists. split.
  - do 2 f_equal. cbn [zf flags xstate gs kernel_gs sysreg msr cmem c4 c3 c2 c1]. f_equal.
    set (m := push_words _ _ _). assert (Hf : Forall is_word (gpr c2 <$> [RAX; RDX])) by (repeat constructor; apply Ha || apply Hd).
    assert (Rd : read_usize m (sp - 24) = gpr c RDX).
    { replace (sp - 24) with (sp - 8 - 8 * (Z.of_nat 1 + 1)) by lia. by apply push_words_read. }
    assert (Ra : read_usize m (sp - 24 + 8) = gpr c RAX).
    { replace (sp - 24 + 8) with (sp - 8 - 8 * (Z.of_nat 0 + 1)) by lia. by apply push_words_read. }
    cbn [pop_regs]. rewrite Rd, Ra, !as_usize_word by done. apply regs_eq. intros r.
    destruct r; try reflexivity. rewrite !get_upd_same. cbn [length]. lia.
  - intros x Hx. cbn [cmem c4 c3 c2 c1]. rewrite push_words_outside by (cbn [length fmap list_fmap]; lia).
    apply write_usize_outside. lia.
Qed.

(** The registers of arguments are cleared. *)
Lemma clearp_call c : 8 ≤ gpr c RSP < 2 ^ 64 → ∃ m,
  clearp ret c = Return (mkCpu (foldl (λ g r, upd g r 0) (gprs c) [RAX; RDI; RSI; RDX; RCX; R8; R9])
    true (flags c) (xstate c) (gs c) (kernel_gs c) (sysreg c) (msr c) m) ∧
  ∀ x, x < gpr c RSP - 8 ∨ gpr c RSP ≤ x → m x = cmem c x.
Proof.
  intros Hs. exists (write_usize (cmem c) (gpr c RSP - 8) ret). split; [|intros x Hx; apply write_usize_outside; lia].
  assert (Er : run 8 (λ _ c, Return c) asm_clearp (push ret c) 0 = Return (by_ret,
    mkCpu (upd (foldl (λ g r, upd g r 0) (gprs c) [RAX; RDI; RSI; RDX; RCX; R8; R9]) RSP (gpr c RSP - 8))
      true (flags c) (xstate c) (gs c) (kernel_gs c) (sysreg c) (msr c) (write_usize (cmem c) (gpr c RSP - 8) ret))).
  { unfold push. rewrite (as_usize_word (gpr c RSP - 8)) by (unfold is_word; lia). cpu_canon.
    rewrite (run_straight _ asm_clearp (take 7 asm_clearp) 1) by done. cbn [take asm_clearp].
    do 7 (rewrite (exec_all_cons _ _ _ _ _ (exec_xor_self _ _ _)); cpu_canon).
    rewrite exec_all_nil, outcome_bind_return, (run_leave _ _ _ _ _ Ret by_ret) by done.
    reflexivity. }
  unfold clearp. rewrite (asm_call_ret _ _ _ _ _ _ Er); [|done|done|by apply read_write_usize, is_word_usize].
  by destruct c as [[]].
Qed.

(** The code of relocation keeps all registers, for a [dyn_reloc] that returns as
    compiled code does and keeps the stack of its callers, up to [hi]. *)
Definition returns (hi : Z) (f : cpu → outcome cpu) (c : cpu) : Prop :=
  ∃ c', f c = Return c' ∧ Forall (λ r, gpr c' r = gpr c r) callee_saved ∧
    (∀ x, gpr c RSP ≤ x < hi → cmem c' x = cmem c x) ∧ ∀ r, is_word (gpr c' r).

Definition saved_by_relocate : list reg := [RAX; RDI; RSI; RDX; RCX; R8; R9; R10; R11].

Lemma saved_either r : r ∈ saved_by_relocate ∨ r ∈ callee_saved.
Proof. apply (bool_decide_eq_true_1 _). by destruct r. Qed.

(** [rcrt1::dyn_reloc], called for this image with room on the stack *)
Definition relocates (lo hi _DYNAMIC ENARX_SHIM_ADDRESS : Z) (dyn_reloc : cpu → outcome cpu) : Prop := ∀ c,
  (∀ r, is_word (gpr c r)) → lo ≤ gpr c RSP ≤ hi → gpr c RDI = as_usize _DYNAMIC → gpr c RSI = as_usize ENARX_SHIM_ADDRESS →
  returns hi dyn_reloc c.

Lemma relocate_call lo hi _DYNAMIC ENARX_SHIM_ADDRESS dyn_reloc c : relocates lo hi _DYNAMIC ENARX_SHIM_ADDRESS dyn_reloc →
  0 ≤ lo → lo + 80 ≤ gpr c RSP ≤ hi → (∀ r, is_word (gpr c r)) →
  ∃ c', relocate _DYNAMIC ENARX_SHIM_ADDRESS ret dyn_reloc c = Return c' ∧ gprs c' = gprs c ∧
    ∀ x, gpr c RSP ≤ x < hi → cmem c' x = cmem c x.
Proof.
  intros Hd Hlo Hs Hw. pose proof (Hw RSP) as Hs'. unfold is_word in Hs'. set (sp := gpr c RSP) in *. unfold relocate. set (code := asm_relocate _ _).
  assert (Er : ∃ c', run 22 (λ _, dyn_reloc) code (push ret c) 0 = Return (by_ret, c') ∧
    gprs c' = upd (gprs c) RSP (sp - 8) ∧ ∀ x, sp - 8 ≤ x < hi → cmem c' x = write_usize (cmem c) (sp - 8) ret x).
  2: { destruct Er as (c' & Er & Hg & Hm). eexists. split.
    - apply (asm_call_ret _ _ _ _ _ _ Er); [unfold gpr; by rewrite Hg|lia|]. fold sp.
      rewrite <- (read_write_usize (cmem c) (sp - 8) ret) by (by apply is_word_usize).
      apply read_usize_ext. intros x Hx. apply Hm. lia.
    - cpu_canon. rewrite Hg, upd_upd. split; [apply upd_get|]. intros x Hx. rewrite Hm by lia. apply write_usize_outside. lia. }
  unfold push. rewrite (as_usize_word (gpr c RSP - 8)) by (unfold is_word; fold sp; lia). fold sp. cpu_canon.
  rewrite (run_straight _ code (take 21 code) 1) by done.
  change (take 21 code) with (pushes saved_by_relocate ++ [Lea RDI None _DYNAMIC; Lea RSI None ENARX_SHIM_ADDRESS] ++ [Call 0] ++
    pops (reverse saved_by_relocate)).
  rewrite exec_all_app. name_cpu c1. assert (S1 : gpr c1 RSP = sp - 8) by done.
  assert (Hw1 : ∀ r, is_word (gpr c1 r)) by (apply words_upd; [exact Hw|unfold is_word; lia]).
  rewrite exec_pushes, outcome_bind_return by (by apply reg_not_in || (rewrite S1; unfold is_word; cbn [length saved_by_relocate]; lia)).
  rewrite S1. cpu_canon. rewrite exec_all_app, !(exec_all_cons _ _ _ _ _ (exec_lea _ _ _ _)), exec_all_nil, outcome_bind_return. cpu_canon.
  name_cpu c2. assert (S2 : gpr c2 RSP = sp - 80) by (change (sp - 8 - 72 = sp - 80); lia).
  assert (Hw2 : ∀ r, is_word (gpr c2 r)).
  { do 3 (apply words_upd; [|apply usize_word || (unfold is_word; cbn [length saved_by_relocate]; lia)]). exact Hw1. }
  destruct (Hd c2 Hw2) as (c3 & E3 & Hc & Hm3 & _); [rewrite S2; lia|done|done|]. rewrite S2 in Hm3.
  rewrite exec_all_app. assert (Ec : exec_all (λ _, dyn_reloc) [Call 0] c2 = Return c3) by (cbn [exec_all exec]; by rewrite E3).
  rewrite Ec, outcome_bind_return. assert (S3 : gpr c3 RSP = sp - 80).
  { unfold callee_saved in Hc. rewrite !Forall_cons in Hc. destruct Hc as (_ & _ & Hc & _). by rewrite Hc. }
  rewrite exec_pops, outcome_bind_return by (by apply reg_not_in || (rewrite S3; change (length _) with 9%nat; lia)).
  rewrite (run_leave _ _ _ _ _ Ret by_ret), S3 by done. eexists. split; [reflexivity|]. cbn [gprs cmem]. split.
  - apply regs_eq. intros r. destruct (decide (r = RSP)) as [->|Hr].
    { rewrite !get_upd_same. change (length _) with 9%nat. lia. }
    rewrite !get_upd_other by (by apply not_eq_sym). destruct (decide (r ∈ saved_by_relocate)) as [Hin|Hin].
    + replace (sp - 80) with (sp - 8 - 8 * Z.of_nat (length saved_by_relocate)) by (change (length _) with 9%nat; lia).
      apply pop_pushed; [by apply regs_NoDup|exact Hw| |done]. intros i v Hi.
      assert (Hf : Forall is_word (gpr c1 <$> saved_by_relocate)) by (by apply Forall_fmap, Forall_true).
      rewrite <- (push_words_read (gpr c1 <$> saved_by_relocate) (cmem c1) (sp - 8) i v) by done.
      apply lookup_lt_Some in Hi. change (length _) with 9%nat in Hi. apply read_usize_ext. intros x Hx. apply Hm3. lia.
    + rewrite pop_regs_other by (by rewrite elem_of_reverse). destruct (saved_either r) as [Hs1|Hcr]; [done|].
      rewrite Forall_forall in Hc. change (get (gprs c3) r) with (gpr c3 r). rewrite (Hc r Hcr).
      destruct r; try reflexivity; [destruct Hin; by apply (bool_decide_eq_true_1 _)..|done].
  - intros x Hx. rewrite Hm3 by lia. apply push_words_outside. change (length _) with 9%nat. lia.
Qed.

End laws.

(** ** [_start] *)

Section instructions.
Context `{XState}.
Variable env : nat → cpu → outcome cpu.

Lemma exec_xchg_reg d r c : is_word (gpr c r) →
  exec env (Xchg (R d) r) c = Return (set_gpr r (gpr c d) (set_gpr d (gpr c r) c)).
Proof. intros Hw. cbn [exec read_opnd write_opnd]. by rewrite as_usize_word. Qed.

Lemma exec_cmp_zero r c : is_word (gpr c r) → exec env (Cmp (R r) (Imm 0)) c = Return (set_zf (gpr c r =? 0) c).
Proof. intros Hw. cbn [exec read_opnd trunc]. change (as_usize 0) with 0. by rewrite Z.sub_0_r, as_usize_word. Qed.

Lemma exec_load d b o c : is_word (gpr c b + o) → mem_wf (cmem c) →
  exec env (Mov (R d) (Q (Some b) o)) c = Return (set_gpr d (read_usize (cmem c) (gpr c b + o)) c).
Proof.
  intros Hb Hm. cbn [exec read_opnd write_opnd base_of]. rewrite (as_usize_word (gpr c b + o)) by done.
  by rewrite as_usize_word by (by apply read_word).
Qed.

Lemma exec_lea_base r b d c : is_word (gpr c b + d) → exec env (Lea r (Some b) d) c = Return (set_gpr r (gpr c b + d) c).
Proof. intros Hw. cbn [exec base_of]. by rewrite as_usize_word. Qed.

Lemma exec_pop_rsp c : is_word (read_usize (cmem c) (gpr c RSP)) →
  exec env (Pop (R RSP)) c = Return (set_gpr RSP (read_usize (cmem c) (gpr c RSP)) c).
Proof.
  intros Hm. cbn [exec]. unfold pop. cbn [write_opnd]. rewrite (as_usize_word (read_usize _ _)) by done.
  cpu_canon. by rewrite upd_upd.
Qed.

Lemma exec_cld c : exec env Cld c = Return (set_flags (zf c) (Z.clearbit (flags c) 10) c).
Proof. done. Qed.

End instructions.

(** What EENTER passes *)
Definition cssa (c : cpu) : Z := gpr c RAX.
Definition tcs (c : cpu) : Z := gpr c RBX.
(** [&SSA[CSSA - 1]] *)
Definition ssa (c : cpu) : Z := cssa c * 2 ^ 12 + tcs c.

Section start.
Context `{XState}.
Variables EXTO RSPO _DYNAMIC ENARX_SHIM_ADDRESS ret : Z.
Variable dyn_reloc : cpu → outcome cpu.
Abbreviation envs := (start_env _DYNAMIC ENARX_SHIM_ADDRESS ret dyn_reloc).
Abbreviation code := (asm_start EXTO RSPO).

(** The machine is well-formed, and the state save areas are in the address space. *)
Record entered_ok (c : cpu) : Prop := {
  en_words : ∀ r, is_word (gpr c r);
  en_mem : mem_wf (cmem c);
  en_ssa : ssa c + 4096 < 2 ^ 64;
  en_offsets : 0 ≤ EXTO ≤ 4088 ∧ 0 ≤ RSPO ≤ 4088;
}.

(** The stack for this entry: the page below the thread control structure, or the
    stack of the interrupted shim without its red zone *)
Definition raw_top (c : cpu) : Z :=
  if cssa c =? 0 then tcs c else read_usize (cmem c) (ssa c + RSPO) - 128.
Definition top (c : cpu) : Z := raw_top c / 16 * 16.

(** After the first instructions *)
Definition swapped_cpu (c : cpu) (v10 v11 : Z) (z : bool) : cpu :=
  mkCpu (upd (upd (upd (upd (gprs c) RBX (gpr c RCX)) RCX (tcs c)) R10 v10) R11 v11) z (Z.clearbit (flags c) 10)
    (xstate c) (gs c) (kernel_gs c) (sysreg c) (msr c) (cmem c).

Lemma start_first main fuel c : entered_ok c →
  run (4 + fuel) (envs main) code c 0 =
    run fuel (envs main) code (swapped_cpu c (gpr c R10) (gpr c R11) (cssa c =? 0)) (if cssa c =? 0 then 4 else 6).
Proof.
  intros [Hw Hm Hs Ho]. change (4 + fuel)%nat with (3 + S fuel)%nat.
  rewrite (run_straight (envs main) code [Cld; Xchg (R RBX) RCX; Cmp (R RAX) (Imm 0)] (S fuel)) by done.
  rewrite (exec_all_cons _ _ _ _ _ (exec_cld _ _)). unfold set_flags. name_cpu c1.
  rewrite (exec_all_cons _ _ _ _ _ (exec_xchg_reg (envs main) RBX RCX c1 (Hw RCX))). unfold c1. cpu_canon. name_cpu c2.
  rewrite (exec_all_cons _ _ _ _ _ (exec_cmp_zero (envs main) RAX c2 (Hw RAX))), exec_all_nil, outcome_bind_return.
  rewrite (run_jne (envs main) fuel code _ 3 2 f_ 6) by done. unfold c2. cpu_canon.
  change (gpr _ RAX =? 0) with (cssa c =? 0). reflexivity.
Qed.

(** One round of the search for the previous state save area *)
Lemma start_look main fuel c v10 v11 z : entered_ok c →
  let e := read_usize (cmem c) (ssa c + EXTO) in
  run (7 + fuel) (envs main) code (swapped_cpu c v10 v11 z) 6 =
    run fuel (envs main) code (swapped_cpu c (ssa c) e (e =? 0)) (if e =? 0 then 6 else 13).
Proof.
  intros [Hw Hm Hs Ho] e. change (7 + fuel)%nat with (6 + S fuel)%nat.
  rewrite (run_straight (envs main) code (take 6 (drop 6 code)) (S fuel)) by done. cbn [take drop asm_start].
  pose proof (Hw RAX) as Ha. pose proof (Hw RBX) as Hb. unfold is_word in Ha, Hb. unfold ssa, cssa, tcs in *.
  rewrite (exec_all_cons _ _ _ _ _ (exec_label (envs main) 2 _)). name_cpu c1.
  rewrite (exec_all_cons _ _ _ _ _ (exec_mov_reg (envs main) R10 RAX c1 (Hw RAX))). unfold c1, swapped_cpu. cpu_canon. name_cpu c2.
  assert (A2 : gpr c2 R10 = gpr c RAX) by done.
  rewrite (exec_all_cons _ _ _ _ _ (exec_shl (envs main) R10 12 c2 ltac:(lia) ltac:(rewrite A2; lia) ltac:(rewrite A2; lia))), A2.
  unfold c2. cpu_canon. name_cpu c3. assert (A3 : gpr c3 R10 = gpr c RAX * 2 ^ 12) by done. assert (B3 : gpr c3 RCX = gpr c RBX) by done.
  rewrite (exec_all_cons _ _ _ _ _ (exec_add_reg (envs main) R10 RCX c3 ltac:(rewrite A3; lia) ltac:(rewrite B3; lia) ltac:(rewrite A3, B3; lia))), A3, B3.
  unfold c3. cpu_canon. name_cpu c4. assert (A4 : gpr c4 R10 = gpr c RAX * 2 ^ 12 + gpr c RBX) by done.
  rewrite (exec_all_cons _ _ _ _ _ (exec_load (envs main) R11 R10 EXTO c4 ltac:(rewrite A4; unfold is_word; lia) Hm)), A4.
  unfold c4. cpu_canon. fold e. name_cpu c5. assert (A5 : gpr c5 R11 = e) by done.
  rewrite (exec_all_cons _ _ _ _ _ (exec_cmp_zero (envs main) R11 c5 ltac:(rewrite A5; by apply read_word))), exec_all_nil, outcome_bind_return, A5.
  rewrite (run_je (envs main) fuel code _ 12 2 b_ 6) by done. unfold c5. cpu_canon. reflexivity.
Qed.

(** The top of the stack is found, unless the previous entry was not ready. *)
Lemma start_find c : entered_ok c → (cssa c ≠ 0 → read_usize (cmem c) (ssa c + EXTO) ≠ 0 ∧ 128 ≤ read_usize (cmem c) (ssa c + RSPO)) →
  ∃ k v z, (k ≤ 13)%nat ∧ is_word v ∧ ∀ main fuel, run (k + fuel) (envs main) code c 0 = run fuel (envs main) code (swapped_cpu c (raw_top c) v z) 15.
Proof.
  intros Hok Hx. pose proof Hok as [Hw Hm Hs Ho]. unfold raw_top. destruct (cssa c =? 0) eqn:Ez.
  - exists 6%nat, (gpr c R11), true. split; [lia|]. split; [apply Hw|]. intros main fuel.
    change (6 + fuel)%nat with (4 + (1 + S fuel))%nat. rewrite start_first, Ez by done.
    rewrite (run_straight (envs main) code [Mov (R R10) (R RCX)] (S fuel)) by done. name_cpu c1.
    rewrite (exec_all_cons _ _ _ _ _ (exec_mov_reg (envs main) R10 RCX c1 (Hw RBX))), exec_all_nil, outcome_bind_return.
    rewrite (run_jmp (envs main) fuel code _ 5 3 f_ 15) by done. reflexivity.
  - apply Z.eqb_neq in Ez as Hne. destruct (Hx Hne) as [He Hr].
    set (e := read_usize (cmem c) (ssa c + EXTO)) in *. exists 13%nat, e. eexists. split; [lia|]. split; [by apply read_word|].
    intros main fuel. change (13 + fuel)%nat with (4 + (7 + (2 + fuel)))%nat. rewrite start_first, Ez, start_look by done. fold e.
    rewrite (proj2 (Z.eqb_neq e 0)) by done.
    rewrite (run_straight (envs main) code (take 2 (drop 13 code)) fuel) by done. cbn [take drop asm_start]. name_cpu c1.
    assert (A1 : gpr c1 R10 = ssa c) by done. pose proof (Hw RAX) as Ha. pose proof (Hw RBX) as Hb. unfold is_word in Ha, Hb.
    assert (Hsw : is_word (ssa c + RSPO)) by (unfold ssa, cssa, tcs, is_word in *; lia).
    rewrite (exec_all_cons _ _ _ _ _ (exec_load (envs main) R10 R10 RSPO c1 ltac:(rewrite A1; done) Hm)), A1.
    unfold c1, swapped_cpu. cpu_canon. name_cpu c2. set (v := read_usize (cmem c) (ssa c + RSPO)) in *.
    assert (A2 : gpr c2 R10 = v) by done. assert (Hv : is_word v) by (by apply read_word).
    rewrite (exec_all_cons _ _ _ _ _ (exec_sub_imm (envs main) R10 128 c2 ltac:(rewrite A2; lia) ltac:(rewrite A2; exact Hv))), A2.
    rewrite exec_all_nil, outcome_bind_return. unfold c2. cpu_canon. reflexivity.
Qed.

(** The stack of the host is kept on the stack of the enclave. *)
Definition stacked (c : cpu) (v : Z) (z : bool) : cpu :=
  mkCpu (upd (upd (upd (upd (upd (gprs c) RBX (gpr c RCX)) RCX (tcs c)) R10 (gpr c RSP)) R11 v) RSP (top c - 16)) z
    (Z.clearbit (flags c) 10) (xstate c) (gs c) (kernel_gs c) (sysreg c) (msr c) (write_usize (cmem c) (top c - 16) (gpr c RSP)).

Lemma start_setup c v z : (∀ r, is_word (gpr c r)) → is_word (raw_top c) → 16 ≤ top c →
  ∃ z', ∀ main fuel, run (5 + fuel) (envs main) code (swapped_cpu c (raw_top c) v z) 15 = run fuel (envs main) code (stacked c v z') 20.
Proof.
  intros Hw Hr Ht. eexists. intros main fuel. rewrite (run_straight (envs main) code (take 5 (drop 15 code)) fuel) by done. cbn [take drop asm_start].
  rewrite (exec_all_cons _ _ _ _ _ (exec_label (envs main) 3 _)). name_cpu c1.
  rewrite (exec_all_cons _ _ _ _ _ (exec_align (envs main) R10 4 c1 Hr ltac:(lia))). change (gpr c1 R10 / 2 ^ 4 * 2 ^ 4) with (top c).
  unfold c1, swapped_cpu. cpu_canon. name_cpu c2.
  assert (Htw : is_word (top c)) by (unfold top, is_word in *; dlia).
  rewrite (exec_all_cons _ _ _ _ _ (exec_xchg_reg (envs main) RSP R10 c2 Htw)). change (gpr c2 RSP) with (gpr c RSP). change (gpr c2 R10) with (top c).
  unfold c2. cpu_canon. name_cpu c3. assert (S3 : gpr c3 RSP = top c) by done.
  rewrite (exec_all_cons _ _ _ _ _ (exec_sub_imm (envs main) RSP 8 c3 ltac:(rewrite S3; lia) ltac:(rewrite S3; exact Htw))), S3.
  unfold c3. cpu_canon. name_cpu c4. assert (S4 : gpr c4 RSP = top c - 8) by done.
  change [Push (R R10)] with (pushes [R10]). unfold is_word in Htw.
  rewrite exec_pushes, outcome_bind_return by (by apply reg_not_in || (rewrite S4; unfold is_word; cbn [length]; lia)). rewrite S4.
  cbn [length fmap list_fmap push_words]. change (8 * Z.of_nat 1) with 8. replace (top c - 8 - 8) with (top c - 16) by lia.
  unfold c4. cpu_canon. reflexivity.
Qed.

Lemma stacked_words c v z : (∀ r, is_word (gpr c r)) → is_word v → is_word (top c - 16) → ∀ r, is_word (gpr (stacked c v z) r).
Proof. intros Hw Hv Ht. repeat (apply words_upd; [|apply Hw || done]). apply Hw. Qed.

Lemma exec_call main f c : exec_all (envs main) [Call f] c = (envs main) f c.
Proof. cbn [exec_all exec]. by destruct (envs main f c). Qed.

(** Relocation, for the first entry *)
Lemma start_relocated lo c v z : (∀ r, is_word (gpr c r)) → is_word v → is_word (top c) → 0 ≤ lo → lo + 96 ≤ top c → is_word ret →
  (cssa c = 0 → relocates lo (top c) _DYNAMIC ENARX_SHIM_ADDRESS dyn_reloc) →
  ∃ k c1, (k ≤ 3)%nat ∧ (∀ main fuel, run (k + fuel) (envs main) code (stacked c v z) 20 = run fuel (envs main) code c1 23) ∧
    gprs c1 = gprs (stacked c v z) ∧ ∀ x, top c - 16 ≤ x < top c → cmem c1 x = cmem (stacked c v z) x.
Proof.
  intros Hw Hv Ht Hlo Hl Hret Hrel. unfold is_word in Ht. set (c0 := stacked c v z).
  assert (Hw0 : ∀ r, is_word (gpr c0 r)) by (apply stacked_words; [done|done|unfold is_word; lia]).
  assert (Ec : ∀ main fuel, run (2 + fuel) (envs main) code c0 20 = run fuel (envs main) code (set_zf (cssa c =? 0) c0) (if cssa c =? 0 then 22 else 23)).
  { intros main fuel. change (2 + fuel)%nat with (1 + S fuel)%nat.
    rewrite (run_straight (envs main) code [Cmp (R RAX) (Imm 0)] (S fuel)) by done.
    rewrite (exec_all_cons _ _ _ _ _ (exec_cmp_zero (envs main) RAX c0 (Hw0 RAX))), exec_all_nil, outcome_bind_return.
    by rewrite (run_jne (envs main) fuel code _ 21 4 f_ 23). }
  destruct (cssa c =? 0) eqn:Ez.
  - apply Z.eqb_eq in Ez. set (c1 := set_zf true c0) in *.
    destruct (relocate_call ret Hret lo (top c) _DYNAMIC ENARX_SHIM_ADDRESS dyn_reloc c1 (Hrel Ez) Hlo) as (c2 & E2 & Hg & Hm2);
      [change (gpr c1 RSP) with (top c - 16); lia|exact Hw0|]. change (gpr c1 RSP) with (top c - 16) in Hm2.
    exists 3%nat, c2. split; [lia|]. split; [|by split]. intros main fuel. change (3 + fuel)%nat with (2 + (1 + fuel))%nat. rewrite Ec.
    rewrite (run_straight (envs main) code [Call 0] fuel) by done. rewrite exec_call.
    change (envs main 0%nat c1) with (relocate _DYNAMIC ENARX_SHIM_ADDRESS ret dyn_reloc c1). by rewrite E2.
  - exists 2%nat, (set_zf false c0). split; [lia|]. by split.
Qed.

(** What [main] is called with *)
Record calls_main (c cm : cpu) : Prop := {
  cm_block : gpr cm RDI = gpr c RDI;
  cm_ssas : gpr cm RSI = tcs c + 4096;
  cm_cssa : gpr cm RDX = cssa c;
  cm_stack : gpr cm RSP = top c - 16;
  cm_exit : gpr cm RBX = gpr c RCX;
  cm_kept : Forall (λ r, gpr cm r = gpr c r) [RBP; R12; R13; R14; R15];
  cm_xstate : xstate cm = xinit;
  cm_flags : flags cm = 0 ∧ zf cm = false;
  cm_host : read_usize (cmem cm) (top c - 16) = gpr c RSP;
  cm_words : ∀ r, is_word (gpr cm r);
}.

Lemma start_main lo c v z : (∀ r, is_word (gpr c r)) → is_word v → is_word (top c) → 0 ≤ lo → lo + 96 ≤ top c → is_word ret →
  is_word (tcs c + 4096) →
  (cssa c = 0 → relocates lo (top c) _DYNAMIC ENARX_SHIM_ADDRESS dyn_reloc) →
  ∃ k cm, (k ≤ 7)%nat ∧ (∀ main fuel, run (k + fuel) (envs main) code (stacked c v z) 20 = run fuel (envs main) code cm 27) ∧ calls_main c cm.
Proof.
  intros Hw Hv Ht Hlo Hl Hret Htc Hrel. destruct (start_relocated lo c v z Hw Hv Ht Hlo Hl Hret Hrel) as (k & c1 & Hk & Er & Hg & Hm).
  unfold is_word in Ht. assert (Hw1 : ∀ r, is_word (gpr c1 r)).
  { unfold gpr. rewrite Hg. apply stacked_words; [done|done|unfold is_word; lia]. }
  set (c2 := set_gpr RDX (gpr c1 RAX) (set_gpr RSI (gpr c1 RCX + 4096) c1)).
  assert (C1 : gpr c1 RCX = tcs c) by (unfold gpr; by rewrite Hg).
  destruct (clearx_call ret Hret c2) as (m & Ex & Hmx);
    [change (gpr c2 RSP) with (gpr c1 RSP); unfold gpr; rewrite Hg; change (get _ RSP) with (top c - 16); lia|exact (Hw1 RAX)|exact (Hw1 RAX)|].
  assert (S2 : gpr c2 RSP = top c - 16) by (change (gpr c2 RSP) with (gpr c1 RSP); unfold gpr; by rewrite Hg). rewrite S2 in Hmx.
  eexists (k + 4)%nat, _. split; [lia|]. split.
  - intros main fuel. replace (k + 4 + fuel)%nat with (k + (4 + fuel))%nat by lia. rewrite Er.
    rewrite (run_straight (envs main) code (take 4 (drop 23 code)) fuel) by done. cbn [take drop asm_start].
    rewrite (exec_all_cons _ _ _ _ _ (exec_label (envs main) 4 _)).
    rewrite (exec_all_cons _ _ _ _ _ (exec_lea_base (envs main) RSI RCX 4096 c1 ltac:(rewrite C1; exact Htc))).
    rewrite (exec_all_cons _ _ _ _ _ (exec_mov_reg (envs main) RDX RAX (set_gpr RSI (gpr c1 RCX + 4096) c1) (Hw1 RAX))).
    rewrite exec_call. change (envs main 1%nat _) with (clearx ret c2). rewrite Ex, outcome_bind_return. reflexivity.
  - assert (Hgr : ∀ r, r ∉ [RSI; RDX; R10; R11] → get (upd (upd (gprs c2) R10 0) R11 0) r = gpr (stacked c v z) r).
    { intros r Hr. rewrite !not_elem_of_cons in Hr. destruct Hr as (A1 & A2 & A3 & A4 & _).
      rewrite !get_upd_other by congruence. unfold c2, set_gpr. cbn [gprs]. rewrite !get_upd_other by congruence. by rewrite Hg. }
    split.
    + exact (Hgr RDI ltac:(by apply reg_not_in)).
    + change (gpr c1 RCX + 4096 = tcs c + 4096). by rewrite C1.
    + change (gpr c1 RAX = cssa c). unfold gpr. by rewrite Hg.
    + exact (Hgr RSP ltac:(by apply reg_not_in)).
    + exact (Hgr RBX ltac:(by apply reg_not_in)).
    + repeat constructor; (eapply Hgr; by apply reg_not_in).
    + done.
    + done.
    + cbn [cmem]. rewrite <- (read_write_usize (cmem c) (top c - 16) (gpr c RSP)) by (apply is_word_usize, Hw).
      apply read_usize_ext. intros x Hx. rewrite Hmx by lia. apply Hm. lia.
    + repeat (apply words_upd; [|by unfold is_word]). apply words_upd; [|apply Hw1]. apply words_upd; [exact Hw1|].
      by rewrite C1.
Qed.

(** The end: whatever [main] leaves in the registers *)
Lemma start_end main fuel c cm : (∀ r, is_word (gpr c r)) → is_word ret → is_word (top c) → 40 ≤ top c → calls_main c cm → returns (top c) main cm →
  ∃ c', run (6 + fuel) (envs main) code cm 27 = Return (by_enclu, c') ∧ gpr c' RAX = EEXIT ∧ gpr c' RBX = gpr c RCX ∧
    Forall (λ r, gpr c' r = gpr c r) [RSP; RBP; R12; R13; R14; R15] ∧
    Forall (λ r, gpr c' r = 0) [RCX; RDX; RSI; RDI; R8; R9; R10; R11] ∧
    xstate c' = xinit ∧ flags c' = 0 ∧ zf c' = true ∧
    ∀ c2, main cm = Return c2 → ∀ x, x < top c - 40 ∨ top c - 16 ≤ x → cmem c' x = cmem c2 x.
Proof.
  intros Hw Hret Ht Ht' [_ _ _ Hsp Hbx Hkept _ _ Hhost _] (c2 & E2 & Hc & Hm2 & Hw2). unfold is_word in Ht.
  rewrite Hsp in Hm2. unfold callee_saved in Hc. rewrite !Forall_cons in Hc. destruct Hc as (Pbx & Pbp & Psp & P12 & P13 & P14 & P15 & _).
  rewrite Hsp in Psp. destruct (clearx_call ret Hret c2) as (m3 & E3 & Hm3); [rewrite Psp; lia|apply Hw2|apply Hw2|].
  set (c3 := mkCpu _ _ _ _ _ _ _ _ m3) in E3. rewrite Psp in Hm3. assert (S3 : gpr c3 RSP = top c - 16) by exact Psp.
  destruct (clearp_call ret Hret c3) as (m4 & E4 & Hm4); [rewrite S3; lia|].
  set (c4 := mkCpu _ _ _ _ _ _ _ _ m4) in E4. rewrite S3 in Hm4. assert (S4 : gpr c4 RSP = top c - 16) by exact Psp.
  assert (Rh : read_usize (cmem c4) (gpr c4 RSP) = gpr c RSP).
  { rewrite S4, <- Hhost. apply read_usize_ext. intros x Hx. cbn [cmem c4]. rewrite Hm4 by lia. cbn [cmem c3]. rewrite Hm3 by lia.
    apply Hm2. lia. }
  change (6 + fuel)%nat with (5 + S fuel)%nat. rewrite (run_straight (envs main) code (take 5 (drop 27 code)) (S fuel)) by done.
  change (take 5 (drop 27 code)) with ([Call 2] ++ [Call 1] ++ [Call 3] ++ [Pop (R RSP); Mov (R RAX) (Imm EEXIT)]).
  rewrite exec_all_app, exec_call. change (envs main 2%nat cm) with (main cm). rewrite E2, outcome_bind_return.
  rewrite exec_all_app, exec_call. change (envs main 1%nat c2) with (clearx ret c2). rewrite E3, outcome_bind_return.
  rewrite exec_all_app, exec_call. change (envs main 3%nat c3) with (clearp ret c3). rewrite E4, outcome_bind_return.
  rewrite (exec_all_cons _ _ _ _ _ (exec_pop_rsp (envs main) c4 ltac:(rewrite Rh; apply Hw))), Rh.
  rewrite (exec_all_cons _ _ _ _ _ (exec_mov_imm (envs main) RAX EEXIT _)), exec_all_nil, outcome_bind_return.
  rewrite (run_leave (envs main) fuel code _ _ Enclu by_enclu) by done. eexists. split; [reflexivity|].
  rewrite !Forall_cons in Hkept. destruct Hkept as (K1 & K2 & K3 & K4 & K5 & _).
  split; [done|]. split; [transitivity (gpr c2 RBX); [done|congruence]|].
  split; [|split; [repeat constructor|]].
  2: { split_and!; [done..|]. intros c2' [= <-] x Hx.
    change (cmem c4 x = cmem c2 x). cbn [cmem c4]. rewrite Hm4 by lia. cbn [cmem c3]. apply Hm3. lia. }
  apply Forall_cons; split; [done|]. repeat (apply Forall_cons; split); [..|constructor]; unfold gpr at 1.
  - transitivity (gpr c2 RBP); [done|congruence].
  - transitivity (gpr c2 R12); [done|congruence].
  - transitivity (gpr c2 R13); [done|congruence].
  - transitivity (gpr c2 R14); [done|congruence].
  - transitivity (gpr c2 R15); [done|congruence].
Qed.

(** The call of [main] that does not return *)
Lemma start_call main fuel cm : run (6 + fuel) (envs main) code cm 27 =
  match main cm with
  | Return c2 => run (5 + fuel) (envs main) code c2 28
  | Panicked => Panicked | Attacked => Attacked | Diverged => Diverged
  end.
Proof.
  change (6 + fuel)%nat with (1 + (5 + fuel))%nat. rewrite (run_straight (envs main) code [Call 2] (5 + fuel)) by done.
  rewrite exec_call. change (envs main 2%nat cm) with (main cm). by destruct (main cm).
Qed.

Lemma raw_top_word c : entered_ok c → (cssa c ≠ 0 → 128 ≤ read_usize (cmem c) (ssa c + RSPO)) → is_word (raw_top c).
Proof.
  intros [Hw Hm _ _] Hr. unfold raw_top. destruct (cssa c =? 0) eqn:Ez; [apply Hw|]. apply Z.eqb_neq in Ez.
  pose proof (read_word (cmem c) (ssa c + RSPO) Hm) as Q. specialize (Hr Ez). unfold is_word in *. lia.
Qed.

(** C11: entering the enclave.  [_start] calls [main] with the block of the host, the
    state save areas and the depth of exceptions, on an aligned stack of the
    enclave, with flags and extended state initialised: for every function in the place of
    [main], the entry ends as this call of it does if it does not return.  When it
    returns, as compiled code does, the enclave is left by EEXIT to the address that was
    passed, on the stack of the host and with the registers of the host that a call
    preserves; all other registers, the flags and the extended state are constants,
    whatever [main] left in them; and the memory is as [main] left it, but for 24 bytes of
    the stack. *)
Theorem enclave_exit_clean lo c :
  entered_ok c → is_word ret → is_word (tcs c + 4096) →
  (cssa c ≠ 0 → read_usize (cmem c) (ssa c + EXTO) ≠ 0 ∧ 128 ≤ read_usize (cmem c) (ssa c + RSPO)) →
  0 ≤ lo → lo + 96 ≤ top c →
  (cssa c = 0 → relocates lo (top c) _DYNAMIC ENARX_SHIM_ADDRESS dyn_reloc) →
  ∃ cm, calls_main c cm ∧ top c mod 16 = 0 ∧ ∀ main,
    let start := _start EXTO RSPO _DYNAMIC ENARX_SHIM_ADDRESS ret dyn_reloc main 40 c in
    match main cm with
    | Return c2 => returns (top c) main cm → ∃ c', start = Return (by_enclu, c') ∧
        gpr c' RAX = EEXIT ∧ gpr c' RBX = gpr c RCX ∧
        Forall (λ r, gpr c' r = gpr c r) [RSP; RBP; R12; R13; R14; R15] ∧
        Forall (λ r, gpr c' r = 0) [RCX; RDX; RSI; RDI; R8; R9; R10; R11] ∧
        xstate c' = xinit ∧ flags c' = 0 ∧ zf c' = true ∧
        ∀ x, x < top c - 40 ∨ top c - 16 ≤ x → cmem c' x = cmem c2 x
    | Panicked => start = Panicked
    | Attacked => start = Attacked
    | Diverged => start = Diverged
    end.
Proof.
  intros Hok Hret Htc Hx Hlo Hl Hrel. pose proof Hok as [Hw Hm _ _].
  assert (Hrt : is_word (raw_top c)) by (apply raw_top_word; [done|intros E; by apply Hx]).
  assert (Ht : is_word (top c)) by (unfold top, is_word in *; dlia).
  destruct (start_find c Hok Hx) as (k1 & v & z & Hk1 & Hv & E1).
  destruct (start_setup c v z Hw Hrt) as (z' & E2); [lia|].
  destruct (start_main lo c v z' Hw Hv Ht Hlo Hl Hret Htc Hrel) as (k2 & cm & Hk2 & E3 & Hcm).
  exists cm. split; [exact Hcm|]. split; [unfold top; dlia|]. intros main start.
  assert (Es : start = run (6 + (40 - (k1 + 5 + k2 + 6))) (envs main) code cm 27).
  { unfold start, _start.
    replace 40%nat with (k1 + (5 + (k2 + (6 + (40 - (k1 + 5 + k2 + 6))))))%nat at 1 by lia. by rewrite E1, E2, E3. }
  destruct (main cm) as [c2| | |] eqn:Em; [|by rewrite Es, start_call, Em..].
  intros Hmain. destruct (start_end main (40 - (k1 + 5 + k2 + 6)) c cm Hw Hret Ht ltac:(lia) Hcm Hmain)
    as (c' & E4 & H1 & H2 & H3 & H4 & H5 & H6 & H7 & H8).
  exists c'. rewrite Es. split_and!; try done. by apply H8.
Qed.

(** An exception in the enclave before the shim is ready to handle one (the
    previous state save area does not have its mark) is not handled: the entry
    point loops, and nothing is returned to the host. *)
Theorem unready_exception_loops main c fuel :
  entered_ok c → cssa c ≠ 0 → read_usize (cmem c) (ssa c + EXTO) = 0 →
  _start EXTO RSPO _DYNAMIC ENARX_SHIM_ADDRESS ret dyn_reloc main fuel c = Diverged.
Proof.
  intros Hok Hc He. assert (Hl : ∀ n v10 v11 z, run (7 * n) (envs main) code (swapped_cpu c v10 v11 z) 6 = Diverged).
  { induction n as [|n IH]; intros v10 v11 z; [done|]. replace (7 * S n)%nat with (7 + 7 * n)%nat by lia.
    rewrite start_look by done. rewrite He, Z.eqb_refl. apply IH. }
  unfold _start. destruct (run fuel (envs main) code c 0) eqn:Er; try done.
  all: assert (Hn : run fuel (envs main) code c 0 ≠ Diverged) by (by rewrite Er);
    pose proof (run_mono (envs main) fuel (4 + 7 * fuel - fuel) code c 0 Hn) as Hk;
    replace (fuel + (4 + 7 * fuel - fuel))%nat with (4 + 7 * fuel)%nat in Hk by lia;
    rewrite start_first, (proj2 (Z.eqb_neq (cssa c) 0)), Hl, Er in Hk by done; discriminate Hk.
Qed.

End start.

(** ** Witnesses *)

#[local] Instance small_xstate : XState := {|
  xsave_area x := to_le_bytes 8 x;
  xrstor_area bs := from_le_bytes bs;
  XSAVE_AREA_SIZE := 8;
  xinit := 0x37F;
|}.

(** A first entry: the thread control structure is at 0x10000. *)
Definition eenter (depth : Z) (m : mem) : cpu :=
  mkCpu (mkGprs depth 0x10000 0x5000 1 2 0x7000 3 0x6000 4 5 6 7 8 9 10 11) false 0x202 77 0 0 (λ _, 0) (λ _, 0) m.

(** A [main] that leaves secrets in registers *)
Definition leaky (c : cpu) : outcome cpu := Return (set_gpr RCX 42 (set_gpr R10 42 (set_xstate 42 c))).

Lemma leaky_returns hi c : (∀ r, is_word (gpr c r)) → returns hi leaky c.
Proof.
  intros Hw. eexists. split; [reflexivity|]. split; [by repeat constructor|]. split; [done|].
  do 2 (apply words_upd; [|by unfold is_word]). exact Hw.
Qed.

Lemma eenter_ok depth m : 0 ≤ depth ≤ 2 → mem_wf m → entered_ok 4000 3944 (eenter depth m).
Proof.
  intros Hd Hm. split; [intros r; unfold is_word; destruct r; cbn; lia|done| |lia]. unfold ssa, cssa, tcs. cbn. lia.
Qed.

Lemma enclave_exit_clean_witness : ∃ c',
  _start 4000 3944 0x20000 0 0x3000 leaky leaky 40 (eenter 0 (λ _, 0)) = Return (by_enclu, c') ∧
  gpr c' RCX = 0 ∧ gpr c' RBX = 0x5000 ∧ gpr c' RSP = 0x6000.
Proof.
  destruct (enclave_exit_clean 4000 3944 0x20000 0 0x3000 leaky 0x8000 (eenter 0 (λ _, 0))) as (cm & Hcm & _ & Hx).
  - apply eenter_ok; [lia|intros x; lia].
  - by unfold is_word.
  - by unfold is_word.
  - done.
  - lia.
  - by vm_compute.
  - intros _ c Hw _ _ _. by apply leaky_returns.
  - destruct (Hx leaky (leaky_returns _ _ (cm_words _ _ _ Hcm))) as (c' & E & _ & Hb & Hk & Hz & _). exists c'. split; [exact E|].
    apply Forall_cons in Hk as [Hs _]. apply Forall_cons in Hz as [Hc _]. by split_and!.
Defined.

(** An exception during the first entry *)
Lemma unready_exception_loops_witness : _start 4000 3944 0x20000 0 0x3000 leaky leaky 1000 (eenter 1 (λ _, 0)) = Diverged.
Proof.
  apply unready_exception_loops; [apply eenter_ok; [lia|intros x; lia]|done|reflexivity].
Defined.
