(* ===== verification/KvmBoot.v ===== *)
(** * How the KVM shim starts

    [_start] of [crates/shim-kvm/src/main.rs], from the 32-bit code on: the place of
    the encryption bit is looked up in the CPUID page, the bit is set in the page
    tables, and the shim jumps to its place in the address space.  The code is in three
    pieces, as it is separated by jumps to absolute addresses.

    The laws: the encryption bit is where the CPUID page says, and it is set in every
    entry of the page tables, in [cr3] and in the mask that is passed on. *)
From S2P Require Import Prelude Memory Libc PhaseAlloc StagedValues Items Calls CallLaws.
From S2P Require Import StageKit SockTypes Syscalls Stubs SyscallLaws NumberCalls Platform.
From S2P Require Import Handler HandlerCalls KvmMachine Asm AsmLaws.

Definition _ENARX_PML3 : Z := 0xFFE00000.
Definition _ENARX_PML4 : Z := 0xFFE01000.
Definition _ENARX_CPUID : Z := 0xFFE02000.
Definition SEV_GHCB_MSR : Z := 0xC0010130.
Definition MSR_EFER : Z := 0xc0000080.

(** The flags are constants of the [x86_64] crate: FSGSBASE, PAE, OSFXSR, OSXMMEXCPT
    and OSXSAVE; LONG_MODE_ENABLE, SYSTEM_CALL_EXTENSIONS and NO_EXECUTE_ENABLE; PAGING
    and WRITE_PROTECT. *)
Definition CR4_FLAGS : Z := Z.lor (2 ^ 16) (Z.lor (2 ^ 5) (Z.lor (2 ^ 9) (Z.lor (2 ^ 10) (2 ^ 18)))).
Definition EFER_FLAGS : Z := Z.lor (2 ^ 8) (Z.lor (2 ^ 0) (2 ^ 11)).
Definition CR0_PAGING : Z := Z.lor (2 ^ 31) (2 ^ 16).

(** ** 32 bits *)

Definition asm_code32 : list instr := [
  Mov (W RAX) (Imm 0x10);
  MovTo DS RAX;
  MovTo SS RAX;
  Mov (E RAX) (Imm _ENARX_CPUID);
  Mov (E RCX) (D (Some RAX) 0);
  Test (E RCX) (E RCX);
  Je 33 f_;
  Alu ADD (E RCX) (Imm 0x1);
  Label 32;
  Alu ADD (E RCX) (Imm 0xffffffff);
  Je 88 f_;
  Mov (E RDI) (E RAX);
  Alu ADD (E RAX) (Imm 0x30);
  Cmp (D (Some RDI) 0x10) (Imm 0x8000001f);
  Jne 32 b_;
  Cmp (D (Some RDI) 0x14) (Imm 0);
  Jne 32 b_;
  Mov (E RDX) (D (Some RDI) 0x2C);
  Alu AND (E RDX) (Imm 0x3f);
  Alu SUB (E RDX) (Imm 32);
  Alu XOR (E RBX) (E RBX);
  Bts RBX RDX;
  Jmp 34 f_;
  Label 33;
  Alu XOR (E RBX) (E RBX);
  Label 34;
  Mov (E RAX) (Imm _ENARX_PML3);
  Alu OR (D (Some RAX) (4 + 3 * 8)) (E RBX);
  Alu OR (D (Some RAX) (4 + 4 * 8)) (E RBX);
  Alu OR (D (Some RAX) (4 + 5 * 8)) (E RBX);
  Mov (E RAX) (Imm _ENARX_PML4);
  Alu OR (D (Some RAX) 4) (E RBX);
  MovTo CR3 RAX;
  MovFrom RAX CR4;
  Alu OR (E RAX) (Imm CR4_FLAGS);
  MovTo CR4 RAX;
  Mov (E RCX) (Imm MSR_EFER);
  Rdmsr;
  Alu OR (E RAX) (Imm EFER_FLAGS);
  Wrmsr;
  MovFrom RAX CR0;
  Alu OR (E RAX) (Imm CR0_PAGING);
  MovTo CR0 RAX;
  FarJmp;
  Label 88;
  Mov (E RAX) (Imm (Z.shiftl 0x2 16 + 0x1100));
  Alu XOR (E RDX) (E RDX);
  Mov (E RCX) (Imm SEV_GHCB_MSR);
  Wrmsr;
  Vmmcall;
  Label 2;
  Hlt;
  Jmp 2 b_].

(** ** 64 bits *)

Definition set_table_c_bit (cbit : reg) (dst_reg : reg) (dst : Z) (src_reg : reg) (src offset : Z) : list instr := [
  Lea dst_reg None dst;
  Lea src_reg None src;
  Alu OR (R src_reg) (R cbit);
  Alu OR (R src_reg) (Imm 0x3);
  Mov (Q (Some dst_reg) (offset * 8)) (R src_reg)].

Definition correct_table_c_bit (cbit_low ctr dst_reg : reg) (dst : Z) : list instr := [
  Lea dst_reg None dst;
  Mov (E ctr) (Imm 512);
  Alu ADD (R dst_reg) (Imm 4);
  Label 2;
  Alu OR (D (Some dst_reg) 0) (E cbit_low);
  Alu ADD (R dst_reg) (Imm 8);
  Loop 2 b_].

Section boot.
(** Addresses of the image: the page tables, the trampoline, the first stack and the
    relocations *)
Variables PML4T PDPT PDT_C000_0000 PT_FFE0_0000 trampoline : Z.

Definition asm_code64 : list instr :=
  [Mov (R R12) (R RBX);
   Alu SHL (R R12) (Imm 32)] ++
  set_table_c_bit R12 RAX PML4T RDX PDPT (Z.shiftr (Z.land SHIM_VIRT_OFFSET 0xFFFFFFFFFFFF) 39) ++
  [Mov (Q (Some RAX) 0) (R RDX)] ++
  set_table_c_bit R12 RCX PDPT RDX PDT_C000_0000 3 ++
  set_table_c_bit R12 RCX PDT_C000_0000 RDX PT_FFE0_0000 511 ++
  correct_table_c_bit RBX RCX RDX PDPT ++
  correct_table_c_bit RBX RCX RDX PDT_C000_0000 ++
  correct_table_c_bit RBX RCX RDX PT_FFE0_0000 ++
  [Alu OR (R RAX) (R R12);
   MovTo CR3 RAX;
   Lea RAX None trampoline;
   Mov (R RSI) (Imm SHIM_VIRT_OFFSET);
   Alu ADD (R RAX) (R RSI);
   JmpReg RAX].

(** ** In the address space of the shim *)

Definition asm_trampoline (INITIAL_SHIM_STACK SIZE_OF_INITIAL_STACK _DYNAMIC : Z) : list instr := [
  Lea RSP None INITIAL_SHIM_STACK;
  Alu ADD (R RSP) (Imm SIZE_OF_INITIAL_STACK);
  Lea RDI None _DYNAMIC;
  Call 0;
  Mov (R RDI) (R R12);
  Alu XOR (R RBP) (R RBP);
  Alu SUB (R RSP) (Imm 8);
  Push (R RBP);
  Call 1].

End boot.

(** ** Half words *)

Lemma as_u32_range z : 0 ≤ as_u32 z < 2 ^ 32.
Proof. unfold as_u32. apply Z.mod_pos_bound. lia. Qed.

Lemma as_u32_small z : 0 ≤ z < 2 ^ 32 → as_u32 z = z.
Proof. intros Hz. unfold as_u32. by apply Z.mod_small. Qed.

Lemma read_u32_bound m a : mem_wf m → 0 ≤ read_u32 m a < 2 ^ 32.
Proof.
  intros Hm. unfold read_u32. pose proof (from_le_bytes_range (read_bytes m a 4) (read_bytes_wf _ _ _ Hm)) as Hr.
  by rewrite length_read_bytes in Hr.
Qed.

Section exec32.
Context `{XState}.
Variable env : nat → cpu → outcome cpu.

Lemma exec_mov32 d s c : exec env (Mov (E d) s) c = Return (set_gpr d (as_u32 (read_opnd s c)) c).
Proof. done. Qed.

Lemma exec_alu32 op d s c : exec env (Alu op (E d) s) c =
  let v := as_u32 (alu_result op (as_u32 (gpr c d)) (read_opnd s c)) in Return (set_zf (v =? 0) (set_gpr d v c)).
Proof.
  cbn [exec write_opnd trunc read_opnd]. cbv zeta. by rewrite (as_u32_small (as_u32 _)) by apply as_u32_range.
Qed.

Lemma exec_cmp32 b d z c : 0 ≤ gpr c b → gpr c b + d < 2 ^ 64 → 0 ≤ d → 0 ≤ z < 2 ^ 32 → mem_wf (cmem c) →
  exec env (Cmp (D (Some b) d) (Imm z)) c = Return (set_zf (bool_decide (read_u32 (cmem c) (gpr c b + d) = z)) c).
Proof.
  intros Hb Hw Hd Hz Hm. cbn [exec read_opnd trunc base_of]. rewrite (as_usize_word (gpr c b + d)), (as_usize_word z) by (unfold is_word; lia).
  do 2 f_equal. set (v := read_u32 _ _). assert (Hv : 0 ≤ v < 2 ^ 32) by (by apply read_u32_bound).
  case_bool_decide as E; [by rewrite E, Z.sub_diag|]. apply Z.eqb_neq. unfold as_u32. intros E0.
  apply Z.mod_divide in E0 as [q Hq]; [|lia]. nia.
Qed.

(** The word of 32 bits at [a], with more bits set *)
Definition or_u32 (m : mem) (a v : Z) : mem := write_bytes m a (to_le_bytes 4 (as_u32 (Z.lor (read_u32 m a) v))).

Lemma exec_or_mem b d s c : is_word (gpr c b + d) → exec env (Alu OR (D (Some b) d) (E s)) c =
  let v := as_u32 (Z.lor (read_u32 (cmem c) (gpr c b + d)) (as_u32 (gpr c s))) in
  Return (set_zf (v =? 0) (set_cmem (or_u32 (cmem c) (gpr c b + d) (as_u32 (gpr c s))) c)).
Proof. intros Hw. cbn [exec read_opnd write_opnd trunc base_of alu_result]. by rewrite as_usize_word. Qed.

Lemma exec_mov_from r s c : exec env (MovFrom r s) c = Return (set_gpr r (sysreg c s) c).
Proof. done. Qed.

Lemma exec_rdmsr c : exec env Rdmsr c =
  let v := msr c (as_u32 (gpr c RCX)) in Return (set_gpr RDX (Z.shiftr v 32) (set_gpr RAX (as_u32 v) c)).
Proof. done. Qed.

Lemma exec_wrmsr c : exec env Wrmsr c =
  Return (set_msr (as_u32 (gpr c RCX)) (Z.lor (Z.shiftl (as_u32 (gpr c RDX)) 32) (as_u32 (gpr c RAX))) c).
Proof. done. Qed.

Lemma exec_bts d s c : exec env (Bts d s) c = Return (set_gpr d (Z.lor (as_u32 (gpr c d)) (Z.shiftl 1 (gpr c s mod 32))) c).
Proof. done. Qed.

End exec32.

(** Bits set in a register through its halves *)
Lemma or_u32_flags v f : 0 ≤ v < 2 ^ 32 → 0 ≤ f < 2 ^ 32 → as_u32 (Z.lor v f) = Z.lor v f.
Proof.
  intros Hv Hf. unfold as_u32. rewrite <- Z.land_ones, Z.land_lor_distr_l, !Z.land_ones by lia. by rewrite !Z.mod_small by lia.
Qed.

Lemma halves v : 0 ≤ v → Z.lor (Z.shiftl (Z.shiftr v 32) 32) (as_u32 v) = v.
Proof.
  intros Hv. unfold as_u32. rewrite <- Z.land_ones by lia. apply Z.bits_inj'. intros n Hn.
  rewrite Z.lor_spec, Z.land_spec. destruct (decide (n < 32)) as [Hl|Hl].
  - rewrite Z.shiftl_spec_low, Z.ones_spec_low by lia. by rewrite andb_true_r.
  - rewrite Z.shiftl_spec, Z.shiftr_spec, Z.ones_spec_high by lia. rewrite andb_false_r, orb_false_r. f_equal. lia.
Qed.

Lemma or_msr v f : is_word v → 0 ≤ f < 2 ^ 32 →
  Z.lor (Z.shiftl (as_u32 (Z.shiftr v 32)) 32) (as_u32 (as_u32 (Z.lor (as_u32 (as_u32 v)) f))) = Z.lor v f.
Proof.
  intros Hv Hf. unfold is_word in Hv. rewrite (as_u32_small (as_u32 v)) by apply as_u32_range.
  rewrite (or_u32_flags (as_u32 v) f) by (done || apply as_u32_range). rewrite (or_u32_flags (as_u32 v) f) by (done || apply as_u32_range).
  rewrite (as_u32_small (Z.shiftr v 32)) by (rewrite Z.shiftr_div_pow2 by lia; dlia).
  by rewrite Z.lor_assoc, halves by lia.
Qed.

(** The result of an instruction is [v]. *)
Ltac alu_is v := match goal with |- context [as_u32 (alu_result ?o ?x ?y)] => replace (as_u32 (alu_result o x y)) with v; [|symmetry] end.

(** ** The search in the CPUID page *)

(** [CPUID Fn8000_001F], sub-leaf 0 *)
Definition is_encryption (e : CpuidFunctionEntry) : Prop := eax_in e = 0x8000001f ∧ ecx_in e = 0.
#[global] Instance is_encryption_dec e : Decision (is_encryption e).
Proof. unfold is_encryption. apply _. Defined.

Definition boot_entry (m : mem) (i : Z) : CpuidFunctionEntry := entry_at m (_ENARX_CPUID + 16 + 48 * i).
Definition boot_functions (m : mem) : list CpuidFunctionEntry := boot_entry m <$> seqZ 0 (read_u32 m _ENARX_CPUID).

Section search.
Context `{XState}.
Variable env : nat → cpu → outcome cpu.
Abbreviation code := asm_code32.
Variable c : cpu.
Hypothesis Hm : mem_wf (cmem c).

(** The machine during the search *)
Definition searching (rax rcx rdi : Z) (z : bool) : cpu :=
  mkCpu (upd (upd (upd (gprs c) RAX rax) RCX rcx) RDI rdi) z (flags c) (xstate c) (gs c) (kernel_gs c)
    (λ s, if decide (SS = s) then 0x10 else if decide (DS = s) then 0x10 else sysreg c s) (msr c) (cmem c).

(** One entry is looked at. *)
Lemma search_once i k rdi z : 0 ≤ i → 0 < k → i + k ≤ COUNT_MAX →
  ∃ n, (n ≤ 9)%nat ∧ ∀ fuel, run (n + fuel) env code (searching (_ENARX_CPUID + 48 * i) (k + 1) rdi z) 8 =
    if decide (is_encryption (boot_entry (cmem c) i))
    then run fuel env code (searching (_ENARX_CPUID + 48 * (i + 1)) k (_ENARX_CPUID + 48 * i) true) 17
    else run fuel env code (searching (_ENARX_CPUID + 48 * (i + 1)) k (_ENARX_CPUID + 48 * i) false) 8.
Proof.
  intros Hi Hk Hik. unfold COUNT_MAX in Hik. set (a := _ENARX_CPUID + 48 * i).
  assert (Ha : 0 ≤ a ∧ a + 0x60 < 2 ^ 32) by (unfold a, _ENARX_CPUID; lia).
  assert (He1 : read_u32 (cmem c) (a + 0x10) = eax_in (boot_entry (cmem c) i)) by (cbn [eax_in boot_entry entry_at]; f_equal; unfold a; lia).
  assert (He2 : read_u32 (cmem c) (a + 0x14) = ecx_in (boot_entry (cmem c) i)) by (cbn [ecx_in boot_entry entry_at]; f_equal; unfold a; lia).
  assert (E1 : ∀ fuel, run (3 + fuel) env code (searching a (k + 1) rdi z) 8 = run fuel env code (searching a k rdi false) 11).
  { intros fuel. change (3 + fuel)%nat with (2 + S fuel)%nat.
    rewrite (run_straight env code [Label 32; Alu ADD (E RCX) (Imm 0xffffffff)] (S fuel)) by done.
    rewrite (exec_all_cons _ _ _ _ _ (exec_label env 32 _)), (exec_all_cons _ _ _ _ _ (exec_alu32 env ADD RCX _ _)), exec_all_nil, outcome_bind_return.
    alu_is k; [|change (as_u32 (as_u32 (k + 1) + 0xffffffff) = k); rewrite (as_u32_small (k + 1)) by lia; unfold as_u32; dlia].
    rewrite (run_je env fuel code _ 10 88 f_ 44) by done. cpu_canon. rewrite (proj2 (Z.eqb_neq k 0)) by lia. reflexivity. }
  assert (E2 : ∀ fuel, run (4 + fuel) env code (searching a k rdi false) 11 =
    let e := bool_decide (eax_in (boot_entry (cmem c) i) = 0x8000001f) in
    run fuel env code (searching (a + 48) k a e) (if e then 15 else 8)).
  { intros fuel. change (4 + fuel)%nat with (3 + S fuel)%nat.
    rewrite (run_straight env code (take 3 (drop 11 code)) (S fuel)) by done. cbn [take drop asm_code32].
    rewrite (exec_all_cons _ _ _ _ _ (exec_mov32 env RDI (E RAX) _)).
    change (as_u32 (read_opnd (E RAX) (searching a k rdi false))) with (as_u32 (as_u32 a)). rewrite !(as_u32_small a) by lia.
    rewrite (exec_all_cons _ _ _ _ _ (exec_alu32 env ADD RAX _ _)).
    alu_is (a + 48); [|change (as_u32 (as_u32 a + 0x30) = a + 48); rewrite (as_u32_small a), as_u32_small; lia].
    unfold searching. cpu_canon. name_cpu c1. change (cmem c) with (cmem c1) in Hm.
    rewrite (exec_all_cons _ _ _ _ _ (exec_cmp32 env RDI 0x10 0x8000001f c1 (proj1 Ha) ltac:(change (gpr c1 RDI) with a; lia) ltac:(lia) ltac:(lia) Hm)).
    rewrite exec_all_nil, outcome_bind_return, (run_jne env fuel code _ 14 32 b_ 8) by done.
    change (gpr c1 RDI) with a. change (cmem c1) with (cmem c). rewrite He1. reflexivity. }
  assert (E3 : ∀ fuel, run (2 + fuel) env code (searching (a + 48) k a true) 15 =
    let e := bool_decide (ecx_in (boot_entry (cmem c) i) = 0) in
    run fuel env code (searching (a + 48) k a e) (if e then 17 else 8)).
  { intros fuel. change (2 + fuel)%nat with (1 + S fuel)%nat.
    rewrite (run_straight env code (take 1 (drop 15 code)) (S fuel)) by done. cbn [take drop asm_code32].
    set (c1 := searching _ _ _ _). change (cmem c) with (cmem c1) in Hm.
    rewrite (exec_all_cons _ _ _ _ _ (exec_cmp32 env RDI 0x14 0 c1 (proj1 Ha) ltac:(change (gpr c1 RDI) with a; lia) ltac:(lia) ltac:(lia) Hm)).
    rewrite exec_all_nil, outcome_bind_return, (run_jne env fuel code _ 16 32 b_ 8) by done.
    change (gpr c1 RDI) with a. change (cmem c1) with (cmem c). rewrite He2. reflexivity. }
  replace (_ENARX_CPUID + 48 * (i + 1)) with (a + 48) by (unfold a; lia).
  destruct (decide (eax_in (boot_entry (cmem c) i) = 0x8000001f)) as [H1|H1].
  - exists 9%nat. split; [lia|]. intros fuel. change (9 + fuel)%nat with (3 + (4 + (2 + fuel)))%nat. rewrite E1, E2. cbv zeta.
    rewrite bool_decide_eq_true_2, E3 by done. cbv zeta. unfold is_encryption.
    destruct (decide _) as [[_ H2]|H2]; [by rewrite bool_decide_eq_true_2|]. rewrite bool_decide_eq_false_2; [done|]. intros H3. by apply H2.
  - exists 7%nat. split; [lia|]. intros fuel. change (7 + fuel)%nat with (3 + (4 + fuel))%nat. rewrite E1, E2. cbv zeta.
    rewrite bool_decide_eq_false_2 by done. destruct (decide _) as [[H2 _]|]; done.
Qed.

(** The whole search: the first entry of the leaf, or none *)
Lemma search n : ∀ i rdi z, 0 ≤ i → i + Z.of_nat n ≤ COUNT_MAX →
  ∃ steps rax rcx rdi', (steps ≤ 9 * n + 3)%nat ∧
    let found := list_find is_encryption (boot_entry (cmem c) <$> seqZ i (Z.of_nat n)) in
    (∀ fuel, run (steps + fuel) env code (searching (_ENARX_CPUID + 48 * i) (Z.of_nat n + 1) rdi z) 8 =
      run fuel env code (searching rax rcx rdi' true) (if found is Some _ then 17 else 44)) ∧
    ∀ j e, found = Some (j, e) → rdi' = _ENARX_CPUID + 48 * (i + Z.of_nat j) ∧ e = boot_entry (cmem c) (i + Z.of_nat j).
Proof.
  induction n as [|n IH]; intros i rdi z Hi Hn.
  - exists 3%nat, (_ENARX_CPUID + 48 * i), 0, rdi. split; [lia|]. cbn [seqZ fmap list_fmap list_find]. split; [|done].
    intros fuel. change (3 + fuel)%nat with (2 + S fuel)%nat.
    rewrite (run_straight env code [Label 32; Alu ADD (E RCX) (Imm 0xffffffff)] (S fuel)) by done.
    rewrite (exec_all_cons _ _ _ _ _ (exec_label env 32 _)), (exec_all_cons _ _ _ _ _ (exec_alu32 env ADD RCX _ _)), exec_all_nil, outcome_bind_return.
    alu_is 0; [|reflexivity]. by rewrite (run_je env fuel code _ 10 88 f_ 44).
  - destruct (search_once i (Z.of_nat (S n)) rdi z) as (s1 & Hs1 & E1); [done|lia|done|].
    rewrite (seqZ_cons i) by lia. replace (Z.pred (Z.of_nat (S n))) with (Z.of_nat n) by lia. cbn [fmap list_fmap list_find].
    destruct (decide (is_encryption _)) as [He|He].
    + eexists s1, _, _, _. split; [lia|]. split; [exact E1|]. intros j e [= <- <-]. by rewrite Z.add_0_r.
    + destruct (IH (i + 1) (_ENARX_CPUID + 48 * i) false) as (s2 & rax & rcx & rdi' & Hs2 & E2 & Hf); [lia|lia|].
      exists (s1 + s2)%nat, rax, rcx, rdi'. split; [lia|]. rewrite <- Z.add_1_r. set (found := list_find _ _) in *. split.
      * intros fuel. rewrite <- Nat.add_assoc, E1. replace (Z.of_nat (S n)) with (Z.of_nat n + 1) by lia. rewrite E2. by destruct found as [[j e]|].
      * intros j e Hj. destruct found as [[j' e']|]; [|done]. injection Hj as <- <-. destruct (Hf j' e' eq_refl) as [-> ->].
        by replace (i + 1 + Z.of_nat j') with (i + Z.of_nat (S j')) by lia.
Qed.

End search.

(** ** Paging is enabled *)

Section paging.
Context `{XState}.
Variable env : nat → cpu → outcome cpu.
Abbreviation code := asm_code32.

(** Long mode with the first page tables, in which the bits [v] of the upper halves
    are set *)
Record paged (c : cpu) (v : Z) (c' : cpu) : Prop := {
  pg_cbit : gpr c' RBX = v;
  pg_mem : cmem c' = or_u32 (or_u32 (or_u32 (or_u32 (cmem c) (_ENARX_PML3 + (4 + 3 * 8)) v) (_ENARX_PML3 + (4 + 4 * 8)) v)
    (_ENARX_PML3 + (4 + 5 * 8)) v) (_ENARX_PML4 + 4) v;
  pg_cr3 : sysreg c' CR3 = _ENARX_PML4;
  pg_cr4 : sysreg c' CR4 = Z.lor (sysreg c CR4) CR4_FLAGS;
  pg_cr0 : sysreg c' CR0 = Z.lor (sysreg c CR0) CR0_PAGING;
  pg_efer : msr c' MSR_EFER = Z.lor (msr c MSR_EFER) EFER_FLAGS;
}.

(** The bits are set in the first tables. *)
Lemma boot_tables c v fuel : gpr c RBX = v → 0 ≤ v < 2 ^ 32 →
  ∃ z m, run (7 + fuel) env code c 25 =
    run fuel env code (mkCpu (upd (gprs c) RAX _ENARX_PML4) z (flags c) (xstate c) (gs c) (kernel_gs c) (sysreg c) (msr c) m) 32 ∧
    m = or_u32 (or_u32 (or_u32 (or_u32 (cmem c) (_ENARX_PML3 + (4 + 3 * 8)) v) (_ENARX_PML3 + (4 + 4 * 8)) v)
          (_ENARX_PML3 + (4 + 5 * 8)) v) (_ENARX_PML4 + 4) v.
Proof.
  intros Hb Hv. assert (Hvb : as_u32 (gpr c RBX) = v) by (rewrite Hb; by apply as_u32_small).
  rewrite (run_straight env code (take 7 (drop 25 code)) fuel) by done. cbn [take drop asm_code32].
  rewrite (exec_all_cons _ _ _ _ _ (exec_label env 34 _)), (exec_all_cons _ _ _ _ _ (exec_mov32 env RAX _ _)).
  change (as_u32 (read_opnd (Imm _ENARX_PML3) c)) with _ENARX_PML3. cpu_canon. name_cpu c1.
  assert (Hw : is_word (_ENARX_PML3 + (4 + 3 * 8))) by (by unfold is_word, _ENARX_PML3).
  rewrite (exec_all_cons _ _ _ _ _ (exec_or_mem env RAX (4 + 3 * 8) RBX c1 Hw)). change (as_u32 (gpr c1 RBX)) with (as_u32 (gpr c RBX)).
  rewrite Hvb. change (gpr c1 RAX) with _ENARX_PML3. unfold c1. cpu_canon. name_cpu c2.
  rewrite (exec_all_cons _ _ _ _ _ (exec_or_mem env RAX (4 + 4 * 8) RBX c2 Hw)). change (as_u32 (gpr c2 RBX)) with (as_u32 (gpr c RBX)).
  rewrite Hvb. change (gpr c2 RAX) with _ENARX_PML3. unfold c2. cpu_canon. name_cpu c3.
  rewrite (exec_all_cons _ _ _ _ _ (exec_or_mem env RAX (4 + 5 * 8) RBX c3 Hw)). change (as_u32 (gpr c3 RBX)) with (as_u32 (gpr c RBX)).
  rewrite Hvb. change (gpr c3 RAX) with _ENARX_PML3. unfold c3. cpu_canon. name_cpu c4.
  rewrite (exec_all_cons _ _ _ _ _ (exec_mov32 env RAX _ c4)). change (as_u32 (read_opnd (Imm _ENARX_PML4) c4)) with _ENARX_PML4.
  unfold c4. cpu_canon. rewrite upd_upd. name_cpu c5.
  rewrite (exec_all_cons _ _ _ _ _ (exec_or_mem env RAX 4 RBX c5 Hw)). change (as_u32 (gpr c5 RBX)) with (as_u32 (gpr c RBX)).
  rewrite Hvb. change (gpr c5 RAX) with _ENARX_PML4. unfold c5. cpu_canon. rewrite exec_all_nil, outcome_bind_return.
  eexists _, _. split; reflexivity.
Qed.

(** Long mode and paging are enabled. *)
Lemma boot_control c v fuel : gpr c RBX = v → gpr c RAX = _ENARX_PML4 →
  0 ≤ sysreg c CR4 < 2 ^ 32 → 0 ≤ sysreg c CR0 < 2 ^ 32 → is_word (msr c MSR_EFER) →
  ∃ c', run (12 + fuel) env code c 32 = Return (by_far, c') ∧ gpr c' RBX = v ∧ cmem c' = cmem c ∧
    sysreg c' CR3 = _ENARX_PML4 ∧ sysreg c' CR4 = Z.lor (sysreg c CR4) CR4_FLAGS ∧
    sysreg c' CR0 = Z.lor (sysreg c CR0) CR0_PAGING ∧ msr c' MSR_EFER = Z.lor (msr c MSR_EFER) EFER_FLAGS.
Proof.
  intros Hb Ha H4 H0 He. change (12 + fuel)%nat with (11 + S fuel)%nat.
  rewrite (run_straight env code (take 11 (drop 32 code)) (S fuel)) by done. cbn [take drop asm_code32].
  rewrite (exec_all_cons _ _ _ _ _ (exec_mov_to env CR3 RAX c)), Ha. cbn [is_selector]. unfold set_sysreg. cpu_canon. name_cpu c1.
  rewrite (exec_all_cons _ _ _ _ _ (exec_mov_from env RAX CR4 c1)). change (sysreg c1 CR4) with (sysreg c CR4). unfold c1. cpu_canon. name_cpu c2.
  rewrite (exec_all_cons _ _ _ _ _ (exec_alu32 env OR RAX _ c2)). cbv zeta.
  alu_is (Z.lor (sysreg c CR4) CR4_FLAGS); [|change (as_u32 (Z.lor (as_u32 (sysreg c CR4)) CR4_FLAGS) = Z.lor (sysreg c CR4) CR4_FLAGS);
    rewrite (as_u32_small (sysreg c CR4)) by done; by apply or_u32_flags].
  unfold c2. cpu_canon. name_cpu c3. rewrite (exec_all_cons _ _ _ _ _ (exec_mov_to env CR4 RAX c3)).
  change (gpr c3 RAX) with (Z.lor (sysreg c CR4) CR4_FLAGS). cbn [is_selector]. unfold set_sysreg, c3. cpu_canon. name_cpu c4.
  rewrite (exec_all_cons _ _ _ _ _ (exec_mov32 env RCX _ c4)). change (as_u32 (read_opnd (Imm MSR_EFER) c4)) with MSR_EFER. unfold c4. cpu_canon. name_cpu c5.
  rewrite (exec_all_cons _ _ _ _ _ (exec_rdmsr env c5)). change (as_u32 (gpr c5 RCX)) with MSR_EFER. change (msr c5 MSR_EFER) with (msr c MSR_EFER).
  unfold c5. cpu_canon. name_cpu c6. rewrite (exec_all_cons _ _ _ _ _ (exec_alu32 env OR RAX _ c6)). cbv zeta.
  set (ea := as_u32 (alu_result OR _ _)). unfold c6. cpu_canon. name_cpu c7.
  rewrite (exec_all_cons _ _ _ _ _ (exec_wrmsr env c7)). unfold set_msr. change (as_u32 (gpr c7 RCX)) with MSR_EFER.
  change (gpr c7 RDX) with (Z.shiftr (msr c MSR_EFER) 32). change (gpr c7 RAX) with ea. unfold c7. cpu_canon. name_cpu c8.
  rewrite (exec_all_cons _ _ _ _ _ (exec_mov_from env RAX CR0 c8)). change (sysreg c8 CR0) with (sysreg c CR0). unfold c8. cpu_canon. name_cpu c9.
  rewrite (exec_all_cons _ _ _ _ _ (exec_alu32 env OR RAX _ c9)). cbv zeta.
  alu_is (Z.lor (sysreg c CR0) CR0_PAGING); [|change (as_u32 (Z.lor (as_u32 (sysreg c CR0)) CR0_PAGING) = Z.lor (sysreg c CR0) CR0_PAGING);
    rewrite (as_u32_small (sysreg c CR0)) by done; by apply or_u32_flags].
  unfold c9. cpu_canon. name_cpu d1. rewrite (exec_all_cons _ _ _ _ _ (exec_mov_to env CR0 RAX d1)), exec_all_nil, outcome_bind_return.
  change (gpr d1 RAX) with (Z.lor (sysreg c CR0) CR0_PAGING). cbn [is_selector]. unfold set_sysreg, d1. cpu_canon.
  eexists. split; [reflexivity|]. split; [exact Hb|]. do 4 (split; [reflexivity|]). cbn [msr].
  rewrite decide_True by done. subst ea. assert (Hf : 0 ≤ EFER_FLAGS < 2 ^ 32) by done. exact (or_msr _ _ He Hf).
Qed.

Lemma enable_paging c v fuel : gpr c RBX = v → 0 ≤ v < 2 ^ 32 →
  0 ≤ sysreg c CR4 < 2 ^ 32 → 0 ≤ sysreg c CR0 < 2 ^ 32 → is_word (msr c MSR_EFER) →
  ∃ c', run (19 + fuel) env code c 25 = Return (by_far, c') ∧ paged c v c'.
Proof.
  intros Hb Hv H4 H0 He. change (19 + fuel)%nat with (7 + (12 + fuel))%nat.
  destruct (boot_tables c v (12 + fuel) Hb Hv) as (z & m & -> & ->). set (c1 := mkCpu _ _ _ _ _ _ _ _ _).
  destruct (boot_control c1 v fuel Hb eq_refl H4 H0 He) as (c' & Er & P1 & P2 & P3 & P4 & P5 & P6).
  exists c'. split; [exact Er|]. by split.
Qed.

End paging.

Section boot32.
Context `{XState}.
Variable env : nat → cpu → outcome cpu.
Abbreviation code := asm_code32.

Lemma exec_mov_selector r z c : 0 ≤ z < 2 ^ 16 →
  exec_all env [Mov (W r) (Imm z); MovTo DS r; MovTo SS r] c =
    Return (mkCpu (upd (gprs c) r (gpr c r / 2 ^ 16 * 2 ^ 16 + z)) (zf c) (flags c) (xstate c) (gs c) (kernel_gs c)
      (λ s, if decide (SS = s) then z else if decide (DS = s) then z else sysreg c s) (msr c) (cmem c)).
Proof.
  intros Hz. cbn [exec_all exec mbind outcome_bind write_opnd read_opnd is_selector]. rewrite (as_usize_word z) by (unfold is_word; lia).
  rewrite (Z.mod_small z) by lia. set (v := gpr c r / 2 ^ 16 * 2 ^ 16 + z).
  assert (E : ∀ s, gpr (set_sysreg s z (set_gpr r v c)) r = v ∧ gpr (set_gpr r v c) r = v).
  { intros s. unfold gpr, set_gpr, set_sysreg. cbn [gprs]. by rewrite get_upd_same. }
  assert (Hv : v mod 2 ^ 16 = z) by (unfold v; dlia). rewrite (proj2 (E DS)), Hv, (proj1 (E DS)), Hv. reflexivity.
Qed.

(** Up to the search *)
Lemma boot_first c fuel : mem_wf (cmem c) →
  let count := read_u32 (cmem c) _ENARX_CPUID in
  run (7 + fuel) env code c 0 = run fuel env code (searching c _ENARX_CPUID count (gpr c RDI) (count =? 0)) (if count =? 0 then 23 else 7).
Proof.
  intros Hm count. change (7 + fuel)%nat with (6 + S fuel)%nat.
  rewrite (run_straight env code (take 6 code) (S fuel)) by done.
  change (take 6 code) with ([Mov (W RAX) (Imm 0x10); MovTo DS RAX; MovTo SS RAX] ++
    [Mov (E RAX) (Imm _ENARX_CPUID); Mov (E RCX) (D (Some RAX) 0); Test (E RCX) (E RCX)]).
  rewrite exec_all_app, exec_mov_selector, outcome_bind_return by lia. name_cpu c1.
  rewrite (exec_all_cons _ _ _ _ _ (exec_mov32 env RAX _ c1)). change (as_u32 (read_opnd (Imm _ENARX_CPUID) c1)) with _ENARX_CPUID.
  unfold c1. cpu_canon. rewrite upd_upd. name_cpu c2. rewrite (exec_all_cons _ _ _ _ _ (exec_mov32 env RCX _ c2)).
  change (read_opnd (D (Some RAX) 0) c2) with count. assert (Hc : 0 ≤ count < 2 ^ 32) by (by apply read_u32_bound).
  rewrite (as_u32_small count) by done. unfold c2. cpu_canon. name_cpu c3.
  assert (Et : exec env (Test (E RCX) (E RCX)) c3 = Return (set_zf (count =? 0) c3)).
  { cbn [exec read_opnd]. change (gpr c3 RCX) with count. by rewrite (as_u32_small count), Z.land_diag by done. }
  rewrite (exec_all_cons _ _ _ _ _ Et), exec_all_nil, outcome_bind_return, (run_je env fuel code _ 6 33 f_ 23) by done.
  unfold c3, searching. cpu_canon. rewrite <- (upd_get (upd (upd (gprs c) RAX _ENARX_CPUID) RCX count) RDI) at 1. reflexivity.
Qed.

(** The bit that an entry gives *)
Lemma boot_found c rax rcx rdi e fuel : mem_wf (cmem c) → 0 ≤ rdi → rdi + 0x30 < 2 ^ 64 → ebx e = read_u32 (cmem c) (rdi + 0x2C) →
  ∃ c', run (6 + fuel) env code (searching c rax rcx rdi true) 17 = run fuel env code c' 25 ∧
    gpr c' RBX = 2 ^ (ebx e mod 32) ∧ sysreg c' = sysreg (searching c rax rcx rdi true) ∧ msr c' = msr c ∧ cmem c' = cmem c.
Proof.
  intros Hm Hr Hr' He. change (6 + fuel)%nat with (5 + S fuel)%nat.
  rewrite (run_straight env code (take 5 (drop 17 code)) (S fuel)) by done. cbn [take drop asm_code32]. name_cpu c1.
  rewrite (exec_all_cons _ _ _ _ _ (exec_mov32 env RDX _ c1)).
  assert (E1 : as_u32 (read_opnd (D (Some RDI) 0x2C) c1) = ebx e).
  { cbn [read_opnd base_of]. change (gpr c1 RDI) with rdi. rewrite as_usize_word by (unfold is_word; lia).
    change (cmem c1) with (cmem c). rewrite <- He. apply as_u32_small. rewrite He. by apply read_u32_bound. }
  rewrite E1. set (b := ebx e) in *. unfold c1, searching. cpu_canon. name_cpu c2.
  assert (Hb : 0 ≤ b < 2 ^ 32) by (rewrite He; by apply read_u32_bound).
  rewrite (exec_all_cons _ _ _ _ _ (exec_alu32 env AND RDX _ c2)). cbv zeta.
  alu_is (b mod 64); [|change (as_u32 (Z.land (as_u32 b) (Z.ones 6)) = b mod 64);
    rewrite (as_u32_small b), Z.land_ones, as_u32_small by (done || dlia); done].
  unfold c2. cpu_canon. name_cpu c3. rewrite (exec_all_cons _ _ _ _ _ (exec_alu32 env SUB RDX _ c3)). cbv zeta.
  alu_is ((b mod 64 - 32) mod 2 ^ 32); [|change (as_u32 (as_u32 (b mod 64) - 32) = (b mod 64 - 32) mod 2 ^ 32);
    rewrite (as_u32_small (b mod 64)) by dlia; done].
  unfold c3. cpu_canon. name_cpu c4. rewrite (exec_all_cons _ _ _ _ _ (exec_alu32 env XOR RBX _ c4)). cbv zeta.
  alu_is 0; [|change (as_u32 (Z.lxor (as_u32 (gpr c RBX)) (as_u32 (gpr c RBX))) = 0); by rewrite Z.lxor_nilpotent].
  unfold c4. cpu_canon. name_cpu c5. rewrite (exec_all_cons _ _ _ _ _ (exec_bts env RBX RDX c5)), exec_all_nil, outcome_bind_return.
  rewrite (run_jmp env fuel code _ 22 34 f_ 25) by done. eexists. split; [reflexivity|].
  split; [|done]. change (Z.lor 0 (Z.shiftl 1 ((b mod 64 - 32) mod 2 ^ 32 mod 32)) = 2 ^ (b mod 32)).
  rewrite Z.lor_0_l, Z.shiftl_1_l. f_equal. dlia.
Qed.

(** No such entry: the shim asks the hypervisor to be terminated. *)
Lemma boot_refused c fuel : ∃ c', run (6 + fuel) env code c 44 = Return (by_vmmcall, c') ∧ msr c' SEV_GHCB_MSR = 0x21100.
Proof.
  change (6 + fuel)%nat with (5 + S fuel)%nat.
  rewrite (run_straight env code (take 5 (drop 44 code)) (S fuel)) by done. cbn [take drop asm_code32].
  rewrite (exec_all_cons _ _ _ _ _ (exec_label env 88 _)), (exec_all_cons _ _ _ _ _ (exec_mov32 env RAX _ c)). cpu_canon. name_cpu c1.
  rewrite (exec_all_cons _ _ _ _ _ (exec_alu32 env XOR RDX _ c1)). cbv zeta.
  alu_is 0; [|change (as_u32 (Z.lxor (as_u32 (gpr c RDX)) (as_u32 (gpr c RDX))) = 0); by rewrite Z.lxor_nilpotent].
  unfold c1. cpu_canon. name_cpu c2. rewrite (exec_all_cons _ _ _ _ _ (exec_mov32 env RCX _ c2)). unfold c2. cpu_canon. name_cpu c3.
  rewrite (exec_all_cons _ _ _ _ _ (exec_wrmsr env c3)), exec_all_nil, outcome_bind_return.
  rewrite (run_leave env fuel code _ _ Vmmcall by_vmmcall) by done. eexists. split; reflexivity.
Qed.

(** What the 32-bit code does with the CPUID page *)
Lemma boot32_cases c : mem_wf (cmem c) → read_u32 (cmem c) _ENARX_CPUID ≤ COUNT_MAX →
  0 ≤ sysreg c CR4 < 2 ^ 32 → 0 ≤ sysreg c CR0 < 2 ^ 32 → is_word (msr c MSR_EFER) →
  match list_find is_encryption (boot_functions (cmem c)) with
  | Some (_, e) => ∃ c', run 700 env code c 0 = Return (by_far, c') ∧ paged c (2 ^ (ebx e mod 32)) c'
  | None =>
      if read_u32 (cmem c) _ENARX_CPUID =? 0 then ∃ c', run 700 env code c 0 = Return (by_far, c') ∧ paged c 0 c'
      else ∃ c', run 700 env code c 0 = Return (by_vmmcall, c') ∧ msr c' SEV_GHCB_MSR = 0x21100
  end.
Proof.
  intros Hm Hc H4 H0 He. pose proof (read_u32_bound (cmem c) _ENARX_CPUID Hm) as Hb.
  unfold boot_functions. set (count := read_u32 (cmem c) _ENARX_CPUID) in *. change 700%nat with (7 + (1 + 692))%nat. rewrite boot_first by done.
  fold count. destruct (count =? 0) eqn:Ez.
  - apply Z.eqb_eq in Ez. rewrite Ez. cbn [seqZ fmap list_fmap list_find].
    set (c0 := searching _ _ _ _ _). change (1 + 692)%nat with (2 + (19 + 672))%nat.
    rewrite (run_straight env code (take 2 (drop 23 code)) (19 + 672)) by done. cbn [take drop asm_code32].
    rewrite (exec_all_cons _ _ _ _ _ (exec_label env 33 _)), (exec_all_cons _ _ _ _ _ (exec_alu32 env XOR RBX _ c0)), exec_all_nil, outcome_bind_return.
    alu_is 0; [|change (as_u32 (Z.lxor (as_u32 (gpr c RBX)) (as_u32 (gpr c RBX))) = 0); by rewrite Z.lxor_nilpotent].
    set (c1 := set_zf _ _).
    destruct (enable_paging env c1 0 672 eq_refl ltac:(lia) H4 H0 He) as (c' & E & [P1 P2 P3 P4 P5 P6]). exists c'. split; [exact E|]. by split.
  - apply Z.eqb_neq in Ez.
    rewrite (run_straight env code [Alu ADD (E RCX) (Imm 1)] 692) by done.
    rewrite (exec_all_cons _ _ _ _ _ (exec_alu32 env ADD RCX _ _)), exec_all_nil, outcome_bind_return.
    alu_is (count + 1); [|change (as_u32 (as_u32 count + 1) = count + 1); unfold COUNT_MAX in Hc; rewrite (as_u32_small count), as_u32_small; lia].
    destruct (search env c Hm (Z.to_nat count) 0 (gpr c RDI) (count + 1 =? 0)) as (steps & rax & rcx & rdi & Hs & E & Hf); [lia|lia|].
    rewrite Z2Nat.id in E, Hf by lia. set (found := list_find _ _) in *. unfold COUNT_MAX in Hc.
    replace 692%nat with (steps + (6 + (19 + (692 - steps - 25))))%nat by lia. cpu_canon.
    change (mkCpu _ _ _ _ _ _ _ _ _) with (searching c (_ENARX_CPUID + 48 * 0) (count + 1) (gpr c RDI) (count + 1 =? 0)). rewrite E.
    destruct found as [[j e]|] eqn:Ef.
    + destruct (Hf j e eq_refl) as [-> He']. rewrite Z.add_0_l in *.
      assert (Hj : Z.of_nat j < count).
      { apply list_find_Some in Ef as (Hl & _). apply lookup_lt_Some in Hl. rewrite length_fmap, length_seqZ in Hl. lia. }
      set (rdi := _ENARX_CPUID + 48 * Z.of_nat j). assert (Hr : 0 ≤ rdi ∧ rdi + 0x30 < 2 ^ 64) by (unfold rdi, _ENARX_CPUID; lia).
      destruct (boot_found c rax rcx rdi e (19 + (692 - steps - 25)) Hm (proj1 Hr) (proj2 Hr)) as (c1 & -> & Hbx & Hsr & Hms & Hme).
      { rewrite He'. cbn [ebx boot_entry entry_at]. f_equal. unfold rdi. lia. }
      rewrite <- Hme in *. assert (Hp : 0 ≤ 2 ^ (ebx e mod 32) < 2 ^ 32) by (split; [lia|apply Z.pow_lt_mono_r; dlia]).
      destruct (enable_paging env c1 _ (692 - steps - 25) Hbx Hp) as (c' & Er & [P1 P2 P3 P4 P5 P6]);
        [by rewrite Hsr|by rewrite Hsr|by rewrite Hms|]. exists c'. split; [exact Er|].
      rewrite Hsr in P4, P5. rewrite Hms in P6. rewrite Hme in P2. by split.
    + apply (boot_refused _ (19 + (692 - steps - 25))).
Qed.

End boot32.

(** ** The page tables of the shim *)

Lemma lor_word a b : is_word a → is_word b → is_word (Z.lor a b).
Proof.
  unfold is_word. intros Ha Hb. split; [apply Z.lor_nonneg; lia|].
  assert (E : Z.lor a b mod 2 ^ 64 = Z.lor a b).
  { rewrite <- Z.land_ones, Z.land_lor_distr_l, !Z.land_ones by lia. by rewrite !Z.mod_small by lia. }
  pose proof (Z.mod_pos_bound (Z.lor a b) (2 ^ 64)). lia.
Qed.

Lemma or_u32_outside m a v x : x < a ∨ a + 4 ≤ x → or_u32 m a v x = m x.
Proof. intros Hx. apply write_bytes_outside. rewrite length_to_le_bytes. lia. Qed.

Lemma or_u32_wf m a v : mem_wf m → mem_wf (or_u32 m a v).
Proof. intros Hm. by apply write_bytes_wf, to_le_bytes_wf. Qed.

Lemma from_le_bytes_concat bs cs : from_le_bytes (bs ++ cs) = from_le_bytes bs + 256 ^ Z.of_nat (length bs) * from_le_bytes cs.
Proof.
  induction bs as [|b bs IH]; [cbn [app from_le_bytes length]; lia|]. cbn [app from_le_bytes length]. rewrite IH.
  replace (Z.of_nat (S (length bs))) with (Z.of_nat (length bs) + 1) by lia. rewrite Z.pow_add_r by lia. lia.
Qed.

(** A word is its halves. *)
Lemma read_usize_halves m a : read_usize m a = read_u32 m a + 2 ^ 32 * read_u32 m (a + 4).
Proof.
  unfold read_usize, read_u32. replace 8 with (4 + 4) by lia. rewrite read_bytes_app by lia.
  by rewrite from_le_bytes_concat, length_read_bytes.
Qed.

Lemma add_lor a b : 0 ≤ a < 2 ^ 32 → a + 2 ^ 32 * b = Z.lor a (b * 2 ^ 32).
Proof.
  intros Ha. rewrite (Z.mul_comm (2 ^ 32)). apply Z.add_nocarry_lor. apply Z.bits_inj'. intros n Hn. rewrite Z.land_spec, Z.bits_0.
  destruct (decide (n < 32)); [rewrite Z.mul_pow2_bits_low by lia; apply andb_false_r|].
  rewrite <- (Z.mod_small a (2 ^ 32)) by lia. by rewrite Z.mod_pow2_bits_high by lia.
Qed.

(** Bits set in the upper half *)
Lemma or_u32_upper m a v : mem_wf m → 0 ≤ v < 2 ^ 32 → read_usize (or_u32 m (a + 4) v) a = Z.lor (read_usize m a) (v * 2 ^ 32).
Proof.
  intros Hm Hv. rewrite !read_usize_halves. pose proof (read_u32_bound m a Hm) as Hl. pose proof (read_u32_bound m (a + 4) Hm) as Hh.
  assert (E1 : read_u32 (or_u32 m (a + 4) v) a = read_u32 m a).
  { unfold read_u32. f_equal. apply read_bytes_ext. intros x Hx. apply or_u32_outside. lia. }
  assert (E2 : read_u32 (or_u32 m (a + 4) v) (a + 4) = Z.lor (read_u32 m (a + 4)) v).
  { unfold read_u32 at 1, or_u32. rewrite read_write_same by (by rewrite length_to_le_bytes).
    rewrite or_u32_flags by done. rewrite from_to_le_bytes. apply Z.mod_small. rewrite <- (or_u32_flags _ v Hh Hv). apply as_u32_range. }
  rewrite E1, E2, !add_lor by done. rewrite <- Z.lor_assoc. f_equal. rewrite <- !Z.shiftl_mul_pow2 by lia. by rewrite Z.shiftl_lor.
Qed.

(** All entries of a table *)
Fixpoint or_entries (m : mem) (d v : Z) (n : nat) : mem :=
  match n with O => m | S n => or_entries (or_u32 m d v) (d + 8) v n end.

Lemma or_entries_outside n : ∀ m d v x, x < d ∨ d + 8 * Z.of_nat n ≤ x + 4 → or_entries m d v n x = m x.
Proof.
  induction n as [|n IH]; intros m d v x Hx; [done|]. cbn [or_entries]. rewrite IH by lia. apply or_u32_outside. lia.
Qed.

Lemma or_entries_wf n : ∀ m d v, mem_wf m → mem_wf (or_entries m d v n).
Proof. induction n as [|n IH]; intros m d v Hm; [done|]. by apply IH, or_u32_wf. Qed.

Lemma or_entries_read n : ∀ m a v i, mem_wf m → 0 ≤ v < 2 ^ 32 → (i < n)%nat →
  read_usize (or_entries m (a + 4) v n) (a + 8 * Z.of_nat i) = Z.lor (read_usize m (a + 8 * Z.of_nat i)) (v * 2 ^ 32).
Proof.
  induction n as [|n IH]; intros m a v i Hm Hv Hi; [lia|]. cbn [or_entries]. destruct i as [|i].
  - rewrite Z.mul_0_r, Z.add_0_r, <- or_u32_upper by done. apply read_usize_ext. intros x Hx. apply or_entries_outside. lia.
  - replace (a + 8 * Z.of_nat (S i)) with ((a + 8) + 8 * Z.of_nat i) by lia. replace (a + 4 + 8) with (a + 8 + 4) by lia.
    rewrite IH by (done || lia || by apply or_u32_wf). f_equal. apply read_usize_ext. intros x Hx. apply or_u32_outside. lia.
Qed.
