(* ===== verification/KvmBootTables.v ===== *)
(** * The page tables that the KVM shim starts with

    The 64-bit part of the boot code: the tables of the shim are linked, the
    encryption bit is set in each of their entries and in [cr3], and the shim goes on
    at its place in the address space. *)

From S2P Require Import Prelude Memory Libc PhaseAlloc StagedValues Items Calls CallLaws StageKit.
From S2P Require Import SockTypes Syscalls Stubs SyscallLaws NumberCalls Platform Handler HandlerCalls.
From S2P Require Import KvmMachine Asm AsmLaws KvmBoot.

Section instructions.
Context `{XState}.
Variable env : nat → cpu → outcome cpu.

Lemma run_loop fuel code c pc n d t : code !! pc = Some (Loop n d) → target code pc n d = Some t →
  run (S fuel) env code c pc =
    let v := as_usize (gpr c RCX - 1) in run fuel env code (set_gpr RCX v c) (if v =? 0 then S pc else t).
Proof. intros Hi Ht. rewrite run_step. unfold step, jump. rewrite Hi, Ht. cbv zeta. by destruct (_ =? 0). Qed.

Lemma exec_or_reg d s c : is_word (gpr c d) → is_word (gpr c s) → exec env (Alu OR (R d) (R s)) c =
  Return (set_zf (Z.lor (gpr c d) (gpr c s) =? 0) (set_gpr d (Z.lor (gpr c d) (gpr c s)) c)).
Proof.
  intros Hd Hs. cbn [exec read_opnd write_opnd trunc alu_result]. by rewrite !(as_usize_word (Z.lor _ _)) by (by apply lor_word).
Qed.

Lemma exec_or_imm d z c : is_word (gpr c d) → is_word z → exec env (Alu OR (R d) (Imm z)) c =
  Return (set_zf (Z.lor (gpr c d) z =? 0) (set_gpr d (Z.lor (gpr c d) z) c)).
Proof.
  intros Hd Hz. cbn [exec read_opnd write_opnd trunc alu_result].
  by rewrite (as_usize_word z), !(as_usize_word (Z.lor _ _)) by (by try apply lor_word).
Qed.

Lemma exec_store b d s c : is_word (gpr c b + d) → exec env (Mov (Q (Some b) d) (R s)) c =
  Return (set_cmem (write_usize (cmem c) (gpr c b + d) (gpr c s)) c).
Proof. intros Hw. cbn [exec read_opnd write_opnd base_of]. by rewrite as_usize_word. Qed.

Lemma exec_address r d c : is_word d → exec env (Lea r None d) c = Return (set_gpr r d c).
Proof. intros Hw. cbn [exec base_of]. by rewrite Z.add_0_l, as_usize_word. Qed.

(** [set_table_c_bit!] *)
Definition table_entry (src cbit : Z) : Z := Z.lor (Z.lor src cbit) 3.

Lemma exec_set_table dr T sr S o c : dr ≠ sr → dr ≠ R12 → sr ≠ R12 → is_word T → is_word S → is_word (gpr c R12) →
  is_word (T + o * 8) →
  ∃ z, exec_all env (set_table_c_bit R12 dr T sr S o) c =
    Return (mkCpu (upd (upd (gprs c) dr T) sr (table_entry S (gpr c R12))) z (flags c) (xstate c) (gs c) (kernel_gs c)
      (sysreg c) (msr c) (write_usize (cmem c) (T + o * 8) (table_entry S (gpr c R12)))).
Proof.
  intros Hds Hd Hs HT HS Hc Ho. eexists. unfold set_table_c_bit.
  rewrite (exec_all_cons _ _ _ _ _ (exec_address dr T c HT)). cpu_canon. name_cpu c1.
  rewrite (exec_all_cons _ _ _ _ _ (exec_address sr S c1 HS)). unfold c1. cpu_canon. name_cpu c2.
  assert (A2 : gpr c2 sr = S) by (unfold gpr; cbn [gprs c2]; by rewrite get_upd_same).
  assert (B2 : gpr c2 R12 = gpr c R12) by (unfold gpr; cbn [gprs c2]; by rewrite !get_upd_other).
  rewrite (exec_all_cons _ _ _ _ _ (exec_or_reg sr R12 c2 ltac:(rewrite A2; exact HS) ltac:(rewrite B2; exact Hc))), A2, B2.
  unfold c2. cpu_canon. rewrite upd_upd. name_cpu c3.
  assert (A3 : gpr c3 sr = Z.lor S (gpr c R12)) by (unfold gpr at 1; cbn [gprs c3]; by rewrite get_upd_same).
  assert (W3 : is_word (Z.lor S (gpr c R12))) by (by apply lor_word).
  rewrite (exec_all_cons _ _ _ _ _ (exec_or_imm sr 3 c3 ltac:(rewrite A3; exact W3) ltac:(by unfold is_word))), A3.
  fold (table_entry S (gpr c R12)). unfold c3. cpu_canon. rewrite upd_upd. name_cpu c4.
  assert (A4 : gpr c4 sr = table_entry S (gpr c R12)) by (unfold gpr at 1; cbn [gprs c4]; by rewrite get_upd_same).
  assert (B4 : gpr c4 dr = T) by (unfold gpr; cbn [gprs c4]; rewrite get_upd_other by done; by rewrite get_upd_same).
  rewrite (exec_all_cons _ _ _ _ _ (exec_store dr (o * 8) sr c4 ltac:(rewrite B4; exact Ho))), A4, B4, exec_all_nil.
  unfold c4. cpu_canon. reflexivity.
Qed.

End instructions.

(** ** [correct_table_c_bit!] *)

Section table.
Context `{XState}.
Variable env : nat → cpu → outcome cpu.
Variables (code : list instr) (p : nat) (T : Z).
(** The instructions of the macro are at [p]. *)
Hypothesis Hhead : take 3 (drop p code) = [Lea RDX None T; Mov (E RCX) (Imm 512); Alu ADD (R RDX) (Imm 4)].
Hypothesis Hbody : take 3 (drop (p + 3) code) = [Label 2; Alu OR (D (Some RDX) 0) (E RBX); Alu ADD (R RDX) (Imm 8)].
Hypothesis Hloop : code !! (p + 6)%nat = Some (Loop 2 b_).
Hypothesis Htarget : target code (p + 6) 2 b_ = Some (p + 3)%nat.

Definition at_entry (c : cpu) (m : mem) (k d : Z) (z : bool) : cpu :=
  mkCpu (upd (upd (gprs c) RDX d) RCX k) z (flags c) (xstate c) (gs c) (kernel_gs c) (sysreg c) (msr c) m.

Lemma table_once c m k d z fuel : 1 ≤ k < 2 ^ 64 → 0 ≤ d → d + 8 < 2 ^ 64 → 0 ≤ gpr c RBX < 2 ^ 32 →
  run (4 + fuel) env code (at_entry c m k d z) (p + 3) =
    run fuel env code (at_entry c (or_u32 m d (gpr c RBX)) (k - 1) (d + 8) false) (if k - 1 =? 0 then p + 7 else p + 3).
Proof.
  intros Hk Hd Hd' Hv. change (4 + fuel)%nat with (3 + S fuel)%nat.
  rewrite (run_straight env code [Label 2; Alu OR (D (Some RDX) 0) (E RBX); Alu ADD (R RDX) (Imm 8)] (S fuel)) by done.
  rewrite (exec_all_cons _ _ _ _ _ (exec_label env 2 _)). name_cpu c1.
  assert (D1 : gpr c1 RDX + 0 = d) by (change (gpr c1 RDX) with d; lia).
  rewrite (exec_all_cons _ _ _ _ _ (exec_or_mem env RDX 0 RBX c1 ltac:(rewrite D1; unfold is_word; lia))). cbv zeta. rewrite D1.
  change (gpr c1 RBX) with (gpr c RBX). rewrite (as_u32_small (gpr c RBX)) by done.
  unfold c1, at_entry. cpu_canon. name_cpu c2. assert (D2 : gpr c2 RDX = d) by done.
  rewrite (exec_all_cons _ _ _ _ _ (exec_add_imm env RDX 8 c2 ltac:(lia) ltac:(rewrite D2; lia) ltac:(rewrite D2; lia))), D2.
  rewrite exec_all_nil, outcome_bind_return. replace (p + 3 + length _)%nat with (p + 6)%nat by (cbn [length]; lia).
  rewrite (run_loop env fuel code _ (p + 6) 2 b_ (p + 3)) by done. cbv zeta.
  unfold c2. cpu_canon. change (gpr _ RCX) with k. rewrite (as_usize_word (k - 1)) by (unfold is_word; lia).
  rewrite (proj2 (Z.eqb_neq (d + 8) 0)) by lia. replace (S (p + 6))%nat with (p + 7)%nat by lia. reflexivity.
Qed.

Lemma table_loop n : ∀ c m d z fuel, (0 < n)%nat → Z.of_nat n < 2 ^ 64 → 0 ≤ d → d + 8 * Z.of_nat n < 2 ^ 64 → 0 ≤ gpr c RBX < 2 ^ 32 →
  run (4 * n + fuel) env code (at_entry c m (Z.of_nat n) d z) (p + 3) =
    run fuel env code (at_entry c (or_entries m d (gpr c RBX) n) 0 (d + 8 * Z.of_nat n) false) (p + 7).
Proof.
  induction n as [|n IH]; intros c m d z fuel Hn Hl Hd Hd' Hv; [lia|].
  replace (4 * S n + fuel)%nat with (4 + (4 * n + fuel))%nat by lia. rewrite table_once by lia.
  replace (Z.of_nat (S n) - 1) with (Z.of_nat n) by lia. destruct n as [|n].
  - change (Z.of_nat 0 =? 0) with true. cbv iota. cbn [or_entries]. do 2 f_equal.
  - rewrite (proj2 (Z.eqb_neq (Z.of_nat (S n)) 0)) by lia. rewrite IH by lia. cbn [or_entries]. do 2 f_equal. lia.
Qed.

Lemma table_corrected c fuel : is_word (T + 4096 + 8) → is_word T → 0 ≤ gpr c RBX < 2 ^ 32 →
  run (3 + (4 * 512 + fuel)) env code c p =
    run fuel env code (at_entry c (or_entries (cmem c) (T + 4) (gpr c RBX) 512) 0 (T + 4 + 4096) false) (p + 7).
Proof.
  intros Hw HT Hv. set (n := (4 * 512 + fuel)%nat). rewrite (run_straight env code [Lea RDX None T; Mov (E RCX) (Imm 512); Alu ADD (R RDX) (Imm 4)] n) by done.
  rewrite (exec_all_cons _ _ _ _ _ (exec_address env RDX T c HT)). cpu_canon. name_cpu c1.
  rewrite (exec_all_cons _ _ _ _ _ (exec_mov32 env RCX _ c1)). change (as_u32 (read_opnd (Imm 512) c1)) with 512. unfold c1. cpu_canon. name_cpu c2.
  unfold is_word in *. assert (D2 : gpr c2 RDX = T) by done.
  rewrite (exec_all_cons _ _ _ _ _ (exec_add_imm env RDX 4 c2 ltac:(lia) ltac:(rewrite D2; lia) ltac:(rewrite D2; lia))), D2.
  rewrite exec_all_nil, outcome_bind_return. unfold c2. cpu_canon. change (p + length _)%nat with (p + 3)%nat.
  replace (T + 4 + 4096) with (T + 4 + 8 * Z.of_nat 512) by lia. rewrite <- (table_loop 512 c (cmem c) (T + 4) (T + 4 =? 0) fuel) by lia.
  reflexivity.
Qed.

End table.

(** ** The code of 64 bits *)

Section code64.
Context `{XState}.
Variable env : nat → cpu → outcome cpu.
Variables PML4T PDPT PDT PT trampoline : Z.
Abbreviation code := (asm_code64 PML4T PDPT PDT PT trampoline).

(** The tables, for the bits [v] of the upper halves of entries *)
Definition linked (m : mem) (v : Z) : mem :=
  let cb := v * 2 ^ 32 in
  let m := write_usize m (PML4T + 511 * 8) (table_entry PDPT cb) in
  let m := write_usize m (PML4T + 0) (table_entry PDPT cb) in
  let m := write_usize m (PDPT + 3 * 8) (table_entry PDT cb) in
  write_usize m (PDT + 511 * 8) (table_entry PT cb).
Definition corrected (m : mem) (v : Z) : mem :=
  or_entries (or_entries (or_entries m (PDPT + 4) v 512) (PDT + 4) v 512) (PT + 4) v 512.

Definition fuel64 (fuel : nat) : nat :=
  (18 + (3 + (4 * 512 + (3 + (4 * 512 + (3 + (4 * 512 + (5 + S fuel))))))))%nat.

Record tables_ok : Prop := {
  to_words : Forall (λ T, 0 ≤ T ∧ T + 4096 + 8 < 2 ^ 64) [PML4T; PDPT; PDT; PT];
  to_trampoline : 0 ≤ trampoline ∧ trampoline + SHIM_VIRT_OFFSET < 2 ^ 64;
}.

Lemma run_linked c fuel : tables_ok → is_word (gpr c RBX) → 0 ≤ gpr c RBX < 2 ^ 32 →
  ∃ z, run (18 + fuel) env code c 0 =
    run fuel env code (mkCpu (upd (upd (upd (upd (gprs c) R12 (gpr c RBX * 2 ^ 32)) RAX PML4T) RCX PDT) RDX (table_entry PT (gpr c RBX * 2 ^ 32)))
      z (flags c) (xstate c) (gs c) (kernel_gs c) (sysreg c) (msr c) (linked (cmem c) (gpr c RBX))) 18.
Proof.
  intros [Ht _] Hb Hv. rewrite !Forall_cons in Ht. destruct Ht as (H1 & H2 & H3 & H4 & _).
  rewrite (run_straight env code (take 18 code) fuel) by done.
  change (take 18 code) with ([Mov (R R12) (R RBX); Alu SHL (R R12) (Imm 32)] ++ set_table_c_bit R12 RAX PML4T RDX PDPT 511 ++
    [Mov (Q (Some RAX) 0) (R RDX)] ++ set_table_c_bit R12 RCX PDPT RDX PDT 3 ++ set_table_c_bit R12 RCX PDT RDX PT 511).
  set (v := gpr c RBX) in *. set (cb := v * 2 ^ 32). assert (Hcb : is_word cb) by (unfold cb, is_word; lia).
  rewrite exec_all_app, (exec_all_cons _ _ _ _ _ (exec_mov_reg env R12 RBX c Hb)). cpu_canon. name_cpu c1.
  rewrite (exec_all_cons _ _ _ _ _ (exec_shl env R12 32 c1 ltac:(lia) (proj1 Hv) ltac:(change (gpr c1 R12) with v; lia))), exec_all_nil, outcome_bind_return.
  change (gpr c1 R12 * 2 ^ 32) with cb. unfold c1. cpu_canon. rewrite upd_upd. name_cpu c2.
  assert (W : ∀ T, 0 ≤ T ∧ T + 4096 + 8 < 2 ^ 64 → is_word T ∧ is_word (T + 511 * 8) ∧ is_word (T + 3 * 8) ∧ is_word (T + 0)).
  { intros T HT. unfold is_word. lia. }
  destruct (W _ H1) as (W1 & W1' & _ & W1''), (W _ H2) as (W2 & _ & W2' & _), (W _ H3) as (W3 & W3' & _), (W _ H4) as (W4 & _).
  rewrite exec_all_app. destruct (exec_set_table env RAX PML4T RDX PDPT 511 c2) as (z1 & ->); [done..|]. rewrite outcome_bind_return.
  change (gpr c2 R12) with cb. unfold c2. cpu_canon. name_cpu c3. rewrite exec_all_app.
  rewrite (exec_all_cons _ _ _ _ _ (exec_store env RAX 0 RDX c3 W1'')), exec_all_nil, outcome_bind_return.
  change (gpr c3 RAX) with PML4T. change (gpr c3 RDX) with (table_entry PDPT cb). unfold c3. cpu_canon. name_cpu c4. rewrite exec_all_app.
  destruct (exec_set_table env RCX PDPT RDX PDT 3 c4) as (z2 & ->); [done..|]. rewrite outcome_bind_return.
  change (gpr c4 R12) with cb. unfold c4. cpu_canon. name_cpu c5.
  destruct (exec_set_table env RCX PDT RDX PT 511 c5) as (z3 & ->); [done..|]. rewrite outcome_bind_return.
  change (gpr c5 R12) with cb. unfold c5. cpu_canon. exists z3. reflexivity.
Qed.

(** The whole: the jump, the registers and the tables *)
Lemma run_code64 c fuel : tables_ok → is_word (gpr c RBX) → 0 ≤ gpr c RBX < 2 ^ 32 →
  ∃ c', run (fuel64 fuel) env code c 0 = Return (by_jmp (trampoline + SHIM_VIRT_OFFSET), c') ∧
    gpr c' R12 = gpr c RBX * 2 ^ 32 ∧ gpr c' RSI = SHIM_VIRT_OFFSET ∧ sysreg c' CR3 = Z.lor PML4T (gpr c RBX * 2 ^ 32) ∧
    cmem c' = corrected (linked (cmem c) (gpr c RBX)) (gpr c RBX).
Proof.
  intros Hok Hb Hv. unfold fuel64. set (n3 := (5 + S fuel)%nat). set (n2 := (3 + (4 * 512 + n3))%nat). set (n1 := (3 + (4 * 512 + n2))%nat).
  destruct (run_linked c (3 + (4 * 512 + n1)) Hok Hb Hv) as (z & ->). set (c1 := mkCpu _ _ _ _ _ _ _ _ _).
  destruct Hok as [Ht Htr]. rewrite !Forall_cons in Ht. destruct Ht as (H1 & H2 & H3 & H4 & _).
  assert (W : ∀ T, 0 ≤ T ∧ T + 4096 + 8 < 2 ^ 64 → is_word T ∧ is_word (T + 4096 + 8)) by (intros T HT; unfold is_word; lia).
  destruct (W _ H1) as (W1 & _), (W _ H2) as (W2 & W2'), (W _ H3) as (W3 & W3'), (W _ H4) as (W4 & W4').
  rewrite (table_corrected env code 18 PDPT eq_refl eq_refl eq_refl eq_refl c1 n1 W2' W2 Hv). set (c2 := at_entry c1 _ _ _ _).
  change (18 + 7)%nat with 25%nat. unfold n1.
  rewrite (table_corrected env code 25 PDT eq_refl eq_refl eq_refl eq_refl c2 n2 W3' W3 Hv). set (c3 := at_entry c2 _ _ _ _).
  change (25 + 7)%nat with 32%nat. unfold n2.
  rewrite (table_corrected env code 32 PT eq_refl eq_refl eq_refl eq_refl c3 n3 W4' W4 Hv). set (c4 := at_entry c3 _ _ _ _).
  change (32 + 7)%nat with 39%nat. unfold n3.
  rewrite (run_straight env code (take 5 (drop 39 code)) (S fuel)) by done.
  change (take 5 (drop 39 code)) with [Alu OR (R RAX) (R R12); MovTo CR3 RAX; Lea RAX None trampoline; Mov (R RSI) (Imm SHIM_VIRT_OFFSET); Alu ADD (R RAX) (R RSI)].
  set (v := gpr c RBX) in *. assert (A4 : gpr c4 RAX = PML4T) by done. assert (B4 : gpr c4 R12 = v * 2 ^ 32) by done.
  assert (M4 : cmem c4 = corrected (linked (cmem c) v) v) by done. assert (Hcb : is_word (v * 2 ^ 32)) by (unfold is_word; lia).
  generalize dependent c4. clear c1 c2 c3. intros c4 A4 B4 M4.
  rewrite (exec_all_cons _ _ _ _ _ (exec_or_reg env RAX R12 c4 ltac:(rewrite A4; exact W1) ltac:(rewrite B4; exact Hcb))), A4, B4.
  cpu_canon. name_cpu c5. rewrite (exec_all_cons _ _ _ _ _ (exec_mov_to env CR3 RAX c5)). cbn [is_selector]. unfold set_sysreg.
  change (gpr c5 RAX) with (Z.lor PML4T (v * 2 ^ 32)). unfold c5. cpu_canon. name_cpu c6.
  assert (Wt : is_word trampoline) by (unfold is_word, SHIM_VIRT_OFFSET in *; lia).
  rewrite (exec_all_cons _ _ _ _ _ (exec_address env RAX trampoline c6 Wt)). unfold c6. cpu_canon. name_cpu c7.
  rewrite (exec_all_cons _ _ _ _ _ (exec_mov_imm env RSI SHIM_VIRT_OFFSET c7)). change (as_usize (as_usize SHIM_VIRT_OFFSET)) with SHIM_VIRT_OFFSET.
  unfold c7. cpu_canon. name_cpu c8. assert (A8 : gpr c8 RAX = trampoline) by done. assert (S8 : gpr c8 RSI = SHIM_VIRT_OFFSET) by done.
  rewrite (exec_all_cons _ _ _ _ _ (exec_add_reg env RAX RSI c8 ltac:(rewrite A8; lia) ltac:(rewrite S8; done) ltac:(rewrite A8, S8; lia))), A8, S8.
  rewrite exec_all_nil, outcome_bind_return. unfold c8. cpu_canon. 
  rewrite run_step. unfold step. change (code !! _) with (Some (JmpReg RAX)). eexists. split; [reflexivity|].
  split; [exact B4|]. split; [reflexivity|]. split; [reflexivity|exact M4].
Qed.

(** ** What the tables hold *)

(** The pages of the tables do not overlap. *)
Definition apart (T T' : Z) : Prop := T + 4096 ≤ T' ∨ T' + 4096 ≤ T.
Record tables_apart : Prop := {
  ap_1 : apart PML4T PDPT; ap_2 : apart PML4T PDT; ap_3 : apart PML4T PT;
  ap_4 : apart PDPT PDT; ap_5 : apart PDPT PT; ap_6 : apart PDT PT;
}.

Lemma table_entry_idem S cb : Z.lor (table_entry S cb) cb = table_entry S cb.
Proof.
  unfold table_entry. apply Z.bits_inj'. intros n Hn. rewrite !Z.lor_spec.
  by destruct (Z.testbit S n), (Z.testbit cb n), (Z.testbit 3 n).
Qed.

Lemma linked_wf m v : mem_wf m → mem_wf (linked m v).
Proof. intros Hm. unfold linked, write_usize. repeat (apply write_bytes_wf; [|apply to_le_bytes_wf]). done. Qed.

Lemma or_table_other m v T T' i : apart T' T → 0 ≤ i < 512 →
  read_usize (or_entries m (T' + 4) v 512) (T + 8 * i) = read_usize m (T + 8 * i).
Proof. intros Ha Hi. apply read_usize_ext. intros x Hx. apply or_entries_outside. unfold apart in Ha. lia. Qed.

Lemma or_table_same m v T i : mem_wf m → 0 ≤ v < 2 ^ 32 → 0 ≤ i < 512 →
  read_usize (or_entries m (T + 4) v 512) (T + 8 * i) = Z.lor (read_usize m (T + 8 * i)) (v * 2 ^ 32).
Proof. intros Hm Hv Hi. replace i with (Z.of_nat (Z.to_nat i)) by lia. apply or_entries_read; [done|done|lia]. Qed.

Lemma write_word_other m a w T i : a + 8 ≤ T + 8 * i ∨ T + 8 * i + 8 ≤ a →
  read_usize (write_usize m a w) (T + 8 * i) = read_usize m (T + 8 * i).
Proof. intros Ha. by apply read_write_usize_other. Qed.

(** The entries after all of it: the links, and the encryption bit *)
Record encrypted (m : mem) (cb : Z) (m' : mem) : Prop := {
  ec_top : read_usize m' PML4T = table_entry PDPT cb ∧ read_usize m' (PML4T + 8 * 511) = table_entry PDPT cb;
  ec_rest : ∀ i, 0 < i < 511 → read_usize m' (PML4T + 8 * i) = read_usize m (PML4T + 8 * i);
  ec_pdpt : ∀ i, 0 ≤ i < 512 → read_usize m' (PDPT + 8 * i) =
    if decide (i = 3) then table_entry PDT cb else Z.lor (read_usize m (PDPT + 8 * i)) cb;
  ec_pdt : ∀ i, 0 ≤ i < 512 → read_usize m' (PDT + 8 * i) =
    if decide (i = 511) then table_entry PT cb else Z.lor (read_usize m (PDT + 8 * i)) cb;
  ec_pt : ∀ i, 0 ≤ i < 512 → read_usize m' (PT + 8 * i) = Z.lor (read_usize m (PT + 8 * i)) cb;
}.

Lemma tables_encrypted m v : tables_ok → tables_apart → mem_wf m → 0 ≤ v < 2 ^ 32 →
  encrypted m (v * 2 ^ 32) (corrected (linked m v) v).
Proof.
  intros [Ht _] [A1 A2 A3 A4 A5 A6] Hm Hv. rewrite !Forall_cons in Ht. destruct Ht as (H1 & H2 & H3 & H4 & _). unfold apart in *.
  set (cb := v * 2 ^ 32). assert (Hw : ∀ S, 0 ≤ S ∧ S + 4096 + 8 < 2 ^ 64 → is_usize (table_entry S cb)).
  { intros S HS. apply is_word_usize. unfold table_entry, cb. repeat apply lor_word; unfold is_word; lia. }
  assert (Hl : mem_wf (linked m v)) by (by apply linked_wf). split.
  - split.
    + rewrite <- (Z.add_0_r PML4T) at 1. change 0 with (8 * 0) at 1. unfold corrected. rewrite !or_table_other by (unfold apart; lia).
      unfold linked. cbv zeta. fold cb. rewrite !(write_word_other _ _ _ PML4T 0) by lia. apply read_write_usize. by apply Hw.
    + unfold corrected. rewrite !or_table_other by (unfold apart; lia). unfold linked. cbv zeta. fold cb.
      rewrite !(write_word_other _ _ _ PML4T 511) by lia. replace (8 * 511) with (511 * 8) by lia. apply read_write_usize. by apply Hw.
  - intros i Hi. unfold corrected. rewrite !or_table_other by (unfold apart; lia). unfold linked. cbv zeta. by rewrite !write_word_other by lia.
  - intros i Hi. unfold corrected. rewrite !(or_table_other _ _ PDPT) by (unfold apart; lia). rewrite or_table_same by done. fold cb.
    unfold linked. cbv zeta. fold cb. rewrite (write_word_other _ (PDT + 511 * 8)) by lia. case_decide as E.
    + subst i. replace (8 * 3) with (3 * 8) by lia. rewrite read_write_usize by (by apply Hw). apply table_entry_idem.
    + by rewrite !write_word_other by lia.
  - intros i Hi. unfold corrected. rewrite (or_table_other _ _ PDT) by (unfold apart; lia). rewrite or_table_same by (done || by apply or_entries_wf).
    rewrite (or_table_other _ _ PDT) by (unfold apart; lia). unfold linked. cbv zeta. fold cb. case_decide as E.
    + subst i. replace (8 * 511) with (511 * 8) by lia. rewrite read_write_usize by (by apply Hw). apply table_entry_idem.
    + by rewrite !write_word_other by lia.
  - intros i Hi. unfold corrected. rewrite or_table_same by (done || by do 2 apply or_entries_wf). rewrite !(or_table_other _ _ PT) by (unfold apart; lia).
    unfold linked. cbv zeta. by rewrite !write_word_other by lia.
Qed.

End code64.

(** ** The whole way *)

Section boot.
Context `{XState}.
Variables dyn_reloc pre_main : cpu → outcome cpu.
Variables PML4T PDPT PDT PT trampoline : Z.
Variables INITIAL_SHIM_STACK SIZE_OF_INITIAL_STACK _DYNAMIC : Z.

Definition boot_env (f : nat) : cpu → outcome cpu := match f with 0%nat => dyn_reloc | _ => pre_main end.
Abbreviation code64 := (asm_code64 PML4T PDPT PDT PT trampoline).
Abbreviation code_tr := (asm_trampoline INITIAL_SHIM_STACK SIZE_OF_INITIAL_STACK _DYNAMIC).

(** The first stack, and relocation as compiled code *)
Record stack_ok : Prop := {
  so_stack : 0 ≤ INITIAL_SHIM_STACK ∧ 16 ≤ SIZE_OF_INITIAL_STACK ∧ INITIAL_SHIM_STACK + SIZE_OF_INITIAL_STACK < 2 ^ 64;
  so_align : (INITIAL_SHIM_STACK + SIZE_OF_INITIAL_STACK) mod 16 = 0;
  so_dynamic : is_word _DYNAMIC;
  so_reloc : ∀ c, gpr c RSP = INITIAL_SHIM_STACK + SIZE_OF_INITIAL_STACK → gpr c RDI = _DYNAMIC →
    gpr c RSI = SHIM_VIRT_OFFSET → ∃ c', dyn_reloc c = Return c' ∧ Forall (λ r, gpr c' r = gpr c r) callee_saved;
}.

(** [_pre_main] is called with what is in [r12], and an empty frame. *)
Lemma run_trampoline c : stack_ok → is_word (gpr c R12) → gpr c RSI = SHIM_VIRT_OFFSET →
  ∃ cp, (∀ fuel, run (9 + fuel) boot_env code_tr c 0 = (pre_main cp ≫= λ c, run fuel boot_env code_tr c 9)) ∧
    gpr cp RDI = gpr c R12 ∧ gpr cp RBP = 0 ∧ gpr cp RSP mod 16 = 0.
Proof.
  intros [(S1 & S2 & S3) Sa Sd Hr] H12 Hsi. cut (∃ cp, exec_all boot_env (take 9 code_tr) c = pre_main cp ∧
    gpr cp RDI = gpr c R12 ∧ gpr cp RBP = 0 ∧ gpr cp RSP mod 16 = 0).
  { intros (cp & Ex & Hcp). exists cp. split; [|exact Hcp]. intros fuel. rewrite (run_straight boot_env code_tr (take 9 code_tr) fuel) by done. by rewrite Ex. }
  change (take 9 code_tr) with ([Lea RSP None INITIAL_SHIM_STACK; Alu ADD (R RSP) (Imm SIZE_OF_INITIAL_STACK); Lea RDI None _DYNAMIC] ++ [Call 0] ++
    [Mov (R RDI) (R R12); Alu XOR (R RBP) (R RBP); Alu SUB (R RSP) (Imm 8)] ++ pushes [RBP] ++ [Call 1]).
  assert (Ws : is_word INITIAL_SHIM_STACK) by (unfold is_word; lia).
  rewrite exec_all_app, (exec_all_cons _ _ _ _ _ (exec_address boot_env RSP _ c Ws)). cpu_canon. name_cpu c1.
  assert (P1 : gpr c1 RSP = INITIAL_SHIM_STACK) by done.
  rewrite (exec_all_cons _ _ _ _ _ (exec_add_imm boot_env RSP SIZE_OF_INITIAL_STACK c1 ltac:(lia) ltac:(rewrite P1; lia) ltac:(rewrite P1; lia))), P1.
  unfold c1. cpu_canon. rewrite upd_upd. name_cpu c2.
  rewrite (exec_all_cons _ _ _ _ _ (exec_address boot_env RDI _ c2 Sd)), exec_all_nil, outcome_bind_return. unfold c2. cpu_canon. name_cpu c3.
  destruct (Hr c3 eq_refl eq_refl Hsi) as (c4 & E4 & Hc). unfold callee_saved in Hc. rewrite !Forall_cons in Hc. destruct Hc as (_ & _ & Psp & P12 & _).
  assert (Ec : exec_all boot_env [Call 0] c3 = Return c4) by (cbn [exec_all exec boot_env]; by rewrite E4).
  rewrite exec_all_app, Ec, outcome_bind_return. change (gpr c3 R12) with (gpr c R12) in P12.
  change (gpr c3 RSP) with (INITIAL_SHIM_STACK + SIZE_OF_INITIAL_STACK) in Psp. set (top := INITIAL_SHIM_STACK + SIZE_OF_INITIAL_STACK) in *.
  rewrite exec_all_app, (exec_all_cons _ _ _ _ _ (exec_mov_reg boot_env RDI R12 c4 ltac:(rewrite P12; exact H12))), P12.
  rewrite (exec_all_cons _ _ _ _ _ (exec_xor_self boot_env RBP _)). cpu_canon. name_cpu c5. assert (P5 : gpr c5 RSP = top) by exact Psp.
  rewrite (exec_all_cons _ _ _ _ _ (exec_sub_imm boot_env RSP 8 c5 ltac:(rewrite P5; lia) ltac:(rewrite P5; unfold is_word; lia))), P5.
  rewrite exec_all_nil, outcome_bind_return. unfold c5. cpu_canon. name_cpu c6. assert (P6 : gpr c6 RSP = top - 8) by done.
  rewrite exec_all_app, exec_pushes, outcome_bind_return by (by apply reg_not_in || (rewrite P6; unfold is_word; cbn [length]; lia)). rewrite P6.
  name_cpu cp. exists cp. split; [cbn [exec_all exec boot_env]; by destruct (pre_main cp)|]. split; [done|]. split; [done|].
  change (gpr cp RSP) with (top - 8 - 8). dlia.
Qed.

(** Booting with the bit [cb] of encryption *)
Definition boots (c : cpu) (cb : Z) : Prop := ∃ c1 c2 cp,
  run 700 boot_env asm_code32 c 0 = Return (by_far, c1) ∧ paged c (cb / 2 ^ 32) c1 ∧
  run (fuel64 0) boot_env code64 c1 0 = Return (by_jmp (trampoline + SHIM_VIRT_OFFSET), c2) ∧
  sysreg c2 CR3 = Z.lor PML4T cb ∧ encrypted PML4T PDPT PDT PT (cmem c) cb (cmem c2) ∧
  (∀ fuel, run (9 + fuel) boot_env code_tr c2 0 = (pre_main cp ≫= λ c, run fuel boot_env code_tr c 9)) ∧
  gpr cp RDI = cb ∧ gpr cp RBP = 0 ∧ gpr cp RSP mod 16 = 0.

(** The tables of the shim are not the ones that the loader made. *)
Definition low_tables (T : Z) : Prop := T + 4096 ≤ _ENARX_PML3 ∨ _ENARX_PML4 + 4096 ≤ T.

Lemma paged_keeps c v c1 T i : paged c v c1 → low_tables T → 0 ≤ i < 512 → read_usize (cmem c1) (T + 8 * i) = read_usize (cmem c) (T + 8 * i).
Proof.
  intros [_ Hm _ _ _ _] HT Hi. rewrite Hm. apply read_usize_ext. intros x Hx. unfold low_tables, _ENARX_PML3, _ENARX_PML4 in *.
  by rewrite !or_u32_outside by lia.
Qed.

Lemma paged_boots c v c1 : tables_ok PML4T PDPT PDT PT trampoline → tables_apart PML4T PDPT PDT PT →
  Forall low_tables [PML4T; PDPT; PDT; PT] → stack_ok → mem_wf (cmem c) → 0 ≤ v < 2 ^ 32 →
  run 700 boot_env asm_code32 c 0 = Return (by_far, c1) → paged c v c1 → boots c (v * 2 ^ 32).
Proof.
  intros Hok Hap Hlow Hso Hm Hv E1 Hp. pose proof Hp as [Hb Hpm _ _ _ _].
  destruct (run_code64 boot_env PML4T PDPT PDT PT trampoline c1 0 Hok) as (c2 & E2 & H12 & Hsi & H3 & Hm2);
    [rewrite Hb; unfold is_word; lia|rewrite Hb; lia|]. rewrite Hb in *.
  assert (Hcb : is_word (v * 2 ^ 32)) by (unfold is_word; lia).
  destruct (run_trampoline c2 Hso ltac:(rewrite H12; exact Hcb) Hsi) as (cp & E3 & Hdi & Hbp & Hal).
  assert (Hm1 : mem_wf (cmem c1)) by (rewrite Hpm; by repeat apply or_u32_wf).
  exists c1, c2, cp. rewrite Z.div_mul by done. split; [exact E1|]. split; [exact Hp|]. split; [exact E2|]. split; [exact H3|].
  split; [|split; [exact E3|]; split; [rewrite Hdi; exact H12|exact (conj Hbp Hal)]]. rewrite Hm2.
  destruct (tables_encrypted PML4T PDPT PDT PT trampoline (cmem c1) v Hok Hap Hm1 Hv) as [T1 Tr T2 T3 T4].
  rewrite !Forall_cons in Hlow. destruct Hlow as (L1 & L2 & L3 & L4 & _).
  clear E1 E2 E3. split; [exact T1|..]; intros i Hi.
  - rewrite (Tr i Hi), (paged_keeps c v c1 PML4T i Hp L1) by lia. reflexivity.
  - rewrite (T2 i Hi), (paged_keeps c v c1 PDPT i Hp L2 Hi). reflexivity.
  - rewrite (T3 i Hi), (paged_keeps c v c1 PDT i Hp L3 Hi). reflexivity.
  - rewrite (T4 i Hi), (paged_keeps c v c1 PT i Hp L4 Hi). reflexivity.
Qed.

(** C12: the encryption bit.  The boot code looks for the leaf of memory encryption in
    the CPUID page, in the order of the entries.  When it is there, the shim runs with
    the bit that the leaf gives (of the bits 32 to 63): it is in [cr3], in the links
    between the page tables and in each entry of the tables of the shim, whose other
    bits are kept, and it is what [_pre_main] is called with.  Without entries there is
    no such bit.  With entries but without the leaf the hypervisor is asked to
    terminate the virtual machine. *)
Theorem boot_encrypted c : tables_ok PML4T PDPT PDT PT trampoline → tables_apart PML4T PDPT PDT PT →
  Forall low_tables [PML4T; PDPT; PDT; PT] → stack_ok → mem_wf (cmem c) → read_u32 (cmem c) _ENARX_CPUID ≤ COUNT_MAX →
  0 ≤ sysreg c CR4 < 2 ^ 32 → 0 ≤ sysreg c CR0 < 2 ^ 32 → is_word (msr c MSR_EFER) →
  match list_find is_encryption (boot_functions (cmem c)) with
  | Some (_, e) => boots c (2 ^ (32 + ebx e mod 32))
  | None =>
      if read_u32 (cmem c) _ENARX_CPUID =? 0 then boots c 0
      else ∃ c', run 700 boot_env asm_code32 c 0 = Return (by_vmmcall, c') ∧ msr c' SEV_GHCB_MSR = 0x21100
  end.
Proof.
  intros Hok Hap Hlow Hso Hm Hc H4 H0 He. pose proof (boot32_cases boot_env c Hm Hc H4 H0 He) as Hb.
  destruct (list_find _ _) as [[j e]|].
  - destruct Hb as (c1 & E1 & Hp). rewrite Z.add_comm, Z.pow_add_r by dlia.
    assert (Hv : 0 ≤ 2 ^ (ebx e mod 32) < 2 ^ 32) by (split; [lia|apply Z.pow_lt_mono_r; dlia]).
    exact (paged_boots c _ c1 Hok Hap Hlow Hso Hm Hv E1 Hp).
  - destruct (_ =? 0); [|exact Hb]. destruct Hb as (c1 & E1 & Hp). assert (Hv : 0 ≤ 0 < 2 ^ 32) by lia.
    exact (paged_boots c 0 c1 Hok Hap Hlow Hso Hm Hv E1 Hp).
Qed.

End boot.

(** ** Witness: an entry for memory encryption with bit 51 *)

#[local] Instance no_xstate : XState := {| xsave_area x := [x]; xrstor_area _ := 0; XSAVE_AREA_SIZE := 8; xinit := 0 |}.

Definition boot_mem : mem := write_bytes (λ _, 0) _ENARX_CPUID
  (to_le_bytes 16 1 ++ to_le_bytes 4 0x8000001f ++ to_le_bytes 24 0 ++ to_le_bytes 4 51).
Definition boot_cpu : cpu :=
  mkCpu (mkGprs 0 0 0 0 0 0 0 0 0 0 0 0 0 0 0 0) false 2 0 0 0 (λ _, 0x20) (λ _, 0) boot_mem.

Lemma boot_encrypted_witness : ∃ c2 c1 cp,
  run 700 (boot_env (λ c, Return c) (λ c, Diverged)) asm_code32 boot_cpu 0 = Return (by_far, c1) ∧
  run (fuel64 0) (boot_env (λ c, Return c) (λ c, Diverged)) (asm_code64 0x10000 0x11000 0x12000 0x13000 0xFFFFF800) c1 0 =
    Return (by_jmp (0xFFFFF800 + SHIM_VIRT_OFFSET), c2) ∧
  sysreg c2 CR3 = 0x10000 + 2 ^ 51 ∧ read_usize (cmem c2) (0x13000 + 8 * 7) = 2 ^ 51 ∧ gpr cp RDI = 2 ^ 51.
Proof.
  pose proof (boot_encrypted (λ c, Return c) (λ c, Diverged) 0x10000 0x11000 0x12000 0x13000 0xFFFFF800 0x20000 0x1000 0x30000 boot_cpu) as Hb.
  assert (Hf : list_find is_encryption (boot_functions (cmem boot_cpu)) = Some (0%nat, boot_entry boot_mem 0)) by (vm_compute; reflexivity).
  rewrite Hf in Hb. destruct Hb as (c1 & c2 & cp & E1 & _ & E2 & H3 & [_ _ _ _ Ht] & _ & Hd & _).
  - split; [repeat constructor; lia|unfold SHIM_VIRT_OFFSET; lia].
  - split; unfold apart; lia.
  - repeat constructor; unfold low_tables, _ENARX_PML3; lia.
  - split; [lia|done|by unfold is_word|]. intros c _ _ _. exists c. split; [done|]. by apply Forall_true.
  - apply write_bytes_wf; [intros x; lia|]. unfold bytes_wf. rewrite !Forall_app. split_and!; apply to_le_bytes_wf.
  - by vm_compute.
  - cbn. lia.
  - cbn. lia.
  - by unfold is_word.
  - exists c2, c1, cp. split; [exact E1|]. split; [exact E2|]. split; [rewrite H3; by vm_compute|]. split; [|rewrite Hd; by vm_compute].
    rewrite (Ht 7) by lia. by vm_compute.
Defined.
