(* ===== verification/KvmPaging.v ===== *)
(** * The page tables of the KVM shim

    [crates/shim-kvm/src/pagetables.rs] and [paging.rs]: the tables the shim starts
    with, splitting large pages and clearing the encryption bit of a range.  The
    tables are words in memory; how the processor reads them is [node] and [lookup].
    The functions of the [x86_64] crate on entries and its [translate] are parameters
    ([EntryOps]) with their documented behaviour ([EntryLaws]).

    The shim sees physical memory at [SHIM_VIRT_OFFSET]. *)

From S2P Require Import Prelude Memory Libc PhaseAlloc StagedValues Items Calls CallLaws StageKit.
From S2P Require Import SockTypes Syscalls Stubs SyscallLaws NumberCalls Platform Handler HandlerCalls.
From S2P Require Import KvmMachine Ghcb KvmHostcall KvmAlloc.

(** ** How the processor translates an address

    Tables have four levels; the root is at depth 0.  An entry is present (bit 0),
    and it is a page if it is large (bit 7, at depths 1 and 2) or at depth 3. *)

Definition ADDR_MASK : Z := Z.shiftl (Z.ones 40) 12.
Definition FLAGS_MASK : Z := Z.lxor usize_MAX ADDR_MASK.
Definition is_present (e : Z) : bool := Z.testbit e 0.
Definition is_huge (e : Z) : bool := Z.testbit e 7.

(** What an entry at a depth covers. *)
Definition depth_size (n : nat) : Z := 2 ^ (39 - 9 * Z.of_nat n).
Definition index (n : nat) (va : Z) : Z := va / depth_size n mod 512.

Definition entry (m : mem) (table i : Z) : Z := read_usize m (table + 8 * i).

Definition links (e : Z) : bool := is_present e && negb (is_huge e).
Definition is_page (n : nat) (e : Z) : bool :=
  is_present e && match n with 1%nat | 2%nat => is_huge e | 3%nat => true | _ => false end.

(** What an address is translated to: the address, the flags of the page, and the
    rights along the path: writable and accessible to users if all entries are, not
    executable if one is not. *)
Record Translation : Type := mkTranslation { tr_addr : Z; tr_flags : Z; tr_all : Z; tr_any : Z }.

Definition no_huge (flags : Z) : Z := Z.ldiff flags HUGE_PAGE.

Definition page_translation (n : nat) (va e : Z) (path : list Z) : Translation :=
  mkTranslation
    (align_down (Z.land e ADDR_MASK) (depth_size n) + va mod depth_size n)
    (no_huge (Z.land e FLAGS_MASK))
    (Z.land (foldr Z.land (-1) (path ++ [e])) (Z.lor WRITABLE USER_ACCESSIBLE))
    (Z.land (foldr Z.lor 0 (path ++ [e])) NO_EXECUTE).

Section walk.
(** The encryption bit, which is not part of the place of a table, and where physical
    memory is. *)
Variables cbit base : Z.

Definition table_of (e : Z) : Z := Z.ldiff (Z.land e ADDR_MASK) cbit + base.

(** The table at depth [n] that is used for [va], and the entries that lead to it. *)
Fixpoint node (m : mem) (root : Z) (n : nat) (va : Z) : option (Z * list Z) :=
  match n with
  | O => Some (root, [])
  | S n =>
      '(table, path) ← node m root n va;
      let e := entry m table (index n va) in
      if links e then Some (table_of e, path ++ [e]) else None
  end.

(** The page at depth [n], if there is one. *)
Definition page (m : mem) (root : Z) (n : nat) (va : Z) : option (Z * list Z) :=
  '(table, path) ← node m root n va;
  let e := entry m table (index n va) in
  if is_page n e then Some (e, path) else None.

Definition lookup_page (m : mem) (root va : Z) : option (nat * (Z * list Z)) :=
  match page m root 1 va with
  | Some l => Some (1%nat, l)
  | None => match page m root 2 va with
            | Some l => Some (2%nat, l)
            | None => (λ l, (3%nat, l)) <$> page m root 3 va
            end
  end.

Definition translation (m : mem) (root va : Z) : option Translation :=
  (λ '(n, (e, path)), page_translation n va e path) <$> lookup_page m root va.
Definition page_depth (m : mem) (root va : Z) : option nat := fst <$> lookup_page m root va.

End walk.

(** ** The [x86_64] crate *)

Inductive FrameError : Type := FrameNotPresent | HugeFrame.
Inductive MappedFrame : Type := Frame4KiB (frame : Z) | Frame2MiB (frame : Z) | Frame1GiB (frame : Z).
Inductive TranslateResult : Type :=
| TR_Mapped (frame : MappedFrame) (offset flags : Z) | TR_NotMapped | TR_InvalidFrameAddress (addr : Z).

(** [PageTableEntry::{addr, flags, frame, set_addr}] and [MappedPageTable::translate],
    which gets the mapping of frames, the memory and the place of the root. *)
Class EntryOps := {
  entry_addr : Z → Z;
  entry_flags : Z → Z;
  entry_frame : Z → Z + FrameError;
  entry_set_addr : Z → Z → outcome Z;
  translate : (Z → outcome Z) → mem → Z → Z → outcome TranslateResult;
}.

(** [Page::p4_index] and so on *)
Definition p4_index (page : Z) : Z := Z.land (Z.shiftr page 39) 511.
Definition p3_index (page : Z) : Z := Z.land (Z.shiftr page 30) 511.
Definition p2_index (page : Z) : Z := Z.land (Z.shiftr page 21) 511.
Definition p1_index (page : Z) : Z := Z.land (Z.shiftr page 12) 511.

(** [PhysAddr + u64] *)
Definition phys_add (a n : Z) : outcome Z := PhysAddr_new (as_u64 (a + n)).

Definition u64_not (a : Z) : Z := Z.lxor usize_MAX a.

(** ** The tables of the image *)

Definition BYTES_2_MIB : Z := 2 * 2 ^ 20.
Definition BYTES_1_GIB : Z := 2 ^ 30.
Definition HUGE_PAGE_TABLE_FLAGS : Z := Z.lor HUGE_PAGE (Z.lor WRITABLE PRESENT).

Definition gen_2mb_pdt_entries (i offset : Z) : Z :=
  let base := HUGE_PAGE_TABLE_FLAGS + offset in base + i * BYTES_2_MIB.
Definition gen_2mb_pdt_entries_c000_0000 (i : Z) : Z := gen_2mb_pdt_entries i 0xc0000000.
Definition gen_1gb_pdpt_entries (i : Z) : Z := HUGE_PAGE_TABLE_FLAGS + i * BYTES_1_GIB.
Definition gen_4k_pt_entries (i offset : Z) : Z :=
  let base := Z.lor WRITABLE PRESENT + offset in base + i * Size4KiB.
Definition gen_4k_pt_entries_ffe0_0000 (i : Z) : Z := gen_4k_pt_entries i 0xffe00000.

(** [PML4T], [PDPT], [PDT_C000_0000] and [PT_FFE0_0000] *)
Definition PML4T_init : list Z := repeat 0 512.
Definition PDPT_init : list Z := gen_1gb_pdpt_entries <$> seqZ 0 512.
Definition PDT_C000_0000_init : list Z := gen_2mb_pdt_entries_c000_0000 <$> seqZ 0 512.
Definition PT_FFE0_0000_init : list Z := gen_4k_pt_entries_ffe0_0000 <$> seqZ 0 512.

(** [Error] *)
Inductive Error : Type := NotMapped | InvalidFrameAddress (addr : Z) | NotAligned.

Section paging.
Context {L P E : Type} `{Machine E, Image, HeapOps L, EntryOps}.
Abbreviation S_ := (kvm L P E).

(** ** [paging.rs] *)

(** [EncPhysOffset::frame_to_pointer] *)
Definition frame_to_pointer (frame : Z) : outcome Z :=
  if Z.land frame get_cbit_mask =? get_cbit_mask
  then virt_add SHIM_VIRT_OFFSET (Z.land frame (u64_not get_cbit_mask))
  else Panicked.

(** The frame that [Cr3] holds when [SHIM_PAGETABLE] is first used *)
Variable cr3 : Z.

(** [SHIM_PAGETABLE]: its level 4 table *)
Definition SHIM_PAGETABLE : outcome Z := frame_to_pointer cr3.

(** ** [pagetables.rs]

    [flush] and [flush_all] drop cached translations, of which there are none here. *)

Definition unmap_identity : handlerM S_ unit :=
  level_4_table ← must SHIM_PAGETABLE;
  writes (level_4_table + 8 * 0) (to_le_bytes 8 0).

Definition shim_translate (addr : Z) : handlerM S_ TranslateResult :=
  level_4_table ← must SHIM_PAGETABLE;
  trans ← reads (λ m, translate frame_to_pointer m level_4_table addr);
  must trans.

(** [let frame = table[i].frame().unwrap(); &mut *enc_phys_offset.frame_to_pointer(frame)] *)
Definition descend (table i : Z) : handlerM S_ Z :=
  e ← reads (λ m, entry m table i);
  match entry_frame e with inl frame => must (frame_to_pointer frame) | inr _ => panic end.

(** [table[i].set_addr(addr, flags)] *)
Definition set_addr (table i addr flags : Z) : handlerM S_ unit :=
  e ← must (entry_set_addr addr flags);
  writes (table + 8 * i) (to_le_bytes 8 e).

(** [table.iter_mut().enumerate().for_each(|(i, e)| e.set_addr(old_addr + i * step, flags))],
    from the [i]-th entry on *)
Fixpoint fill_table (n : nat) (i table old_addr step flags : Z) : handlerM S_ unit :=
  match n with
  | O => mret ()
  | S n =>
      offset ← unwrap_option (checked_mul i step);
      addr ← must (phys_add old_addr offset);
      _ ← set_addr table i addr flags;
      fill_table n (i + 1) table old_addr step flags
  end.

(** [PhysAddr::new((VirtAddr::from_ptr(table) - SHIM_VIRT_OFFSET).as_u64())] *)
Definition table_pa (table : Z) : handlerM S_ Z :=
  v ← must (VirtAddr_new table);
  pa ← must (virt_sub v SHIM_VIRT_OFFSET);
  must (PhysAddr_new pa).

Definition alloc_table : handlerM S_ Z :=
  p ← try_alloc_layout (mkLayout 4096 Size4KiB);
  unwrap_option p.

Definition smash (addr : Z) : handlerM S_ (unit + Error) :=
  trans ← shim_translate addr;
  match trans with
  | TR_Mapped (Frame4KiB _) _ _ => mret (inl ())
  | TR_Mapped (Frame2MiB _) _ _ =>
      let page := align_down addr Size2MiB in
      new_pagetable ← alloc_table;
      page_table ← must SHIM_PAGETABLE;
      page_table ← descend page_table (p4_index page);
      page_table ← descend page_table (p3_index page);
      let index := p2_index page in
      old ← reads (λ m, entry m page_table index);
      let old_addr := entry_addr old in
      let old_flags := Z.land (entry_flags old) (u64_not HUGE_PAGE) in
      _ ← fill_table 512 0 new_pagetable old_addr Size4KiB old_flags;
      new_pagetable_pa ← table_pa new_pagetable;
      addr ← must (PhysAddr_new (Z.lor new_pagetable_pa (Z.land old_addr get_cbit_mask)));
      _ ← set_addr page_table index addr old_flags;
      mret (inl ())
  | TR_Mapped (Frame1GiB _) _ _ =>
      let page := align_down addr Size1GiB in
      new_pagetable ← alloc_table;
      page_table ← must SHIM_PAGETABLE;
      page_table ← descend page_table (p4_index page);
      let index := p3_index page in
      old ← reads (λ m, entry m page_table index);
      let old_addr := entry_addr old in
      let old_flags := entry_flags old in
      _ ← fill_table 512 0 new_pagetable old_addr Size2MiB old_flags;
      new_pagetable_pa ← table_pa new_pagetable;
      addr ← must (PhysAddr_new (Z.lor new_pagetable_pa (Z.land old_addr get_cbit_mask)));
      _ ← set_addr page_table index addr (Z.land old_flags (u64_not HUGE_PAGE));
      mret (inl ())
  | TR_NotMapped => mret (inr NotMapped)
  | TR_InvalidFrameAddress addr => mret (inr (InvalidFrameAddress addr))
  end.

(** The encryption bit of one entry is cleared. *)
Definition clear_entry (table i : Z) : handlerM S_ unit :=
  old ← reads (λ m, entry m table i);
  addr ← must (PhysAddr_new (Z.land (entry_addr old) (u64_not get_cbit_mask)));
  set_addr table i addr (entry_flags old).

(** One iteration, for a page of each size, ends with the size of the page. *)
Definition clear_4k (current : Z) : handlerM S_ unit :=
  let page := align_down current Size4KiB in
  page_table ← must SHIM_PAGETABLE;
  page_table ← descend page_table (p4_index page);
  page_table ← descend page_table (p3_index page);
  page_table ← descend page_table (p2_index page);
  clear_entry page_table (p1_index page).

Definition clear_2m (current : Z) : handlerM S_ unit :=
  let page := align_down current Size2MiB in
  page_table ← must SHIM_PAGETABLE;
  page_table ← descend page_table (p4_index page);
  page_table ← descend page_table (p3_index page);
  clear_entry page_table (p2_index page).

Definition clear_1g (current : Z) : handlerM S_ unit :=
  let page := align_down current Size1GiB in
  page_table ← must SHIM_PAGETABLE;
  page_table ← descend page_table (p4_index page);
  clear_entry page_table (p3_index page).

(** Going on after [smash] is a call of the function itself; both the loop and that
    call are the recursion here. *)
Fixpoint clear_c_bit_address_range (fuel : nat) (current end_ : Z) : handlerM S_ (unit + Error) :=
  match fuel with
  | O => λ _, Diverged
  | S fuel =>
      if end_ <=? current then mret (inl ())
      else
        let go_on (size : Z) : handlerM S_ (unit + Error) :=
          current ← must (virt_add current size);
          clear_c_bit_address_range fuel current end_ in
        let split : handlerM S_ (unit + Error) :=
          r ← smash current;
          match r with
          | inl _ => clear_c_bit_address_range fuel current end_
          | inr e => mret (inr e)
          end in
        trans ← shim_translate current;
        match trans with
        | TR_Mapped (Frame4KiB _) offset _ =>
            if negb (offset =? 0) then mret (inr NotAligned)
            else
              next ← must (virt_add current Size4KiB);
              if end_ <? next then mret (inr NotAligned)
              else _ ← clear_4k current; go_on Size4KiB
        | TR_Mapped (Frame2MiB _) offset _ =>
            next ← (if offset =? 0 then must (virt_add current Size2MiB) else mret current);
            if negb (offset =? 0) || (end_ <? next) then split
            else _ ← clear_2m current; go_on Size2MiB
        | TR_Mapped (Frame1GiB _) offset _ =>
            next ← (if offset =? 0 then must (virt_add current Size1GiB) else mret current);
            if negb (offset =? 0) || (end_ <? next) then split
            else _ ← clear_1g current; go_on Size1GiB
        | TR_NotMapped => go_on Size4KiB
        | TR_InvalidFrameAddress addr => mret (inr (InvalidFrameAddress addr))
        end
  end.

End paging.
