(* ===== verification/KvmPagingLaws.v ===== *)
(** * Page tables: laws

    Well-formed tables ([tables_wf]) and what replacing a large page by a table of
    smaller ones does to the translation of addresses: nothing. *)

From S2P Require Import Prelude Memory Libc PhaseAlloc StagedValues Items Calls CallLaws StageKit.
From S2P Require Import SockTypes Syscalls Stubs SyscallLaws NumberCalls Platform Handler HandlerCalls.
From S2P Require Import KvmMachine Ghcb KvmHostcall KvmAlloc KvmPaging.

(** ** Addresses *)

Lemma virt_add_high a n : 2 ^ 64 - 2 ^ 47 ≤ a → 0 ≤ n → a + n < 2 ^ 64 → virt_add a n = Return (a + n).
Proof.
  intros Ha Hn Hs. unfold virt_add, VirtAddr_new, as_u64. rewrite Z.mod_small by lia.
  rewrite (proj2 (Z.leb_le (2 ^ 64 - 2 ^ 47) _)) by lia. by rewrite orb_true_r.
Qed.

Lemma virt_sub_shim a : SHIM_VIRT_OFFSET ≤ a < 2 ^ 64 → virt_sub a SHIM_VIRT_OFFSET = Return (a - SHIM_VIRT_OFFSET).
Proof.
  intros Ha. unfold virt_sub, VirtAddr_new. rewrite (proj2 (Z.leb_le SHIM_VIRT_OFFSET a)) by lia.
  by rewrite (proj2 (Z.ltb_lt (a - SHIM_VIRT_OFFSET) (2 ^ 47))) by (unfold SHIM_VIRT_OFFSET in *; lia).
Qed.

Lemma VirtAddr_new_high a : 2 ^ 64 - 2 ^ 47 ≤ a → VirtAddr_new a = Return a.
Proof. intros Ha. unfold VirtAddr_new. rewrite (proj2 (Z.leb_le (2 ^ 64 - 2 ^ 47) _)) by lia. by rewrite orb_true_r. Qed.

Lemma PhysAddr_new_ok a : a < 2 ^ 52 → PhysAddr_new a = Return a.
Proof. intros Ha. unfold PhysAddr_new. by rewrite (proj2 (Z.ltb_lt _ _) Ha). Qed.

Lemma must_run {S A : Type} (o : outcome A) (x : A) (w : S) : o = Return x → must o w = Return (Ok x, w).
Proof. by intros ->. Qed.

Lemma must_bind {S A B : Type} (o : outcome A) (x : A) (f : A → fal (world S) B) (w : world S) :
  o = Return x → @mbind (fal (world S)) handlerM_bind A B f (must o) w = f x w.
Proof. by intros ->. Qed.

Lemma must_bind_handler {S A B : Type} (o : outcome A) (x : A) (f : A → handlerM S B) (w : world S) :
  o = Return x → @mbind (handlerM S) handlerM_bind A B f (must o) w = f x w.
Proof. by intros ->. Qed.

(** A pure step that returns *)
Ltac run_must H := first [rewrite (must_bind _ _ _ _ H) | rewrite (must_bind_handler _ _ _ _ H)].

(** ** Entries *)

Lemma addr_field e : Z.land e ADDR_MASK = e / 4096 mod 2 ^ 40 * 4096.
Proof.
  change 4096 with (2 ^ 12). rewrite <- Z.shiftr_div_pow2, <- Z.shiftl_mul_pow2, <- Z.land_ones by lia.
  unfold ADDR_MASK. apply Z.bits_inj'. intros i Hi.
  rewrite Z.land_spec, !Z.shiftl_spec, Z.land_spec by done.
  destruct (decide (i < 12)).
  - by rewrite !(Z.testbit_neg_r _ (i - 12)), andb_false_r by lia.
  - rewrite Z.shiftr_spec by lia. by rewrite Z.sub_add.
Qed.

Lemma addr_field_small a : 0 ≤ a < 2 ^ 52 → a mod 4096 = 0 → Z.land a ADDR_MASK = a.
Proof. intros H Ha. rewrite addr_field. dlia. Qed.

Lemma addr_field_range e : 0 ≤ Z.land e ADDR_MASK < 2 ^ 52 ∧ Z.land e ADDR_MASK mod 4096 = 0.
Proof. rewrite addr_field. dlia. Qed.

(** An entry is made of an address and flags. *)
Lemma entry_split e : is_usize e → Z.lor (Z.land e ADDR_MASK) (Z.land e FLAGS_MASK) = e.
Proof.
  intros H. rewrite <- Z.land_lor_distr_r. change (Z.lor ADDR_MASK FLAGS_MASK) with (Z.ones 64).
  rewrite Z.land_ones by lia. apply Z.mod_small. unfold is_usize, usize_MAX in H. lia.
Qed.

Definition is_addr (a : Z) : Prop := 0 ≤ a < 2 ^ 52 ∧ a mod 4096 = 0.
Definition is_flags (f : Z) : Prop := Z.land f FLAGS_MASK = f.

Lemma addr_of_lor a f : is_addr a → is_flags f → Z.land (Z.lor a f) ADDR_MASK = a.
Proof.
  intros [Ha Hm] <-. rewrite Z.land_lor_distr_l, <- Z.land_assoc. change (Z.land FLAGS_MASK ADDR_MASK) with 0.
  rewrite Z.land_0_r, Z.lor_0_r. by apply addr_field_small.
Qed.

Lemma flags_of_lor a f : is_addr a → is_flags f → Z.land (Z.lor a f) FLAGS_MASK = f.
Proof.
  intros [Ha Hm] Hf. rewrite Z.land_lor_distr_l, Hf. rewrite <- (addr_field_small a Ha Hm), <- Z.land_assoc.
  change (Z.land ADDR_MASK FLAGS_MASK) with 0. by rewrite Z.land_0_r, Z.lor_0_l.
Qed.

(** A bit that is not of the address is of the flags. *)
Lemma flag_of_lor a f i : is_addr a → 0 ≤ i → Z.testbit ADDR_MASK i = false → Z.testbit (Z.lor a f) i = Z.testbit f i.
Proof.
  intros [Ha Hm] Hi Hb. rewrite Z.lor_spec, <- (addr_field_small a Ha Hm), Z.land_spec, Hb. by rewrite andb_false_r.
Qed.

Lemma lor_usize a f : is_addr a → is_flags f → is_usize (Z.lor a f).
Proof.
  intros [Ha Hm] <-. unfold is_usize, usize_MAX. rewrite <- (addr_field_small a Ha Hm).
  set (x := Z.lor _ _). assert (x = x mod 2 ^ 64) as ->; [|dlia].
  rewrite <- Z.land_ones by lia. unfold x. rewrite Z.land_lor_distr_l, <- !Z.land_assoc. done.
Qed.

Lemma flags_is_flags e : is_flags (Z.land e FLAGS_MASK).
Proof. unfold is_flags. by rewrite <- Z.land_assoc, Z.land_diag. Qed.

Lemma no_huge_flags f : is_flags f → is_flags (Z.land f (u64_not HUGE_PAGE)) ∧ Z.land f (u64_not HUGE_PAGE) = no_huge f.
Proof.
  unfold is_flags. intros Hf. split.
  - rewrite <- Hf at 2. by rewrite <- !Z.land_assoc, (Z.land_comm _ FLAGS_MASK).
  - unfold no_huge. rewrite <- Hf. apply Z.bits_inj'. intros i Hi. unfold u64_not.
    rewrite Z.ldiff_spec, !Z.land_spec, Z.lxor_spec.
    destruct (decide (i < 64)).
    + change usize_MAX with (Z.ones 64). rewrite Z.ones_spec_low by lia. by destruct (Z.testbit f i), (Z.testbit FLAGS_MASK i).
    + assert (Z.testbit FLAGS_MASK i = false) as ->; [|by rewrite andb_false_r].
      apply Z.bits_above_log2; [by vm_compute|]. change (Z.log2 FLAGS_MASK) with 63. lia.
Qed.

(** ** Indices *)

(** What an address has in common with those that reach the same table at a depth. *)
Definition prefix (n : nat) (va : Z) : Z := va mod 2 ^ 48 / 2 ^ (48 - 9 * Z.of_nat n).

Ltac depths n := destruct n as [|[|[|[|n]]]]; [..|lia].
Ltac sizes := repeat match goal with |- context [depth_size ?n] =>
  let v := eval vm_compute in (depth_size n) in change (depth_size n) with v end.

Lemma index_range n va : 0 ≤ index n va < 512.
Proof. unfold index. apply Z.mod_pos_bound. lia. Qed.

Lemma prefix_S n va : (n ≤ 3)%nat → prefix (S n) va = prefix n va * 512 + index n va.
Proof.
  intros Hn. unfold prefix, index. depths n; sizes.
  all: cbn -[Z.pow Z.div Z.modulo]; repeat match goal with |- context [2 ^ ?x] =>
    let v := eval vm_compute in (2 ^ x) in change (2 ^ x) with v end; dlia.
Qed.

(** The part of an address below an entry is an index and a part below that. *)
Lemma offset_S n va : (n ≤ 2)%nat →
  va mod depth_size n = index (S n) va * depth_size (S n) + va mod depth_size (S n).
Proof. intros Hn. unfold index. destruct n as [|[|[|n]]]; [..|lia]; sizes; dlia. Qed.

(** Two addresses that are the same above a depth and in the index below. *)
Lemma prefix_inj n va va' : (n ≤ 3)%nat → prefix n va = prefix n va' → index n va = index n va' →
  prefix (S n) va = prefix (S n) va'.
Proof. intros Hn Hp Hi. by rewrite !prefix_S, Hp, Hi. Qed.

(** ** Tables *)

Section tables.
Variables cbit base : Z.

Abbreviation node := (node cbit base).
Abbreviation page := (page cbit base).
Abbreviation lookup_page := (lookup_page cbit base).
Abbreviation translation := (translation cbit base).
Abbreviation page_depth := (page_depth cbit base).

(** An entry is empty; or a page, aligned to its size; or it leads to a table in the
    memory of the shim, and has the encryption bit. *)
Definition entry_ok (n : nat) (e : Z) : Prop :=
  e = 0 ∨ is_present e = true ∧
    if is_page n e then Z.land e ADDR_MASK mod depth_size n = 0
    else is_huge e = false ∧ Z.land e cbit = cbit ∧ Z.ldiff (Z.land e ADDR_MASK) cbit + 4096 ≤ 2 ^ 39.

(** The tables are a tree. *)
Record tables_wf (m : mem) (root : Z) : Prop := {
  tw_mem : mem_wf m;
  tw_root : base ≤ root ≤ base + 2 ^ 39 - 4096 ∧ root mod 4096 = 0;
  tw_entry : ∀ n va t p, (n ≤ 3)%nat → node m root n va = Some (t, p) → entry_ok n (entry m t (index n va));
  tw_tree : ∀ n n' va va' t p p', (n ≤ 3)%nat → (n' ≤ 3)%nat →
    node m root n va = Some (t, p) → node m root n' va' = Some (t, p') → n = n' ∧ prefix n va = prefix n va';
}.

Lemma node_S m root n va t p : node m root n va = Some (t, p) →
  node m root (S n) va = (if links (entry m t (index n va)) then Some (table_of cbit base (entry m t (index n va)), p ++ [entry m t (index n va)]) else None).
Proof. intros Hn. cbn [KvmPaging.node]. by rewrite Hn. Qed.

Lemma node_S_inv m root n va t' p' : node m root (S n) va = Some (t', p') →
  ∃ t p, node m root n va = Some (t, p) ∧ links (entry m t (index n va)) = true ∧
    t' = table_of cbit base (entry m t (index n va)) ∧ p' = p ++ [entry m t (index n va)].
Proof.
  cbn [KvmPaging.node]. destruct (node m root n va) as [[t p]|]; [|done]. cbn. intros Hl.
  destruct (links _) eqn:E; [|done]. inv Hl. by exists t, p.
Qed.

(** Only the entries on the way matter. *)
Lemma node_ext m m' root n va :
  (∀ k t p, (k < n)%nat → node m root k va = Some (t, p) → entry m' t (index k va) = entry m t (index k va)) →
  node m' root n va = node m root n va.
Proof.
  induction n as [|n IH]; intros He; [done|]. cbn [KvmPaging.node].
  rewrite IH by (intros k t p Hk; apply He; lia).
  destruct (node m root n va) as [[t p]|] eqn:En; [|done]. cbn. by rewrite (He n t p) by (done || lia).
Qed.

Lemma page_ext m m' root n va :
  (∀ k t p, (k ≤ n)%nat → node m root k va = Some (t, p) → entry m' t (index k va) = entry m t (index k va)) →
  page m' root n va = page m root n va.
Proof.
  intros He. unfold KvmPaging.page. rewrite (node_ext m m') by (intros k t p Hk; apply He; lia).
  destruct (node m root n va) as [[t p]|] eqn:En; [|done]. cbn. by rewrite (He n t p) by (done || lia).
Qed.

Lemma page_inv m root n va e p : page m root n va = Some (e, p) →
  ∃ t, node m root n va = Some (t, p) ∧ e = entry m t (index n va) ∧ is_page n e = true.
Proof.
  unfold KvmPaging.page. destruct (node m root n va) as [[t q]|]; [|done]. cbn.
  destruct (is_page _ _) eqn:E; [|done]. intros [= <- <-]. by exists t.
Qed.

Lemma page_links n e : (1 ≤ n ≤ 2)%nat → links e = true → is_page n e = false.
Proof.
  unfold links, is_page. intros Hn Hl. apply andb_true_iff in Hl as [-> Hh]. apply negb_true_iff in Hh.
  by destruct n as [|[|[|n]]]; [lia|rewrite Hh..|lia].
Qed.

(** There is one page at most. *)
Lemma page_above m root n k va x : (1 ≤ k < n)%nat → (n ≤ 3)%nat → node m root n va = Some x → page m root k va = None.
Proof.
  intros Hk Hn Hx. assert (∃ y, node m root (S k) va = Some y) as [[t' p'] Hy].
  { destruct Hk as [_ Hk]. clear -Hk Hx. unfold lt in Hk. remember (S k) as j eqn:Ej. clear Ej.
    revert x Hx. induction Hk as [|n Hk IH]; intros x Hx; [by exists x|].
    destruct x as [t p]. apply node_S_inv in Hx as (t1 & p1 & H1 & _). by eapply IH. }
  apply node_S_inv in Hy as (t & p & Ht & Hl & _). unfold KvmPaging.page. rewrite Ht. cbn.
  by rewrite page_links by (done || lia).
Qed.

Lemma page_lookup m root n va l : (1 ≤ n ≤ 3)%nat → page m root n va = Some l → lookup_page m root va = Some (n, l).
Proof.
  intros Hn Hl. destruct l as [e p]. pose proof (page_inv _ _ _ _ _ _ Hl) as (t & Ht & _).
  unfold KvmPaging.lookup_page. destruct n as [|[|[|[|n]]]]; [lia|by rewrite Hl| |  |lia].
  - by rewrite (page_above m root 2 1 va _ ltac:(lia) ltac:(lia) Ht), Hl.
  - rewrite (page_above m root 3 1 va _ ltac:(lia) ltac:(lia) Ht), (page_above m root 3 2 va _ ltac:(lia) ltac:(lia) Ht). by rewrite Hl.
Qed.

Lemma lookup_page_inv m root n va l : lookup_page m root va = Some (n, l) → (1 ≤ n ≤ 3)%nat ∧ page m root n va = Some l.
Proof.
  unfold KvmPaging.lookup_page. destruct (page m root 1 va) eqn:E1; [intros [= <- <-]; split; [lia|done]|].
  destruct (page m root 2 va) eqn:E2; [intros [= <- <-]; split; [lia|done]|].
  destruct (page m root 3 va) eqn:E3; [|done]. intros [= <- <-]. split; [lia|done].
Qed.

Lemma lookup_page_ext m m' root va : (∀ n, (n ≤ 3)%nat → page m' root n va = page m root n va) →
  lookup_page m' root va = lookup_page m root va.
Proof. intros He. unfold KvmPaging.lookup_page. by rewrite !He by lia. Qed.

Lemma prefix_S_inv n va va' : (n ≤ 3)%nat → prefix (S n) va = prefix (S n) va' →
  prefix n va = prefix n va' ∧ index n va = index n va'.
Proof. intros Hn. rewrite !prefix_S by done. pose proof (index_range n va). pose proof (index_range n va'). lia. Qed.

(** The table depends on the prefix. *)
Lemma node_prefix m root n va va' : (n ≤ 4)%nat → prefix n va = prefix n va' → node m root n va = node m root n va'.
Proof.
  induction n as [|n IH]; intros Hn Hp; [done|]. apply prefix_S_inv in Hp as [Hp Hi]; [|lia].
  cbn [KvmPaging.node]. by rewrite IH, Hi by (done || lia).
Qed.

(** ** The entry of a page is replaced *)

Section change.
Variables (m m' : mem) (root : Z) (n : nat) (va0 t0 : Z) (p0 : list Z).
Let e0 := entry m t0 (index n va0).

Record change : Prop := {
  ch_depth : (1 ≤ n ≤ 3)%nat;
  ch_node : node m root n va0 = Some (t0, p0);
  ch_page : is_page n e0 = true;
  ch_mem : mem_wf m';
  ch_same : ∀ k va t p, (k ≤ 3)%nat → node m root k va = Some (t, p) →
    ¬ (t = t0 ∧ index k va = index n va0) → entry m' t (index k va) = entry m t (index k va);
}.

Hypothesis Hwf : tables_wf m root.
Hypothesis Hs : change.

(** The addresses of the page *)
Definition through (va : Z) : Prop := prefix (S n) va = prefix (S n) va0.

Lemma through_node va : through va → node m root n va = Some (t0, p0) ∧ index n va = index n va0.
Proof.
  intros Ht. pose proof (ch_depth Hs). apply prefix_S_inv in Ht as [Hp Hi]; [|lia]. split; [|done].
  rewrite (node_prefix m root n va va0) by (done || lia). apply Hs.
Qed.

Lemma through_page va : through va → page m root n va = Some (e0, p0).
Proof.
  intros Hv. apply through_node in Hv as [Ht Hi]. unfold KvmPaging.page. rewrite Ht. cbn. rewrite Hi. fold e0.
  by rewrite (ch_page Hs).
Qed.

Lemma not_through va k t p : ¬ through va → (k ≤ 3)%nat → node m root k va = Some (t, p) →
  ¬ (t = t0 ∧ index k va = index n va0).
Proof.
  intros Hv Hk Ht [-> Hi]. pose proof (ch_depth Hs).
  destruct (tw_tree _ _ Hwf k n va va0 t0 p p0 Hk ltac:(lia) Ht (ch_node Hs)) as [-> Hp].
  apply Hv. unfold through. apply prefix_inj; [lia|done..].
Qed.

Lemma change_upper va k : (k ≤ n)%nat → node m' root k va = node m root k va.
Proof.
  intros Hk. pose proof (ch_depth Hs). apply node_ext. intros j t p Hj Ht. apply (ch_same Hs j va t p); [lia|done|].
  intros [-> _]. destruct (tw_tree _ _ Hwf j n va va0 t0 p p0 ltac:(lia) ltac:(lia) Ht (ch_node Hs)). lia.
Qed.

Lemma change_other va k : ¬ through va → (k ≤ 3)%nat →
  node m' root k va = node m root k va ∧ page m' root k va = page m root k va.
Proof.
  intros Hv Hk. split; [apply node_ext|apply page_ext].
  all: intros j t p Hj Ht; apply (ch_same Hs j va t p); [lia|done|]; apply (not_through va j t p Hv); [lia|done].
Qed.

Lemma change_translation_other va : ¬ through va → translation m' root va = translation m root va.
Proof.
  intros Hv. unfold KvmPaging.translation. by rewrite (lookup_page_ext m m' root va) by (intros k Hk; by apply change_other).
Qed.

End change.

(** ** A page becomes a table *)

Section split.
Variables (m m' : mem) (root : Z) (n : nat) (va0 t0 : Z) (p0 : list Z) (P e' : Z) (es : Z → Z).
Let e0 := entry m t0 (index n va0).
Abbreviation through := (through n va0).

Record split : Prop := {
  sp_depth : (n ≤ 2)%nat;
  sp_link : entry m' t0 (index n va0) = e';
  sp_fill : ∀ i, 0 ≤ i < 512 → entry m' P i = es i;
  sp_fresh : ∀ k va p, (k ≤ 3)%nat → node m root k va ≠ Some (P, p);
  sp_links : links e' = true ∧ table_of cbit base e' = P ∧ entry_ok n e';
  sp_pages : ∀ i, 0 ≤ i < 512 → is_page (S n) (es i) = true ∧ entry_ok (S n) (es i);
}.

Hypothesis Hwf : tables_wf m root.
Hypothesis Hc : change m m' root n va0 t0 p0.
Hypothesis Hs : split.

Lemma split_through va : through va → page m root n va = Some (e0, p0) ∧ node m' root (S n) va = Some (P, p0 ++ [e']) ∧
  page m' root (S n) va = Some (es (index (S n) va), p0 ++ [e']).
Proof.
  intros Hv. pose proof (through_page m m' root n va0 t0 p0 Hc va Hv) as Hp.
  apply (through_node m m' root n va0 t0 p0 Hc) in Hv as [Ht Hi]. pose proof (sp_depth Hs) as Hn. pose proof (ch_depth _ _ _ _ _ _ _ Hc) as Hn1.
  assert (node m' root (S n) va = Some (P, p0 ++ [e'])) as HS.
  { assert (node m' root n va = Some (t0, p0)) as Ht' by (rewrite (change_upper m m' root n va0 t0 p0 Hwf Hc) by lia; exact Ht).
    rewrite (node_S _ _ _ _ _ _ Ht'), Hi, (sp_link Hs). destruct (sp_links Hs) as (-> & -> & _). done. }
  split; [exact Hp|]. split; [exact HS|]. unfold KvmPaging.page. rewrite HS. cbn. rewrite (sp_fill Hs) by apply index_range. by rewrite (proj1 (sp_pages Hs _ (index_range _ _))).
Qed.

Lemma split_node_inv va k t p : (k ≤ 3)%nat → node m' root k va = Some (t, p) →
  node m root k va = Some (t, p) ∧ (through va → k ≤ n)%nat ∨ k = S n ∧ t = P ∧ through va.
Proof.
  intros Hk Ht. pose proof (sp_depth Hs) as Hn. pose proof (ch_depth _ _ _ _ _ _ _ Hc) as Hn1. destruct (decide (prefix (S n) va = prefix (S n) va0)) as [Hv|Hv].
  2: { left. by rewrite (proj1 (change_other m m' root n va0 t0 p0 Hwf Hc va k Hv Hk)) in Ht. }
  destruct (decide (k ≤ n)%nat) as [Hkn|Hkn]; [left; by rewrite (change_upper m m' root n va0 t0 p0 Hwf Hc) in Ht|].
  destruct (split_through va Hv) as (_ & HS & _). destruct (decide (k = S n)) as [->|Hne].
  { right. rewrite HS in Ht. by inv Ht. }
  assert (k = S (S n)) as -> by lia. rewrite (node_S _ _ _ _ _ _ HS) in Ht.
  rewrite (sp_fill Hs) in Ht by apply index_range. pose proof (proj1 (sp_pages Hs _ (index_range (S n) va))) as Hpg.
  destruct (links _) eqn:El; [|done]. rewrite page_links in Hpg by (done || lia). done.
Qed.

Lemma split_wf : tables_wf m' root.
Proof.
  pose proof (sp_depth Hs) as Hn. pose proof (ch_depth _ _ _ _ _ _ _ Hc) as Hn1. split; [apply Hc|apply Hwf|..].
  - intros k va t p Hk Ht. destruct (split_node_inv va k t p Hk Ht) as [[Hm Hle]|(-> & -> & Hv)].
    + destruct (decide (t = t0 ∧ index k va = index n va0)) as [[-> Hi]|Hne].
      * destruct (tw_tree _ _ Hwf k n va va0 t0 p p0 Hk ltac:(lia) Hm (ch_node _ _ _ _ _ _ _ Hc)) as [-> _].
        rewrite Hi, (sp_link Hs). apply Hs.
      * rewrite (ch_same _ _ _ _ _ _ _ Hc k va t p Hk Hm Hne). by apply (tw_entry _ _ Hwf k va t p).
    + rewrite (sp_fill Hs) by apply index_range. apply Hs, index_range.
  - intros k k' va va' t p p' Hk Hk' Ht Ht'.
    destruct (split_node_inv va k t p Hk Ht) as [[Hm _]|(-> & -> & Hv)], (split_node_inv va' k' _ p' Hk' Ht') as [[Hm' _]|(-> & E & Hv')].
    + by apply (tw_tree _ _ Hwf k k' va va' t p p').
    + subst t. by apply (sp_fresh Hs k va p) in Hm.
    + by apply (sp_fresh Hs k' va' p') in Hm'.
    + split; [done|]. exact (eq_trans Hv (eq_sym Hv')).
Qed.

(** The translation of every address is kept if it is for those of the page. *)
Lemma split_translation va :
  (∀ va, page_translation (S n) va (es (index (S n) va)) (p0 ++ [e']) = page_translation n va e0 p0) →
  translation m' root va = translation m root va.
Proof.
  intros Htr. pose proof (sp_depth Hs) as Hn. pose proof (ch_depth _ _ _ _ _ _ _ Hc) as Hn1. 
  destruct (decide (prefix (S n) va = prefix (S n) va0)) as [Hv|Hv].
  - unfold KvmPaging.translation. destruct (split_through va Hv) as (H1 & _ & H2).
    rewrite (page_lookup _ _ n _ _ ltac:(lia) H1), (page_lookup _ _ (S n) _ _ ltac:(lia) H2). cbn. by rewrite Htr.
  - by apply (change_translation_other m m' root n va0 t0 p0 Hwf Hc).
Qed.

Lemma split_depth va : through va → page_depth m root va = Some n ∧ page_depth m' root va = Some (S n).
Proof.
  intros Hv. pose proof (sp_depth Hs) as Hn. pose proof (ch_depth _ _ _ _ _ _ _ Hc) as Hn1. destruct (split_through va Hv) as (H1 & _ & H2). unfold KvmPaging.page_depth.
  by rewrite (page_lookup _ _ n _ _ ltac:(lia) H1), (page_lookup _ _ (S n) _ _ ltac:(lia) H2).
Qed.

End split.

End tables.

#[global] Instance through_decision n va0 va : Decision (through n va0 va).
Proof. unfold through. apply _. Defined.

(** ** The entries of a page that is split *)

Lemma foldr_land_snoc l x : foldr Z.land (-1) (l ++ [x]) = Z.land (foldr Z.land (-1) l) x.
Proof.
  induction l as [|y l IH]; cbn [app foldr]; [by rewrite Z.land_m1_r, Z.land_m1_l|]. by rewrite IH, Z.land_assoc.
Qed.

Lemma foldr_lor_snoc l x : foldr Z.lor 0 (l ++ [x]) = Z.lor (foldr Z.lor 0 l) x.
Proof. induction l as [|y l IH]; cbn [app foldr]; [by rewrite Z.lor_0_r|]. by rewrite IH, Z.lor_assoc. Qed.

(** Entries with the same flags, but for their size *)
Definition same_flags (x y : Z) : Prop := no_huge (Z.land x FLAGS_MASK) = no_huge (Z.land y FLAGS_MASK).

Lemma same_flags_mask x y M : same_flags x y → Z.land M (no_huge FLAGS_MASK) = M → Z.land x M = Z.land y M.
Proof.
  intros Hf HM. assert (∀ z, Z.land z M = Z.land (no_huge (Z.land z FLAGS_MASK)) M) as E; [|by rewrite (E x), Hf, <- E].
  intros z. rewrite <- HM. apply Z.bits_inj'. intros i Hi. unfold no_huge.
  rewrite !Z.land_spec, !Z.ldiff_spec, !Z.land_spec.
  by destruct (Z.testbit z i), (Z.testbit M i), (Z.testbit FLAGS_MASK i), (Z.testbit HUGE_PAGE i).
Qed.

Lemma no_huge_twice f : no_huge (no_huge f) = no_huge f.
Proof. unfold no_huge. rewrite Z.ldiff_ldiff_l. by rewrite Z.lor_diag. Qed.

Lemma lor_same_flags a f e : is_addr a → is_flags f → no_huge f = no_huge (Z.land e FLAGS_MASK) → same_flags (Z.lor a f) e.
Proof. intros Ha Hf E. unfold same_flags. by rewrite flags_of_lor. Qed.

Lemma translation_split n va e x y p : (n ≤ 2)%nat → same_flags x e → same_flags y e →
  Z.land e ADDR_MASK mod depth_size n = 0 →
  Z.land x ADDR_MASK = Z.land e ADDR_MASK + index (S n) va * depth_size (S n) →
  page_translation (S n) va x (p ++ [y]) = page_translation n va e p.
Proof.
  intros Hn Hx Hy Ha Hxa. unfold page_translation. f_equal.
  - rewrite Hxa, (offset_S n va Hn). unfold align_down.
    clear Hxa. generalize (index (S n) va). intros i.
    destruct n as [|[|[|n]]]; [..|lia]; revert Ha; sizes; intros Ha; dlia.
  - exact Hx.
  - rewrite !foldr_land_snoc, <- !Z.land_assoc. f_equal.
    rewrite (same_flags_mask x e), (Z.land_assoc y), (Z.land_comm y e) by done.
    rewrite <- Z.land_assoc, (same_flags_mask y e), Z.land_assoc, Z.land_diag by done. done.
  - rewrite !foldr_lor_snoc, !Z.land_lor_distr_l, (same_flags_mask x e), (same_flags_mask y e) by done.
    by rewrite <- Z.lor_assoc, Z.lor_diag.
Qed.

(** ** The encryption bit of a page is cleared *)

(** No encryption, or a bit above the memory of the shim *)
Definition cbit_ok (cbit : Z) : Prop := cbit = 0 ∨ ∃ k, 39 ≤ k < 52 ∧ cbit = 2 ^ k.

Definition decrypted (cbit : Z) (tr : Translation) : Translation :=
  mkTranslation (Z.ldiff (tr_addr tr) cbit) (tr_flags tr) (tr_all tr) (tr_any tr).

Lemma ldiff_sub x y : Z.ldiff x y = x - Z.land x y.
Proof.
  rewrite Z.sub_nocarry_ldiff.
  - apply Z.bits_inj'. intros i _. rewrite !Z.ldiff_spec, Z.land_spec. by destruct (Z.testbit x i), (Z.testbit y i).
  - apply Z.bits_inj'. intros i _. rewrite !Z.ldiff_spec, Z.land_spec, Z.bits_0. by destruct (Z.testbit x i), (Z.testbit y i).
Qed.

Lemma land_pow2 x k : 0 ≤ k → Z.land x (2 ^ k) = x / 2 ^ k mod 2 * 2 ^ k.
Proof.
  intros Hk. rewrite <- Z.shiftr_div_pow2, <- (Z.shiftl_mul_pow2 _ k) by done.
  change 2 with (2 ^ 1) at 2. rewrite <- Z.land_ones by lia.
  apply Z.bits_inj'. intros i Hi. rewrite Z.land_spec, Z.shiftl_spec, Z.land_spec, Z.pow2_bits_eqb by done.
  destruct (Z.eqb_spec k i) as [->|Hne].
  - rewrite Z.sub_diag. change (Z.testbit (Z.ones 1) 0) with true. rewrite !andb_true_r, Z.shiftr_spec by lia. done.
  - rewrite andb_false_r. destruct (decide (i < k)).
    + by rewrite (Z.testbit_neg_r _ (i - k)) by lia.
    + rewrite Z.ones_spec_high by lia. by rewrite andb_false_r.
Qed.

(** Bits above the part below an entry *)
Lemma land_page n cbit a off : (1 ≤ n ≤ 3)%nat → cbit_ok cbit → a mod depth_size n = 0 → 0 ≤ off < depth_size n →
  Z.land (a + off) cbit = Z.land a cbit.
Proof.
  intros Hn [->|(k & Hk & ->)] Ha Ho; [by rewrite !Z.land_0_r|]. rewrite !land_pow2 by lia. do 2 f_equal.
  assert (2 ^ k = depth_size n * 2 ^ (k - (39 - 9 * Z.of_nat n))) as ->.
  { unfold depth_size. rewrite <- Z.pow_add_r by lia. f_equal. lia. }
  assert (0 < depth_size n) by (unfold depth_size; lia). rewrite <- !Zdiv_Zdiv by lia. f_equal.
  apply Z.mod_divide in Ha as [q ->]; [|lia]. rewrite Z.div_add_l by lia. rewrite (Z.div_small off), Z.add_0_r by done.
  by rewrite Z.div_mul by lia.
Qed.

Lemma cbit_bits cbit : cbit_ok cbit → 0 ≤ cbit < 2 ^ 52 ∧ is_addr cbit.
Proof.
  intros [->|(k & Hk & ->)]; [by split|]. assert (2 ^ k < 2 ^ 52) by (apply Z.pow_lt_mono_r; lia). split; [lia|].
  split; [lia|]. replace k with (12 + (k - 12)) by lia. rewrite Z.pow_add_r by lia. by rewrite Z.mul_comm, Z.mod_mul.
Qed.

Lemma land_u64_not a b : is_usize a → Z.land a (u64_not b) = Z.ldiff a b.
Proof.
  intros Ha. apply Z.bits_inj'. intros i Hi. unfold u64_not. rewrite Z.ldiff_spec, Z.land_spec, Z.lxor_spec.
  destruct (decide (i < 64)).
  - change usize_MAX with (Z.ones 64). rewrite Z.ones_spec_low by lia. by destruct (Z.testbit a i), (Z.testbit b i).
  - assert (Z.testbit a i = false) as ->; [|done]. destruct (decide (a = 0)) as [->|]; [apply Z.bits_0|].
    unfold is_usize, usize_MAX in Ha. apply Z.bits_above_log2; [lia|]. assert (Z.log2 a < 64); [|lia]. apply Z.log2_lt_pow2; lia.
Qed.

(** An address without the encryption bit *)
Lemma ldiff_addr cbit a : cbit_ok cbit → is_addr a → is_addr (Z.ldiff a cbit).
Proof.
  intros Hc [Ha Hm]. pose proof (Z.land_nonneg a cbit). destruct (cbit_bits cbit Hc) as (Hr & _ & Hcm).
  rewrite ldiff_sub. destruct Hc as [->|(k & Hk & ->)]; [by rewrite Z.land_0_r, Z.sub_0_r|].
  assert (0 ≤ Z.land a (2 ^ k) ≤ a).
  { split; [lia|]. rewrite land_pow2 by lia. assert (0 < 2 ^ k) by lia.
    pose proof (Z.mul_div_le a (2 ^ k) ltac:(lia)). assert (0 ≤ a / 2 ^ k) by (apply Z.div_pos; lia).
    assert (a / 2 ^ k mod 2 ≤ a / 2 ^ k) by (apply Z.mod_le; lia). nia. }
  split; [lia|]. rewrite land_pow2 by lia. apply Z.mod_divide; [lia|].
  apply Z.divide_sub_r; [by apply Z.mod_divide|]. apply Z.divide_mul_r. by apply Z.mod_divide.
Qed.

Section cleared.
Variables (cbit base : Z) (m m' : mem) (root : Z) (n : nat) (va0 t0 : Z) (p0 : list Z).
Let e0 := entry m t0 (index n va0).
Let e' := Z.lor (Z.ldiff (Z.land e0 ADDR_MASK) cbit) (Z.land e0 FLAGS_MASK).

Hypothesis Hbit : cbit_ok cbit.
Hypothesis Hwf : tables_wf cbit base m root.
Hypothesis Hc : change cbit base m m' root n va0 t0 p0.
Hypothesis Hnew : entry m' t0 (index n va0) = e'.

Lemma cleared_entry : is_page n e' = true ∧ entry_ok cbit n e' ∧ same_flags e' e0 ∧
  Z.land e' ADDR_MASK = Z.ldiff (Z.land e0 ADDR_MASK) cbit.
Proof.
  pose proof (ldiff_addr cbit _ Hbit (addr_field_range e0)) as Ha. pose proof (flags_is_flags e0) as Hf.
  pose proof (ch_page _ _ _ _ _ _ _ _ _ Hc) as Hp. fold e0 in Hp. pose proof (ch_depth _ _ _ _ _ _ _ _ _ Hc) as Hn.
  assert (∀ i, i = 0 ∨ i = 7 → Z.testbit e' i = Z.testbit e0 i) as Hb.
  { intros i Hi. unfold e'. rewrite flag_of_lor, Z.land_spec by (done || (destruct Hi as [-> | ->]; done)).
    destruct Hi as [-> | ->]; by rewrite andb_true_r. }
  assert (is_page n e' = true) as Hp'.
  { unfold is_page, is_present, is_huge in *. by rewrite !Hb by auto. }
  assert (Z.land e' ADDR_MASK = Z.ldiff (Z.land e0 ADDR_MASK) cbit) as Ea by (by apply addr_of_lor).
  split; [exact Hp'|]. split; [|split; [|exact Ea]].
  - right. split; [by unfold is_page in Hp'; apply andb_true_iff in Hp' as [? _]|]. rewrite Hp', Ea.
    destruct (tw_entry _ _ _ _ Hwf n va0 t0 p0 ltac:(lia) (ch_node _ _ _ _ _ _ _ _ _ Hc)) as [E|[_ E]].
    { fold e0 in E. rewrite E in Hp. by destruct n as [|[|[|[|?]]]]. }
    fold e0 in E. rewrite Hp in E. rewrite ldiff_sub.
    destruct Hbit as [->|(k & Hk & ->)]; [by rewrite Z.land_0_r, Z.sub_0_r|]. rewrite land_pow2 by lia.
    assert ((2 ^ k) mod depth_size n = 0) as Ek.
    { unfold depth_size. replace k with (39 - 9 * Z.of_nat n + (k - (39 - 9 * Z.of_nat n))) by lia.
      rewrite Z.pow_add_r, Z.mul_comm by lia. apply Z.mod_mul. lia. }
    assert (depth_size n ≠ 0) by (unfold depth_size; lia). apply Z.mod_divide; [done|].
    apply Z.divide_sub_r; [by apply Z.mod_divide|]. apply Z.divide_mul_r. by apply Z.mod_divide.
  - unfold e'. apply lor_same_flags; [exact Ha|exact Hf|done].
Qed.

Lemma cleared_node va k : (k ≤ 3)%nat → node cbit base m' root k va = node cbit base m root k va.
Proof.
  intros Hk. destruct (decide (prefix (S n) va = prefix (S n) va0)) as [Hv|Hv].
  2: { by apply (change_other cbit base m m' root n va0 t0 p0 Hwf Hc). }
  destruct (decide (k ≤ n)%nat) as [Hkn|Hkn]; [by apply (change_upper cbit base m m' root n va0 t0 p0 Hwf Hc)|].
  pose proof (ch_depth _ _ _ _ _ _ _ _ _ Hc) as Hn. destruct cleared_entry as (Hp & _ & _ & _).
  destruct (through_node cbit base m m' root n va0 t0 p0 Hc va Hv) as [Ht Hi].
  assert (∀ e, is_page n e = true → links e = false) as Hl.
  { intros e He. destruct (links e) eqn:El; [|done]. by rewrite page_links in He by (done || lia). }
  assert (∀ mm, node cbit base mm root (S n) va = None → node cbit base mm root k va = None) as Hdown.
  { intros mm HN. clear -Hkn HN. assert (S n ≤ k)%nat as Hle by lia. clear Hkn.
    induction Hle as [|j Hle IH]; [exact HN|]. cbn [node]. by rewrite IH. }
  rewrite (Hdown m'), (Hdown m); [done|..].
  - rewrite (node_S _ _ _ _ _ _ _ _ Ht), Hi. by rewrite (Hl _ (ch_page _ _ _ _ _ _ _ _ _ Hc)).
  - assert (node cbit base m' root n va = Some (t0, p0)) as Ht'
      by (rewrite (change_upper cbit base m m' root n va0 t0 p0 Hwf Hc) by lia; exact Ht).
    rewrite (node_S _ _ _ _ _ _ _ _ Ht'), Hi, Hnew. by rewrite (Hl _ Hp).
Qed.

Lemma cleared_wf : tables_wf cbit base m' root.
Proof.
  split; [apply Hc|apply Hwf|..].
  - intros k va t p Hk Ht. rewrite cleared_node in Ht by done.
    destruct (decide (t = t0 ∧ index k va = index n va0)) as [[-> Hi]|Hne].
    + pose proof (ch_depth _ _ _ _ _ _ _ _ _ Hc).
      destruct (tw_tree _ _ _ _ Hwf k n va va0 t0 p p0 Hk ltac:(lia) Ht (ch_node _ _ _ _ _ _ _ _ _ Hc)) as [-> _].
      rewrite Hi, Hnew. apply cleared_entry.
    + rewrite (ch_same _ _ _ _ _ _ _ _ _ Hc k va t p Hk Ht Hne). by apply (tw_entry _ _ _ _ Hwf k va t p).
  - intros k k' va va' t p p' Hk Hk'. rewrite !cleared_node by done. by apply (tw_tree _ _ _ _ Hwf).
Qed.

Lemma cleared_translation va : translation cbit base m' root va =
  if decide (through n va0 va) then decrypted cbit <$> translation cbit base m root va else translation cbit base m root va.
Proof.
  destruct (decide _) as [Hv|Hv]; [|by apply (change_translation_other cbit base m m' root n va0 t0 p0 Hwf Hc)].
  pose proof (ch_depth _ _ _ _ _ _ _ _ _ Hc) as Hn. destruct cleared_entry as (Hp' & _ & Hsf & Ea).
  pose proof (through_page cbit base m m' root n va0 t0 p0 Hc va Hv) as Hp. fold e0 in Hp.
  destruct (through_node cbit base m m' root n va0 t0 p0 Hc va Hv) as [Ht Hi].
  assert (page cbit base m' root n va = Some (e', p0)) as Hpg.
  { unfold page. rewrite cleared_node by lia. rewrite Ht. cbn. by rewrite Hi, Hnew, Hp'. }
  unfold translation. rewrite (page_lookup _ _ _ _ n _ _ ltac:(lia) Hp), (page_lookup _ _ _ _ n _ _ ltac:(lia) Hpg). cbn. f_equal.
  unfold page_translation, decrypted. cbn.
  destruct (tw_entry _ _ _ _ Hwf n va0 t0 p0 ltac:(lia) (ch_node _ _ _ _ _ _ _ _ _ Hc)) as [E|[_ E]].
  { fold e0 in E. pose proof (ch_page _ _ _ _ _ _ _ _ _ Hc) as Hx. fold e0 in Hx. rewrite E in Hx. by destruct n as [|[|[|[|?]]]]. }
  fold e0 in E. pose proof (ch_page _ _ _ _ _ _ _ _ _ Hc) as Hx. fold e0 in Hx. rewrite Hx in E. f_equal.
  - destruct cleared_entry as (_ & [E0|[_ E0]] & _ & _).
    { rewrite E0 in Hp'. by destruct n as [|[|[|[|?]]]]. }
    rewrite Hp' in E0. unfold align_down. rewrite E, E0, Ea, !Z.sub_0_r, !ldiff_sub.
    rewrite (land_page n cbit _ (va mod depth_size n)); [lia|lia|done..|].
    apply Z.mod_pos_bound. unfold depth_size. lia.
  - exact Hsf.
  - rewrite !foldr_land_snoc, <- !Z.land_assoc. by rewrite (same_flags_mask e' e0).
  - rewrite !foldr_lor_snoc, !Z.land_lor_distr_l. by rewrite (same_flags_mask e' e0).
Qed.

End cleared.
