(* ===== verification/KvmSplit.v ===== *)
(** * Splitting pages and clearing the encryption bit

    What [smash] and [clear_c_bit_address_range] of [crates/shim-kvm/src/pagetables.rs]
    do to the translation of addresses. *)

From S2P Require Import Prelude Memory Libc PhaseAlloc StagedValues Items Calls CallLaws StageKit.
From S2P Require Import SockTypes Syscalls Stubs SyscallLaws NumberCalls Platform Handler HandlerCalls.
From S2P Require Import KvmMachine Ghcb KvmHostcall KvmAlloc KvmPaging KvmPagingLaws.

Definition canonical (va : Z) : Prop := 0 ≤ va < 2 ^ 47 ∨ 2 ^ 64 - 2 ^ 47 ≤ va < 2 ^ 64.

(** What [translate] documents *)
Definition translate_result (va : Z) (l : option (nat * (Z * list Z))) : TranslateResult :=
  match l with
  | None => TR_NotMapped
  | Some (n, (e, _)) =>
      let frame := align_down (Z.land e ADDR_MASK) (depth_size n) in
      TR_Mapped (match n with 1%nat => Frame1GiB frame | 2%nat => Frame2MiB frame | _ => Frame4KiB frame end)
        (va mod depth_size n) (Z.land e FLAGS_MASK)
  end.

(** The documented behaviour of the [x86_64] crate *)
Class EntryLaws `{Image, EntryOps} := {
  el_addr : ∀ e, is_usize e → entry_addr e = Z.land e ADDR_MASK;
  el_flags : ∀ e, is_usize e → entry_flags e = Z.land e FLAGS_MASK;
  el_frame : ∀ e, is_usize e → entry_frame e =
    if negb (is_present e) then inr FrameNotPresent
    else if is_huge e then inr HugeFrame else inl (Z.land e ADDR_MASK);
  el_set_addr : ∀ a f, is_addr a → is_flags f → entry_set_addr a f = Return (Z.lor a f);
  el_translate : ∀ m root va, tables_wf get_cbit_mask SHIM_VIRT_OFFSET m root → canonical va →
    translate frame_to_pointer m root va =
    Return (translate_result va (lookup_page get_cbit_mask SHIM_VIRT_OFFSET m root va));
}.

(** ** Indices of pages *)

Lemma land_511 x : Z.land x 511 = x mod 512.
Proof. change 511 with (Z.ones 9). by rewrite Z.land_ones by lia. Qed.

Lemma p4_index_spec va s : s = Size4KiB ∨ s = Size2MiB ∨ s = Size1GiB → p4_index (align_down va s) = index 0 va.
Proof.
  intros Hs. unfold p4_index, index, align_down. rewrite land_511, Z.shiftr_div_pow2 by lia. sizes.
  destruct Hs as [-> |[-> | ->]]; unfold Size4KiB, Size2MiB, Size1GiB; rewrite ?Z.shiftl_1_l; dlia.
Qed.

Lemma p3_index_spec va s : s = Size4KiB ∨ s = Size2MiB ∨ s = Size1GiB → p3_index (align_down va s) = index 1 va.
Proof.
  intros Hs. unfold p3_index, index, align_down. rewrite land_511, Z.shiftr_div_pow2 by lia. sizes.
  destruct Hs as [-> |[-> | ->]]; unfold Size4KiB, Size2MiB, Size1GiB; rewrite ?Z.shiftl_1_l; dlia.
Qed.

Lemma p2_index_spec va s : s = Size4KiB ∨ s = Size2MiB → p2_index (align_down va s) = index 2 va.
Proof.
  intros Hs. unfold p2_index, index, align_down. rewrite land_511, Z.shiftr_div_pow2 by lia. sizes.
  destruct Hs as [-> | ->]; unfold Size4KiB, Size2MiB; rewrite ?Z.shiftl_1_l; dlia.
Qed.

Lemma p1_index_spec va : p1_index (align_down va Size4KiB) = index 3 va.
Proof. unfold p1_index, index, align_down. rewrite land_511, Z.shiftr_div_pow2 by lia. sizes. unfold Size4KiB. dlia. Qed.

(** ** Entries in memory *)

(** Different entries, of tables that are pages *)
Lemma entry_other m t i t' i' v : t mod 4096 = 0 → t' mod 4096 = 0 → 0 ≤ i < 512 → 0 ≤ i' < 512 → ¬ (t' = t ∧ i' = i) →
  entry (write_usize m (t + 8 * i) v) t' i' = entry m t' i'.
Proof.
  intros Ht Ht' Hi Hi' Hne. unfold entry, write_usize. apply read_usize_ext. intros x Hx.
  apply write_bytes_outside. rewrite length_to_le_bytes. intros Hin. apply Hne. dlia.
Qed.

Lemma entry_same m t i v : is_usize v → entry (write_usize m (t + 8 * i) v) t i = v.
Proof. apply read_write_usize. Qed.

Section run.
Context {L P E : Type} `{Machine E, Image, HeapOps L, EntryOps, !EntryLaws}.
Abbreviation S_ := (kvm L P E).
Variables cr3 root : Z.

Abbreviation cbit := get_cbit_mask.
Abbreviation base := SHIM_VIRT_OFFSET.
Abbreviation node := (node cbit base).
Abbreviation tables_wf := (tables_wf cbit base).
Abbreviation translation := (translation cbit base).
Abbreviation lookup_page := (lookup_page cbit base).
Abbreviation page_depth := (page_depth cbit base).

Hypothesis Hbit : cbit_ok cbit.
Hypothesis Hroot : SHIM_PAGETABLE cr3 = Return root.

Lemma entry_usize m t i : mem_wf m → is_usize (entry m t i).
Proof. apply read_usize_range. Qed.

Lemma node_aligned m n va t p : tables_wf m root → (n ≤ 3)%nat → node m root n va = Some (t, p) → shim_page t.
Proof.
  intros Hwf Hn Hnode. destruct n as [|n].
  { inv Hnode. destruct (tw_root _ _ _ _ Hwf) as [Hr Ha]. split; [done|]. unfold SHIM_VIRT_OFFSET in *. lia. }
  apply node_S_inv in Hnode as (t0 & p0 & Ht0 & Hl & -> & _).
  pose proof (tw_entry _ _ _ _ Hwf n va t0 p0 ltac:(lia) Ht0) as He. set (e := entry m t0 (index n va)) in *.
  unfold table_of. pose proof (ldiff_addr cbit _ Hbit (addr_field_range e)) as [Ha1 Ha2].
  destruct He as [E0|[_ He]]; [by rewrite E0 in Hl|]. destruct (is_page n e) eqn:Ep.
  - destruct n as [|[|[|n]]]; [by unfold is_page in Ep; rewrite andb_false_r in Ep|..|lia];
      by rewrite page_links in Ep by (done || lia).
  - destruct He as (_ & _ & He). unfold shim_page, SHIM_VIRT_OFFSET. split; [|lia].
    rewrite Z.add_mod, Ha2 by lia. done.
Qed.

Lemma descend_run w n va t p t' p' : tables_wf (w_mem w) root → (n ≤ 2)%nat → node (w_mem w) root n va = Some (t, p) →
  node (w_mem w) root (S n) va = Some (t', p') → descend (L := L) (P := P) (E := E) t (index n va) w = Return (Ok t', w).
Proof.
  intros Hwf Hn Ht Ht'. pose proof (node_aligned _ (S n) va t' p' Hwf ltac:(lia) Ht') as Hsp.
  pose proof Ht' as HS. rewrite (node_S _ _ _ _ _ _ _ _ Ht) in HS. unfold descend.
  pose proof (tw_entry _ _ _ _ Hwf n va t p ltac:(lia) Ht) as He.
  unfold reads, mbind, handlerM_bind, fal_bind. set (e := entry _ t _) in *.
  assert (is_usize e) as Hu by (apply entry_usize, Hwf).
  destruct (links e) eqn:Hl; [|done]. injection HS as Et' Ep'. unfold links in Hl. apply andb_true_iff in Hl as [Hp Hh].
  rewrite el_frame, Hp by done. apply negb_true_iff in Hh. rewrite Hh. cbn.
  destruct He as [E0|[_ He]]; [by rewrite E0 in Hp|].
  assert (is_page n e = false) as Epg.
  { unfold is_page. rewrite Hp. destruct n as [|[|[|n]]]; [done|done|done|lia]. }
  rewrite Epg in He. destruct He as (_ & Hc & Hlt). unfold frame_to_pointer.
  rewrite <- Z.land_assoc. pose proof (cbit_bits _ Hbit) as (Hcb & Hca & Hcm).
  rewrite (Z.land_comm ADDR_MASK), (addr_field_small cbit Hca Hcm), Hc, Z.eqb_refl.
  pose proof (addr_field_range e) as [Hr _]. rewrite land_u64_not by (unfold is_usize, usize_MAX; lia).
  unfold table_of in Et'. destruct Hsp as (_ & Hlo & Hhi).
  rewrite virt_add_high by (unfold SHIM_VIRT_OFFSET in *; lia). unfold must. do 4 f_equal. lia.
Qed.

(** ** The steps *)

Lemma set_addr_run (w : world S_) t i a f : is_addr a → is_flags f →
  set_addr t i a f w = Return (Ok (), mkWorld (w_self w) (write_usize (w_mem w) (t + 8 * i) (Z.lor a f))).
Proof. intros Ha Hf. unfold set_addr. rewrite el_set_addr by done. done. Qed.

Lemma write_usize_wf m a v : mem_wf m → mem_wf (write_usize m a v).
Proof. intros Hm. apply write_bytes_wf; [done|apply to_le_bytes_wf]. Qed.

(** The first entries are written, the rest of memory is kept. *)
Lemma fill_table_run n i t a step f (w : world S_) :
  0 ≤ i → i + Z.of_nat n ≤ 512 → is_addr a → is_flags f → 0 < step → step mod 4096 = 0 → a + 512 * step ≤ 2 ^ 52 →
  t mod 4096 = 0 → mem_wf (w_mem w) →
  ∃ m', fill_table n i t a step f w = Return (Ok (), mkWorld (w_self w) m') ∧ mem_wf m' ∧
    same_outside (t + 8 * i) (t + 8 * (i + Z.of_nat n)) (w_mem w) m' ∧
    ∀ j, i ≤ j < i + Z.of_nat n → entry m' t j = Z.lor (a + j * step) f.
Proof.
  revert i w. induction n as [|n IH]; intros i w Hi Hn Ha Hf Hs Hsm Hmax Ht Hm.
  { exists (w_mem w). split; [by destruct w|]. split; [done|]. split; [apply same_outside_refl|]. lia. }
  pose proof Ha as [Har Ham]. cbn [fill_table]. unfold checked_mul.
  rewrite (proj2 (Z.leb_le (i * step) usize_MAX)) by (unfold usize_MAX; nia).
  cbn [unwrap_option]. unfold mbind, handlerM_bind, fal_bind, mret, fal_ret. cbn -[Z.pow Z.modulo].
  unfold phys_add, as_u64, PhysAddr_new, must. rewrite Z.mod_small by nia.
  rewrite (proj2 (Z.ltb_lt (a + i * step) (2 ^ 52))) by nia.
  assert (is_addr (a + i * step)) as Hai.
  { split; [nia|]. rewrite Z.add_mod, Ham, Z.mul_mod, Hsm, Z.mul_0_r by lia. done. }
  rewrite set_addr_run by done. set (w1 := mkWorld _ _).
  destruct (IH (i + 1) w1) as (m' & Er & Hwf & Hs' & He); [lia|lia|done..|by apply write_usize_wf|].
  exists m'. split; [exact Er|]. split; [done|]. split.
  - intros x Hx. rewrite Hs' by lia. apply write_bytes_outside. rewrite length_to_le_bytes. lia.
  - intros j Hj. destruct (decide (j = i)) as [->|Hne]; [|apply He; lia].
    rewrite <- (entry_same (w_mem w) t i (Z.lor (a + i * step) f)) by (by apply lor_usize).
    apply read_usize_ext. intros x Hx. apply Hs'. lia.
Qed.

Lemma table_pa_run (w : world S_) t : shim_page t → table_pa t w = Return (Ok (t - SHIM_VIRT_OFFSET), w).
Proof.
  intros (Ha & Hlo & Hhi). unfold table_pa.
  run_must (VirtAddr_new_high t ltac:(unfold SHIM_VIRT_OFFSET in *; lia)).
  run_must (virt_sub_shim t ltac:(lia)).
  apply must_run, PhysAddr_new_ok. unfold SHIM_VIRT_OFFSET in *. lia.
Qed.

(** What [smash] does once it has found the entry and has a new table *)
Definition replace_page (new_pagetable page_table index old_addr step fill_flags flags : Z) : handlerM S_ (unit + Error) :=
  _ ← fill_table 512 0 new_pagetable old_addr step fill_flags;
  new_pagetable_pa ← table_pa new_pagetable;
  addr ← must (PhysAddr_new (Z.lor new_pagetable_pa (Z.land old_addr get_cbit_mask)));
  _ ← set_addr page_table index addr flags;
  mret (inl ()).

(** The entry of the new table *)
Definition link_entry (t flags : Z) : Z := Z.lor (Z.lor (t - SHIM_VIRT_OFFSET) cbit) flags.

Lemma link_addr t : shim_page t → is_addr (Z.lor (t - SHIM_VIRT_OFFSET) cbit) ∧ Z.land (Z.lor (t - SHIM_VIRT_OFFSET) cbit) cbit = cbit ∧
  Z.ldiff (Z.lor (t - SHIM_VIRT_OFFSET) cbit) cbit = t - SHIM_VIRT_OFFSET.
Proof.
  intros (Ha & Hlo & Hhi). set (pa := t - SHIM_VIRT_OFFSET). assert (0 ≤ pa < 2 ^ 39) as Hpa by (unfold pa, SHIM_VIRT_OFFSET in *; lia).
  assert (pa mod 4096 = 0) as Hm by (unfold pa, SHIM_VIRT_OFFSET; dlia).
  assert (Z.land pa cbit = 0) as Hd.
  { destruct Hbit as [-> |(k & Hk & ->)]; [apply Z.land_0_r|]. rewrite land_pow2, Z.div_small by (done || lia || (assert (2 ^ 39 ≤ 2 ^ k) by (apply Z.pow_le_mono_r; lia); lia)). done. }
  assert (Z.lor pa cbit = pa + cbit) as El by (symmetry; by apply Z.add_nocarry_lor).
  destruct (cbit_bits _ Hbit) as (Hc & Hca & Hcm). split; [|split].
  - rewrite El. destruct Hbit as [Hz|(k & Hk & Hz)].
    + rewrite Hz in *. split; [lia|]. rewrite Z.add_0_r. done.
    + split; [|rewrite Z.add_mod, Hm, Hcm by lia; done]. rewrite Hz. assert (2 ^ k ≤ 2 ^ 51) by (apply Z.pow_le_mono_r; lia). lia.
  - rewrite Z.land_lor_distr_l, Hd, Z.land_diag. apply Z.lor_0_l.
  - apply Z.bits_inj'. intros i Hi. apply (f_equal (λ z, Z.testbit z i)) in Hd. rewrite Z.land_spec, Z.bits_0 in Hd.
    rewrite Z.ldiff_spec, Z.lor_spec. by destruct (Z.testbit pa i), (Z.testbit cbit i).
Qed.

Lemma replace_page_run (w : world S_) np t i a step f g :
  shim_page np → t mod 4096 = 0 → t ≠ np → 0 ≤ i < 512 → is_addr a → is_flags f → is_flags g → Z.land a cbit = cbit →
  0 < step → step mod 4096 = 0 → a + 512 * step ≤ 2 ^ 52 → mem_wf (w_mem w) →
  ∃ m', replace_page np t i a step f g w = Return (Ok (inl ()), mkWorld (w_self w) m') ∧ mem_wf m' ∧
    entry m' t i = link_entry np g ∧ (∀ j, 0 ≤ j < 512 → entry m' np j = Z.lor (a + j * step) f) ∧
    (∀ t' i', t' mod 4096 = 0 → t' ≠ np → 0 ≤ i' < 512 → ¬ (t' = t ∧ i' = i) → entry m' t' i' = entry (w_mem w) t' i').
Proof.
  intros Hnp Ht Hne Hi Ha Hf Hg Hc Hs Hsm Hmax Hm. pose proof Hnp as (Hna & Hlo & Hhi). destruct (link_addr np Hnp) as (Hla & Hlc & _).
  destruct (fill_table_run 512 0 np a step f w ltac:(lia) ltac:(lia) Ha Hf Hs Hsm Hmax Hna Hm) as (m1 & E1 & Hm1 & Hs1 & He1).
  exists (write_usize m1 (t + 8 * i) (link_entry np g)). unfold replace_page.
  rewrite (fal_bind_ok _ _ _ _ _ E1), (fal_bind_ok _ _ _ _ _ (table_pa_run _ np Hnp)), Hc. unfold PhysAddr_new.
  pose proof (proj1 Hla). rewrite (proj2 (Z.ltb_lt _ (2 ^ 52))) by lia.
  split; [|split; [by apply write_usize_wf|]; split; [|split]].
  - unfold must, mbind, handlerM_bind, fal_bind. by rewrite set_addr_run.
  - apply entry_same. by apply lor_usize.
  - intros j Hj. rewrite entry_other by (done || (intros [Hx _]; by apply Hne)). apply He1. lia.
  - intros t' i' Ht' Hne' Hi' Hx. rewrite entry_other by done. apply read_usize_ext. intros x Hx'. apply Hs1. dlia.
Qed.

(** ** A page is replaced by a table *)

(** The tables are among these pages. *)
Definition tables_in (m : mem) (used : list Z) : Prop :=
  ∀ n va t p, (n ≤ 3)%nat → node m root n va = Some (t, p) → t ∈ used.

Lemma testbit_no_huge f : Z.testbit (no_huge f) 0 = Z.testbit f 0 ∧ Z.testbit (no_huge f) 7 = false.
Proof. unfold no_huge. rewrite !Z.ldiff_spec. change (Z.testbit HUGE_PAGE 0) with false. change (Z.testbit HUGE_PAGE 7) with true.
  by rewrite andb_true_r, andb_false_r. Qed.

Lemma link_entry_ok n np f : (n ≤ 2)%nat → shim_page np → is_flags f → Z.testbit f 0 = true →
  links (link_entry np (no_huge f)) = true ∧ table_of cbit base (link_entry np (no_huge f)) = np ∧
  entry_ok cbit n (link_entry np (no_huge f)).
Proof.
  intros Hn Hnp Hf Hp. destruct (link_addr np Hnp) as (Ha & Hc & Hd). destruct (no_huge_flags f Hf) as [Hg Eg]. rewrite Eg in Hg.
  destruct (testbit_no_huge f) as [T0 T7]. set (e := link_entry np _).
  assert (is_present e = true) as E0 by (unfold is_present, e, link_entry; rewrite flag_of_lor, T0 by done; exact Hp).
  assert (is_huge e = false) as E7 by (unfold is_huge, e, link_entry; rewrite flag_of_lor by done; exact T7).
  assert (Z.land e ADDR_MASK = Z.lor (np - SHIM_VIRT_OFFSET) cbit) as Ea by (by apply addr_of_lor).
  split; [unfold links; by rewrite E0, E7|]. unfold table_of. rewrite Ea, Hd. split; [lia|].
  right. split; [exact E0|]. unfold is_page. rewrite E0, E7. destruct Hnp as (_ & Hlo & Hhi).
  assert (Z.land e cbit = cbit) as Ec.
  { destruct (cbit_bits _ Hbit) as (_ & Hca & Hcm). rewrite <- (addr_field_small cbit Hca Hcm) at 1.
    rewrite (Z.land_comm cbit), Z.land_assoc, Ea. exact Hc. }
  rewrite Ea, Hd. destruct n as [|[|[|n]]]; [| | |lia]; cbn [andb]; (split; [done|]); (split; [exact Ec|]);
    unfold SHIM_VIRT_OFFSET in *; lia.
Qed.

Lemma fill_entry_ok n a f j : (1 ≤ n ≤ 2)%nat → is_addr a → a mod depth_size n = 0 → is_flags f → Z.testbit f 0 = true →
  (n = 1%nat → Z.testbit f 7 = true) → 0 ≤ j < 512 →
  is_addr (a + j * depth_size (S n)) ∧ is_page (S n) (Z.lor (a + j * depth_size (S n)) f) = true ∧
  entry_ok cbit (S n) (Z.lor (a + j * depth_size (S n)) f).
Proof.
  intros Hn [Ha Hm] Hmod Hf T0 T7 Hj.
  assert (is_addr (a + j * depth_size (S n)) ∧ (a + j * depth_size (S n)) mod depth_size (S n) = 0) as [Haj Hma].
  { destruct n as [|[|[|n]]]; [lia| | |lia]; revert Hmod; unfold is_addr; sizes; intros Hmod; dlia. }
  assert (is_page (S n) (Z.lor (a + j * depth_size (S n)) f) = true) as Hpg.
  { unfold is_page, is_present, is_huge. rewrite !flag_of_lor, T0 by done. destruct n as [|[|[|n]]]; [lia| |done|lia]. by rewrite T7. }
  split; [exact Haj|]. split; [exact Hpg|]. right. rewrite Hpg. unfold is_page in Hpg. apply andb_true_iff in Hpg as [Hpg _].
  split; [exact Hpg|]. by rewrite addr_of_lor.
Qed.

Lemma page_aligned m n va t p : (1 ≤ n ≤ 3)%nat → tables_wf m root → node m root n va = Some (t, p) →
  is_page n (entry m t (index n va)) = true →
  Z.land (entry m t (index n va)) ADDR_MASK mod depth_size n = 0 ∧ is_present (entry m t (index n va)) = true.
Proof.
  intros Hn Hwf Hnode Hpage. destruct (tw_entry _ _ _ _ Hwf n va t p ltac:(lia) Hnode) as [E0|[Hp He]].
  - rewrite E0 in Hpage. by destruct n as [|[|[|[|?]]]].
  - by rewrite Hpage in He.
Qed.

Section replace.
Variables (m : mem) (s1 : S_) (n : nat) (va t np : Z) (p : list Z) (used : list Z) (f : Z).
Let e := entry m t (index n va).

Hypothesis Hn : (1 ≤ n ≤ 2)%nat.
Hypothesis Hwf : tables_wf m root.
Hypothesis Hin : tables_in m used.
Hypothesis Hnode : node m root n va = Some (t, p).
Hypothesis Hpage : is_page n e = true.
Hypothesis Henc : Z.land (Z.land e ADDR_MASK) cbit = cbit.
Hypothesis Hnp : shim_page np.
Hypothesis Hfresh : np ∉ used.
Hypothesis Hf : is_flags f.
Hypothesis Hnf : no_huge f = no_huge (Z.land e FLAGS_MASK).
Hypothesis Hf7 : n = 1%nat → Z.testbit f 7 = true.

Lemma replace_split : ∃ m',
  replace_page np t (index n va) (Z.land e ADDR_MASK) (depth_size (S n)) f (no_huge (Z.land e FLAGS_MASK)) (mkWorld s1 m)
    = Return (Ok (inl ()), mkWorld s1 m') ∧
  change cbit base m m' root n va t p ∧
  split cbit base m m' root n va t np (link_entry np (no_huge (Z.land e FLAGS_MASK))) (λ j, Z.lor (Z.land e ADDR_MASK + j * depth_size (S n)) f).
Proof.
  destruct (page_aligned m n va t p ltac:(lia) Hwf Hnode Hpage) as [Hal Hpr]. fold e in Hal, Hpr. pose proof (addr_field_range e) as [Har Ham]. set (a := Z.land e ADDR_MASK) in *.
  pose proof (node_aligned m n va t p Hwf ltac:(lia) Hnode) as (Hta & Htl & Hth).
  assert (t ∈ used) as Htu by (apply (Hin n va t p); [lia|done]).
  assert (t ≠ np) as Hne by (intros ->; done).
  assert (Z.testbit f 0 = true) as Hf0.
  { rewrite <- (proj1 (testbit_no_huge f)), Hnf, (proj1 (testbit_no_huge _)), Z.land_spec. by rewrite andb_true_r. }
  assert (is_flags (no_huge (Z.land e FLAGS_MASK))) as Hg by (destruct (no_huge_flags _ (flags_is_flags e)) as [Hg Eg]; by rewrite Eg in Hg).
  destruct (replace_page_run (mkWorld s1 m) np t (index n va) a (depth_size (S n)) f (no_huge (Z.land e FLAGS_MASK)))
    as (m' & E1 & Hm' & Hl & Hfill & Hoth); [done|done|done|apply index_range|done..| | | |apply Hwf|].
  { unfold depth_size. lia. }
  { destruct n as [|[|[|?]]]; [lia| | |lia]; done. }
  { destruct n as [|[|[|?]]]; [lia| | |lia]; revert Hal; sizes; intros Hal; dlia. }
  exists m'. split; [exact E1|]. cbn [w_mem] in Hoth. split.
  - split; [lia|exact Hnode|exact Hpage|exact Hm'|].
    intros k va' t' p' Hk Ht' Hx. pose proof (node_aligned m k va' t' p' Hwf Hk Ht') as (Hta' & _).
    pose proof (Hin k va' t' p' Hk Ht') as Hu. apply Hoth; [done| |apply index_range|done].
    intros ->. done.
  - split; [lia|exact Hl|exact Hfill| | |].
    + intros k va' p' Hk Ht'. by apply Hfresh, (Hin k va' np p').
    + apply link_entry_ok; [lia|done|apply flags_is_flags|]. rewrite Z.land_spec. by rewrite andb_true_r.
    + intros j Hj. apply fill_entry_ok; [lia|done..].
Qed.

(** All that is known after the page was replaced *)
Lemma replaced : ∃ m',
  replace_page np t (index n va) (Z.land e ADDR_MASK) (depth_size (S n)) f (no_huge (Z.land e FLAGS_MASK)) (mkWorld s1 m)
    = Return (Ok (inl ()), mkWorld s1 m') ∧
  tables_wf m' root ∧ tables_in m' (np :: used) ∧ (∀ va, translation m' root va = translation m root va) ∧
  ∀ va', if decide (through n va va') then page_depth m root va' = Some n ∧ page_depth m' root va' = Some (S n)
         else lookup_page m' root va' = lookup_page m root va'.
Proof.
  destruct replace_split as (m' & E1 & Hc & Hs). exists m'. split; [exact E1|]. split; [by eapply split_wf|]. split; [|split].
  - intros k va' t' p' Hk Ht'. apply elem_of_cons.
    destruct (split_node_inv _ _ _ _ _ _ _ _ _ _ _ _ Hwf Hc Hs va' k t' p' Hk Ht') as [[Ht _]|(_ & -> & _)]; [|by left].
    right. by apply (Hin k va' t' p').
  - intros va'. eapply split_translation; [done..|]. intros v. destruct (page_aligned m n va t p ltac:(lia) Hwf Hnode Hpage) as [Hal Hpr]. fold e in Hal, Hpr.
    pose proof (addr_field_range e) as [Har Ham].
    assert (Z.testbit f 0 = true) as Hf0.
    { rewrite <- (proj1 (testbit_no_huge f)), Hnf, (proj1 (testbit_no_huge _)), Z.land_spec. by rewrite andb_true_r. }
    destruct (fill_entry_ok n (Z.land e ADDR_MASK) f (index (S n) v) Hn (conj Har Ham) Hal Hf Hf0 Hf7 (index_range _ _)) as (Haj & _ & _).
    destruct (no_huge_flags _ (flags_is_flags e)) as [Hg Eg]. rewrite Eg in Hg.
    apply translation_split; [lia|by apply lor_same_flags| |exact Hal|by rewrite addr_of_lor].
    apply lor_same_flags; [by apply link_addr|exact Hg|apply no_huge_twice].
  - intros va'. destruct (decide (through n va va')) as [Hv|Hv].
    + by apply (split_depth _ _ _ _ _ _ _ _ _ _ _ _ Hwf Hc Hs va' Hv).
    + apply lookup_page_ext. intros k Hk. by apply (change_other _ _ _ _ _ _ _ _ _ Hwf Hc).
Qed.

End replace.

(** ** [smash] *)

(** The heap has [k] more pages for tables: pages of the shim that are not tables yet,
    nor pages to be avoided. *)
Variable avoid : list Z.
Fixpoint supplies (k : nat) (h : L) (used : list Z) : Prop :=
  match k with
  | O => True
  | S k => ∃ np h', allocate_first_fit (mkLayout 4096 Size4KiB) h = (Some np, h') ∧ shim_page np ∧ (np ∉ used) ∧
      (np ∉ avoid) ∧ supplies k h' (np :: used)
  end.

Abbreviation heap w := (allocator (kv_alloc (w_self w))).

Lemma alloc_table_run (w : world S_) np h' : allocate_first_fit (mkLayout 4096 Size4KiB) (heap w) = (Some np, h') →
  alloc_table w = Return (Ok np, mkWorld (set_heap h' (w_self w)) (w_mem w)).
Proof.
  intros Ha. unfold alloc_table, try_alloc_layout, on_heap, mbind, handlerM_bind, fal_bind. by rewrite Ha.
Qed.

(** The memory of an address has the encryption bit. *)
Definition encrypted_at (m : mem) (va : Z) : Prop :=
  ∀ tr, translation m root va = Some tr → Z.land (tr_addr tr) cbit = cbit.

Lemma encrypted_page m n va e p : tables_wf m root → encrypted_at m va → lookup_page m root va = Some (n, (e, p)) →
  Z.land (Z.land e ADDR_MASK) cbit = cbit.
Proof.
  intros Hwf Henc Hl. pose proof (lookup_page_inv _ _ _ _ _ _ _ Hl) as [Hn Hp].
  apply page_inv in Hp as (t & Ht & -> & Hpg). set (e := entry m t (index n va)) in *.
  specialize (Henc (page_translation n va e p)). unfold KvmPaging.translation in Henc. rewrite Hl in Henc.
  specialize (Henc eq_refl). cbn in Henc.
  destruct (page_aligned m n va t p Hn Hwf Ht Hpg) as [Hal _]. fold e in Hal.
  unfold align_down in Henc. rewrite Hal, Z.sub_0_r in Henc.
  rewrite (land_page n) in Henc; [done|lia|done..|]. apply Z.mod_pos_bound. unfold depth_size. lia.
Qed.

Lemma shim_translate_run (w : world S_) va : tables_wf (w_mem w) root → canonical va →
  shim_translate cr3 va w = Return (Ok (translate_result va (lookup_page (w_mem w) root va)), w).
Proof.
  intros Hwf Hva. unfold shim_translate. rewrite Hroot. unfold must, reads, mbind, handlerM_bind, fal_bind.
  by rewrite el_translate.
Qed.

(** What is left when the page was found and a table was allocated *)
Definition smash_rest (addr : Z) (n : nat) : handlerM S_ (unit + Error) :=
  match n with
  | 1%nat =>
      let page := align_down addr Size1GiB in
      new_pagetable ← alloc_table;
      page_table ← must (SHIM_PAGETABLE cr3);
      page_table ← descend page_table (p4_index page);
      old ← reads (λ m, entry m page_table (p3_index page));
      replace_page new_pagetable page_table (p3_index page) (entry_addr old) Size2MiB (entry_flags old)
        (Z.land (entry_flags old) (u64_not HUGE_PAGE))
  | _ =>
      let page := align_down addr Size2MiB in
      new_pagetable ← alloc_table;
      page_table ← must (SHIM_PAGETABLE cr3);
      page_table ← descend page_table (p4_index page);
      page_table ← descend page_table (p3_index page);
      old ← reads (λ m, entry m page_table (p2_index page));
      replace_page new_pagetable page_table (p2_index page) (entry_addr old) Size4KiB
        (Z.land (entry_flags old) (u64_not HUGE_PAGE)) (Z.land (entry_flags old) (u64_not HUGE_PAGE))
  end.

Lemma smash_unfold (w : world S_) addr : tables_wf (w_mem w) root → canonical addr →
  smash cr3 addr w = match lookup_page (w_mem w) root addr with
                     | None => Return (Ok (inr NotMapped), w)
                     | Some (1%nat, _) => smash_rest addr 1 w
                     | Some (2%nat, _) => smash_rest addr 2 w
                     | Some _ => Return (Ok (inl ()), w)
                     end.
Proof.
  intros Hwf Hva. unfold smash. rewrite (fal_bind_ok _ _ _ _ _ (shim_translate_run w addr Hwf Hva)).
  destruct (lookup_page (w_mem w) root addr) as [[n [e p]]|]; [|done]. cbn [translate_result].
  destruct n as [|[|[|n]]]; done.
Qed.

(** A page that is split: the tables stay a tree, no translation changes, and only the
    addresses of the page are in smaller pages. *)
Definition splits (m m' : mem) (n : nat) (addr : Z) : Prop :=
  tables_wf m' root ∧ (∀ va, translation m' root va = translation m root va) ∧
  ∀ va, if decide (through n addr va) then page_depth m root va = Some n ∧ page_depth m' root va = Some (S n)
        else lookup_page m' root va = lookup_page m root va.

(** The bits of [old] that the code uses *)
Lemma old_entry m t i : mem_wf m → entry_addr (entry m t i) = Z.land (entry m t i) ADDR_MASK ∧
  entry_flags (entry m t i) = Z.land (entry m t i) FLAGS_MASK ∧
  Z.land (entry_flags (entry m t i)) (u64_not HUGE_PAGE) = no_huge (Z.land (entry m t i) FLAGS_MASK).
Proof.
  intros Hm. pose proof (entry_usize m t i Hm) as Hu. rewrite el_addr, el_flags by done. split; [done|]. split; [done|].
  apply no_huge_flags, flags_is_flags.
Qed.

Lemma smash_rest_run (w : world S_) addr n l used k : tables_wf (w_mem w) root → tables_in (w_mem w) used →
  supplies (S k) (heap w) used → encrypted_at (w_mem w) addr → (n ≤ 2)%nat → lookup_page (w_mem w) root addr = Some (n, l) →
  ∃ np h' m', smash_rest addr n w = Return (Ok (inl ()), mkWorld (set_heap h' (w_self w)) m') ∧ splits (w_mem w) m' n addr ∧
    tables_in m' (np :: used) ∧ (np ∉ avoid) ∧ supplies k h' (np :: used).
Proof.
  destruct w as [s m]. cbn [w_mem w_self]. intros Hwf Hin (np & h' & E1 & Hnp & Hfresh & Hav & Hrest) Henc Hn2 Hl. destruct l as [e p].
  pose proof (encrypted_page m n addr e p Hwf Henc Hl) as Hc. apply lookup_page_inv in Hl as [Hn Hp].
  apply page_inv in Hp as (t & Ht & -> & Hpg). apply (alloc_table_run (mkWorld s m)) in E1. cbn [w_mem w_self] in E1.
  destruct (old_entry m t (index n addr) (tw_mem _ _ _ _ Hwf)) as (Ea & Ef & Eg).
  pose proof (flags_is_flags (entry m t (index n addr))) as Hfl. destruct (no_huge_flags _ Hfl) as [Hg Eg']. rewrite Eg' in Hg.
  set (s1 := set_heap h' s) in *. exists np, h'. destruct n as [|[|[|n]]]; [lia| | |lia].
  - destruct (replaced m s1 1 addr t np p used (Z.land (entry m t (index 1 addr)) FLAGS_MASK)) as (m' & E2 & Hw' & Hi' & Htr & Hlk);
      [lia|done..| |].
    { intros _. unfold is_page, is_huge in Hpg. apply andb_true_iff in Hpg as [_ Hh]. rewrite Z.land_spec, Hh. done. }
    exists m'. split; [|done]. cbn [smash_rest]. rewrite (fal_bind_ok _ _ _ _ _ E1), Hroot.
    rewrite p4_index_spec, p3_index_spec by auto. unfold must at 1, mbind at 1, handlerM_bind, fal_bind at 1.
    rewrite (fal_bind_ok _ _ _ t _ (descend_run (mkWorld s1 m) 0 addr root [] t p Hwf ltac:(lia) eq_refl Ht)).
    unfold reads, mbind, handlerM_bind, fal_bind. cbn [w_mem]. rewrite Ea, Eg, Ef. exact E2.
  - pose proof Ht as Hup. apply node_S_inv in Hup as (t1 & p1 & Ht1 & _).
    destruct (replaced m s1 2 addr t np p used (no_huge (Z.land (entry m t (index 2 addr)) FLAGS_MASK))) as (m' & E2 & Hw' & Hi' & Htr & Hlk);
      [lia|done..|apply no_huge_twice|done|].
    exists m'. split; [|done]. cbn [smash_rest]. rewrite (fal_bind_ok _ _ _ _ _ E1), Hroot.
    rewrite p4_index_spec, p3_index_spec, p2_index_spec by auto. unfold must at 1, mbind at 1, handlerM_bind, fal_bind at 1.
    rewrite (fal_bind_ok _ _ _ t1 _ (descend_run (mkWorld s1 m) 0 addr root [] t1 p1 Hwf ltac:(lia) eq_refl Ht1)).
    rewrite (fal_bind_ok _ _ _ t _ (descend_run (mkWorld s1 m) 1 addr t1 p1 t p Hwf ltac:(lia) Ht1 Ht)).
    unfold reads, mbind, handlerM_bind, fal_bind. cbn [w_mem]. rewrite Ea, Eg. exact E2.
Qed.

(** C16: splitting a page.  [smash] of an address that is not mapped is an error, and
    nothing is done if its page is small.  A large page that is mapped with the
    encryption bit is replaced by a table of the pages of the next smaller size, so that a
    page of 1 GiB becomes pages of 2 MiB: the tables stay well-formed, and every address
    of the address space is translated as before, with the same rights.  (Without the
    bit, the link to the new table would not have it either, and tables are only
    followed through links that have it.) *)
Theorem smash_translates (w : world S_) addr used : tables_wf (w_mem w) root → canonical addr →
  tables_in (w_mem w) used → supplies 1 (heap w) used → encrypted_at (w_mem w) addr →
  match page_depth (w_mem w) root addr with
  | None => smash cr3 addr w = Return (Ok (inr NotMapped), w)
  | Some n =>
      if (n =? 3)%nat then smash cr3 addr w = Return (Ok (inl ()), w)
      else ∃ h' m', smash cr3 addr w = Return (Ok (inl ()), mkWorld (set_heap h' (w_self w)) m') ∧ tables_wf m' root ∧
             page_depth m' root addr = Some (S n) ∧ ∀ va, translation m' root va = translation (w_mem w) root va
  end.
Proof.
  intros Hwf Hva Hin Hs Henc. rewrite (smash_unfold w addr Hwf Hva). unfold KvmPaging.page_depth at 1.
  destruct (lookup_page (w_mem w) root addr) as [[n l]|] eqn:Hl; [|done]. cbn [fst fmap option_fmap option_map].
  pose proof (lookup_page_inv _ _ _ _ _ _ _ Hl) as [Hn _]. destruct (Nat.eqb_spec n 3) as [->|Hne]; [done|].
  destruct (smash_rest_run w addr n l used 0 Hwf Hin Hs Henc ltac:(lia) Hl) as (np & s1 & m' & E1 & (Hw' & Htr & Hlk) & _).
  exists s1, m'. specialize (Hlk addr). rewrite decide_True in Hlk by done. destruct Hlk as [_ Hd].
  destruct n as [|[|[|n]]]; [lia|done|done|lia].
Qed.

End run.
