(* ===== verification/KvmClear.v ===== *)
(** * Clearing the encryption bit of a range

    [clear_c_bit_address_range] of [crates/shim-kvm/src/pagetables.rs]: the loop ends, it
    splits at most four pages, and it changes the translation of the range and of
    nothing else. *)

From S2P Require Import Prelude Memory Libc PhaseAlloc StagedValues Items Calls CallLaws StageKit.
From S2P Require Import SockTypes Syscalls Stubs SyscallLaws NumberCalls Platform Handler HandlerCalls.
From S2P Require Import KvmMachine Ghcb KvmHostcall KvmAlloc KvmPaging KvmPagingLaws KvmSplit.

(** ** Addresses of one page *)

Lemma through_div n va va' : (1 ≤ n ≤ 3)%nat → canonical va → canonical va' →
  through n va va' ↔ va' / depth_size n = va / depth_size n.
Proof.
  intros Hn Hva Hva'. unfold through, prefix, canonical in *. depths n; [lia|..]; sizes; cbn -[Z.pow Z.div Z.modulo];
  repeat match goal with |- context [2 ^ ?x] => let v := eval vm_compute in (2 ^ x) in change (2 ^ x) with v end;
  split; intros E; dlia.
Qed.

Lemma through_range n va va' : (1 ≤ n ≤ 3)%nat → canonical va → canonical va' → va mod depth_size n = 0 →
  through n va va' ↔ va ≤ va' < va + depth_size n.
Proof.
  intros Hn Hva Hva' Hm. rewrite through_div by done. depths n; [lia|..]; revert Hm; sizes; intros Hm; split; intros E; dlia.
Qed.

Section lookup.
Variables cbit base : Z.

(** An address is translated as the others of its page. *)
Lemma lookup_through m root n va va' l : lookup_page cbit base m root va = Some (n, l) → through n va va' →
  lookup_page cbit base m root va' = Some (n, l).
Proof.
  intros Hl Hv. apply lookup_page_inv in Hl as [Hn Hp]. apply page_lookup; [done|].
  destruct l as [e p]. apply page_inv in Hp as (t & Ht & -> & Hpg). unfold through in Hv.
  apply prefix_S_inv in Hv as [Hv Hi]; [|lia]. unfold page. rewrite (node_prefix _ _ _ _ _ _ va), Ht by (done || lia). cbn.
  by rewrite Hi, Hpg.
Qed.

Lemma lookup_small m root va va' : through 3 va va' → lookup_page cbit base m root va' = lookup_page cbit base m root va.
Proof.
  intros Hv. apply prefix_S_inv in Hv as [H3 I3]; [|lia]. apply prefix_S_inv in H3 as [H2 I2] ; [|lia].
  pose proof H2 as Hx. apply prefix_S_inv in Hx as [H1 I1]; [|lia]. apply prefix_S_inv in H1 as [H1' I0]; [|lia].
  unfold lookup_page, page.
  rewrite (node_prefix _ _ m root 1 va' va), (node_prefix _ _ m root 2 va' va), (node_prefix _ _ m root 3 va' va), I1, I2, I3;
    [done|lia|by repeat (apply prefix_inj; [lia|try done..])|lia|done|lia|by apply prefix_inj; [lia|..]].
Qed.

(** Memory that keeps the entries of the tables *)
Lemma kept_node m m' root n va : (n ≤ 3)%nat →
  (∀ n va t p i, (n ≤ 3)%nat → node cbit base m root n va = Some (t, p) → 0 ≤ i < 512 → entry m' t i = entry m t i) →
  node cbit base m' root n va = node cbit base m root n va.
Proof. intros Hn Hk. apply node_ext. intros k t p Hkn Ht. by apply (Hk k va t p); [lia|done|apply index_range]. Qed.

Lemma kept_tables m m' root : tables_wf cbit base m root → mem_wf m' →
  (∀ n va t p i, (n ≤ 3)%nat → node cbit base m root n va = Some (t, p) → 0 ≤ i < 512 → entry m' t i = entry m t i) →
  tables_wf cbit base m' root ∧ ∀ va, translation cbit base m' root va = translation cbit base m root va.
Proof.
  intros Hwf Hm Hk. split; [split; [done|apply Hwf|..]|].
  - intros n va t p Hn Ht. rewrite (kept_node m m' root n va Hn Hk) in Ht.
    rewrite (Hk n va t p) by (done || apply index_range). by apply (tw_entry _ _ _ _ Hwf n va t p).
  - intros n n' va va' t p p' Hn Hn' Ht Ht'. rewrite (kept_node m m' root _ _ Hn Hk) in Ht. rewrite (kept_node m m' root _ _ Hn' Hk) in Ht'.
    by apply (tw_tree _ _ _ _ Hwf n n' va va' t p p').
  - intros va. unfold translation. rewrite (lookup_page_ext _ _ m m' root va); [done|]. intros n Hn. apply page_ext.
    intros k t p Hkn Ht. by apply (Hk k va t p); [lia|done|apply index_range].
Qed.

End lookup.

Section run.
Context {L P E : Type} `{Machine E, Image, HeapOps L, EntryOps, !EntryLaws}.
Abbreviation S_ := (kvm L P E).
Variables (cr3 root : Z) (avoid : list Z).

Abbreviation cbit := get_cbit_mask.
Abbreviation base := SHIM_VIRT_OFFSET.
Abbreviation node := (node cbit base).
Abbreviation tables_wf := (tables_wf cbit base).
Abbreviation translation := (translation cbit base).
Abbreviation lookup_page := (lookup_page cbit base).
Abbreviation page_depth := (page_depth cbit base).
Abbreviation heap w := (allocator (kv_alloc (w_self w))).

Hypothesis Hbit : cbit_ok cbit.
Hypothesis Hroot : SHIM_PAGETABLE cr3 = Return root.

(** ** One page *)

Definition clear_page (n : nat) (current : Z) : handlerM S_ unit :=
  match n with 1%nat => clear_1g cr3 current | 2%nat => clear_2m cr3 current | _ => clear_4k cr3 current end.

Lemma clear_entry_run (w : world S_) t i : mem_wf (w_mem w) → clear_entry t i w = Return (Ok (), mkWorld (w_self w)
  (write_usize (w_mem w) (t + 8 * i) (Z.lor (Z.ldiff (Z.land (entry (w_mem w) t i) ADDR_MASK) cbit) (Z.land (entry (w_mem w) t i) FLAGS_MASK)))).
Proof.
  destruct w as [s m]. cbn [w_mem w_self]. intros Hm. unfold clear_entry, reads, mbind, handlerM_bind, fal_bind, must.
  cbn [w_mem]. destruct (old_entry m t i Hm) as (-> & -> & _). set (e := entry _ t i).
  pose proof (addr_field_range e) as [Hr Ha]. rewrite land_u64_not by (unfold is_usize, usize_MAX; lia).
  destruct (ldiff_addr cbit _ Hbit (conj Hr Ha)) as [Hr' Ha']. unfold PhysAddr_new.
  rewrite (proj2 (Z.ltb_lt _ (2 ^ 52))) by lia. apply set_addr_run; [done|apply flags_is_flags].
Qed.

(** Down to the entry *)
Lemma clear_page_unfold (w : world S_) n va t p : tables_wf (w_mem w) root → (1 ≤ n ≤ 3)%nat →
  node (w_mem w) root n va = Some (t, p) → clear_page n va w = clear_entry t (index n va) w.
Proof.
  intros Hwf Hn Ht. unfold clear_page, clear_1g, clear_2m, clear_4k. rewrite Hroot. depths n; [lia|..].
  all: rewrite ?p4_index_spec, ?p3_index_spec, ?p2_index_spec, ?p1_index_spec by auto;
    unfold must at 1, mbind at 1, handlerM_bind, fal_bind at 1.
  - by rewrite (fal_bind_ok _ _ _ t _ (descend_run cr3 root Hbit Hroot w 0 va root [] t p Hwf ltac:(lia) eq_refl Ht)).
  - pose proof Ht as Ht1. apply node_S_inv in Ht1 as (t1 & p1 & Ht1 & _).
    rewrite (fal_bind_ok _ _ _ t1 _ (descend_run cr3 root Hbit Hroot w 0 va root [] t1 p1 Hwf ltac:(lia) eq_refl Ht1)).
    by rewrite (fal_bind_ok _ _ _ t _ (descend_run cr3 root Hbit Hroot w 1 va t1 p1 t p Hwf ltac:(lia) Ht1 Ht)).
  - pose proof Ht as Ht2. apply node_S_inv in Ht2 as (t2 & p2 & Ht2 & _).
    pose proof Ht2 as Ht1. apply node_S_inv in Ht1 as (t1 & p1 & Ht1 & _).
    rewrite (fal_bind_ok _ _ _ t1 _ (descend_run cr3 root Hbit Hroot w 0 va root [] t1 p1 Hwf ltac:(lia) eq_refl Ht1)).
    rewrite (fal_bind_ok _ _ _ t2 _ (descend_run cr3 root Hbit Hroot w 1 va t1 p1 t2 p2 Hwf ltac:(lia) Ht1 Ht2)).
    by rewrite (fal_bind_ok _ _ _ t _ (descend_run cr3 root Hbit Hroot w 2 va t2 p2 t p Hwf ltac:(lia) Ht2 Ht)).
Qed.

Lemma clear_page_run (w : world S_) n va l used : tables_wf (w_mem w) root → tables_in root (w_mem w) used →
  lookup_page (w_mem w) root va = Some (n, l) →
  ∃ m', clear_page n va w = Return (Ok (), mkWorld (w_self w) m') ∧ tables_wf m' root ∧ tables_in root m' used ∧
    (∀ va', page_depth m' root va' = page_depth (w_mem w) root va') ∧
    ∀ va', translation m' root va' = if decide (through n va va') then decrypted cbit <$> translation (w_mem w) root va'
                                     else translation (w_mem w) root va'.
Proof.
  intros Hwf Hin Hl. pose proof Hl as Hl0. apply lookup_page_inv in Hl as [Hn Hp]. destruct l as [e p].
  apply page_inv in Hp as (t & Ht & -> & Hpg). set (m := w_mem w) in *. pose proof (tw_mem _ _ _ _ Hwf) as Hm.
  rewrite (clear_page_unfold w n va t p Hwf Hn Ht), clear_entry_run by done. fold m.
  set (e := entry m t (index n va)) in *. set (e' := Z.lor _ _). set (m' := write_usize _ _ _).
  pose proof (node_aligned cr3 root Hbit Hroot m n va t p Hwf ltac:(lia) Ht) as (Hta & _).
  assert (change cbit base m m' root n va t p) as Hc.
  { split; [done|done|done|by apply write_usize_wf|]. intros k va' t' p' Hk Ht' Hne.
    pose proof (node_aligned cr3 root Hbit Hroot m k va' t' p' Hwf Hk Ht') as (Hta' & _).
    apply entry_other; [done|done|apply index_range|apply index_range|done]. }
  assert (entry m' t (index n va) = e') as He.
  { apply entry_same, lor_usize; [apply (ldiff_addr cbit _ Hbit), addr_field_range|apply flags_is_flags]. }
  exists m'. split; [done|]. split; [by apply (cleared_wf _ _ m m' root n va t p Hbit Hwf Hc)|]. split; [|split].
  - intros k va' t' p' Hk Ht'. rewrite (cleared_node _ _ m m' root n va t p Hbit Hwf Hc He va' k Hk) in Ht'. by apply (Hin k va' t' p').
  - intros va'. destruct (decide (through n va va')) as [Hv|Hv].
    + pose proof (lookup_through _ _ _ _ _ _ _ _ Hl0 Hv) as Hl'. unfold KvmPaging.page_depth. rewrite Hl'.
      assert (page cbit base m' root n va' = Some (e', p)) as Hpg'; [|by rewrite (page_lookup _ _ _ _ n _ _ Hn Hpg')].
      destruct (through_node _ _ _ _ _ _ _ _ _ Hc va' Hv) as [Htv Hi]. unfold page.
      rewrite (cleared_node _ _ m m' root n va t p Hbit Hwf Hc He va' n ltac:(lia)), Htv. cbn. rewrite Hi, He.
      pose proof (proj1 (cleared_entry _ _ m m' root n va t p Hbit Hwf Hc He)) as Hq. fold e e' in Hq. by rewrite Hq.
    + unfold KvmPaging.page_depth. f_equal. apply lookup_page_ext. intros k Hk. by apply (change_other _ _ _ _ _ _ _ _ _ Hwf Hc).
  - intros va'. by apply (cleared_translation _ _ m m' root n va t p Hbit Hwf Hc He).
Qed.

(** ** The loop *)

(** How often the page of an address can be split *)
Definition splits_left (m : mem) (va : Z) : nat :=
  match page_depth m root va with Some n => 3 - n | None => 0 end.

Variables (m0 : mem) (start end_ : Z).

(** The last page of the range *)
Abbreviation last := (end_ - 4096).

Record clear_inv (k : nat) (current : Z) (w : world S_) (used : list Z) : Prop := {
  ci_range : start ≤ current ≤ end_;
  ci_aligned : current mod 4096 = 0;
  ci_wf : tables_wf (w_mem w) root;
  ci_in : tables_in root (w_mem w) used;
  ci_pot : (splits_left (w_mem w) start + splits_left (w_mem w) last ≤ k)%nat;
  ci_sup : supplies avoid k (heap w) used;
  ci_avoid : Forall (λ t, t ∉ avoid) used;
  ci_begin : current = start ∨ ∀ n l, lookup_page (w_mem w) root current = Some (n, l) → current mod depth_size n = 0;
  ci_tr : ∀ va, canonical va → translation (w_mem w) root va =
    if decide (start ≤ va < current) then decrypted cbit <$> translation m0 root va else translation m0 root va;
}.

Hypothesis Hstart : 2 ^ 64 - 2 ^ 47 ≤ start ∧ start mod 4096 = 0.
Hypothesis Hend : start ≤ end_ ≤ 2 ^ 64 - 2 ^ 30 ∧ end_ mod 4096 = 0.
Hypothesis Henc : ∀ va, start ≤ va < end_ → encrypted_at root m0 va.

Lemma range_canonical va : start ≤ va < end_ + 2 ^ 30 → canonical va.
Proof. unfold canonical. lia. Qed.

Lemma go_on_run current size : start ≤ current < end_ → 0 ≤ size ≤ 2 ^ 30 → virt_add current size = Return (current + size).
Proof. intros Hc Hs. apply virt_add_high; lia. Qed.

(** A page was split that has the beginning or the end of the range. *)
Lemma clear_inv_smash k current w used va n l : clear_inv k current w used → current ≤ va < end_ → (n ≤ 2)%nat →
  lookup_page (w_mem w) root va = Some (n, l) → through n va start ∨ through n va last →
  ∃ k' h' m' used', smash cr3 va w = Return (Ok (inl ()), mkWorld (set_heap h' (w_self w)) m') ∧
    clear_inv k' current (mkWorld (set_heap h' (w_self w)) m') used' ∧ page_depth m' root va = Some (S n).
Proof.
  intros [Hr Ha Hwf Hin Hpot Hsup Hav Hbeg Htr] Hlt Hn Hl Hth. pose proof (lookup_page_inv _ _ _ _ _ _ _ Hl) as [Hn1 _].
  assert (canonical va) as Hcan by (apply range_canonical; lia).
  assert (1 ≤ splits_left (w_mem w) start + splits_left (w_mem w) last)%nat as Hone.
  { assert (∀ va', through n va va' → 1 ≤ splits_left (w_mem w) va')%nat as Hx.
    { intros va' Hv. unfold splits_left, KvmPaging.page_depth. rewrite (lookup_through _ _ _ _ _ _ _ _ Hl Hv). cbn. lia. }
    destruct Hth as [Hv|Hv]; apply Hx in Hv; lia. }
  destruct k as [|k]; [lia|]. assert (encrypted_at root (w_mem w) va) as He.
  { intros tr Et. rewrite Htr, decide_False in Et by (done || lia). apply (Henc va); [lia|done]. }
  destruct (smash_rest_run cr3 root Hbit Hroot avoid w va n l used k Hwf Hin Hsup He Hn Hl)
    as (np & h' & m' & E1 & (Hw' & Htr' & Hlk) & Hin' & Hnp & Hsup').
  exists k, h', m', (np :: used). split; [|split].
  - rewrite (smash_unfold cr3 root Hroot w va Hwf Hcan), Hl. by destruct n as [|[|[|n]]]; [lia|..|lia].
  - split; cbn [w_mem w_self]; [done|done|done|done| |done|by constructor| |].
    + assert (∀ va', splits_left m' va' + (if decide (through n va va') then 1 else 0) ≤ splits_left (w_mem w) va')%nat as Hx.
      { intros va'. specialize (Hlk va'). unfold splits_left. destruct (decide _); [destruct Hlk as [-> ->]; lia|].
        unfold KvmPaging.page_depth. rewrite Hlk. lia. }
      pose proof (Hx start) as H1x. pose proof (Hx last) as H2x. clear Hx. repeat destruct (decide _); try lia. by destruct Hth.
    + destruct Hbeg as [->|Hb]; [by left|]. right. intros n' l' Hl'. specialize (Hlk current). destruct (decide _) as [Hv|Hv].
      * destruct Hlk as [Hd0 Hd]. unfold KvmPaging.page_depth in Hd, Hd0. rewrite Hl' in Hd. injection Hd as ->.
        destruct (lookup_page (w_mem w) root current) as [[n0 l0]|]; [|done]. injection Hd0 as ->. specialize (Hb n l0 eq_refl).
        destruct n as [|[|[|n]]]; [lia| | |lia]; revert Hb; sizes; intros Hb; dlia.
      * rewrite Hlk in Hl'. by apply (Hb n' l').
    + intros va' Hva'. by rewrite Htr', Htr.
  - specialize (Hlk va). rewrite decide_True in Hlk by done. apply Hlk.
Qed.

(** The page at [current] has one of them, if it has to be split. *)
Lemma clear_inv_why k current w used n l : clear_inv k current w used → current < end_ →
  lookup_page (w_mem w) root current = Some (n, l) → (current mod depth_size n ≠ 0 ∨ end_ < current + depth_size n) →
  through n current start ∨ through n current last.
Proof.
  intros [Hr Ha Hwf Hin Hpot Hsup Hav Hbeg Htr] Hlt Hl Hwhy. pose proof (lookup_page_inv _ _ _ _ _ _ _ Hl) as [Hn1 _].
  assert (canonical current) as Hcan by (apply range_canonical; lia). assert (canonical last) as Hcl by (apply range_canonical; dlia).
  destruct (decide (current mod depth_size n = 0)) as [Hz|Hz].
  - right. apply through_range; [lia|done..|dlia].
  - destruct Hbeg as [->|Hb]; [by left|]. by apply Hb in Hl.
Qed.

(** After a step, an address is at the beginning of its page: the one before it is not
    in the same page. *)
Lemma at_begin m next n l : canonical next → next mod 4096 = 0 → canonical (next - 4096) →
  lookup_page m root next = Some (n, l) → next mod depth_size n = 0 ∨ lookup_page m root (next - 4096) = Some (n, l).
Proof.
  intros Hc Ha Hc' Hl. pose proof (lookup_page_inv _ _ _ _ _ _ _ Hl) as [Hn _].
  destruct (decide (next mod depth_size n = 0)) as [|Hz]; [by left|]. right.
  apply (lookup_through _ _ _ _ _ next); [done|]. apply through_div; [lia|done..|].
  depths n; [lia|..]; revert Hz; sizes; intros Hz; dlia.
Qed.

(** The page at [current] was cleared. *)
Lemma clear_inv_clear k current w used n l : clear_inv k current w used →
  lookup_page (w_mem w) root current = Some (n, l) → current mod depth_size n = 0 → current + depth_size n ≤ end_ →
  ∃ m', clear_page n current w = Return (Ok (), mkWorld (w_self w) m') ∧
    clear_inv k (current + depth_size n) (mkWorld (w_self w) m') used.
Proof.
  intros [Hr Ha Hwf Hin Hpot Hsup Hav Hbeg Htr] Hl Hz Hle. pose proof (lookup_page_inv _ _ _ _ _ _ _ Hl) as [Hn _].
  assert (4096 ≤ depth_size n ∧ depth_size n mod 4096 = 0) as [Hsz Hsm] by (depths n; [lia|..]; by vm_compute).
  assert (canonical current) as Hcan by (apply range_canonical; lia).
  destruct (clear_page_run w n current l used Hwf Hin Hl) as (m' & E1 & Hw' & Hin' & Hd & Htr').
  exists m'. split; [exact E1|]. split; cbn [w_mem w_self]; [lia| |done|done| |done|done| |].
  - rewrite Z.add_mod, Ha, Hsm by lia. done.
  - unfold splits_left in *. by rewrite !Hd.
  - right. intros n' l' Hl'. assert ((current + depth_size n) mod 4096 = 0) by (rewrite Z.add_mod, Ha, Hsm by lia; done).
    destruct (at_begin m' (current + depth_size n) n' l') as [|Hy]; [apply range_canonical; lia|done|apply range_canonical; lia|done|done|].
    assert (through n current (current + depth_size n - 4096)) as Hv by (apply through_range; [lia|done|apply range_canonical; lia|done|lia]).
    pose proof (Hd (current + depth_size n - 4096)) as He. unfold KvmPaging.page_depth in He. rewrite Hy in He.
    rewrite (lookup_through _ _ _ _ _ _ _ _ Hl Hv) in He. injection He as ->.
    rewrite Z.add_mod, Hz, Z.mod_same by lia. done.
  - intros va Hva. rewrite Htr', Htr by done. pose proof (through_range n current va Hn Hcan Hva Hz) as Hiff.
    destruct (decide (through n current va)) as [Hv|Hv], (decide (start ≤ va < current)), (decide (start ≤ va < current + depth_size n));
      try done; try (exfalso; apply Hiff in Hv; lia); try lia. exfalso. apply Hv, Hiff. lia.
Qed.

(** Nothing is mapped at [current]. *)
Lemma clear_inv_skip k current w used : clear_inv k current w used → current < end_ →
  lookup_page (w_mem w) root current = None → clear_inv k (current + Size4KiB) w used.
Proof.
  intros [Hr Ha Hwf Hin Hpot Hsup Hav Hbeg Htr] Hlt Hl. unfold Size4KiB.
  assert (canonical current) as Hcan by (apply range_canonical; lia).
  split; [dlia|dlia|done..| |].
  - right. intros n l Hl'. destruct (at_begin (w_mem w) (current + 4096) n l) as [|Hy]; [apply range_canonical; dlia|dlia| |done|done|].
    + by replace (current + 4096 - 4096) with current by lia.
    + replace (current + 4096 - 4096) with current in Hy by lia. by rewrite Hy in Hl.
  - intros va Hva. rewrite Htr by done. destruct (decide (start ≤ va < current)), (decide (start ≤ va < current + 4096)); try done; try lia.
    assert (through 3 current va) as Hv by (apply through_range; [lia|done|done|by sizes|sizes; lia]).
    pose proof (Htr va Hva) as E1. rewrite decide_False in E1 by lia. rewrite <- E1. unfold KvmPaging.translation.
    by rewrite (lookup_small _ _ _ _ current va Hv), Hl.
Qed.

(** Only the heap of the allocator changes. *)
Definition same_but_heap (s s' : S_) : Prop := ∃ h, s' = set_heap h s.

#[local] Instance same_but_heap_preorder : PreOrder same_but_heap.
Proof.
  split.
  - intros s. exists (allocator (kv_alloc s)). by destruct s as [? ? ? [] ? ? ? ? ? ?].
  - intros s1 s2 s3 [h1 ->] [h2 ->]. by exists h2.
Qed.

(** How far the page of [current] is split already *)
Definition progress (m : mem) (va : Z) : Z :=
  match page_depth m root va with Some n => Z.of_nat n - 1 | None => 2 end.

Lemma progress_range m va : 0 ≤ progress m va ≤ 2.
Proof.
  unfold progress, KvmPaging.page_depth. destruct (lookup_page m root va) as [[n l]|] eqn:Hl; cbn; [|lia].
  apply lookup_page_inv in Hl as [Hn _]. lia.
Qed.

(** One iteration, by what is found at [current] *)
Definition clear_step (fuel : nat) (current : Z) (w : world S_) : outcome (result (unit + Error) * world S_) :=
  match lookup_page (w_mem w) root current with
  | None => clear_c_bit_address_range cr3 fuel (current + Size4KiB) end_ w
  | Some (n, _) =>
      if (current mod depth_size n =? 0) && (current + depth_size n <=? end_)
      then (_ ← clear_page n current; clear_c_bit_address_range cr3 fuel (current + depth_size n) end_) w
      else (r ← smash cr3 current;
            match r with
            | inl _ => clear_c_bit_address_range cr3 fuel current end_
            | inr e => mret (inr e)
            end) w
  end.

Lemma clear_unfold fuel k current w used : clear_inv k current w used → current < end_ →
  clear_c_bit_address_range cr3 (S fuel) current end_ w = clear_step fuel current w.
Proof.
  intros [Hr Ha Hwf Hin Hpot Hsup Hav Hbeg Htr] Hlt. cbn [clear_c_bit_address_range].
  rewrite (proj2 (Z.leb_gt _ _) Hlt). assert (canonical current) as Hcan by (apply range_canonical; lia).
  rewrite (fal_bind_ok _ _ _ _ _ (shim_translate_run cr3 root Hroot w current Hwf Hcan)). unfold clear_step, must, mret, fal_ret.
  destruct (lookup_page (w_mem w) root current) as [[n [e p]]|] eqn:Hl; cbn [translate_result].
  2: { unfold mbind, handlerM_bind, fal_bind. by rewrite go_on_run by (done || (unfold Size4KiB; lia)). }
  pose proof (lookup_page_inv _ _ _ _ _ _ _ Hl) as [Hn _]. depths n; [lia|..].
  - change (depth_size 1) with Size1GiB. destruct (_ =? 0); cbn [negb orb andb].
    + unfold mbind, handlerM_bind, fal_bind. rewrite go_on_run by (done || (by vm_compute) || (change Size1GiB with (2 ^ 30); lia)).
      rewrite (Z.leb_antisym end_). by destruct (end_ <? _).
    + done.
  - change (depth_size 2) with Size2MiB. destruct (_ =? 0); cbn [negb orb andb].
    + unfold mbind, handlerM_bind, fal_bind. rewrite go_on_run by (done || (by vm_compute) || (change Size2MiB with (2 ^ 21); lia)).
      rewrite (Z.leb_antisym end_). by destruct (end_ <? _).
    + done.
  - change (depth_size 3) with 4096. unfold Size4KiB. rewrite Ha. unfold mbind, handlerM_bind, fal_bind. cbn [Z.eqb negb andb].
    rewrite go_on_run by (done || lia). rewrite (Z.leb_antisym end_).
    assert ((end_ <? current + 4096) = false) as -> by (apply Z.ltb_ge; dlia). done.
Qed.

Lemma clear_loop fuel k current w used : clear_inv k current w used →
  3 * ((end_ - current) / 4096) + 3 ≤ Z.of_nat fuel + progress (w_mem w) current →
  ∃ k' w' used', clear_c_bit_address_range cr3 fuel current end_ w = Return (Ok (inl ()), w') ∧
    clear_inv k' end_ w' used' ∧ same_but_heap (w_self w) (w_self w').
Proof.
  revert k current w used. induction fuel as [|fuel IH]; intros k current w used Hi Hf;
    pose proof (ci_range _ _ _ _ Hi) as Hr; pose proof (ci_aligned _ _ _ _ Hi) as Ha; pose proof (progress_range (w_mem w) current) as Hp.
  { exfalso. assert (0 ≤ (end_ - current) / 4096) by (apply Z.div_pos; lia). lia. }
  destruct (decide (current = end_)) as [->|Hne].
  { cbn [clear_c_bit_address_range]. rewrite (proj2 (Z.leb_le _ _)) by lia. by exists k, w, used. }
  rewrite (clear_unfold fuel k current w used Hi) by lia. unfold clear_step.
  destruct (lookup_page (w_mem w) root current) as [[n l]|] eqn:Hl.
  2: { apply (IH k _ w used); [by apply clear_inv_skip; [|lia|]|]. pose proof (progress_range (w_mem w) (current + Size4KiB)).
       unfold Size4KiB in *. dlia. }
  pose proof (lookup_page_inv _ _ _ _ _ _ _ Hl) as [Hn _]. destruct (_ && _) eqn:Eb.
  - apply andb_true_iff in Eb as [E1 E2]. bool_to_prop.
    destruct (clear_inv_clear k current w used n l Hi Hl E1 E2) as (m' & Er & Hi'). rewrite (fal_bind_ok _ _ _ _ _ Er).
    apply (IH k _ _ used Hi'). pose proof (progress_range m' (current + depth_size n)). cbn [w_mem].
    assert (4096 ≤ depth_size n ∧ depth_size n mod 4096 = 0) as [Hsz Hsm] by (depths n; [lia|..]; by vm_compute). dlia.
  - assert (current mod depth_size n ≠ 0 ∨ end_ < current + depth_size n) as Hwhy.
    { apply andb_false_iff in Eb as [Eb|Eb]; bool_to_prop; auto. }
    assert (n ≤ 2)%nat as Hn2.
    { destruct (decide (n = 3%nat)) as [->|]; [|lia]. exfalso. revert Hwhy. sizes. dlia. }
    pose proof (clear_inv_why k current w used n l Hi ltac:(lia) Hl Hwhy) as Hth.
    destruct (clear_inv_smash k current w used current n l Hi ltac:(lia) Hn2 Hl Hth) as (k' & h' & m' & used' & Er & Hi' & Hd).
    rewrite (fal_bind_ok _ _ _ _ _ Er). destruct (IH k' current _ used' Hi') as (k2 & w2 & used2 & E2 & Hi2 & Hs2).
    2: { exists k2, w2, used2. split; [exact E2|]. split; [exact Hi2|]. cbn [w_self] in Hs2. etransitivity; [by exists h'|exact Hs2]. }
    revert Hf. unfold progress. cbn [w_mem]. rewrite Hd. unfold KvmPaging.page_depth. rewrite Hl. cbn. lia.
Qed.

Lemma clear_inv_start (w : world S_) used : w_mem w = m0 → tables_wf m0 root → tables_in root m0 used →
  supplies avoid 4 (heap w) used → Forall (λ t, t ∉ avoid) used → clear_inv 4 start w used.
Proof.
  destruct w as [s m]. cbn [w_mem w_self]. intros -> Hwf Hin Hsup Hav. split; [lia|lia|done|done| |done|done|by left|].
  - assert (∀ va, splits_left m0 va ≤ 2)%nat as Hx.
    { intros va. unfold splits_left, KvmPaging.page_depth. destruct (lookup_page m0 root va) as [[n l]|] eqn:Hl; cbn; [|lia].
      apply lookup_page_inv in Hl as [Hn _]. lia. }
    pose proof (Hx start). pose proof (Hx last). cbn [w_mem]. lia.
  - intros va _. by rewrite decide_False by lia.
Qed.

(** The rest of the state does not matter. *)
Lemma clear_inv_self k current w used s : clear_inv k current w used → allocator (kv_alloc s) = heap w →
  clear_inv k current (mkWorld s (w_mem w)) used.
Proof. intros [? ? ? ? ? ? ? ? ?] Hh. split; cbn [w_mem w_self]; [done..| |done|done|done]. by rewrite Hh. Qed.

(** C15: making a range readable by the host.  For a range of whole pages of the shim that
    is mapped with the encryption bit, the loop ends without an error, needing at most
    four new tables for pages that only partly belong to the range.  Then exactly the
    addresses of the range have lost the encryption bit: all others, and all rights,
    are as before. *)
Theorem clear_range_exact fuel (w : world S_) used : w_mem w = m0 → tables_wf m0 root → tables_in root m0 used →
  supplies avoid 4 (heap w) used → Forall (λ t, t ∉ avoid) used → 3 * ((end_ - start) / 4096) + 3 ≤ Z.of_nat fuel →
  ∃ w', clear_c_bit_address_range cr3 fuel start end_ w = Return (Ok (inl ()), w') ∧ tables_wf (w_mem w') root ∧
    ∀ va, canonical va → translation (w_mem w') root va =
      if decide (start ≤ va < end_) then decrypted cbit <$> translation m0 root va else translation m0 root va.
Proof.
  intros Em Hwf Hin Hsup Hav Hf. pose proof (progress_range (w_mem w) start).
  destruct (clear_loop fuel 4 start w used) as (k' & w' & used' & Er & [? ? ? ? ? ? ? ? Htr] & _);
    [by apply clear_inv_start|lia|by exists w'].
Qed.

End run.
