(* ===== verification/KvmBootMap.v ===== *)
(** * The address space of the KVM shim

    The page tables of the image ([pagetables.rs]) after the boot code ([main.rs]) and
    [unmap_identity]: physical memory is at [SHIM_VIRT_OFFSET], encrypted, and nothing
    else is mapped. *)

From S2P Require Import Prelude Memory Libc PhaseAlloc StagedValues Items Calls CallLaws StageKit.
From S2P Require Import SockTypes Syscalls Stubs SyscallLaws NumberCalls Platform Handler HandlerCalls.
From S2P Require Import KvmMachine Ghcb KvmHostcall KvmAlloc KvmBootTables KvmPaging KvmPagingLaws KvmSplit KvmClear.

Lemma land_all_mask M v l : l ≠ [] → Forall (λ e, Z.land e M = v) l → Z.land (foldr Z.land (-1) l) M = v.
Proof.
  intros Hne Hl. induction Hl as [|e l He Hl IH]; [done|]. cbn [foldr]. destruct l as [|e' l].
  - cbn [foldr]. by rewrite Z.land_m1_r.
  - rewrite <- Z.land_assoc, IH by done. rewrite <- He at 1. by rewrite Z.land_assoc, Z.land_diag.
Qed.

Lemma lor_all_mask M l : Forall (λ e, Z.land e M = 0) l → Z.land (foldr Z.lor 0 l) M = 0.
Proof. intros Hl. induction Hl as [|e l He Hl IH]; [done|]. cbn [foldr]. by rewrite Z.land_lor_distr_l, He, IH. Qed.

(** The parts of an address of the shim *)
Lemma shim_index_1g va : SHIM_VIRT_OFFSET ≤ va < 2 ^ 64 → va - SHIM_VIRT_OFFSET = index 1 va * BYTES_1_GIB + va mod depth_size 1.
Proof. unfold index, BYTES_1_GIB, SHIM_VIRT_OFFSET. sizes. intros H. dlia. Qed.

Lemma shim_index_2m va : SHIM_VIRT_OFFSET ≤ va < 2 ^ 64 → index 1 va = 3 →
  va - SHIM_VIRT_OFFSET = 0xc0000000 + index 2 va * BYTES_2_MIB + va mod depth_size 2.
Proof.
  intros H E. rewrite (shim_index_1g va H), E, (offset_S 1 va) by lia. unfold BYTES_1_GIB, BYTES_2_MIB. sizes. lia.
Qed.

Lemma shim_index_4k va : SHIM_VIRT_OFFSET ≤ va < 2 ^ 64 → index 1 va = 3 → index 2 va = 511 →
  va - SHIM_VIRT_OFFSET = 0xffe00000 + index 3 va * Size4KiB + va mod depth_size 3.
Proof.
  intros H E1 E2. rewrite (shim_index_2m va H E1), E2, (offset_S 2 va) by lia. unfold BYTES_2_MIB, Size4KiB. sizes. lia.
Qed.

Section map.
Context {L P E : Type} `{Image}.
Abbreviation S_ := (kvm L P E).
Abbreviation cbit := get_cbit_mask.
Abbreviation base := SHIM_VIRT_OFFSET.

Variables PML4T PDPT PDT PT : Z.
Hypothesis Hbit : cbit_ok cbit.

(** The tables are pages of the image, which is below 4 GiB. *)
Definition placed (T : Z) : Prop := 0 ≤ T ∧ T + 4096 ≤ 2 ^ 32 ∧ T mod 4096 = 0.
Hypothesis Hplaced : Forall placed [PML4T; PDPT; PDT; PT].
Hypothesis Hapart : tables_apart PML4T PDPT PDT PT.

Definition shim_entry (pa flags : Z) : Z := link_entry (base + pa) flags.

(** ** Entries *)

Lemma in_shim pa : 0 ≤ pa → pa + 4096 ≤ 2 ^ 39 → pa mod 4096 = 0 → shim_page (base + pa).
Proof. intros H1 H2 H3. unfold shim_page, SHIM_VIRT_OFFSET. split; [dlia|lia]. Qed.

Lemma shim_entry_addr pa f : 0 ≤ pa → pa + 4096 ≤ 2 ^ 39 → pa mod 4096 = 0 → is_flags f →
  Z.land (shim_entry pa f) ADDR_MASK = pa + cbit ∧ Z.land (shim_entry pa f) FLAGS_MASK = f ∧
  (∀ i, 0 ≤ i → Z.testbit ADDR_MASK i = false → Z.testbit (shim_entry pa f) i = Z.testbit f i).
Proof.
  intros H1 H2 H3 Hf. destruct (link_addr Hbit (base + pa) (in_shim pa H1 H2 H3)) as (Ha & Hc & Hd).
  replace (base + pa - base) with pa in * by lia. unfold shim_entry, link_entry. replace (base + pa - base) with pa by lia.
  rewrite ldiff_sub, Hc in Hd. split; [|split].
  - rewrite addr_of_lor by done. lia.
  - by apply flags_of_lor.
  - intros i Hi Hi'. by apply flag_of_lor.
Qed.

Lemma table_entry_shim T : placed T → table_entry T cbit = shim_entry T 3.
Proof. intros _. unfold table_entry, shim_entry, link_entry. by replace (base + T - base) with T by lia. Qed.

(** An entry of the image with the encryption bit *)
Lemma page_entry_shim pa f : 0 ≤ pa → pa mod 4096 = 0 → 0 ≤ f < 4096 → Z.lor (f + pa) cbit = shim_entry pa f.
Proof.
  intros H1 H2 Hf. unfold shim_entry, link_entry. replace (base + pa - base) with pa by lia.
  rewrite (Z.add_nocarry_lor f pa).
  - by rewrite <- Z.lor_assoc, (Z.lor_comm f).
  - replace pa with (Z.shiftl (pa / 4096) 12) by (rewrite Z.shiftl_mul_pow2 by lia; dlia).
    apply Z.bits_inj'. intros i Hi. rewrite Z.land_spec, Z.bits_0. destruct (decide (i < 12)).
    + rewrite Z.shiftl_spec_low by lia. by rewrite andb_false_r.
    + rewrite <- (Z.mod_small f (2 ^ 12)), Z.mod_pow2_bits_high by lia. done.
Qed.

(** ** The tables of the shim *)

Record mapped_tables (m : mem) : Prop := {
  mt_mem : mem_wf m;
  mt_pml4 : ∀ i, 0 ≤ i < 512 → entry m (base + PML4T) i = if decide (i = 511) then shim_entry PDPT 3 else 0;
  mt_pdpt : ∀ i, 0 ≤ i < 512 → entry m (base + PDPT) i =
    if decide (i = 3) then shim_entry PDT 3 else shim_entry (i * BYTES_1_GIB) 0x83;
  mt_pdt : ∀ i, 0 ≤ i < 512 → entry m (base + PDT) i =
    if decide (i = 511) then shim_entry PT 3 else shim_entry (0xc0000000 + i * BYTES_2_MIB) 0x83;
  mt_pt : ∀ i, 0 ≤ i < 512 → entry m (base + PT) i = shim_entry (0xffe00000 + i * Size4KiB) 3;
}.

Lemma placed_link T n : placed T → (n ≤ 2)%nat →
  links (shim_entry T 3) = true ∧ table_of cbit base (shim_entry T 3) = base + T ∧ entry_ok cbit n (shim_entry T 3) ∧
  (n ≠ 0%nat → is_page n (shim_entry T 3) = false).
Proof.
  intros (H1 & H2 & H3) Hn. pose proof (in_shim T H1 ltac:(lia) H3) as Hs.
  destruct (link_entry_ok Hbit n (base + T) 3 Hn Hs ltac:(done) ltac:(done)) as (Hl & Ht & He). change (no_huge 3) with 3 in *.
  split; [exact Hl|]. split; [exact Ht|]. split; [exact He|]. intros Hn0. apply page_links; [lia|exact Hl].
Qed.

Lemma cbit_mod n : (1 ≤ n ≤ 3)%nat → cbit mod depth_size n = 0.
Proof.
  intros Hn. destruct Hbit as [-> |(k & Hk & ->)]; [apply Z.mod_0_l; unfold depth_size; lia|]. unfold depth_size.
  replace k with (39 - 9 * Z.of_nat n + (k - (39 - 9 * Z.of_nat n))) by lia.
  rewrite Z.pow_add_r, Z.mul_comm by lia. apply Z.mod_mul. lia.
Qed.

(** Pages of the shim *)
Definition page_flags (n : nat) : Z := match n with 3%nat => 3 | _ => 0x83 end.

Lemma shim_page_ok n pa : (1 ≤ n ≤ 3)%nat → 0 ≤ pa → pa + 4096 ≤ 2 ^ 39 → pa mod depth_size n = 0 →
  is_page n (shim_entry pa (page_flags n)) = true ∧ entry_ok cbit n (shim_entry pa (page_flags n)) ∧
  Z.land (shim_entry pa (page_flags n)) ADDR_MASK = pa + cbit ∧
  no_huge (Z.land (shim_entry pa (page_flags n)) FLAGS_MASK) = 3.
Proof.
  intros Hn H1 H2 H3. assert (pa mod 4096 = 0) as H4 by (destruct n as [|[|[|[|n]]]]; [lia|..|lia]; revert H3; sizes; intros; dlia).
  assert (is_flags (page_flags n)) as Hf by (by destruct n as [|[|[|[|n]]]]).
  destruct (shim_entry_addr pa (page_flags n) H1 H2 H4 Hf) as (Ha & Hfl & Hb).
  assert (is_page n (shim_entry pa (page_flags n)) = true) as Hp.
  { unfold is_page, is_present, is_huge. rewrite !Hb by done. by destruct n as [|[|[|[|n]]]]; [lia|..|lia]. }
  split; [exact Hp|]. split; [|split; [exact Ha|]].
  - right. rewrite Hp, Ha. split; [by unfold is_page in Hp; apply andb_true_iff in Hp as [? _]|].
    rewrite Z.add_mod, H3, cbit_mod by (done || (unfold depth_size; lia)). apply Z.mod_0_l. unfold depth_size. lia.
  - rewrite Hfl. by destruct n as [|[|[|[|n]]]].
Qed.

(** The rights of an entry of the shim *)
Lemma shim_rights pa f : 0 ≤ pa → pa + 4096 ≤ 2 ^ 39 → pa mod 4096 = 0 → f = 3 ∨ f = 0x83 →
  Z.land (shim_entry pa f) (Z.lor WRITABLE USER_ACCESSIBLE) = WRITABLE ∧ Z.land (shim_entry pa f) NO_EXECUTE = 0.
Proof.
  intros H1 H2 H3 Hf. assert (is_flags f) as Hfl by (by destruct Hf as [-> | ->]).
  destruct (shim_entry_addr pa f H1 H2 H3 Hfl) as (_ & Hx & _).
  assert (∀ M, Z.land FLAGS_MASK M = M → Z.land (shim_entry pa f) M = Z.land f M) as Hm.
  { intros M HM. rewrite <- HM, Z.land_assoc, Hx. by rewrite Z.land_assoc, Hfl. }
  rewrite !Hm by done. by destruct Hf as [-> | ->].
Qed.

Definition shim_translation (va : Z) : Translation := mkTranslation (va - base + cbit) (Z.lor WRITABLE PRESENT) WRITABLE 0.

Lemma shim_page_translation n va pa path : (1 ≤ n ≤ 3)%nat → 0 ≤ pa → pa + 4096 ≤ 2 ^ 39 → pa mod depth_size n = 0 →
  va - base = pa + va mod depth_size n →
  Forall (λ e, ∃ T, placed T ∧ e = shim_entry T 3) path →
  page_translation n va (shim_entry pa (page_flags n)) path = shim_translation va.
Proof.
  intros Hn H1 H2 H3 Hva Hpath. destruct (shim_page_ok n pa Hn H1 H2 H3) as (_ & _ & Ha & Hf).
  assert (Forall (λ e, Z.land e (Z.lor WRITABLE USER_ACCESSIBLE) = WRITABLE ∧ Z.land e NO_EXECUTE = 0) (path ++ [shim_entry pa (page_flags n)])) as Hall.
  { apply Forall_app. split.
    - eapply Forall_impl; [exact Hpath|]. intros e (T & (T1 & T2 & T3) & ->). apply shim_rights; [lia|lia|done|by left].
    - constructor; [|done]. apply shim_rights; [lia|lia| |by destruct n as [|[|[|[|n]]]]; auto].
      destruct n as [|[|[|[|n]]]]; [lia|..|lia]; revert H3; sizes; intros; dlia. }
  apply Forall_and in Hall as [Hw Hx]. unfold page_translation, shim_translation. f_equal.
  - rewrite Ha. unfold align_down. rewrite Z.add_mod, H3, cbit_mod, Z.add_0_l, Z.mod_0_l by (done || (unfold depth_size; lia)). lia.
  - exact Hf.
  - apply land_all_mask; [by destruct path|exact Hw].
  - by apply lor_all_mask.
Qed.

Section tables.
Variable m : mem.
Hypothesis Hm : mapped_tables m.
Abbreviation root := (base + PML4T).
Abbreviation node := (node cbit base m root).
Abbreviation e3 := (shim_entry PDPT 3).
Abbreviation e2 := (shim_entry PDT 3).
Abbreviation e1 := (shim_entry PT 3).

Lemma shim_node1 va : node 1 va = if decide (index 0 va = 511) then Some (base + PDPT, [e3]) else None.
Proof.
  rewrite (node_S _ _ _ _ 0 va root []) by done. rewrite (mt_pml4 m Hm) by apply index_range. case_decide; [|done].
  rewrite !Forall_cons in Hplaced. destruct Hplaced as (_ & Hp & _). by destruct (placed_link PDPT 0 Hp ltac:(lia)) as (-> & -> & _).
Qed.

Lemma shim_node2 va : node 2 va = if decide (index 0 va = 511 ∧ index 1 va = 3) then Some (base + PDT, [e3; e2]) else None.
Proof.
  destruct (decide (index 0 va = 511)) as [E0|E0].
  2: { rewrite decide_False by tauto. pose proof (shim_node1 va) as Hn. rewrite decide_False in Hn by done.
       cbn [KvmPaging.node] in Hn |- *. by rewrite Hn. }
  pose proof (shim_node1 va) as Hn. rewrite decide_True in Hn by done. rewrite (node_S _ _ _ _ 1 va _ _ Hn).
  rewrite (mt_pdpt m Hm) by apply index_range. rewrite !Forall_cons in Hplaced. destruct Hplaced as (_ & _ & Hp & _).
  destruct (decide (index 1 va = 3)) as [E1|E1].
  - rewrite decide_True by done. by destruct (placed_link PDT 1 Hp ltac:(lia)) as (-> & -> & _).
  - rewrite decide_False by tauto. destruct (links _) eqn:El; [|done]. unfold links, is_huge in El.
    pose proof (index_range 1 va). destruct (shim_entry_addr (index 1 va * BYTES_1_GIB) 0x83) as (_ & _ & Hb); [unfold BYTES_1_GIB; dlia..|done|].
    rewrite (Hb 7) in El by done. by rewrite andb_false_r in El.
Qed.

Lemma shim_node3 va : node 3 va =
  if decide (index 0 va = 511 ∧ index 1 va = 3 ∧ index 2 va = 511) then Some (base + PT, [e3; e2; e1]) else None.
Proof.
  pose proof (shim_node2 va) as Hn. destruct (decide (index 0 va = 511 ∧ index 1 va = 3)) as [E01|E01].
  2: { rewrite decide_False by tauto. cbn [KvmPaging.node] in Hn |- *. by rewrite Hn. }
  rewrite (node_S _ _ _ _ 2 va _ _ Hn), (mt_pdt m Hm) by apply index_range.
  rewrite !Forall_cons in Hplaced. destruct Hplaced as (_ & _ & _ & Hp & _). destruct (decide (index 2 va = 511)) as [E2|E2].
  - rewrite decide_True by tauto. by destruct (placed_link PT 2 Hp ltac:(lia)) as (-> & -> & _).
  - rewrite decide_False by tauto. destruct (links _) eqn:El; [|done]. unfold links, is_huge in El.
    pose proof (index_range 2 va). destruct (shim_entry_addr (0xc0000000 + index 2 va * BYTES_2_MIB) 0x83) as (_ & _ & Hb); [unfold BYTES_2_MIB; dlia..|done|].
    rewrite (Hb 7) in El by done. by rewrite andb_false_r in El.
Qed.

(** All tables that can be reached *)
Lemma shim_node_inv n va t p : (n ≤ 3)%nat → node n va = Some (t, p) →
  (n = 0%nat ∧ t = root ∧ prefix 0 va = 0) ∨ (n = 1%nat ∧ t = base + PDPT ∧ prefix 1 va = 511) ∨
  (n = 2%nat ∧ t = base + PDT ∧ prefix 2 va = 511 * 512 + 3) ∨
  (n = 3%nat ∧ t = base + PT ∧ prefix 3 va = (511 * 512 + 3) * 512 + 511).
Proof.
  assert (prefix 0 va = 0) as P0 by (unfold prefix; apply Z.div_small; change (48 - 9 * Z.of_nat 0) with 48; apply Z.mod_pos_bound; lia).
  intros Hn Ht. destruct n as [|[|[|[|n]]]]; [| | | |lia].
  - left. by inv Ht.
  - right. left. rewrite shim_node1 in Ht. case_decide as E0; [|done]. inv Ht. rewrite prefix_S, P0, E0 by lia. done.
  - right. right. left. rewrite shim_node2 in Ht. case_decide as E0; [|done]. destruct E0 as [E0 E1]. inv Ht.
    rewrite !prefix_S, P0, E0, E1 by lia. done.
  - right. right. right. rewrite shim_node3 in Ht. case_decide as E0; [|done]. destruct E0 as (E0 & E1 & E2). inv Ht.
    rewrite !prefix_S, P0, E0, E1, E2 by lia. done.
Qed.

(** The entries that are found on the way *)
Lemma shim_page_entry n va : (1 ≤ n ≤ 3)%nat →
  let pa := match n with 1%nat => index 1 va * BYTES_1_GIB | 2%nat => 0xc0000000 + index 2 va * BYTES_2_MIB
                       | _ => 0xffe00000 + index 3 va * Size4KiB end in
  0 ≤ pa ∧ pa + 4096 ≤ 2 ^ 39 ∧ pa mod depth_size n = 0.
Proof.
  intros Hn. pose proof (index_range n va) as Hi. destruct n as [|[|[|[|n]]]]; [lia|..|lia]; cbv zeta;
    unfold BYTES_1_GIB, BYTES_2_MIB, Size4KiB; sizes; dlia.
Qed.

Lemma shim_entries n va t p : (n ≤ 3)%nat → node n va = Some (t, p) → entry_ok cbit n (entry m t (index n va)).
Proof.
  intros Hn Ht. pose proof Hplaced as Hpl. rewrite !Forall_cons in Hpl. destruct Hpl as (_ & HP3 & HP2 & HP1 & _).
  destruct (shim_node_inv n va t p Hn Ht) as [(-> & -> & _)|[(-> & -> & _)|[(-> & -> & _)|(-> & -> & _)]]].
  - rewrite (mt_pml4 m Hm) by apply index_range. case_decide; [apply (placed_link PDPT 0 HP3); lia|by left].
  - rewrite (mt_pdpt m Hm) by apply index_range. case_decide; [apply (placed_link PDT 1 HP2); lia|].
    destruct (shim_page_entry 1 va ltac:(lia)) as (H1 & H2 & H3). apply (shim_page_ok 1 _ ltac:(lia) H1 H2 H3).
  - rewrite (mt_pdt m Hm) by apply index_range. case_decide; [apply (placed_link PT 2 HP1); lia|].
    destruct (shim_page_entry 2 va ltac:(lia)) as (H1 & H2 & H3). apply (shim_page_ok 2 _ ltac:(lia) H1 H2 H3).
  - rewrite (mt_pt m Hm) by apply index_range.
    destruct (shim_page_entry 3 va ltac:(lia)) as (H1 & H2 & H3). apply (shim_page_ok 3 _ ltac:(lia) H1 H2 H3).
Qed.

Lemma shim_tables_wf : tables_wf cbit base m root.
Proof.
  pose proof Hplaced as Hpl. rewrite !Forall_cons in Hpl. destruct Hpl as ((R1 & R2 & R3) & _).
  split; [apply Hm|unfold SHIM_VIRT_OFFSET; dlia|apply shim_entries|].
  intros n n' va va' t p p' Hn Hn' Ht Ht'. destruct Hapart as [A1 A2 A3 A4 A5 A6]. unfold KvmBootTables.apart in *.
  destruct (shim_node_inv n va t p Hn Ht) as [(-> & -> & X)|[(-> & -> & X)|[(-> & -> & X)|(-> & -> & X)]]],
    (shim_node_inv n' va' _ p' Hn' Ht') as [(-> & Et & X')|[(-> & Et & X')|[(-> & Et & X')|(-> & Et & X')]]];
    try (exfalso; lia); (split; [done|congruence]).
Qed.

(** Every address of the shim has a page, and no other one *)
Lemma shim_translates va : canonical va → translation cbit base m root va = if base <=? va then Some (shim_translation va) else None.
Proof.
  intros Hva. pose proof Hplaced as Hpl. rewrite !Forall_cons in Hpl. destruct Hpl as (_ & HP3 & HP2 & HP1 & _).
  assert (index 0 va = 511 ↔ base ≤ va) as H0.
  { unfold index, canonical, SHIM_VIRT_OFFSET in *. sizes. split; intros; dlia. }
  pose proof (shim_node1 va) as N1. pose proof (shim_node2 va) as N2. pose proof (shim_node3 va) as N3. unfold translation.
  destruct (base <=? va) eqn:Eb; bool_to_prop.
  2: { unfold lookup_page, page. rewrite N1, N2, N3, !decide_False by lia. done. }
  rewrite decide_True in N1 by lia. assert (base ≤ va < 2 ^ 64) as Hr by (unfold canonical in Hva; lia).
  assert (∀ n pa path, (1 ≤ n ≤ 3)%nat → 0 ≤ pa → pa + 4096 ≤ 2 ^ 39 → pa mod depth_size n = 0 → va - base = pa + va mod depth_size n →
    Forall (λ e, ∃ T, placed T ∧ e = shim_entry T 3) path →
    page cbit base m root n va = Some (shim_entry pa (page_flags n), path) →
    (λ '(n, (e, path)), page_translation n va e path) <$> lookup_page cbit base m root va = Some (shim_translation va)) as Hfound.
  { intros n pa path Hn P1 P2 P3 P4 P5 Hp. rewrite (page_lookup _ _ _ _ n _ _ Hn Hp). cbn. f_equal. by apply shim_page_translation. }
  destruct (decide (index 1 va = 3)) as [E1|E1].
  2: { destruct (shim_page_entry 1 va ltac:(lia)) as (H1 & H2 & H3). eapply (Hfound 1%nat _ [e3]); [lia|exact H1|exact H2|exact H3| | |].
       - by apply shim_index_1g.
       - constructor; [by exists PDPT|done].
       - unfold page. rewrite N1. cbn. rewrite (mt_pdpt m Hm), decide_False by (done || apply index_range).
         change 0x83 with (page_flags 1). by rewrite (proj1 (shim_page_ok 1 _ ltac:(lia) H1 H2 H3)). }
  rewrite decide_True in N2 by lia. destruct (decide (index 2 va = 511)) as [E2|E2].
  - rewrite decide_True in N3 by lia. destruct (shim_page_entry 3 va ltac:(lia)) as (H1 & H2 & H3).
    eapply (Hfound 3%nat _ [e3; e2; e1]); [lia|exact H1|exact H2|exact H3| | |].
    + by apply shim_index_4k.
    + by repeat (constructor; [eexists; split; [|reflexivity]; done|]).
    + unfold page. rewrite N3. cbn. rewrite (mt_pt m Hm) by apply index_range.
      change 3 with (page_flags 3) at 1. by rewrite (proj1 (shim_page_ok 3 _ ltac:(lia) H1 H2 H3)).
  - destruct (shim_page_entry 2 va ltac:(lia)) as (H1 & H2 & H3).
    eapply (Hfound 2%nat _ [e3; e2]); [lia|exact H1|exact H2|exact H3| | |].
    + by apply shim_index_2m.
    + by repeat (constructor; [eexists; split; [|reflexivity]; done|]).
    + unfold page. rewrite N2. cbn. rewrite (mt_pdt m Hm), decide_False by (done || apply index_range).
      change 0x83 with (page_flags 2). by rewrite (proj1 (shim_page_ok 2 _ ltac:(lia) H1 H2 H3)).
Qed.

End tables.

(** ** From the image to the address space *)

(** [cr3] holds the root with the encryption bit. *)
Lemma shim_pagetable : SHIM_PAGETABLE (Z.lor PML4T cbit) = Return (base + PML4T).
Proof.
  rewrite !Forall_cons in Hplaced. destruct Hplaced as ((R1 & R2 & R3) & _).
  destruct (link_addr Hbit (base + PML4T) (in_shim PML4T R1 ltac:(lia) R3)) as (Ha & Hc & Hd).
  replace (base + PML4T - base) with PML4T in * by lia. unfold SHIM_PAGETABLE, frame_to_pointer. rewrite Hc, Z.eqb_refl.
  destruct Ha as [Ha _]. rewrite land_u64_not, Hd by (unfold is_usize, usize_MAX; lia).
  apply virt_add_high; unfold SHIM_VIRT_OFFSET; lia.
Qed.

Lemma read_words_at m a n (f : Z → Z) i : read_words m a n = f <$> seqZ 0 n → 0 ≤ i < n → read_usize m (a + 8 * i) = f i.
Proof.
  intros Hw Hi. apply (f_equal (.!! Z.to_nat i)) in Hw. unfold read_words in Hw. rewrite !list_lookup_fmap in Hw.
  rewrite (proj2 (lookup_seqZ 0 n (Z.to_nat i) i)) in Hw by lia. cbn in Hw. by injection Hw.
Qed.

(** The tables as they are loaded *)
Record image_tables (m : mem) : Prop := {
  it_pml4 : read_words m PML4T 512 = PML4T_init;
  it_pdpt : read_words m PDPT 512 = PDPT_init;
  it_pdt : read_words m PDT 512 = PDT_C000_0000_init;
  it_pt : read_words m PT 512 = PT_FFE0_0000_init;
}.

(** The shim sees the words of its tables at its own addresses. *)
Definition seen_at (m m' : mem) : Prop :=
  Forall (λ T, ∀ i, 0 ≤ i < 512 → entry m' (base + T) i = entry m T i) [PML4T; PDPT; PDT; PT].

Lemma booted_tables m m' ms : image_tables m → encrypted PML4T PDPT PDT PT m cbit m' → seen_at m' ms → mem_wf ms →
  mapped_tables (write_usize ms (base + PML4T + 8 * 0) 0).
Proof.
  intros [I4 I3 I2 I1] [[T0 T511] Tr T3 T2 T1] Hs Hw. unfold seen_at in Hs. rewrite !Forall_cons in Hs.
  destruct Hs as (S4 & S3 & S2 & S1 & _). pose proof Hplaced as Hpl. rewrite !Forall_cons in Hpl. destruct Hpl as (P4 & P3 & P2 & P1 & _).
  destruct Hapart as [A1 A2 A3 A4 A5 A6]. unfold KvmBootTables.apart in *. unfold entry in *.
  assert (∀ T i, T ≠ PML4T → placed T → 0 ≤ i < 512 → read_usize (write_usize ms (base + PML4T + 8 * 0) 0) (base + T + 8 * i) = read_usize ms (base + T + 8 * i)) as Hoth.
  { intros T i Hne (_ & _ & HT) Hi. destruct P4 as (_ & _ & H4). apply (entry_other ms (base + PML4T) 0 (base + T) i 0);
      [unfold SHIM_VIRT_OFFSET; dlia..|done|intros [? _]; lia]. }
  split.
  - by apply write_usize_wf.
  - intros i Hi. destruct (decide (i = 0)) as [->|H0]; [by rewrite decide_False by done; apply read_write_usize|].
    destruct P4 as (_ & _ & H4). assert ((base + PML4T) mod 4096 = 0) by (unfold SHIM_VIRT_OFFSET; dlia).
    rewrite entry_other by (done || (intros [_ ?]; lia)). unfold entry. rewrite S4 by done. case_decide as E5.
    + subst i. rewrite T511. by apply table_entry_shim.
    + rewrite Tr by lia. unfold PML4T_init in I4. apply (read_words_at m PML4T 512 (λ _, 0) i); [|done].
      rewrite I4. by vm_compute.
  - intros i Hi. unfold entry. rewrite Hoth, S3, T3 by (done || lia). case_decide; [by apply table_entry_shim|].
    rewrite (read_words_at m PDPT 512 _ i I3 Hi). unfold gen_1gb_pdpt_entries, BYTES_1_GIB. apply page_entry_shim; [lia|dlia|by vm_compute].
  - intros i Hi. unfold entry. rewrite Hoth, S2, T2 by (done || lia). case_decide; [by apply table_entry_shim|].
    rewrite (read_words_at m PDT 512 _ i I2 Hi). unfold gen_2mb_pdt_entries_c000_0000, gen_2mb_pdt_entries, BYTES_2_MIB. cbv zeta.
    rewrite <- Z.add_assoc. apply page_entry_shim; [lia|dlia|by vm_compute].
  - intros i Hi. unfold entry. rewrite Hoth, S1, T1 by (done || lia).
    rewrite (read_words_at m PT 512 _ i I1 Hi). unfold gen_4k_pt_entries_ffe0_0000, gen_4k_pt_entries, Size4KiB. cbv zeta.
    rewrite <- Z.add_assoc. apply page_entry_shim; [lia|dlia|by vm_compute].
Qed.

(** C13: the address space of the shim.  When the boot code has finished the tables of the
    image with the encryption bit, [unmap_identity] leaves well-formed tables.  All of
    physical memory below 512 GiB is at [SHIM_VIRT_OFFSET], writable and with the
    encryption bit, not accessible to the workload; no other address is mapped. *)
Theorem shim_address_space m m' (w : world S_) : image_tables m → encrypted PML4T PDPT PDT PT m cbit m' →
  seen_at m' (w_mem w) → mem_wf (w_mem w) →
  ∃ w', unmap_identity (Z.lor PML4T cbit) w = Return (Ok (), w') ∧ tables_wf cbit base (w_mem w') (base + PML4T) ∧
    ∀ va, canonical va → translation cbit base (w_mem w') (base + PML4T) va =
      if base <=? va then Some (mkTranslation (va - base + cbit) (Z.lor WRITABLE PRESENT) WRITABLE 0) else None.
Proof.
  intros Hi He Hs Hw. pose proof (booted_tables m m' (w_mem w) Hi He Hs Hw) as Hm.
  exists (mkWorld (w_self w) (write_usize (w_mem w) (base + PML4T + 8 * 0) 0)). cbn [w_mem w_self].
  split; [|split; [by apply shim_tables_wf|by intros va; apply shim_translates]].
  unfold unmap_identity. by rewrite shim_pagetable.
Qed.

End map.
