(* ===== verification/KvmShare.v ===== *)
(** * Sharing pages with the hypervisor

    The parts of [crates/shim-kvm/src/snp/ghcb.rs] that give pages to the hypervisor: the
    page of the GHCB itself with the protocol of the register, and other pages with a
    request in the GHCB.  A page is split off, its validation is rescinded, the
    encryption bit of its mapping is cleared, and then the hypervisor is told.

    The laws say what the hypervisor gets, and when: before it is told of a page, the
    validation of the page has been rescinded and its mapping has lost the encryption
    bit, and no other mapping has changed. *)
From S2P Require Import Prelude Memory Libc PhaseAlloc StagedValues Items Calls CallLaws.
From S2P Require Import StageKit SockTypes Syscalls Stubs SyscallLaws NumberCalls Platform.
From S2P Require Import Handler HandlerCalls KvmMachine Ghcb KvmHostcall KvmAlloc KvmPaging.
From S2P Require Import KvmPagingLaws KvmSplit KvmClear.

(** [RmpPgOp] and [RmpPgSize] *)
Definition RmpPgOp_Shared : Z := 2.
Definition RmpPgSize_Size4k : Z := 0.

(** [PscEntry::set_entry] *)
Definition PscEntry_set_entry (cur_page operation pagesize : Z) : Z :=
  Z.lor (Z.lor cur_page (Z.shiftl operation 52)) (Z.shiftl pagesize 56).

(** [SnpPscDesc]: [cur_entry], [end_entry], [reserved] and the entries *)
Definition SnpPscDesc : list Z := [2; 2; 4; 8 * 253].
Definition off_cur_entry : Z := field_offset SnpPscDesc 0.
Definition off_end_entry : Z := field_offset SnpPscDesc 1.
Definition off_reserved : Z := field_offset SnpPscDesc 2.
Definition off_entries : Z := field_offset SnpPscDesc 3.

Definition SNP_PAGE_STATE_SHARED : Z := 2.
Definition SHARED_BIT : Z := Z.shiftl SNP_PAGE_STATE_SHARED PSC_OP_POS.
Definition SVM_VMGEXIT_PSC : Z := 0x80000010.

Section share.
Context {L P E : Type} `{Machine E, Image, HeapOps L, EntryOps}.
Abbreviation S_ := (kvm L P E).
Variable cr3 : Z.

(** The result of a function of [pagetables.rs], unwrapped; the panic of the early
    debugging ends the machine as well. *)
Definition unwrap_paging (m : handlerM S_ (unit + Error)) : handlerM S_ unit :=
  r ← m; match r with inl _ => mret () | inr _ => panic end.

(** The loop of [clear_c_bit_address_range] needs three steps for a page. *)
Definition clear_fuel (npages : Z) : nat := Z.to_nat (3 * npages + 3).

(** What follows the exit: the upper half of the answer is not looked at. *)
Definition psc_answer (ret : Z) : handlerM S_ unit :=
  if negb (Z.land ret PSC_ERROR_MASK =? 0) then panic else mret ().

Definition ghcb_msr_make_page_shared (page_virt : Z) : handlerM S_ unit :=
  _ ← unwrap_paging (smash cr3 page_virt);
  _ ← pvalidate_unwrap page_virt Size4K false;
  page_end ← must (virt_add page_virt Size4KiB);
  _ ← unwrap_paging (clear_c_bit_address_range cr3 (clear_fuel 1) page_virt page_end);
  gpa ← must (virt_sub page_virt SHIM_VIRT_OFFSET);
  let val := Z.lor gpa SHARED_BIT in
  ret ← vmgexit_msr PSC_REQ val PSC_RESP;
  psc_answer ret.

(** [GhcbHandle::new] *)
Definition GhcbHandle_new : handlerM S_ unit :=
  ghcb_virt ← must (VirtAddr_new ghcb_at);
  _ ← ghcb_msr_make_page_shared ghcb_virt;
  gpa ← must (virt_sub ghcb_virt SHIM_VIRT_OFFSET);
  ret ← vmgexit_msr GPA_REQ gpa GPA_RESP;
  if negb (ret =? gpa) then panic else writes ghcb_at (repeat 0 4096).

(** The pages from [a] on, in steps of a page *)
Fixpoint rescind_pages (n : nat) (a : Z) : handlerM S_ unit :=
  match n with
  | O => mret ()
  | S n =>
      virt ← must (VirtAddr_new a);
      _ ← unwrap_paging (smash cr3 virt);
      _ ← pvalidate_unwrap virt Size4K false;
      rescind_pages n (a + Size4KiB)
  end.

Definition psc_at : Z := ghcb_at + off_shared_buffer.

(** [for i in 0..npages { psc_desc.entries[i].set_entry(pa_addr, ..); pa_addr += SIZE; }],
    from the [i]-th entry on *)
Fixpoint set_entries (n : nat) (i pa_addr : Z) : handlerM S_ unit :=
  match n with
  | O => mret ()
  | S n =>
      _ ← writes (psc_at + off_entries + 8 * i)
            (to_le_bytes 8 (PscEntry_set_entry pa_addr RmpPgOp_Shared RmpPgSize_Size4k));
      pa_addr ← must (phys_add pa_addr Size4KiB);
      set_entries n (i + 1) pa_addr
  end.

(** One request; the hypervisor moves [cur_entry] forward. *)
Definition psc_request (cur_entry end_entry : Z) : handlerM S_ unit :=
  _ ← invalidate;
  gpa ← gpa_of psc_at;
  _ ← set_valid off_sw_scratch gpa;
  r ← vmgexit SVM_VMGEXIT_PSC 0 0;
  match r with
  | inr _ => panic
  | inl _ =>
      info2 ← field off_sw_exit_info2;
      if negb (info2 =? 0) then panic
      else
        reserved ← reads (λ m, read_u32 m (psc_at + off_reserved));
        if negb (reserved =? 0) then panic
        else
          new_cur ← reads (λ m, read_u16 m (psc_at + off_cur_entry));
          new_end ← reads (λ m, read_u16 m (psc_at + off_end_entry));
          if (end_entry <? new_end) || (new_cur <? cur_entry) then panic else mret ()
  end.

(** The loop goes on until the hypervisor has passed the last entry. *)
Fixpoint psc_loop (fuel : nat) : handlerM S_ unit :=
  match fuel with
  | O => λ _, Diverged
  | S fuel =>
      cur_entry ← reads (λ m, read_u16 m (psc_at + off_cur_entry));
      end_entry ← reads (λ m, read_u16 m (psc_at + off_end_entry));
      if end_entry <? cur_entry then mret ()
      else _ ← psc_request cur_entry end_entry; psc_loop fuel
  end.

Definition set_memory_shared (fuel : nat) (virt_addr npages : Z) : handlerM S_ unit :=
  size ← unwrap_option (checked_mul Size4KiB npages);
  virt_end ← must (virt_add virt_addr size);
  _ ← rescind_pages (Z.to_nat ((virt_end - virt_addr + Size4KiB - 1) / Size4KiB)) virt_addr;
  _ ← unwrap_paging (clear_c_bit_address_range cr3 (clear_fuel npages) virt_addr virt_end);
  _ ← writes psc_at (repeat 0 2032);
  if 253 <? npages then panic
  else
    _ ← writes (psc_at + off_cur_entry) (to_le_bytes 2 0);
    last ← unwrap_option (checked_sub (npages mod 2 ^ 16) 1);
    _ ← writes (psc_at + off_end_entry) (to_le_bytes 2 last);
    v ← must (virt_sub virt_addr SHIM_VIRT_OFFSET);
    pa_addr ← must (PhysAddr_new v);
    _ ← set_entries (Z.to_nat npages) 0 pa_addr;
    psc_loop fuel.

(** [GhcbExtHandle::init] *)
Definition GhcbExtHandle_init (fuel : nat) : handlerM S_ unit :=
  request_virt ← must (VirtAddr_new request_at);
  _ ← set_memory_shared fuel request_virt 1;
  response_virt ← must (VirtAddr_new response_at);
  set_memory_shared fuel response_virt 1.

End share.

Section share.
Context {L P E : Type} `{Machine E, Image, HeapOps L, EntryOps, !EntryLaws}.
Abbreviation S_ := (kvm L P E).
Variables (cr3 root : Z).
Abbreviation avoid := [ghcb_at].
Abbreviation cbit := get_cbit_mask.
Abbreviation base := SHIM_VIRT_OFFSET.
Abbreviation node := (node cbit base).
Abbreviation tables_wf := (tables_wf cbit base).
Abbreviation translation := (translation cbit base).
Abbreviation lookup_page := (lookup_page cbit base).
Abbreviation heap w := (allocator (kv_alloc (w_self w))).

Hypothesis Hbit : cbit_ok cbit.
Hypothesis Hroot : SHIM_PAGETABLE cr3 = Return root.

(** The instruction rescinds the validation of pages, one after the other. *)
Fixpoint rescinds (n : nat) (a : Z) (e e' : E) : Prop :=
  match n with
  | O => e' = e
  | S n => ∃ ret carry e1, pvalidate_instr (align_down a 4096) 0 0 e = (ret, carry, e1) ∧ as_u32 ret = 0 ∧
      rescinds n (a + Size4KiB) e1 e'
  end.

Lemma pvalidate_run (w : world S_) a ret carry e1 :
  pvalidate_instr (align_down a 4096) 0 0 (kv_env (w_self w)) = (ret, carry, e1) → as_u32 ret = 0 →
  pvalidate_unwrap a Size4K false w = Return (Ok (negb carry), mkWorld (set_env e1 (w_self w)) (w_mem w)).
Proof.
  intros Hp Hr. unfold pvalidate_unwrap, pvalidate, mbind, handlerM_bind, fal_bind. cbn [pvalidate_size]. by rewrite Hp, Hr.
Qed.

(** ** Before the hypervisor is told *)

Section range.
Variables (m0 : mem) (start end_ : Z).
Abbreviation inv := (clear_inv (L := L) (P := P) (E := E) root avoid m0 start end_).
Hypothesis Hstart : 2 ^ 64 - 2 ^ 47 ≤ start ∧ start mod 4096 = 0.
Hypothesis Hend : start ≤ end_ ≤ 2 ^ 64 - 2 ^ 30 ∧ end_ mod 4096 = 0.
Hypothesis Hshort : end_ - start ≤ 2 ^ 21.
Hypothesis Henc : ∀ va, start ≤ va < end_ → ∃ tr, translation m0 root va = Some tr ∧ Z.land (tr_addr tr) cbit = cbit.

Lemma range_encrypted va : start ≤ va < end_ → encrypted_at root m0 va.
Proof. intros Hva tr Htr. destruct (Henc va Hva) as (tr' & E1 & E2). rewrite E1 in Htr. by injection Htr as <-. Qed.

(** A page of the range is split, if it is large. *)
Lemma smash_in_range k w used va : inv k start w used → start ≤ va < end_ → va mod 4096 = 0 →
  ∃ k' h' m' used', unwrap_paging (smash cr3 va) w = Return (Ok (), mkWorld (set_heap h' (w_self w)) m') ∧
    inv k' start (mkWorld (set_heap h' (w_self w)) m') used'.
Proof.
  intros Hi Hva Ha. assert (canonical va) as Hcan by (unfold canonical; lia).
  assert (∃ n l, lookup_page (w_mem w) root va = Some (n, l)) as (n & l & Hl).
  { destruct (Henc va Hva) as (tr & Htr & _). pose proof (ci_tr _ _ _ _ _ _ _ _ _ Hi va Hcan) as Ht. rewrite decide_False, Htr in Ht by lia.
    unfold KvmPaging.translation in Ht. destruct (lookup_page (w_mem w) root va) as [[n l]|]; [by exists n, l|done]. }
  pose proof (lookup_page_inv _ _ _ _ _ _ _ Hl) as [Hn _]. destruct (decide (n = 3%nat)) as [->|Hn3].
  - exists k, (heap w), (w_mem w), used.
    assert (set_heap (heap w) (w_self w) = w_self w) as -> by (by destruct w as [[? ? ? [] ? ? ? ? ? ?] ?]).
    split; [|by destruct w]. unfold unwrap_paging, mbind, handlerM_bind, fal_bind.
    rewrite (smash_unfold cr3 root Hroot w va (ci_wf _ _ _ _ _ _ _ _ _ Hi) Hcan), Hl. by destruct w.
  - destruct (clear_inv_smash cr3 root avoid Hbit Hroot m0 start end_ Hstart Hend range_encrypted k start w used va n l Hi Hva ltac:(lia) Hl)
      as (k' & h' & m' & used' & E1 & Hi' & _).
    + assert (canonical start ∧ canonical (end_ - 4096)) as [Hc1 Hc2] by (unfold canonical; split; dlia).
      rewrite !through_div by (done || lia). destruct n as [|[|[|n]]]; [lia| | |lia]; sizes; dlia.
    + exists k', h', m', used'. split; [|exact Hi']. unfold unwrap_paging, mbind, handlerM_bind, fal_bind. by rewrite E1.
Qed.

Lemma clear_in_range k w used : inv k start w used → ∃ k' h' m' used',
  unwrap_paging (clear_c_bit_address_range cr3 (clear_fuel ((end_ - start) / 4096)) start end_) w =
    Return (Ok (), mkWorld (set_heap h' (w_self w)) m') ∧ inv k' end_ (mkWorld (set_heap h' (w_self w)) m') used'.
Proof.
  intros Hi. pose proof (progress_range root (w_mem w) start) as Hp. assert (0 ≤ (end_ - start) / 4096) by (apply Z.div_pos; lia).
  destruct (clear_loop cr3 root avoid Hbit Hroot m0 start end_ Hstart Hend range_encrypted (clear_fuel ((end_ - start) / 4096)) k start w used Hi)
    as (k' & [s' m'] & used' & Er & Hi' & [h' Hs]); [unfold clear_fuel; lia|].
  cbn [w_self] in Hs. subst s'. exists k', h', m', used'. split; [|exact Hi'].
  unfold unwrap_paging, mbind, handlerM_bind, fal_bind. by rewrite Er.
Qed.

Lemma rescind_run n a k w used e' : inv k start w used → start ≤ a → a + 4096 * Z.of_nat n = end_ → a mod 4096 = 0 →
  rescinds n a (kv_env (w_self w)) e' → ∃ k' h' m' used',
    rescind_pages cr3 n a w = Return (Ok (), mkWorld (set_env e' (set_heap h' (w_self w))) m') ∧
    inv k' start (mkWorld (set_env e' (set_heap h' (w_self w))) m') used'.
Proof.
  revert a k w used. induction n as [|n IH]; intros a k w used Hi Ha He Hal Hr.
  - cbn in Hr. subst e'. exists k, (heap w), (w_mem w), used.
    assert (set_env (kv_env (w_self w)) (set_heap (heap w) (w_self w)) = w_self w) as -> by (by destruct w as [[? ? ? [] ? ? ? ? ? ?] ?]).
    by destruct w.
  - destruct Hr as (ret & carry & e1 & Hp & H0r & Hrest). cbn [rescind_pages].
    run_must (VirtAddr_new_high a ltac:(lia)).
    destruct (smash_in_range k w used a Hi ltac:(lia) Hal) as (k1 & h1 & m1 & used1 & E1 & Hi1). rewrite (fal_bind_ok _ _ _ _ _ E1).
    rewrite (fal_bind_ok _ _ _ _ _ (pvalidate_run (mkWorld (set_heap h1 (w_self w)) m1) a ret carry e1 Hp H0r)). cbn [w_self w_mem].
    apply (clear_inv_self _ _ _ _ _ _ _ _ _ (set_env e1 (set_heap h1 (w_self w)))) in Hi1; [|done]. cbn [w_mem] in Hi1.
    destruct (IH (a + Size4KiB) k1 _ used1 Hi1) as (k2 & h2 & m2 & used2 & E2 & Hi2); [unfold Size4KiB; lia..|unfold Size4KiB; dlia|exact Hrest|].
    by exists k2, h2, m2, used2.
Qed.

End range.

(** ** The page of the GHCB *)

Lemma psc_accepts msr : (PSC_RESP =? Z.land msr 0xFFF) && (Z.land (Z.land msr (Z.lxor usize_MAX 0xFFF)) PSC_ERROR_MASK =? 0) =
  (Z.land msr 0xFFFFFFFF =? PSC_RESP).
Proof.
  rewrite <- Z.land_assoc. change (Z.land (Z.lxor usize_MAX 0xFFF) PSC_ERROR_MASK) with (Z.shiftl (Z.ones 20) 12).
  assert (Z.land msr (Z.shiftl (Z.ones 20) 12) = msr / 2 ^ 12 mod 2 ^ 20 * 2 ^ 12) as ->.
  { rewrite <- Z.shiftr_div_pow2, <- (Z.shiftl_mul_pow2 _ 12), <- Z.land_ones by lia. apply Z.bits_inj'. intros i Hi.
    rewrite Z.land_spec, !Z.shiftl_spec, Z.land_spec by done. destruct (decide (i < 12)).
    - by rewrite !(Z.testbit_neg_r _ (i - 12)), andb_false_r by lia.
    - rewrite Z.shiftr_spec by lia. by rewrite Z.sub_add. }
  change 0xFFF with (Z.ones 12). change 0xFFFFFFFF with (Z.ones 32). rewrite !Z.land_ones by lia. unfold PSC_RESP.
  apply eq_true_iff_eq. rewrite andb_true_iff, !Z.eqb_eq. split; [intros [? ?]|intros ?; split]; dlia.
Qed.

Lemma vmgexit_psc_run (w : world S_) val : (ret ← vmgexit_msr PSC_REQ val PSC_RESP; psc_answer ret) w =
  let '(msr, e, m) := vmmcall (Z.lor PSC_REQ val) (kv_env (w_self w)) (w_mem w) in
  if Z.land msr 0xFFFFFFFF =? PSC_RESP then Return (Ok (), mkWorld (set_env e (w_self w)) m) else Panicked.
Proof.
  unfold vmgexit_msr, vmm_exit, psc_answer, mbind, handlerM_bind, fal_bind.
  destruct (vmmcall _ _ _) as [[msr e] m]. rewrite <- psc_accepts.
  destruct (PSC_RESP =? _); [|done]. cbn [negb andb]. unfold mret, handlerM_ret, fal_ret. by destruct (Z.land _ PSC_ERROR_MASK =? 0).
Qed.

(** C17: the first page for the hypervisor.  When the page of the GHCB is made shared, its
    validation is rescinded first, and its mapping, and no other one, loses the
    encryption bit; then the hypervisor is asked to change the state of that page.
    Its answer is accepted if the lower half is the expected code; the upper half, in
    which it reports an error, may be anything. *)
Theorem page_shared_exact (w : world S_) v used ret carry e1 : shim_page v → v + 4096 ≤ 2 ^ 64 - 2 ^ 30 →
  tables_wf (w_mem w) root → tables_in root (w_mem w) used → supplies avoid 4 (heap w) used → Forall (λ t, t ∉ avoid) used →
  (∀ va, v ≤ va < v + 4096 → ∃ tr, translation (w_mem w) root va = Some tr ∧ Z.land (tr_addr tr) cbit = cbit) →
  pvalidate_instr v 0 0 (kv_env (w_self w)) = (ret, carry, e1) → as_u32 ret = 0 →
  ∃ h' m', tables_wf m' root ∧
    (∀ va, canonical va → translation m' root va =
      if decide (v ≤ va < v + 4096) then decrypted cbit <$> translation (w_mem w) root va else translation (w_mem w) root va) ∧
    ghcb_msr_make_page_shared cr3 v w =
      let '(msr, e2, m2) := vmmcall (Z.lor PSC_REQ (Z.lor (v - base) (Z.shiftl 2 52))) e1 m' in
      if Z.land msr 0xFFFFFFFF =? PSC_RESP then Return (Ok (), mkWorld (set_env e2 (set_heap h' (w_self w))) m2) else Panicked.
Proof.
  intros (Hva & Hlo & Hhi) Hmax Hwf Hin Hsup Hav Henc Hp Hret. set (m0 := w_mem w) in *.
  assert (2 ^ 64 - 2 ^ 47 ≤ v) as Hv47 by (unfold SHIM_VIRT_OFFSET in Hlo; lia).
  assert (Hs : 2 ^ 64 - 2 ^ 47 ≤ v ∧ v mod 4096 = 0) by done.
  assert (He : v ≤ v + 4096 ≤ 2 ^ 64 - 2 ^ 30 ∧ (v + 4096) mod 4096 = 0) by (split; [lia|dlia]).
  pose proof (clear_inv_start root avoid m0 v (v + 4096) Hs He w used eq_refl Hwf Hin Hsup Hav) as Hi.
  destruct (smash_in_range m0 v (v + 4096) Hs He ltac:(lia) Henc 4 w used v Hi ltac:(lia) Hva) as (k1 & h1 & m1 & used1 & E1 & Hi1).
  apply (clear_inv_self _ _ _ _ _ _ _ _ _ (set_env e1 (set_heap h1 (w_self w)))) in Hi1; [|done]. cbn [w_mem] in Hi1.
  destruct (clear_in_range m0 v (v + 4096) Hs He Henc k1 _ used1 Hi1) as (k2 & h2 & m2 & used2 & E2 & Hi2).
  exists h2, m2. split; [apply Hi2|]. split; [apply Hi2|]. unfold ghcb_msr_make_page_shared.
  rewrite (fal_bind_ok _ _ _ _ _ E1).
  assert (align_down v 4096 = v) as Hal by (unfold align_down; lia).
  rewrite (fal_bind_ok _ _ _ _ _ (pvalidate_run (mkWorld (set_heap h1 (w_self w)) m1) v ret carry e1 ltac:(rewrite Hal; exact Hp) Hret)).
  cbn [w_self w_mem]. run_must (virt_add_high v Size4KiB Hv47 ltac:(done) ltac:(unfold Size4KiB; lia)).
  change Size4KiB with 4096. replace ((v + 4096 - v) / 4096) with 1 in E2 by (replace (v + 4096 - v) with 4096 by lia; done).
  rewrite (fal_bind_ok _ _ _ _ _ E2). run_must (virt_sub_shim v ltac:(lia)).
  exact (vmgexit_psc_run _ _).
Qed.

(** ** Other pages *)

Definition psc_entry (pa : Z) : Z := Z.lor pa (Z.shiftl 2 52).

Lemma psc_entry_usize pa : 0 ≤ pa < 2 ^ 52 → is_usize (psc_entry pa).
Proof.
  intros Hp. unfold psc_entry. rewrite <- Z.add_nocarry_lor.
  - unfold is_usize, usize_MAX. change (Z.shiftl 2 52) with (2 ^ 53). lia.
  - change (Z.shiftl 2 52) with (2 ^ 53). rewrite land_pow2 by lia. by rewrite Z.div_small by lia.
Qed.

Lemma writes_bind {B : Type} a bs (f : unit → handlerM S_ B) (w : world S_) :
  (writes a bs ≫= f) w = f () (mkWorld (w_self w) (write_bytes (w_mem w) a bs)).
Proof. done. Qed.

Lemma mret_bind {A B : Type} (x : A) (f : A → handlerM S_ B) (w : world S_) : ((mret x : handlerM S_ A) ≫= f) w = f x w.
Proof. done. Qed.

Lemma set_entries_run n i pa (w : world S_) : 0 ≤ i → 0 ≤ pa → pa + 4096 * Z.of_nat n < 2 ^ 52 → mem_wf (w_mem w) →
  ∃ m', set_entries n i pa w = Return (Ok (), mkWorld (w_self w) m') ∧ mem_wf m' ∧
    same_outside (psc_at + off_entries + 8 * i) (psc_at + off_entries + 8 * (i + Z.of_nat n)) (w_mem w) m' ∧
    ∀ j, i ≤ j < i + Z.of_nat n → read_usize m' (psc_at + off_entries + 8 * j) = psc_entry (pa + 4096 * (j - i)).
Proof.
  revert i pa w. induction n as [|n IH]; intros i pa w Hi Hpa Hmax Hm.
  { exists (w_mem w). split; [by destruct w|]. split; [done|]. split; [apply same_outside_refl|]. lia. }
  cbn [set_entries]. unfold PscEntry_set_entry, RmpPgOp_Shared, RmpPgSize_Size4k. rewrite Z.shiftl_0_l, Z.lor_0_r. fold (psc_entry pa).
  rewrite writes_bind.
  assert (phys_add pa Size4KiB = Return (pa + 4096)) as Hadd.
  { unfold phys_add, as_u64, Size4KiB. rewrite Z.mod_small by lia. apply PhysAddr_new_ok. lia. }
  run_must Hadd. set (m1 := write_bytes _ _ _).
  destruct (IH (i + 1) (pa + 4096) (mkWorld (w_self w) m1)) as (m' & Er & Hwf & Hs & He); [lia|lia|lia|by apply write_usize_wf|].
  exists m'. split; [exact Er|]. split; [done|]. cbn [w_mem] in Hs. split.
  - intros x Hx. rewrite Hs by lia. apply write_bytes_outside. rewrite length_to_le_bytes. lia.
  - intros j Hj. destruct (decide (j = i)) as [->|Hne].
    + rewrite Z.sub_diag, Z.add_0_r. rewrite <- (read_write_usize (w_mem w) (psc_at + off_entries + 8 * i) (psc_entry pa)) by (apply psc_entry_usize; lia).
      apply read_usize_ext. intros x Hx. apply Hs. lia.
    + rewrite He by lia. f_equal. lia.
Qed.

(** The tables are not in the page of the GHCB. *)
Lemma ghcb_kept m m' used : shim_page ghcb_at → tables_wf m root → tables_in root m used → Forall (λ t, t ∉ avoid) used →
  same_outside ghcb_at (ghcb_at + 4096) m m' → mem_wf m' →
  tables_wf m' root ∧ ∀ va, translation m' root va = translation m root va.
Proof.
  intros (Hga & _) Hwf Hin Hav Hs Hm. apply kept_tables; [done|done|]. intros n va t p i Hn Ht Hi.
  pose proof (node_aligned cr3 root Hbit Hroot m n va t p Hwf Hn Ht) as (Hta & _).
  pose proof (Hin n va t p Hn Ht) as Hu. rewrite Forall_forall in Hav. specialize (Hav t Hu). rewrite list_elem_of_singleton in Hav.
  apply read_usize_ext. intros x Hx. apply Hs. dlia.
Qed.

(** What is written into the shared buffer before the first exit *)
Lemma describe_run (w : world S_) v n : shim_page v → 1 ≤ n ≤ 253 → mem_wf (w_mem w) → ∃ m', (∀ fuel,
  (_ ← writes psc_at (repeat 0 2032);
   if 253 <? n then panic
   else
     _ ← writes (psc_at + off_cur_entry) (to_le_bytes 2 0);
     last ← unwrap_option (checked_sub (n mod 2 ^ 16) 1);
     _ ← writes (psc_at + off_end_entry) (to_le_bytes 2 last);
     v ← must (virt_sub v SHIM_VIRT_OFFSET);
     pa_addr ← must (PhysAddr_new v);
     _ ← set_entries (Z.to_nat n) 0 pa_addr;
     psc_loop fuel) w = psc_loop fuel (mkWorld (w_self w) m')) ∧
  mem_wf m' ∧ same_outside ghcb_at (ghcb_at + 4096) (w_mem w) m' ∧
  read_u16 m' (psc_at + off_cur_entry) = 0 ∧ read_u16 m' (psc_at + off_end_entry) = n - 1 ∧
  ∀ i, 0 ≤ i < n → read_usize m' (psc_at + off_entries + 8 * i) = psc_entry (v - base + 4096 * i).
Proof.
  intros (Hva & Hlo & Hhi) Hn Hm. assert (v - base < 2 ^ 52) as Hlt by (unfold SHIM_VIRT_OFFSET in *; lia).
  set (m1 := write_bytes (write_bytes (write_bytes (w_mem w) psc_at (repeat 0 2032)) (psc_at + off_cur_entry) (to_le_bytes 2 0))
    (psc_at + off_end_entry) (to_le_bytes 2 (n - 1))).
  assert (mem_wf m1) as Hm1.
  { repeat (apply write_bytes_wf; [|apply to_le_bytes_wf]). apply write_bytes_wf; [done|]. apply Forall_forall.
    intros x Hx. apply list_elem_of_In, repeat_spec in Hx. lia. }
  destruct (set_entries_run (Z.to_nat n) 0 (v - base) (mkWorld (w_self w) m1)) as (m' & Er & Hm' & Hs & He);
    [lia|lia|unfold SHIM_VIRT_OFFSET in *; lia|done|].
  exists m'. cbn [w_mem w_self] in Hs, Er. split.
  { intros fuel. rewrite (proj2 (Z.ltb_ge 253 n)) by lia. unfold checked_sub. rewrite Z.mod_small, (proj2 (Z.leb_le 1 n)) by lia.
    cbn [unwrap_option]. rewrite !writes_bind, mret_bind, writes_bind. cbn [w_mem w_self]. fold m1.
    run_must (virt_sub_shim v ltac:(lia)). run_must (PhysAddr_new_ok (v - base) Hlt). by rewrite (fal_bind_ok _ _ _ _ _ Er). }
  unfold psc_at, off_entries, off_shared_buffer, off_cur_entry, off_end_entry, field_offset in *. cbn [take foldr SnpPscDesc Ghcb] in *.
  split; [done|]. split; [|split; [|split]].
  - intros x Hx. rewrite Hs by lia. unfold m1. rewrite !write_bytes_outside; [done|rewrite ?length_to_le_bytes, ?repeat_length; lia..].
  - unfold read_u16. rewrite (read_bytes_ext m1) by (intros x Hx; apply Hs; lia). unfold m1.
    rewrite read_write_disjoint by (right; rewrite length_to_le_bytes; lia) || (left; lia).
    by rewrite read_write_same.
  - unfold read_u16. rewrite (read_bytes_ext m1) by (intros x Hx; apply Hs; lia). unfold m1.
    rewrite read_write_same by done. rewrite from_to_le_bytes. apply Z.mod_small. lia.
  - intros i Hi. rewrite He by lia. f_equal. lia.
Qed.

(** C14: giving pages to the hypervisor.  Before [set_memory_shared] leaves the shim for the
    first time, the validation of each of the pages has been rescinded, their mappings,
    and no others, have lost the encryption bit, and the description in the GHCB
    names these pages, each of them once and in order, to be made shared. *)
Theorem memory_shared_exact (w : world S_) v n used e' : shim_page ghcb_at → shim_page v → 1 ≤ n ≤ 253 →
  v + 4096 * n ≤ 2 ^ 64 - 2 ^ 30 →
  tables_wf (w_mem w) root → tables_in root (w_mem w) used → supplies avoid 4 (heap w) used → Forall (λ t, t ∉ avoid) used →
  (∀ va, v ≤ va < v + 4096 * n → ∃ tr, translation (w_mem w) root va = Some tr ∧ Z.land (tr_addr tr) cbit = cbit) →
  rescinds (Z.to_nat n) v (kv_env (w_self w)) e' →
  ∃ h' m', (∀ fuel, set_memory_shared cr3 fuel v n w = psc_loop fuel (mkWorld (set_env e' (set_heap h' (w_self w))) m')) ∧
    tables_wf m' root ∧
    (∀ va, canonical va → translation m' root va =
      if decide (v ≤ va < v + 4096 * n) then decrypted cbit <$> translation (w_mem w) root va else translation (w_mem w) root va) ∧
    read_u16 m' (psc_at + off_cur_entry) = 0 ∧ read_u16 m' (psc_at + off_end_entry) = n - 1 ∧
    ∀ i, 0 ≤ i < n → read_usize m' (psc_at + off_entries + 8 * i) = Z.lor (v - base + 4096 * i) (Z.shiftl 2 52).
Proof.
  intros Hg Hsv Hn Hmax Hwf Hin Hsup Hav Henc Hr. pose proof Hsv as (Hva & Hlo & Hhi). set (m0 := w_mem w) in *. set (end_ := v + 4096 * n) in *.
  assert (Hs : 2 ^ 64 - 2 ^ 47 ≤ v ∧ v mod 4096 = 0) by (split; [unfold SHIM_VIRT_OFFSET in Hlo; lia|done]).
  assert (He : v ≤ end_ ≤ 2 ^ 64 - 2 ^ 30 ∧ end_ mod 4096 = 0) by (unfold end_; split; [lia|dlia]).
  assert (Hshort : end_ - v ≤ 2 ^ 21) by lia.
  pose proof (clear_inv_start root avoid m0 v end_ Hs He w used eq_refl Hwf Hin Hsup Hav) as Hi.
  destruct (rescind_run m0 v end_ Hs He Hshort Henc (Z.to_nat n) v 4 w used e' Hi ltac:(lia) ltac:(lia) Hva Hr) as (k1 & h1 & m1 & used1 & E1 & Hi1).
  destruct (clear_in_range m0 v end_ Hs He Henc k1 _ used1 Hi1) as (k2 & h2 & m2 & used2 & E2 & Hi2). cbn [w_self] in *.
  set (s2 := set_heap h2 _) in *. change s2 with (set_env e' (set_heap h2 (w_self w))) in *.
  destruct (describe_run (mkWorld (set_env e' (set_heap h2 (w_self w))) m2) v n Hsv Hn (tw_mem _ _ _ _ (ci_wf _ _ _ _ _ _ _ _ _ Hi2)))
    as (m' & Er & Hm' & Hsame & Hd).
  exists h2, m'. cbn [w_mem w_self] in *. split.
  { intros fuel. unfold set_memory_shared, checked_mul. change Size4KiB with 4096.
    rewrite (proj2 (Z.leb_le (4096 * n) usize_MAX)) by (unfold usize_MAX; lia). cbn [unwrap_option]. rewrite mret_bind.
    run_must (virt_add_high v (4096 * n) ltac:(lia) ltac:(lia) ltac:(lia)). fold end_.
    replace ((end_ - v + 4096 - 1) / 4096) with n by (unfold end_; dlia). rewrite (fal_bind_ok _ _ _ _ _ E1).
    replace ((end_ - v) / 4096) with n in E2 by (unfold end_; dlia). rewrite (fal_bind_ok _ _ _ _ _ E2). apply Er. }
  destruct (ghcb_kept m2 m' used2 Hg (ci_wf _ _ _ _ _ _ _ _ _ Hi2) (ci_in _ _ _ _ _ _ _ _ _ Hi2) (ci_avoid _ _ _ _ _ _ _ _ _ Hi2) Hsame Hm') as [Hw' Htr].
  split; [exact Hw'|]. split; [|exact Hd]. intros va Hc. rewrite Htr. by apply Hi2.
Qed.

End share.
