(* ===== verification/KvmPagingSample.v ===== *)
(** * The page tables on an example

    An image with its tables at 64 KiB, an encryption bit, and a heap with free pages:
    the hypotheses of the theorems on page tables hold for the address space that the
    boot code makes of them. *)

From S2P Require Import Prelude Memory Libc PhaseAlloc StagedValues Items Calls CallLaws StageKit.
From S2P Require Import SockTypes Syscalls Stubs SyscallLaws NumberCalls Platform Handler HandlerCalls.
From S2P Require Import KvmMachine Ghcb KvmSample KvmHostcall KvmAlloc KvmBoot KvmBootTables.
From S2P Require Import KvmPaging KvmPagingLaws KvmSplit KvmClear KvmBootMap KvmShare.

#[local] Instance sample_entry_ops : EntryOps := {|
  entry_addr e := Z.land e ADDR_MASK;
  entry_flags e := Z.land e FLAGS_MASK;
  entry_frame e := if negb (is_present e) then inr FrameNotPresent
                   else if is_huge e then inr HugeFrame else inl (Z.land e ADDR_MASK);
  entry_set_addr a f := if a mod 4096 =? 0 then Return (Z.lor a f) else Panicked;
  translate _ m root va := Return (translate_result va (lookup_page get_cbit_mask SHIM_VIRT_OFFSET m root va));
|}.

#[local] Instance sample_entry_laws : EntryLaws.
Proof. split; [done..| |done]. intros a f [_ Ha] _. cbn. by rewrite Ha. Qed.

(** A heap that hands out one page after the other *)
#[local] Instance page_heap : HeapOps Z := {|
  Heap_empty := 0;
  Heap_size h := h;
  Heap_free h := h;
  Heap_init start _ _ := start;
  Heap_extend _ h := h;
  allocate_first_fit _ h := (Some h, h + 4096);
  Heap_deallocate _ _ h := h;
|}.

Lemma page_heap_supplies avoid k h used : shim_page h → h + 4096 * Z.of_nat k ≤ 2 ^ 64 - 4096 → Forall (λ t, t < h) used →
  Forall (λ t, t < h) avoid → supplies avoid k h used.
Proof.
  revert h used. induction k as [|k IH]; intros h used (Ha & Hlo & Hhi) Hmax Hu Hv; [done|].
  exists h, (h + 4096). split; [done|]. split; [done|]. split; [|split].
  - intros Hin. rewrite Forall_forall in Hu. specialize (Hu h Hin). lia.
  - intros Hin. rewrite Forall_forall in Hv. specialize (Hv h Hin). lia.
  - apply IH; [split; [dlia|lia]|lia| |].
    + constructor; [lia|]. eapply Forall_impl; [exact Hu|]. cbn. lia.
    + eapply Forall_impl; [exact Hv|]. cbn. lia.
Qed.

(** ** Memory made of words *)

Definition mem_of_words (f : Z → Z) : mem := λ x, f (x / 8) / 256 ^ (x mod 8) mod 256.

Lemma mem_of_words_wf f : mem_wf (mem_of_words f).
Proof. intros x. apply Z.mod_pos_bound. lia. Qed.

Lemma le_byte n z i : (i < n)%nat → to_le_bytes n z !! i = Some (z / 256 ^ Z.of_nat i mod 256).
Proof.
  revert z i. induction n as [|n IH]; intros z i Hi; [lia|]. destruct i as [|i]; cbn [to_le_bytes lookup list_lookup].
  - by rewrite Z.div_1_r.
  - transitivity (to_le_bytes n (z / 256) !! i); [done|]. rewrite IH by lia. rewrite Nat2Z.inj_succ, Z.pow_succ_r by lia.
    by rewrite Z.div_div by lia.
Qed.

Lemma read_mem_of_words f a : a mod 8 = 0 → is_usize (f (a / 8)) → read_usize (mem_of_words f) a = f (a / 8).
Proof.
  intros Ha Hu. transitivity (from_le_bytes (to_le_bytes 8 (f (a / 8)))); [|by apply from_to_usize]. unfold read_usize. f_equal.
  apply (list_eq_same_length _ _ 8); [by rewrite length_to_le_bytes|by rewrite length_read_bytes|].
  intros i x y Hi. rewrite lookup_read_bytes by lia. intros [= <-]. unfold mem_of_words.
  replace ((a + Z.of_nat i) / 8) with (a / 8) by dlia. replace ((a + Z.of_nat i) mod 8) with (Z.of_nat i) by dlia.
  rewrite le_byte by done. by intros [= <-].
Qed.

(** The image with its tables *)
Definition sample_words (q : Z) : Z :=
  if (0x2200 <=? q) && (q <? 0x2400) then gen_1gb_pdpt_entries (q - 0x2200)
  else if (0x2400 <=? q) && (q <? 0x2600) then gen_2mb_pdt_entries_c000_0000 (q - 0x2400)
  else if (0x2600 <=? q) && (q <? 0x2800) then gen_4k_pt_entries_ffe0_0000 (q - 0x2600)
  else 0.

Lemma sample_words_usize q : is_usize (sample_words q).
Proof.
  unfold sample_words. assert (∀ b (x y : Z), (b = true → is_usize x) → is_usize y → is_usize (if b then x else y)) as Hif.
  { intros [] x y Hx Hy; [by apply Hx|done]. }
  repeat (apply Hif; [intros Hb; apply andb_true_iff in Hb as [H1 H2]; bool_to_prop|]); [..|done].
  all: unfold gen_1gb_pdpt_entries, gen_2mb_pdt_entries_c000_0000, gen_2mb_pdt_entries, gen_4k_pt_entries_ffe0_0000, gen_4k_pt_entries,
    BYTES_1_GIB, BYTES_2_MIB, Size4KiB; change HUGE_PAGE_TABLE_FLAGS with 0x83; change (Z.lor WRITABLE PRESENT) with 3;
    unfold is_usize, usize_MAX; cbv zeta; lia.
Qed.

Lemma sample_read i T : T mod 4096 = 0 → read_usize (mem_of_words sample_words) (T + 8 * i) = sample_words (T / 8 + i).
Proof.
  intros HT. rewrite read_mem_of_words by (dlia || apply sample_words_usize). f_equal. dlia.
Qed.

Lemma in_table lo hi q : lo ≤ q < hi → (lo <=? q) && (q <? hi) = true.
Proof. intros H. by rewrite (proj2 (Z.leb_le _ _)), (proj2 (Z.ltb_lt _ _)) by lia. Qed.
Lemma not_in_table lo hi q : q < lo ∨ hi ≤ q → (lo <=? q) && (q <? hi) = false.
Proof. intros [H|H]; [by rewrite (proj2 (Z.leb_gt _ _)) by lia|by rewrite (proj2 (Z.ltb_ge _ _)), andb_false_r by lia]. Qed.

Lemma sample_image_tables : image_tables 0x10000 0x11000 0x12000 0x13000 (mem_of_words sample_words).
Proof.
  split.
  1: transitivity ((λ _, 0) <$> seqZ 0 512); [|by vm_compute].
  all: unfold read_words, PDPT_init, PDT_C000_0000_init, PT_FFE0_0000_init; apply list_fmap_ext; intros j i Hi;
    apply lookup_seqZ in Hi as [-> Hi]; rewrite sample_read by done; unfold sample_words.
  - change (0x10000 / 8) with 0x2000. by rewrite !not_in_table by lia.
  - change (0x11000 / 8) with 0x2200. rewrite in_table by lia. f_equal. lia.
  - change (0x12000 / 8) with 0x2400. rewrite not_in_table, in_table by lia. f_equal. lia.
  - change (0x13000 / 8) with 0x2600. rewrite !not_in_table, in_table by lia. f_equal. lia.
Qed.

(** After the boot code, and as the shim sees it *)
Definition sample_booted : mem :=
  corrected 0x11000 0x12000 0x13000 (linked 0x10000 0x11000 0x12000 0x13000 (mem_of_words sample_words) (2 ^ 19)) (2 ^ 19).
Definition sample_seen : mem := λ x, sample_booted (x - SHIM_VIRT_OFFSET).

Lemma read_usize_shift m b a : read_usize (λ x, m (x - b)) (b + a) = read_usize m a.
Proof.
  unfold read_usize, read_bytes. f_equal. rewrite <- (fmap_add_seqZ b a 8), <- list_fmap_compose.
  apply list_fmap_ext. intros i x _. cbn. f_equal. lia.
Qed.

Lemma sample_apart : tables_apart 0x10000 0x11000 0x12000 0x13000.
Proof. by split; vm_compute; intuition discriminate. Qed.

Lemma sample_placed : Forall placed [0x10000; 0x11000; 0x12000; 0x13000].
Proof. repeat constructor; vm_compute; intuition discriminate. Qed.

Lemma sample_encrypted : encrypted 0x10000 0x11000 0x12000 0x13000 (mem_of_words sample_words) get_cbit_mask sample_booted.
Proof.
  change get_cbit_mask with (2 ^ 19 * 2 ^ 32).
  apply (tables_encrypted 0x10000 0x11000 0x12000 0x13000 0xFFFFF800); [|apply sample_apart|apply mem_of_words_wf|lia].
  split; [repeat constructor; lia|unfold SHIM_VIRT_OFFSET; lia].
Qed.

Lemma sample_seen_at : seen_at 0x10000 0x11000 0x12000 0x13000 sample_booted sample_seen.
Proof.
  unfold seen_at. rewrite !Forall_cons. unfold entry, sample_seen. split_and!; [..|by constructor];
    intros i Hi; by rewrite <- Z.add_assoc, read_usize_shift.
Qed.

Lemma sample_seen_wf : mem_wf sample_seen.
Proof.
  intros x. unfold sample_seen. generalize (x - SHIM_VIRT_OFFSET).
  change (mem_wf sample_booted). unfold sample_booted, corrected. repeat apply or_entries_wf. apply linked_wf, mem_of_words_wf.
Qed.

Lemma paged_cbit : cbit_ok get_cbit_mask.
Proof. right. exists 51. split; [lia|done]. Qed.

Definition sample_kvm : kvm Z unit hypervisor :=
  mkKvm (mkHypervisor (λ m, m) []) [] (mkBlockGuard 0 None) (mkEnarxAllocator 0 0 0 (SHIM_VIRT_OFFSET + 0x400000)) ()
    (mkLine 0 0) 0 ThreadLocalStorage_new (mkBases 0 0 0) None.
Definition sample_cr3 : Z := Z.lor 0x10000 get_cbit_mask.
Definition sample_root : Z := SHIM_VIRT_OFFSET + 0x10000.

Lemma shim_address_space_witness : ∃ w',
  unmap_identity sample_cr3 (mkWorld sample_kvm sample_seen) = Return (Ok (), w') ∧
  translation get_cbit_mask SHIM_VIRT_OFFSET (w_mem w') sample_root 0x1000 = None ∧
  translation get_cbit_mask SHIM_VIRT_OFFSET (w_mem w') sample_root (SHIM_VIRT_OFFSET + 0xFFFFF123) =
    Some (mkTranslation (0xFFFFF123 + 2 ^ 51) 3 2 0).
Proof.
  destruct (shim_address_space 0x10000 0x11000 0x12000 0x13000 paged_cbit sample_placed sample_apart
    (mem_of_words sample_words) sample_booted (mkWorld sample_kvm sample_seen) sample_image_tables sample_encrypted sample_seen_at sample_seen_wf)
    as (w' & E1 & _ & Ht).
  exists w'. split; [exact E1|]. split; (rewrite Ht; [done|]); unfold canonical, SHIM_VIRT_OFFSET; lia.
Defined.

(** ** The tables of the running shim *)

Definition sample_mem : mem := write_usize sample_seen (SHIM_VIRT_OFFSET + 0x10000 + 8 * 0) 0.
Definition sample_tables : list Z :=
  [SHIM_VIRT_OFFSET + 0x10000; SHIM_VIRT_OFFSET + 0x11000; SHIM_VIRT_OFFSET + 0x12000; SHIM_VIRT_OFFSET + 0x13000].

Lemma sample_mapped : mapped_tables 0x10000 0x11000 0x12000 0x13000 sample_mem.
Proof.
  exact (booted_tables _ _ _ _ sample_placed sample_apart _ _ _ sample_image_tables sample_encrypted sample_seen_at sample_seen_wf).
Qed.

Lemma paged_wf : tables_wf get_cbit_mask SHIM_VIRT_OFFSET sample_mem sample_root.
Proof. exact (shim_tables_wf _ _ _ _ paged_cbit sample_placed sample_apart sample_mem sample_mapped). Qed.

Lemma sample_in : tables_in sample_root sample_mem sample_tables.
Proof.
  intros n va t p Hn Ht. destruct (shim_node_inv _ _ _ _ paged_cbit sample_placed sample_mem sample_mapped n va t p Hn Ht)
    as [(_ & -> & _)|[(_ & -> & _)|[(_ & -> & _)|(_ & -> & _)]]]; set_solver.
Qed.

Lemma sample_root_ok : SHIM_PAGETABLE sample_cr3 = Return sample_root.
Proof. done. Qed.

Lemma sample_supplies k avoid : (k ≤ 4)%nat → Forall (λ t, t < SHIM_VIRT_OFFSET + 0x400000) avoid →
  supplies avoid k (SHIM_VIRT_OFFSET + 0x400000) sample_tables.
Proof.
  intros Hk Ha. apply page_heap_supplies; [by vm_compute; intuition discriminate|unfold SHIM_VIRT_OFFSET; lia| |exact Ha].
  repeat constructor.
Qed.

(** The first gigabyte is one page. *)
Lemma sample_depth va : SHIM_VIRT_OFFSET ≤ va < SHIM_VIRT_OFFSET + 2 ^ 30 →
  page_depth get_cbit_mask SHIM_VIRT_OFFSET sample_mem sample_root va = Some 1%nat.
Proof.
  intros Hva. assert (index 0 va = 511 ∧ index 1 va = 0) as [I0 I1] by (unfold index, SHIM_VIRT_OFFSET in *; sizes; dlia).
  pose proof (shim_node1 _ _ _ _ paged_cbit sample_placed sample_mem sample_mapped va) as Hn. rewrite decide_True in Hn by done.
  unfold page_depth. erewrite (page_lookup _ _ _ _ 1); [done|lia|]. unfold page. fold sample_root in Hn. rewrite Hn. cbn [mbind option_bind].
  rewrite (mt_pdpt _ _ _ _ _ sample_mapped), decide_False by (apply index_range || (rewrite I1; lia)).
  change 0x83 with (page_flags 1). rewrite I1. by rewrite (proj1 (shim_page_ok paged_cbit 1 (0 * BYTES_1_GIB) ltac:(lia) ltac:(done) ltac:(done) ltac:(done))).
Qed.

Lemma sample_translates va : SHIM_VIRT_OFFSET ≤ va < 2 ^ 64 →
  translation get_cbit_mask SHIM_VIRT_OFFSET sample_mem sample_root va = Some (mkTranslation (va - SHIM_VIRT_OFFSET + 2 ^ 51) 3 2 0).
Proof.
  intros Hva. pose proof (shim_translates _ _ _ _ paged_cbit sample_placed sample_mem sample_mapped va) as Ht.
  rewrite (proj2 (Z.leb_le _ _)) in Ht by lia. apply Ht. unfold canonical, SHIM_VIRT_OFFSET in *. lia.
Qed.

Lemma sample_encrypted_at va : SHIM_VIRT_OFFSET ≤ va < 2 ^ 64 → ∃ tr,
  translation get_cbit_mask SHIM_VIRT_OFFSET sample_mem sample_root va = Some tr ∧ Z.land (tr_addr tr) get_cbit_mask = get_cbit_mask.
Proof.
  intros Hva. eexists. split; [by apply sample_translates|]. cbn [tr_addr]. change get_cbit_mask with (2 ^ 51).
  rewrite land_pow2 by lia. assert ((va - SHIM_VIRT_OFFSET + 2 ^ 51) / 2 ^ 51 = 1) as ->; [|done].
  symmetry. apply (Z.div_unique _ _ 1 (va - SHIM_VIRT_OFFSET)); unfold SHIM_VIRT_OFFSET in *; lia.
Qed.

Lemma smash_translates_witness : ∃ h' m',
  smash sample_cr3 (SHIM_VIRT_OFFSET + 0x3123) (mkWorld sample_kvm sample_mem) = Return (Ok (inl ()), mkWorld (set_heap h' sample_kvm) m') ∧
  page_depth get_cbit_mask SHIM_VIRT_OFFSET m' sample_root (SHIM_VIRT_OFFSET + 0x3123) = Some 2%nat ∧
  translation get_cbit_mask SHIM_VIRT_OFFSET m' sample_root (SHIM_VIRT_OFFSET + 0x12345678) = Some (mkTranslation (0x12345678 + 2 ^ 51) 3 2 0).
Proof.
  pose proof (smash_translates sample_cr3 sample_root paged_cbit sample_root_ok [] (mkWorld sample_kvm sample_mem)
    (SHIM_VIRT_OFFSET + 0x3123) sample_tables paged_wf) as Hs.
  cbn [w_mem] in Hs. rewrite (sample_depth (SHIM_VIRT_OFFSET + 0x3123)) in Hs by lia.
  destruct Hs as (h' & m' & E1 & _ & Hd' & Ht).
  - unfold canonical, SHIM_VIRT_OFFSET. lia.
  - exact sample_in.
  - by apply sample_supplies; [lia|].
  - intros tr Htr. destruct (sample_encrypted_at (SHIM_VIRT_OFFSET + 0x3123)) as (tr' & E2 & E3); [unfold SHIM_VIRT_OFFSET; lia|].
    rewrite E2 in Htr. by injection Htr as <-.
  - exists h', m'. split; [exact E1|]. split; [exact Hd'|]. rewrite Ht. cbn [w_mem]. rewrite sample_translates by (unfold SHIM_VIRT_OFFSET; lia). done.
Defined.

(** The page of the GHCB *)
Definition sample_page : Z := SHIM_VIRT_OFFSET + 0x1000.

Lemma clear_range_exact_witness : ∃ w',
  clear_c_bit_address_range sample_cr3 6 sample_page (sample_page + 0x1000) (mkWorld sample_kvm sample_mem) = Return (Ok (inl ()), w') ∧
  translation get_cbit_mask SHIM_VIRT_OFFSET (w_mem w') sample_root (sample_page + 0xFFF) = Some (mkTranslation 0x1FFF 3 2 0) ∧
  translation get_cbit_mask SHIM_VIRT_OFFSET (w_mem w') sample_root (sample_page + 0x1000) = Some (mkTranslation (0x2000 + 2 ^ 51) 3 2 0).
Proof.
  edestruct (λ H1 H2 H3, clear_range_exact sample_cr3 sample_root [] paged_cbit sample_root_ok sample_mem sample_page (sample_page + 0x1000)
    H1 H2 H3 6 (mkWorld sample_kvm sample_mem) sample_tables) as (w' & E1 & _ & Ht).
  - by vm_compute.
  - by vm_compute.
  - intros va Hva tr Htr. destruct (sample_encrypted_at va) as (tr' & E2 & E3); [unfold sample_page, SHIM_VIRT_OFFSET in *; lia|].
    rewrite E2 in Htr. by injection Htr as <-.
  - done.
  - exact paged_wf.
  - exact sample_in.
  - by apply sample_supplies; [lia|].
  - repeat constructor; set_solver.
  - by vm_compute.
  - exists w'. split; [exact E1|]. rewrite !Ht by (unfold canonical, sample_page, SHIM_VIRT_OFFSET; lia).
    rewrite decide_True, decide_False by (unfold sample_page; lia). rewrite !sample_translates by (unfold sample_page, SHIM_VIRT_OFFSET; lia).
    split; by vm_compute.
Defined.

(** A hypervisor that answers every request for a change of pages with the error 7 *)
#[local] Instance refusing_machine : Machine unit := {|
  vmmcall _ e m := (Z.lor (Z.shiftl 7 32) PSC_RESP, e, m);
  out16 _ _ e m := (e, m);
  pvalidate_instr _ _ _ e := (0, false, e);
  cpuid_instr _ _ _ := mkCpuidResult 0 0 0 0;
  rdrand64_step _ i := (0%nat, i);
  rdrand_next e := (0%nat, 42, e);
|}.

Definition refusing_kvm : kvm Z unit unit :=
  mkKvm () [] (mkBlockGuard 0 None) (mkEnarxAllocator 0 0 0 (SHIM_VIRT_OFFSET + 0x400000)) ()
    (mkLine 0 0) 0 ThreadLocalStorage_new (mkBases 0 0 0) None.

Lemma sample_avoids : Forall (λ t, t ∉ [ghcb_at]) sample_tables.
Proof. repeat constructor; rewrite list_elem_of_singleton; done. Qed.

(** The refusal is not noticed. *)
Lemma page_shared_exact_witness : ∃ w', ghcb_msr_make_page_shared sample_cr3 sample_page (mkWorld refusing_kvm sample_mem) = Return (Ok (), w') ∧
  translation get_cbit_mask SHIM_VIRT_OFFSET (w_mem w') sample_root (sample_page + 0xFFF) = Some (mkTranslation 0x1FFF 3 2 0).
Proof.
  destruct (page_shared_exact sample_cr3 sample_root paged_cbit sample_root_ok (mkWorld refusing_kvm sample_mem) sample_page sample_tables 0 false ())
    as (h' & m' & _ & Ht & E1).
  - by vm_compute; intuition discriminate.
  - by vm_compute; intuition discriminate.
  - exact paged_wf.
  - exact sample_in.
  - apply sample_supplies; [lia|]. by repeat constructor.
  - exact sample_avoids.
  - intros va Hva. apply sample_encrypted_at. unfold sample_page, SHIM_VIRT_OFFSET in *. lia.
  - done.
  - done.
  - assert ((Z.land (Z.lor (Z.shiftl 7 32) PSC_RESP) 0xFFFFFFFF =? PSC_RESP) = true) as Hx by done.
    eexists. split; [rewrite E1; cbn [vmmcall refusing_machine]; rewrite Hx; reflexivity|]. cbn [w_mem].
    rewrite Ht by (unfold canonical, sample_page, SHIM_VIRT_OFFSET; lia). rewrite decide_True by (unfold sample_page; lia). cbn [w_mem].
    rewrite sample_translates by (unfold sample_page, SHIM_VIRT_OFFSET; lia). by vm_compute.
Defined.

(** Two pages *)
Lemma memory_shared_exact_witness : ∃ w', (∀ fuel, set_memory_shared sample_cr3 fuel (SHIM_VIRT_OFFSET + 0x2000) 2 (mkWorld refusing_kvm sample_mem) = psc_loop fuel w') ∧
  translation get_cbit_mask SHIM_VIRT_OFFSET (w_mem w') sample_root (SHIM_VIRT_OFFSET + 0x3FFF) = Some (mkTranslation 0x3FFF 3 2 0) ∧
  translation get_cbit_mask SHIM_VIRT_OFFSET (w_mem w') sample_root (SHIM_VIRT_OFFSET + 0x4000) = Some (mkTranslation (0x4000 + 2 ^ 51) 3 2 0) ∧
  read_usize (w_mem w') (psc_at + off_entries + 8) = Z.lor 0x3000 (2 ^ 53).
Proof.
  destruct (memory_shared_exact sample_cr3 sample_root paged_cbit sample_root_ok (mkWorld refusing_kvm sample_mem) (SHIM_VIRT_OFFSET + 0x2000) 2 sample_tables ())
    as (h' & m' & E1 & _ & Ht & _ & _ & He).
  - by vm_compute; intuition discriminate.
  - by vm_compute; intuition discriminate.
  - lia.
  - by vm_compute; intuition discriminate.
  - exact paged_wf.
  - exact sample_in.
  - apply sample_supplies; [lia|]. by repeat constructor.
  - exact sample_avoids.
  - intros va Hva. apply sample_encrypted_at. unfold SHIM_VIRT_OFFSET in *. lia.
  - exists 0, false, (). split; [done|]. split; [done|]. by exists 0, false, ().
  - eexists. split; [exact E1|]. cbn [w_mem]. rewrite !Ht by (unfold canonical, SHIM_VIRT_OFFSET; lia). cbn [w_mem].
    rewrite decide_True, decide_False by (unfold SHIM_VIRT_OFFSET; lia). rewrite !sample_translates by (unfold SHIM_VIRT_OFFSET; lia).
    split; [by vm_compute|]. split; [by vm_compute|]. specialize (He 1 ltac:(lia)). rewrite Z.mul_1_r in He. rewrite He. by vm_compute.
Defined.
