(* ===== verification/Sign.v ===== *)
(** * Signing a keep

    [src/cli/sign.rs], with the structures of [src/backend/sev/snp/sign.rs] and
    [launch/mod.rs] that the firmware gets, [Signatures] of [src/backend/mod.rs], the
    choice of a backend of [src/cli/mod.rs] and the executables of [src/exec/mod.rs].
    ECDSA on P-384 is a parameter ([P384]), and so are the files with the keys, the
    encoding of the signatures ([SignFiles]) and the programs that are compiled in.

    The second half states what the firmware checks of an ID block and its
    authentication, after the SNP firmware ABI (SNP_LAUNCH_FINISH, ID authentication
    information structure), and that the signatures pass for the keep that they were
    made for. *)
From stdpp Require Import strings.
From S2P Require Import Prelude Memory Libc PhaseAlloc Items Host HostLaws Backend KvmHost.
From S2P Require Import Loader LoaderLaws SnpLoad SnpLoadLaws SgxLoad SgxLoadLaws.

(** ** [snp/sign.rs] *)

Record Es384 : Type := mkEs384 { es_r : list Z; es_s : list Z }.
Definition Es384_default : Es384 := mkEs384 (repeat 0 0x48) (repeat 0 0x48).
Definition Es384_as_bytes (e : Es384) : list Z := es_r e ++ es_s e.

Record EsSignature : Type := mkEsSignature { sig_component : Es384; sig_rsvd : list Z }.
Definition EsSignature_default : EsSignature := mkEsSignature Es384_default (repeat 0 368).
Definition EsSignature_as_bytes (s : EsSignature) : list Z := Es384_as_bytes (sig_component s) ++ sig_rsvd s.

Record PublicKey : Type := mkPublicKey { curve : Z; key_component : Es384; key_rsvd : list Z }.
Definition PublicKey_default : PublicKey := mkPublicKey 2 Es384_default (repeat 0 880).
Definition PublicKey_as_bytes (k : PublicKey) : list Z :=
  to_le_bytes 4 (curve k) ++ Es384_as_bytes (key_component k) ++ key_rsvd k.

(** ** [launch/mod.rs] *)

Record IdAuth : Type := mkIdAuth {
  id_key_algo : Z; auth_key_algo : Z; rsvd1 : list Z; id_block_sig : EsSignature; id_key : PublicKey; rsvd2 : list Z;
  id_key_sig : EsSignature; author_key : PublicKey; rsvd3 : list Z;
}.
Definition IdAuth_as_bytes (a : IdAuth) : list Z :=
  to_le_bytes 4 (id_key_algo a) ++ to_le_bytes 4 (auth_key_algo a) ++ rsvd1 a ++ EsSignature_as_bytes (id_block_sig a) ++
  PublicKey_as_bytes (id_key a) ++ rsvd2 a ++ EsSignature_as_bytes (id_key_sig a) ++ PublicKey_as_bytes (author_key a) ++
  rsvd3 a.

(** [IdAuth { id_key_algo: 1, auth_key_algo: 1, ..Default::default() }], with the parts
    that are filled in *)
Definition IdAuth_new (block_sig : EsSignature) (key : PublicKey) (key_sig : EsSignature) (author : PublicKey) : IdAuth :=
  mkIdAuth 1 1 (repeat 0 56) block_sig key (repeat 0 60) key_sig author (repeat 0 892).

(** ** [p384] *)

(** [Coordinates] of an encoded point, big-endian *)
Inductive Coordinates : Type :=
| Identity
| Compact (x : list Z)
| Compressed (x : list Z) (y_is_odd : bool)
| Uncompressed (x y : list Z).

(** [sign], with the values of [r] and [s]; [coordinates] of
    [verifying_key().to_encoded_point(false)] *)
Class P384 (Key : Type) := {
  ecdsa_sign : Key → list Z → Z * Z;
  coordinates : Key → Coordinates;
}.

Module SE.
Definition Length : Z := -1.
Definition Key : Z := -2.
Definition Version : Z := -3.
Definition Backend : Z := -4.
Definition Missing : Z := -5.
Definition Misconfigured : Z := -6.
End SE.

Section sev.
Context {W Key : Type} `{P384 Key}.

(** [dst[..src.len()].copy_from_slice(src)] *)
Definition copy_prefix (dst src : list Z) : fal W (list Z) :=
  must (if (length src <=? length dst)%nat then Return (src ++ drop (length src) dst) else Panicked).

Definition set_component (r s : list Z) (e : Es384) : fal W Es384 :=
  r ← copy_prefix (es_r e) r;
  s ← copy_prefix (es_s e) s;
  mret (mkEs384 r s).

(** The signature of a message, in little-endian order *)
Definition sign_with (key : Key) (msg : list Z) : fal W EsSignature :=
  let sig := ecdsa_sign key msg in
  c ← set_component (to_le_bytes 48 (fst sig)) (to_le_bytes 48 (snd sig)) (sig_component EsSignature_default);
  mret (mkEsSignature c (sig_rsvd EsSignature_default)).

(** The public key of a key, in little-endian order *)
Definition public_of (key : Key) : fal W PublicKey :=
  match coordinates key with
  | Uncompressed x y =>
      c ← set_component (reverse x) (reverse y) (key_component PublicKey_default);
      mret (mkPublicKey (curve PublicKey_default) c (key_rsvd PublicKey_default))
  | _ => try (Err SE.Key)
  end.

(** [SevSignature]: the ID block and its authentication *)
Definition sign_sev (id_block_bytes : list Z) (sev_key sev_author_key : Key) : fal W (list Z * list Z) :=
  if negb (Z.of_nat (length id_block_bytes) =? IdBlock_SIZE) then try (Err SE.Length)
  else
    block_sig ← sign_with sev_key id_block_bytes;
    key ← public_of sev_key;
    key_sig ← sign_with sev_author_key (PublicKey_as_bytes key);
    author ← public_of sev_author_key;
    mret (id_block_bytes, IdAuth_as_bytes (IdAuth_new block_sig key key_sig author)).

End sev.

Definition Body_SIZE : Z := 128.

(** [sign_sgx]: the body is signed for an author with date and value zero *)
Definition sign_sgx {W : Type} `{SgxCrypto} (body_bytes sgx_key : list Z) : fal W (list Z) :=
  if negb (Z.of_nat (length body_bytes) =? Body_SIZE) then try (Err SE.Length)
  else try (Signature_new sgx_key body_bytes).

(** ** Backends and executables *)

(** [Backend], as far as the command line uses it *)
Record BackendOps (W : Type) : Type := mkBackendOps {
  be_name : string;
  be_shim : list Z;
  be_have : bool;
  be_configured : bool;
  be_hash : list Z → list Z → fal W (list Z);
}.
Arguments mkBackendOps {W}.
Arguments be_name {W}.
Arguments be_shim {W}.
Arguments be_have {W}.
Arguments be_configured {W}.
Arguments be_hash {W}.

(** [Exec] *)
Record ExecOps : Type := mkExecOps { ex_exec : list Z; ex_with_backend : string → bool }.

(** [have], as [all] over the data of a machine, and [configured] of the trait *)
Definition data_have (passed : list bool) : bool := forallb id passed.
Definition data_configured (passed : list bool) : bool := negb (foldl (λ e d, e || negb d) false passed).

Section cli.
Context {W Key : Type} `{P384 Key, SgxCrypto, Goblin, !UnstableSort, !Semver, !Anonymous W, Sha384}.

(** The programs that are compiled in, and what the checks of the machine found *)
Variables (sgx_shim kvm_shim wasmtime : list Z).
Variables (sgx_data sgx_config sev_data sev_config kvm_data : list bool).

Definition SgxBackend : BackendOps W :=
  mkBackendOps "sgx" sgx_shim (data_have sgx_data) (data_configured sgx_config)
    (λ shim exec, load (T := SgxHasher) shim exec None).
Definition SevBackend : BackendOps W :=
  mkBackendOps "sev" kvm_shim (data_have sev_data) (data_configured sev_config)
    (λ shim exec, load (T := Hasher) shim exec None).
Definition KvmBackend : BackendOps W :=
  mkBackendOps "kvm" kvm_shim (data_have kvm_data) (data_configured []) (λ _ _, mret []).
Definition NilBackend : BackendOps W :=
  mkBackendOps "nil" [] true (data_configured [])
    (λ shim exec, if negb (bool_decide (shim = [])) || negb (bool_decide (exec = [])) then try (Err SE.Backend) else mret []).

Definition BACKENDS : list (BackendOps W) := [SgxBackend; SevBackend; KvmBackend; NilBackend].

Definition WasmExec : ExecOps := mkExecOps wasmtime (λ name, negb (bool_decide (name = "nil"))).
Definition NilExec : ExecOps := mkExecOps [] (λ name, bool_decide (name = "nil")).
Definition EXECS : list ExecOps := [WasmExec; NilExec].

Definition find_exec (backend : BackendOps W) : option (list Z) :=
  ex_exec <$> List.find (λ e, ex_with_backend e (be_name backend)) EXECS.

(** [BackendOptions::pick] *)
Definition pick (backend : option string) : result (BackendOps W) :=
  match backend with
  | Some name =>
      match List.find (λ b, bool_decide (be_name b = name)) BACKENDS with
      | None => Err SE.Backend
      | Some b =>
          if negb (be_have b) then Err SE.Missing
          else if negb (be_configured b) then Err SE.Misconfigured else Ok b
      end
  | None => ok_or (List.find be_have BACKENDS) SE.Missing
  end.

(** ** [Options::execute] *)

Variables (load_sgx_key : result (list Z)) (load_sev_keys : result (Key * Key)).

Definition sign_backend (backend : BackendOps W) (exec : list Z) (signatures : Signatures) : fal W Signatures :=
  blob ← be_hash backend (be_shim backend) exec;
  if bool_decide (be_name backend = "sgx") then
    key ← try load_sgx_key;
    signature ← sign_sgx blob key;
    mret (mkSignatures (sig_id_block signatures) (sig_id_auth signatures) signature)
  else if bool_decide (be_name backend = "sev") then
    '(id_key, author_key) ← try load_sev_keys;
    '(id_block, id_auth) ← sign_sev blob id_key author_key;
    mret (mkSignatures id_block id_auth (sig_sgx signatures))
  else mret signatures.

Fixpoint sign_backends (binary : option (list Z)) (backends : list (BackendOps W)) (signatures : Signatures) :
    fal W Signatures :=
  match backends with
  | [] => mret signatures
  | backend :: backends =>
      if bool_decide (be_shim backend = []) then sign_backends binary backends signatures
      else
        match (match binary with Some e => Some e | None => find_exec backend end) with
        | None => sign_backends binary backends signatures
        | Some exec =>
            if bool_decide (exec = []) then sign_backends binary backends signatures
            else
              signatures ← sign_backend backend exec signatures;
              sign_backends binary backends signatures
        end
  end.

(** The signatures that are printed *)
Definition sign_execute (binary : option (list Z)) : fal W Signatures :=
  sign_backends binary BACKENDS (mkSignatures [] [] []).

End cli.

(** ** [Signatures::load] *)

(** The file with its version, encoded and decoded by [serde_json] *)
Class SignFiles := {
  open_signatures : string → result (list Z);
  signatures_to_string : string → Signatures → result (list Z);
  signatures_from_str : list Z → result (string * Signatures);
  SIGNATURES_VERSION : string;
}.

Definition Signatures_load `{SignFiles} (path : option string) : result (option Signatures) :=
  match path with
  | None => Ok None
  | Some path =>
      match open_signatures path with
      | Err e => Err e
      | Ok buffer =>
          match signatures_from_str buffer with
          | Err e => Err e
          | Ok (version, signatures) =>
              if negb (bool_decide (version = SIGNATURES_VERSION)) then Err SE.Version else Ok (Some signatures)
          end
      end
  end.

(** ** What the firmware checks *)

Definition part (bytes : list Z) (off n : nat) : list Z := take n (drop off bytes).
Definition le_at (bytes : list Z) (off n : nat) : Z := from_le_bytes (part bytes off n).
Definition all_zero (bytes : list Z) : bool := forallb (Z.eqb 0) bytes.

(** ECDSA with SHA-384 on P-384: a public key is a point, a signature two numbers. *)
Class P384Laws (Key : Type) `{P384 Key} := {
  ecdsa_verify : Z * Z → list Z → Z * Z → bool;
  public_point : Key → Z * Z;
  pl_point : ∀ k, 0 ≤ fst (public_point k) < 2 ^ 384 ∧ 0 ≤ snd (public_point k) < 2 ^ 384;
  pl_coordinates : ∀ k, coordinates k =
    Uncompressed (reverse (to_le_bytes 48 (fst (public_point k)))) (reverse (to_le_bytes 48 (snd (public_point k))));
  pl_scalars : ∀ k m, 0 ≤ fst (ecdsa_sign k m) < 2 ^ 384 ∧ 0 ≤ snd (ecdsa_sign k m) < 2 ^ 384;
  pl_verify : ∀ k m, ecdsa_verify (public_point k) m (ecdsa_sign k m) = true;
}.

Section firmware.
Variable verify : Z * Z → list Z → Z * Z → bool.

(** A pair of numbers of 72 bytes each *)
Definition fw_pair (bytes : list Z) : Z * Z := (le_at bytes 0 72, le_at bytes 72 72).
Definition fw_key_ok (key : list Z) : bool := (le_at key 0 4 =? 2) && all_zero (part key 148 880).

Definition fw_signed (key sig msg : list Z) : bool :=
  fw_key_ok key && all_zero (part sig 144 368) && verify (fw_pair (part key 4 144)) msg (fw_pair sig).

(** The ID block is signed by the ID key, which is signed by the author key. *)
Definition id_auth_ok (block auth : list Z) : bool :=
  (length auth =? 4096)%nat && (le_at auth 0 4 =? 1) && (le_at auth 4 4 =? 1) && all_zero (part auth 8 56) &&
  all_zero (part auth 1604 60) && all_zero (part auth 3204 892) &&
  fw_signed (part auth 576 1028) (part auth 64 512) block &&
  fw_signed (part auth 2176 1028) (part auth 1664 512) (part auth 576 1028).

(** The ID block is that of the guest. *)
Definition id_block_ok (digest : list Z) (policy : Z) (block : list Z) : bool :=
  (length block =? 96)%nat && (le_at block 80 4 =? 1) && bool_decide (part block 0 48 = digest) && (le_at block 88 8 =? policy).

End firmware.

Lemma id_block_ok_inv digest policy block : id_block_ok digest policy block = true ↔
  length block = 96%nat ∧ le_at block 80 4 = 1 ∧ part block 0 48 = digest ∧ le_at block 88 8 = policy.
Proof. unfold id_block_ok. rewrite !andb_true_iff, Nat.eqb_eq, !Z.eqb_eq, bool_decide_eq_true. tauto. Qed.

Lemma id_auth_ok_length verify block auth : id_auth_ok verify block auth = true → length auth = 4096%nat.
Proof. unfold id_auth_ok. intros Ha. do 7 apply andb_true_iff in Ha as [Ha _]. by apply Nat.eqb_eq in Ha. Qed.

(** ** The structures *)

Lemma part_app_l a b off n : (off + n ≤ length a)%nat → part (a ++ b) off n = part a off n.
Proof. intros Hl. unfold part. rewrite drop_app_le, take_app_le; [done|rewrite length_drop; lia|lia]. Qed.

Lemma part_app_r a b off n : (length a ≤ off)%nat → part (a ++ b) off n = part b (off - length a) n.
Proof. intros Hl. unfold part. by rewrite drop_app_ge. Qed.

Lemma part_all a n : length a = n → part a 0 n = a.
Proof. intros <-. unfold part. rewrite drop_0. by apply take_ge. Qed.

Lemma part_part a off n off' n' : (off' + n' ≤ n)%nat → part (part a off n) off' n' = part a (off + off') n'.
Proof. intros Hl. unfold part. rewrite skipn_firstn_comm, take_take, drop_drop. f_equal. lia. Qed.

Lemma all_zero_repeat n : all_zero (repeat 0 n) = true.
Proof. induction n; done. Qed.

Lemma from_le_bytes_zeros bs n : from_le_bytes (bs ++ repeat 0 n) = from_le_bytes bs.
Proof.
  induction bs as [|b bs IH]; cbn [app from_le_bytes]; [|by rewrite IH].
  induction n as [|n IH]; cbn [repeat from_le_bytes]; [done|]. by rewrite IH.
Qed.

(** A number of 48 bytes in a field of 72 bytes *)
Definition padded (v : Z) : list Z := to_le_bytes 48 v ++ repeat 0 24.

Lemma length_padded v : length (padded v) = 72%nat.
Proof. unfold padded. by rewrite length_app, length_to_le_bytes, repeat_length. Qed.

Lemma from_padded v : 0 ≤ v < 2 ^ 384 → from_le_bytes (padded v) = v.
Proof. intros Hv. unfold padded. rewrite from_le_bytes_zeros, from_to_le_bytes. by apply Z.mod_small. Qed.

Definition pair_bytes (p : Z * Z) : list Z := padded (fst p) ++ padded (snd p).

Lemma length_pair p : length (pair_bytes p) = 144%nat.
Proof. unfold pair_bytes. by rewrite length_app, !length_padded. Qed.

Lemma fw_pair_bytes p rest : 0 ≤ fst p < 2 ^ 384 → 0 ≤ snd p < 2 ^ 384 → fw_pair (pair_bytes p ++ rest) = p.
Proof.
  intros H1 H2. unfold fw_pair, le_at. rewrite !part_app_l by (rewrite length_pair; lia). unfold pair_bytes.
  rewrite part_app_l, part_app_r by (rewrite length_padded; lia). rewrite length_padded.
  rewrite !part_all by apply length_padded. rewrite !from_padded by done. by destruct p.
Qed.

Lemma fw_pair_only p : 0 ≤ fst p < 2 ^ 384 → 0 ≤ snd p < 2 ^ 384 → fw_pair (pair_bytes p) = p.
Proof. intros H1 H2. rewrite <- (app_nil_r (pair_bytes p)). by apply fw_pair_bytes. Qed.

Definition sig_bytes (p : Z * Z) : list Z := pair_bytes p ++ repeat 0 368.
Definition key_bytes (p : Z * Z) : list Z := to_le_bytes 4 2 ++ pair_bytes p ++ repeat 0 880.

Lemma length_sig_bytes p : length (sig_bytes p) = 512%nat.
Proof. unfold sig_bytes. by rewrite length_app, length_pair, repeat_length. Qed.
Lemma length_key_bytes p : length (key_bytes p) = 1028%nat.
Proof. unfold key_bytes. by rewrite !length_app, length_pair, repeat_length. Qed.

Section sign.
Context {Key : Type} `{P384Laws Key}.

Lemma fw_signed_ok k m : fw_signed ecdsa_verify (key_bytes (public_point k)) (sig_bytes (ecdsa_sign k m)) m = true.
Proof.
  destruct (pl_point k) as [P1 P2], (pl_scalars k m) as [S1 S2].
  unfold fw_signed, fw_key_ok, sig_bytes, key_bytes. rewrite fw_pair_bytes by done.
  rewrite (part_app_r _ (repeat 0 368)) by (rewrite length_pair; lia). rewrite length_pair.
  rewrite (part_app_r (to_le_bytes 4 2) _ 148), (part_app_r (to_le_bytes 4 2) _ 4) by (rewrite length_to_le_bytes; lia).
  rewrite length_to_le_bytes. replace (148 - 4)%nat with 144%nat by lia. replace (4 - 4)%nat with 0%nat by lia.
  rewrite (part_app_r (pair_bytes _)) by (rewrite length_pair; lia). rewrite length_pair, Nat.sub_diag.
  rewrite (part_app_l (pair_bytes _)) by (rewrite length_pair; lia). rewrite !part_all by (rewrite ?repeat_length, ?length_pair; done).
  rewrite fw_pair_only, pl_verify, !all_zero_repeat by done.
  unfold le_at. rewrite part_app_l, part_all by done. done.
Qed.

Lemma copy_prefix_48 {W : Type} (bs : list Z) (w : W) : length bs = 48%nat →
  copy_prefix (repeat 0 0x48) bs w = Return (Ok (bs ++ repeat 0 24), w).
Proof. intros Hl. unfold copy_prefix. rewrite Hl. done. Qed.

Lemma sign_with_run {W : Type} (k : Key) m (w : W) : ∃ s, sign_with k m w = Return (Ok s, w) ∧
  EsSignature_as_bytes s = sig_bytes (ecdsa_sign k m).
Proof.
  eexists. split; [unfold sign_with, set_component; cbv zeta|].
  - rewrite (fal_bind_ok _ _ w (mkEs384 (padded (fst (ecdsa_sign k m))) (padded (snd (ecdsa_sign k m)))) w); [reflexivity|].
    cbn [sig_component EsSignature_default Es384_default es_r es_s].
    rewrite (fal_bind_ok _ _ _ _ _ (copy_prefix_48 _ w (length_to_le_bytes 48 _))).
    by rewrite (fal_bind_ok _ _ _ _ _ (copy_prefix_48 _ w (length_to_le_bytes 48 _))).
  - done.
Qed.

Lemma public_of_run {W : Type} (k : Key) (w : W) : ∃ p, public_of k w = Return (Ok p, w) ∧
  PublicKey_as_bytes p = key_bytes (public_point k).
Proof.
  eexists. split; [unfold public_of, set_component; rewrite pl_coordinates, !reverse_involutive|].
  - rewrite (fal_bind_ok _ _ w (mkEs384 (padded (fst (public_point k))) (padded (snd (public_point k)))) w); [reflexivity|].
    cbn [key_component PublicKey_default Es384_default es_r es_s].
    rewrite (fal_bind_ok _ _ _ _ _ (copy_prefix_48 _ w (length_to_le_bytes 48 _))).
    by rewrite (fal_bind_ok _ _ _ _ _ (copy_prefix_48 _ w (length_to_le_bytes 48 _))).
  - done.
Qed.

(** The authentication that [sign_sev] makes *)
Definition signed_auth (block : list Z) (id author : Key) : list Z :=
  to_le_bytes 4 1 ++ to_le_bytes 4 1 ++ repeat 0 56 ++ sig_bytes (ecdsa_sign id block) ++ key_bytes (public_point id) ++
  repeat 0 60 ++ sig_bytes (ecdsa_sign author (key_bytes (public_point id))) ++ key_bytes (public_point author) ++ repeat 0 892.

Lemma sign_sev_run {W : Type} block (id author : Key) (w : W) : length block = 96%nat →
  sign_sev block id author w = Return (Ok (block, signed_auth block id author), w).
Proof.
  intros Hl. unfold sign_sev. rewrite Hl. change (negb (Z.of_nat 96 =? IdBlock_SIZE)) with false. cbv iota.
  destruct (sign_with_run id block w) as (s1 & E1 & B1), (public_of_run id w) as (p1 & E2 & B2).
  destruct (sign_with_run author (PublicKey_as_bytes p1) w) as (s2 & E3 & B3), (public_of_run author w) as (p2 & E4 & B4).
  rewrite (fal_bind_ok _ _ _ _ _ E1), (fal_bind_ok _ _ _ _ _ E2), (fal_bind_ok _ _ _ _ _ E3), (fal_bind_ok _ _ _ _ _ E4).
  unfold signed_auth. rewrite <- B1, <- B2, <- B3, <- B4. done.
Qed.

Lemma length_signed_auth block (id author : Key) : length (signed_auth block id author) = 4096%nat.
Proof. unfold signed_auth. by rewrite !length_app, !length_sig_bytes, !length_key_bytes, !repeat_length, !length_to_le_bytes. Qed.

(** The parts of the authentication *)
Ltac find_part := repeat first
  [ rewrite part_all by (rewrite ?length_sig_bytes, ?length_key_bytes, ?repeat_length, ?length_to_le_bytes; reflexivity)
  | rewrite part_app_l by (rewrite ?length_sig_bytes, ?length_key_bytes, ?repeat_length, ?length_to_le_bytes; lia)
  | rewrite part_app_r by (rewrite ?length_sig_bytes, ?length_key_bytes, ?repeat_length, ?length_to_le_bytes; lia);
    rewrite ?length_sig_bytes, ?length_key_bytes, ?repeat_length, ?length_to_le_bytes; cbn [Nat.sub] ].

Lemma signed_auth_ok block (id author : Key) : id_auth_ok ecdsa_verify block (signed_auth block id author) = true.
Proof.
  set (a := signed_auth block id author).
  assert (P1 : part a 576 1028 = key_bytes (public_point id)) by (unfold a, signed_auth; find_part; done).
  assert (P2 : part a 64 512 = sig_bytes (ecdsa_sign id block)) by (unfold a, signed_auth; find_part; done).
  assert (P3 : part a 2176 1028 = key_bytes (public_point author)) by (unfold a, signed_auth; find_part; done).
  assert (P4 : part a 1664 512 = sig_bytes (ecdsa_sign author (key_bytes (public_point id))))
    by (unfold a, signed_auth; find_part; done).
  unfold id_auth_ok. rewrite P1, P2, P3, P4, !fw_signed_ok. unfold a at 1. rewrite length_signed_auth.
  assert (part a 0 4 = to_le_bytes 4 1 ∧ part a 4 4 = to_le_bytes 4 1 ∧ part a 8 56 = repeat 0 56 ∧
    part a 1604 60 = repeat 0 60 ∧ part a 3204 892 = repeat 0 892) as (Z1 & Z2 & Z3 & Z4 & Z5)
    by (unfold a, signed_auth; split_and!; find_part; done).
  unfold le_at. rewrite Z1, Z2, Z3, Z4, Z5, !all_zero_repeat. done.
Qed.

End sign.

(** ** Loading with other signatures *)

Lemma try_bind {W A B : Type} (r : result A) (f : A → fal W B) (w : W) a : r = Ok a → (try r ≫= f) w = f a w.
Proof. by intros ->. Qed.

Lemma must_ok {W A : Type} (o : outcome A) (w : W) a w' : must o w = Return (Ok a, w') → o = Return a ∧ w' = w.
Proof. unfold must. destruct o; try discriminate. by intros [= -> ->]. Qed.

Section change.
Context {W C F T O : Type} `{GoblinLaws, !UnstableSort, !Semver, !Config C F, !Mapper W C F T O, !Anonymous W}.
Variables (sigs sigs' : option Signatures) (f : T → T) (P : C → T → W → Prop).

(** The mapper with the other signatures does the same with [f] of its state; an
    invariant of the run is kept as well. *)
Hypothesis change_config : ∀ sbin ebin cfg, config_new sbin ebin sigs = Ok cfg →
  ∃ cfg', config_new sbin ebin sigs' = Ok cfg' ∧
    ∀ w l w', mapper_try_from cfg w = Return (Ok l, w') → mapper_try_from cfg' w = Return (Ok (f l), w') ∧ P cfg l w'.
Hypothesis change_map : ∀ c pages to fl l w l' w', P c l w → mapper_map pages to fl l w = Return (Ok l', w') →
  mapper_map pages to fl (f l) w = Return (Ok (f l'), w') ∧ P c l' w'.
Hypothesis change_bytes : ∀ c n l w r w', P c l w → map_bytes n w = (r, w') → P c l w'.

Lemma change_segments c segs : ∀ l w l' w', P c l w → load_segments segs l w = Return (Ok l', w') →
  load_segments segs (f l) w = Return (Ok (f l'), w') ∧ P c l' w'.
Proof.
  induction segs as [|seg segs IH]; intros l w l' w' Hp Eq; cbn [load_segments] in *; [by injection Eq as <- <-|].
  apply fal_bind_inv in Eq as (l1 & w1 & E1 & Eq). unfold load_segment in E1.
  apply fal_bind_inv in E1 as (addr & w2 & E2 & E1). apply fal_bind_inv in E1 as (bytes & w3 & E3 & E1).
  apply on_world_ok in E2 as E2'. apply (change_bytes _ _ _ _ _ _ Hp) in E2'.
  apply must_ok in E3 as E3'. destruct E3' as [_ ->].
  destruct (change_map _ _ _ _ _ _ _ _ E2' E1) as [E1' Hp1]. destruct (IH _ _ _ _ Hp1 Eq) as [Eq' Hp'].
  split; [|done]. rewrite (fal_bind_ok _ _ w (f l1) w1); [done|]. unfold load_segment.
  by rewrite (fal_bind_ok _ _ _ _ _ E2), (fal_bind_ok _ _ _ _ _ E3).
Qed.

Lemma load_change shim exec (w : W) (o : O) w' : load shim exec sigs w = Return (Ok o, w') →
  ∃ sbin ebin cfg l w1, Binary_new shim = Ok sbin ∧ Binary_new exec = Ok ebin ∧ config_new sbin ebin sigs = Ok cfg ∧
    P cfg l w1 ∧ mapper_into l w1 = Return (Ok o, w') ∧ load shim exec sigs' w = mapper_into (f l) w1.
Proof.
  intros Eq. unfold load in *.
  apply fal_bind_inv in Eq as (sbin & ? & E1 & Eq). apply fal_bind_inv in Eq as (ebin & ? & E2 & Eq).
  apply fal_bind_inv in Eq as (slot & ? & E3 & Eq). unfold try in E1, E2, E3.
  injection E1 as E1 <-. injection E2 as E2 <-. injection E3 as E3 <-. cbv zeta in Eq.
  destruct (negb _ || _) eqn:Ef; [discriminate Eq|]. destruct (negb (existsb _ _)) eqn:En; [discriminate Eq|].
  apply fal_bind_inv in Eq as (cfg & ? & E4 & Eq). injection E4 as E4 <-.
  apply fal_bind_inv in Eq as (l0 & w0 & E5 & Eq). apply fal_bind_inv in Eq as (ssegs & w1 & E6 & Eq).
  apply fal_bind_inv in Eq as (esegs & w2 & E7 & Eq).
  apply must_ok in E6 as E6'. destruct E6' as [_ ->].
  apply must_ok in E7 as E7'. destruct E7' as [_ ->].
  destruct (windows_overlap _) eqn:Ew; [discriminate Eq|]. apply fal_bind_inv in Eq as (l1 & w1 & E8 & Eq).
  destruct (change_config _ _ _ E4) as (cfg' & Ec & Ht). destruct (Ht _ _ _ E5) as [Et Hp].
  destruct (change_segments _ _ _ _ _ _ Hp E8) as [E8' Hp1].
  exists sbin, ebin, cfg, l1, w1. split_and!; try done.
  rewrite (try_bind _ _ _ _ E1), (try_bind _ _ _ _ E2), (try_bind _ _ _ _ E3). cbv zeta. rewrite Ef, En.
  rewrite (try_bind _ _ _ _ Ec).
  rewrite (fal_bind_ok _ _ _ _ _ Et), (fal_bind_ok _ _ _ _ _ E6), (fal_bind_ok _ _ _ _ _ E7), Ew.
  by rewrite (fal_bind_ok _ _ _ _ _ E8').
Qed.

End change.
