(* ===== verification/SignedLaunch.v ===== *)
(** * Launching a keep with its signatures

    From [sign_execute], which hashes and signs the shim and the executable, to the
    launch with the signatures: the firmware accepts them for this keep, and for no
    keep with another measurement. *)

From stdpp Require Import strings.
From S2P Require Import Prelude Memory Libc PhaseAlloc Items Host HostLaws Backend KvmHost Loader LoaderLaws.
From S2P Require Import SnpLoad SnpLoadLaws SgxLoad SgxLoadLaws Sign.

(** The policy is given at the start of the launch.  At its end the firmware adds the
    save area and then looks at the ID block, if there is one. *)
Class IdLaws (K Key : Type) `{SnpLaws K, P384Laws Key} := {
  fw_policy : K → Z;
  il_start : ∀ s k k', snp_launch_start s k = (Ok (), k') → fw_policy k' = as_usize (ls_policy s);
  il_update : ∀ u bytes k, fw_policy (snd (snp_launch_update u bytes k)) = fw_policy k;
  il_register : ∀ a n k, fw_policy (snd (register_enc_memory_region a n k)) = fw_policy k;
  il_cpuid : ∀ k, fw_policy (snd (get_supported_cpuid k)) = fw_policy k;
  il_anonymous : ∀ n k, fw_policy (snd (map_anonymous n k)) = fw_policy k;
  il_memory : ∀ r k, fw_policy (snd (set_user_memory_region r k)) = fw_policy k;
  il_vcpu : ∀ k, fw_policy (snd (create_vcpu k)) = fw_policy k;
  il_accept : ∀ block auth host k k', snp_launch_finish (mkLaunchFinish None 0 0 host) k = (Ok (), k') →
    id_block_ok (fw_digest k') (fw_policy k) block = true → id_auth_ok ecdsa_verify block auth = true →
    ∃ k'', snp_launch_finish (mkLaunchFinish (Some (block, auth)) 1 1 host) k = (Ok (), k'');
  il_refuse : ∀ block auth host k k', snp_launch_finish (mkLaunchFinish (Some (block, auth)) 1 1 host) k = (Ok (), k') →
    id_block_ok (fw_digest k') (fw_policy k) block = true ∧ id_auth_ok ecdsa_verify block auth = true;
}.

Section launch.
Context {K Key : Type} `{IdLaws K Key}.

(** ** The policy in the firmware *)

Lemma update_data_policy u pages k : fw_policy (snd (update_data u pages k)) = fw_policy k.
Proof.
  unfold update_data. pose proof (il_register (pg_addr pages) (Z.of_nat (length (pg_bytes pages))) k) as Hr.
  destruct (register_enc_memory_region _ _ k) as [[[]|e] k1]; cbn [snd] in *; [|done]. by rewrite il_update.
Qed.

Lemma update_once_policy u pages k r k' : update_once u pages k = Return (r, k') → fw_policy k' = fw_policy k.
Proof.
  unfold update_once. pose proof (update_data_policy u pages k) as Hp. destruct (update_data u pages k) as [[x b] k1].
  by intros [= _ <-].
Qed.

Lemma update_twice_policy u pages k r k' : update_twice u pages k = Return (r, k') → fw_policy k' = fw_policy k.
Proof.
  unfold update_twice. pose proof (update_data_policy u pages k) as Hp. destruct (update_data u pages k) as [[[[]|e] b] k1].
  - by intros [= _ <-].
  - intros E%update_once_policy. by rewrite E.
Qed.

(** The builder with other signatures *)
Definition resign (s : option Signatures) (b : SevBuilder) : SevBuilder :=
  mkSevBuilder (mkSevConfig (sc_block_size (sb_config b)) s (sc_parameters (sb_config b))) (sb_builder b).

Lemma SevBuilder_map_policy pages to fl b k b' k' : SevBuilder_map pages to fl b k = Return (Ok b', k') →
  fw_policy k' = fw_policy k ∧ sb_config b' = sb_config b.
Proof.
  unfold SevBuilder_map. destruct (_ =? 0); [by intros [= <- <-]|].
  intros Eq. apply fal_bind_inv in Eq as ([region ports] & k1 & E1 & Eq).
  assert (Hk1 : fw_policy k1 = fw_policy k).
  { unfold kvm_builder_map in E1. destruct (if negb (Z.land fl KvmHost.SALLYPORT =? 0) then _ else _) as [pushed| | |];
      try discriminate E1. cbn [mbind outcome_bind] in E1.
    match type of E1 with context [set_user_memory_region ?r k] => pose proof (il_memory r k) as Hs end.
    destruct (set_user_memory_region _ k) as [set k2]. by injection E1 as _ <-. }
  apply fal_bind_inv in Eq as (u & k2 & E2 & Eq). injection Eq as <- <-. split; [|done]. rewrite <- Hk1.
  destruct (negb (Z.land fl elf.CPUID =? 0)); [|destruct (negb (Z.land fl elf.SECRETS =? 0))].
  - destruct (negb _); [discriminate E2|]. apply fal_bind_inv in E2 as (entries & k3 & E3 & E2). apply on_world_ok in E3.
    pose proof (il_cpuid k1) as Hc. rewrite E3 in Hc. cbn [snd] in Hc.
    apply fal_bind_inv in E2 as (functions & k4 & E4 & E2). unfold try in E4. injection E4 as E4 <-.
    by rewrite (update_twice_policy _ _ _ _ _ E2).
  - destruct (negb _); [discriminate E2|]. exact (update_once_policy _ _ _ _ _ E2).
  - exact (update_once_policy _ _ _ _ _ E2).
Qed.

Lemma SevBuilder_map_resign s pages to fl b (k : K) b' k' : SevBuilder_map pages to fl b k = Return (Ok b', k') →
  SevBuilder_map pages to fl (resign s b) k = Return (Ok (resign s b'), k').
Proof.
  unfold SevBuilder_map. destruct (_ =? 0); [by intros [= <- <-]|]. cbn [sb_builder sb_config resign sc_block_size].
  intros Eq. apply fal_bind_inv in Eq as ([region ports] & k1 & E1 & Eq).
  apply fal_bind_inv in Eq as (u & k2 & E2 & Eq). injection Eq as <- <-.
  by rewrite (fal_bind_ok _ _ _ _ _ E1), (fal_bind_ok _ _ _ _ _ E2).
Qed.

Lemma SevConfig_resign s sbin ebin cfg `{Goblin} : SevConfig_new sbin ebin None = Ok cfg →
  sc_signatures cfg = None ∧ SevConfig_new sbin ebin s = Ok (mkSevConfig (sc_block_size cfg) s (sc_parameters cfg)).
Proof.
  unfold SevConfig_new. destruct (negb (one_sallyport sbin)); [done|]. repeat case_match; try done. by intros [= <-].
Qed.

(** The same launch with signatures, up to its last step *)
Lemma load_resigned `{GoblinLaws, !UnstableSort, !Semver} shim exec s (k : K) (keep : Keep) k' :
  load (T := SevBuilder) shim exec None k = Return (Ok keep, k') →
  ∃ sbin ebin cfg b k1, Binary_new shim = Ok sbin ∧ Binary_new exec = Ok ebin ∧ SevConfig_new sbin ebin None = Ok cfg ∧
    sb_config b = cfg ∧ fw_policy k1 = as_usize (sp_policy (sc_parameters cfg)) ∧
    SevBuilder_into b k1 = Return (Ok keep, k') ∧
    load (T := SevBuilder) shim exec (Some s) k = SevBuilder_into (resign (Some s) b) k1.
Proof.
  intros Eq.
  destruct (load_change None (Some s) (resign (Some s)) (λ cfg b k, sb_config b = cfg ∧
    fw_policy k = as_usize (sp_policy (sc_parameters cfg)))) with (4 := Eq)
    as (sbin & ebin & cfg & b & k1 & E1 & E2 & E3 & [Hb Hp] & Ei & El).
  - intros sbin ebin cfg Ec. destruct (SevConfig_resign (Some s) _ _ _ Ec) as [_ Ec']. eexists. split; [exact Ec'|].
    cbn. intros w l w' Et. unfold SevBuilder_try_from in *. apply fal_bind_inv in Et as (u & k1 & E1 & Et).
    apply fal_bind_inv in Et as ([] & k2 & E2 & Et). injection Et as <- <-. apply on_world_ok in E2 as Ep. apply il_start in Ep.
    split; [|done]. by rewrite (fal_bind_ok _ _ _ _ _ E1), (fal_bind_ok _ _ _ _ _ E2).
  - cbn. intros cfg pages to fl l w l' w' [Hb Hp] Em. destruct (SevBuilder_map_policy _ _ _ _ _ _ _ Em) as [Hp' Hb'].
    split; [by apply SevBuilder_map_resign|]. by rewrite Hb', Hp'.
  - intros cfg n l w r w' [Hb Hp] Em. split; [done|]. unfold map_bytes, kvm_anonymous in Em.
    pose proof (il_anonymous n w) as Ha. destruct (map_anonymous n w) as [x k1]. injection Em as _ <-. cbn [snd] in Ha. by rewrite Ha.
  - by exists sbin, ebin, cfg, b, k1.
Qed.

(** ** The last step *)

Lemma vcpu_policy ports k fd k' : on_world (kvm_try_from_builder ports) k = Return (Ok fd, k') → fw_policy k' = fw_policy k.
Proof.
  intros E1. apply on_world_ok in E1. unfold kvm_try_from_builder in E1. case_bool_decide; [discriminate E1|].
  pose proof (il_vcpu k) as Hv. destruct (create_vcpu k) as [x k4]. by injection E1 as _ <-.
Qed.

Lemma into_accepted b block auth sgx (k : K) keep k' : sc_signatures (sb_config b) = None →
  SevBuilder_into b k = Return (Ok keep, k') →
  id_block_ok (fw_digest k') (fw_policy k) block = true → id_auth_ok ecdsa_verify block auth = true →
  ∃ k'', SevBuilder_into (resign (Some (mkSignatures block auth sgx)) b) k = Return (Ok keep, k'').
Proof.
  intros Hn Eq Hb Ha. unfold SevBuilder_into in *. cbn [resign sb_builder sb_config sc_signatures sc_block_size] in *.
  rewrite Hn in Eq. apply fal_bind_inv in Eq as (fd & k1 & E1 & Eq). apply fal_bind_inv in Eq as (fin & k2 & E2 & Eq).
  unfold try in E2. injection E2 as <- <-. apply fal_bind_inv in Eq as ([] & k3 & E3 & Eq). injection Eq as <- <-.
  apply on_world_ok in E3. rewrite <- (vcpu_policy _ _ _ _ E1) in Hb.
  destruct (il_accept block auth (repeat 0 32) _ _ E3 Hb Ha) as [k'' Ef]. exists k''. rewrite (fal_bind_ok _ _ _ _ _ E1).
  assert (finish_of (Some (mkSignatures block auth sgx)) = Ok (mkLaunchFinish (Some (block, auth)) 1 1 (repeat 0 32))) as Hf.
  { apply id_block_ok_inv in Hb as (Lb & _). apply id_auth_ok_length in Ha. unfold finish_of.
    cbn [sig_id_auth sig_id_block]. by rewrite Ha, Lb. }
  rewrite (try_bind _ _ _ _ Hf). unfold on_world at 1, mbind, fal_bind.
  by rewrite Ef.
Qed.

Lemma into_refused b s (k : K) keep k' : sc_signatures (sb_config b) = Some s → SevBuilder_into b k = Return (Ok keep, k') →
  part (sig_id_block s) 0 48 = fw_digest k' ∧ id_auth_ok ecdsa_verify (sig_id_block s) (sig_id_auth s) = true.
Proof.
  intros Hs Eq. unfold SevBuilder_into in Eq. rewrite Hs in Eq. apply fal_bind_inv in Eq as (fd & k1 & E1 & Eq).
  apply fal_bind_inv in Eq as (fin & k2 & E2 & Eq). unfold try, finish_of in E2.
  destruct (negb _); [discriminate E2|]. destruct (negb _); [discriminate E2|]. injection E2 as <- <-.
  apply fal_bind_inv in Eq as ([] & k3 & E3 & Eq). injection Eq as <- <-. apply on_world_ok in E3.
  destruct (il_refuse _ _ _ _ _ E3) as [Hb Ha]. split; [|done]. by apply id_block_ok_inv in Hb as (_ & _ & Hb & _).
Qed.

(** ** The ID block that is signed *)

Lemma hasher_block {W : Type} `{GoblinLaws, !UnstableSort, !Semver, !Anonymous W} shim exec (w : W) idb w' sbin ebin sh :
  load (T := Hasher) shim exec None w = Return (Ok idb, w') →
  Binary_new shim = Ok sbin → Binary_new exec = Ok ebin → head (headers sbin elf.EXEC) = Some sh →
  header_wf 0 sh → headers_wf (all_headers sbin ebin (p_vaddr sh)) →
  Forall (λ h, p_memsz (snd h) + 2 * PAGE ≤ 2 ^ 32) (all_headers sbin ebin (p_vaddr sh)) →
  ∃ cfg digest, SevConfig_new sbin ebin None = Ok cfg ∧ length digest = 48%nat ∧
    idb = IdBlock_as_bytes (id_block_from_digest cfg digest).
Proof.
  intros Eh Hs He Hh Hsh Hw Hsm.
  destruct (load_regions _ _ _ _ _ _ _ _ _ Eh Hs He Hh Hsh Hw) as (cfg & l0 & w0 & ss & es & rs & l1 & w1 &
    Ec & El & Hm & Ei & Ess & Ees & Hcut & Hrs & _).
  apply hasher_measures in Hm as [Hc _]; [|by eapply cuts_region_wf]. injection El as <- <-. cbn in Hc, Ei.
  apply must_ok in Ei as [Ei _]. unfold Hasher_into, update_finish, digest48 in Ei.
  destruct (_ =? 48) eqn:E48; [|discriminate Ei]. cbn [mbind outcome_bind] in Ei. injection Ei as <-. cbn [h_config h_digest].
  rewrite Hc. exists cfg. eexists. split_and!; [exact Ec| |reflexivity]. bool_to_prop. lia.
Qed.

Lemma id_block_signed cfg digest : length digest = 48%nat →
  length (IdBlock_as_bytes (id_block_from_digest cfg digest)) = 96%nat →
  id_block_ok digest (as_usize (sp_policy (sc_parameters cfg))) (IdBlock_as_bytes (id_block_from_digest cfg digest)) = true.
Proof.
  intros Hd Hl. apply id_block_ok_inv. split; [done|]. unfold IdBlock_as_bytes, id_block_from_digest in *.
  cbn [launch_digest family_id image_id id_version guest_svn policy] in *.
  rewrite !length_app, !length_to_le_bytes in Hl. set (fam := sp_family_id _) in *. set (img := sp_image_id _) in *.
  unfold le_at. split_and!.
  - rewrite !(part_app_r digest), Hd by lia. rewrite (part_app_r fam), (part_app_r img) by lia.
    replace (80 - 48 - length fam - length img)%nat with 0%nat by lia.
    rewrite part_app_l, part_all by (rewrite length_to_le_bytes; lia). done.
  - rewrite part_app_l, part_all by lia. done.
  - rewrite !(part_app_r digest), Hd by lia. rewrite (part_app_r fam), (part_app_r img) by lia.
    rewrite (part_app_r (to_le_bytes 4 1)), (part_app_r (to_le_bytes 4 _)) by (rewrite ?length_to_le_bytes; lia).
    rewrite !length_to_le_bytes. replace (88 - 48 - length fam - length img - 4 - 4)%nat with 0%nat by lia.
    rewrite part_all by apply length_to_le_bytes. by rewrite from_to_le_bytes.
Qed.

End launch.

(** ** From signing to launching *)

Section signed.
Context {W K Key : Type} `{IdLaws K Key, GoblinLaws, !UnstableSort, !Semver, !Anonymous W, !SgxCrypto}.
Variables (sgx_shim kvm_shim wasmtime : list Z).
Variables (sgx_data sgx_config sev_data sev_config kvm_data : list bool).
Variables (load_sgx_key : result (list Z)) (load_sev_keys : result (Key * Key)).

Abbreviation sign_keep := (sign_execute (W := W) sgx_shim kvm_shim wasmtime sgx_data sgx_config sev_data sev_config kvm_data
  load_sgx_key load_sev_keys).

(** The executable that is signed *)
Definition signed_exec (binary : option (list Z)) : list Z := default wasmtime binary.

Lemma sign_skip_empty binary b backends sigs (w : W) : be_shim b = [] →
  sign_backends wasmtime load_sgx_key load_sev_keys binary (b :: backends) sigs w =
  sign_backends wasmtime load_sgx_key load_sev_keys binary backends sigs w.
Proof. intros Hb. cbn [sign_backends]. by rewrite bool_decide_eq_true_2. Qed.

Lemma sign_one binary b backends sigs (w : W) : be_shim b ≠ [] → be_name b ≠ "nil"%string → signed_exec binary ≠ [] →
  sign_backends wasmtime load_sgx_key load_sev_keys binary (b :: backends) sigs w =
  (sigs ← sign_backend load_sgx_key load_sev_keys b (signed_exec binary) sigs;
   sign_backends wasmtime load_sgx_key load_sev_keys binary backends sigs) w.
Proof.
  intros Hb Hn He. cbn [sign_backends]. rewrite bool_decide_eq_false_2 by done.
  assert ((match binary with Some e => Some e | None => find_exec wasmtime b end) = Some (signed_exec binary)) as ->.
  { destruct binary; [done|]. unfold find_exec, EXECS. cbn [List.find WasmExec ex_with_backend].
    by rewrite bool_decide_eq_false_2. }
  by rewrite bool_decide_eq_false_2.
Qed.

Lemma sign_keep_sev binary (w : W) sigs w' : kvm_shim ≠ [] → signed_exec binary ≠ [] →
  sign_keep binary w = Return (Ok sigs, w') →
  ∃ w1 w2 idb id author, load (T := Hasher) kvm_shim (signed_exec binary) None w1 = Return (Ok idb, w2) ∧
    load_sev_keys = Ok (id, author) ∧ length idb = 96%nat ∧
    sig_id_block sigs = idb ∧ sig_id_auth sigs = signed_auth idb id author.
Proof.
  intros Hk He. unfold sign_execute, BACKENDS. set (s0 := mkSignatures [] [] []).
  assert (∀ s (w : W), sign_backends wasmtime load_sgx_key load_sev_keys binary
    [SevBackend kvm_shim sev_data sev_config; KvmBackend kvm_shim kvm_data; NilBackend] s w = Return (Ok sigs, w') →
    ∃ w1 w2 idb id author, load (T := Hasher) kvm_shim (signed_exec binary) None w1 = Return (Ok idb, w2) ∧
    load_sev_keys = Ok (id, author) ∧ length idb = 96%nat ∧
    sig_id_block sigs = idb ∧ sig_id_auth sigs = signed_auth idb id author) as Hsev.
  { clear w. intros s w Eq. rewrite sign_one in Eq by done. apply fal_bind_inv in Eq as (s1 & w1 & E1 & Eq).
    rewrite sign_one in Eq by done. apply fal_bind_inv in Eq as (s2 & w2 & E2 & Eq).
    rewrite sign_skip_empty in Eq by done. cbn [sign_backends] in Eq. injection Eq as -> <-.
    unfold sign_backend in E2. cbn in E2. injection E2 as -> <-. unfold sign_backend in E1. cbn [be_hash SevBackend] in E1.
    apply fal_bind_inv in E1 as (idb & w3 & E3 & E1). cbn [be_name SevBackend] in E1.
    rewrite bool_decide_eq_false_2, bool_decide_eq_true_2 in E1 by done.
    apply fal_bind_inv in E1 as ([id author] & w4 & E4 & E1). unfold try in E4. injection E4 as E4 <-.
    apply fal_bind_inv in E1 as ([b a] & w5 & E5 & E1). injection E1 as <- <-.
    destruct (decide (length idb = 96%nat)) as [Hl|Hl].
    - rewrite sign_sev_run in E5 by done. injection E5 as <- <- _. exists w, w3, idb, id, author. by split_and!.
    - unfold sign_sev in E5. rewrite (proj2 (Z.eqb_neq _ _)) in E5 by (unfold IdBlock_SIZE; lia). discriminate E5. }
  destruct (decide (sgx_shim = [])) as [Hx|Hx]; [rewrite sign_skip_empty by done; apply Hsev|].
  rewrite sign_one by done. intros Eq. apply fal_bind_inv in Eq as (s1 & w1 & _ & Eq). by apply Hsev in Eq.
Qed.

(** C6: signed keeps start.  [sign] hashes the shim and the executable and signs the ID
    block; if a keep with these files starts without signatures, it also starts with
    them: the firmware finds its own measurement and the policy in the ID block, the
    signature of the block under the ID key and that of the ID key under the author
    key, all fields where the firmware expects them. *)
Theorem signed_keep_starts binary (w : W) sigs w' (k : K) (keep : Keep) k' sbin ebin sh :
  kvm_shim ≠ [] → signed_exec binary ≠ [] →
  sign_keep binary w = Return (Ok sigs, w') →
  load (T := SevBuilder) kvm_shim (signed_exec binary) None k = Return (Ok keep, k') →
  Binary_new kvm_shim = Ok sbin → Binary_new (signed_exec binary) = Ok ebin → head (headers sbin elf.EXEC) = Some sh →
  header_wf 0 sh → headers_wf (all_headers sbin ebin (p_vaddr sh)) →
  Forall (λ h, p_memsz (snd h) + 2 * PAGE ≤ 2 ^ 32) (all_headers sbin ebin (p_vaddr sh)) →
  ∃ k'', load (T := SevBuilder) kvm_shim (signed_exec binary) (Some sigs) k = Return (Ok keep, k'').
Proof.
  intros Hk He Es Eb Hs Hx Hh Hsh Hw Hsm.
  destruct (sign_keep_sev _ _ _ _ Hk He Es) as (w1 & w2 & idb & id & author & Eh & _ & Hl & Hib & Hia).
  destruct (hasher_block _ _ _ _ _ _ _ _ Eh Hs Hx Hh Hsh Hw Hsm) as (cfg & digest & Ec & Hd & ->).
  pose proof (load_digest _ _ _ _ _ _ _ _ _ _ _ _ Eh Eb Hs Hx Hh Hsh Hw Hsm) as Hm.
  destruct (load_resigned _ _ sigs _ _ _ Eb) as (sb & eb & cfg' & b & k1 & E1 & E2 & E3 & Hb & Hp & Ei & ->).
  rewrite Hs in E1. injection E1 as <-. rewrite Hx in E2. injection E2 as <-. rewrite Ec in E3. injection E3 as <-.
  destruct (SevConfig_resign None _ _ _ Ec) as [Hn _]. pose proof (id_block_signed _ _ Hd Hl) as Hok.
  destruct sigs as [ib ia sgx]. cbn [sig_id_block sig_id_auth] in *. subst ib ia.
  apply (into_accepted b _ _ sgx k1 keep k'); [by rewrite Hb|done| |apply signed_auth_ok].
  rewrite Hp, <- Hm. unfold IdBlock_as_bytes at 1. rewrite take_app_length' by done. exact Hok.
Qed.

(** C7: nothing else starts.  A keep that is launched with signatures has the measurement
    that is in the signed ID block, whatever its shim and its executable are: [hash]
    of its files gives the digest of the block, and the chain of signatures is valid. *)
Theorem started_keep_signed shim exec sigs (w : W) idb w' (k : K) (keep : Keep) k' sbin ebin sh :
  load (T := SevBuilder) shim exec (Some sigs) k = Return (Ok keep, k') →
  load (T := Hasher) shim exec None w = Return (Ok idb, w') →
  Binary_new shim = Ok sbin → Binary_new exec = Ok ebin → head (headers sbin elf.EXEC) = Some sh →
  header_wf 0 sh → headers_wf (all_headers sbin ebin (p_vaddr sh)) →
  Forall (λ h, p_memsz (snd h) + 2 * PAGE ≤ 2 ^ 32) (all_headers sbin ebin (p_vaddr sh)) →
  take 48 idb = take 48 (sig_id_block sigs) ∧ id_auth_ok ecdsa_verify (sig_id_block sigs) (sig_id_auth sigs) = true.
Proof.
  intros Eb Eh Hs Hx Hh Hsh Hw Hsm.
  rewrite (load_digest _ _ _ _ _ _ _ _ _ _ _ _ Eh Eb Hs Hx Hh Hsh Hw Hsm).
  destruct (load_regions _ _ _ _ _ _ _ _ _ Eb Hs Hx Hh Hsh Hw) as (cfg & l0 & w0 & ss & es & rs & l1 & w1 &
    Ec & El & Hm & Ei & _ & _ & Hcut & Hrs & _).
  apply builder_measures in Hm as [Hc _]; [|by eapply cuts_region_wf].
  apply SevBuilder_try_from_digest in El as [Hb _]. rewrite Hb in Hc.
  assert (sc_signatures (sb_config l1) = Some sigs) as Hsg.
  { rewrite Hc. clear -Ec. cbn in Ec. unfold SevConfig_new in Ec. repeat case_match; try done. by injection Ec as <-. }
  destruct (into_refused _ _ _ _ _ Hsg Ei) as [<- Ha]. split; [|done]. unfold part. by rewrite drop_0.
Qed.

End signed.
