(* ===== verification/SignSample.v ===== *)
(** * Signing and launching a small keep

    The files of [LoadSample], a signature that is a checksum of the public key and the
    message, and firmware that checks ID blocks. *)

From stdpp Require Import strings.
From S2P Require Import Prelude Memory Libc PhaseAlloc Items Host HostLaws Backend KvmHost Loader LoaderLaws.
From S2P Require Import SnpLoad SnpLoadLaws SgxLoad SgxLoadLaws LoadSample Sign SignedLaunch.

#[local] Existing Instance three_files.
#[local] Existing Instance three_files_laws.
#[local] Existing Instance merge_start.
#[local] Existing Instance any_version.
#[local] Existing Instance one_address.
#[local] Existing Instance checksum.
#[local] Existing Instance sgx_checksum.

(** A key is a number; its public key has that number as a coordinate. *)
Definition toy_point (key : Z) : Z * Z := (key mod 2 ^ 384, 7).
Definition toy_sign (point : Z * Z) (msg : list Z) : Z * Z :=
  (foldl (λ a b, (a * 17 + b) mod 65521) (fst point) msg mod 2 ^ 384, 5).

#[local] Instance toy_p384 : P384 Z := {|
  ecdsa_sign key msg := toy_sign (toy_point key) msg;
  coordinates key := Uncompressed (reverse (to_le_bytes 48 (fst (toy_point key)))) (reverse (to_le_bytes 48 (snd (toy_point key))));
|}.

#[local] Instance toy_p384_laws : P384Laws Z.
Proof.
  refine {| ecdsa_verify point msg sig := bool_decide (sig = toy_sign point msg); public_point := toy_point |}.
  - intros k. cbn. split; [apply Z.mod_pos_bound|]; lia.
  - done.
  - intros k m. cbn. split; [apply Z.mod_pos_bound|]; lia.
  - intros k m. by apply bool_decide_eq_true.
Defined.

(** The machine is the launch digest and the policy. *)
Definition id_machine : Type := list Z * Z.

#[local] Instance id_kernel : Kernel id_machine :=
  {| kernel_syscall _ _ _ _ := None; kernel_cpuid _ _ _ := (0, 0, 0, 0) |}.
#[local] Instance id_kvm : KvmEnv id_machine := {|
  vcpu_run _ k m := (inr None, k, m);
  sysconf_page_size _ := 4096;
  map_anonymous _ k := (inl 0x200000, k);
  set_user_memory_region _ k := (inl tt, k);
  get_nr_memslots _ := 32764;
  create_vcpu k := (inl 0, k);
|}.

Definition final_digest (k : id_machine) : list Z :=
  sha384 (fw_page_info (mkLaunchUpdate 0 0 0 0 2 0 0 0) (fst k) (sha384 []) 0xFFFFFFFFF000).

#[local] Instance id_snp : SnpKernel id_machine := {|
  kvm_new k := (Ok (), k);
  create_vm k := (Ok (), k);
  firmware_open k := (Ok (), k);
  snp_init k := (Ok (), k);
  snp_launch_start s _ := (Ok (), (repeat 0 48, as_usize (ls_policy s)));
  register_enc_memory_region _ _ k := (Ok (), k);
  snp_launch_update u bytes k := (Ok (), bytes, (fw_update u bytes (fst k), snd k));
  snp_launch_finish f k :=
    let k' := (final_digest k, snd k) in
    match id_block_n_auth f with
    | None => (Ok (), k')
    | Some (block, auth) =>
        if id_block_ok (fst k') (snd k) block && id_auth_ok ecdsa_verify block auth then (Ok (), k') else (Err (-1), k)
    end;
  get_supported_cpuid k := (Ok [mkKvmCpuidEntry 0 0 0 99 1 2 3], k);
|}.

#[local] Instance id_snp_laws : SnpLaws id_machine.
Proof.
  refine {| fw_digest := fst; vmsa := [] |}; try done.
  - intros bytes. unfold sha384, checksum. case_bool_decide; [done|]. by rewrite length_to_le_bytes.
  - intros s k k'. by intros [= <-].
  - intros u bytes k bytes' k'. by intros [= _ <-].
  - intros f k k'. cbn. destruct (id_block_n_auth f) as [[b a]|]; [|by intros [= <-]]. destruct (_ && _); [|done]. by intros [= <-].
Defined.

#[local] Instance id_laws : IdLaws id_machine Z.
Proof.
  refine {| fw_policy := snd |}; try done.
  - intros s k k'. by intros [= <-].
  - intros block auth host k k'. cbn [snp_launch_finish id_snp id_block_n_auth]. intros [= <-] Hb Ha.
    eexists. cbn [fst snd] in *. unfold fw_digest, id_snp_laws in Hb. cbn [fst] in Hb. by rewrite Hb, Ha.
  - intros block auth host k k'. cbn [snp_launch_finish id_snp id_block_n_auth]. destruct (_ && _) eqn:E; [|done].
    intros [= <-]. by apply andb_true_iff in E.
Defined.

Abbreviation sample_sign :=
  (sign_execute (W := unit) (Key := Z) [] shim_file exec_file [] [] [] [] [] (Err (-1)) (Ok (11, 13))).

Lemma sample_signed : ∃ sigs, sample_sign None tt = Return (Ok sigs, tt) ∧ length (sig_id_auth sigs) = 4096%nat.
Proof.
  assert (Q : match sample_sign None tt with Return (Ok s, _) => length (sig_id_auth s) = 4096%nat | _ => False end)
    by (vm_compute; exact eq_refl).
  destruct (sample_sign None tt) as [[[sigs|e] []]| | |]; try destruct Q. by exists sigs.
Qed.

Lemma sample_starts : ∃ keep k, load (T := SevBuilder) shim_file exec_file None ([], 0) = Return (Ok keep, k).
Proof.
  assert (Q : match load (T := SevBuilder) shim_file exec_file None ([], 0) with Return (Ok _, _) => True | _ => False end)
    by (vm_compute; exact I).
  destruct (load _ _ _ _) as [[[keep|e] k]| | |]; try destruct Q. by exists keep, k.
Qed.

Lemma signed_keep_starts_witness : ∃ sigs keep k, sample_sign None tt = Return (Ok sigs, tt) ∧
  load (T := SevBuilder) shim_file exec_file (Some sigs) ([], 0) = Return (Ok keep, k).
Proof.
  destruct sample_signed as (sigs & Es & _). destruct sample_starts as (keep & k & Eb).
  destruct (signed_keep_starts [] shim_file exec_file [] [] [] [] [] (Err (-1)) (Ok (11, 13)) None tt sigs tt ([], 0) keep k
    shim_binary exec_binary exec_header ltac:(done) ltac:(done) Es Eb eq_refl eq_refl eq_refl sample_header_wf sample_headers_wf)
    as [k' El]; [by repeat constructor; cbn|]. exists sigs, keep, k'. split; [exact Es|exact El].
Defined.

Lemma sample_started : ∃ sigs keep k idb, load (T := SevBuilder) shim_file exec_file (Some sigs) ([], 0) = Return (Ok keep, k) ∧
  load (T := Hasher) shim_file exec_file None tt = Return (Ok idb, tt).
Proof.
  assert (Q : match sample_sign None tt with
              | Return (Ok s, _) => match load (T := SevBuilder) shim_file exec_file (Some s) ([], 0) with Return (Ok _, _) => True | _ => False end
              | _ => False end) by (vm_compute; exact I).
  destruct (sample_sign None tt) as [[[sigs|e] []]| | |]; try destruct Q.
  destruct (load _ _ _ _) as [[[keep|e] k]| | |] eqn:E; try destruct Q. destruct sample_hashed as [idb Eh].
  exists sigs, keep, k, idb. split; [exact E|exact Eh].
Qed.

Lemma started_keep_signed_witness : ∃ sigs idb, take 48 idb = take 48 (sig_id_block sigs) ∧
  load (T := Hasher) shim_file exec_file None tt = Return (Ok idb, tt) ∧
  id_auth_ok ecdsa_verify (sig_id_block sigs) (sig_id_auth sigs) = true.
Proof.
  destruct sample_started as (sigs & keep & k & idb & Eb & Eh). exists sigs, idb.
  destruct (started_keep_signed shim_file exec_file sigs tt idb tt ([], 0) keep k shim_binary exec_binary exec_header Eb Eh
    eq_refl eq_refl eq_refl sample_header_wf sample_headers_wf) as [Hd Ha]; [by repeat constructor; cbn|]. by split_and!.
Defined.
