(* ===== verification/WasmConfig.v ===== *)
(** * The configuration of a workload

    [crates/enarx-config/src/lib.rs].  A configuration is decoded from a TOML document,
    whose text the [toml] crate parses; what [serde] derives for the types is written
    out over the values of such a document.  URLs are a parameter ([UrlOps]).

    A configuration that was decoded is well-formed, and a well-formed configuration
    is decoded from what it is encoded to. *)
From Stdlib Require Import Ascii.
From stdpp Require Import strings gmap pretty.
From S2P Require Import Prelude.

#[local] Open Scope string_scope.
#[local] Set Warnings "-register-all".

(** ** Values of a document *)

Inductive Toml : Type :=
| TString (s : string)
| TInteger (z : Z)
| TArray (l : list Toml)
| TTable (fields : list (string * Toml)).

Definition field (name : string) (fields : list (string * Toml)) : option Toml :=
  snd <$> List.find (λ f, bool_decide (fst f = name)) fields.

Module CE.
Definition Type_ : Z := -1.
Definition Missing : Z := -2.
Definition Name : Z := -3.
Definition Variant : Z := -4.
Definition Range : Z := -5.
End CE.

Definition as_string (v : Toml) : result string := match v with TString s => Ok s | _ => Err CE.Type_ end.

Definition as_u16 (v : Toml) : result Z :=
  match v with TInteger z => if ((0 <=? z) && (z <? 2 ^ 16))%Z then Ok z else Err CE.Range | _ => Err CE.Type_ end.

(** A field that has to be there, one that may be missing, and one with a default *)
Definition required_field {A : Type} (f : Toml → result A) (name : string) (fields : list (string * Toml)) : result A :=
  match field name fields with Some v => f v | None => Err CE.Missing end.
Definition optional_field {A : Type} (f : Toml → result A) (name : string) (fields : list (string * Toml)) : result (option A) :=
  match field name fields with
  | Some v => match f v with Ok a => Ok (Some a) | Err e => Err e end
  | None => Ok None
  end.
Definition default_field {A : Type} (d : A) (f : Toml → result A) (name : string) (fields : list (string * Toml)) : result A :=
  match field name fields with Some v => f v | None => Ok d end.

Fixpoint map_result {A B : Type} (f : A → result B) (l : list A) : result (list B) :=
  match l with
  | [] => Ok []
  | a :: l =>
      match f a with
      | Err e => Err e
      | Ok b => match map_result f l with Ok bs => Ok (b :: bs) | Err e => Err e end
      end
  end.
Definition as_array {A : Type} (f : Toml → result A) (v : Toml) : result (list A) :=
  match v with TArray l => map_result f l | _ => Err CE.Type_ end.

(** ** The types *)

Definition default_port : Z := 443.
Definition default_addr : string := "::".

Fixpoint contains (c : ascii) (s : string) : bool :=
  match s with EmptyString => false | String d s => Ascii.eqb c d || contains c s end.

(** [FileName] is a string; [Deserialize for FileName] *)
Definition FileName_deserialize (v : Toml) : result string :=
  match as_string v with
  | Err e => Err e
  | Ok name => if contains ":"%char name then Err CE.Name else Ok name
  end.

Inductive Protocol : Type := Tls | Tcp.
#[global] Instance Protocol_eq_dec : EqDecision Protocol.
Proof. solve_decision. Defined.
Definition Protocol_default : Protocol := Tls.
Definition Protocol_deserialize (v : Toml) : result Protocol :=
  match as_string v with
  | Err e => Err e
  | Ok s => if bool_decide (s = "tls") then Ok Tls else if bool_decide (s = "tcp") then Ok Tcp else Err CE.Variant
  end.
Definition Protocol_serialize (p : Protocol) : Toml := TString (match p with Tls => "tls" | Tcp => "tcp" end).

Inductive File : Type :=
| Null (name : option string)
| Stdin (name : option string)
| Stdout (name : option string)
| Stderr (name : option string)
| Listen (name addr : string) (port : Z) (prot : Protocol)
| Connect (name : option string) (host : string) (port : Z) (prot : Protocol).
#[global] Instance File_eq_dec : EqDecision File.
Proof. solve_decision. Defined.

Definition File_name (f : File) : string :=
  match f with
  | Null name => default "null" name
  | Stdin name => default "stdin" name
  | Stdout name => default "stdout" name
  | Stderr name => default "stderr" name
  | Listen name _ _ _ => name
  | Connect name host _ _ => default host name
  end.

Definition bind_result {A B : Type} (r : result A) (f : A → result B) : result B :=
  match r with Ok a => f a | Err e => Err e end.

(** [#[serde(tag = "kind")]] *)
Definition File_deserialize (v : Toml) : result File :=
  match v with
  | TTable fields =>
      bind_result (required_field as_string "kind" fields) (λ kind,
      let name := optional_field FileName_deserialize "name" fields in
      if bool_decide (kind = "null") then bind_result name (λ name, Ok (Null name))
      else if bool_decide (kind = "stdin") then bind_result name (λ name, Ok (Stdin name))
      else if bool_decide (kind = "stdout") then bind_result name (λ name, Ok (Stdout name))
      else if bool_decide (kind = "stderr") then bind_result name (λ name, Ok (Stderr name))
      else if bool_decide (kind = "listen") then
        bind_result (required_field FileName_deserialize "name" fields) (λ name,
        bind_result (default_field default_addr as_string "addr" fields) (λ addr,
        bind_result (default_field default_port as_u16 "port" fields) (λ port,
        bind_result (default_field Protocol_default Protocol_deserialize "prot" fields) (λ prot,
        Ok (Listen name addr port prot)))))
      else if bool_decide (kind = "connect") then
        bind_result name (λ name,
        bind_result (required_field as_string "host" fields) (λ host,
        bind_result (default_field default_port as_u16 "port" fields) (λ port,
        bind_result (default_field Protocol_default Protocol_deserialize "prot" fields) (λ prot,
        Ok (Connect name host port prot)))))
      else Err CE.Variant)
  | _ => Err CE.Type_
  end.

(** A name that is [None] is left out. *)
Definition name_field (name : option string) : list (string * Toml) :=
  match name with Some n => [("name", TString n)] | None => [] end.

Definition File_serialize (f : File) : Toml :=
  TTable match f with
  | Null name => ("kind", TString "null") :: name_field name
  | Stdin name => ("kind", TString "stdin") :: name_field name
  | Stdout name => ("kind", TString "stdout") :: name_field name
  | Stderr name => ("kind", TString "stderr") :: name_field name
  | Listen name addr port prot =>
      [("kind", TString "listen"); ("name", TString name); ("addr", TString addr); ("port", TInteger port);
       ("prot", Protocol_serialize prot)]
  | Connect name host port prot =>
      ("kind", TString "connect") :: name_field name ++
      [("host", TString host); ("port", TInteger port); ("prot", Protocol_serialize prot)]
  end.

Class UrlOps := {
  Url : Type;
  Url_parse : string → result Url;
  Url_as_str : Url → string;
  Url_scheme : Url → string;
}.

Section config.
Context `{UrlOps}.

Record Config : Type := mkConfig {
  cfg_env : gmap string string;
  cfg_args : list string;
  cfg_files : list File;
  cfg_steward : option Url;
}.

Definition Config_default : Config := mkConfig ∅ [] [Stdin None; Stdout None; Stderr None] None.

Definition Url_deserialize (v : Toml) : result Url := bind_result (as_string v) Url_parse.

(** [HashMap<String, String>]: a later entry replaces an earlier one. *)
Definition env_deserialize (v : Toml) : result (gmap string string) :=
  match v with
  | TTable fields =>
      bind_result (map_result (λ f, bind_result (as_string (snd f)) (λ s, Ok (fst f, s))) fields) (λ l,
      Ok (list_to_map (reverse l)))
  | _ => Err CE.Type_
  end.

Definition Config_deserialize (v : Toml) : result Config :=
  match v with
  | TTable fields =>
      bind_result (default_field ∅ env_deserialize "env" fields) (λ env,
      bind_result (default_field [] (as_array as_string) "args" fields) (λ args,
      bind_result (default_field [] (as_array File_deserialize) "files" fields) (λ files,
      bind_result (optional_field Url_deserialize "steward" fields) (λ steward,
      Ok (mkConfig env args files steward)))))
  | _ => Err CE.Type_
  end.

Definition Config_serialize (self : Config) : Toml :=
  TTable ((if bool_decide (cfg_args self = []) then [] else [("args", TArray (TString <$> cfg_args self))]) ++
          (match cfg_steward self with Some u => [("steward", TString (Url_as_str u))] | None => [] end) ++
          (if bool_decide (cfg_env self = ∅) then []
           else [("env", TTable ((λ kv, (fst kv, TString (snd kv))) <$> map_to_list (cfg_env self)))]) ++
          (if bool_decide (cfg_files self = []) then [] else [("files", TArray (File_serialize <$> cfg_files self))])).

End config.

#[local] Open Scope string_scope.

Class UrlLaws `{UrlOps} := url_roundtrip : ∀ u, Url_parse (Url_as_str u) = Ok u.

Definition name_wf (name : string) : Prop := contains ":"%char name = false.
Definition port_wf (port : Z) : Prop := (0 ≤ port < 2 ^ 16)%Z.

Definition file_wf (f : File) : Prop :=
  match f with
  | Null name | Stdin name | Stdout name | Stderr name => from_option name_wf True name
  | Listen name _ port _ => name_wf name ∧ port_wf port
  | Connect name _ port _ => from_option name_wf True name ∧ port_wf port
  end.

(** ** What is decoded is well-formed *)

Lemma bind_result_ok {A B : Type} (r : result A) (f : A → result B) b :
  bind_result r f = Ok b → ∃ a, r = Ok a ∧ f a = Ok b.
Proof. destruct r as [a|e]; [by exists a|done]. Qed.

Lemma map_result_Forall2 {A B : Type} (f : A → result B) l : ∀ bs,
  map_result f l = Ok bs → Forall2 (λ a b, f a = Ok b) l bs.
Proof.
  induction l as [|a l IH]; intros bs E; cbn [map_result] in E; [injection E as <-; constructor|].
  destruct (f a) as [b|e] eqn:Ea; [|done]. destruct (map_result f l) as [bs'|e]; [|done]. injection E as <-.
  constructor; auto.
Qed.

Lemma FileName_wf v name : FileName_deserialize v = Ok name → name_wf name.
Proof. unfold FileName_deserialize. destruct (as_string v) as [s|e]; [|done]. destruct (contains _ s) eqn:E; [done|]. by intros [= <-]. Qed.

Lemma optional_name_wf fields name :
  optional_field FileName_deserialize "name" fields = Ok name → from_option name_wf True name.
Proof.
  unfold optional_field. destruct (field "name" fields) as [v|]; [|by intros [= <-]].
  destruct (FileName_deserialize v) as [s|e] eqn:E; [|done]. intros [= <-]. by apply FileName_wf in E.
Qed.

Lemma port_field_wf fields port : default_field default_port as_u16 "port" fields = Ok port → port_wf port.
Proof.
  unfold default_field. destruct (field "port" fields) as [v|]; [|by intros [= <-]].
  unfold as_u16. destruct v; try done. destruct (_ && _) eqn:E; [|done]. intros [= <-].
  apply andb_true_iff in E as [E1 E2]. bool_to_prop. unfold port_wf. lia.
Qed.

Ltac inv_binds :=
  repeat match goal with E : bind_result _ _ = Ok _ |- _ => apply bind_result_ok in E as (? & ? & E) end.

Lemma File_deserialize_wf v f : File_deserialize v = Ok f → file_wf f.
Proof.
  unfold File_deserialize. destruct v as [| | |fields]; try done. intros E. apply bind_result_ok in E as (kind & _ & E).
  cbv zeta in E. repeat (destruct (bool_decide _); [inv_binds; injection E as <-; cbn; eauto using optional_name_wf|]); [..|done].
  - split; [|by eapply port_field_wf]. unfold required_field in *. destruct (field "name" fields); [|done]. by eapply FileName_wf.
  - split; [by eapply optional_name_wf|by eapply port_field_wf].
Qed.

(** ** The round trip *)

Lemma FileName_ok n : name_wf n → FileName_deserialize (TString n) = Ok n.
Proof. unfold FileName_deserialize. cbn. by intros ->. Qed.

Lemma as_u16_ok p : port_wf p → as_u16 (TInteger p) = Ok p.
Proof. unfold as_u16, port_wf. intros [H1 H2]. by rewrite (proj2 (Z.leb_le 0 p)), (proj2 (Z.ltb_lt p _)). Qed.

Lemma File_roundtrip f : file_wf f → File_deserialize (File_serialize f) = Ok f.
Proof.
  destruct f as [[n|]|[n|]|[n|]|[n|]|n a p []|[n|] h p []]; cbn [file_wf from_option]; intros Hw; try reflexivity;
    cbv -[FileName_deserialize as_u16 file_wf name_wf port_wf] in *; rewrite ?FileName_ok, ?as_u16_ok by tauto; reflexivity.
Qed.

Lemma map_result_serialize {A B : Type} (f : A → B) (g : B → result A) l :
  Forall (λ a, g (f a) = Ok a) l → map_result g (f <$> l) = Ok l.
Proof. induction 1 as [|a l E _ IH]; cbn [fmap list_fmap map_result]; [done|]. by rewrite E, IH. Qed.

Section config.
Context `{UrlLaws}.

Definition config_wf (c : Config) : Prop := Forall file_wf (cfg_files c).

(** C36: a configuration that was decoded is well-formed: no name that was given to a file
    descriptor contains a colon, and ports are 16-bit numbers. *)
Theorem decoded_config_wf v c : Config_deserialize v = Ok c → config_wf c.
Proof.
  unfold Config_deserialize. destruct v as [| | |fields]; try done. intros E. inv_binds. injection E as <-.
  unfold config_wf. cbn [cfg_files]. match goal with H : default_field [] _ "files" _ = Ok ?l |- Forall _ ?l => rename H into Ef end.
  unfold default_field, as_array in Ef. destruct (field "files" fields) as [[]|]; try done; [|by injection Ef as <-].
  apply map_result_Forall2 in Ef. induction Ef; constructor; eauto using File_deserialize_wf.
Qed.

Lemma env_roundtrip (m : gmap string string) :
  env_deserialize (TTable ((λ kv, (fst kv, TString (snd kv))) <$> map_to_list m)) = Ok m.
Proof.
  unfold env_deserialize. rewrite map_result_serialize with (l := map_to_list m).
  - cbn [bind_result]. f_equal. rewrite <- (list_to_map_to_list m) at 2. apply list_to_map_proper.
    + rewrite fmap_reverse, reverse_Permutation. apply NoDup_fst_map_to_list.
    + apply reverse_Permutation.
  - apply Forall_true. by intros [k v].
Qed.

(** C35: the round trip of configurations.  A well-formed configuration that is encoded and
    decoded is the same, although empty parts are left out of its encoding. *)
Theorem config_roundtrip c : config_wf c → Config_deserialize (Config_serialize c) = Ok c.
Proof.
  destruct c as [env args files steward]. unfold config_wf. cbn [cfg_files]. intros Hw.
  assert (He := env_roundtrip env).
  assert (Ha : map_result as_string (TString <$> args) = Ok args) by (apply map_result_serialize; by apply Forall_true).
  assert (Hf : map_result File_deserialize (File_serialize <$> files) = Ok files)
    by (apply map_result_serialize; eapply Forall_impl; [exact Hw|apply File_roundtrip]).
  unfold Config_deserialize, Config_serialize, default_field, optional_field. cbn [cfg_env cfg_args cfg_files cfg_steward].
  case_bool_decide as Ba; case_bool_decide as Be; case_bool_decide as Bf; subst; destruct steward as [u|];
    cbn -[env_deserialize map_result bool_decide]; cbv [field];
    cbn -[env_deserialize map_result bool_decide];
    repeat first [rewrite (bool_decide_eq_false_2 (_ = _)) by done | rewrite (bool_decide_eq_true_2 (_ = _)) by done];
    cbn -[env_deserialize map_result bool_decide]; unfold Url_deserialize; cbn -[env_deserialize map_result];
    rewrite ?He, ?Ha, ?Hf; cbn -[env_deserialize map_result]; rewrite ?url_roundtrip; cbn -[env_deserialize map_result];
    rewrite ?He, ?Ha, ?Hf; done.
Qed.

End config.
