(* ===== verification/WasmLoader.v ===== *)
(** * Bringing up a workload

    [crates/exec-wasmtime/src]: the states of the [Loader], from the arguments to the
    completed workload.  The keep's shim answers the calls of [platform.rs]; the network,
    the repository ([drawbridge_client]), cryptography ([ring], [sha2]), the encodings of
    [x509_cert] and [wasmtime] are parameters ([WasmEnv]). *)

From Stdlib Require Import Ascii.
From stdpp Require Import strings gmap pretty.
From S2P Require Import Prelude Libc WasmConfig.

#[local] Open Scope string_scope.
#[local] Open Scope list_scope.
#[local] Open Scope Z_scope.

(** ** [lib.rs] *)

Definition PACKAGE_ENTRYPOINT : string := "main.wasm".
Definition PACKAGE_CONFIG : string := "Enarx.toml".

Section package.
Context `{UrlOps}.
Inductive Package : Type :=
| Remote (url : Url)
| Local (wasm : Z) (conf : option Z).
End package.

(** ** Types of the libraries *)

(** [loader/pki.rs]: object identifiers and algorithms *)
Inductive Oid : Type := ECPK | P256 | P384 | OtherOid (arcs : list Z).
#[global] Instance Oid_eq_dec : EqDecision Oid.
Proof. solve_decision. Defined.
Inductive SignatureAlgorithm : Type := ES256 | ES384 | OtherAlgorithm.
#[global] Instance SignatureAlgorithm_eq_dec : EqDecision SignatureAlgorithm.
Proof. solve_decision. Defined.

(** [PrivateKeyInfo]: its algorithm, the key, and its encoding *)
Record PrivateKeyInfo : Type := mkPrivateKeyInfo {
  pki_oids : result (Oid * option Oid); private_key : list Z; pki_der : list Z;
}.
(** [SubjectPublicKeyInfo] *)
Record PublicKeyInfo : Type := mkPublicKeyInfo { spki_oids : result (Oid * option Oid); subject_public_key : list Z }.

(** [platform.rs] *)
Inductive Technology : Type := Kvm | Snp | Sgx.
#[global] Instance Technology_eq_dec : EqDecision Technology.
Proof. solve_decision. Defined.
Definition Technology_oid (t : Technology) : Oid :=
  OtherOid ([1; 3; 6; 1; 4; 1; 58270; 1] ++ [match t with Kvm => 1 | Sgx => 2 | Snp => 3 end]).

(** [Extension] and what a certification request contains *)
Record Extension : Type := mkExtension { extn_id : Oid; critical : bool; extn_value : list Z }.
Record CertReqInfo : Type := mkCertReqInfo { cri_extensions : list Extension; cri_public_key : PublicKeyInfo }.
Record CertReq : Type := mkCertReq { req_info : CertReqInfo; req_algorithm : SignatureAlgorithm; req_signature : list Z }.

(** [TbsCertificate]: version 3, the lifetime in seconds from now *)
Record TbsCertificate : Type := mkTbsCertificate {
  serial_number : list Z; tbs_signature : SignatureAlgorithm; issuer : list Z; validity : Z; subject : list Z;
  subject_public_key_info : PublicKeyInfo; tbs_extensions : list Extension;
}.
(** The values of the extensions *)
Inductive ExtensionValue : Type :=
| KeyUsage (digital_signature key_encipherment : bool)
| ExtendedKeyUsage (server_auth client_auth : bool)
| BasicConstraints (ca : bool).
Definition ID_CE_KEY_USAGE : Oid := OtherOid [2; 5; 29; 15].
Definition ID_CE_BASIC_CONSTRAINTS : Oid := OtherOid [2; 5; 29; 19].
Definition ID_CE_EXT_KEY_USAGE : Oid := OtherOid [2; 5; 29; 37].

(** [rustls]: what the configurations are made of; clients trust the roots of [webpki]. *)
Inductive TlsVersion : Type := TLS13.
Inductive KxGroup : Type := X25519 | SECP384R1 | SECP256R1.
Inductive CipherSuite : Type := TLS13_AES_256_GCM_SHA384 | TLS13_AES_128_GCM_SHA256 | TLS13_CHACHA20_POLY1305_SHA256.
Record TlsConfig : Type := mkTlsConfig {
  cipher_suites : list CipherSuite; kx_groups : list KxGroup; protocol_versions : list TlsVersion;
  tls_certs : list (list Z); tls_key : list Z; webpki_roots : bool;
}.

(** [drawbridge_client::types] *)
Record Meta : Type := mkMeta { meta_size : Z; essence_str : string; mime_params : string; meta_hash : list Z }.
#[global] Instance Meta_eq_dec : EqDecision Meta.
Proof. solve_decision. Defined.
Definition TreeDirectory : Type := gmap string Meta.
Inductive TagEntry : Type := Unsigned (entry : Meta) | Signed.
(** The entity at the top, as the root of a tree, and its child [tree] *)
Inductive Root : Type := Top | Tree.

(** Files of the workload *)
Inductive WasiFile : Type :=
| NullFile | StdinFile | StdoutFile | StderrFile
| TcpListener (id : Z) | TlsListener (id : Z) (cfg : TlsConfig) | TcpStream (id : Z) | TlsStream (id : Z).
(** [FileCaps], with those that the sources do not name taken together *)
Inductive FileCap : Type := READ | WRITE | SEEK | TELL | FDSTAT_SET_FLAGS | FILESTAT_GET | POLL_READWRITE | OtherCaps.
#[global] Instance FileCap_eq_dec : EqDecision FileCap.
Proof. solve_decision. Defined.

Record WasiCtx : Type := mkWasiCtx {
  ctx_env : list (string * string); ctx_args : list string; ctx_files : gmap Z (WasiFile * list FileCap);
}.

(** The default function has a number of results, null (0) at first; it ends with values,
    or with a trap that may have a status. *)
Inductive CallResult : Type := Values (vs : list Z) | Trapped (status : option (option Z)).

Module WE.
Definition Other : Z := -1.
Definition Unsupported : Z := -2.
Definition Mime : Z := -3.
Definition Metadata : Z := -4.
Definition Entry : Z := -5.
Definition Size : Z := -6.
Definition Tag : Z := -7.
Definition Scheme : Z := -8.
Definition Execution : Z := -9.
End WE.

(** What runs outside of the loader.  [sys_getatt] and [sys_getkey] give [rax] (signed),
    [rdx] and the buffer afterwards. *)
Class WasmEnv (W : Type) `{UrlOps} := {
  sys_getatt : option (list Z) → option (list Z) → W → Z * Z * list Z * W;
  sys_getkey : option (list Z) → W → Z * list Z * W;
  generate_pkcs8 : SignatureAlgorithm → W → result (list Z) * W;
  pki_from_der : list Z → result PrivateKeyInfo;
  ec_public_key : list Z → result (option (list Z));
  spki_to_vec : PublicKeyInfo → result (list Z);
  ecdsa_sign_asn1 : SignatureAlgorithm → list Z → list Z → W → result (list Z) * W;
  wasm_sha256 : list Z → list Z;
  wasm_sha384 : list Z → list Z;
  cri_to_vec : CertReqInfo → result (list Z);
  req_to_vec : CertReq → result (list Z);
  rdn_from_string : string → result (list Z);
  extension_to_vec : ExtensionValue → result (list Z);
  getrandom32 : W → result (list Z) * W;
  uint_new : list Z → result unit;
  tbs_to_vec : TbsCertificate → result (list Z);
  certificate_to_vec : TbsCertificate → list Z → result (list Z);
  steward_post : Url → list Z → W → result (list Z) * W;
  pki_path_from_der : list Z → result (list (list Z));
  new_scoped : Url → result unit;
  top_get : Url → Z → W → result (Meta * result (list Z)) * W;
  node_get : Root → string → Z → W → result (Meta * list Z) * W;
  TreeDirectory_TYPE : string;
  dir_from_json : list Z → result TreeDirectory;
  tag_from_json : list Z → result TagEntry;
  string_from_utf8 : list Z → result string;
  toml_from_str : string → result Toml;
  read_fd : Z → W → result (list Z) * W;
  tls_config_ok : TlsConfig → result unit;
  module_from_binary : list Z → result unit;
  push_env : list (string * string) → string → string → result (list (string * string));
  push_arg : list string → string → result (list string);
  tcp_bind : string → Z → W → result Z * W;
  tcp_connect : string → Z → W → result Z * W;
  tls_handshake : Z → string → TlsConfig → W → result Z * W;
  isatty : WasiFile → W → bool;
  default_results : list Z → option nat;
  call_default : list Z → WasiCtx → W → CallResult * W;
}.

Section loader.
Context {W : Type} `{WasmEnv W}.

Definition on_env {A : Type} (f : W → result A * W) : fal W A := λ w, let '(r, w) := f w in Return (r, w).
Definition ensure (b : bool) (e : Z) : fal W unit := if b then mret () else try (Err e).

(** ** [loader/pki.rs] *)

Definition pki_generate (oid : Oid) : fal W (list Z) :=
  match oid with
  | P256 => on_env (generate_pkcs8 ES256)
  | P384 => on_env (generate_pkcs8 ES384)
  | _ => try (Err WE.Unsupported)
  end.

Definition pki_public_key (self : PrivateKeyInfo) : result PublicKeyInfo :=
  match pki_oids self with
  | Err e => Err e
  | Ok (ECPK, _) =>
      match ec_public_key (private_key self) with
      | Err e => Err e
      | Ok None => Err WE.Other
      | Ok (Some pk) => Ok (mkPublicKeyInfo (pki_oids self) pk)
      end
  | Ok _ => Err WE.Unsupported
  end.

Definition pki_signs_with (self : PrivateKeyInfo) : result SignatureAlgorithm :=
  match pki_oids self with
  | Err e => Err e
  | Ok (ECPK, Some P256) => Ok ES256
  | Ok (ECPK, Some P384) => Ok ES384
  | Ok _ => Err WE.Unsupported
  end.

Definition pki_sign (self : PrivateKeyInfo) (body : list Z) (algo : SignatureAlgorithm) : fal W (list Z) :=
  oids ← try (pki_oids self);
  match oids, algo with
  | (ECPK, Some P256), ES256 => on_env (ecdsa_sign_asn1 ES256 (pki_der self) body)
  | (ECPK, Some P384), ES384 => on_env (ecdsa_sign_asn1 ES384 (pki_der self) body)
  | _, _ => try (Err WE.Unsupported)
  end.

(** ** [loader/configured/platform.rs] *)

Record Platform : Type := mkPlatform { pl_technology : Technology; report_size : Z; key_size : Z }.

Definition get_att (nonce buf : option (list Z)) : fal W (Technology * Z * list Z) := λ w,
  let '(rax, rdx, bytes, w) := sys_getatt nonce buf w in
  Return (if (rax =? - ENOSYS) || (rax =? - EPERM) then Ok (Kvm, 0, bytes)
          else if rax <? 0 then Err (- rax)
          else if rdx =? 0 then Ok (Kvm, rax, bytes)
          else if rdx =? 1 then Ok (Snp, rax, bytes)
          else if rdx =? 2 then Ok (Sgx, rax, bytes) else Err WE.Other, w).

Definition get_key (buf : option (list Z)) : fal W (Z * list Z) := λ w,
  let '(rax, bytes, w) := sys_getkey buf w in
  Return (if (rax =? - ENOSYS) || (rax =? - EPERM) then Ok (0, bytes)
          else if rax <? 0 then Err (- rax) else Ok (rax, bytes), w).

Definition Platform_get : fal W Platform :=
  '(technology, report_size, _) ← get_att None None;
  '(key_size, _) ← get_key None;
  mret (mkPlatform technology report_size key_size).

Definition Platform_key (self : Platform) : fal W (list Z) :=
  let buf := repeat 0 (Z.to_nat (key_size self)) in
  '(size, buf) ← get_key (Some buf);
  if Z.of_nat (length buf) <? size then try (Err WE.Other) else mret buf.

Definition Platform_attest (self : Platform) (nonce : list Z) : fal W (list Z) :=
  let buf := repeat 0 (Z.to_nat (report_size self)) in
  '(_, size, buf) ← get_att (Some nonce) (Some buf);
  if Z.of_nat (length buf) <? size then try (Err WE.Other) else mret (take (Z.to_nat size) buf).

(** ** [loader/configured/mod.rs] *)

Record Requested : Type := mkRequested { rq_package : Package; prvkey : list Z; crtreq : list Z }.

Definition make_csr (pki : PrivateKeyInfo) (exts : list Extension) : fal W (list Z) :=
  public_key ← try (pki_public_key pki);
  let cri := mkCertReqInfo exts public_key in
  info ← try (cri_to_vec cri);
  algorithm ← try (pki_signs_with pki);
  sig ← pki_sign pki info algorithm;
  try (req_to_vec (mkCertReq cri algorithm sig)).

(** [key_hash[..n].copy_from_slice(&hash)] in 64 zero bytes *)
Definition pad64 (n : nat) (hash : list Z) : outcome (list Z) :=
  if (length hash =? n)%nat then Return (hash ++ repeat 0 (64 - n)) else Panicked.

Definition key_hash (t : Technology) (der : list Z) : outcome (list Z) :=
  match t with
  | Snp => pad64 48 (wasm_sha384 der)
  | _ => pad64 32 (wasm_sha256 der)
  end.

Definition cert_algo (t : Technology) : Oid := match t with Snp => P384 | Sgx => P256 | Kvm => P256 end.

Definition unwrap {A : Type} (r : result A) : fal W A := match r with Ok a => mret a | Err _ => must Panicked end.

Definition configured_next (package : Package) : fal W Requested :=
  platform ← Platform_get;
  raw ← pki_generate (cert_algo (pl_technology platform));
  pki ← try (pki_from_der raw);
  public_key ← unwrap (pki_public_key pki);
  der ← unwrap (spki_to_vec public_key);
  hash ← must (key_hash (pl_technology platform) der);
  attestation_report ← Platform_attest platform hash;
  req ← make_csr pki [mkExtension (Technology_oid (pl_technology platform)) false attestation_report];
  mret (mkRequested package raw req).

(** ** [loader/requested.rs] *)

Definition MAX_WASM_SIZE : Z := 100000000.
Definition MAX_CONF_SIZE : Z := 1000000.
Definition MAX_DIR_SIZE : Z := 1000000.
Definition MAX_TOP_SIZE : Z := MAX_WASM_SIZE.
Definition TOML_MEDIA_TYPE : string := "application/toml".
Definition WASM_MEDIA_TYPE : string := "application/wasm".

Definition get_wasm (root : Root) (entry : Meta) : fal W (list Z) :=
  _ ← ensure (bool_decide (essence_str entry = WASM_MEDIA_TYPE)) WE.Mime;
  '(meta, wasm) ← on_env (node_get root PACKAGE_ENTRYPOINT MAX_WASM_SIZE);
  _ ← ensure (bool_decide (meta = entry)) WE.Metadata;
  mret wasm.

Definition get_package (root : Root) (dir : TreeDirectory) : fal W (list Z * option string) :=
  wasm_entry ← try (ok_or (dir !! PACKAGE_ENTRYPOINT) WE.Entry);
  wasm ← get_wasm root wasm_entry;
  match dir !! PACKAGE_CONFIG with
  | None => mret (wasm, None)
  | Some entry =>
      _ ← ensure (bool_decide (essence_str entry = TOML_MEDIA_TYPE)) WE.Mime;
      '(meta, bytes) ← on_env (node_get root PACKAGE_CONFIG MAX_CONF_SIZE);
      conf ← try (string_from_utf8 bytes);
      _ ← ensure (bool_decide (meta = entry)) WE.Metadata;
      mret (wasm, Some conf)
  end.

(** The entity at the top is a module, a directory or a tag. *)
Definition fetch_tag (entry : Meta) : fal W (list Z * option string) :=
  if bool_decide (essence_str entry = WASM_MEDIA_TYPE) then wasm ← get_wasm Tree entry; mret (wasm, None)
  else if bool_decide (essence_str entry = TreeDirectory_TYPE) then
    '(meta, body) ← on_env (node_get Tree "" MAX_DIR_SIZE);
    dir ← try (dir_from_json body);
    _ ← ensure (bool_decide (meta = entry)) WE.Metadata;
    get_package Tree dir
  else try (Err WE.Mime).

Definition fetch_remote (url : Url) : fal W (list Z * option string) :=
  _ ← try (new_scoped url);
  '(meta, rdr) ← on_env (top_get url MAX_TOP_SIZE);
  if bool_decide (essence_str meta = WASM_MEDIA_TYPE) then
    _ ← ensure (meta_size meta <=? MAX_WASM_SIZE) WE.Size;
    wasm ← try rdr;
    _ ← ensure (Z.of_nat (length wasm) =? meta_size meta) WE.Size;
    mret (wasm, None)
  else if bool_decide (essence_str meta = TreeDirectory_TYPE) then
    body ← try rdr;
    dir ← try (dir_from_json body);
    get_package Top dir
  else
    body ← try rdr;
    tag ← try (tag_from_json body);
    match tag with
    | Unsigned entry => fetch_tag entry
    | Signed => try (Err WE.Tag)
    end.

Definition fetch (package : Package) : fal W (list Z * option string) :=
  match package with
  | Remote url => fetch_remote url
  | Local wasm conf =>
      webasm ← on_env (read_fd wasm);
      match conf with
      | None => mret (webasm, None)
      | Some conf =>
          bytes ← on_env (read_fd conf);
          config ← try (string_from_utf8 bytes);
          mret (webasm, Some config)
      end
  end.

Definition parse_config (config : option string) : result Config :=
  match config with
  | Some text => bind_result (toml_from_str text) Config_deserialize
  | None => Ok Config_default
  end.

Definition steward (self : Requested) (url : Url) : fal W (list (list Z)) :=
  if negb (bool_decide (Url_scheme url = "https")) then try (Err WE.Scheme)
  else
    body ← on_env (steward_post url (crtreq self));
    path ← try (pki_path_from_der body);
    mret (reverse path).

Definition selfsigned (self : Requested) : fal W (list (list Z)) :=
  pki ← try (pki_from_der (prvkey self));
  rdns ← try (rdn_from_string "CN=localhost");
  ku ← try (extension_to_vec (KeyUsage true true));
  eu ← try (extension_to_vec (ExtendedKeyUsage true true));
  bc ← try (extension_to_vec (BasicConstraints false));
  serial ← on_env getrandom32;
  _ ← try (uint_new serial);
  signature ← try (pki_signs_with pki);
  public_key ← try (pki_public_key pki);
  let tbs := mkTbsCertificate serial signature rdns (60 * 60 * 24 * 365) rdns public_key
    [mkExtension ID_CE_KEY_USAGE true ku; mkExtension ID_CE_BASIC_CONSTRAINTS true bc; mkExtension ID_CE_EXT_KEY_USAGE false eu] in
  body ← try (tbs_to_vec tbs);
  sig ← pki_sign pki body signature;
  crt ← try (certificate_to_vec tbs sig);
  mret [crt].

(** The policy for both sides of TLS *)
Definition tls_config (certs : list (list Z)) (key : list Z) (roots : bool) : TlsConfig :=
  mkTlsConfig [TLS13_AES_256_GCM_SHA384; TLS13_AES_128_GCM_SHA256; TLS13_CHACHA20_POLY1305_SHA256]
    [X25519; SECP384R1; SECP256R1] [TLS13] certs key roots.

Record Attested : Type := mkAttested { srvcfg : TlsConfig; cltcfg : TlsConfig; at_config : Config; at_webasm : list Z }.

Definition requested_next (self : Requested) : fal W Attested :=
  '(webasm, text) ← fetch (rq_package self);
  config ← try (parse_config text);
  certs ← match cfg_steward config with Some url => steward self url | None => selfsigned self end;
  let srvcfg := tls_config certs (prvkey self) false in
  _ ← try (tls_config_ok srvcfg);
  let cltcfg := tls_config certs (prvkey self) true in
  _ ← try (tls_config_ok cltcfg);
  mret (mkAttested srvcfg cltcfg config webasm).

(** ** [loader/attested.rs] *)

Definition attested_next (self : Attested) : fal W Attested :=
  _ ← try (module_from_binary (at_webasm self));
  mret self.

(** ** [loader/compiled/mod.rs] *)

Definition all_caps : list FileCap :=
  [READ; WRITE; SEEK; TELL; FDSTAT_SET_FLAGS; FILESTAT_GET; POLL_READWRITE; OtherCaps].
Definition listen_caps : list FileCap := [FILESTAT_GET; FDSTAT_SET_FLAGS; POLL_READWRITE; READ].
Definition connect_caps : list FileCap := [FILESTAT_GET; FDSTAT_SET_FLAGS; POLL_READWRITE; READ; WRITE].

Definition open_file (srv clt : TlsConfig) (file : File) : fal W (WasiFile * list FileCap) :=
  match file with
  | Null _ => mret (NullFile, all_caps)
  | Stdin _ => mret (StdinFile, all_caps)
  | Stdout _ => mret (StdoutFile, all_caps)
  | Stderr _ => mret (StderrFile, all_caps)
  | Listen _ addr port prot =>
      tcp ← on_env (tcp_bind addr port);
      mret (match prot with Tcp => TcpListener tcp | Tls => TlsListener tcp srv end, listen_caps)
  | Connect _ host port prot =>
      tcp ← on_env (tcp_connect host port);
      match prot with
      | Tcp => mret (TcpStream tcp, connect_caps)
      | Tls => tls ← on_env (tls_handshake tcp host clt); mret (TlsStream tls, connect_caps)
      end
  end.

(** A terminal cannot be positioned. *)
Definition tty_caps (tty : bool) (caps : list FileCap) : list FileCap :=
  if tty then filter (λ c, c ≠ TELL ∧ c ≠ SEEK) caps else caps.

Fixpoint insert_files (srv clt : TlsConfig) (fd : Z) (files : list File) (ctx : WasiCtx) : fal W WasiCtx :=
  match files with
  | [] => mret ctx
  | file :: files =>
      '(f, caps) ← open_file srv clt file;
      tty ← ((λ w, Return (Ok (isatty f w), w)) : fal W bool);
      _ ← must (if fd <? 2 ^ 32 then Return () else Panicked);
      insert_files srv clt (fd + 1) files
        (mkWasiCtx (ctx_env ctx) (ctx_args ctx) (<[fd := (f, tty_caps tty caps)]> (ctx_files ctx)))
  end.

Fixpoint push_envs (vars : list (string * string)) (env : list (string * string)) : result (list (string * string)) :=
  match vars with
  | [] => Ok env
  | (k, v) :: vars => match push_env env k v with Ok env => push_envs vars env | Err e => Err e end
  end.
Fixpoint push_args (args : list string) (argv : list string) : result (list string) :=
  match args with
  | [] => Ok argv
  | arg :: args => match push_arg argv arg with Ok argv => push_args args argv | Err e => Err e end
  end.

(** The variables of the configuration come in any order. *)
Definition compiled_next (self : Attested) : fal W WasiCtx :=
  let config := at_config self in
  env ← try (push_envs (map_to_list (cfg_env config)) []);
  args ← try (push_args ("main.wasm" :: cfg_args config) []);
  let names := File_name <$> cfg_files config in
  env ← try (push_envs [("FD_COUNT", pretty (N.of_nat (length names))); ("FD_NAMES", String.concat ":" names)] env);
  insert_files (srvcfg self) (cltcfg self) 0 (cfg_files config) (mkWasiCtx env args ∅).

(** ** [loader/connected.rs] *)

Definition connected_next (webasm : list Z) (ctx : WasiCtx) : fal W (list Z) :=
  match default_results webasm with
  | None => try (Err WE.Entry)
  | Some n =>
    r ← ((λ w, let '(r, w) := call_default webasm ctx w in Return (Ok r, w)) : fal W CallResult);
    match r with
    | Values vs => mret vs
    | Trapped (Some (Some 0)) => mret (repeat 0 n)
    | Trapped _ => try (Err WE.Execution)
    end
  end.

(** [execute_with_args] *)
Definition execute_with_args (package : Package) : fal W unit :=
  requested ← configured_next package;
  attested ← requested_next requested;
  compiled ← attested_next attested;
  ctx ← compiled_next compiled;
  _ ← connected_next (at_webasm compiled) ctx;
  mret ().

End loader.
