(* ===== verification/WasmLaws.v ===== *)
(** * What a workload is given

    The key that a keep generates is bound to its attestation report; the files of the
    configuration are where their names say; a package is what its tag says. *)

From Stdlib Require Import Ascii.
From stdpp Require Import strings gmap pretty.
From S2P Require Import Prelude Libc WasmConfig WasmLoader.

#[local] Open Scope string_scope.
#[local] Open Scope list_scope.
#[local] Open Scope Z_scope.

Definition Technology_code (t : Technology) : Z := match t with Kvm => 0 | Snp => 1 | Sgx => 2 end.

(** Variables and arguments are appended.  The encodings are read back by [parse_req];
    signatures are valid under the public key; the shim is of one technology and answers
    with a report for the nonce. *)
Class WasmLaws (W : Type) `{WasmEnv W} := {
  wl_push_env : ∀ l k v l', push_env l k v = Ok l' → l' = l ++ [(k, v)];
  wl_push_arg : ∀ l a l', push_arg l a = Ok l' → l' = l ++ [a];
  parse_req : list Z → option CertReq;
  wl_req : ∀ r bytes, req_to_vec r = Ok bytes → parse_req bytes = Some r;
  ecdsa_valid : SignatureAlgorithm → PublicKeyInfo → list Z → list Z → bool;
  wl_sign : ∀ algo raw pki pk body w sig w', pki_from_der raw = Ok pki → pki_public_key pki = Ok pk →
    ecdsa_sign_asn1 algo (pki_der pki) body w = (Ok sig, w') → ecdsa_valid algo pk body sig = true;
  technology : Technology;
  attests : list Z → list Z → Prop;
  wl_technology : ∀ nonce buf w n t bytes w', sys_getatt nonce buf w = (n, t, bytes, w') → 0 ≤ n → t = Technology_code technology;
  wl_attests : ∀ nonce buf w n t bytes w', sys_getatt (Some nonce) (Some buf) w = (n, t, bytes, w') →
    0 ≤ n ≤ Z.of_nat (length bytes) → attests nonce (take (Z.to_nat n) bytes);
}.

Lemma try_ok {S A : Type} (r : result A) (s : S) a s' : try r s = Return (Ok a, s') → r = Ok a ∧ s' = s.
Proof. unfold try. by intros [= -> ->]. Qed.

(** ** Names *)

(** How a workload reads [FD_NAMES] *)
Fixpoint split_on (c : ascii) (s : string) : list string :=
  match s with
  | EmptyString => [""]
  | String d s =>
      if Ascii.eqb c d then "" :: split_on c s
      else match split_on c s with [] => [String d ""] | t :: ts => String d t :: ts end
  end.

Lemma split_on_single c s : contains c s = false → split_on c s = [s].
Proof.
  induction s as [|d s IH]; cbn [contains split_on]; [done|]. intros [-> Hs]%orb_false_iff. by rewrite IH.
Qed.

Lemma split_on_app c s t : contains c s = false → split_on c (s +:+ String c t) = s :: split_on c t.
Proof.
  induction s as [|d s IH]; cbn [contains].
  - intros _. change ("" +:+ String c t) with (String c t). cbn [split_on]. by rewrite Ascii.eqb_refl.
  - intros [Hd Hs]%orb_false_iff. change (String d s +:+ String c t) with (String d (s +:+ String c t)).
    cbn [split_on]. by rewrite Hd, IH.
Qed.

Lemma split_concat c names : names ≠ [] → Forall (λ n, contains c n = false) names →
  split_on c (String.concat (String c "") names) = names.
Proof.
  induction names as [|n [|n' names] IH]; intros Hne Hn; [done| |]; apply Forall_cons in Hn as [Hn Hns].
  - by apply split_on_single.
  - cbn [String.concat]. change (String c "" +:+ ?x) with (String c x). rewrite split_on_app by done.
    f_equal. by apply IH.
Qed.

(** Names without a colon: the host of a connection that has no name is used as its name. *)
Definition names_wf (f : File) : Prop :=
  match f with Connect None host _ _ => name_wf host | _ => True end.

Lemma File_name_wf f : file_wf f → names_wf f → contains ":"%char (File_name f) = false.
Proof. destruct f as [[n|]|[n|]|[n|]|[n|]|n a p prot|[n|] h p prot]; cbn; try done; by intros [? ?]. Qed.

(** ** Files *)

(** The name of a file: the one that is given, or what the documentation says. *)
Definition named (file : File) (name : string) : Prop :=
  match file with
  | Null o => name = default "null" o
  | Stdin o => name = default "stdin" o
  | Stdout o => name = default "stdout" o
  | Stderr o => name = default "stderr" o
  | Listen n _ _ _ => name = n
  | Connect o host _ _ => name = default host o
  end.

(** What may be done with a file: everything with streams and the null file, but a
    terminal is not positioned; a socket that listens is read, polled and asked for its
    state, and a connection is written as well. *)
Definition may (file : File) (tty : bool) (c : FileCap) : Prop :=
  (tty = true → c ≠ SEEK ∧ c ≠ TELL) ∧
  match file with
  | Listen _ _ _ _ => c = READ ∨ c = POLL_READWRITE ∨ c = FILESTAT_GET ∨ c = FDSTAT_SET_FLAGS
  | Connect _ _ _ _ => c = READ ∨ c = WRITE ∨ c = POLL_READWRITE ∨ c = FILESTAT_GET ∨ c = FDSTAT_SET_FLAGS
  | _ => True
  end.

(** The file that is opened for an entry of the configuration: a socket is bound or
    connected to the address and the port of the entry, and has the keys of the keep
    where the protocol is TLS. *)
Inductive opened {W : Type} `{WasmEnv W} (srv clt : TlsConfig) : File → W → WasiFile → W → Prop :=
| opened_null n w : opened srv clt (Null n) w NullFile w
| opened_stdin n w : opened srv clt (Stdin n) w StdinFile w
| opened_stdout n w : opened srv clt (Stdout n) w StdoutFile w
| opened_stderr n w : opened srv clt (Stderr n) w StderrFile w
| opened_tcp_listener n addr port w id w' :
    tcp_bind addr port w = (Ok id, w') → opened srv clt (Listen n addr port Tcp) w (TcpListener id) w'
| opened_tls_listener n addr port w id w' :
    tcp_bind addr port w = (Ok id, w') → opened srv clt (Listen n addr port Tls) w (TlsListener id srv) w'
| opened_tcp_stream n host port w id w' :
    tcp_connect host port w = (Ok id, w') → opened srv clt (Connect n host port Tcp) w (TcpStream id) w'
| opened_tls_stream n host port w id w1 tls w' :
    tcp_connect host port w = (Ok id, w1) → tls_handshake id host clt w1 = (Ok tls, w') →
    opened srv clt (Connect n host port Tls) w (TlsStream tls) w'.

(** One after the other; of each it is noted whether it is a terminal. *)
Fixpoint opens {W : Type} `{WasmEnv W} (srv clt : TlsConfig) (files : list File) (w : W)
    (fs : list (WasiFile * bool)) (w' : W) : Prop :=
  match files, fs with
  | [], [] => w' = w
  | file :: files, (f, tty) :: fs =>
      ∃ w1, opened srv clt file w f w1 ∧ tty = isatty f w1 ∧ opens srv clt files w1 fs w'
  | _, _ => False
  end.

Section laws.
Context {W : Type} `{WasmLaws W}.

Lemma open_file_run srv clt file (w : W) f caps w' : open_file srv clt file w = Return (Ok (f, caps), w') →
  opened srv clt file w f w' ∧ ∀ tty c, c ∈ tty_caps tty caps ↔ may file tty c.
Proof.
  assert (Hs : ∀ tty c caps, c ∈ tty_caps tty caps ↔ c ∈ caps ∧ (tty = true → c ≠ SEEK ∧ c ≠ TELL)).
  { intros [] c cs; unfold tty_caps; [rewrite list_elem_of_filter|]; intuition congruence. }
  assert (Ha : ∀ c, c ∈ all_caps) by (intros []; unfold all_caps; rewrite !elem_of_cons; tauto).
  assert (He : ∀ A (g : W → result A * W) v v' x, on_env g v = Return (Ok x, v') → g v = (Ok x, v')).
  { intros A g v v' x. unfold on_env. destruct (g v). by intros [= -> ->]. }
  intros E. destruct file as [n|n|n|n|n addr port prot|n host port prot]; cbn [open_file] in E;
    try (injection E as <- <- <-; split; [constructor|intros tty c; rewrite Hs; unfold may; specialize (Ha c); tauto]).
  - apply fal_bind_inv in E as (tcp & w1 & E1 & E). apply He in E1. injection E as <- <- <-.
    split; [by destruct prot; constructor|]. intros tty c. rewrite Hs. unfold may, listen_caps. rewrite !elem_of_cons, elem_of_nil. tauto.
  - apply fal_bind_inv in E as (tcp & w1 & E1 & E). apply He in E1. destruct prot.
    + apply fal_bind_inv in E as (tls & w2 & E2 & E). apply He in E2. injection E as <- <- <-.
      split; [by econstructor|]. intros tty c. rewrite Hs. unfold may, connect_caps. rewrite !elem_of_cons, elem_of_nil. tauto.
    + injection E as <- <- <-. split; [by constructor|].
      intros tty c. rewrite Hs. unfold may, connect_caps. rewrite !elem_of_cons, elem_of_nil. tauto.
Qed.

Lemma insert_files_run srv clt files : ∀ fd ctx (w : W) ctx' w',
  insert_files srv clt fd files ctx w = Return (Ok ctx', w') →
  ctx_env ctx' = ctx_env ctx ∧ ctx_args ctx' = ctx_args ctx ∧
  (∃ fs, opens srv clt files w fs w' ∧ ∀ i file, files !! i = Some file → ∃ f tty caps,
    fs !! i = Some (f, tty) ∧ ctx_files ctx' !! (fd + Z.of_nat i) = Some (f, caps) ∧ ∀ c, c ∈ caps ↔ may file tty c) ∧
  ∀ n, n < fd ∨ fd + Z.of_nat (length files) ≤ n → ctx_files ctx' !! n = ctx_files ctx !! n.
Proof.
  induction files as [|file files IH]; intros fd ctx w ctx' w' E; cbn [insert_files] in E.
  { injection E as <- <-. split_and!; try done. by exists []. }
  apply fal_bind_inv in E as ([f caps] & w1 & E1 & E). apply open_file_run in E1 as [Hf Hc].
  apply fal_bind_inv in E as (tty & w2 & E2 & E). injection E2 as E2 <-.
  apply fal_bind_inv in E as ([] & w3 & E3 & E).
  assert (w3 = w1) as -> by (unfold must in E3; destruct (_ <? _); congruence).
  apply IH in E as (He & Ha & (fs & Hos & Hi) & Ho). cbn [ctx_env ctx_args ctx_files length] in *.
  split_and!; [done|done| |intros n Hn; rewrite Ho by lia; apply lookup_insert_ne; lia].
  exists ((f, tty) :: fs). split; [by exists w1|]. intros [|i] file' Hl; cbn [lookup list_lookup] in Hl |- *.
  - injection Hl as <-. exists f, tty. eexists. rewrite Z.add_0_r, Ho by lia.
    split_and!; [done|apply lookup_insert_eq|apply Hc].
  - destruct (Hi i file' Hl) as (f' & tty' & caps' & Hfs & Hg & Hf'). exists f', tty', caps'.
    by replace (fd + Z.of_nat (S i)) with (fd + 1 + Z.of_nat i) by lia.
Qed.

Lemma push_envs_run vars : ∀ env env', push_envs vars env = Ok env' → env' = env ++ vars.
Proof.
  induction vars as [|[k v] vars IH]; intros env env' E; cbn [push_envs] in E; [injection E as <-; by rewrite app_nil_r|].
  destruct (push_env env k v) as [env1|e] eqn:E1; [|done]. apply wl_push_env in E1 as ->. apply IH in E as ->.
  by rewrite <- app_assoc.
Qed.

Lemma push_args_run args : ∀ argv argv', push_args args argv = Ok argv' → argv' = argv ++ args.
Proof.
  induction args as [|a args IH]; intros argv argv' E; cbn [push_args] in E; [injection E as <-; by rewrite app_nil_r|].
  destruct (push_arg argv a) as [argv1|e] eqn:E1; [|done]. apply wl_push_arg in E1 as ->. apply IH in E as ->.
  by rewrite <- app_assoc.
Qed.

(** C33: the files of a workload.  When the loader has set up a configuration, the workload
    has the configured files and no others, opened one after the other: descriptor [i]
    is the [i]-th file of the configuration, a socket being bound or connected to its
    address and port and protected by TLS where the configuration says so; it has exactly
    the rights that are meant for it; and the [i]-th name of [FD_NAMES] is its name,
    provided no host that serves as a name contains a colon.  The arguments follow the
    name of the program. *)
Theorem workload_files self (w : W) ctx w' : compiled_next self w = Return (Ok ctx, w') →
  config_wf (at_config self) → Forall names_wf (cfg_files (at_config self)) → cfg_files (at_config self) ≠ [] →
  let files := cfg_files (at_config self) in
  ∃ names fs, ctx_env ctx = map_to_list (cfg_env (at_config self)) ++
      [("FD_COUNT", pretty (N.of_nat (length files))); ("FD_NAMES", names)] ∧
    ctx_args ctx = "main.wasm" :: cfg_args (at_config self) ∧
    Forall2 named files (split_on ":" names) ∧
    (∀ n, is_Some (ctx_files ctx !! n) ↔ 0 ≤ n < Z.of_nat (length files)) ∧
    opens (srvcfg self) (cltcfg self) files w fs w' ∧
    ∀ i file, files !! i = Some file → ∃ f tty caps,
      fs !! i = Some (f, tty) ∧ ctx_files ctx !! Z.of_nat i = Some (f, caps) ∧ ∀ c, c ∈ caps ↔ may file tty c.
Proof.
  unfold compiled_next, config_wf. set (files := cfg_files (at_config self)). intros E Hw Hn Hne.
  apply fal_bind_inv in E as (env & w1 & E1 & E). apply fal_bind_inv in E as (args & w2 & E2 & E).
  apply fal_bind_inv in E as (env' & w3 & E3 & E). apply try_ok in E1 as [E1 ->], E2 as [E2 ->], E3 as [E3 ->].
  apply push_envs_run in E1 as ->. apply push_args_run in E2 as ->. apply push_envs_run in E3 as ->.
  apply insert_files_run in E as (He & Ha & (fs & Hos & Hi) & Ho). cbn [ctx_env ctx_args ctx_files app] in *.
  exists (String.concat ":" (File_name <$> files)), fs. fold files in He, Hos, Hi. rewrite length_fmap in He.
  split_and!; [done|done| | |done|by intros i file Hf; apply Hi].
  - rewrite split_concat; [|by intros ->%fmap_nil_inv|].
    + apply Forall2_fmap_r, Forall_Forall2_diag, Forall_true. by intros [[]|[]|[]|[]|n a p t|[] h p t].
    + apply Forall_fmap. rewrite Forall_lookup in *. intros i f Hf. apply File_name_wf; [by eapply Hw|by eapply Hn].
  - intros n. split.
    + intros [x Hx]. destruct (decide (0 ≤ n < Z.of_nat (length files))) as [Hd|Hd]; [done|].
      rewrite Ho in Hx by (fold files; lia). by rewrite lookup_empty in Hx.
    + intros Hr. destruct (lookup_lt_is_Some_2 files (Z.to_nat n)) as [file Hf]; [lia|].
      destruct (Hi _ _ Hf) as (f & tty & caps & _ & Hg & _). rewrite Z.add_0_l, Z2Nat.id in Hg by lia. by eexists.
Qed.

(** ** Attestation *)

(** The answers that are taken for a shim that does not attest *)
Definition refused (rax : Z) : bool := (rax =? - ENOSYS) || (rax =? - EPERM).

Lemma get_att_run nonce buf (w : W) t n bytes w' : get_att nonce buf w = Return (Ok (t, n, bytes), w') →
  ∃ rax rdx, sys_getatt nonce buf w = (rax, rdx, bytes, w') ∧
    n = (if refused rax then 0 else rax) ∧ t = (if refused rax then Kvm else technology) ∧
    (refused rax = false → 0 ≤ rax).
Proof.
  unfold get_att. destruct (sys_getatt nonce buf w) as [[[rax rdx] b] w1] eqn:Es. fold (refused rax).
  intros E. exists rax, rdx. destruct (refused rax); [by injection E as <- <- <- <-|].
  destruct (rax <? 0) eqn:Hn; [done|]. bool_to_prop. pose proof (wl_technology _ _ _ _ _ _ _ Es Hn) as Ht.
  subst rdx. destruct technology; cbn in E; by injection E as <- <- <- <-.
Qed.

(** The report is what the shim answers for the nonce. *)
Definition answered (w : W) (size : Z) (nonce report : list Z) : Prop :=
  ∃ rax rdx bytes w', sys_getatt (Some nonce) (Some (repeat 0 (Z.to_nat size))) w = (rax, rdx, bytes, w') ∧
    if refused rax then report = []
    else 0 ≤ rax ≤ Z.of_nat (length bytes) ∧ report = take (Z.to_nat rax) bytes ∧ attests nonce report.

Lemma Platform_attest_run self nonce (w : W) report w' : Platform_attest self nonce w = Return (Ok report, w') →
  answered w (report_size self) nonce report.
Proof.
  unfold Platform_attest. intros E. apply fal_bind_inv in E as ([[t n] bytes] & w1 & E1 & E).
  destruct (_ <? n) eqn:Hl; [done|]. injection E as <- _. bool_to_prop.
  apply get_att_run in E1 as (rax & rdx & Es & -> & _ & Hn). exists rax, rdx, bytes, w1. split; [exact Es|].
  destruct (refused rax); [done|]. specialize (Hn eq_refl). split_and!; [done..|].
  exact (wl_attests _ _ _ _ _ _ _ Es (conj Hn Hl)).
Qed.

Lemma pki_sign_run raw pki pk body algo (w : W) sig w' : pki_from_der raw = Ok pki → pki_public_key pki = Ok pk →
  pki_sign pki body algo w = Return (Ok sig, w') → ecdsa_valid algo pk body sig = true.
Proof.
  intros Hraw Hpk E. unfold pki_sign in E. apply fal_bind_inv in E as ([o p] & w1 & E1 & E).
  assert (∀ a, on_env (ecdsa_sign_asn1 a (pki_der pki) body) w1 = Return (Ok sig, w') → ecdsa_valid a pk body sig = true) as Hs.
  { intros a Ha. unfold on_env in Ha. destruct (ecdsa_sign_asn1 a _ body w1) as [r w2] eqn:Es. injection Ha as -> ->.
    exact (wl_sign _ _ _ _ _ _ _ _ Hraw Hpk Es). }
  destruct o; try discriminate E. destruct p as [[]|]; try discriminate E; destruct algo; try discriminate E; by apply Hs.
Qed.

Lemma make_csr_run raw pki pk exts (w : W) bytes w' : pki_from_der raw = Ok pki → pki_public_key pki = Ok pk → 
  make_csr pki exts w = Return (Ok bytes, w') →
  ∃ req info, parse_req bytes = Some req ∧ req_info req = mkCertReqInfo exts pk ∧ cri_to_vec (req_info req) = Ok info ∧
    ecdsa_valid (req_algorithm req) pk info (req_signature req) = true.
Proof.
  intros Hraw Hpk E. unfold make_csr in E. apply fal_bind_inv in E as (pk' & w1 & E1 & E). apply try_ok in E1 as [E1 ->].
  rewrite Hpk in E1. injection E1 as <-. apply fal_bind_inv in E as (info & w2 & E2 & E). apply try_ok in E2 as [E2 ->].
  apply fal_bind_inv in E as (algo & w3 & E3 & E). apply try_ok in E3 as [E3 ->].
  apply fal_bind_inv in E as (sig & w4 & E4 & E). apply try_ok in E as [E ->].
  exists (mkCertReq (mkCertReqInfo exts pk) algo sig), info. cbn. split_and!; [exact (wl_req _ _ E)|done|done|].
  exact (pki_sign_run _ _ _ _ _ _ _ _ Hraw Hpk E4).
Qed.

(** C8: the key of a keep is attested.  The loader asks the shim for its technology and
    generates a private key for it.  The request for a certificate that it makes holds the
    public key of that private key and is signed with it; its only extension has the
    identifier of the technology that the shim has named, and is what the shim has
    answered when it was asked to attest the hash of this public key, in the form for
    the technology: a report for this hash, or nothing if the shim has refused. *)
Theorem key_attested package (w : W) rq w' : configured_next package w = Return (Ok rq, w') →
  ∃ n rdx bytes w1 kn kb w2 w3, sys_getatt None None w = (n, rdx, bytes, w1) ∧ sys_getkey None w1 = (kn, kb, w2) ∧
  let t := if refused n then Kvm else technology in
  let size := if refused n then 0 else n in
  generate_pkcs8 (if bool_decide (t = Snp) then ES384 else ES256) w2 = (Ok (prvkey rq), w3) ∧
  ∃ pki pk der info req hash report,
    pki_from_der (prvkey rq) = Ok pki ∧ pki_public_key pki = Ok pk ∧ spki_to_vec pk = Ok der ∧
    parse_req (crtreq rq) = Some req ∧ cri_public_key (req_info req) = pk ∧ cri_to_vec (req_info req) = Ok info ∧
    ecdsa_valid (req_algorithm req) pk info (req_signature req) = true ∧
    cri_extensions (req_info req) =
      [mkExtension (OtherOid [1; 3; 6; 1; 4; 1; 58270; 1; match t with Kvm => 1 | Sgx => 2 | Snp => 3 end]) false report] ∧
    hash = (if bool_decide (t = Snp) then wasm_sha384 der ++ repeat 0 16 else wasm_sha256 der ++ repeat 0 32) ∧
    answered w3 size hash report.
Proof.
  intros E. unfold configured_next in E. apply fal_bind_inv in E as (platform & w1 & E1 & E).
  unfold Platform_get in E1. apply fal_bind_inv in E1 as ([[t n] b] & w2 & E2 & E1).
  apply fal_bind_inv in E1 as ([ks b2] & w3 & E3 & E1). injection E1 as <- <-.
  unfold get_key in E3. destruct (sys_getkey None w2) as [[kn kb] w2'] eqn:Ek. injection E3 as _ ->.
  apply get_att_run in E2 as (rax & rdx & Es & Hn & Ht & _). cbn [pl_technology report_size] in E.
  apply fal_bind_inv in E as (raw & w4 & E4 & E).
  exists rax, rdx, b, w2, kn, kb, w3, w4. split; [exact Es|]. split; [exact Ek|]. cbv zeta. rewrite <- Ht, <- Hn. clear Hn Ht.
  assert (Eg : generate_pkcs8 (if bool_decide (t = Snp) then ES384 else ES256) w3 = (Ok raw, w4)).
  { destruct t; cbn in E4; unfold on_env in E4; destruct (generate_pkcs8 _ w3); by injection E4 as -> ->. }
  apply fal_bind_inv in E as (pki & w5 & E5 & E). apply try_ok in E5 as [E5 ->].
  apply fal_bind_inv in E as (pk & w6 & E6 & E). apply fal_bind_inv in E as (der & w7 & E7 & E).
  apply fal_bind_inv in E as (hash & w8 & E8 & E). apply fal_bind_inv in E as (report & w9 & E9 & E).
  apply fal_bind_inv in E as (bytes & w10 & E10 & E). injection E as <- _. cbn [prvkey crtreq]. split; [exact Eg|].
  unfold unwrap in E6, E7. destruct (pki_public_key pki) as [pk'|] eqn:Hpk; [|discriminate E6]. injection E6 as -> <-.
  destruct (spki_to_vec pk) as [der'|] eqn:Hd; [|discriminate E7]. injection E7 as -> <-.
  destruct (make_csr_run _ _ _ _ _ _ _ E5 Hpk E10) as (req & info & Hr & Hi & Hv & Hs). exists pki, pk, der, info, req.
  exists hash, report. rewrite Hi in *. cbn [cri_public_key cri_extensions].
  assert (w8 = w4) as -> by (unfold must in E8; destruct (key_hash t der); congruence).
  split_and!; try done; [|exact (Platform_attest_run _ _ _ _ _ E9)].
  unfold must, key_hash, pad64 in E8. destruct t;
    [rewrite bool_decide_eq_false_2 by done|rewrite bool_decide_eq_true_2 by done|rewrite bool_decide_eq_false_2 by done];
    destruct (_ =? _)%nat; try discriminate E8; by injection E8 as <-.
Qed.

(** ** Packages *)

Lemma ensure_ok b e (w : W) u w' : ensure b e w = Return (Ok u, w') → b = true ∧ w' = w.
Proof. unfold ensure. destruct b; [by intros [= <- <-]|done]. Qed.

Lemma get_wasm_run root entry (w : W) wasm w' : get_wasm root entry w = Return (Ok wasm, w') →
  essence_str entry = WASM_MEDIA_TYPE ∧ node_get root PACKAGE_ENTRYPOINT MAX_WASM_SIZE w = (Ok (entry, wasm), w').
Proof.
  intros E. unfold get_wasm in E. apply fal_bind_inv in E as (? & w1 & E1 & E). apply ensure_ok in E1 as [E1 ->].
  apply fal_bind_inv in E as ([meta bytes] & w2 & E2 & E). apply fal_bind_inv in E as (? & w3 & E3 & E).
  apply ensure_ok in E3 as [E3 ->]. injection E as <- <-. apply bool_decide_eq_true in E1, E3. subst meta.
  split; [done|]. unfold on_env in E2. destruct (node_get _ _ _ w) as [r w3]. by injection E2 as -> ->.
Qed.

Lemma get_package_run root dir (w : W) wasm conf w' : get_package root dir w = Return (Ok (wasm, conf), w') →
  ∃ m w1, dir !! PACKAGE_ENTRYPOINT = Some m ∧ essence_str m = WASM_MEDIA_TYPE ∧
    node_get root PACKAGE_ENTRYPOINT MAX_WASM_SIZE w = (Ok (m, wasm), w1) ∧
    match conf with
    | None => dir !! PACKAGE_CONFIG = None
    | Some text => ∃ c bytes, dir !! PACKAGE_CONFIG = Some c ∧ string_from_utf8 bytes = Ok text ∧
        node_get root PACKAGE_CONFIG MAX_CONF_SIZE w1 = (Ok (c, bytes), w')
    end.
Proof.
  intros E. unfold get_package in E. apply fal_bind_inv in E as (m & w0 & E0 & E). apply try_ok in E0 as [E0 ->].
  apply fal_bind_inv in E as (wasm' & w1 & E1 & E). apply get_wasm_run in E1 as [Hm E1].
  unfold ok_or in E0. destruct (dir !! PACKAGE_ENTRYPOINT) as [m'|] eqn:Hd; [|discriminate E0]. injection E0 as ->.
  exists m, w1. destruct (dir !! PACKAGE_CONFIG) as [c|] eqn:Hc; [|by injection E as <- <- _].
  apply fal_bind_inv in E as (? & w2 & E2 & E). apply ensure_ok in E2 as [E2 ->].
  apply fal_bind_inv in E as ([meta bytes] & w3 & E3 & E). apply fal_bind_inv in E as (text & w4 & E4 & E).
  apply try_ok in E4 as [E4 ->]. apply fal_bind_inv in E as (? & w5 & E5 & E). apply ensure_ok in E5 as [E5 ->].
  injection E as <- <- <-. apply bool_decide_eq_true in E5 as ->. split_and!; try done. exists c, bytes. split_and!; try done.
  unfold on_env in E3. destruct (node_get root PACKAGE_CONFIG _ w1) as [r w5]. by injection E3 as -> ->.
Qed.

(** A package is what its tag says.  If the package at a URL is behind a tag, then the
    metadata of the tag (size, type and digest) is that of the directory that was
    fetched; the metadata that the directory lists for the module, and for the
    configuration if it has one, is that of the fetched files. *)
Theorem package_follows_tag url (w : W) wasm conf w' entry meta body w1 :
  fetch_remote url w = Return (Ok (wasm, conf), w') → top_get url MAX_TOP_SIZE w = (Ok (meta, Ok body), w1) →
  essence_str meta ≠ WASM_MEDIA_TYPE → essence_str meta ≠ TreeDirectory_TYPE → tag_from_json body = Ok (Unsigned entry) →
  (conf = None ∧ essence_str entry = WASM_MEDIA_TYPE ∧
    node_get Tree PACKAGE_ENTRYPOINT MAX_WASM_SIZE w1 = (Ok (entry, wasm), w')) ∨
  (∃ listing dir w2 m w3, node_get Tree "" MAX_DIR_SIZE w1 = (Ok (entry, listing), w2) ∧ dir_from_json listing = Ok dir ∧
    dir !! PACKAGE_ENTRYPOINT = Some m ∧ node_get Tree PACKAGE_ENTRYPOINT MAX_WASM_SIZE w2 = (Ok (m, wasm), w3) ∧
    match conf with
    | None => dir !! PACKAGE_CONFIG = None
    | Some text => ∃ c bytes, dir !! PACKAGE_CONFIG = Some c ∧ string_from_utf8 bytes = Ok text ∧
        node_get Tree PACKAGE_CONFIG MAX_CONF_SIZE w3 = (Ok (c, bytes), w')
    end).
Proof.
  intros E Et Hq1 Hq2 Hg. unfold fetch_remote in E. apply fal_bind_inv in E as (? & w0 & E0 & E). apply try_ok in E0 as [_ ->].
  apply fal_bind_inv in E as ([meta' rdr] & w2 & E1 & E). unfold on_env in E1. rewrite Et in E1. injection E1 as <- <- <-.
  rewrite !bool_decide_eq_false_2 in E by done. apply fal_bind_inv in E as (body' & w3 & E2 & E).
  apply try_ok in E2 as [[= <-] ->]. apply fal_bind_inv in E as (tag & w4 & E3 & E). apply try_ok in E3 as [E3 ->].
  rewrite Hg in E3. injection E3 as <-. unfold fetch_tag in E. case_bool_decide as Hw.
  { apply fal_bind_inv in E as (wasm' & w5 & E4 & E). injection E as <- <- <-. left. by apply get_wasm_run in E4 as [_ E4]. }
  right. case_bool_decide as Hd; [|done]. apply fal_bind_inv in E as ([m listing] & w5 & E4 & E).
  apply fal_bind_inv in E as (dir & w6 & E5 & E). apply try_ok in E5 as [E5 ->].
  apply fal_bind_inv in E as (? & w6 & E6 & E). apply ensure_ok in E6 as [E6 ->]. apply bool_decide_eq_true in E6 as ->.
  unfold on_env in E4. destruct (node_get Tree "" MAX_DIR_SIZE w1) as [r w7] eqn:En. injection E4 as -> ->.
  destruct (get_package_run _ _ _ _ _ _ E) as (mw & w8 & Hm & _ & Hn & Hc). by exists listing, dir, w5, mw, w8.
Qed.

End laws.
