(* ===== verification/WasmTls.v ===== *)
(** * Transparent TLS

    [crates/exec-wasmtime/src/loader/compiled/{tls,null}.rs]: the files of a workload that
    are TLS connections, sockets that accept them, and [/dev/null].  [rustls] and the
    sockets are parameters ([Rustls]). *)

From S2P Require Import Prelude.

(** [std::io::ErrorKind] and [wasi_common::ErrorKind], as far as they are told apart *)
Inductive IoKind : Type := WouldBlock | InvalidInput | Unsupported | InvalidData | UnexpectedEof | OtherKind.
#[global] Instance IoKind_eq_dec : EqDecision IoKind.
Proof. solve_decision. Defined.
Inductive WasiError : Type := WouldBlk | Inval | Notsup | Io | Range.

Definition errmap (error : IoKind) : WasiError :=
  match error with
  | WouldBlock => WouldBlk
  | InvalidInput => Inval
  | Unsupported => Notsup
  | InvalidData => Inval
  | _ => Io
  end.

(** A connection and a socket; reading and writing return a count or an error. *)
Class Rustls (C S : Type) := {
  is_handshaking : C → bool;
  wants_write : C → bool;
  wants_read : C → bool;
  write_tls : C → S → (Z + IoKind) * C * S;
  read_tls : C → S → (Z + IoKind) * C * S;
  process_new_packets : C → bool * C;
  flush : S → S;
  reader_read : C → Z → (Z + IoKind) * C;
  writer_write : C → list Z → (Z + IoKind) * C;
  server_connection : option C;
  socket_accept : S → (S + IoKind) * S;
  set_nonblocking : bool → S → (unit + IoKind) * S;
  nonblocking : S → bool;
  is_read_write : S → (bool * bool) + IoKind;
}.

Section tls.
Context {C S : Type} `{Rustls C S}.

(** A step that changes the connection and the socket *)
Definition tlsM (A : Type) : Type := C → S → outcome ((A + IoKind) * C * S).

(** [while self.wants_write() { .. }]: stops when writing would block *)
Fixpoint tls_write_loop (fuel : nat) (wrlen : Z) : tlsM Z := λ c s,
  match fuel with
  | O => Diverged
  | Datatypes.S fuel =>
      if wants_write c then
        match write_tls c s with
        | (inr WouldBlock, c, s) => Return (inl wrlen, c, s)
        | (inr e, c, s) => Return (inr e, c, s)
        | (inl n, c, s) => if wrlen + n <=? usize_MAX then tls_write_loop fuel (wrlen + n) c s else Panicked
        end
      else Return (inl wrlen, c, s)
  end.

(** [complete_io_async], one iteration of the loop after the other; [wfuel] is for the
    inner loop. *)
Fixpoint io_loop (wfuel fuel : nat) (until_handshaked eof : bool) (rdlen wrlen : Z) : tlsM (Z * Z) := λ c s,
  match fuel with
  | O => Diverged
  | Datatypes.S fuel =>
      '(written, c, s) ← tls_write_loop wfuel wrlen c s;
      match written with
      | inr e => Return (inr e, c, s)
      | inl wrlen =>
          if negb until_handshaked && (0 <? wrlen) then Return (inl (rdlen, wrlen), c, flush s)
          else
            let process (eof : bool) (rdlen : Z) (c : C) (s : S) :=
              match process_new_packets c with
              | (false, c) => let '(_, c, s) := write_tls c s in Return (inr InvalidData, c, flush s)
              | (true, c) =>
                  if until_handshaked && negb (is_handshaking c) then Return (inl (rdlen, wrlen), c, s)
                  else if negb until_handshaked then Return (inl (rdlen, wrlen), c, s)
                  else if eof then Return (inr UnexpectedEof, c, s)
                  else io_loop wfuel fuel until_handshaked eof rdlen wrlen c s
              end in
            if negb eof && wants_read c then
              match read_tls c s with
              | (inl 0, c, s) => process true rdlen c s
              | (inl n, c, s) => if rdlen + n <=? usize_MAX then process eof (rdlen + n) c s else Panicked
              | (inr WouldBlock, c, s) => Return (inl (rdlen, wrlen), c, s)
              | (inr e, c, s) => Return (inr e, c, s)
              end
            else process eof rdlen c s
      end
  end.

Definition complete_io_async (wfuel fuel : nat) : tlsM (Z * Z) := λ c s,
  io_loop wfuel fuel (is_handshaking c) false 0 0 c s.

(** ** [Stream] *)

Definition wasiM (A : Type) : Type := C → S → outcome ((A + WasiError) * C * S).

Definition Stream_complete_io (wfuel fuel : nat) : wasiM unit := λ c s,
  '(r, c, s) ← complete_io_async wfuel fuel c s;
  Return (match r with inl _ => inl () | inr e => inr (errmap e) end, c, s).

(** [FdFlags]: exactly the non-blocking flag, none, or others *)
Inductive FdFlags : Type := NONBLOCK | NoFlags | OtherFlags.

Definition set_fdflags (fdflags : FdFlags) (s : S) : (unit + WasiError) * S :=
  let set (b : bool) := let '(r, s) := set_nonblocking b s in (match r with inl _ => inl () | inr e => inr (errmap e) end, s) in
  match fdflags with
  | NONBLOCK => set true
  | NoFlags => set false
  | OtherFlags => (inr Inval, s)
  end.

Definition Stream_read_vectored (wfuel fuel : nat) (len : Z) : wasiM Z := λ c s,
  '(r, c, s) ← Stream_complete_io wfuel fuel c s;
  match r with
  | inr e => Return (inr e, c, s)
  | inl _ => let '(n, c) := reader_read c len in Return (match n with inl n => inl n | inr e => inr (errmap e) end, c, s)
  end.

Definition Stream_write_vectored (wfuel fuel : nat) (bytes : list Z) : wasiM Z := λ c s,
  '(r, c, s) ← Stream_complete_io wfuel fuel c s;
  match r with
  | inr e => Return (inr e, c, s)
  | inl _ =>
      match writer_write c bytes with
      | (inr e, c) => Return (inr (errmap e), c, s)
      | (inl n, c) =>
          '(r, c, s) ← Stream_complete_io wfuel fuel c s;
          Return (match r with inl _ => inl n | inr e => inr e end, c, s)
      end
  end.

Definition Stream_readable (s : S) : unit + WasiError :=
  match is_read_write s with inl (true, _) => inl () | inl _ => inr Io | inr e => inr (errmap e) end.
Definition Stream_writable (s : S) : unit + WasiError :=
  match is_read_write s with inl (_, true) => inl () | inl _ => inr Io | inr e => inr (errmap e) end.

(** ** [Listener] *)

(** The new connection with its socket, and the listening socket *)
Definition sock_accept (wfuel fuel : nat) (fdflags : FdFlags) (listener : S) : outcome ((C * S + WasiError) * S) :=
  match socket_accept listener with
  | (inr e, listener) => Return (inr (errmap e), listener)
  | (inl tcp, listener) =>
      match server_connection with
      | None => Return (inr Io, listener)
      | Some tls =>
          match set_nonblocking false tcp with
          | (inr e, _) => Return (inr (errmap e), listener)
          | (inl _, tcp) =>
              '(r, tls, tcp) ← Stream_complete_io wfuel fuel tls tcp;
              match r with
              | inr e => Return (inr e, listener)
              | inl _ =>
                  match set_fdflags fdflags tcp with
                  | (inr e, _) => Return (inr e, listener)
                  | (inl _, tcp) => Return (inl (tls, tcp), listener)
                  end
              end
          end
      end
  end.

(** Files that take everything and give nothing: [Null], and [Listener] when it is read
    or written *)
Definition null_read (lens : list Z) : Z := 0.
Definition null_write (bufs : list (list Z)) : Z := foldr Z.add 0 ((λ b, Z.of_nat (length b)) <$> bufs).

(** ** What is promised *)

(** [unsent]: the bytes that a connection has to send.  Writing makes progress; a socket
    that blocks does not say that it would block; a new server connection begins with
    its handshake. *)
Class RustlsLaws := {
  unsent : C → Z;
  rl_unsent : ∀ c, 0 ≤ unsent c ≤ usize_MAX;
  rl_progress : ∀ c s n c' s', wants_write c = true → write_tls c s = (inl n, c', s') → 0 < n ∧ unsent c' = unsent c - n;
  rl_read_count : ∀ c s n c' s', read_tls c s = (inl n, c', s') → 0 ≤ n ≤ usize_MAX;
  rl_write_mode : ∀ c s r c' s', write_tls c s = (r, c', s') → nonblocking s' = nonblocking s;
  rl_read_mode : ∀ c s r c' s', read_tls c s = (r, c', s') → nonblocking s' = nonblocking s;
  rl_read_blocks : ∀ c s r c' s', read_tls c s = (r, c', s') → nonblocking s = false → r ≠ inr WouldBlock;
  rl_set_mode : ∀ b s r s', set_nonblocking b s = (inl r, s') → nonblocking s' = b;
  rl_server : ∀ c, server_connection = Some c → is_handshaking c = true;
}.

Context `{!RustlsLaws}.

Lemma tls_write_loop_total wfuel : ∀ wrlen c s, unsent c < Z.of_nat wfuel → 0 ≤ wrlen → wrlen + unsent c ≤ usize_MAX →
  ∃ r c' s', tls_write_loop wfuel wrlen c s = Return (r, c', s') ∧ nonblocking s' = nonblocking s.
Proof.
  induction wfuel as [|wfuel IH]; intros wrlen c s Hu Hw Hm; [pose proof (rl_unsent c); lia|]. cbn [tls_write_loop].
  destruct (wants_write c) eqn:Hww; [|by eexists _, _, _].
  destruct (write_tls c s) as [[[n|e] c1] s1] eqn:Ew; apply rl_write_mode in Ew as Hs; [|destruct e; by eexists _, _, _].
  destruct (rl_progress _ _ _ _ _ Hww Ew) as [Hn Hu1]. pose proof (rl_unsent c1).
  rewrite (proj2 (Z.leb_le _ _)) by lia. destruct (IH (wrlen + n) c1 s1) as (r & c' & s' & E & Hs'); [lia..|].
  exists r, c', s'. split; [done|]. by rewrite Hs'.
Qed.

Lemma tls_write_loop_mode wfuel : ∀ wrlen c s r c' s', tls_write_loop wfuel wrlen c s = Return (r, c', s') → nonblocking s' = nonblocking s.
Proof.
  induction wfuel as [|wfuel IH]; intros wrlen c s r c' s' E; cbn [tls_write_loop] in E; [done|].
  destruct (wants_write c); [|by injection E as _ _ <-].
  destruct (write_tls c s) as [[[n|e] c1] s1] eqn:Ew; apply rl_write_mode in Ew as Hs.
  - destruct (_ <=? _); [|done]. apply IH in E. by rewrite E.
  - destruct e; by injection E as _ _ <-.
Qed.

(** Input and output of an established connection ends.  One iteration of the loop is
    enough when the handshake is over, with as many writes as there are bytes to send;
    the counts do not overflow. *)
Theorem established_io_ends c s wfuel fuel : is_handshaking c = false → unsent c < Z.of_nat wfuel → (0 < fuel)%nat →
  ∃ r c' s', complete_io_async wfuel fuel c s = Return (r, c', s').
Proof.
  intros Hh Hu Hf. destruct fuel as [|fuel]; [lia|]. unfold complete_io_async. rewrite Hh. cbn [io_loop].
  destruct (tls_write_loop_total wfuel 0 c s Hu ltac:(lia) (proj2 (rl_unsent c))) as (r & c1 & s1 & -> & _).
  cbn [mbind outcome_bind]. destruct r as [wrlen|e]; [|by eexists _, _, _]. cbn [negb andb].
  destruct (0 <? wrlen); [by eexists _, _, _|]. destruct (wants_read c1).
  - destruct (read_tls c1 s1) as [[[n|e] c2] s2] eqn:Er; [|destruct e; by eexists _, _, _].
    apply rl_read_count in Er as Hn. rewrite (proj2 (Z.leb_le (0 + n) _)) by lia.
    destruct n; destruct (process_new_packets c2) as [[] c3]; try (by eexists _, _, _); destruct (write_tls c3 s2) as [[r c4] s3]; by eexists _, _, _.
  - destruct (process_new_packets c1) as [[] c3]; [by eexists _, _, _|]. destruct (write_tls c3 s1) as [[r c4] s3]. by eexists _, _, _.
Qed.

(** The handshake with a socket that blocks *)
Lemma io_loop_handshake wfuel fuel : ∀ eof rdlen wrlen c s x c' s', nonblocking s = false →
  io_loop wfuel fuel true eof rdlen wrlen c s = Return (inl x, c', s') → is_handshaking c' = false.
Proof.
  induction fuel as [|fuel IH]; intros eof rdlen wrlen c s x c' s' Hb E; cbn [io_loop] in E; [done|].
  destruct (tls_write_loop wfuel wrlen c s) as [[[w1 c1] s1]| | |] eqn:Ew; try discriminate E. apply tls_write_loop_mode in Ew.
  rewrite Hb in Ew. cbn [mbind outcome_bind] in E. destruct w1 as [w1|e]; [|done]. cbn [negb andb] in E.
  assert (∀ (eof : bool) (rdlen : Z) (c : C) (s : S), nonblocking s = false →
    match process_new_packets c with
    | (false, c) => let '(_, c, s) := write_tls c s in Return (inr InvalidData, c, flush s)
    | (true, c) =>
        if negb (is_handshaking c) then Return (inl (rdlen, w1), c, s)
        else if eof then Return (inr UnexpectedEof, c, s) else io_loop wfuel fuel true eof rdlen w1 c s
    end = Return (inl x, c', s') → is_handshaking c' = false) as Hp.
  { intros eof1 rdlen1 c2 s2 Hs2 E2. destruct (process_new_packets c2) as [[] c3].
    - destruct (is_handshaking c3) eqn:Hh; cbn [negb] in E2; [|by injection E2 as _ <- _].
      destruct eof1; [done|]. by eapply IH.
    - destruct (write_tls c3 s2) as [[r c4] s3]. done. }
  destruct (negb eof && wants_read c1); [|exact (Hp eof rdlen c1 s1 Ew E)].
  destruct (read_tls c1 s1) as [[[n|e] c2] s2] eqn:Er; apply rl_read_mode in Er as Hs2; rewrite Ew in Hs2.
  - destruct n; [exact (Hp true rdlen c2 s2 Hs2 E)| |]; (destruct (_ <=? _); [exact (Hp eof _ c2 s2 Hs2 E)|done]).
  - apply rl_read_blocks in Er as Hn; [|done]. by destruct e.
Qed.

(** C34: what a workload accepts is encrypted.  The connection that [sock_accept] returns has
    completed its handshake, and its socket blocks unless the workload asked for the
    opposite. *)
Theorem accepted_handshake wfuel fuel fdflags listener c s listener' :
  sock_accept wfuel fuel fdflags listener = Return (inl (c, s), listener') →
  is_handshaking c = false ∧ nonblocking s = match fdflags with NONBLOCK => true | _ => false end.
Proof.
  unfold sock_accept. destruct (socket_accept listener) as [[tcp|e] l1]; [|done].
  destruct server_connection as [tls|] eqn:Es; [|done]. apply rl_server in Es as Hh.
  destruct (set_nonblocking false tcp) as [[r|e] tcp1] eqn:Eb; [|done]. apply rl_set_mode in Eb.
  unfold Stream_complete_io, complete_io_async. rewrite Hh.
  destruct (io_loop wfuel fuel true false 0 0 tls tcp1) as [[[x c1] s1]| | |] eqn:Ei; try done. cbn [mbind outcome_bind].
  destruct x as [x|e]; [|done]. apply io_loop_handshake in Ei; [|done]. destruct fdflags; cbn [set_fdflags].
  - destruct (set_nonblocking true s1) as [[r2|e] s2] eqn:E2; [|done]. intros [= <- <- _]. split; [done|by apply rl_set_mode in E2].
  - destruct (set_nonblocking false s1) as [[r2|e] s2] eqn:E2; [|done]. intros [= <- <- _]. split; [done|by apply rl_set_mode in E2].
  - done.
Qed.

End tls.
