(* ===== verification/WasmSample.v ===== *)
(** * A small workload

    An environment in which the properties of [WasmLaws] are evaluated: a shim of SNP
    whose report is the nonce, a repository with one package behind a tag, and toy
    encodings. *)

From Stdlib Require Import Ascii.
From stdpp Require Import strings gmap pretty.
From S2P Require Import Prelude Libc WasmConfig WasmLoader WasmLaws WasmTls.

#[local] Open Scope string_scope.
#[local] Open Scope list_scope.
#[local] Open Scope Z_scope.

#[local] Instance string_urls : UrlOps :=
  {| Url := string; Url_parse s := Ok s; Url_as_str s := s; Url_scheme s := if String.prefix "https:" s then "https" else "other" |}.
#[local] Instance string_url_laws : UrlLaws.
Proof. by intros u. Qed.

(** ** Configurations *)

Definition sample_toml : Toml := TTable
  [("args", TArray [TString "-v"]); ("steward", TString "https://steward"); ("env", TTable [("A", TString "1")]);
   ("files", TArray [TTable [("kind", TString "stdin")];
                     TTable [("kind", TString "listen"); ("name", TString "LISTEN"); ("port", TInteger 80)];
                     TTable [("kind", TString "connect"); ("host", TString "example.com"); ("prot", TString "tcp")]])].

Definition sample_config : Config := mkConfig {["A" := "1"]} ["-v"]
  [Stdin None; Listen "LISTEN" "::" 80 Tls; Connect None "example.com" 443 Tcp] (Some "https://steward").

Lemma decoded_config_wf_witness : Config_deserialize sample_toml = Ok sample_config ∧ config_wf sample_config.
Proof.
  assert (Config_deserialize sample_toml = Ok sample_config) as E by (vm_compute; reflexivity).
  split; [exact E|]. exact (decoded_config_wf _ _ E).
Defined.

Lemma sample_config_wf : config_wf sample_config.
Proof. by repeat constructor. Qed.

Lemma config_roundtrip_witness : Config_deserialize (Config_serialize sample_config) = Ok sample_config.
Proof. exact (config_roundtrip sample_config sample_config_wf). Defined.

(** A host with colons is accepted, but then [FD_NAMES] has more names than there are files. *)
Definition colon_toml : Toml := TTable
  [("files", TArray [TTable [("kind", TString "connect"); ("host", TString "::1")]; TTable [("kind", TString "stdout")]])].

Lemma host_splits_names : ∃ c, Config_deserialize colon_toml = Ok c ∧ length (cfg_files c) = 2%nat ∧
  split_on ":" (String.concat ":" (File_name <$> cfg_files c)) = [""; ""; "1"; "stdout"].
Proof. eexists. split; [vm_compute; reflexivity|]. split; reflexivity. Qed.

(** ** An environment *)

#[local] Instance result_eq_dec {A : Type} `{EqDecision A} : EqDecision (result A).
Proof. solve_decision. Defined.
#[local] Instance PublicKeyInfo_eq_dec : EqDecision PublicKeyInfo.
Proof. solve_decision. Defined.
#[local] Instance Extension_eq_dec : EqDecision Extension.
Proof. solve_decision. Defined.
#[local] Instance CertReqInfo_eq_dec : EqDecision CertReqInfo.
Proof. solve_decision. Defined.
#[local] Instance CertReq_eq_dec : EqDecision CertReq.
Proof. solve_decision. Defined.

Definition toy_key : list Z := [3; 8; 4].
Definition toy_public : PublicKeyInfo := mkPublicKeyInfo (Ok (ECPK, Some P384)) toy_key.
Definition toy_hash : list Z := 9 :: repeat 1 47.
Definition toy_request : CertReq :=
  mkCertReq (mkCertReqInfo [mkExtension (Technology_oid Snp) false (toy_hash ++ repeat 0 16)] toy_public) ES384 (toy_key ++ [5; 5]).

Definition module_meta : Meta := mkMeta 2 WASM_MEDIA_TYPE "" [1; 1].
Definition listing_meta : Meta := mkMeta 1 "application/directory" "" [2; 2].
Definition tag_meta : Meta := mkMeta 3 "application/tag" "" [3; 3].

#[local] Instance toy_env : WasmEnv unit := {|
  sys_getatt nonce _ w := (64, 1, default [] nonce, w);
  sys_getkey _ w := (- ENOSYS, [], w);
  generate_pkcs8 _ w := (Ok toy_key, w);
  pki_from_der raw := Ok (mkPrivateKeyInfo (Ok (ECPK, Some P384)) raw raw);
  ec_public_key k := Ok (Some k);
  spki_to_vec pk := Ok (subject_public_key pk);
  ecdsa_sign_asn1 _ der body w := (Ok (der ++ body), w);
  wasm_sha256 _ := repeat 0 32;
  wasm_sha384 _ := toy_hash;
  cri_to_vec _ := Ok [5; 5];
  req_to_vec r := if bool_decide (r = toy_request) then Ok [1] else Err (-1);
  rdn_from_string _ := Ok [];
  extension_to_vec _ := Ok [];
  getrandom32 w := (Ok (repeat 1 32), w);
  uint_new _ := Ok ();
  tbs_to_vec _ := Ok [];
  certificate_to_vec _ sig := Ok sig;
  steward_post _ _ w := (Ok [], w);
  pki_path_from_der _ := Ok [];
  new_scoped _ := Ok ();
  top_get _ _ w := (Ok (tag_meta, Ok [7]), w);
  node_get _ path _ w :=
    if bool_decide (path = "") then (Ok (listing_meta, [8]), w)
    else if bool_decide (path = PACKAGE_ENTRYPOINT) then (Ok (module_meta, [0; 97]), w) else (Err (-1), w);
  TreeDirectory_TYPE := "application/directory";
  dir_from_json _ := Ok {[PACKAGE_ENTRYPOINT := module_meta]};
  tag_from_json _ := Ok (Unsigned listing_meta);
  string_from_utf8 _ := Ok "";
  toml_from_str _ := Ok sample_toml;
  read_fd _ w := (Ok [], w);
  tls_config_ok _ := Ok ();
  module_from_binary _ := Ok ();
  push_env l k v := Ok (l ++ [(k, v)]);
  push_arg l a := Ok (l ++ [a]);
  tcp_bind _ _ w := (Ok 5, w);
  tcp_connect _ _ w := (Ok 6, w);
  tls_handshake id _ _ w := (Ok id, w);
  isatty f _ := match f with StdinFile => true | _ => false end;
  default_results _ := Some 0%nat;
  call_default _ _ w := (Trapped (Some (Some 0)), w);
|}.

#[local] Instance toy_laws : WasmLaws unit.
Proof.
  refine {| parse_req bytes := if bool_decide (bytes = [1]) then Some toy_request else None;
            ecdsa_valid _ pk body sig := bool_decide (sig = subject_public_key pk ++ body);
            technology := Snp; attests nonce report := report = take 64 nonce |}.
  - intros l k v l'. by intros [= <-].
  - intros l a l'. by intros [= <-].
  - intros r bytes. cbn. case_bool_decide as E; [|done]. intros [= <-]. by rewrite E.
  - intros algo raw pki pk body w sig w' [= <-] [= <-] [= <- _]. by apply bool_decide_eq_true.
  - intros nonce buf w n t bytes w'. by intros [= <- <- _ _].
  - intros nonce buf w n t bytes w'. by intros [= <- <- <- _] _.
Defined.

Lemma key_attested_witness : ∃ rq report req, configured_next (Remote "https://repo") tt = Return (Ok rq, tt) ∧
  parse_req (crtreq rq) = Some req ∧ cri_extensions (req_info req) = [mkExtension (Technology_oid Snp) false report] ∧
  report = toy_hash ++ repeat 0 16.
Proof.
  assert (configured_next (Remote "https://repo") tt = Return (Ok (mkRequested (Remote "https://repo") toy_key [1]), tt)) as E
    by (vm_compute; reflexivity).
  destruct (key_attested _ _ _ _ E) as (n & rdx & bytes & w1 & kn & kb & w2 & w3 & Es & _ & _ & pki & pk & der & info & req & hash & report &
    _ & _ & _ & Hp & _ & _ & _ & He & _).
  eexists. exists report, req. split; [exact E|]. split; [exact Hp|]. cbn in Hp. injection Hp as <-. cbn in He.
  injection He as Ht <-. split; reflexivity.
Defined.

Lemma package_follows_tag_witness : ∃ m, fetch_remote "https://repo" tt = Return (Ok ([0; 97], None), tt) ∧
  node_get Tree PACKAGE_ENTRYPOINT MAX_WASM_SIZE tt = (Ok (m, [0; 97]), tt) ∧ m = module_meta.
Proof.
  assert (fetch_remote "https://repo" tt = Return (Ok ([0; 97], None), tt)) as E by (vm_compute; reflexivity).
  destruct (package_follows_tag _ _ _ _ _ listing_meta tag_meta [7] tt E eq_refl ltac:(done) ltac:(done) eq_refl)
    as [(_ & Hw & _)|(l & dir & [] & m & [] & _ & Hd & Hm & Hn & _)]; [done|].
  exists m. split; [exact E|]. split; [exact Hn|]. by injection Hn as <-.
Defined.

Definition toy_attested : Attested :=
  mkAttested (tls_config [] [] false) (tls_config [] [] true) sample_config [].

Lemma workload_files_witness : ∃ ctx names fs, compiled_next toy_attested tt = Return (Ok ctx, tt) ∧
  split_on ":" names = ["stdin"; "LISTEN"; "example.com"] ∧ ("FD_NAMES", names) ∈ ctx_env ctx ∧
  opens (srvcfg toy_attested) (cltcfg toy_attested) (cfg_files sample_config) tt fs tt.
Proof.
  assert (∃ ctx, compiled_next toy_attested tt = Return (Ok ctx, tt)) as [ctx E]
    by (eexists; vm_compute; reflexivity).
  destruct (workload_files _ _ _ _ E sample_config_wf) as (names & fs & He & _ & Hn & _ & Ho & _);
    [by repeat constructor|done|].
  exists ctx, names, fs. split; [exact E|]. split; [|split; [rewrite He; set_solver|exact Ho]].
  cbn in Hn. repeat (apply Forall2_cons_inv_l in Hn as (? & ? & Hx & Hn & ->); cbn in Hx; subst).
  by apply Forall2_nil_inv_l in Hn as ->.
Defined.

(** ** A connection: whether it is in the handshake, and whether a byte is to be sent.  The
    socket is whether it is non-blocking. *)

#[local] Instance toy_rustls : Rustls (bool * bool) bool := {|
  is_handshaking := fst;
  wants_write := snd;
  wants_read _ := true;
  write_tls c s := (if snd c then inl 1 else inr OtherKind, (fst c, false), s);
  read_tls c (s : bool) := (if s then inr WouldBlock else inl 5, c, s);
  process_new_packets c := (true, (false, snd c));
  flush s := s;
  reader_read c _ := (inl 0, c);
  writer_write c _ := (inl 0, (fst c, true));
  server_connection := Some (true, true);
  socket_accept (s : bool) := (inl false, s);
  set_nonblocking (b : bool) (_ : bool) := (inl (), b);
  nonblocking s := s;
  is_read_write _ := inl (true, true);
|}.

#[local] Instance toy_rustls_laws : RustlsLaws (C := bool * bool) (S := bool).
Proof.
  refine {| unsent := λ c : bool * bool, if snd c then 1 else 0 |}.
  - intros [h []]; cbn; unfold usize_MAX; lia.
  - intros [h b] s n c' s' Hw. cbn in Hw. subst b. cbn. intros [= <- <- _]. done.
  - intros c s n c' s'. cbn. destruct s; [done|]. intros [= <- _ _]. unfold usize_MAX. lia.
  - intros c s r c' s'. by intros [= _ _ <-].
  - intros c s r c' s'. by intros [= _ _ <-].
  - intros c s r c' s'. cbn. by intros [= <- _ _] ->.
  - intros b s r s'. by intros [= _ <-].
  - intros c. by intros [= <-].
Defined.

Lemma established_io_ends_witness : ∃ r c s, complete_io_async 2 1 (false, true) false = Return (r, c, s).
Proof. exact (established_io_ends (false, true) false 2 1 eq_refl ltac:(cbn; lia) ltac:(lia)). Defined.

Lemma accepted_handshake_witness : ∃ c s, sock_accept 2 1 NONBLOCK false = Return (inl (c, s), false) ∧ is_handshaking c = false.
Proof.
  assert (sock_accept 2 1 NONBLOCK false = Return (inl ((false, false), true), false)) as E by (vm_compute; reflexivity).
  eexists _, _. split; [exact E|]. exact (proj1 (accepted_handshake _ _ _ _ _ _ _ E)).
Defined.
